(* ===== verification/_CoqProject ===== *)
-Q . S2P
Prelude.v
Workers.v
Text.v
GoStrings.v
Durations.v
NetAddr.v
Amounts.v
Storage.v
Migrations.v
Drivers.v
Timestamps.v
Manifest.v
Database.v
SqlStore.v
SqlLaws.v
Hash.v
Chain.v
Address.v
Tx.v
SignerWire.v
SignerWireLaws.v
Signers.v
RemoteSigner.v
ExecSigner.v
SignerLaws.v
RemoteLaws.v
Sample.v
SignerSample.v
Fees.v
Sequences.v
Interference.v
Journals.v
Withdrawals.v
WithdrawalLaws.v
SignerSystem.v
ReviewResolution.v
WithdrawalSystem.v
Sweeps.v
SweepSystem.v
Services.v
OutflowSystem.v
ServiceLaws.v
SweepLaws.v
Parse.v
Reconcile.v
ReconcileLaws.v
Admin.v
AdminLaws.v
Calm.v
Pauses.v
Failover.v
Transport.v
TransportLaws.v
Deposits.v
DepositLaws.v
Scanner.v
ScannerLaws.v
AdapterConfig.v
ManifestTool.v
ManifestToolLaws.v
ManifestToolSample.v
Certification.v
CertificationLaws.v
Drills.v
DepositSystem.v
Startup.v
StartupLaws.v
StartupSample.v
