(* ===== verification/Prelude.v ===== *)
(** * A verification library for the Sovren exchange integration kit

    The kit ([src/go]) connects an exchange to a Cosmos chain.  Its parts:

    - [amounts], [address], [tx], [withdrawals/fees.go]: pure code that parses
      and prints amounts, validates addresses, builds and summarises transactions
      and computes fees;
    - [storage]: the domain records, their state machines and, in
      [storage/internal/sqlstore], the repositories over one SQL database;
    - [sequences]: assigns account sequence numbers to outgoing transactions;
    - [withdrawals]: the workflow REQUESTED ... SIGNED ... CONFIRMED, which
      reserves funds and a sequence, signs through the signer and broadcasts;
    - [deposits]: parses blocks against the watched addresses, records them
      with a checkpoint, and credits deposits through a transactional outbox;
    - [sweeps]: moves credited deposits to the hot wallet, planning each sweep,
      paying its fee from the source or from a capped fee wallet, and signing
      and confirming it like a withdrawal;
    - [reconcile]: compares the ledger with the chain, reports differences, and
      watches two nodes for disagreement, which closes the credit gate;
    - [client]: the network manifest, the transports to a node (CometBFT
      JSON-RPC and gRPC) and one client over two nodes ([failover.go]);
    - [signer]: the interface to whatever holds the keys, with three backends:
      keys in memory for tests, a remote service over gRPC, and a subprocess;
    - [cmd/sovren-adapter]: the configuration, the startup checks, the services
      that reconcile sequences at startup and drive withdrawals and sweeps, and
      the operator's HTTP interface: status, pause switches, reconciliation on
      demand and the resolution of records parked for review;
    - [cmd/sovren-manifest], [cmd/sovren-cert]: release tools, which generate and
      verify the manifest of a network and certify an integration.

    The workers of these parts run concurrently, in several processes, and meet
    only in the database.

    ** How the code is modelled

    A repository method is a transaction [db A = Store -> result err A * Store]
    (this file, [tx]); [store.WithTx] is [with_tx], which rolls back on error.
    A worker's method is a [handler] (file [Workers]): a finite program whose
    steps are transactions and calls to the node, the signer, the clock and the
    random source.  [run] executes a handler with an oracle for the calls;
    [exec R] executes it while other workers move the database along [R]
    between its transactions; [sys_step] interleaves any number of handlers,
    each of which may stop for good at any point.  Transactions are serial, as
    under the SQLite backend; a failed statement leaves the transaction usable.

    Integers are [Z] with the wrap-around of [uint32], [uint64] and [int64]
    conversions written out where the code converts.  Errors are the sentinel
    values the code tests with [errors.Is]; all others are [ErrOther], and a
    panic is [Panicked].  Code outside the repository (bech32, protobuf,
    secp256k1, YAML, the machine) is a parameter, the classes [Ext], [ScanExt],
    [Wire], [HD], [Codec], [Proto], [ManifestExt], [ToolExt] and [CertExt] and the
    records of the machine; laws assumed of it are named classes ([NumericLaws], [WireLaws] and
    the laws in [Address], [Tx] and [SignerLaws]) with a concrete model in
    [Sample], [SignerSample], [StartupSample] and [ManifestToolSample].  The release
    tools are programs of the same kind over a file system.  Everything is
    executable, so that the witnesses run the definitions on concrete input.

    ** Files

    - [Prelude]: results, transactions, and how to reason about them;
      [Workers]: handlers, executions, interleaving, rely/guarantee;
      [Text]: characters, regular expressions, decimal numerals; [GoStrings],
      [Durations], [NetAddr]: what the kit uses of the packages strings, time
      ([ParseDuration]) and net.
    - [Amounts] ([go/amounts]): conversion is exact, round-trips and rejects.
    - [Storage] ([storage/repo.go], [transitions.go], [errors.go]): enumerations,
      records, state machines.  [Database]: tables, statements and unique indexes.
      [SqlStore] ([sqlstore/*.go]): one definition per repository method.
      [SqlLaws]: every history of transactions keeps the schema; status updates
      and inserts as equations.  [Timestamps] (the times of [sqlstore.go]): the text
      columns sort as the times do.  [Migrations] ([storage/migrations]): however
      many processes start at once, each file is applied exactly once and in
      order.  [Drivers] ([storage/sqlite], [storage/postgres]): the connection
      options are always set, placeholders are numbered, and both dialects report
      the same constraint errors.
    - [Hash]: SHA-256 and hex, as the Go standard library computes them.
      [Chain] ([client/client.go], [signer/signer.go]): what the outside answers.
    - [Address] ([go/address/address.go]), [Tx] ([go/tx]), [Fees]
      ([withdrawals/fees.go]); [Sample] instantiates the library functions.
    - [SignerWire] ([gen/sovren/signer/v1/signer.pb.go]) and [SignerWireLaws]: the
      messages of the signing service round-trip and decoding always ends.
      [Signers] ([signer/*.go], [signer/local]), [RemoteSigner]
      ([signer/grpcremote]), [ExecSigner] ([signer/execsigner],
      [address/derive.go], [cmd/sovren-exec-signer-demo]): the backends.
      [SignerLaws]: the local signer signs exactly what it was shown.
      [RemoteLaws]: the remote and the subprocess signer are the signer behind
      them.  [SignerSystem]: the withdrawal workflow with a signer behind it
      signs a ready withdrawal, and waits for one that cannot be reached.
    - [Sequences] ([sequences/manager.go]): reservations never collide, are
      idempotent, and reconciliation acts on evidence.
    - [Interference]: what other workers can do to the database, most liberally:
      any committed transactions of repository methods.  [Journals]: under it the
      ledger, the fee outflows and the fee-wallet spends only grow.
    - [Withdrawals] ([withdrawals/workflow.go], [broadcast.go], [verify.go]) and
      [WithdrawalLaws]: funds are covered, only approved transfers are signed,
      fees are bounded, outcomes are reported on evidence, all under interference.
    - [ReviewResolution]: a resolution is one transaction and disposes of the
      sequence slot according to what may have been signed.
    - [Sweeps] ([sweeps/*.go]): the whole engine.  [WithdrawalSystem] and
      [SweepSystem]: the invariant and the guarantee of the two outflow
      workflows and that each handler keeps them.  [OutflowSystem]: no sequence
      slot carries two signatures and signed bytes are final, in every
      interleaving of both workflows with everything else.
    - [Services] ([sovren-adapter/withdrawals_service.go], [sweeper_service.go]):
      source discovery, startup reconciliation and the passes of the two
      services, which are workers of [OutflowSystem].  [ServiceLaws]: discovery
      ends and is complete for the statuses it asks for.
    - [SweepLaws]: constructors return well-formed configurations, a planned sweep
      is one its preparation accepts, the fee wallet's cap is checked against all
      it is committed to, and a sweep settles its deposits on evidence.
    - [Parse] ([deposits/parse.go], [watch.go]): deposits are exactly the external
      usovr outputs to watched addresses.
    - [Reconcile] ([reconcile/*.go]) and [ReconcileLaws]: the paged walk ends and
      misses no row, an address is compared with exactly what its ledger says,
      and the monitor opens a gate on every mismatch and lifts only transient
      ones after three clean checks.
    - [Admin] ([sovren-adapter/admin.go], [admin_controls.go]) and [AdminLaws]: a
      flow switch changes one switch, audited and visible at once, and a refused
      request changes nothing.  [Calm] and [Pauses]: under a pause no worker
      started after it signs or broadcasts on the chain, in every interleaving.
    - [Failover] ([client/failover.go]): a handler behind the pool refines the
      handler, broadcasting exactly what it broadcasts; the comparison matches
      exactly where the nodes agree; a failing node is demoted.
    - [Transport] ([client/client.go], [cometrpc.go], [grpc.go]) and
      [TransportLaws]: the two transports return the same results.
    - [Manifest] ([client/config.go]): a manifest is accepted exactly when it is
      well formed.  [AdapterConfig] ([sovren-adapter/config.go]): a configuration
      that loads is safe to run.  [Startup] ([main.go] and the services' setup)
      and [StartupLaws]: nothing starts on the wrong chain, no plaintext or
      in-memory signer on mainnet, and a loaded configuration sets its services
      up.
    - [Deposits] ([deposits/state.go]) and [DepositLaws]: a block is recorded as a
      whole, replay is harmless, deposits are routed, and a credit is one step
      with the check of its gate.
    - [Scanner] ([deposits/scanner.go]) and [ScannerLaws]: the scan leaves no gap;
      what the orphan flow does.
    - [ManifestTool] ([cmd/sovren-manifest]), [ManifestToolLaws],
      [ManifestToolSample]: a manifest that passes live verification is backed by
      what the network answered, value by value, and what [generate] writes
      passes verification.
    - [Certification] ([cmd/sovren-cert], [engine.go], [report.go], [cmd_run.go],
      [cmd_fund.go], [livechain.go]) and [CertificationLaws]: a run that exits 0
      vouches for every selected scenario, and no session is with mainnet.
      [Drills] ([stub_client.go], [group_n.go], [group_c.go]): the offline drills,
      put together from the components above, pass.
    - [DepositSystem]: a deposit is credited exactly once, in every interleaving
      of scanners, resolutions and other workers.

    Some lemmas record behaviour the code probably does not intend:
    [reconcile_aborts_on_reserved_included], [cancel_accepts_signed],
    [confirm_behind_node], [suspended_survives_orphaning], [revived_keeps_height],
    [fee_cap_overshoot], [negative_report_lost], [discovery_misses_included],
    [drive_several_steps], [drive_starves], [recover_ignores_pause],
    [set_but_empty], [seed_reactivates], [zero_adjustment_refused],
    [method_not_found_is_not_found], [simulate_latches], [subset_certifies].

    ** Bounds and fuel

    Recursion is structural throughout.  [Scanner.walk] takes the number of
    heights from the cursor to the tip, which is how often the Go loop runs.
    [numeral_fuel] takes one unit per binary digit, more than there are decimal
    digits.  The ticker loops of the two services take the number of ticks before
    the service is stopped, any number; other polling workers ([Run]) are the
    repeated spawning of their handler.  The paging loops of
    [Reconcile], unbounded in the code, take a number of pages and return the
    marker [OutOfFuel] when it is used up; [walk_ledger_terminates] says that one
    page more than the rows fill is enough, so the marker says nothing about
    the code; [paginateAll] likewise takes a number of batches, and
    [discovery_complete] says how many are enough.  The generated decoders take
    as many steps as there are bytes and answer [OutOfSteps] beyond;
    [signer_wire_roundtrip] says that they never do.  The field walk of the local
    signer takes the length of its input in the same way.  [retry] of the manifest
    tool takes the three attempts of the code.  The climb to the kit root takes two
    steps more than the path has characters; [ancestors_end] says that it then
    has reached a directory that is its own parent, where the Go loop stops.

    ** Not modelled

    HTTP routing and JSON: a request is modelled from its route and decoded body
    on.  YAML, JSON and protobuf codecs, TLS, processes and sockets are
    parameters.  Logging, alerts and metrics other than the gauges the
    reconciler mirrors have no effect on the state and are left out, and so are
    the tickers that start a pass.  Opening a connection and the row locks of
    PostgreSQL have no counterpart, since a transaction of the model is one step.
    Of the certification suite the drills that need a live chain, subprocesses or
    Prometheus are left out: their verdict is about a machine, not about the
    code; so is the Markdown of the report.  The vector generator and the store
    test suite ([cmd/sovren-vectors], [storage/internal/storetest]) are tests that
    record or compare what functions modelled here return.
    [sdkmath.Int] is [Z]: its panic beyond 256 bits is not
    modelled.  Free-text reasons that quote Go error messages are
    shortened. *)

From stdpp Require Import base list strings.
From Stdlib Require Import ZArith Lia.

(** ** Errors and results *)

Declare Scope kit_scope.
Delimit Scope kit_scope with kit.
Open Scope kit_scope.

(** A Go call returning [(A, error)] whose value is only used when the error
    is nil. *)
Inductive result (E A : Type) : Type :=
| Ok (a : A)
| Err (e : E).
Arguments Ok {E A} a.
Arguments Err {E A} e.

(** ** Database transactions: state passing with an error result *)

(** [tx S E A]: a computation over the database state [S].  The state is
    threaded even when the computation fails; rollback is [with_tx]. *)
Definition tx (S E A : Type) : Type := S -> result E A * S.

Definition tx_ret {S E A} (a : A) : tx S E A := fun s => (Ok a, s).
Definition tx_fail {S E A} (e : E) : tx S E A := fun s => (Err e, s).
Definition tx_bind {S E A B} (m : tx S E A) (f : A -> tx S E B) : tx S E B :=
  fun s => match m s with
           | (Ok a, s') => f a s'
           | (Err e, s') => (Err e, s')
           end.

(** The error of [m] becomes a value: Go code that inspects [err] before it
    decides to return it. *)
Definition tx_try {S E A} (m : tx S E A) : tx S E (result E A) :=
  fun s => let '(r, s') := m s in (Ok r, s').

(** Read a value out of the state. *)
Definition tx_get {S E A} (f : S -> A) : tx S E A := fun s => (Ok (f s), s).

(** Early returns: fail unless [b], fail with a validation error, return a
    computed result. *)
Definition tx_require {S E} (b : bool) (e : E) : tx S E unit :=
  if b then tx_ret tt else tx_fail e.
Definition tx_check {S E} (o : option E) : tx S E unit :=
  match o with None => tx_ret tt | Some e => tx_fail e end.
Definition tx_of {S E A} (r : result E A) : tx S E A := fun s => (r, s).

(** Commit on success, roll back on error. *)
Definition with_tx {S E A} (m : tx S E A) : tx S E A :=
  fun s => match m s with
           | (Ok a, s') => (Ok a, s')
           | (Err e, _) => (Err e, s)
           end.

Notation "'do' x <- m ; k" := (tx_bind m (fun x => k))
  (at level 100, x name, m at next level, k at level 200, right associativity) : kit_scope.
Notation "'do' ' p <- m ; k" := (tx_bind m (fun x => match x with p => k end))
  (at level 100, p pattern, m at next level, k at level 200, right associativity) : kit_scope.
Notation "'do_' m ; k" := (tx_bind m (fun _ => k))
  (at level 100, m at next level, k at level 200, right associativity) : kit_scope.

(** Run [m] for every element, stopping at the first error. *)
Fixpoint tx_for {S E A} (l : list A) (m : A -> tx S E unit) : tx S E unit :=
  match l with
  | [] => tx_ret tt
  | a :: l' => do_ m a; tx_for l' m
  end.

(** Thread an accumulator through the elements. *)
Fixpoint tx_fold {S E A B} (l : list A) (m : B -> A -> tx S E B) (b : B) : tx S E B :=
  match l with
  | [] => tx_ret b
  | a :: l' => do b' <- m b a; tx_fold l' m b'
  end.

(** ** Reasoning about transactions *)

Section tx_lemmas.
Context {S E : Type}.

Lemma tx_bind_ok {A B} (m : tx S E A) (f : A -> tx S E B) s b s'' :
  tx_bind m f s = (Ok b, s'') ->
  exists a s', m s = (Ok a, s') /\ f a s' = (Ok b, s'').
Proof. unfold tx_bind. destruct (m s) as [[a|e] s']; [eauto | discriminate]. Qed.

Lemma tx_bind_err {A B} (m : tx S E A) (f : A -> tx S E B) s e s'' :
  tx_bind m f s = (Err e, s'') ->
  m s = (Err e, s'') \/ exists a s', m s = (Ok a, s') /\ f a s' = (Err e, s'').
Proof.
  unfold tx_bind. destruct (m s) as [[a|e'] s']; [eauto |].
  intros [= -> ->]. by left.
Qed.

Lemma tx_get_bind {A B} (f : S -> A) (k : A -> tx S E B) s :
  tx_bind (tx_get f) k s = k (f s) s.
Proof. done. Qed.
Lemma tx_ret_bind {A B} (a : A) (k : A -> tx S E B) s : tx_bind (tx_ret a) k s = k a s.
Proof. done. Qed.
Lemma tx_bind_assoc {A B C} (m : tx S E A) (f : A -> tx S E B) (g : B -> tx S E C) s :
  tx_bind (tx_bind m f) g s = tx_bind m (fun a => tx_bind (f a) g) s.
Proof. unfold tx_bind. by destruct (m s) as [[?|?] ?]. Qed.
Lemma tx_require_ok {B} b (e : E) (k : unit -> tx S E B) s x s' :
  tx_bind (tx_require b e) k s = (Ok x, s') -> b = true /\ k tt s = (Ok x, s').
Proof. unfold tx_bind, tx_require. by destruct b. Qed.
Lemma tx_check_ok {B} o (k : unit -> tx S E B) s x s' :
  tx_bind (tx_check o) k s = (Ok x, s') -> o = None /\ k tt s = (Ok x, s').
Proof. unfold tx_bind, tx_check. by destruct o. Qed.
Lemma tx_of_ok {A B} (r : result E A) (k : A -> tx S E B) s x s' :
  tx_bind (tx_of r) k s = (Ok x, s') -> exists a, r = Ok a /\ k a s = (Ok x, s').
Proof. unfold tx_bind, tx_of. destruct r; [eauto | done]. Qed.

Lemma with_tx_ok {A} (m : tx S E A) s a s' :
  with_tx m s = (Ok a, s') -> m s = (Ok a, s').
Proof. unfold with_tx. destruct (m s) as [[?|?] ?]; congruence. Qed.
Lemma with_tx_commit {A} (m : tx S E A) s a s' :
  m s = (Ok a, s') -> with_tx m s = (Ok a, s').
Proof. unfold with_tx. by intros ->. Qed.

(** Atomicity: a failed transaction leaves the database as it was. *)
Lemma with_tx_err {A} (m : tx S E A) s e s' :
  with_tx m s = (Err e, s') -> s' = s.
Proof. unfold with_tx. destruct (m s) as [[?|?] ?]; congruence. Qed.

(** [preserves R m]: every run of [m], successful or not, moves the state
    along [R]. *)
Definition preserves {A} (R : S -> S -> Prop) (m : tx S E A) : Prop :=
  forall s, R s (snd (m s)).

Context (R : S -> S -> Prop) `{!PreOrder R}.

Lemma preserves_ret {A} (a : A) : preserves R (tx_ret a).
Proof. intros s. reflexivity. Qed.
Lemma preserves_fail {A} (e : E) : preserves R (tx_fail (A:=A) e).
Proof. intros s. reflexivity. Qed.
Lemma preserves_get {A} (f : S -> A) : preserves R (tx_get (E:=E) f).
Proof. intros s. reflexivity. Qed.
Lemma preserves_require b (e : E) : preserves R (tx_require b e).
Proof. intros s. by destruct b. Qed.
Lemma preserves_check (o : option E) : preserves R (tx_check o).
Proof. intros s. by destruct o. Qed.
Lemma preserves_of {A} (r : result E A) : preserves R (tx_of r).
Proof. intros s. reflexivity. Qed.
Lemma preserves_bind {A B} (m : tx S E A) (f : A -> tx S E B) :
  preserves R m -> (forall a, preserves R (f a)) -> preserves R (tx_bind m f).
Proof.
  intros Hm Hf s. unfold tx_bind. specialize (Hm s).
  destruct (m s) as [[a|e] s'] eqn:Hs; simpl in *; [|done].
  etransitivity; [exact Hm | apply Hf].
Qed.
(** What follows a guard may use it. *)
Lemma preserves_guard {B} b (e : E) (m : tx S E B) :
  (b = true -> preserves R m) -> preserves R (tx_bind (tx_require b e) (fun _ => m)).
Proof. intros Hm s. unfold tx_bind, tx_require. destruct b; [by apply Hm | reflexivity]. Qed.
Lemma preserves_checked {B} (o : option E) (m : tx S E B) :
  (o = None -> preserves R m) -> preserves R (tx_bind (tx_check o) (fun _ => m)).
Proof. intros Hm s. unfold tx_bind, tx_check. destruct o; [reflexivity | by apply Hm]. Qed.
Lemma preserves_try {A} (m : tx S E A) : preserves R m -> preserves R (tx_try m).
Proof. intros Hm s. specialize (Hm s). unfold tx_try. by destruct (m s). Qed.
Lemma preserves_with_tx {A} (m : tx S E A) : preserves R m -> preserves R (with_tx m).
Proof.
  intros Hm s. specialize (Hm s). unfold with_tx.
  destruct (m s) as [[a|e] s'] eqn:?; [done | reflexivity].
Qed.
Lemma preserves_for {A} (l : list A) (m : A -> tx S E unit) :
  (forall a, preserves R (m a)) -> preserves R (tx_for l m).
Proof. intros Hm. induction l; simpl; auto using preserves_ret, preserves_bind. Qed.
Lemma preserves_fold {A B} (l : list A) (m : B -> A -> tx S E B) b :
  (forall b a, preserves R (m b a)) -> preserves R (tx_fold l m b).
Proof.
  intros Hm. revert b. induction l; intros b; simpl; auto using preserves_ret, preserves_bind.
Qed.
End tx_lemmas.

(** Invert a successful run, one statement at a time. *)
Ltac inv_tx H :=
  repeat first
    [ rewrite tx_get_bind in H | rewrite tx_ret_bind in H | rewrite tx_bind_assoc in H
    | apply tx_require_ok in H as [?Hg H] | apply tx_check_ok in H as [?Hv H]
    | let a := fresh "a" in apply tx_of_ok in H as (a & ?Ha & H) ].
Ltac inv_tx1 H := let a := fresh "a" in let s := fresh "s" in let H1 := fresh "Hm" in
  apply tx_bind_ok in H as (a & s & H1 & H).

Create HintDb kit.
#[export] Hint Resolve preserves_ret preserves_fail preserves_get preserves_require preserves_check preserves_of preserves_bind
  preserves_try preserves_with_tx preserves_for preserves_fold : kit.

(** ** Filters *)

Lemma filter_and {A} (p q : A -> bool) l :
  List.filter (fun a => p a && q a) l = List.filter q (List.filter p l).
Proof. induction l as [|a l IH]; simpl; [done|]. destruct (p a); simpl; [destruct (q a)|]; by rewrite IH. Qed.

Lemma filter_none {A} (p : A -> bool) l : (forall b, b ∈ l -> p b = false) -> List.filter p l = [].
Proof.
  induction l as [|a l IH]; intros H; simpl; [done|]. rewrite (H a) by by left. apply IH.
  intros b Hb. apply H. by right.
Qed.
