(* ===== verification/Workers.v ===== *)
(** * Concurrent workers over one database

    A handler of the kit (a scanner cycle step, [Workflow.Sign], ...) is a
    finite program whose atomic actions are database transactions and whose
    other actions are calls to code outside the repository: the chain node,
    the signer, the clock.  [run] gives the sequential meaning of a handler;
    [sys_step] interleaves any number of handlers at the granularity of their
    transactions, with every outside call answered arbitrarily, and lets a
    handler stop forever at any point (a crash).  [safe] is the proof
    obligation of one handler against a rely/guarantee relation and an
    invariant, and [sys_safe] lifts it to the whole system. *)

From stdpp Require Import base list relations.
From S2P Require Import Prelude.

Section programs.
Context {S : Type} {C : Type -> Type}.

Inductive prog (A : Type) : Type :=
| Done (a : A)
| Txn {X : Type} (t : S -> X * S) (k : X -> prog A)
| Call {X : Type} (c : C X) (k : X -> prog A).
Arguments Done {A} a.
Arguments Txn {A X} t k.
Arguments Call {A X} c k.

Fixpoint p_bind {A B} (p : prog A) (f : A -> prog B) : prog B :=
  match p with
  | Done a => f a
  | Txn t k => Txn t (fun x => p_bind (k x) f)
  | Call c k => Call c (fun x => p_bind (k x) f)
  end.

(** Outside calls are answered by an oracle; [run] also returns the calls
    made, in order. *)
Definition oracle : Type := forall X : Type, C X -> X.

Record outcome (A : Type) : Type := Outcome {
  o_value : A;
  o_state : S;
  o_calls : list { X : Type & C X } }.
Arguments Outcome {A} _ _ _.
Arguments o_value {A} _.
Arguments o_state {A} _.
Arguments o_calls {A} _.

Fixpoint run {A} (o : oracle) (p : prog A) (s : S) : outcome A :=
  match p with
  | Done a => Outcome a s []
  | Txn t k => let '(x, s') := t s in run o (k x) s'
  | Call c k =>
      let r := run o (k (o _ c)) s in
      Outcome (o_value r) (o_state r) (existT _ c :: o_calls r)
  end.

Lemma run_bind {A B} o (p : prog A) (f : A -> prog B) s :
  run o (p_bind p f) s =
    let r := run o p s in
    let r' := run o (f (o_value r)) (o_state r) in
    Outcome (o_value r') (o_state r') (o_calls r ++ o_calls r').
Proof.
  revert s. induction p as [a|X t k IH|X c k IH]; intros s; simpl.
  - by destruct (run o (f a) s).
  - destruct (t s) as [x s']. apply IH.
  - by rewrite IH.
Qed.

(** ** Executions under interference *)

Section executions.
Context (R : S -> S -> Prop).

(** [exec p s tr a s']: the handler [p], started when the database was
    [s], can return [a] with the database at [s'] after its last
    transaction, the other workers having moved the database along [R]
    before each of its transactions; [tr] is the outside calls with the
    answers they got. *)
Fixpoint exec {A} (p : prog A) (s : S) (tr : list { X : Type & (C X * X)%type })
    (a : A) (s' : S) : Prop :=
  match p with
  | Done a' => tr = [] /\ a = a' /\ s' = s
  | Txn t k => exists s1, R s s1 /\ exec (k (fst (t s1))) (snd (t s1)) tr a s'
  | Call c k => exists x tr', tr = existT _ (c, x) :: tr' /\ exec (k x) s tr' a s'
  end.

Lemma exec_bind {A B} (p : prog A) (f : A -> prog B) s tr b s'' :
  exec (p_bind p f) s tr b s'' <->
  exists a s' tr1 tr2, tr = tr1 ++ tr2 /\ exec p s tr1 a s' /\ exec (f a) s' tr2 b s''.
Proof.
  revert s tr. induction p as [a|X t k IH|X c k IH]; intros s tr; simpl.
  - split.
    + intros H. by exists a, s, [], tr.
    + by intros (a' & s' & tr1 & tr2 & -> & (-> & -> & ->) & H).
  - split.
    + intros (s1 & HR & H). apply IH in H as (a & s' & tr1 & tr2 & -> & H1 & H2).
      exists a, s', tr1, tr2. eauto.
    + intros (a & s' & tr1 & tr2 & -> & (s1 & HR & H1) & H2). exists s1. split; [done|].
      apply IH. eauto 10.
  - split.
    + intros (x & tr' & -> & H). apply IH in H as (a & s' & tr1 & tr2 & -> & H1 & H2).
      exists a, s', (existT _ (c, x) :: tr1), tr2. eauto 10.
    + intros (a & s' & tr1 & tr2 & -> & (x & tr' & -> & H1) & H2).
      exists x, (tr' ++ tr2). split; [done|]. apply IH. eauto 10.
Qed.

(** An uninterfered run is an execution. *)
Lemma run_exec {A} o (p : prog A) s `{!Reflexive R} :
  exists tr, exec p s tr (o_value (run o p s)) (o_state (run o p s)).
Proof.
  revert s. induction p as [a|X t k IH|X c k IH]; intros s; simpl.
  - by exists [].
  - destruct (t s) as [x s'] eqn:E. destruct (IH x s') as [tr H]. exists tr, s.
    by rewrite E.
  - destruct (IH (o X c) s) as [tr H]. exists (existT _ (c, o X c) :: tr), (o X c), tr. done.
Qed.
End executions.

(** ** Rely/guarantee obligation of one handler *)

Section safety.
Context (R : S -> S -> Prop) (I : S -> Prop).
Context (callok : forall X, C X -> S -> Prop).

(** [s] is the last state the handler saw.  Before each of its
    transactions the other workers may have moved the database along [R]
    within [I]; the transaction itself must do the same.  Every outside
    call must be allowed, whatever its answer. *)
Fixpoint safe {A} (p : prog A) (s : S) : Prop :=
  match p with
  | Done _ => True
  | Txn t k => forall s1, R s s1 -> I s1 ->
      R s1 (snd (t s1)) /\ I (snd (t s1)) /\ safe (k (fst (t s1))) (snd (t s1))
  | Call c k => (forall s1, R s s1 -> I s1 -> callok _ c s1) /\
      forall x, safe (k x) s
  end.

Context `{!PreOrder R}.

Lemma safe_mono {A} (p : prog A) s s' : safe p s -> R s s' -> safe p s'.
Proof.
  revert s s'. induction p as [a|X t k IH|X c k IH]; intros s s'; simpl.
  - done.
  - intros H Hs s1 Hs1 HI. apply H; [by etransitivity | done].
  - intros [Hc Hk] Hs. split; [|eauto].
    intros s1 Hs1 HI. apply Hc; [by etransitivity | done].
Qed.

Lemma safe_bind {A B} (p : prog A) (f : A -> prog B) s :
  safe p s -> (forall a s', R s s' -> safe (f a) s') -> safe (p_bind p f) s.
Proof.
  revert s. induction p as [a|X t k IH|X c k IH]; intros s; simpl.
  - intros _ Hf. by apply Hf.
  - intros H Hf s1 Hs1 HI. destruct (H s1 Hs1 HI) as (HR & HI' & Hk).
    repeat split; [done..|]. apply IH; [done|].
    intros a s' Hs'. apply Hf. etransitivity; [exact Hs1|].
    by etransitivity.
  - intros [Hc Hk] Hf. split; [done|]. intros x. by apply IH.
Qed.

(** ** Interleaving *)

Context (H : prog unit -> Prop).

Record system : Type := System {
  sys_db : S;
  sys_pool : list (prog unit);
  sys_calls : list { X : Type & C X } }.

Inductive sys_step : system -> system -> Prop :=
| step_spawn p s ps cs :
    H p -> sys_step (System s ps cs) (System s (p :: ps) cs)
| step_txn s ps1 X (t : S -> X * S) k ps2 cs :
    sys_step (System s (ps1 ++ Txn t k :: ps2) cs)
             (System (snd (t s)) (ps1 ++ k (fst (t s)) :: ps2) cs)
| step_call s ps1 X (c : C X) k x ps2 cs :
    sys_step (System s (ps1 ++ Call c k :: ps2) cs)
             (System s (ps1 ++ k x :: ps2) (cs ++ [existT X c])).

(** Running one handler to its end, uninterrupted, is one interleaving. *)
Lemma run_steps (o : oracle) (p : prog unit) s ps cs :
  rtc sys_step (System s (p :: ps) cs)
    (System (o_state (run o p s)) (Done (o_value (run o p s)) :: ps) (cs ++ o_calls (run o p s))).
Proof.
  revert s cs. induction p as [a|X t k IH|X c k IH]; intros s cs; simpl.
  - rewrite app_nil_r. constructor.
  - eapply rtc_l; [exact (step_txn s [] X t k ps cs)|]. simpl.
    destruct (t s) as [x s'] eqn:E. simpl. apply IH.
  - eapply rtc_l; [exact (step_call s [] X c k (o X c) ps cs)|]. simpl.
    specialize (IH (o X c) s (cs ++ [existT X c])). by rewrite <-app_assoc in IH.
Qed.
Lemma run_sys (o : oracle) (p : prog unit) s ps cs :
  H p -> rtc sys_step (System s ps cs)
    (System (o_state (run o p s)) (Done (o_value (run o p s)) :: ps) (cs ++ o_calls (run o p s))).
Proof. intros Hp. eapply rtc_l; [by apply step_spawn | apply run_steps]. Qed.

Definition sys_ok (s0 : S) (y : system) : Prop :=
  I (sys_db y) /\ R s0 (sys_db y) /\ Forall (fun p => safe p (sys_db y)) (sys_pool y).

Hypothesis Hsafe : forall p s, H p -> I s -> safe p s.

Lemma sys_step_ok s0 y y' : sys_ok s0 y -> sys_step y y' -> sys_ok s0 y'.
Proof.
  intros (HI & HR & HF) Hst. destruct Hst; unfold sys_ok in *; simpl in *.
  - split_and!; [done..|]. constructor; auto.
  - apply Forall_app in HF as [HF1 HF2].
    apply Forall_cons in HF2 as [Ht HF2]. simpl in Ht.
    destruct (Ht s ltac:(reflexivity) HI) as (HR' & HI' & Hk).
    split_and!; [done | by etransitivity |].
    assert (forall l : list (prog unit), Forall (fun p => safe p s) l ->
              Forall (fun p => safe p (snd (t s))) l) as Hmono.
    { intros l Hl. eapply Forall_impl; [exact Hl|].
      intros p Hp. exact (safe_mono p s _ Hp HR'). }
    apply Forall_app; split; [|constructor]; auto.
  - apply Forall_app in HF as [HF1 HF2].
    apply Forall_cons in HF2 as [[Hc Hk] HF2].
    split_and!; [done..|]. apply Forall_app; split; [done|]. by constructor.
Qed.

(** Every reachable state satisfies the invariant and extends the initial
    one, whatever the interleaving. *)
Lemma sys_safe s0 y :
  I s0 -> rtc sys_step (System s0 [] []) y -> sys_ok s0 y.
Proof.
  intros HI Hst.
  assert (sys_ok s0 (System s0 [] [])) as Hok.
  { split_and!; simpl; [done | reflexivity | constructor]. }
  revert Hok. generalize (System s0 [] []) as y0, Hst. clear Hst.
  intros y0 Hst. induction Hst; eauto using sys_step_ok.
Qed.

(** From a reachable state on, the database moves along [R]. *)
Lemma sys_extends y y' :
  I (sys_db y) -> Forall (fun p => safe p (sys_db y)) (sys_pool y) -> rtc sys_step y y' ->
  R (sys_db y) (sys_db y').
Proof.
  intros HI Hp Hst. assert (sys_ok (sys_db y) y) as Hy by (split_and!; [done|reflexivity|done]).
  clear HI Hp. revert Hy. generalize (sys_db y) as s0. intros s0 Hy.
  induction Hst as [|a b c Hab _ IH]; [apply Hy|]. apply IH. by eapply sys_step_ok.
Qed.

(** Every outside call made on the way was allowed in the state it was
    made in; with [callok] stable along [R], it still is. *)
Hypothesis Hstable : forall X (c : C X) s s', callok X c s -> R s s' -> callok X c s'.

Definition calls_ok (y : system) : Prop :=
  Forall (fun c => callok (projT1 c) (projT2 c) (sys_db y)) (sys_calls y).

Lemma sys_step_calls_ok s0 y y' :
  sys_ok s0 y -> calls_ok y -> sys_step y y' -> calls_ok y'.
Proof.
  unfold calls_ok. intros (HI & _ & HF) Hcs Hst. destruct Hst; simpl in *; [done|..].
  - apply Forall_app in HF as [_ HF2].
    apply Forall_cons in HF2 as [Ht _]. simpl in Ht.
    destruct (Ht s ltac:(reflexivity) HI) as (HR' & _).
    eapply Forall_impl; [exact Hcs|]. intros [Y c] Hc. exact (Hstable _ _ _ _ Hc HR').
  - apply Forall_app in HF as [_ HF2].
    apply Forall_cons in HF2 as [[Hc _] _].
    apply Forall_app; split; [done|]. constructor; [|done]. simpl.
    apply Hc; [reflexivity | done].
Qed.

Lemma sys_calls_ok s0 y :
  I s0 -> rtc sys_step (System s0 [] []) y -> calls_ok y.
Proof.
  intros HI Hst.
  assert (sys_ok s0 (System s0 [] []) /\ calls_ok (System s0 [] [])) as Hok.
  { repeat split; simpl; [done | reflexivity | constructor..]. }
  revert Hok. generalize (System s0 [] []) as y0, Hst. clear Hst.
  intros y0 Hst. induction Hst; [by intros [_ ?]|].
  intros [Hok Hcs]. eauto using sys_step_ok, sys_step_calls_ok.
Qed.
End safety.
End programs.

Arguments prog : clear implicits.
Arguments Done {S C A} a.
Arguments Txn {S C A X} t k.
Arguments Call {S C A X} c k.
Arguments Outcome {S C A} _ _ _.
Arguments o_value {S C A} _.
Arguments o_state {S C A} _.
Arguments o_calls {S C A} _.

(** Sequencing of handlers that return a plain value, and of handlers that
    return a [result] and stop at the first error. *)
Definition r_bind {S C E A B} (p : prog S C (result E A))
    (f : A -> prog S C (result E B)) : prog S C (result E B) :=
  p_bind p (fun r => match r with Ok a => f a | Err e => Done (Err e) end).

(** Run [f] for every element, stopping at the first error. *)
Fixpoint r_for {S C E A} (l : list A) (f : A -> prog S C (result E unit)) : prog S C (result E unit) :=
  match l with
  | [] => Done (Ok tt)
  | a :: l' => r_bind (f a) (fun _ => r_for l' f)
  end.

Notation "'let*' x := p 'in' k" := (p_bind p (fun x => k))
  (at level 100, x name, p at next level, k at level 200, right associativity) : kit_scope.
Notation "'let?' x := p 'in' k" := (r_bind p (fun x => k))
  (at level 100, x name, p at next level, k at level 200, right associativity) : kit_scope.
Notation "'let?' ' x := p 'in' k" := (r_bind p (fun y => match y with x => k end))
  (at level 100, x pattern, p at next level, k at level 200, right associativity) : kit_scope.

(** One SQL statement or one repository method: atomic on its own. *)
Definition stmt {S C E A} (m : tx S E A) : prog S C (result E A) := Txn (with_tx m) Done.
(** [store.WithTx(ctx, fn)]. *)
Definition atomically {S C E A} (m : tx S E A) : prog S C (result E A) := Txn (with_tx m) Done.
Definition ask {S C X} (c : C X) : prog S C X := Call c Done.

(** ** Handlers that keep an invariant and a guarantee *)

Section tame.
Context {S : Type} {C : Type -> Type} {E : Type}.
Context (R : S -> S -> Prop) (I : S -> Prop) (callok : forall X, C X -> S -> Prop) `{!PreOrder R}.
Notation ok := (safe R I callok).

(** Guarantee and invariant together, as the relation a transaction moves
    along. *)
Definition moves (s s' : S) : Prop := I s -> R s s' /\ I s'.

#[export] Instance moves_preorder : PreOrder moves.
Proof.
  split.
  - intros s Hs. split; [reflexivity | done].
  - intros a b c Hab Hbc Ha. destruct (Hab Ha) as [Eab Hb]. destruct (Hbc Hb) as [Ebc Hc].
    split; [by etransitivity | done].
Qed.

Lemma with_tx_moves {A} (m : tx S E A) s r s' :
  (forall a s', m s = (Ok a, s') -> moves s s') -> with_tx m s = (r, s') -> moves s s'.
Proof.
  intros Hm H. destruct r; [apply with_tx_ok in H; eauto | apply with_tx_err in H as ->; reflexivity].
Qed.

Lemma ok_stmt {A B} (m : tx S E A) (k : result E A -> prog S C B) s :
  (forall s1 a s2, R s s1 -> I s1 -> m s1 = (Ok a, s2) -> moves s1 s2) ->
  (forall s1 r s2, R s s1 -> I s1 -> with_tx m s1 = (r, s2) -> I s2 -> R s s2 -> ok (k r) s2) ->
  ok (p_bind (stmt m) k) s.
Proof.
  intros Hm Hk s1 Hs Hs1. destruct (with_tx m s1) as [r s2] eqn:Ew. cbn [fst snd].
  destruct (with_tx_moves m s1 r s2 (fun a s' => Hm s1 a s' Hs Hs1) Ew Hs1) as [He Hs2].
  split_and!; [done..|]. eapply Hk; [exact Hs|done..|by etransitivity].
Qed.

(** Handlers that are safe whatever they read. *)
Definition tame {A} (p : prog S C A) : Prop := forall s, ok p s.

Lemma tame_done {A} (a : A) : tame (Done a).
Proof. done. Qed.
Lemma tame_bind {A B} (p : prog S C A) (f : A -> prog S C B) :
  tame p -> (forall a, tame (f a)) -> tame (p_bind p f).
Proof. intros Hp Hf s. apply safe_bind; [apply _|apply Hp|]. intros a s' _. apply Hf. Qed.
Lemma tame_r_bind {A B} (p : prog S C (result E A)) (f : A -> prog S C (result E B)) :
  tame p -> (forall a, tame (f a)) -> tame (r_bind p f).
Proof. intros Hp Hf. apply tame_bind; [done|]. intros [a|e]; [apply Hf | apply tame_done]. Qed.
Lemma tame_r_for {A} (l : list A) (f : A -> prog S C (result E unit)) :
  (forall a, tame (f a)) -> tame (r_for l f).
Proof. intros Hf. induction l as [|a l IH]; simpl; [done|]. by apply tame_r_bind. Qed.
Lemma tame_stmt {A} (m : tx S E A) : preserves moves m -> tame (stmt m).
Proof.
  intros Hm s s1 _ Hs1. destruct (preserves_with_tx moves m Hm s1 Hs1). done.
Qed.
Lemma tame_stmt_ok {A} (m : tx S E A) : (forall s a s', m s = (Ok a, s') -> moves s s') -> tame (stmt m).
Proof.
  intros Hm s s1 _ Hs1. destruct (with_tx m s1) as [r s2] eqn:Ew. cbn [fst snd].
  destruct (with_tx_moves m s1 r s2 (Hm s1) Ew Hs1). done.
Qed.
Lemma tame_atomically {A} (m : tx S E A) : preserves moves m -> tame (atomically m).
Proof. apply tame_stmt. Qed.
Lemma tame_ask {X} (c : C X) : (forall s, callok X c s) -> tame (ask c).
Proof. intros Hc s. split; [intros; apply Hc | done]. Qed.
Lemma tame_forget {A} (p : prog S C A) s : ok p s -> ok (p_bind p (fun _ => Done tt)) s.
Proof. intros Hp. by apply safe_bind; [apply _| |]. Qed.
End tame.

(** ** Stronger guarantees *)

Section strengthen.
Context {S : Type} {C : Type -> Type}.

(** Every transaction of the handler moves along [F], from any state. *)
Fixpoint frames {A} (F : S -> S -> Prop) (p : prog S C A) : Prop :=
  match p with
  | Done _ => True
  | Txn t k => (forall s, F s (snd (t s))) /\ forall x, frames F (k x)
  | Call _ k => forall x, frames F (k x)
  end.

Lemma frames_bind {A B} F (p : prog S C A) (f : A -> prog S C B) :
  frames F p -> (forall a, frames F (f a)) -> frames F (p_bind p f).
Proof. induction p; simpl; naive_solver. Qed.

(** A handler whose frame is part of the interference only ever moves along
    it. *)
Lemma exec_frames {A} (R : S -> S -> Prop) `{!PreOrder R} (p : prog S C A) s tr a s' :
  frames R p -> exec R p s tr a s' -> R s s'.
Proof.
  revert s tr. induction p as [b|X t k IH|X c k IH]; intros s tr; simpl.
  - by intros _ (_ & _ & ->).
  - intros [Ht Hk] (s1 & Hs & H). etransitivity; [exact Hs|]. etransitivity; [apply Ht|]. by eapply IH.
  - intros Hk (x & tr' & -> & H). by eapply IH.
Qed.

(** Every outside call of the handler, whatever it is answered, is in [P]. *)
Fixpoint asks {A} (P : forall X, C X -> Prop) (p : prog S C A) : Prop :=
  match p with
  | Done _ => True
  | Txn _ k => forall x, asks P (k x)
  | Call c k => P _ c /\ forall x, asks P (k x)
  end.

Lemma asks_bind {A B} P (p : prog S C A) (f : A -> prog S C B) :
  asks P p -> (forall a, asks P (f a)) -> asks P (p_bind p f).
Proof. induction p; simpl; naive_solver. Qed.

Lemma exec_asks {A} P R (p : prog S C A) s tr a s' :
  asks P p -> exec R p s tr a s' -> Forall (fun e => P _ (fst (projT2 e))) tr.
Proof.
  revert s tr. induction p as [b|X t k IH|X c k IH]; intros s tr; simpl.
  - by intros _ (-> & _).
  - intros Hk (s1 & _ & H). by eapply IH.
  - intros [Hc Hk] (x & tr' & -> & H). constructor; [done|]. by eapply IH.
Qed.

Context (R R' : S -> S -> Prop) (I I' : S -> Prop) (callok callok' : forall X, C X -> S -> Prop).

(** A handler that is safe for [R] and [I] is safe for more when its
    transactions move along a frame that carries the rest. *)
Lemma safe_conj {A} (F : S -> S -> Prop) (p : prog S C A) s :
  (forall s1 s2, I s1 -> I' s1 -> R s1 s2 -> I s2 -> F s1 s2 -> R' s1 s2 /\ I' s2) ->
  (forall X (c : C X) s1, callok X c s1 -> callok' X c s1) ->
  frames F p -> safe R I callok p s ->
  safe (fun a b => R a b /\ R' a b) (fun a => I a /\ I' a) callok' p s.
Proof.
  intros Hstep Hcall. revert s. induction p as [a|X t k IH|X c k IH]; intros s; simpl.
  - done.
  - intros [Ht Hf] Hs s1 [HR _] [HI HI']. destruct (Hs s1 HR HI) as (HR2 & HI2 & Hk).
    destruct (Hstep s1 (snd (t s1)) HI HI' HR2 HI2 (Ht s1)). auto.
  - intros Hf [Hc Hk]. split; [|auto]. intros s1 [HR _] [HI _]. auto.
Qed.

(** [ensures p Q s]: when [p] returns, its value and the last state it saw are
    in [Q]. *)
Fixpoint ensures {A} (p : prog S C A) (Q : A -> S -> Prop) (s : S) : Prop :=
  match p with
  | Done a => Q a s
  | Txn t k => forall s1, R s s1 -> I s1 -> R s1 (snd (t s1)) -> I (snd (t s1)) ->
      ensures (k (fst (t s1))) Q (snd (t s1))
  | Call _ k => forall x, ensures (k x) Q s
  end.

Lemma safe_bind_post `{!PreOrder R} {A B} (Q : A -> S -> Prop) (p : prog S C A) (f : A -> prog S C B) s :
  safe R I callok p s -> ensures p Q s ->
  (forall a s', Q a s' -> R s s' -> safe R I callok (f a) s') ->
  safe R I callok (p_bind p f) s.
Proof.
  revert s. induction p as [a|X t k IH|X c k IH]; intros s; simpl.
  - intros _ HQ Hf. by apply Hf.
  - intros H HQ Hf s1 Hs1 HI. destruct (H s1 Hs1 HI) as (HR & HI' & Hk).
    repeat split; [done..|]. apply IH; [done|by apply HQ|].
    intros a s' Ha Hs'. apply Hf; [done|]. etransitivity; [exact Hs1|]. by etransitivity.
  - intros [Hc Hk] HQ Hf. split; [done|]. intros x. by apply IH.
Qed.

Lemma ensures_bind `{!PreOrder R} {A B} (P : A -> S -> Prop) (Q : B -> S -> Prop) (p : prog S C A)
    (f : A -> prog S C B) s :
  ensures p P s -> (forall a s', P a s' -> R s s' -> ensures (f a) Q s') -> ensures (p_bind p f) Q s.
Proof.
  revert s. induction p as [a|X t k IH|X c k IH]; intros s; simpl.
  - intros HP Hf. by apply Hf.
  - intros HP Hf s1 Hs1 HI HR HI'. apply IH; [by apply HP|]. intros a s' Ha Hs'. apply Hf; [done|].
    etransitivity; [exact Hs1|]. by etransitivity.
  - intros HP Hf x. by apply IH.
Qed.
End strengthen.

(** Frame and calls in one. *)
Section obeys.
Context {S : Type} {C : Type -> Type} (F : S -> S -> Prop) (P : forall X, C X -> Prop).

Definition obeys {A} (p : prog S C A) : Prop := frames F p /\ asks P p.

Lemma obeys_done {A} (a : A) : obeys (Done a).
Proof. done. Qed.
Lemma obeys_bind {A B} (p : prog S C A) (f : A -> prog S C B) :
  obeys p -> (forall a, obeys (f a)) -> obeys (p_bind p f).
Proof.
  intros [Hf Ha] Hk. split; [apply frames_bind | apply asks_bind]; try done; intros a; apply Hk.
Qed.
Lemma obeys_r_bind {E A B} (p : prog S C (result E A)) (f : A -> prog S C (result E B)) :
  obeys p -> (forall a, obeys (f a)) -> obeys (r_bind p f).
Proof. intros Hp Hf. apply obeys_bind; [done|]. intros [a|e]; [apply Hf | apply obeys_done]. Qed.
Lemma obeys_r_for {E A} (l : list A) (f : A -> prog S C (result E unit)) :
  (forall a, obeys (f a)) -> obeys (r_for l f).
Proof. intros Hf. induction l; simpl; [apply obeys_done | by apply obeys_r_bind]. Qed.
Lemma obeys_stmt {E A} (m : tx S E A) `{!PreOrder F} : preserves F m -> obeys (stmt m).
Proof. intros Hm. split; [|done]. split; [by apply preserves_with_tx | done]. Qed.
Lemma obeys_atomically {E A} (m : tx S E A) `{!PreOrder F} : preserves F m -> obeys (atomically m).
Proof. by apply obeys_stmt. Qed.
Lemma obeys_ask {T} (c : C T) : P T c -> obeys (ask c).
Proof. done. Qed.
End obeys.

(** ** Calls alone *)

Section hushed.
Context {S : Type} {C : Type -> Type}.
Context (R : S -> S -> Prop) (I : S -> Prop) (callok : forall X, C X -> S -> Prop).

(** What [safe] says of the calls, taking what it says of the transactions for
    granted. *)
Fixpoint hushed {A} (p : prog S C A) (s : S) : Prop :=
  match p with
  | Done _ => True
  | Txn t k => forall s1, R s s1 -> I s1 -> R s1 (snd (t s1)) -> I (snd (t s1)) ->
      hushed (k (fst (t s1))) (snd (t s1))
  | Call c k => (forall s1, R s s1 -> I s1 -> callok _ c s1) /\ forall x, hushed (k x) s
  end.

Lemma safe_hushed {A} callok' (p : prog S C A) s :
  safe R I callok' p s -> hushed p s -> safe R I callok p s.
Proof.
  revert s. induction p as [a|X t k IH|X c k IH]; intros s; simpl; [done|..].
  - intros Hs Hh s1 HR HI. destruct (Hs s1 HR HI) as (HR' & HI' & Hk). auto 6.
  - intros [_ Hs] [Hc Hh]. auto.
Qed.

(** Quiet whatever the handler reads. *)
Definition hush {A} (p : prog S C A) : Prop := forall s, hushed p s.

Lemma hushed_bind `{!PreOrder R} {A B} (p : prog S C A) (f : A -> prog S C B) s :
  hushed p s -> (forall a s', R s s' -> hushed (f a) s') -> hushed (p_bind p f) s.
Proof.
  revert s. induction p as [a|X t k IH|X c k IH]; intros s; simpl.
  - intros _ Hf. by apply Hf.
  - intros H Hf s1 Hs1 HI HR' HI'. apply IH; [by apply H|]. intros a s' Hs'. apply Hf.
    etransitivity; [exact Hs1|]. by etransitivity.
  - intros [Hc Hk] Hf. split; [done|]. intros x. by apply IH.
Qed.
Lemma hush_bind `{!PreOrder R} {A B} (p : prog S C A) (f : A -> prog S C B) :
  hush p -> (forall a, hush (f a)) -> hush (p_bind p f).
Proof. intros Hp Hf s. apply hushed_bind; [done|]. intros a s' _. apply Hf. Qed.
Lemma hush_asks {A} (P : forall X, C X -> Prop) (p : prog S C A) :
  (forall X c s, P X c -> callok X c s) -> asks P p -> hush p.
Proof.
  intros HP Hp s. revert s. induction p as [a|X t k IH|X c k IH]; intros s; simpl in *; [done|..].
  - intros; auto.
  - destruct Hp as [Hc Hk]. auto.
Qed.
End hushed.

(** ** Handlers that change nothing when they fail *)

Section inert.
Context {S : Type} {C : Type -> Type} {E : Type}.

(** [inert bad p]: an execution of [p] that ends in [bad] left the database to
    the others. *)
Definition inert {A} (bad : A -> Prop) (p : prog S C A) : Prop :=
  forall (R : S -> S -> Prop), PreOrder R -> forall s tr a s', exec R p s tr a s' -> bad a -> R s s'.

Definition failed {A} (r : result E A) : Prop := match r with Ok _ => False | Err _ => True end.

Lemma frames_mono {A} (F F' : S -> S -> Prop) (p : prog S C A) :
  (forall s s', F s s' -> F' s s') -> frames F p -> frames F' p.
Proof. intros HF. induction p; simpl; naive_solver. Qed.

(** A handler that only reads. *)
Lemma inert_reads {A} (bad : A -> Prop) (p : prog S C A) : frames eq p -> inert bad p.
Proof.
  intros Hp R HR s tr a s' H _. eapply exec_frames; [exact HR| |exact H].
  eapply frames_mono; [|exact Hp]. by intros x y ->.
Qed.
Lemma inert_done {A} (bad : A -> Prop) a : inert bad (Done a : prog S C A).
Proof. by apply inert_reads. Qed.

Lemma inert_stmt {A} (m : tx S E A) : inert failed (stmt m : prog S C _).
Proof.
  intros R HR s tr a s' (s1 & Hs & _ & -> & ->). unfold with_tx. by destruct (m s1) as [[b|e] s2].
Qed.

(** [p] changed nothing, or what follows cannot end in [bad]. *)
Lemma inert_bind {A B} (P : A -> Prop) (bad : B -> Prop) (p : prog S C A) (f : A -> prog S C B) :
  inert P p ->
  (forall a, (P a /\ inert bad (f a)) \/ (forall R s tr b s', exec R (f a) s tr b s' -> ~ bad b)) ->
  inert bad (p_bind p f).
Proof.
  intros Hp Hf R HR s tr b s' H Hb. apply exec_bind in H as (a & s1 & t1 & t2 & _ & H1 & H2).
  destruct (Hf a) as [[Ha Hi]|Hn]; [|by apply Hn in H2].
  etransitivity; [by eapply Hp | by eapply Hi].
Qed.

Lemma inert_after {A B} (bad : B -> Prop) (p : prog S C A) (f : A -> prog S C B) :
  inert (fun _ => True) p -> (forall a, inert bad (f a)) -> inert bad (p_bind p f).
Proof. intros Hp Hf. eapply inert_bind; [exact Hp|]. auto. Qed.

(** The last step that can fail: a transaction. *)
Lemma inert_last {A B} (bad : B -> Prop) (m : tx S E A) (f : result E A -> prog S C B) :
  (forall e, inert bad (f (Err e))) ->
  (forall a R s tr b s', exec R (f (Ok a)) s tr b s' -> ~ bad b) -> inert bad (p_bind (stmt m) f).
Proof. intros He Ha. eapply inert_bind; [apply inert_stmt|]. intros [a|e]; [right; apply Ha | by left]. Qed.
End inert.

(** Walk a handler that is safe whatever it reads, leaving its transactions to
    [tx] and the helpers that are not unfolded to the caller. *)
Ltac tame_walk tx :=
  repeat lazymatch goal with
  | |- tame _ _ _ (r_bind _ _) => apply tame_r_bind; [typeclasses eauto| |intros ?]
  | |- tame _ _ _ (p_bind _ _) => apply tame_bind; [typeclasses eauto| |intros ?]
  | |- tame _ _ _ (r_for _ _) => apply tame_r_for; [typeclasses eauto|intros ?]
  | |- tame _ _ _ (Done _) => apply tame_done
  | |- tame _ _ _ (ask _) => apply tame_ask; done
  | |- tame _ _ _ (stmt _) => apply tame_stmt; [typeclasses eauto | solve [tx]]
  | |- tame _ _ _ (atomically _) => apply tame_atomically; [typeclasses eauto | solve [tx]]
  | |- tame _ _ _ (match ?x with _ => _ end) => destruct x eqn:?
  | |- tame _ _ _ (if ?x then _ else _) => destruct x eqn:?
  end.

(** The same for the frame of a handler. *)
Ltac frames_walk tx :=
  repeat lazymatch goal with
  | |- frames _ (r_bind _ _) => unfold r_bind at 1
  | |- frames _ (p_bind _ _) => apply frames_bind; [|intros ?]
  | |- frames _ (Done _) => exact Logic.I
  | |- frames _ (ask _) => intros ?; exact Logic.I
  | |- frames _ (stmt _) => split; [apply preserves_with_tx; solve [tx] | intros ?; exact Logic.I]
  | |- frames _ (atomically _) => split; [apply preserves_with_tx; solve [tx] | intros ?; exact Logic.I]
  | |- frames _ (match ?x with _ => _ end) => destruct x eqn:?
  | |- frames _ (if ?x then _ else _) => destruct x eqn:?
  end.

(** The same for the calls of a handler. *)
Ltac asks_walk tac :=
  repeat lazymatch goal with
  | |- asks _ (r_bind _ _) => unfold r_bind at 1
  | |- asks _ (p_bind _ _) => apply asks_bind; [|intros ?]
  | |- asks _ (Done _) => exact Logic.I
  | |- asks _ (ask _) => split; [solve [tac] | intros ?; exact Logic.I]
  | |- asks _ (match ?x with _ => _ end) => destruct x eqn:?
  | |- asks _ (if ?x then _ else _) => destruct x eqn:?
  end.

(** The same for both. *)
Ltac obeys_walk tx call :=
  repeat lazymatch goal with
  | |- obeys _ _ (r_bind _ _) => apply obeys_r_bind; [|intros ?]
  | |- obeys _ _ (p_bind _ _) => apply obeys_bind; [|intros ?]
  | |- obeys _ _ (r_for _ _) => apply obeys_r_for; intros ?
  | |- obeys _ _ (Done _) => apply obeys_done
  | |- obeys _ _ (ask _) => apply obeys_ask; solve [call]
  | |- obeys _ _ (stmt _) => apply obeys_stmt; [typeclasses eauto | solve [tx]]
  | |- obeys _ _ (atomically _) => apply obeys_atomically; [typeclasses eauto | solve [tx]]
  | |- obeys _ _ (match ?x with _ => _ end) => destruct x eqn:?
  | |- obeys _ _ (if ?x then _ else _) => destruct x eqn:?
  end.

(** The same for the quietness of a handler; its calls are left to the caller. *)
Ltac hush_walk :=
  repeat lazymatch goal with
  | |- hush _ _ _ (r_bind _ _) => unfold r_bind at 1
  | |- hush _ _ _ (p_bind _ _) => apply hush_bind; [typeclasses eauto| |intros ?]
  | |- hush _ _ _ (Done _) => intros ?; exact Logic.I
  | |- hush _ _ _ (stmt _) => intros ? ? ? ? ? ?; exact Logic.I
  | |- hush _ _ _ (atomically _) => intros ? ? ? ? ? ?; exact Logic.I
  | |- hush _ _ _ (match ?x with _ => _ end) => destruct x eqn:?
  | |- hush _ _ _ (if ?x then _ else _) => destruct x eqn:?
  end.

(** ** Executions of the combinators *)

Section exec_combinators.
Context {S : Type} {C : Type -> Type} {E : Type} (R : S -> S -> Prop).

Lemma exec_r_bind_ok {A B} (p : prog S C (result E A)) (f : A -> prog S C (result E B)) s tr b s'' :
  exec R (r_bind p f) s tr (Ok b) s'' <->
  exists a s' tr1 tr2, tr = tr1 ++ tr2 /\ exec R p s tr1 (Ok a) s' /\ exec R (f a) s' tr2 (Ok b) s''.
Proof.
  unfold r_bind. rewrite exec_bind. split.
  - intros ([a|e] & s' & tr1 & tr2 & -> & H1 & H2); simpl in H2; [eauto 10|].
    by destruct H2 as (_ & [=] & _).
  - intros (a & s' & tr1 & tr2 & -> & H1 & H2). eauto 10.
Qed.

Lemma exec_stmt {A} (m : tx S E A) s tr r s' :
  exec R (stmt (C := C) m) s tr r s' <-> tr = [] /\ exists s1, R s s1 /\ with_tx m s1 = (r, s').
Proof.
  simpl. split.
  - intros (s1 & HR & -> & -> & ->). split; [done|]. exists s1. split; [done|]. by destruct (with_tx m s1).
  - intros (-> & s1 & HR & H). exists s1. rewrite H. done.
Qed.

Lemma exec_ask {X} (c : C X) s tr x s' :
  exec R (ask c) s tr x s' <-> tr = [existT _ (c, x)] /\ s' = s.
Proof.
  simpl. split.
  - by intros (y & tr' & -> & -> & -> & ->).
  - intros [-> ->]. exists x, []. done.
Qed.
End exec_combinators.

(** Take an execution apart along the structure of the handler. *)
Ltac inv_exec H :=
  lazymatch type of H with
  | exec _ (r_bind _ _) _ _ (Ok _) _ =>
      let H1 := fresh "Hx" in
      apply exec_r_bind_ok in H as (?a & ?s & ?tr & ?tr & -> & H1 & H); inv_exec H1; inv_exec H
  | exec _ (p_bind _ _) _ _ _ _ =>
      let H1 := fresh "Hx" in
      apply exec_bind in H as (?a & ?s & ?tr & ?tr & -> & H1 & H); inv_exec H1; inv_exec H
  | exec _ (stmt _) _ _ _ _ => apply exec_stmt in H as (-> & ?s & ?HR & H)
  | exec _ (atomically _) _ _ _ _ => apply exec_stmt in H as (-> & ?s & ?HR & H)
  | exec _ (ask _) _ _ _ _ => apply exec_ask in H as (-> & ->)
  | exec _ (Done _) _ _ _ _ => destruct H as (-> & H & ->)
  | _ => idtac
  end.
