(* ===== verification/Text.v ===== *)
(** * Text: regular expressions and decimal numerals

    What the kit uses of Go's [regexp], [strconv] and [math/big] on ASCII
    text.  A regular expression of the source is written down as a value of
    [re] and matched by derivatives ([matches]); [numeral] is
    [big.Int.String]/[strconv.FormatInt] on a non-negative number and [value]
    is [big.Int.SetString(s, 10)] on a digit string. *)

From stdpp Require Import base list strings.
From Stdlib Require Import ZArith Lia Ascii String.
From S2P Require Import Prelude.

Abbreviation text := (list ascii).

Definition chars (s : string) : text := list_ascii_of_string s.
Definition of_chars (t : text) : string := string_of_list_ascii t.

Lemma chars_of_chars t : chars (of_chars t) = t.
Proof. apply list_ascii_of_string_of_list_ascii. Qed.
Lemma of_chars_chars s : of_chars (chars s) = s.
Proof. apply string_of_list_ascii_of_string. Qed.
Lemma chars_inj s1 s2 : chars s1 = chars s2 -> s1 = s2.
Proof. intros H. by rewrite <-(of_chars_chars s1), <-(of_chars_chars s2), H. Qed.
Lemma chars_app s1 s2 : chars (s1 +:+ s2) = chars s1 ++ chars s2.
Proof. induction s1 as [|c s1 IH]; [done|]. simpl. unfold chars in *. simpl. by f_equal. Qed.

(** ** Regular expressions *)

Inductive re : Type :=
| Void
| Eps
| Chr (p : ascii -> bool)
| Cat (a b : re)
| Alt (a b : re)
| Star (a : re).

(** [a?] and [a+]. *)
Definition Opt (a : re) : re := Alt a Eps.
Definition Plus (a : re) : re := Cat a (Star a).
Fixpoint Times (n : nat) (a : re) : re :=
  match n with O => Eps | S n' => Cat a (Times n' a) end.

Fixpoint nullable (r : re) : bool :=
  match r with
  | Void | Chr _ => false
  | Eps | Star _ => true
  | Cat a b => nullable a && nullable b
  | Alt a b => nullable a || nullable b
  end.

Fixpoint deriv (c : ascii) (r : re) : re :=
  match r with
  | Void | Eps => Void
  | Chr p => if p c then Eps else Void
  | Cat a b => if nullable a then Alt (Cat (deriv c a) b) (deriv c b) else Cat (deriv c a) b
  | Alt a b => Alt (deriv c a) (deriv c b)
  | Star a => Cat (deriv c a) (Star a)
  end.

(** [regexp.MatchString] of the anchored expression [^r$]. *)
Fixpoint matches (r : re) (t : text) : bool :=
  match t with
  | [] => nullable r
  | c :: t' => matches (deriv c r) t'
  end.

(** The language of an expression. *)
Inductive lang : re -> text -> Prop :=
| lang_eps : lang Eps []
| lang_chr p c : p c = true -> lang (Chr p) [c]
| lang_cat a b t1 t2 : lang a t1 -> lang b t2 -> lang (Cat a b) (t1 ++ t2)
| lang_alt_l a b t : lang a t -> lang (Alt a b) t
| lang_alt_r a b t : lang b t -> lang (Alt a b) t
| lang_star_nil a : lang (Star a) []
| lang_star_cons a t1 t2 : lang a t1 -> lang (Star a) t2 -> lang (Star a) (t1 ++ t2).

Lemma nullable_lang r : nullable r = true <-> lang r [].
Proof.
  induction r; simpl; split; intros H; try done; try by inversion H.
  - constructor.
  - apply andb_true_iff in H as [H1 H2]. apply (lang_cat _ _ [] []); tauto.
  - inversion H as [| |? ? t1 t2 H1 H2 He Ht| | | |]; subst.
    apply app_eq_nil in Ht as [-> ->]. apply andb_true_iff; tauto.
  - apply orb_true_iff in H as [H|H]; [apply lang_alt_l | apply lang_alt_r]; tauto.
  - apply orb_true_iff. inversion H; subst; tauto.
  - constructor.
Qed.

Lemma deriv_lang r c t : lang (deriv c r) t <-> lang r (c :: t).
Proof.
  revert t. induction r as [| |p|a IHa b IHb|a IHa b IHb|a IHa]; intros t; simpl.
  - split; inversion 1.
  - split; inversion 1.
  - destruct (p c) eqn:Hp; split; inversion 1; subst; try congruence; by constructor.
  - assert (lang (Cat (deriv c a) b) t <-> exists t1 t2, t = t1 ++ t2 /\ lang a (c :: t1) /\ lang b t2) as Hcat.
    { split.
      - inversion 1 as [| |? ? t1 t2 H1 H2 He Ht| | | |]; subst. exists t1, t2. by rewrite <-IHa.
      - intros (t1 & t2 & -> & H1 & H2). constructor; [by rewrite IHa | done]. }
    assert (lang (Cat a b) (c :: t) <->
      (lang a [] /\ lang b (c :: t)) \/ exists t1 t2, t = t1 ++ t2 /\ lang a (c :: t1) /\ lang b t2) as Hr.
    { split.
      - inversion 1 as [| |? ? t1 t2 H1 H2 He Ht| | | |]; subst.
        destruct t1 as [|c' t1]; simplify_eq/=; [by left | right; eauto].
      - intros [[H1 H2]|(t1 & t2 & -> & H1 & H2)].
        + by apply (lang_cat _ _ [] (c :: t)).
        + by apply (lang_cat _ _ (c :: t1) t2). }
    rewrite Hr. destruct (nullable a) eqn:Hn.
    + rewrite nullable_lang in Hn. split.
      * inversion 1; subst; [right; by apply Hcat | left; by rewrite <-IHb].
      * intros [[_ H]|H]; [apply lang_alt_r; by rewrite IHb | apply lang_alt_l; by apply Hcat].
    + rewrite Hcat. split; [by right|]. intros [[H _]|H]; [|done].
      apply nullable_lang in H. congruence.
  - split; inversion 1; subst.
    + apply lang_alt_l; by apply IHa.
    + apply lang_alt_r; by apply IHb.
    + apply lang_alt_l; by apply IHa.
    + apply lang_alt_r; by apply IHb.
  - split.
    + inversion 1 as [| |? ? t1 t2 H1 H2 He Ht| | | |]; subst.
      apply (lang_star_cons a (c :: t1) t2); [by rewrite <-IHa | done].
    + remember (Star a) as r eqn:Er. remember (c :: t) as u eqn:Eu. intros H.
      revert Er t Eu. induction H as [| | | | | |a' t1 t2 H1 _ H2 IH]; intros Er u Eu; simplify_eq.
      destruct t1 as [|c' t1]; simplify_eq/=; [by apply IH|].
      apply lang_cat; [by rewrite IHa | done].
Qed.

Lemma matches_lang r t : matches r t = true <-> lang r t.
Proof.
  revert r. induction t as [|c t IH]; intros r; simpl.
  - apply nullable_lang.
  - by rewrite IH, deriv_lang.
Qed.

Lemma lang_cat_inv a b t :
  lang (Cat a b) t <-> exists t1 t2, t = t1 ++ t2 /\ lang a t1 /\ lang b t2.
Proof.
  split.
  - inversion 1; subst; eauto.
  - intros (t1 & t2 & -> & H1 & H2). by constructor.
Qed.
Lemma lang_alt_inv a b t : lang (Alt a b) t <-> lang a t \/ lang b t.
Proof. split; [inversion 1; subst; tauto | intros [?|?]; by constructor]. Qed.
Lemma lang_chr_inv p t : lang (Chr p) t <-> exists c, t = [c] /\ p c = true.
Proof. split; [inversion 1; subst; eauto | intros (c & -> & ?); by constructor]. Qed.
Lemma lang_eps_inv t : lang Eps t <-> t = [].
Proof. split; [by inversion 1 | intros ->; constructor]. Qed.
Lemma lang_star_chr p t : lang (Star (Chr p)) t <-> Forall (fun c => p c = true) t.
Proof.
  split.
  - remember (Star (Chr p)) as r eqn:Er. intros H. revert Er.
    induction H as [| | | | | |a t1 t2 H1 _ H2 IH]; intros Er; simplify_eq; [constructor|].
    apply lang_chr_inv in H1 as (c & -> & Hc). simpl. constructor; eauto.
  - induction 1 as [|c t Hc Ht IH]; [constructor|].
    apply (lang_star_cons _ [c] t); [by constructor | done].
Qed.

(** ** Decimal digits *)

Definition is_digit (c : ascii) : bool :=
  let n := nat_of_ascii c in (48 <=? n)%nat && (n <=? 57)%nat.
Definition is_nonzero_digit (c : ascii) : bool :=
  let n := nat_of_ascii c in (49 <=? n)%nat && (n <=? 57)%nat.
Definition is_char (c0 c : ascii) : bool := bool_decide (c = c0).

Definition digit_val (c : ascii) : Z := Z.of_nat (nat_of_ascii c) - 48.
Definition digit_char (d : Z) : ascii := ascii_of_nat (Z.to_nat (d + 48)).

Lemma digit_val_range c : is_digit c = true -> (0 <= digit_val c < 10)%Z.
Proof.
  unfold is_digit, digit_val. intros H. apply andb_true_iff in H as [H1 H2].
  apply Nat.leb_le in H1, H2. lia.
Qed.
Lemma digit_char_val c : is_digit c = true -> digit_char (digit_val c) = c.
Proof.
  intros H. unfold digit_char, digit_val.
  replace (Z.to_nat _) with (nat_of_ascii c) by lia. apply ascii_nat_embedding.
Qed.
Lemma digit_val_char d : (0 <= d < 10)%Z -> digit_val (digit_char d) = d.
Proof.
  intros H. unfold digit_val, digit_char. rewrite nat_ascii_embedding; lia.
Qed.
Lemma is_digit_char d : (0 <= d < 10)%Z -> is_digit (digit_char d) = true.
Proof.
  intros H. unfold is_digit, digit_char. rewrite nat_ascii_embedding by lia.
  apply andb_true_iff; split; apply Nat.leb_le; lia.
Qed.
Lemma is_nonzero_digit_char d : (0 < d < 10)%Z -> is_nonzero_digit (digit_char d) = true.
Proof.
  intros H. unfold is_nonzero_digit, digit_char. rewrite nat_ascii_embedding by lia.
  apply andb_true_iff; split; apply Nat.leb_le; lia.
Qed.
Lemma is_nonzero_digit_digit c : is_nonzero_digit c = true -> is_digit c = true.
Proof.
  unfold is_nonzero_digit, is_digit. intros H. apply andb_true_iff in H as [H1 H2].
  apply Nat.leb_le in H1. apply andb_true_iff; split; [apply Nat.leb_le; lia | done].
Qed.
Lemma is_nonzero_digit_val c : is_nonzero_digit c = true <-> is_digit c = true /\ (0 < digit_val c)%Z.
Proof.
  unfold is_nonzero_digit, is_digit, digit_val. rewrite !andb_true_iff, !Nat.leb_le. lia.
Qed.

(** ** Numerals *)

Open Scope Z_scope.

(** [big.Int.SetString(t, 10)] on a digit string. *)
Definition value (t : text) : Z := fold_left (fun acc c => acc * 10 + digit_val c) t 0.

Fixpoint numeral_fuel (fuel : nat) (n : Z) (acc : text) : text :=
  match fuel with
  | O => acc
  | S f => let acc' := digit_char (n mod 10) :: acc in
           if n <? 10 then acc' else numeral_fuel f (n / 10) acc'
  end.

(** [big.Int.String] of a non-negative number; [Z.log2 n + 1] bits bound the
    number of decimal digits. *)
Definition numeral (n : Z) : text := numeral_fuel (S (Z.to_nat (Z.log2 n))) n [].

Definition all_digits (t : text) : Prop := Forall (fun c => is_digit c = true) t.

(** No leading zeros, at least one digit. *)
Definition canonical (t : text) : Prop :=
  all_digits t /\ (t = [digit_char 0] \/ exists c t', t = c :: t' /\ is_nonzero_digit c = true).

Lemma value_snoc t c : value (t ++ [c]) = value t * 10 + digit_val c.
Proof. unfold value. by rewrite fold_left_app. Qed.

Lemma value_app t1 t2 : value (t1 ++ t2) = value t1 * 10 ^ Z.of_nat (List.length t2) + value t2.
Proof.
  revert t1. induction t2 as [|c t2 IH] using rev_ind; intros t1.
  - rewrite app_nil_r. change (value []) with 0. simpl (List.length []). lia.
  - rewrite app_assoc, !value_snoc.
    rewrite IH, length_app, Nat2Z.inj_add, Z.pow_add_r by lia. simpl (List.length [c]). lia.
Qed.

Lemma value_range t : all_digits t -> 0 <= value t < 10 ^ Z.of_nat (List.length t).
Proof.
  induction t as [|c t IH] using rev_ind; intros H.
  - unfold value; simpl; lia.
  - apply Forall_app in H as [Ht Hc]. apply Forall_cons in Hc as [Hc _].
    apply digit_val_range in Hc. specialize (IH Ht).
    rewrite value_snoc, length_app, Nat2Z.inj_add, Z.pow_add_r by lia. simpl (List.length [c]). lia.
Qed.

Lemma numeral_fuel_acc f n acc : numeral_fuel f n acc = numeral_fuel f n [] ++ acc.
Proof.
  revert n acc. induction f as [|f IH]; intros n acc; [done|]. simpl.
  destruct (n <? 10); [done|]. rewrite IH, (IH _ [_]). by rewrite <-app_assoc.
Qed.

Lemma numeral_fuel_irrel f1 f2 n acc :
  0 <= n < 2 ^ Z.of_nat f1 -> n < 2 ^ Z.of_nat f2 -> (0 < f1)%nat -> (0 < f2)%nat ->
  numeral_fuel f1 n acc = numeral_fuel f2 n acc.
Proof.
  revert f2 n acc. induction f1 as [|f1 IH]; intros [|f2] n acc H1 H2 P1 P2; try lia. simpl.
  destruct (n <? 10) eqn:E; [done|]. apply Z.ltb_ge in E.
  rewrite Nat2Z.inj_succ, Z.pow_succ_r in H1, H2 by lia.
  assert (0 < n / 10) by (apply Z.div_str_pos; lia).
  assert (n / 10 < 2 ^ Z.of_nat f1) by (apply Z.div_lt_upper_bound; lia).
  assert (n / 10 < 2 ^ Z.of_nat f2) by (apply Z.div_lt_upper_bound; lia).
  destruct f1; [simpl in *; lia|]. destruct f2; [simpl in *; lia|].
  apply IH; lia.
Qed.

Lemma numeral_bound n : 0 <= n -> n < 2 ^ Z.of_nat (S (Z.to_nat (Z.log2 n))).
Proof.
  intros H. destruct (decide (n = 0)) as [->|].
  - simpl. lia.
  - pose proof (Z.log2_spec n ltac:(lia)) as [_ Hn]. pose proof (Z.log2_nonneg n).
    by replace (Z.of_nat _) with (Z.succ (Z.log2 n)) by lia.
Qed.

Lemma numeral_small n : 0 <= n < 10 -> numeral n = [digit_char n].
Proof.
  intros H. unfold numeral. simpl. rewrite Z.mod_small by lia.
  by destruct (Z.ltb_spec n 10); [|lia].
Qed.

Lemma numeral_step n : 10 <= n -> numeral n = numeral (n / 10) ++ [digit_char (n mod 10)].
Proof.
  intros H. unfold numeral at 1. simpl. destruct (Z.ltb_spec n 10); [lia|].
  rewrite numeral_fuel_acc. f_equal. unfold numeral.
  assert (0 < n / 10) by (apply Z.div_str_pos; lia).
  pose proof (Z.log2_nonneg n). assert (0 < Z.log2 n) by (apply Z.log2_pos; lia).
  apply numeral_fuel_irrel; [|apply numeral_bound; lia|lia..].
  split; [lia|]. apply Z.div_lt_upper_bound; [lia|].
  pose proof (Z.log2_spec n ltac:(lia)) as [_ Hn]. rewrite Z.pow_succ_r in Hn by lia.
  replace (Z.of_nat (Z.to_nat (Z.log2 n))) with (Z.log2 n) by lia. lia.
Qed.

Lemma numeral_ind (P : Z -> Prop) :
  (forall n, 0 <= n < 10 -> P n) ->
  (forall n, 10 <= n -> P (n / 10) -> P n) ->
  forall n, 0 <= n -> P n.
Proof.
  intros Hs Hb n. induction n as [n IH] using (well_founded_induction (Z.lt_wf 0)). intros Hn.
  destruct (Z.lt_ge_cases n 10); [apply Hs; lia|].
  apply Hb; [lia|]. apply IH; [|apply Z.div_pos; lia].
  split; [apply Z.div_pos; lia | apply Z.div_lt; lia].
Qed.

(** Printing and reading back is the identity. *)
Lemma value_numeral n : 0 <= n -> value (numeral n) = n.
Proof.
  revert n. apply numeral_ind; [intros n H|intros n H IH].
  - rewrite numeral_small by done. unfold value. simpl. rewrite digit_val_char; lia.
  - rewrite numeral_step, value_snoc, IH, digit_val_char by (try apply Z.mod_pos_bound; lia).
    rewrite (Z.div_mod n 10) at 3 by lia. lia.
Qed.

Lemma numeral_digits n : 0 <= n -> all_digits (numeral n).
Proof.
  revert n. apply numeral_ind; [intros n H|intros n H IH].
  - rewrite numeral_small by done. repeat constructor. by apply is_digit_char.
  - rewrite numeral_step by done. apply Forall_app; split; [done|].
    repeat constructor. apply is_digit_char, Z.mod_pos_bound; lia.
Qed.

Lemma numeral_head n : 0 < n -> exists c t, numeral n = c :: t /\ is_nonzero_digit c = true.
Proof.
  intros H. assert (0 <= n) as Hn by lia. revert H. revert n Hn.
  apply (numeral_ind (fun n => 0 < n -> _)); [intros n Hn H|intros n Hn IH H].
  - rewrite numeral_small by done. eexists _, _. split; [done|]. apply is_nonzero_digit_char; lia.
  - rewrite numeral_step by done. destruct IH as (c & t & -> & Hc); [apply Z.div_str_pos; lia|].
    eexists _, _. split; [done|done].
Qed.

Lemma numeral_canonical n : 0 <= n -> canonical (numeral n).
Proof.
  intros H. split; [by apply numeral_digits|].
  destruct (decide (n = 0)) as [->|]; [left; by rewrite numeral_small|].
  right. apply numeral_head. lia.
Qed.

(** A canonical digit string is the numeral of its value. *)
Lemma numeral_value t : canonical t -> numeral (value t) = t.
Proof.
  intros [Hd [->|(c & t' & -> & Hc)]]; [by vm_compute|].
  apply Forall_cons in Hd as [_ Hd].
  apply is_nonzero_digit_val in Hc as [Hc0 Hc]. pose proof (digit_val_range c Hc0) as Hr.
  induction t' as [|d t' IH] using rev_ind.
  - replace (value [c]) with (digit_val c) by (unfold value; simpl; lia).
    rewrite numeral_small by lia. by rewrite digit_char_val.
  - apply Forall_app in Hd as [Hd Hd1]. apply Forall_cons in Hd1 as [Hd1 _].
    pose proof (digit_val_range d Hd1) as Hdr. specialize (IH Hd).
    rewrite app_comm_cons, value_snoc.
    assert (0 < value (c :: t')) as Hpos.
    { change (c :: t') with ([c] ++ t'). rewrite value_app.
      replace (value [c]) with (digit_val c) by (unfold value; simpl; lia).
      pose proof (value_range t' Hd). nia. }
    rewrite numeral_step by lia.
    replace ((value (c :: t') * 10 + digit_val d) / 10) with (value (c :: t')).
    2:{ rewrite Z.div_add_l by lia. rewrite Z.div_small; lia. }
    replace ((value (c :: t') * 10 + digit_val d) mod 10) with (digit_val d).
    2:{ rewrite Z.add_comm, Z.mod_add, Z.mod_small; lia. }
    by rewrite IH, digit_char_val.
Qed.

Lemma numeral_inj m n : 0 <= m -> 0 <= n -> numeral m = numeral n -> m = n.
Proof. intros Hm Hn H. by rewrite <-(value_numeral m), <-(value_numeral n), H. Qed.

(** Leading zeros do not change the value. *)
Lemma value_zeros n t : value (repeat (digit_char 0) n ++ t) = value t.
Proof.
  induction n as [|n IH]; [done|]. simpl. rewrite <-IH. unfold value at 1. simpl.
  by replace (0 * 10 + digit_val (digit_char 0)) with 0 by (vm_compute; done).
Qed.

Lemma repeat_digits n : all_digits (repeat (digit_char 0) n).
Proof. induction n; simpl; constructor; auto. Qed.

#[export] Hint Resolve numeral_digits numeral_canonical value_numeral : kit.
