(* ===== verification/GoStrings.v ===== *)
(** * GoStrings: the functions of Go's [strings] package the kit uses

    Strings are byte strings.  [TrimSpace] knows the white space of Unicode in
    its UTF-8 encoding; [EqualFold] is restricted to the texts it is used with. *)

From stdpp Require Import base list strings.
From Stdlib Require Import ZArith Lia Ascii String.
From S2P Require Import Prelude Text.

Open Scope string_scope.
Open Scope list_scope.

Module GoStrings.

Definition empty (s : string) : bool := bool_decide (s = "").

Definition starts (t prefix : text) : bool := bool_decide (take (List.length prefix) t = prefix).
Definition HasPrefix (s prefix : string) : bool := starts (chars s) (chars prefix).
Definition HasSuffix (s suffix : string) : bool := starts (rev (chars s)) (rev (chars suffix)).

Definition TrimSuffix (s suffix : string) : string :=
  if HasSuffix s suffix then of_chars (take (List.length (chars s) - List.length (chars suffix)) (chars s)) else s.

Fixpoint contains (t sub : text) : bool :=
  starts t sub || match t with [] => false | _ :: t' => contains t' sub end.
Definition Contains (s sub : string) : bool := contains (chars s) (chars sub).

(** [strings.EqualFold] against a text whose letters no character outside
    ASCII folds to, which is every letter but [k] and [s]. *)
Definition lower (c : ascii) : ascii :=
  let n := nat_of_ascii c in
  if ((65 <=? n) && (n <=? 90))%nat then ascii_of_nat (n + 32) else c.
Definition EqualFold (s t : string) : bool := bool_decide (map lower (chars s) = map lower (chars t)).

(** [unicode.IsSpace] in UTF-8: the encodings of tab to carriage return,
    space, U+0085, U+00A0, U+1680, U+2000 to U+200A, U+2028, U+2029, U+202F,
    U+205F and U+3000. *)
Definition bytes_of (l : list nat) : text := map ascii_of_nat l.
Definition spaces : list text :=
  map bytes_of
    ([[9]; [10]; [11]; [12]; [13]; [32]; [0xc2; 0x85]; [0xc2; 0xa0]; [0xe1; 0x9a; 0x80]] ++
     map (fun k => [0xe2; 0x80; 0x80 + k]) (seq 0 11) ++
     [[0xe2; 0x80; 0xa8]; [0xe2; 0x80; 0xa9]; [0xe2; 0x80; 0xaf]; [0xe2; 0x81; 0x9f]; [0xe3; 0x80; 0x80]])%nat.

(** Drops the leading texts of [sps]; each turn drops at least one byte. *)
Fixpoint trim (steps : nat) (sps : list text) (t : text) : text :=
  match steps with
  | O => t
  | S steps' =>
      match List.find (starts t) sps with
      | Some sp => trim steps' sps (drop (List.length sp) t)
      | None => t
      end
  end.
Definition trim_left (t : text) : text := trim (List.length t) spaces t.
Definition trim_right (t : text) : text := rev (trim (List.length t) (map (@rev ascii) spaces) (rev t)).
Definition TrimSpace (s : string) : string := of_chars (trim_right (trim_left (chars s))).

Lemma starts_iff t p : starts t p = true <-> exists r, t = p ++ r.
Proof.
  unfold starts. rewrite bool_decide_eq_true. split.
  - intros H. exists (drop (List.length p) t). rewrite <-H at 1. by rewrite take_drop.
  - intros [r ->]. by rewrite take_app_length.
Qed.

Lemma HasPrefix_iff s p : HasPrefix s p = true <-> exists r, s = p +:+ r.
Proof.
  unfold HasPrefix. rewrite starts_iff. split.
  - intros [r H]. exists (of_chars r). apply chars_inj. by rewrite chars_app, chars_of_chars.
  - intros [r ->]. exists (chars r). by rewrite chars_app.
Qed.

Lemma HasSuffix_iff s p : HasSuffix s p = true <-> exists r, s = r +:+ p.
Proof.
  unfold HasSuffix. rewrite starts_iff. split.
  - intros [r H]. exists (of_chars (rev r)). apply chars_inj.
    rewrite chars_app, chars_of_chars. rewrite <-(rev_involutive (chars s)), H, rev_app_distr.
    by rewrite rev_involutive.
  - intros [r ->]. exists (rev (chars r)). by rewrite chars_app, rev_app_distr.
Qed.

Lemma TrimSuffix_app s p : TrimSuffix (s +:+ p) p = s.
Proof.
  unfold TrimSuffix. rewrite (proj2 (HasSuffix_iff (s +:+ p) p)) by (by exists s).
  rewrite chars_app, length_app, Nat.add_sub, take_app_length. apply of_chars_chars.
Qed.

Example trim_example : TrimSpace (of_chars (bytes_of [32; 0xc2; 0xa0; 97; 32; 98; 0xe3; 0x80; 0x80; 10]%nat)) = "a b".
Proof. reflexivity. Qed.

(** ** What [TrimSpace] takes away is white space, and only that *)

Definition blank (t : text) : Prop := exists ps, t = List.concat ps /\ Forall (fun p => p ∈ spaces) ps.

Lemma blank_nil : blank [].
Proof. by exists []. Qed.
Lemma blank_app t u : blank t -> blank u -> blank (t ++ u).
Proof.
  intros (ps & -> & Hp) (qs & -> & Hq). exists (ps ++ qs). rewrite concat_app. split; [done|]. by apply Forall_app.
Qed.

Lemma trim_split n sps t : exists ps, t = List.concat ps ++ trim n sps t /\ Forall (fun p => p ∈ sps) ps.
Proof.
  revert t. induction n as [|n IH]; intros t; [by exists []|]. cbn [trim].
  destruct (List.find (starts t) sps) as [sp|] eqn:E; [|by exists []].
  apply List.find_some in E as [Hin Hs]. apply list_elem_of_In in Hin. apply starts_iff in Hs as [r ->].
  rewrite drop_app_length. destruct (IH r) as (ps & Hr & Hps). exists (sp :: ps). cbn [List.concat].
  split; [by rewrite <-app_assoc, <-Hr|]. by constructor.
Qed.

Lemma rev_concat (ps : list text) : rev (List.concat (map (@rev ascii) ps)) = List.concat (rev ps).
Proof.
  induction ps as [|p ps IH]; [done|]. cbn [map List.concat rev]. rewrite rev_app_distr, rev_involutive, IH.
  by rewrite concat_app, <-(app_nil_r p) at 1.
Qed.

Lemma TrimSpace_split s : exists l r, chars s = l ++ chars (TrimSpace s) ++ r /\ blank l /\ blank r.
Proof.
  unfold TrimSpace, trim_right, trim_left. rewrite chars_of_chars.
  destruct (trim_split (List.length (chars s)) spaces (chars s)) as (ps & Hl & Hps).
  set (u := trim (List.length (chars s)) spaces (chars s)) in *.
  destruct (trim_split (List.length u) (map (@rev ascii) spaces) (rev u)) as (qs & Hr & Hqs).
  set (v := trim (List.length u) (map (@rev ascii) spaces) (rev u)) in *.
  exists (List.concat ps), (rev (List.concat qs)). split; [|split].
  - rewrite Hl at 1. f_equal. rewrite <-(rev_involutive u), Hr. by rewrite rev_app_distr.
  - by exists ps.
  - assert (exists ps', qs = map (@rev ascii) ps' /\ Forall (fun p => p ∈ spaces) ps') as (ps' & -> & H').
    { clear -Hqs. induction Hqs as [|q qs Hq _ (ps' & -> & H')]; [by exists []|].
      apply list_elem_of_In, in_map_iff in Hq as (p & <- & Hp). exists (p :: ps').
      split; [done|]. constructor; [by apply list_elem_of_In|done]. }
    rewrite rev_concat. exists (rev ps'). split; [done|]. by apply Forall_rev.
Qed.

(** No space is the beginning of another, in either direction. *)
Definition code (sps : list text) : Prop :=
  Forall (fun p => p <> []) sps /\ forall p q, p ∈ sps -> q ∈ sps -> starts p q = true -> p = q.

Lemma code_check sps :
  forallb (fun p => negb (bool_decide (p = [])) && forallb (fun q => negb (starts p q) || bool_decide (p = q)) sps) sps = true ->
  code sps.
Proof.
  rewrite forallb_forall. intros H. split.
  - apply Forall_forall. intros p Hp. apply list_elem_of_In in Hp. specialize (H p Hp).
    by apply andb_true_iff in H as [H%negb_true_iff%bool_decide_eq_false _].
  - intros p q Hp Hq Hs. apply list_elem_of_In in Hp, Hq. specialize (H p Hp).
    apply andb_true_iff in H as [_ H]. rewrite forallb_forall in H. specialize (H q Hq).
    rewrite Hs in H. by apply bool_decide_eq_true in H.
Qed.
Lemma spaces_code : code spaces.
Proof. apply code_check. vm_compute. reflexivity. Qed.
Lemma rev_spaces_code : code (map (@rev ascii) spaces).
Proof. apply code_check. vm_compute. reflexivity. Qed.

Lemma find_code sps p t : code sps -> p ∈ sps -> List.find (starts (p ++ t)) sps = Some p.
Proof.
  intros [Hne Hc] Hp. destruct (List.find (starts (p ++ t)) sps) as [q|] eqn:E.
  - apply List.find_some in E as [Hq Hs]. apply list_elem_of_In in Hq. f_equal.
    apply starts_iff in Hs as [r Hr]. apply app_eq_inv in Hr as [(k & -> & _)|(k & -> & _)].
    + symmetry. apply Hc; [done..|]. apply starts_iff. by exists k.
    + apply Hc; [done..|]. apply starts_iff. by exists k.
  - exfalso. apply list_elem_of_In, (List.find_none _ _ E p) in Hp.
    assert (starts (p ++ t) p = true) by (apply starts_iff; by exists t). congruence.
Qed.

Lemma trim_concat sps ps t n :
  code sps -> Forall (fun p => p ∈ sps) ps -> (List.length ps <= n)%nat ->
  trim n sps (List.concat ps ++ t) = trim (n - List.length ps) sps t.
Proof.
  intros Hc Hps. revert n. induction Hps as [|p ps Hp Hps IH]; intros n Hn.
  - cbn [List.length List.concat app]. by rewrite Nat.sub_0_r.
  - destruct n as [|n]; [cbn in Hn; lia|]. cbn [List.concat trim List.length Nat.sub]. rewrite <-app_assoc, find_code by done.
    rewrite drop_app_length. apply IH. cbn in Hn. lia.
Qed.

Lemma concat_long (ps : list text) : Forall (fun p => p <> []) ps -> (List.length ps <= List.length (List.concat ps))%nat.
Proof.
  induction 1 as [|p ps Hp _ IH]; [done|]. cbn [List.length List.concat]. rewrite length_app.
  destruct p; [done|]. cbn [List.length]. lia.
Qed.

(** A character no space contains. *)
Definition solid (c : ascii) : bool := forallb (fun sp => negb (existsb (is_char c) sp)) spaces.

Lemma solid_space c sp : solid c = true -> sp ∈ spaces -> c ∉ sp.
Proof.
  unfold solid. rewrite forallb_forall. intros H Hsp Hc. apply list_elem_of_In in Hsp, Hc. specialize (H sp Hsp).
  apply negb_true_iff in H. assert (existsb (is_char c) sp = true); [|congruence].
  apply existsb_exists. exists c. split; [done|]. by apply bool_decide_eq_true.
Qed.
Lemma solid_blank c t : solid c = true -> blank t -> c ∉ t.
Proof.
  intros Hs (ps & -> & Hps). induction Hps as [|p ps Hp _ IH]; [apply not_elem_of_nil|].
  cbn [List.concat]. rewrite elem_of_app. intros [H|H]; [|done]. by apply (solid_space c p).
Qed.

(** Trailing white space is all trimmed. *)
Lemma TrimSpace_solid s t c r :
  chars s = t ++ c :: r -> blank r -> solid c = true -> exists t', chars (TrimSpace s) = t' ++ [c].
Proof.
  intros Hs Hr Hc. unfold TrimSpace, trim_right, trim_left. rewrite chars_of_chars.
  destruct (trim_split (List.length (chars s)) spaces (chars s)) as (ps & Hl & Hps).
  set (u := trim (List.length (chars s)) spaces (chars s)) in *.
  assert (exists t1, u = t1 ++ c :: r) as [t1 ->].
  { rewrite Hs in Hl. apply app_eq_inv in Hl as [(k & Ht & Hu)|(k & Hp & Hk)]; [by exists k|].
    destruct k as [|x k]; [exists []; by rewrite app_nil_l in *|]. injection Hk as Hx _. exfalso.
    apply (solid_blank c (List.concat ps) Hc); [by exists ps|]. rewrite Hp, Hx. apply elem_of_app. right. by left. }
  destruct Hr as (rs & -> & Hrs).
  assert (rev (t1 ++ c :: List.concat rs) = List.concat (map (@rev ascii) (rev rs)) ++ c :: rev t1) as ->.
  { rewrite rev_app_distr. cbn [rev]. rewrite <-!app_assoc. f_equal.
    rewrite <-(rev_involutive (List.concat (map _ _))), rev_concat, rev_involutive. done. }
  rewrite trim_concat; [|apply rev_spaces_code|..].
  - set (n := (_ - _)%nat). assert (trim n (map (@rev ascii) spaces) (c :: rev t1) = c :: rev t1) as ->.
    { destruct n as [|n]; [done|]. cbn [trim].
      destruct (List.find (starts (c :: rev t1)) (map (@rev ascii) spaces)) as [sp|] eqn:E; [|done].
      apply List.find_some in E as [Hin Hst]. apply in_map_iff in Hin as (p & <- & Hp). apply list_elem_of_In in Hp.
      apply starts_iff in Hst as [k Hk]. destruct (rev p) as [|x q] eqn:Ep.
      - apply (f_equal (@rev ascii)) in Ep. rewrite rev_involutive in Ep. subst p.
        exfalso. pose proof (proj1 spaces_code) as Hne. rewrite Forall_forall in Hne. by apply (Hne [] Hp).
      - injection Hk as <- _. exfalso. apply (solid_space c p Hc Hp). apply (f_equal (@rev ascii)) in Ep.
        rewrite rev_involutive in Ep. rewrite Ep. cbn [rev]. apply elem_of_app. right. by left. }
    exists t1. cbn [rev]. by rewrite rev_involutive.
  - apply Forall_map, Forall_rev. eapply Forall_impl; [exact Hrs|]. intros p Hp. by apply list_elem_of_In, in_map, list_elem_of_In.
  - rewrite length_map, length_rev, length_app. cbn [List.length].
    assert (Forall (fun p => p <> []) rs) as Hne.
    { eapply Forall_impl; [exact Hrs|]. intros p Hp. pose proof (proj1 spaces_code) as Hne.
      rewrite Forall_forall in Hne. by apply Hne. }
    pose proof (concat_long rs Hne). lia.
Qed.

End GoStrings.
