(* ===== verification/Durations.v ===== *)
(** * Durations: Go's [time.ParseDuration]

    The configuration's intervals and timeouts are Go duration texts
    ([go/cmd/sovren-adapter/config.go] and the services).  A duration is an
    [int64] count of nanoseconds; the parser accumulates in [uint64] and
    computes fractions in IEEE binary64, which is [SpecFloat] here. *)

From stdpp Require Import base list strings.
From Stdlib Require Import ZArith Lia Ascii String SpecFloat.
From S2P Require Import Prelude Text.

Open Scope string_scope.
Open Scope list_scope.
Open Scope Z_scope.

Module Durations.

(** [OutOfSteps] is not an error of the code. *)
Inductive error : Type := InvalidDuration | MissingUnit | UnknownUnit | OutOfSteps.

Definition w64 (x : Z) : Z := x mod 2 ^ 64.

(** [unitMap]; the micro sign is U+00B5 or U+03BC. *)
Definition micro (c d : nat) : text := [ascii_of_nat c; ascii_of_nat d; "s"%char].
Definition unitMap : list (text * Z) :=
  [(chars "ns", 1); (chars "us", 10 ^ 3); (micro 0xc2 0xb5, 10 ^ 3); (micro 0xce 0xbc, 10 ^ 3);
   (chars "ms", 10 ^ 6); (chars "s", 10 ^ 9); (chars "m", 60 * 10 ^ 9); (chars "h", 3600 * 10 ^ 9)].
Definition unit_of (u : text) : option Z :=
  option_map snd (List.find (fun e => bool_decide (fst e = u)) unitMap).

(** [leadingInt]: [None] on overflow. *)
Fixpoint leadingInt (x : Z) (s : text) : option (Z * text) :=
  match s with
  | c :: s' =>
      if is_digit c then
        if 2 ^ 63 / 10 <? x then None
        else let x := x * 10 + digit_val c in
             if 2 ^ 63 <? x then None else leadingInt x s'
      else Some (x, s)
  | [] => Some (x, s)
  end.

(** [leadingFraction]: the digits after the point that fit, and how many. *)
Fixpoint leadingFraction (x : Z) (scale : nat) (overflow : bool) (s : text) : Z * nat * text :=
  match s with
  | c :: s' =>
      if is_digit c then
        if overflow then leadingFraction x scale true s'
        else if (2 ^ 63 - 1) / 10 <? x then leadingFraction x scale true s'
        else let y := x * 10 + digit_val c in
             if 2 ^ 63 <? y then leadingFraction x scale true s'
             else leadingFraction y (S scale) false s'
      else (x, scale, s)
  | [] => (x, scale, s)
  end.

(** The binary64 of an integer, and [scale] as the loop multiplies it up. *)
Definition b64 (m : Z) : spec_float := binary_normalize 53 1024 m 0 false.
Fixpoint scale_of (n : nat) (f : spec_float) : spec_float :=
  match n with O => f | S n' => scale_of n' (SFmul 53 1024 f (b64 10)) end.
(** [uint64(f)] of a non-negative number below [2^64]. *)
Definition trunc (f : spec_float) : Z :=
  match f with
  | S754_finite false m e => Z.shiftl (Zpos m) e
  | _ => 0
  end.
Definition fraction (f unit : Z) (scale : nat) : Z :=
  trunc (SFmul 53 1024 (b64 f) (SFdiv 53 1024 (b64 unit) (scale_of scale (b64 1)))).

(** The unit: up to the next digit or point. *)
Definition in_unit (c : ascii) : bool := negb (is_digit c || bool_decide (c = "."%char)).
Fixpoint span (p : ascii -> bool) (s : text) : text * text :=
  match s with
  | c :: s' => if p c then let '(u, r) := span p s' in (c :: u, r) else ([], s)
  | [] => ([], [])
  end.

(** One turn of the loop: [d] with the next number and unit, and what is left. *)
Definition parse_one (d : Z) (s : text) : result error (Z * text) :=
  match s with
  | [] => Ok (d, [])
  | c :: _ =>
      if negb (bool_decide (c = "."%char) || is_digit c) then Err InvalidDuration
      else match leadingInt 0 s with
           | None => Err InvalidDuration
           | Some (v, s1) =>
               let pre := negb (List.length s =? List.length s1)%nat in
               let '(f, scale, s2, post) :=
                 match s1 with
                 | "."%char :: s1' =>
                     let '(f, scale, s2) := leadingFraction 0 0 false s1' in
                     (f, scale, s2, negb (List.length s1' =? List.length s2)%nat)
                 | _ => (0, 0%nat, s1, false)
                 end in
               if negb pre && negb post then Err InvalidDuration
               else
                 let '(u, rest) := span in_unit s2 in
                 match u with
                 | [] => Err MissingUnit
                 | _ =>
                     match unit_of u with
                     | None => Err UnknownUnit
                     | Some unit =>
                         if 2 ^ 63 / unit <? v then Err InvalidDuration
                         else
                           let v := v * unit in
                           let v := if 0 <? f then w64 (v + fraction f unit scale) else v in
                           if (0 <? f) && (2 ^ 63 <? v) then Err InvalidDuration
                           else
                             let d := w64 (d + v) in
                             if 2 ^ 63 <? d then Err InvalidDuration else Ok (d, rest)
                     end
                 end
           end
  end.

(** The loop; every turn consumes at least one character. *)
Fixpoint parse_loop (steps : nat) (d : Z) (s : text) : result error Z :=
  match s with
  | [] => Ok d
  | _ =>
      match steps with
      | O => Err OutOfSteps
      | S steps' =>
          match parse_one d s with
          | Err e => Err e
          | Ok (d, s) => parse_loop steps' d s
          end
      end
  end.

Definition parse_body (neg : bool) (s : text) : result error Z :=
  if bool_decide (s = ["0"%char]) then Ok 0
  else if bool_decide (s = []) then Err InvalidDuration
  else match parse_loop (List.length s) 0 s with
       | Err e => Err e
       | Ok d => if neg then Ok (- d)
                 else if 2 ^ 63 - 1 <? d then Err InvalidDuration else Ok d
       end.

Definition ParseDuration (s : string) : result error Z :=
  match chars s with
  | "-"%char :: t => parse_body true t
  | "+"%char :: t => parse_body false t
  | t => parse_body false t
  end.

Example durations :
  ParseDuration "1h30m" = Ok (5400 * 10 ^ 9) /\ ParseDuration "1.5s" = Ok (1500 * 10 ^ 6) /\
  ParseDuration "-250ms" = Ok (-250 * 10 ^ 6) /\ ParseDuration "0" = Ok 0 /\
  ParseDuration ".5h" = Ok (1800 * 10 ^ 9) /\ ParseDuration "15" = Err MissingUnit /\
  ParseDuration "3d" = Err UnknownUnit /\ ParseDuration "" = Err InvalidDuration /\
  ParseDuration "2562048h" = Err InvalidDuration.
Proof. repeat split; vm_compute; reflexivity. Qed.

(** ** The result is an [int64] *)

Lemma leadingInt_rest x s v s' : 0 <= x -> leadingInt x s = Some (v, s') ->
  0 <= v /\ (List.length s' <= List.length s)%nat.
Proof.
  revert x. induction s as [|c s IH]; intros x Hx; simpl; [intros [= <- <-]; split; [done|simpl; lia]|].
  destruct (is_digit c) eqn:Hc; [|intros [= <- <-]; split; [done|simpl; lia]].
  destruct (_ <? x); [done|]. destruct (_ <? _); [done|]. intros H. apply IH in H as [? ?].
  - split; [done|lia].
  - pose proof (digit_val_range c Hc). lia.
Qed.

Lemma leadingFraction_rest x k o s f k' s' : leadingFraction x k o s = (f, k', s') ->
  (List.length s' <= List.length s)%nat.
Proof.
  revert x k o. induction s as [|c s IH]; intros x k o; simpl; [by intros [= <- <- <-]|].
  destruct (is_digit c); [|by intros [= <- <- <-]].
  destruct o; [intros H%IH; lia|]. destruct (_ <? x); [intros H%IH; lia|].
  destruct (_ <? _); intros H%IH; lia.
Qed.

Lemma span_rest p s u r : span p s = (u, r) -> s = u ++ r.
Proof.
  revert u r. induction s as [|c s IH]; intros u r; simpl; [by intros [= <- <-]|].
  destruct (p c); [|by intros [= <- <-]]. destruct (span p s) as [u' r']. intros [= <- <-].
  simpl. by rewrite <-(IH u' r').
Qed.

(** A turn keeps the sum within [2^63] and consumes input. *)
Lemma parse_one_ok d s d' s' : s <> [] -> parse_one d s = Ok (d', s') ->
  0 <= d' <= 2 ^ 63 /\ (List.length s' < List.length s)%nat.
Proof.
  intros Hs. destruct s as [|c s0]; [done|]. unfold parse_one. set (s := c :: s0) in *.
  destruct (negb _); [done|]. destruct (leadingInt 0 s) as [[v s1]|] eqn:Hi; [|done].
  apply leadingInt_rest in Hi as [_ Hi]; [|lia].
  set (part := match s1 with "."%char :: s1' => _ | _ => _ end).
  assert (List.length part.1.2 <= List.length s1)%nat as Hp.
  { subst part. destruct s1 as [|x s1']; [done|].
    destruct x as [[] [] [] [] [] [] [] []]; try (simpl; lia).
    destruct (leadingFraction 0 0 false s1') as [[f k] s2] eqn:Hf. apply leadingFraction_rest in Hf. simpl. lia. }
  destruct part as [[[f k] s2] post]. simpl in Hp.
  destruct (_ && _); [done|]. destruct (span in_unit s2) as [u rest] eqn:Hsp. apply span_rest in Hsp.
  destruct u as [|u0 u]; [done|]. destruct (unit_of _) as [unit|]; [|done].
  destruct (_ <? v); [done|]. destruct (_ && _); [done|]. cbv zeta.
  match goal with |- context [2 ^ 63 <? w64 ?x] => destruct (Z.ltb_spec (2 ^ 63) (w64 x)) as [|Hle]; [done|];
    pose proof (Z.mod_pos_bound x (2 ^ 64) ltac:(lia)); unfold w64 in * end.
  intros [= <- <-]. split; [lia|]. rewrite Hsp, length_app in Hp. simpl in Hp. lia.
Qed.

Lemma parse_one_steps d s : parse_one d s <> Err OutOfSteps.
Proof.
  unfold parse_one. destruct s as [|c s]; [done|]. destruct (negb _); [done|].
  destruct (leadingInt _ _) as [[v s1]|]; [|done].
  destruct (match s1 with "."%char :: s1' => _ | _ => _ end) as [[[f k] s2] post].
  destruct (_ && _); [done|]. destruct (span _ _) as [[|? ?] ?]; [done|].
  destruct (unit_of _); [|done]. destruct (_ <? v); [done|]. destruct (_ && _); [done|].
  cbv zeta. by destruct (_ <? _).
Qed.

Lemma parse_loop_ok steps d s : (List.length s <= steps)%nat -> 0 <= d <= 2 ^ 63 ->
  match parse_loop steps d s with Ok d' => 0 <= d' <= 2 ^ 63 | Err e => e <> OutOfSteps end.
Proof.
  revert d s. induction steps as [|steps IH]; intros d [|c s] Hl Hd; cbn [parse_loop]; try done; [simpl in Hl; lia|].
  pose proof (parse_one_steps d (c :: s)) as Hns.
  destruct (parse_one d (c :: s)) as [[d' s']|e] eqn:E; [|congruence].
  apply parse_one_ok in E as [Hd' Hl']; [|done]. apply IH; [simpl in *; lia|done].
Qed.

(** A duration is an [int64], and parsing ends. *)
Lemma ParseDuration_bounds s :
  match ParseDuration s with Ok d => - 2 ^ 63 <= d < 2 ^ 63 | Err e => e <> OutOfSteps end.
Proof.
  assert (forall neg t, match parse_body neg t with Ok d => - 2 ^ 63 <= d < 2 ^ 63 | Err e => e <> OutOfSteps end) as H.
  { intros neg t. unfold parse_body. case_bool_decide; [done|]. case_bool_decide; [done|].
    pose proof (parse_loop_ok (List.length t) 0 t ltac:(lia) ltac:(lia)) as Hp.
    destruct (parse_loop _ _ _) as [d|]; [|done]. destruct neg; [lia|].
    destruct (Z.ltb_spec (2 ^ 63 - 1) d); [done|lia]. }
  unfold ParseDuration. destruct (chars s) as [|c t]; [apply H|].
  destruct c as [[] [] [] [] [] [] [] []]; apply H.
Qed.

(** ** A whole number of units *)

Lemma leadingInt_app t s x :
  all_digits t -> 0 <= x -> x * 10 ^ Z.of_nat (List.length t) + value t <= 2 ^ 63 ->
  (forall c s', s = c :: s' -> is_digit c = false) ->
  leadingInt x (t ++ s) = Some (x * 10 ^ Z.of_nat (List.length t) + value t, s).
Proof.
  revert x. induction t as [|c t IH]; intros x Ht Hx Hb Hs.
  - cbn [app List.length]. change (value []) with 0. rewrite Z.pow_0_r, Z.mul_1_r, Z.add_0_r.
    destruct s as [|c s]; [done|]. simpl. by rewrite (Hs c s eq_refl).
  - apply Forall_cons in Ht as [Hc Ht]. pose proof (digit_val_range c Hc) as Hd.
    pose proof (value_range t Ht) as Hv.
    assert (value (c :: t) = digit_val c * 10 ^ Z.of_nat (List.length t) + value t) as Ev.
    { change (c :: t) with ([c] ++ t). rewrite value_app. f_equal. }
    cbn [List.length] in *. rewrite Nat2Z.inj_succ, Z.pow_succ_r, Ev in * by lia.
    pose proof (Z.pow_pos_nonneg 10 (Z.of_nat (List.length t)) ltac:(lia) ltac:(lia)) as Hp.
    cbn [app leadingInt]. rewrite Hc.
    assert (x * 10 + digit_val c <= 2 ^ 63) by nia.
    rewrite (proj2 (Z.ltb_ge _ x)) by (apply Z.div_le_lower_bound; lia).
    rewrite (proj2 (Z.ltb_ge _ _)) by lia. rewrite IH; [do 2 f_equal; ring|done|lia|nia|done].
Qed.

(** What the loop sees of a unit's text. *)
Lemma unit_text u unit : In (u, unit) unitMap ->
  0 < unit /\ unit_of u = Some unit /\ span in_unit u = (u, []) /\
  exists c u', u = c :: u' /\ is_digit c = false /\ c <> "."%char.
Proof.
  simpl. intros H. repeat destruct H as [[= <- <-]|H];
    try (split; [lia|]; split; [vm_compute; reflexivity|]; split; [vm_compute; reflexivity|];
         eexists _, _; split; [reflexivity|]; split; [vm_compute; reflexivity|discriminate]).
  destruct H.
Qed.

Lemma parse_one_unit d n u unit :
  0 <= n -> In (u, unit) unitMap -> n * unit <= 2 ^ 63 -> 0 <= d -> d + n * unit <= 2 ^ 63 ->
  parse_one d (numeral n ++ u) = Ok (d + n * unit, []).
Proof.
  intros Hn Hu Hfit Hd Hsum. destruct (unit_text u unit Hu) as (Hpos & Hof & Hsp & c & u' & Eu & Hc & Hdot).
  pose proof (numeral_digits n Hn) as Hdig. pose proof (value_numeral n Hn) as Hval.
  assert (exists c0 t, numeral n = c0 :: t /\ is_digit c0 = true) as (c0 & t & En & Hc0).
  { destruct (numeral n) as [|c0 t] eqn:E.
    - exfalso. pose proof (numeral_canonical n Hn) as Hcan. rewrite E in Hcan.
      by destruct Hcan as (_ & [?|(? & ? & ? & _)]).
    - apply Forall_cons in Hdig as [? _]. by exists c0, t. }
  assert (leadingInt 0 (numeral n ++ u) = Some (n, u)) as Hli.
  { rewrite leadingInt_app; [by rewrite Hval|done|lia|rewrite Hval; nia|]. intros c1 s' E. rewrite Eu in E. by injection E as -> _. }
  unfold parse_one. rewrite Hli, En. cbn [app]. rewrite Hc0, orb_true_r. cbn [negb].
  replace (List.length (c0 :: t ++ u) =? List.length u)%nat with false
    by (symmetry; apply Nat.eqb_neq; simpl; rewrite length_app; lia). cbn [negb andb].
  assert (match u with "."%char :: s1' => let '(f, scale, s2) := leadingFraction 0 0 false s1' in
            (f, scale, s2, negb (List.length s1' =? List.length s2)%nat) | _ => (0, 0%nat, u, false) end =
          (0, 0%nat, u, false)) as ->.
  { rewrite Eu. destruct c as [[] [] [] [] [] [] [] []]; try reflexivity. done. }
  cbn [negb andb]. rewrite Hsp, Hof. rewrite Eu at 1.
  rewrite (proj2 (Z.ltb_ge _ n)) by (apply Z.div_le_lower_bound; lia).
  rewrite Z.ltb_irrefl. cbn [andb]. cbv zeta iota. unfold w64. rewrite Z.mod_small by nia.
  by rewrite (proj2 (Z.ltb_ge _ _)).
Qed.

(** A number of units that fits is read exactly. *)
Lemma ParseDuration_units n u unit :
  0 <= n -> In (u, unit) unitMap -> n * unit < 2 ^ 63 ->
  ParseDuration (of_chars (numeral n ++ u)) = Ok (n * unit).
Proof.
  intros Hn Hu Hfit. destruct (unit_text u unit Hu) as (Hpos & _ & _ & c & u' & Eu & Hc & _).
  assert (parse_body false (numeral n ++ u) = Ok (n * unit)) as Hb.
  { unfold parse_body. rewrite !bool_decide_eq_false_2.
    - pose proof (parse_one_unit 0 n u unit Hn Hu ltac:(lia) ltac:(lia) ltac:(lia)) as Hone.
      destruct (numeral n ++ u) as [|x s] eqn:E; [by rewrite Eu in E; destruct (numeral n)|].
      cbn [List.length parse_loop]. rewrite Hone. rewrite !Z.add_0_l.
      assert (parse_loop (List.length s) (n * unit) [] = Ok (n * unit)) as -> by by destruct s.
      by rewrite (proj2 (Z.ltb_ge _ _)) by lia.
    - rewrite Eu. by destruct (numeral n).
    - rewrite Eu. intros E. destruct (numeral n) as [|x [|]]; try discriminate.
      injection E as E1 E2. subst c. done. }
  unfold ParseDuration. rewrite chars_of_chars.
  destruct (numeral n) as [|x t] eqn:En.
  { exfalso. pose proof (numeral_canonical n Hn) as Hcan. rewrite En in Hcan. by destruct Hcan as (_ & [?|(? & ? & ? & _)]). }
  pose proof (numeral_digits n Hn) as Hdig. rewrite En in Hdig. apply Forall_cons in Hdig as [Hx _].
  cbn [app] in *. destruct x as [[] [] [] [] [] [] [] []]; try exact Hb; done.
Qed.

End Durations.
