(* ===== verification/NetAddr.v ===== *)
(** * NetAddr: Go's [net.SplitHostPort], [net.ParseIP] and [IP.IsLoopback]

    What the adapter's configuration uses of [net] and [net/netip] to decide
    whether the admin API is bound to the loopback interface.  An address is its
    sixteen bytes; the parsers follow the library's loops byte by byte. *)

From stdpp Require Import base list strings.
From Stdlib Require Import ZArith Lia Ascii String.
From S2P Require Import Prelude Text.

Open Scope string_scope.
Open Scope list_scope.
Open Scope Z_scope.

Module NetAddr.

(** ** [net.SplitHostPort] *)

Inductive AddrError : Type :=
| missingPort | tooManyColons | missingBracket | unexpectedOpen | unexpectedClose.

(** [bytealg.IndexByteString] and [bytealg.LastIndexByteString]. *)
Fixpoint index_byte (c : ascii) (t : text) : option nat :=
  match t with
  | [] => None
  | x :: t' => if is_char c x then Some O else S <$> index_byte c t'
  end.
Fixpoint last_index_byte (c : ascii) (t : text) : option nat :=
  match t with
  | [] => None
  | x :: t' =>
      match last_index_byte c t' with
      | Some i => Some (S i)
      | None => if is_char c x then Some O else None
      end
  end.
Definition has_byte (c : ascii) (t : text) : bool := bool_decide (is_Some (index_byte c t)).

(** The checks for stray brackets, past the positions [j] and [k]. *)
Definition split_at (hostport : text) (host : text) (i j k : nat) : result AddrError (text * text) :=
  if has_byte "["%char (drop j hostport) then Err unexpectedOpen
  else if has_byte "]"%char (drop k hostport) then Err unexpectedClose
  else Ok (host, drop (S i) hostport).

Definition split_text (hostport : text) : result AddrError (text * text) :=
  match last_index_byte ":"%char hostport with
  | None => Err missingPort
  | Some i =>
      if bool_decide (head hostport = Some "["%char) then
        match index_byte "]"%char hostport with
        | None => Err missingBracket
        | Some stop =>
            if (S stop =? List.length hostport)%nat then Err missingPort
            else if (S stop =? i)%nat then
              split_at hostport (drop 1 (take stop hostport)) i 1 (S stop)
            else if bool_decide (hostport !! S stop = Some ":"%char) then Err tooManyColons
            else Err missingPort
        end
      else
        let host := take i hostport in
        if has_byte ":"%char host then Err tooManyColons
        else split_at hostport host i 0 0
  end.

Definition SplitHostPort (hostport : string) : result AddrError (string * string) :=
  match split_text (chars hostport) with
  | Ok (host, port) => Ok (of_chars host, of_chars port)
  | Err e => Err e
  end.

(** ** [net.ParseIP] *)

(** [parseIPv4Fields]: [prev] is the byte before [s]. *)
Fixpoint parseIPv4Fields (prev : option ascii) (val digLen : Z) (fields : list Z) (s : text) : option (list Z) :=
  match s with
  | [] => if (List.length fields <? 3)%nat then None else Some (fields ++ [val])
  | c :: s' =>
      if is_digit c then
        if (digLen =? 1) && (val =? 0) then None
        else let val := val * 10 + digit_val c in
             if 255 <? val then None else parseIPv4Fields (Some c) val (digLen + 1) fields s'
      else if is_char "."%char c then
        if bool_decide (prev = None) || bool_decide (s' = []) || bool_decide (prev = Some "."%char) then None
        else if (List.length fields =? 3)%nat then None
        else parseIPv4Fields (Some c) 0 0 (fields ++ [val]) s'
      else None
  end.

(** [As16] of an IPv4 address. *)
Definition mapped (v4 : list Z) : list Z := repeat 0 10 ++ [255; 255] ++ v4.

Definition parseIPv4 (s : text) : option (list Z) := mapped <$> parseIPv4Fields None 0 0 [] s.

Definition hex_digit (c : ascii) : option Z :=
  let n := Z.of_nat (nat_of_ascii c) in
  if (48 <=? n) && (n <=? 57) then Some (n - 48)
  else if (97 <=? n) && (n <=? 102) then Some (n - 97 + 10)
  else if (65 <=? n) && (n <=? 70) then Some (n - 65 + 10)
  else None.

(** The hexadecimal digits of one group: its value, how many digits, what follows. *)
Fixpoint hex_group (acc : Z) (off : nat) (s : text) : option (Z * nat * text) :=
  match s with
  | [] => Some (acc, off, s)
  | c :: s' =>
      match hex_digit c with
      | None => Some (acc, off, s)
      | Some d =>
          let acc := acc * 16 + d in
          if (3 <? off)%nat then None
          else if 0xffff <? acc then None
          else hex_group acc (S off) s'
      end
  end.

(** The loop of [parseIPv6], a turn per group while fewer than sixteen bytes
    are known: the bytes, the position of the ellipsis and the rest of the text. *)
Fixpoint parseIPv6_loop (groups : nat) (ip : list Z) (ellipsis : option nat) (s : text)
  : option (list Z * option nat * text) :=
  match groups with
  | O => Some (ip, ellipsis, s)
  | S groups' =>
      match hex_group 0 0 s with
      | None | Some (_, O, _) => None
      | Some (acc, S _, rest) =>
          if bool_decide (head rest = Some "."%char) then
            if bool_decide (ellipsis = None) && negb (List.length ip =? 12)%nat then None
            else if (16 <? List.length ip + 4)%nat then None
            else match parseIPv4Fields None 0 0 [] s with
                 | None => None
                 | Some v4 => Some (ip ++ v4, ellipsis, [])
                 end
          else
            let ip := ip ++ [acc / 256; acc mod 256] in
            match rest with
            | [] => Some (ip, ellipsis, [])
            | c :: s' =>
                if negb (is_char ":"%char c) then None
                else match s' with
                     | [] => None
                     | c' :: s'' =>
                         if is_char ":"%char c' then
                           match ellipsis, s'' with
                           | Some _, _ => None
                           | None, [] => Some (ip, Some (List.length ip), [])
                           | None, _ => parseIPv6_loop groups' ip (Some (List.length ip)) s''
                           end
                         else parseIPv6_loop groups' ip ellipsis s'
                     end
            end
      end
  end.

(** The ellipsis stands for the missing groups. *)
Definition expand (ip : list Z) (ellipsis : option nat) : option (list Z) :=
  if (List.length ip <? 16)%nat then
    match ellipsis with
    | None => None
    | Some e => Some (take e ip ++ repeat 0 (16 - List.length ip)%nat ++ drop e ip)
    end
  else if bool_decide (is_Some ellipsis) then None else Some ip.

(** [parseIPv6] of an address without a zone: one with a zone is an error here
    or refused by [ParseIP]. *)
Definition parseIPv6 (s : text) : option (list Z) :=
  if has_byte "%"%char s then None
  else
    let '(ellipsis, s) :=
      match s with
      | ":"%char :: ":"%char :: s' => (Some O, s')
      | _ => (None, s)
      end in
    if bool_decide (ellipsis = Some O) && bool_decide (s = []) then Some (repeat 0 16)
    else match parseIPv6_loop 8 [] ellipsis s with
         | Some (ip, ellipsis, []) => expand ip ellipsis
         | _ => None
         end.

(** [netip.ParseAddr]: the first of the three bytes decides. *)
Fixpoint family (t : text) : option ascii :=
  match t with
  | [] => None
  | c :: t' => if is_char "."%char c || is_char ":"%char c || is_char "%"%char c then Some c else family t'
  end.

Definition ParseIP (s : string) : option (list Z) :=
  let t := chars s in
  match family t with
  | Some "."%char => parseIPv4 t
  | Some ":"%char => parseIPv6 t
  | _ => None
  end.

(** [IP.IsLoopback] of a sixteen-byte address, by [To4]. *)
Definition IsLoopback (ip : list Z) : bool :=
  if bool_decide (take 12 ip = repeat 0 10 ++ [255; 255]) then bool_decide (ip !! 12%nat = Some 127)
  else bool_decide (ip = repeat 0 15 ++ [1]).

(** ** Laws *)

(** The dotted text of four octets. *)
Definition dotted (a b c d : Z) : text :=
  numeral a ++ ["."%char] ++ numeral b ++ ["."%char] ++ numeral c ++ ["."%char] ++ numeral d.

Definition octet (n : Z) : Prop := 0 <= n <= 255.

Lemma parse_octet n prev f rest : octet n ->
  exists c, is_digit c = true /\
    parseIPv4Fields prev 0 0 f (numeral n ++ rest) =
    parseIPv4Fields (Some c) n (Z.of_nat (List.length (numeral n))) f rest.
Proof.
  intros [Hn Hle]. revert Hle rest. pattern n. apply numeral_ind; [..|done]; clear n Hn.
  - intros n Hn _ rest. exists (digit_char n). rewrite numeral_small by done. cbn [app parseIPv4Fields].
    rewrite is_digit_char, digit_val_char by done. split; [done|]. simpl (0 =? 1). cbn [andb].
    by rewrite (proj2 (Z.ltb_ge _ _)) by lia.
  - intros n Hn IH Hle rest. exists (digit_char (n mod 10)).
    pose proof (Z.mod_pos_bound n 10 ltac:(lia)) as Hm. pose proof (Z.div_mod n 10 ltac:(lia)) as Hd.
    split; [by apply is_digit_char|]. rewrite numeral_step by done. rewrite <-app_assoc.
    destruct (IH ltac:(lia) ([digit_char (n mod 10)] ++ rest)) as (c & _ & ->). cbn [app parseIPv4Fields].
    rewrite is_digit_char, digit_val_char by done.
    rewrite (proj2 (Z.eqb_neq (n / 10) 0)) by lia. rewrite andb_false_r.
    replace (n / 10 * 10 + n mod 10) with n by lia. rewrite (proj2 (Z.ltb_ge _ _)) by lia.
    by rewrite length_app, Nat2Z.inj_add.
Qed.

Lemma numeral_starts n rest : 0 <= n -> numeral n ++ rest <> [].
Proof.
  intros Hn E. apply app_eq_nil in E as [E _]. pose proof (numeral_canonical n Hn) as Hc. rewrite E in Hc.
  by destruct Hc as (_ & [?|(? & ? & ? & _)]).
Qed.

Lemma parse_dot c val dl f rest : is_digit c = true -> rest <> [] -> (List.length f < 3)%nat ->
  parseIPv4Fields (Some c) val dl f (["."%char] ++ rest) = parseIPv4Fields (Some "."%char) 0 0 (f ++ [val]) rest.
Proof.
  intros Hc Hr Hf. cbn [app parseIPv4Fields]. change (is_digit ".") with false. change (is_char "." ".") with true.
  cbv iota. rewrite !bool_decide_eq_false_2 by (try done; by intros [= ->]). cbn [orb].
  by rewrite (proj2 (Nat.eqb_neq _ _)) by lia.
Qed.

Lemma parse_dotted a b c d : octet a -> octet b -> octet c -> octet d ->
  parseIPv4Fields None 0 0 [] (dotted a b c d) = Some [a; b; c; d].
Proof.
  intros Ha Hb Hc Hd. unfold dotted.
  edestruct (parse_octet a) as (x & Hx & ->); [done|].
  rewrite parse_dot; [|done|apply numeral_starts, Hb|simpl; lia].
  edestruct (parse_octet b) as (y & Hy & ->); [done|].
  rewrite parse_dot; [|done|apply numeral_starts, Hc|simpl; lia].
  edestruct (parse_octet c) as (z & Hz & ->); [done|].
  rewrite <-(app_nil_r (numeral d)).
  rewrite parse_dot; [|done|apply numeral_starts, Hd|simpl; lia].
  by edestruct (parse_octet d) as (w & Hw & ->).
Qed.

Lemma family_digits t rest : all_digits t -> family (t ++ rest) = family rest.
Proof.
  induction 1 as [|c t Hc _ IH]; [done|]. cbn [app family]. rewrite IH.
  destruct c as [[] [] [] [] [] [] [] []]; try discriminate; reflexivity.
Qed.

(** The dotted text of an IPv4 address is read as that address, and it is a
    loopback address exactly when its first octet is 127. *)
Lemma ParseIP_dotted a b c d : octet a -> octet b -> octet c -> octet d ->
  ParseIP (of_chars (dotted a b c d)) = Some (mapped [a; b; c; d]) /\
  IsLoopback (mapped [a; b; c; d]) = (a =? 127).
Proof.
  intros Ha Hb Hc Hd. split.
  - unfold ParseIP. rewrite chars_of_chars. unfold dotted at 1.
    rewrite family_digits by (apply numeral_digits, Ha).
    change (family _) with (Some "."%char). cbv iota. unfold parseIPv4. by rewrite parse_dotted.
  - unfold IsLoopback, mapped. cbn [repeat app take]. rewrite bool_decide_eq_true_2 by done. cbn [lookup list_lookup].
    destruct (Z.eqb_spec a 127) as [->|Hne]; [by apply bool_decide_eq_true_2|].
    apply bool_decide_eq_false_2. congruence.
Qed.

(** Some texts, read and refused. *)
Example loopback6 : IsLoopback <$> ParseIP "::1" = Some true.
Proof. reflexivity. Qed.
Example mapped6 : IsLoopback <$> ParseIP "::ffff:127.0.0.1" = Some true.
Proof. reflexivity. Qed.
Example global6 : IsLoopback <$> ParseIP "2001:db8::8:800:200c:417a" = Some false.
Proof. reflexivity. Qed.
Example full6 : ParseIP "2001:DB8:0:0:8:800:200C:417A" = ParseIP "2001:db8::8:800:200c:417a".
Proof. reflexivity. Qed.
Example bad_texts :
  Forall (fun s => ParseIP s = None)
    [""; "127.0.0.01"; "1.2.3"; "1.2.3.4.5"; "256.1.1.1"; "1..2.3"; "::1%lo"; "1:2"; ":::"; "12345::"; "::1::"; "1:2:3:4:5:6:7::8"].
Proof. repeat constructor. Qed.
Example splits :
  SplitHostPort "127.0.0.1:9465" = Ok ("127.0.0.1", "9465") /\ SplitHostPort "[::1]:80" = Ok ("::1", "80") /\
  SplitHostPort ":9465" = Ok ("", "9465") /\ SplitHostPort "::1:80" = Err tooManyColons /\
  SplitHostPort "localhost" = Err missingPort /\ SplitHostPort "[::1" = Err missingBracket /\
  SplitHostPort "[::1]80:" = Err missingPort.
Proof. repeat split. Qed.

End NetAddr.
