(* ===== verification/Amounts.v ===== *)
(** * Amounts: display amounts and base units

    [go/amounts/amounts.go]: exact conversion between SOVR display amounts
    ("10.25") and usovr base units ("10250000"), with the FR-018 rejection
    codes.  The theorems give the exact meaning of a successful conversion,
    the round trip both ways, totality on every in-range base-unit numeral,
    and which code each malformed class of inputs gets. *)

From stdpp Require Import base list strings.
From Stdlib Require Import ZArith Lia Ascii String.
From S2P Require Import Prelude Text.

Module Amounts.

Definition DisplayDecimals : nat := 6.
Definition DefaultMaxBaseUnits : string := "1000000000000000".

Inductive code : Type :=
| CodeTooManyDecimals
| CodeNegative
| CodeScientificNotation
| CodeCommas
| CodeEmpty
| CodeNotNumeric
| CodeExceedsMax.

(** [*amounts.Error] with its code, or the plain error of a bad maximum. *)
Inductive error : Type :=
| Error (c : code)
| ErrMaxBaseUnits.

Definition CodeOf (e : error) : option code :=
  match e with Error c => Some c | ErrMaxBaseUnits => None end.

Definition digit : re := Chr is_digit.
Definition dot : re := Chr (is_char "."%char).
Definition sign : re := Opt (Chr (fun c => is_char "-"%char c || is_char "+"%char c)).

(** [0], or a nonzero digit and then digits. *)
Definition baseRe : re := Alt (Chr (is_char "0"%char)) (Cat (Chr is_nonzero_digit) (Star digit)).
(** [baseRe], optionally followed by a dot and at least one digit. *)
Definition displayRe : re := Cat baseRe (Opt (Cat dot (Plus digit))).
(** Optional sign, a mantissa with at least one digit, [e] or [E], an
    optional sign and digits. *)
Definition scientificRe : re :=
  Cat sign
    (Cat (Alt (Cat dot (Plus digit)) (Cat (Plus digit) (Cat (Opt dot) (Star digit))))
      (Cat (Chr (fun c => is_char "e"%char c || is_char "E"%char c))
        (Cat sign (Plus digit)))).

Definition baseUnitsPerDisplayUnit : Z := 1000000.

(** The first dot splits a match of [displayRe] into groups 1 and 3. *)
Fixpoint split_dot (t : text) : text * text :=
  match t with
  | [] => ([], [])
  | c :: t' => if is_char "."%char c then ([], t')
               else let '(w, f) := split_dot t' in (c :: w, f)
  end.

(** [displayRe.FindStringSubmatch], groups 1 and 3. *)
Definition submatch (t : text) : option (text * text) :=
  if matches displayRe t then Some (split_dot t) else None.

Definition preScreen (t : text) : option error :=
  if bool_decide (t = []) then Some (Error CodeEmpty)
  else if existsb (is_char ","%char) t then Some (Error CodeCommas)
  else if matches scientificRe t then Some (Error CodeScientificNotation)
  else match t with
       | c :: _ => if is_char "-"%char c then Some (Error CodeNegative) else None
       | [] => None
       end.

Definition parseMax (m : text) : result error Z :=
  if matches baseRe m then Ok (value m) else Err ErrMaxBaseUnits.

Definition DisplayToBaseUnitsWithMax (display maxBaseUnits : string) : result error string :=
  match parseMax (chars maxBaseUnits) with
  | Err e => Err e
  | Ok max =>
      match preScreen (chars display) with
      | Some e => Err e
      | None =>
          match submatch (chars display) with
          | None => Err (Error CodeNotNumeric)
          | Some (whole, frac) =>
              if (DisplayDecimals <? List.length frac)%nat then Err (Error CodeTooManyDecimals)
              else
                let v := (value whole * baseUnitsPerDisplayUnit)%Z in
                let v := if bool_decide (frac = []) then v
                         else
                           let fracPadded :=
                             frac ++ repeat "0"%char (DisplayDecimals - List.length frac) in
                           (v + value fracPadded)%Z in
                if (max <? v)%Z then Err (Error CodeExceedsMax)
                else Ok (of_chars (numeral v))
          end
      end
  end.

Definition DisplayToBaseUnits (display : string) : result error string :=
  DisplayToBaseUnitsWithMax display DefaultMaxBaseUnits.

(** [fmt.Sprintf("%06d", rem)] *)
Definition pad6 (n : Z) : text :=
  let t := numeral n in repeat "0"%char (DisplayDecimals - List.length t) ++ t.

(** [strings.TrimRight(t, "0")] *)
Fixpoint trim_right0 (t : text) : text :=
  match t with
  | [] => []
  | c :: t' => match trim_right0 t' with
               | [] => if is_char "0"%char c then [] else [c]
               | t'' => c :: t''
               end
  end.

Definition BaseToDisplayUnitsWithMax (base maxBaseUnits : string) : result error string :=
  match parseMax (chars maxBaseUnits) with
  | Err e => Err e
  | Ok max =>
      match preScreen (chars base) with
      | Some e => Err e
      | None =>
          if negb (matches baseRe (chars base)) then Err (Error CodeNotNumeric)
          else
            let v := value (chars base) in
            if (max <? v)%Z then Err (Error CodeExceedsMax)
            else
              let quo := (v / baseUnitsPerDisplayUnit)%Z in
              let rem := (v mod baseUnitsPerDisplayUnit)%Z in
              if (rem =? 0)%Z then Ok (of_chars (numeral quo))
              else Ok (of_chars (numeral quo ++ "."%char :: trim_right0 (pad6 rem)))
      end
  end.

Definition BaseToDisplayUnits (base : string) : result error string :=
  BaseToDisplayUnitsWithMax base DefaultMaxBaseUnits.

(** ** Specification *)

(** [t] writes the number [w].[f] in canonical form. *)
Definition writes (t w f : text) : Prop :=
  canonical w /\ all_digits f /\ t = w ++ (if bool_decide (f = []) then [] else "."%char :: f).

(** The base units it stands for, exactly. *)
Definition units (w f : text) : Z :=
  value w * 10 ^ 6 + value f * 10 ^ (6 - Z.of_nat (List.length f)).

Open Scope Z_scope.

Example display_ex : DisplayToBaseUnits "10.25" = Ok "10250000"%string.
Proof. vm_compute. reflexivity. Qed.
Example base_ex : BaseToDisplayUnits "10250000" = Ok "10.25"%string.
Proof. vm_compute. reflexivity. Qed.
Example sci_ex : DisplayToBaseUnits "-1.5E-3" = Err (Error CodeScientificNotation).
Proof. vm_compute. reflexivity. Qed.
Example neg_ex : DisplayToBaseUnits "-1" = Err (Error CodeNegative).
Proof. vm_compute. reflexivity. Qed.
Example dec_ex : DisplayToBaseUnits "1.0000001" = Err (Error CodeTooManyDecimals).
Proof. vm_compute. reflexivity. Qed.

(** ** The regular expressions *)

Lemma is_char_true c0 c : is_char c0 c = true <-> c = c0.
Proof. unfold is_char. apply bool_decide_eq_true. Qed.

Lemma baseRe_canonical t : matches baseRe t = true <-> canonical t.
Proof.
  rewrite matches_lang. unfold baseRe, digit, canonical.
  rewrite lang_alt_inv, lang_chr_inv, lang_cat_inv. split.
  - intros [(c & -> & Hc)|(t1 & t2 & -> & H1 & H2)].
    + apply is_char_true in Hc as ->. split; [by repeat constructor | by left].
    + apply lang_chr_inv in H1 as (c & -> & Hc). apply lang_star_chr in H2. simpl.
      split; [constructor; [by apply is_nonzero_digit_digit | done] | right; eauto].
  - intros [Hd [->|(c & t' & -> & Hc)]].
    + left. eexists. split; [done|]. by apply is_char_true.
    + right. exists [c], t'. apply Forall_cons in Hd as [_ Hd].
      split_and!; [done | apply lang_chr_inv; eauto | by apply lang_star_chr].
Qed.

Lemma plus_digits t : lang (Plus digit) t <-> all_digits t /\ t <> [].
Proof.
  unfold Plus, digit. rewrite lang_cat_inv. split.
  - intros (t1 & t2 & -> & H1 & H2). apply lang_chr_inv in H1 as (c & -> & Hc).
    apply lang_star_chr in H2. split; [by constructor | done].
  - intros [Hd Hn]. destruct t as [|c t]; [done|]. apply Forall_cons in Hd as [Hc Hd].
    exists [c], t. split_and!; [done | apply lang_chr_inv; eauto | by apply lang_star_chr].
Qed.

Lemma displayRe_writes t : matches displayRe t = true <-> exists w f, writes t w f.
Proof.
  rewrite matches_lang. unfold displayRe, Opt. rewrite lang_cat_inv. split.
  - intros (w & u & -> & Hw & Hu). apply matches_lang, baseRe_canonical in Hw.
    apply lang_alt_inv in Hu as [Hu|Hu].
    + apply lang_cat_inv in Hu as (d & f & -> & Hd & Hf).
      apply lang_chr_inv in Hd as (c & -> & Hc). apply is_char_true in Hc as ->.
      apply plus_digits in Hf as [Hf Hne]. exists w, f. split_and!; [done..|].
      by rewrite bool_decide_eq_false_2.
    + apply lang_eps_inv in Hu as ->. exists w, []. split_and!; [done | constructor | done].
  - intros (w & f & Hw & Hf & ->). eexists w, _. split; [done|]. split.
    { by apply matches_lang, baseRe_canonical. }
    apply lang_alt_inv. case_bool_decide as Hn; [right; constructor|left].
    apply lang_cat_inv. exists ["."%char], f. split_and!; [done| |by apply plus_digits].
    apply lang_chr_inv. eexists. split; [done|]. by apply is_char_true.
Qed.

Lemma digit_not_char c0 c : is_digit c0 = false -> is_digit c = true -> is_char c0 c = false.
Proof.
  intros H0 Hc. destruct (is_char c0 c) eqn:E; [|done].
  apply is_char_true in E as ->. congruence.
Qed.

Lemma split_dot_writes t w f : writes t w f -> split_dot t = (w, f).
Proof.
  intros ([Hw _] & Hf & ->). induction Hw as [|c w Hc Hw IH]; simpl.
  - by case_bool_decide; subst.
  - rewrite digit_not_char by done. by rewrite IH.
Qed.

(** The written form uses only digits and the dot. *)
Lemma writes_chars t w f c : writes t w f -> c ∈ t -> is_digit c = true \/ c = "."%char.
Proof.
  intros ([Hw _] & Hf & ->) Hc. apply elem_of_app in Hc as [Hc|Hc].
  - left. by eapply Forall_forall in Hw.
  - case_bool_decide; [by apply elem_of_nil in Hc|].
    apply elem_of_cons in Hc as [->|Hc]; [by right | left].
    by eapply Forall_forall in Hf.
Qed.

Lemma scientific_has_e t :
  lang scientificRe t -> exists c, c ∈ t /\ (c = "e"%char \/ c = "E"%char).
Proof.
  unfold scientificRe. rewrite lang_cat_inv. intros (t1 & t2 & -> & _ & H2).
  apply lang_cat_inv in H2 as (t3 & t4 & -> & _ & H4).
  apply lang_cat_inv in H4 as (t5 & t6 & -> & H5 & _).
  apply lang_chr_inv in H5 as (c & -> & Hc). exists c. split; [rewrite !elem_of_app, elem_of_cons; tauto|].
  apply orb_true_iff in Hc as [Hc|Hc]; apply is_char_true in Hc; auto.
Qed.

(** A written amount passes the shared screening. *)
Lemma preScreen_writes t w f : writes t w f -> preScreen t = None.
Proof.
  intros Hwr. unfold preScreen.
  assert (t <> []) as Hne.
  { destruct Hwr as ([_ [->|(c & w' & -> & _)]] & _ & ->); done. }
  rewrite bool_decide_eq_false_2 by done.
  destruct (existsb _ t) eqn:Ec.
  { apply existsb_exists in Ec as (c & Hin & Hc). apply is_char_true in Hc as ->.
    apply list_elem_of_In in Hin.
    destruct (writes_chars _ _ _ _ Hwr Hin) as [H|H]; vm_compute in H; congruence. }
  destruct (matches scientificRe t) eqn:Es.
  { apply matches_lang, scientific_has_e in Es as (c & Hin & Hc).
    destruct (writes_chars _ _ _ _ Hwr Hin) as [H|H]; destruct Hc as [-> | ->];
      vm_compute in H; congruence. }
  destruct t as [|c t]; [done|]. destruct (is_char _ c) eqn:Em; [|done].
  apply is_char_true in Em as ->.
  destruct (writes_chars _ _ _ "-"%char Hwr) as [H|H]; [by left | vm_compute in H; congruence..].
Qed.

Lemma canonical_writes t : canonical t -> writes t t [].
Proof. intros H. split_and!; [done | constructor | by rewrite app_nil_r]. Qed.

(** ** What a successful conversion means *)

Lemma frac_value f : all_digits f -> (List.length f <= 6)%nat ->
  value (f ++ repeat "0"%char (DisplayDecimals - List.length f)) =
  value f * 10 ^ (6 - Z.of_nat (List.length f)).
Proof.
  intros Hf Hl. rewrite value_app, repeat_length.
  rewrite <-(app_nil_r (repeat _ _)). change "0"%char with (digit_char 0).
  rewrite value_zeros. change (value []) with 0. unfold DisplayDecimals.
  rewrite Nat2Z.inj_sub by lia. lia.
Qed.

Lemma display_core d w f m :
  canonical (chars m) -> writes (chars d) w f ->
  DisplayToBaseUnitsWithMax d m =
    if (6 <? List.length f)%nat then Err (Error CodeTooManyDecimals)
    else if value (chars m) <? units w f then Err (Error CodeExceedsMax)
    else Ok (of_chars (numeral (units w f))).
Proof.
  intros Hm Hwr. unfold DisplayToBaseUnitsWithMax, parseMax, submatch.
  rewrite (proj2 (baseRe_canonical _) Hm), (preScreen_writes _ _ _ Hwr).
  rewrite (proj2 (displayRe_writes (chars d))) by eauto.
  rewrite (split_dot_writes _ _ _ Hwr). unfold DisplayDecimals at 1.
  destruct (Nat.ltb_spec 6 (List.length f)); [done|].
  assert ((if bool_decide (f = []) then value w * baseUnitsPerDisplayUnit
    else value w * baseUnitsPerDisplayUnit +
         value (f ++ repeat "0"%char (DisplayDecimals - List.length f))) = units w f) as Hu.
  { unfold units, baseUnitsPerDisplayUnit. case_bool_decide as Hf.
    - subst f. change (value []) with 0. lia.
    - rewrite frac_value; [lia | apply Hwr | lia]. }
  simpl. by rewrite Hu.
Qed.

(** C39: a display amount is accepted exactly when it is a canonical decimal
    with at most six decimals whose value in base units is at most the
    maximum, and the result is the numeral of exactly that value. *)
Theorem display_to_base_exact (d m b : string) (Hm : canonical (chars m)) :
  DisplayToBaseUnitsWithMax d m = Ok b <->
  exists w f, writes (chars d) w f /\ (List.length f <= 6)%nat /\
    units w f <= value (chars m) /\ b = of_chars (numeral (units w f)).
Proof.
  split.
  - destruct (matches displayRe (chars d)) eqn:Hd.
    + apply displayRe_writes in Hd as (w & f & Hwr). rewrite (display_core _ _ _ _ Hm Hwr).
      destruct (Nat.ltb_spec 6 (List.length f)); [done|].
      destruct (Z.ltb_spec (value (chars m)) (units w f)); [done|].
      intros [= <-]. exists w, f. split_and!; [done|lia..|done].
    + unfold DisplayToBaseUnitsWithMax, submatch. rewrite Hd.
      destruct (parseMax _); [|done]. by destruct (preScreen _).
  - intros (w & f & Hwr & Hl & Hu & ->). rewrite (display_core _ _ _ _ Hm Hwr).
    destruct (Nat.ltb_spec 6 (List.length f)); [lia|].
    by destruct (Z.ltb_spec (value (chars m)) (units w f)); [lia|].
Qed.

Lemma default_max_canonical : canonical (chars DefaultMaxBaseUnits).
Proof. by apply baseRe_canonical. Qed.

Lemma display_to_base_exact_witness :
  DisplayToBaseUnitsWithMax "10.25" DefaultMaxBaseUnits = Ok "10250000"%string.
Proof.
  apply (display_to_base_exact "10.25" DefaultMaxBaseUnits "10250000").
  - apply baseRe_canonical. vm_compute. reflexivity.
  - exists (chars "10"), (chars "25"). split_and!.
    + split_and!; [by apply baseRe_canonical | by repeat constructor | done].
    + simpl; lia.
    + vm_compute. discriminate.
    + vm_compute. reflexivity.
Defined.

(** ** The fraction printer *)

Lemma trim_right0_split t :
  t = trim_right0 t ++ repeat "0"%char (List.length t - List.length (trim_right0 t)) /\
  (List.length (trim_right0 t) <= List.length t)%nat.
Proof.
  induction t as [|c t [IH Hl]]; [done|]. simpl.
  destruct (trim_right0 t) as [|c' t'] eqn:E.
  - destruct (is_char "0"%char c) eqn:Ec; simpl in *.
    + apply is_char_true in Ec as ->. split; [|lia].
      rewrite Nat.sub_0_r in IH. by rewrite <-IH.
    + split; [|lia]. by rewrite <-IH.
  - split; [|simpl in *; lia]. simpl in *. f_equal. exact IH.
Qed.

Lemma pad6_digits n : 0 <= n -> all_digits (pad6 n).
Proof.
  intros H. unfold pad6. apply Forall_app; split; [|by apply numeral_digits].
  apply (repeat_digits _).
Qed.
Lemma pad6_value n : 0 <= n -> value (pad6 n) = n.
Proof.
  intros H. unfold pad6. change "0"%char with (digit_char 0).
  by rewrite value_zeros, value_numeral.
Qed.

Lemma numeral_length n k : 0 <= n < 10 ^ Z.of_nat k -> (0 < k)%nat -> (List.length (numeral n) <= k)%nat.
Proof.
  intros Hn Hk. assert (0 <= n) as H by lia. revert n H k Hn Hk.
  apply (numeral_ind (fun n => forall k, _ -> _ -> _)); [intros n H k Hn Hk|intros n H IH k Hn Hk].
  - rewrite numeral_small by done. simpl. lia.
  - rewrite numeral_step, length_app by done. simpl.
    destruct k as [|[|k]]; [lia|simpl in *; lia|].
    rewrite Nat2Z.inj_succ, Z.pow_succ_r in Hn by lia.
    enough (List.length (numeral (n / 10)) <= S k)%nat by lia.
    apply IH; [|lia]. split; [apply Z.div_pos; lia|]. apply Z.div_lt_upper_bound; lia.
Qed.

Lemma pad6_length n : 0 <= n < 10 ^ 6 -> List.length (pad6 n) = 6%nat.
Proof.
  intros H. unfold pad6, DisplayDecimals. rewrite length_app, repeat_length.
  pose proof (numeral_length n 6 ltac:(simpl; lia) ltac:(lia)). lia.
Qed.

Lemma trim_pad6 n : 0 < n < 10 ^ 6 ->
  let f := trim_right0 (pad6 n) in
  all_digits f /\ f <> [] /\ (List.length f <= 6)%nat /\
  value f * 10 ^ (6 - Z.of_nat (List.length f)) = n.
Proof.
  intros Hn f. pose proof (pad6_length n ltac:(lia)) as Hl.
  pose proof (pad6_digits n ltac:(lia)) as Hd. pose proof (pad6_value n ltac:(lia)) as Hv.
  destruct (trim_right0_split (pad6 n)) as [Hs Hle]. fold f in Hs, Hle.
  rewrite Hl in Hs, Hle. rewrite Hs in Hd, Hv. apply Forall_app in Hd as [Hd _].
  change (repeat "0"%char (6 - List.length f)) with
    (repeat "0"%char (DisplayDecimals - List.length f)) in Hv.
  rewrite frac_value in Hv by done.
  split_and!; [done | | done | done].
  intros He. rewrite He in Hv. change (value []) with 0 in Hv. lia.
Qed.

Lemma base_core b m :
  canonical (chars m) -> canonical (chars b) ->
  BaseToDisplayUnitsWithMax b m =
    let v := value (chars b) in
    if value (chars m) <? v then Err (Error CodeExceedsMax)
    else if v mod 1000000 =? 0 then Ok (of_chars (numeral (v / 1000000)))
    else Ok (of_chars (numeral (v / 1000000) ++ "."%char :: trim_right0 (pad6 (v mod 1000000)))).
Proof.
  intros Hm Hb. unfold BaseToDisplayUnitsWithMax, parseMax.
  rewrite (proj2 (baseRe_canonical _) Hm).
  rewrite (preScreen_writes _ _ _ (canonical_writes _ Hb)).
  by rewrite (proj2 (baseRe_canonical _) Hb).
Qed.

Lemma base_writes b m d :
  canonical (chars m) -> BaseToDisplayUnitsWithMax b m = Ok d ->
  canonical (chars b) /\ value (chars b) <= value (chars m) /\
  exists w f, writes (chars d) w f /\ (List.length f <= 6)%nat /\ units w f = value (chars b).
Proof.
  intros Hm H.
  destruct (matches baseRe (chars b)) eqn:Hb.
  2:{ unfold BaseToDisplayUnitsWithMax in H. rewrite Hb in H.
      destruct (parseMax _); [|done]. by destruct (preScreen _). }
  apply baseRe_canonical in Hb. rewrite base_core in H by done. simpl in H.
  pose proof (value_range _ (proj1 Hb)) as [Hv _].
  set (v := value (chars b)) in *.
  destruct (Z.ltb_spec (value (chars m)) v); [done|].
  split_and!; [done..|]. pose proof (Z.mod_pos_bound v 1000000 ltac:(lia)).
  pose proof (Z.div_mod v 1000000 ltac:(lia)).
  assert (0 <= v / 1000000) by (apply Z.div_pos; lia).
  destruct (Z.eqb_spec (v mod 1000000) 0) as [E|E]; injection H as <-; rewrite chars_of_chars.
  - exists (numeral (v / 1000000)), []. split_and!; simpl; [|lia|].
    + apply canonical_writes, numeral_canonical; lia.
    + unfold units. rewrite value_numeral by lia. change (value []) with 0. lia.
  - destruct (trim_pad6 (v mod 1000000)) as (Hf & Hne & Hl & Hfv); [lia|].
    eexists (numeral (v / 1000000)), _. split_and!; [|exact Hl|].
    + split_and!; [apply numeral_canonical; lia | done |].
      by rewrite bool_decide_eq_false_2.
    + unfold units. rewrite Hfv, value_numeral by lia. lia.
Qed.

(** [BaseToDisplayUnits] loses nothing: converting its output back
    yields the original base-unit string. *)
Theorem base_display_roundtrip (b m d : string) (Hm : canonical (chars m))
    (H : BaseToDisplayUnitsWithMax b m = Ok d) :
  DisplayToBaseUnitsWithMax d m = Ok b.
Proof.
  destruct (base_writes b m d Hm H) as (Hb & Hle & w & f & Hwr & Hl & Hu).
  rewrite (display_core _ _ _ _ Hm Hwr), Hu.
  destruct (Nat.ltb_spec 6 (List.length f)); [lia|].
  destruct (Z.ltb_spec (value (chars m)) (value (chars b))); [lia|].
  by rewrite numeral_value, of_chars_chars.
Qed.

Lemma base_display_roundtrip_witness :
  DisplayToBaseUnitsWithMax "0.000001" DefaultMaxBaseUnits = Ok "1"%string.
Proof.
  apply (base_display_roundtrip "1" DefaultMaxBaseUnits "0.000001").
  - apply baseRe_canonical. vm_compute. reflexivity.
  - vm_compute. reflexivity.
Defined.

(** The conversion to display units is total on the amounts of the chain:
    every number of base units from zero up to the maximum, written as a
    numeral, converts without an error. *)
Theorem base_to_display_total (n mx : Z) (Hn : 0 <= n <= mx) :
  exists d, BaseToDisplayUnitsWithMax (of_chars (numeral n)) (of_chars (numeral mx)) = Ok d.
Proof.
  rewrite base_core; rewrite ?chars_of_chars; [|apply numeral_canonical; lia..].
  rewrite !value_numeral by lia. simpl.
  destruct (Z.ltb_spec mx n); [lia|].
  destruct (_ =? 0); eauto.
Qed.

Lemma base_to_display_total_witness :
  exists d, BaseToDisplayUnitsWithMax (of_chars (numeral 999999)) (of_chars (numeral 1000000)) = Ok d.
Proof. apply (base_to_display_total 999999 1000000). lia. Defined.

(** ** The rejection codes *)

Definition is_exp (c : ascii) : bool := is_char "e"%char c || is_char "E"%char c.
Definition signs : list text := [[]; ["-"%char]; ["+"%char]].

Lemma sign_lang sg : sg ∈ signs -> lang sign sg.
Proof.
  intros H. apply matches_lang.
  repeat (apply elem_of_cons in H as [->|H]; [by vm_compute|]). by apply elem_of_nil in H.
Qed.

Lemma scientific_written t w f sg sg' c e :
  writes t w f -> sg ∈ signs -> sg' ∈ signs -> is_exp c = true -> all_digits e -> e <> [] ->
  lang scientificRe (sg ++ t ++ c :: sg' ++ e).
Proof.
  intros (Hw & Hf & ->) Hs Hs' Hc He Hne. unfold scientificRe.
  apply lang_cat_inv. eexists sg, _. split_and!; [done | by apply sign_lang|].
  apply lang_cat_inv. eexists _, (c :: sg' ++ e). split_and!; [done| |].
  - apply lang_alt_inv. right. apply lang_cat_inv. eexists w, _. split_and!; [done| |].
    + apply plus_digits. split; [apply Hw|]. by destruct Hw as [_ [->|(?&?&->&_)]].
    + apply lang_cat_inv. case_bool_decide.
      * exists [], []. split_and!; [done | apply lang_alt_inv; right; constructor | constructor].
      * exists ["."%char], f. split_and!; [done| |by apply lang_star_chr].
        apply lang_alt_inv. left. by apply matches_lang.
  - apply lang_cat_inv. eexists [c], _. split_and!; [done| |].
    + apply lang_chr_inv. eauto.
    + apply lang_cat_inv. eexists sg', e.
      split_and!; [done | by apply sign_lang | by apply plus_digits].
Qed.

(** No comma in a string whose characters are digits, dots, signs or an
    exponent mark. *)
Lemma no_comma t : (forall c, c ∈ t -> c <> ","%char) -> existsb (is_char ","%char) t = false.
Proof.
  intros H. destruct (existsb _ t) eqn:E; [|done].
  apply existsb_exists in E as (c & Hin & Hc). apply is_char_true in Hc as ->.
  apply list_elem_of_In in Hin. by destruct (H _ Hin).
Qed.

Lemma digits_no_comma c t : all_digits t -> c ∈ t -> c <> ","%char.
Proof. intros Ht Hc ->. eapply Forall_forall in Ht; [|done]. done. Qed.

Lemma signs_no_comma c sg : sg ∈ signs -> c ∈ sg -> c <> ","%char.
Proof.
  intros Hs Hc ->. repeat (apply elem_of_cons in Hs as [->|Hs];
    [apply list_elem_of_In in Hc; simpl in Hc; intuition discriminate|]).
  by apply elem_of_nil in Hs.
Qed.

(** The FR-018 rejection codes.  For every canonical maximum: a written
    amount with an exponent, signed or not, is "scientific notation"; a
    written amount behind a minus sign is "negative"; one with more than six
    decimals is "too many decimals", whatever its size; one above the maximum
    is "exceeds max"; and any input with a comma is "commas". *)
Theorem display_rejections (m : string) (Hm : canonical (chars m)) :
  (forall t w f sg sg' c e, writes t w f -> sg ∈ signs -> sg' ∈ signs ->
     is_exp c = true -> all_digits e -> e <> [] ->
     DisplayToBaseUnitsWithMax (of_chars (sg ++ t ++ c :: sg' ++ e)) m
       = Err (Error CodeScientificNotation)) /\
  (forall t w f, writes t w f ->
     DisplayToBaseUnitsWithMax (of_chars ("-"%char :: t)) m = Err (Error CodeNegative)) /\
  (forall t w f, writes t w f -> (6 < List.length f)%nat ->
     DisplayToBaseUnitsWithMax (of_chars t) m = Err (Error CodeTooManyDecimals)) /\
  (forall t w f, writes t w f -> (List.length f <= 6)%nat -> value (chars m) < units w f ->
     DisplayToBaseUnitsWithMax (of_chars t) m = Err (Error CodeExceedsMax)) /\
  (forall t, ","%char ∈ t -> DisplayToBaseUnitsWithMax (of_chars t) m = Err (Error CodeCommas)).
Proof.
  split_and!.
  - intros t w f sg sg' c e Hwr Hs Hs' Hc He Hne.
    unfold DisplayToBaseUnitsWithMax, parseMax, preScreen.
    rewrite (proj2 (baseRe_canonical _) Hm), chars_of_chars.
    rewrite bool_decide_eq_false_2 by (intros E; destruct sg, t; simpl in E; discriminate E).
    rewrite no_comma.
    + by rewrite (proj2 (matches_lang _ _)) by (by eapply scientific_written).
    + intros c'. rewrite !elem_of_app, elem_of_cons, elem_of_app.
      intros [H|[H|[->|[H|H]]]]; [by apply (signs_no_comma c' sg)| |by intros ->
        |by apply (signs_no_comma c' sg')|by apply (digits_no_comma c' e)].
      intros ->. by destruct (writes_chars _ _ _ _ Hwr H).
  - intros t w f Hwr. unfold DisplayToBaseUnitsWithMax, parseMax, preScreen.
    rewrite (proj2 (baseRe_canonical _) Hm), chars_of_chars.
    rewrite bool_decide_eq_false_2 by done. rewrite no_comma.
    + destruct (matches scientificRe _) eqn:Es; [|done].
      apply matches_lang, scientific_has_e in Es as (c & Hin & Hc).
      apply elem_of_cons in Hin as [->|Hin]; [by destruct Hc|].
      destruct (writes_chars _ _ _ _ Hwr Hin) as [H|H]; destruct Hc as [-> | ->];
        vm_compute in H; congruence.
    + intros c [->|H]%elem_of_cons; [done|]. intros ->.
      by destruct (writes_chars _ _ _ _ Hwr H).
  - intros t w f Hwr Hl. rewrite (display_core _ w f); rewrite ?chars_of_chars; [|done..].
    by destruct (Nat.ltb_spec 6 (List.length f)); [|lia].
  - intros t w f Hwr Hl Hu. rewrite (display_core _ w f); rewrite ?chars_of_chars; [|done..].
    destruct (Nat.ltb_spec 6 (List.length f)); [lia|].
    by destruct (Z.ltb_spec (value (chars m)) (units w f)); [|lia].
  - intros t Ht. unfold DisplayToBaseUnitsWithMax, parseMax, preScreen.
    rewrite (proj2 (baseRe_canonical _) Hm), chars_of_chars.
    rewrite bool_decide_eq_false_2 by (by intros ->; apply elem_of_nil in Ht).
    assert (existsb (is_char ","%char) t = true) as ->; [|done].
    apply existsb_exists. eexists. split; [by apply list_elem_of_In | by apply is_char_true].
Qed.

Lemma display_rejections_witness :
  DisplayToBaseUnitsWithMax "1.5e7" DefaultMaxBaseUnits = Err (Error CodeScientificNotation).
Proof.
  apply (proj1 (display_rejections DefaultMaxBaseUnits
           (proj1 (baseRe_canonical (chars DefaultMaxBaseUnits)) eq_refl))
           (chars "1.5") (chars "1") (chars "5") [] [] "e"%char (chars "7")).
  - split_and!; [by apply baseRe_canonical | by repeat constructor | done].
  - by left.
  - by left.
  - done.
  - by repeat constructor.
  - done.
Defined.

End Amounts.
