(* ===== verification/Storage.v ===== *)
(** * Storage: domain types and state machines

    [go/storage/repo.go], [transitions.go], [errors.go]: the enumerations with
    their persisted strings, the domain records, the partial-update records
    and the legal state machines of deposits, withdrawals, sweeps and sequence
    reservations.  [GoEnum] is what the schema relies on: the strings of one
    enumeration are pairwise different and the [All...] list is complete, so a
    status read back from its column is the status that was written
    ([enum_parse_string]).

    Integers: [uint32]/[uint64]/[int64] and [sdkmath.Int] are [Z]; the width
    conversions the SQL layer performs are written out in [SqlStore].  Times
    are [Z], in nanoseconds since Go's zero time.  Optional pointers are [option]; a byte
    slice is a list of bytes, [nil] and the empty slice both [[]]. *)

From stdpp Require Import base list strings.
From Stdlib Require Import ZArith Lia Strings.Byte.
From S2P Require Import Prelude.

Notation bytes := (list Byte.byte).

Instance byte_eq_dec : EqDecision Byte.byte := Byte.byte_eq_dec.

Definition BaseDenom : string := "usovr".
Definition SignModeDirect : string := "SIGN_MODE_DIRECT".

(** ** Errors

    The sentinel errors the code compares with [errors.Is]; [ErrOther] is any
    error that no code distinguishes. *)
Inductive err : Type :=
| ErrNotFound
| ErrDuplicate
| ErrActiveSweepExists
| ErrIllegalTransition
| ErrStatusConflict
| ErrInvalidRecord
(* sequences *)
| ErrReleasedSlotUnusable
(* client *)
| ErrClientNotFound
| ErrSimulateUnavailable
| ErrUnsupported
(* withdrawals *)
| ErrInvalidRequest
| ErrAwaitingCompliance
| ErrBelowMinimum
| ErrInsufficientSpendable
| ErrSimulationUnavailable
| ErrFeeExceedsMax
| ErrPaused
| ErrQuarantined
| ErrSignerUnavailable
| ErrSignatureInvalid
| ErrWrongSigningKey
(* signer *)
| ErrSignerDown
(* deposits *)
| ErrCreditGateClosed
(* sweeps; its ErrPaused, ErrSimulationUnavailable, ErrSignerUnavailable and
   ErrQuarantined are the constructors above *)
| ErrDeferred
| ErrFundingPending
| ErrNoFeeWallet
| ErrNoSigner
(* not an error value: the call panicked *)
| Panicked
(* not an error value: a loop the code does not bound ran out of the model's
   fuel *)
| OutOfFuel
| ErrOther.

Instance err_eq_dec : EqDecision err.
Proof. solve_decision. Defined.

(** ** Enumerations *)

Class GoEnum (A : Type) `{EqDecision A} : Type := {
  enum_all : list A;
  enum_string : A -> string;
  enum_complete : forall a, a ∈ enum_all;
  enum_string_inj : Inj (=) (=) enum_string }.

Definition enumValid {A} `{EqDecision A} (v : A) (all : list A) : bool :=
  existsb (fun a => bool_decide (v = a)) all.

Definition Valid {A} `{GoEnum A} (v : A) : bool := enumValid v enum_all.

(** Reading a column back. *)
Definition enum_parse {A} `{GoEnum A} (s : string) : option A :=
  List.find (fun a => bool_decide (enum_string a = s)) enum_all.

Lemma enumValid_spec {A} `{EqDecision A} (v : A) all : enumValid v all = true <-> v ∈ all.
Proof.
  unfold enumValid. rewrite existsb_exists. split.
  - intros (a & Ha & E). apply bool_decide_eq_true in E as ->. by apply list_elem_of_In.
  - intros Hv. exists v. rewrite list_elem_of_In in Hv. split; [done|]. by apply bool_decide_eq_true.
Qed.

Lemma Valid_true {A} `{GoEnum A} (v : A) : Valid v = true.
Proof. apply enumValid_spec, enum_complete. Qed.

Lemma enum_parse_string {A} `{GoEnum A} (a : A) : enum_parse (enum_string a) = Some a.
Proof.
  unfold enum_parse. destruct (List.find _ _) as [b|] eqn:Hf.
  - apply List.find_some in Hf as [_ Hb]. apply bool_decide_eq_true in Hb.
    f_equal. by apply enum_string_inj.
  - pose proof (List.find_none _ _ Hf a (proj1 (list_elem_of_In _ _) (enum_complete a))) as Hn.
    by apply bool_decide_eq_false in Hn.
Qed.

Ltac solve_enum :=
  first [ let a := fresh in intros a; destruct a; apply list_elem_of_In; simpl; tauto
        | let a := fresh in let b := fresh in
          intros a b; destruct a, b; (done || (intros ?; discriminate)) ].

Inductive LedgerEntryKind : Type := LedgerKindTx | LedgerKindBlockEvent.
Instance LedgerEntryKind_eq_dec : EqDecision LedgerEntryKind.
Proof. solve_decision. Defined.
Definition AllLedgerEntryKinds : list LedgerEntryKind := [LedgerKindTx; LedgerKindBlockEvent].
#[refine] Instance LedgerEntryKind_enum : GoEnum LedgerEntryKind := {
  enum_all := AllLedgerEntryKinds;
  enum_string k := match k with LedgerKindTx => "TX" | LedgerKindBlockEvent => "BLOCK_EVENT" end }.
Proof. all: solve_enum. Defined.

Inductive LedgerDirection : Type := DirectionIn | DirectionOut.
Instance LedgerDirection_eq_dec : EqDecision LedgerDirection.
Proof. solve_decision. Defined.
Definition AllLedgerDirections : list LedgerDirection := [DirectionIn; DirectionOut].
#[refine] Instance LedgerDirection_enum : GoEnum LedgerDirection := {
  enum_all := AllLedgerDirections;
  enum_string d := match d with DirectionIn => "IN" | DirectionOut => "OUT" end }.
Proof. all: solve_enum. Defined.

Inductive ControlFlow : Type := FlowCredit | FlowSigning | FlowBroadcast | FlowSweep.
Instance ControlFlow_eq_dec : EqDecision ControlFlow.
Proof. solve_decision. Defined.
Definition AllControlFlows : list ControlFlow := [FlowCredit; FlowSigning; FlowBroadcast; FlowSweep].
#[refine] Instance ControlFlow_enum : GoEnum ControlFlow := {
  enum_all := AllControlFlows;
  enum_string f := match f with
                   | FlowCredit => "credit" | FlowSigning => "signing"
                   | FlowBroadcast => "broadcast" | FlowSweep => "sweep"
                   end }.
Proof. all: solve_enum. Defined.

Inductive Classification : Type :=
| ClassExternalDeposit | ClassInternalTransfer | ClassFeeFunding | ClassSweep
| ClassWithdrawal | ClassFeeDeduction | ClassUnattributedReview.
Instance Classification_eq_dec : EqDecision Classification.
Proof. solve_decision. Defined.
Definition AllClassifications : list Classification :=
  [ClassExternalDeposit; ClassInternalTransfer; ClassFeeFunding;
   ClassSweep; ClassWithdrawal; ClassFeeDeduction; ClassUnattributedReview].
#[refine] Instance Classification_enum : GoEnum Classification := {
  enum_all := AllClassifications;
  enum_string c := match c with
    | ClassExternalDeposit => "EXTERNAL_DEPOSIT"
    | ClassInternalTransfer => "INTERNAL_TRANSFER"
    | ClassFeeFunding => "FEE_FUNDING"
    | ClassSweep => "SWEEP"
    | ClassWithdrawal => "WITHDRAWAL"
    | ClassFeeDeduction => "FEE_DEDUCTION"
    | ClassUnattributedReview => "UNATTRIBUTED_REVIEW" end }.
Proof. all: solve_enum. Defined.

Inductive DepositStatus : Type :=
| DepositDiscovered | DepositValidated | DepositAwaitingConfirmations
| DepositCreditable | DepositCredited | DepositSweepPending | DepositSwept
| DepositRejected | DepositReviewRequired | DepositOrphaned
| DepositDuplicate | DepositBelowMinimum | DepositSuspended.
Instance DepositStatus_eq_dec : EqDecision DepositStatus.
Proof. solve_decision. Defined.
Definition AllDepositStatuses : list DepositStatus :=
  [DepositDiscovered; DepositValidated; DepositAwaitingConfirmations;
   DepositCreditable; DepositCredited; DepositSweepPending; DepositSwept;
   DepositRejected; DepositReviewRequired; DepositOrphaned;
   DepositDuplicate; DepositBelowMinimum; DepositSuspended].
#[refine] Instance DepositStatus_enum : GoEnum DepositStatus := {
  enum_all := AllDepositStatuses;
  enum_string s := match s with
    | DepositDiscovered => "DISCOVERED"
    | DepositValidated => "VALIDATED"
    | DepositAwaitingConfirmations => "AWAITING_CONFIRMATIONS"
    | DepositCreditable => "CREDITABLE"
    | DepositCredited => "CREDITED"
    | DepositSweepPending => "SWEEP_PENDING"
    | DepositSwept => "SWEPT"
    | DepositRejected => "REJECTED"
    | DepositReviewRequired => "REVIEW_REQUIRED"
    | DepositOrphaned => "ORPHANED"
    | DepositDuplicate => "DUPLICATE"
    | DepositBelowMinimum => "BELOW_MINIMUM"
    | DepositSuspended => "SUSPENDED" end }.
Proof. all: solve_enum. Defined.

Inductive WithdrawalStatus : Type :=
| WithdrawalRequested | WithdrawalAddressValidated | WithdrawalComplianceApproved
| WithdrawalFundsReserved | WithdrawalSequenceReserved | WithdrawalTransactionBuilt
| WithdrawalTransactionSimulated | WithdrawalSigned | WithdrawalBroadcast
| WithdrawalIncluded | WithdrawalConfirmed | WithdrawalFailed
| WithdrawalCancelled | WithdrawalReviewRequired.
Instance WithdrawalStatus_eq_dec : EqDecision WithdrawalStatus.
Proof. solve_decision. Defined.
Definition AllWithdrawalStatuses : list WithdrawalStatus :=
  [WithdrawalRequested; WithdrawalAddressValidated; WithdrawalComplianceApproved;
   WithdrawalFundsReserved; WithdrawalSequenceReserved; WithdrawalTransactionBuilt;
   WithdrawalTransactionSimulated; WithdrawalSigned; WithdrawalBroadcast;
   WithdrawalIncluded; WithdrawalConfirmed; WithdrawalFailed;
   WithdrawalCancelled; WithdrawalReviewRequired].
#[refine] Instance WithdrawalStatus_enum : GoEnum WithdrawalStatus := {
  enum_all := AllWithdrawalStatuses;
  enum_string s := match s with
    | WithdrawalRequested => "REQUESTED"
    | WithdrawalAddressValidated => "ADDRESS_VALIDATED"
    | WithdrawalComplianceApproved => "COMPLIANCE_APPROVED"
    | WithdrawalFundsReserved => "FUNDS_RESERVED"
    | WithdrawalSequenceReserved => "SEQUENCE_RESERVED"
    | WithdrawalTransactionBuilt => "TRANSACTION_BUILT"
    | WithdrawalTransactionSimulated => "TRANSACTION_SIMULATED"
    | WithdrawalSigned => "SIGNED"
    | WithdrawalBroadcast => "BROADCAST"
    | WithdrawalIncluded => "INCLUDED"
    | WithdrawalConfirmed => "CONFIRMED"
    | WithdrawalFailed => "FAILED"
    | WithdrawalCancelled => "CANCELLED"
    | WithdrawalReviewRequired => "REVIEW_REQUIRED" end }.
Proof. all: solve_enum. Defined.

Inductive SweepStatus : Type :=
| SweepPending | SweepBuilt | SweepSigned | SweepBroadcast
| SweepConfirmed | SweepDeferred | SweepFailed | SweepCancelled.
Instance SweepStatus_eq_dec : EqDecision SweepStatus.
Proof. solve_decision. Defined.
Definition AllSweepStatuses : list SweepStatus :=
  [SweepPending; SweepBuilt; SweepSigned; SweepBroadcast;
   SweepConfirmed; SweepDeferred; SweepFailed; SweepCancelled].
#[refine] Instance SweepStatus_enum : GoEnum SweepStatus := {
  enum_all := AllSweepStatuses;
  enum_string s := match s with
    | SweepPending => "PENDING"
    | SweepBuilt => "BUILT"
    | SweepSigned => "SIGNED"
    | SweepBroadcast => "BROADCAST"
    | SweepConfirmed => "CONFIRMED"
    | SweepDeferred => "DEFERRED"
    | SweepFailed => "FAILED"
    | SweepCancelled => "CANCELLED" end }.
Proof. all: solve_enum. Defined.
Definition TerminalSweepStatuses : list SweepStatus := [SweepConfirmed; SweepFailed; SweepCancelled].
Definition Terminal (s : SweepStatus) : bool := enumValid s TerminalSweepStatuses.

Inductive SequenceReservationStatus : Type :=
| SequenceReserved | SequenceSigned | SequenceBroadcast
| SequenceConsumed | SequenceReleased | SequenceReconciliationRequired.
Instance SequenceReservationStatus_eq_dec : EqDecision SequenceReservationStatus.
Proof. solve_decision. Defined.
Definition AllSequenceReservationStatuses : list SequenceReservationStatus :=
  [SequenceReserved; SequenceSigned; SequenceBroadcast;
   SequenceConsumed; SequenceReleased; SequenceReconciliationRequired].
#[refine] Instance SequenceReservationStatus_enum : GoEnum SequenceReservationStatus := {
  enum_all := AllSequenceReservationStatuses;
  enum_string s := match s with
    | SequenceReserved => "RESERVED"
    | SequenceSigned => "SIGNED"
    | SequenceBroadcast => "BROADCAST"
    | SequenceConsumed => "CONSUMED"
    | SequenceReleased => "RELEASED"
    | SequenceReconciliationRequired => "RECONCILIATION_REQUIRED" end }.
Proof. all: solve_enum. Defined.

Inductive WorkKind : Type := WorkWithdrawal | WorkSweep.
Instance WorkKind_eq_dec : EqDecision WorkKind.
Proof. solve_decision. Defined.
Definition AllWorkKinds : list WorkKind := [WorkWithdrawal; WorkSweep].
#[refine] Instance WorkKind_enum : GoEnum WorkKind := {
  enum_all := AllWorkKinds;
  enum_string k := match k with WorkWithdrawal => "WITHDRAWAL" | WorkSweep => "SWEEP" end }.
Proof. all: solve_enum. Defined.

Record WorkRef : Type := MkWorkRef { ref_Kind : WorkKind; ref_ID : string }.
Instance WorkRef_eq_dec : EqDecision WorkRef.
Proof. solve_decision. Defined.

Inductive SweepStrategy : Type :=
| StrategyFeeReserve | StrategyFeeFund | StrategyThresholdOnly | StrategyCustodyAbstract.
Instance SweepStrategy_eq_dec : EqDecision SweepStrategy.
Proof. solve_decision. Defined.
Definition AllSweepStrategies : list SweepStrategy :=
  [StrategyFeeReserve; StrategyFeeFund; StrategyThresholdOnly; StrategyCustodyAbstract].
#[refine] Instance SweepStrategy_enum : GoEnum SweepStrategy := {
  enum_all := AllSweepStrategies;
  enum_string s := match s with
    | StrategyFeeReserve => "FEE_RESERVE"
    | StrategyFeeFund => "FEE_FUND"
    | StrategyThresholdOnly => "THRESHOLD_ONLY"
    | StrategyCustodyAbstract => "CUSTODY_ABSTRACTED" end }.
Proof. all: solve_enum. Defined.

Inductive WatchedAddressKind : Type :=
| WatchCustomerDeposit | WatchHotWallet | WatchColdWallet | WatchFeeWallet | WatchOmnibus.
Instance WatchedAddressKind_eq_dec : EqDecision WatchedAddressKind.
Proof. solve_decision. Defined.
Definition AllWatchedAddressKinds : list WatchedAddressKind :=
  [WatchCustomerDeposit; WatchHotWallet; WatchColdWallet; WatchFeeWallet; WatchOmnibus].
#[refine] Instance WatchedAddressKind_enum : GoEnum WatchedAddressKind := {
  enum_all := AllWatchedAddressKinds;
  enum_string k := match k with
    | WatchCustomerDeposit => "CUSTOMER_DEPOSIT"
    | WatchHotWallet => "HOT_WALLET"
    | WatchColdWallet => "COLD_WALLET"
    | WatchFeeWallet => "FEE_WALLET"
    | WatchOmnibus => "OMNIBUS" end }.
Proof. all: solve_enum. Defined.

Inductive ChainReviewTrigger : Type :=
| TriggerBlockHashMismatch | TriggerQueryResultMismatch | TriggerHeightDivergence
| TriggerChainHalt | TriggerWrongChainID | TriggerUpgradeWindow.
Instance ChainReviewTrigger_eq_dec : EqDecision ChainReviewTrigger.
Proof. solve_decision. Defined.
Definition AllChainReviewTriggers : list ChainReviewTrigger :=
  [TriggerBlockHashMismatch; TriggerQueryResultMismatch; TriggerHeightDivergence;
   TriggerChainHalt; TriggerWrongChainID; TriggerUpgradeWindow].
#[refine] Instance ChainReviewTrigger_enum : GoEnum ChainReviewTrigger := {
  enum_all := AllChainReviewTriggers;
  enum_string t := match t with
    | TriggerBlockHashMismatch => "BLOCK_HASH_MISMATCH"
    | TriggerQueryResultMismatch => "QUERY_RESULT_MISMATCH"
    | TriggerHeightDivergence => "HEIGHT_DIVERGENCE"
    | TriggerChainHalt => "CHAIN_HALT"
    | TriggerWrongChainID => "WRONG_CHAIN_ID"
    | TriggerUpgradeWindow => "UPGRADE_WINDOW" end }.
Proof. all: solve_enum. Defined.

Inductive ReconciliationKind : Type :=
| ReconTxNearRealTime | ReconWalletHourly | ReconAddressDaily | ReconManual.
Instance ReconciliationKind_eq_dec : EqDecision ReconciliationKind.
Proof. solve_decision. Defined.
Definition AllReconciliationKinds : list ReconciliationKind :=
  [ReconTxNearRealTime; ReconWalletHourly; ReconAddressDaily; ReconManual].
#[refine] Instance ReconciliationKind_enum : GoEnum ReconciliationKind := {
  enum_all := AllReconciliationKinds;
  enum_string k := match k with
    | ReconTxNearRealTime => "TX_NEAR_REAL_TIME"
    | ReconWalletHourly => "WALLET_HOURLY"
    | ReconAddressDaily => "ADDRESS_DAILY"
    | ReconManual => "MANUAL" end }.
Proof. all: solve_enum. Defined.

Inductive ReviewItemKind : Type := ReviewKindDeposit | ReviewKindWithdrawal | ReviewKindLedgerEntry.
Instance ReviewItemKind_eq_dec : EqDecision ReviewItemKind.
Proof. solve_decision. Defined.
Definition AllReviewItemKinds : list ReviewItemKind :=
  [ReviewKindDeposit; ReviewKindWithdrawal; ReviewKindLedgerEntry].
#[refine] Instance ReviewItemKind_enum : GoEnum ReviewItemKind := {
  enum_all := AllReviewItemKinds;
  enum_string k := match k with
    | ReviewKindDeposit => "DEPOSIT"
    | ReviewKindWithdrawal => "WITHDRAWAL"
    | ReviewKindLedgerEntry => "LEDGER_ENTRY" end }.
Proof. all: solve_enum. Defined.

(** ** Domain records *)

Record LedgerEntry : Type := MkLedgerEntry {
  e_ID : Z; e_ChainID : string; e_Kind : LedgerEntryKind; e_TxHash : string;
  e_MessageIndex : Z; e_OpIndex : Z; e_BlockHeight : Z; e_EventIndex : Z;
  e_Direction : LedgerDirection; e_Address : string; e_CounterpartySet : list string;
  e_AmountBaseUnits : Z; e_Denom : string; e_TxCode : Z;
  e_Classification : Classification; e_CreatedAt : Z }.

Record FeeOutflow : Type := MkFeeOutflow {
  fo_ID : Z; fo_ChainID : string; fo_TxHash : string; fo_PayerAddress : string;
  fo_FeeBaseUnits : Z; fo_TxCode : Z; fo_BlockHeight : Z; fo_CreatedAt : Z }.

Record FeeFundingSpend : Type := MkFeeFundingSpend {
  fs_ID : Z; fs_ChainID : string; fs_TxHash : string; fs_FeeWalletAddress : string;
  fs_AmountBaseUnits : Z; fs_BlockHeight : Z; fs_CreatedAt : Z }.

Record DepositRecord : Type := MkDeposit {
  d_ID : Z; d_ChainID : string; d_TxHash : string; d_MessageIndex : Z; d_CoinIndex : Z;
  d_BlockHeight : Z; d_BlockTimestamp : Z; d_SenderAddress : option string;
  d_RecipientAddress : string; d_Denom : string; d_AmountBaseUnits : Z; d_Memo : string;
  d_TxCode : Z; d_TxLog : string; d_Status : DepositStatus;
  d_PriorStatus : option DepositStatus; d_CreditedAt : option Z;
  d_SweepTxHash : option string; d_CreatedAt : Z; d_UpdatedAt : Z }.

Record ScannerCheckpoint : Type := MkCheckpoint {
  cp_ChainID : string; cp_LastFullyProcessedHeight : Z;
  cp_LastObservedBlockHash : string; cp_UpdatedAt : Z }.

Record WithdrawalRecord : Type := MkWithdrawal {
  w_WithdrawalID : string; w_IdempotencyKey : string; w_ChainID : string;
  w_SourceAddress : string; w_DestinationAddress : string; w_Denom : string;
  w_AmountBaseUnits : Z; w_Memo : string; w_AccountNumber : option Z;
  w_Sequence : option Z; w_GasWanted : option Z; w_GasLimit : option Z;
  w_FeeAmountBaseUnits : option Z; w_SignMode : string; w_SignedTxBytes : bytes;
  w_TxHash : option string; w_BlockHeight : option Z; w_TxCode : option Z;
  w_RawLog : string; w_Status : WithdrawalStatus; w_CreatedAt : Z; w_UpdatedAt : Z }.

Record SequenceReservation : Type := MkReservation {
  r_ID : Z; r_ChainID : string; r_SourceAddress : string; r_AccountNumber : Z;
  r_Sequence : Z; r_WorkRef : WorkRef; r_Status : SequenceReservationStatus;
  r_CreatedAt : Z; r_UpdatedAt : Z }.

Record SweepJob : Type := MkSweep {
  j_SweepID : string; j_IdempotencyKey : string; j_ChainID : string;
  j_SourceAddress : string; j_HotWalletAddress : string; j_Strategy : SweepStrategy;
  j_AmountBaseUnits : Z; j_FeeReserveBaseUnits : Z; j_DepositIDs : list Z;
  j_SignedTxBytes : bytes; j_TxHash : option string; j_TxCode : option Z;
  j_Status : SweepStatus; j_CreatedAt : Z; j_UpdatedAt : Z }.

Record WatchedAddress : Type := MkWatched {
  wa_ChainID : string; wa_Address : string; wa_Kind : WatchedAddressKind;
  wa_CustomerRef : string; wa_MemoRequired : bool; wa_Active : bool }.

Record OperationalControls : Type := MkControls {
  oc_ChainID : string; oc_CreditPaused : bool; oc_SigningPaused : bool;
  oc_BroadcastPaused : bool; oc_SweepPaused : bool; oc_ScanWithoutCredit : bool;
  oc_ResumeFromHeight : option Z; oc_UpdatedAt : Z }.

Record ControlsAuditEntry : Type := MkAudit {
  ca_ID : Z; ca_ChainID : string; ca_Field : string; ca_OldValue : string;
  ca_NewValue : string; ca_Actor : string; ca_Reason : string; ca_At : Z }.

Record ControlsUpdate : Type := MkControlsUpdate {
  cu_CreditPaused : option bool; cu_SigningPaused : option bool;
  cu_BroadcastPaused : option bool; cu_SweepPaused : option bool;
  cu_ScanWithoutCredit : option bool; cu_ResumeFromHeight : option Z;
  cu_ClearResumeFromHeight : bool }.

Record NodeObservation : Type := MkObservation {
  no_Endpoint : string; no_Height : Z; no_Value : string }.

Record ChainReviewCondition : Type := MkCondition {
  cr_ConditionID : string; cr_ChainID : string; cr_Trigger : ChainReviewTrigger;
  cr_NodeA : NodeObservation; cr_NodeB : NodeObservation; cr_OpenedAt : Z;
  cr_ResolvedAt : option Z; cr_Resolution : string }.

Record ReviewItem : Type := MkReviewItem {
  ri_ID : Z; ri_ChainID : string; ri_Kind : ReviewItemKind; ri_RefID : string;
  ri_Reason : string; ri_OpenedAt : Z; ri_ResolvedAt : option Z; ri_Resolution : string }.

Record ReconciliationEntry : Type := MkReconEntry {
  re_Address : string; re_ExpectedBaseUnits : Z; re_ObservedBaseUnits : Z;
  re_Difference : Z; re_EarliestSuspectedHeight : Z; re_RelatedTxHashes : list string;
  re_RecommendedRescanHeight : Z }.

Record ReconciliationReport : Type := MkReport {
  rr_ReportID : string; rr_ChainID : string; rr_Kind : ReconciliationKind;
  rr_PeriodStart : Z; rr_PeriodEnd : Z; rr_GeneratedAt : Z;
  rr_Entries : list ReconciliationEntry; rr_DiscrepancyCount : Z }.

Record OutboxEvent : Type := MkOutbox {
  ob_ID : Z; ob_ChainID : string; ob_Topic : string; ob_DedupKey : string;
  ob_Payload : bytes; ob_CreatedAt : Z; ob_DispatchedAt : option Z }.

(** ** Partial updates: [None] (or the empty byte string) leaves the column
    alone. *)

Record DepositUpdate : Type := MkDepositUpdate {
  du_CreditedAt : option Z; du_SweepTxHash : option string; du_TxLog : option string }.
Definition no_deposit_update : DepositUpdate := MkDepositUpdate None None None.

Record WithdrawalUpdate : Type := MkWithdrawalUpdate {
  wu_AccountNumber : option Z; wu_Sequence : option Z; wu_GasWanted : option Z;
  wu_GasLimit : option Z; wu_FeeAmountBaseUnits : option Z; wu_SignedTxBytes : bytes;
  wu_TxHash : option string; wu_BlockHeight : option Z; wu_TxCode : option Z;
  wu_RawLog : option string }.
Definition no_withdrawal_update : WithdrawalUpdate :=
  MkWithdrawalUpdate None None None None None [] None None None None.

Record SweepUpdate : Type := MkSweepUpdate {
  su_SignedTxBytes : bytes; su_TxHash : option string; su_TxCode : option Z;
  su_DepositIDs : option (list Z) }.
Definition no_sweep_update : SweepUpdate := MkSweepUpdate [] None None None.

Record LedgerQuery : Type := MkLedgerQuery {
  q_ChainID : string; q_Address : string; q_FromHeight : Z; q_ToHeight : Z;
  q_AfterID : Z; q_Limit : Z }.

(** ** Legal state machines *)

Definition depositTransitions (s : DepositStatus) : list DepositStatus :=
  match s with
  | DepositDiscovered => [DepositValidated; DepositRejected; DepositReviewRequired; DepositOrphaned; DepositSuspended]
  | DepositValidated => [DepositAwaitingConfirmations; DepositRejected; DepositBelowMinimum; DepositReviewRequired; DepositOrphaned; DepositSuspended]
  | DepositAwaitingConfirmations => [DepositCreditable; DepositReviewRequired; DepositOrphaned; DepositSuspended]
  | DepositCreditable => [DepositCredited; DepositReviewRequired; DepositOrphaned; DepositSuspended]
  | DepositCredited => [DepositSweepPending]
  | DepositSweepPending => [DepositSwept]
  | DepositSwept => []
  | DepositRejected => []
  | DepositBelowMinimum => [DepositAwaitingConfirmations; DepositReviewRequired; DepositOrphaned; DepositSuspended]
  | DepositReviewRequired => [DepositValidated; DepositRejected]
  | DepositOrphaned => [DepositDiscovered]
  | DepositDuplicate => []
  | DepositSuspended => [DepositDiscovered; DepositValidated; DepositAwaitingConfirmations; DepositCreditable; DepositBelowMinimum]
  end.

Definition withdrawalTransitions (s : WithdrawalStatus) : list WithdrawalStatus :=
  match s with
  | WithdrawalRequested => [WithdrawalAddressValidated; WithdrawalCancelled; WithdrawalReviewRequired]
  | WithdrawalAddressValidated => [WithdrawalComplianceApproved; WithdrawalCancelled; WithdrawalReviewRequired]
  | WithdrawalComplianceApproved => [WithdrawalFundsReserved; WithdrawalCancelled; WithdrawalReviewRequired]
  | WithdrawalFundsReserved => [WithdrawalSequenceReserved; WithdrawalCancelled; WithdrawalReviewRequired]
  | WithdrawalSequenceReserved => [WithdrawalTransactionBuilt; WithdrawalCancelled; WithdrawalReviewRequired]
  | WithdrawalTransactionBuilt => [WithdrawalTransactionSimulated; WithdrawalCancelled; WithdrawalReviewRequired]
  | WithdrawalTransactionSimulated => [WithdrawalSigned; WithdrawalCancelled; WithdrawalReviewRequired]
  | WithdrawalSigned => [WithdrawalBroadcast; WithdrawalReviewRequired]
  | WithdrawalBroadcast => [WithdrawalIncluded; WithdrawalFailed; WithdrawalReviewRequired]
  | WithdrawalIncluded => [WithdrawalConfirmed; WithdrawalFailed; WithdrawalReviewRequired]
  | WithdrawalConfirmed => [WithdrawalReviewRequired]
  | WithdrawalFailed => [WithdrawalReviewRequired]
  | WithdrawalCancelled => [WithdrawalReviewRequired]
  | WithdrawalReviewRequired => [WithdrawalBroadcast; WithdrawalIncluded; WithdrawalConfirmed; WithdrawalFailed; WithdrawalCancelled]
  end.

Definition sweepTransitions (s : SweepStatus) : list SweepStatus :=
  match s with
  | SweepPending => [SweepBuilt; SweepDeferred; SweepCancelled]
  | SweepBuilt => [SweepSigned; SweepCancelled]
  | SweepDeferred => [SweepPending; SweepCancelled]
  | SweepSigned => [SweepBroadcast]
  | SweepBroadcast => [SweepConfirmed; SweepFailed]
  | SweepConfirmed => []
  | SweepFailed => []
  | SweepCancelled => []
  end.

Definition sequenceTransitions (s : SequenceReservationStatus) : list SequenceReservationStatus :=
  match s with
  | SequenceReserved => [SequenceSigned; SequenceReleased; SequenceReconciliationRequired]
  | SequenceSigned => [SequenceBroadcast; SequenceConsumed; SequenceReconciliationRequired]
  | SequenceBroadcast => [SequenceConsumed; SequenceReconciliationRequired]
  | SequenceReconciliationRequired => [SequenceConsumed; SequenceReleased]
  | SequenceConsumed => []
  | SequenceReleased => []
  end.

Definition validateTransition {T} `{GoEnum T} (table : T -> list T) (from to : T) : option err :=
  if negb (Valid from) then Some ErrInvalidRecord
  else if negb (Valid to) then Some ErrInvalidRecord
  else if enumValid to (table from) then None
  else Some ErrIllegalTransition.

Definition ValidateDepositTransition (from to : DepositStatus) : option err :=
  validateTransition depositTransitions from to.
Definition ValidateWithdrawalTransition (from to : WithdrawalStatus) : option err :=
  validateTransition withdrawalTransitions from to.
Definition ValidateSweepTransition (from to : SweepStatus) : option err :=
  validateTransition sweepTransitions from to.
Definition ValidateSequenceTransition (from to : SequenceReservationStatus) : option err :=
  validateTransition sequenceTransitions from to.

Lemma validateTransition_None {T} `{GoEnum T} table (from to : T) :
  validateTransition table from to = None <-> to ∈ table from.
Proof.
  unfold validateTransition. rewrite !Valid_true. simpl. rewrite <-enumValid_spec.
  by destruct (enumValid to (table from)).
Qed.

(** [enumValid] in the table of a concrete pair computes. *)
Ltac transition := vm_compute; reflexivity.
