(* ===== verification/Migrations.v ===== *)
(** * Migrations: bringing the database to the kit's schema

    [go/storage/migrations/migrations.go], and what [storage/sqlite] and
    [storage/postgres] put around the shared store: the connection options,
    the placeholders and the mapping of constraint violations.

    The embedded directory and the effect of one SQL statement on the tables are
    parameters; the table [schema_migrations], which only this code touches, is
    a list of names.  Every access to the database may fail, and a commit may be
    reported as failed although it was done; both are calls answered
    arbitrarily. *)

From stdpp Require Import base list strings relations sorting.
From Stdlib Require Import ZArith Lia Ascii String.
From S2P Require Import Prelude Workers Text GoStrings Storage.

Open Scope string_scope.
Open Scope list_scope.

Module Migrations.
Import GoStrings.

(** ** The files *)

Inductive Dialect : Type := DialectSQLite | DialectPostgres | OtherDialect (name : string).
Definition dialect_name (d : Dialect) : string :=
  match d with DialectSQLite => "sqlite" | DialectPostgres => "postgres" | OtherDialect n => n end.
Definition Valid (d : Dialect) : bool :=
  match d with DialectSQLite | DialectPostgres => true | OtherDialect _ => false end.

(** The embedded file system: the entries of a directory with whether they are
    directories, and the contents of a file. *)
Record embedded : Type := MkEmbedded {
  ReadDir : string -> option (list (string * bool));
  ReadFile : string -> option string }.

Inductive merror : Type :=
| UnknownDialect | NoDirectory | NoFile | Driver | NoTable | BadStatement (name stmt : string) | AlreadyRecorded (name : string).

(** [sort.Strings]: bytes are compared. *)
Definition string_le (a b : string) : Prop := String.leb a b = true.
#[export] Instance string_le_dec a b : Decision (string_le a b).
Proof. apply bool_eq_dec. Defined.

Definition Files (fs : embedded) (d : Dialect) : result merror (list string) :=
  if negb (Valid d) then Err UnknownDialect
  else match ReadDir fs (dialect_name d) with
       | None => Err NoDirectory
       | Some entries =>
           Ok (merge_sort string_le
                 (map fst (List.filter (fun e => negb (snd e) && HasSuffix (fst e) ".sql") entries)))
       end.

Definition Read (fs : embedded) (d : Dialect) (name : string) : result merror string :=
  match ReadFile fs (dialect_name d +:+ "/" +:+ name) with Some t => Ok t | None => Err NoFile end.

(** ** Splitting a file into statements *)

Definition newline : ascii := "010"%char.

(** [strings.Split(sqlText, "\n")] *)
Fixpoint split_lines (t : text) : list text :=
  match t with
  | [] => [[]]
  | c :: t' =>
      if is_char newline c then [] :: split_lines t'
      else match split_lines t' with l :: ls => (c :: l) :: ls | [] => [[c]] end
  end.

(** The line up to the first [--], if it has one. *)
Fixpoint before_comment (line : text) : text :=
  match line with
  | [] => []
  | c :: l => if starts line (chars "--") then [] else c :: before_comment l
  end.

(** The loop over the lines; [b] is what the builder holds. *)
Fixpoint scan (b : text) (lines : list text) : list string :=
  match lines with
  | [] => let rest := TrimSpace (of_chars b) in if empty rest then [] else [rest]
  | rawLine :: lines' =>
      let line := before_comment rawLine in
      if empty (TrimSpace (of_chars line)) then scan b lines'
      else
        let b := b ++ line ++ [newline] in
        if HasSuffix (TrimSpace (of_chars line)) ";" then TrimSpace (of_chars b) :: scan [] lines'
        else scan b lines'
  end.
Definition Statements (sqlText : string) : list string := scan [] (split_lines (chars sqlText)).

(** ** Applying the migrations *)

Section apply.
Context {T : Type} (exec_sql : string -> T -> option T) (fs : embedded).

(** [db_migrations] is [schema_migrations] in the order of insertion, [None]
    while it does not exist. *)
Record database : Type := MkDatabase { db_migrations : option (list string); db_tables : T }.

Inductive call : Type -> Type :=
| Down : call bool                 (* the driver fails before anything is done *)
| CommitLost : call bool.          (* the commit is done but reported as failed *)
Notation worker := (prog database call).

Definition access {A} (m : tx database merror A) : worker (result merror A) :=
  let* down := ask Down in
  if down : bool then Done (Err Driver) else stmt m.

(** [CREATE TABLE IF NOT EXISTS schema_migrations] *)
Definition create_table : tx database merror unit :=
  fun s => (Ok tt, match db_migrations s with
                   | Some _ => s
                   | None => MkDatabase (Some []) (db_tables s)
                   end).

(** [SELECT COUNT( * ) FROM schema_migrations WHERE name = ?] *)
Definition is_applied (name : string) : tx database merror bool :=
  fun s => match db_migrations s with
           | None => (Err NoTable, s)
           | Some l => (Ok (bool_decide (name ∈ l)), s)
           end.
Definition isApplied (name : string) : worker (result merror bool) := access (is_applied name).

(** The statements of a file, stopping at the first that fails. *)
Fixpoint exec_all (name : string) (stmts : list string) : tx database merror unit :=
  match stmts with
  | [] => tx_ret tt
  | stmt :: stmts' => fun s =>
      match exec_sql stmt (db_tables s) with
      | None => (Err (BadStatement name stmt), s)
      | Some t => exec_all name stmts' (MkDatabase (db_migrations s) t)
      end
  end.

(** [INSERT INTO schema_migrations]: the name is the primary key. *)
Definition record_name (name : string) : tx database merror unit :=
  fun s => match db_migrations s with
           | None => (Err NoTable, s)
           | Some l => if bool_decide (name ∈ l) then (Err (AlreadyRecorded name), s)
                       else (Ok tt, MkDatabase (Some (l ++ [name])) (db_tables s))
           end.

Definition applyOne (d : Dialect) (name : string) : worker (result merror unit) :=
  match Read fs d name with
  | Err e => Done (Err e)
  | Ok text =>
      let? _ := access (do_ exec_all name (Statements text); record_name name) in
      let* lost := ask CommitLost in
      Done (if lost : bool then Err Driver else Ok tt)
  end.

(** The names applied, and the error that stopped it. *)
Fixpoint apply_loop (d : Dialect) (names applied : list string) : worker (list string * option merror) :=
  match names with
  | [] => Done (applied, None)
  | name :: names' =>
      let* done := isApplied name in
      match done with
      | Err e => Done (applied, Some e)
      | Ok true => apply_loop d names' applied
      | Ok false =>
          let* r := applyOne d name in
          match r with
          | Err e => Done (applied, Some e)
          | Ok _ => apply_loop d names' (applied ++ [name])
          end
      end
  end.

Definition Apply (d : Dialect) : worker (list string * option merror) :=
  let* created := access create_table in
  match created with
  | Err e => Done ([], Some e)
  | Ok _ =>
      match Files fs d with
      | Err e => Done ([], Some e)
      | Ok names => apply_loop d names []
      end
  end.

(** ** Every file once, in order *)

(** The tables after the statements of some files. *)
Definition exec_statements (stmts : list string) (t : T) : option T :=
  foldl (fun o stmt => match o with Some t => exec_sql stmt t | None => None end) (Some t) stmts.
Definition migrate (d : Dialect) (names : list string) (t : T) : option T :=
  foldl (fun o name => match o, Read fs d name with
                       | Some t, Ok text => exec_statements (Statements text) t
                       | _, _ => None
                       end) (Some t) names.

(** The database holds the effect of the first files on the tables [t0], and of
    nothing else. *)
Definition migrated (d : Dialect) (names : list string) (t0 : T) (s : database) : Prop :=
  exists k, (k <= List.length names)%nat /\ default [] (db_migrations s) = take k names /\
    migrate d (take k names) t0 = Some (db_tables s).

(** The table of names only grows. *)
Definition grows (s s' : database) : Prop :=
  default [] (db_migrations s) `prefix_of` default [] (db_migrations s').
#[export] Instance grows_preorder : PreOrder grows.
Proof. split; unfold grows; [intros s; reflexivity|]. intros a b c H1 H2. by etransitivity. Qed.

Lemma exec_none stmts : foldl (fun o stmt => match o with Some t => exec_sql stmt t | None => None end) None stmts = None.
Proof. by induction stmts. Qed.

Lemma fold_none d names :
  foldl (fun o name => match o, Read fs d name with
                       | Some t, Ok text => exec_statements (Statements text) t
                       | _, _ => None
                       end) None names = None.
Proof. by induction names. Qed.

Lemma exec_all_eq name stmts s :
  match exec_all name stmts s with
  | (Ok _, s') => db_migrations s' = db_migrations s /\ exec_statements stmts (db_tables s) = Some (db_tables s')
  | (Err _, _) => exec_statements stmts (db_tables s) = None
  end.
Proof.
  revert s. induction stmts as [|stmt stmts IH]; intros s; [done|]. cbn [exec_all].
  unfold exec_statements in *. cbn [foldl]. destruct (exec_sql stmt (db_tables s)) as [t|] eqn:E; [|by rewrite exec_none].
  specialize (IH (MkDatabase (db_migrations s) t)). cbn [db_migrations db_tables] in IH.
  by destruct (exec_all name stmts (MkDatabase (db_migrations s) t)) as [[|] s'].
Qed.

Lemma migrate_snoc d names name t :
  migrate d (names ++ [name]) t =
  match migrate d names t, Read fs d name with
  | Some t, Ok text => exec_statements (Statements text) t
  | _, _ => None
  end.
Proof. unfold migrate. by rewrite foldl_app. Qed.

(** The transaction of one file. *)
Definition file_tx (name text : string) : tx database merror unit :=
  do_ exec_all name (Statements text); record_name name.

Lemma file_tx_cases name text s :
  match with_tx (file_tx name text) s with
  | (Ok _, s') => exists l, db_migrations s = Some l /\ (name ∉ l) /\ db_migrations s' = Some (l ++ [name]) /\
      exec_statements (Statements text) (db_tables s) = Some (db_tables s')
  | (Err _, s') => s' = s
  end.
Proof.
  unfold with_tx, file_tx, tx_bind. pose proof (exec_all_eq name (Statements text) s) as H.
  destruct (exec_all name (Statements text) s) as [[u|e] s1]; [|done]. destruct H as [Hm Ht].
  unfold record_name. rewrite Hm. destruct (db_migrations s) as [l|]; [|done].
  destruct (bool_decide (name ∈ l)) eqn:E; [done|]. apply bool_decide_eq_false in E. by exists l.
Qed.

Section laws.
Context (d : Dialect) (names : list string) (t0 : T) (Hfiles : Files fs d = Ok names) (Hnd : NoDup names).
Notation I := (migrated d names t0).
Notation anycall := (fun _ _ _ => True).
Notation ok := (safe grows I anycall).

(** A name that is not recorded comes after those that are. *)
Lemma next_name s pre name rest l :
  names = pre ++ name :: rest -> I s -> (forall n, n ∈ pre -> n ∈ default [] (db_migrations s)) ->
  db_migrations s = Some l -> name ∉ l -> l = pre /\ migrate d pre t0 = Some (db_tables s).
Proof.
  intros Hn (k & Hk & Hl & Ht) Hpre Hs Hnot. rewrite Hs in *. cbn [default] in *. unfold default, id in *. subst l.
  assert (k = List.length pre) as ->; [|by rewrite Hn, take_app_length in *].
  destruct (lt_eq_lt_dec k (List.length pre)) as [[Hlt|]|Hgt]; [|done|]; exfalso.
  - destruct (lookup_lt_is_Some_2 pre k Hlt) as [n Hkn].
    assert (n ∈ take k names) as Hin by (apply Hpre; by eapply list_elem_of_lookup_2).
    apply list_elem_of_lookup in Hin as [j Hj]. apply lookup_take_Some in Hj as [Hj Hjk].
    assert (names !! k = Some n) as Hkn' by (rewrite Hn; by apply lookup_app_l_Some).
    assert (j = k) by (by eapply NoDup_lookup). lia.
  - apply Hnot. rewrite Hn. apply list_elem_of_lookup. exists (List.length pre). apply lookup_take_Some. split; [|done].
    by rewrite lookup_app_r, Nat.sub_diag by done.
Qed.

Lemma file_tx_moves pre name rest text s :
  names = pre ++ name :: rest -> Read fs d name = Ok text -> I s ->
  (forall n, n ∈ pre -> n ∈ default [] (db_migrations s)) ->
  let s' := snd (with_tx (file_tx name text) s) in
  grows s s' /\ I s' /\
  match fst (with_tx (file_tx name text) s) with Ok _ => name ∈ default [] (db_migrations s') | Err _ => True end.
Proof.
  intros Hn Hr HI Hpre. pose proof (file_tx_cases name text s) as H.
  destruct (with_tx (file_tx name text) s) as [[u|e] s']; cbn [fst snd]; [|by subst s'].
  destruct H as (l & Hs & Hnot & Hs' & Ht).
  destruct (next_name s pre name rest l Hn HI Hpre Hs Hnot) as [-> Hm]. unfold grows. rewrite Hs, Hs'. cbn.
  split; [by apply prefix_app_r|]. split; [|set_solver].
  exists (S (List.length pre)). rewrite Hs'. cbn. rewrite Hn.
  assert (take (S (List.length pre)) (pre ++ name :: rest) = pre ++ [name]) as ->.
  { rewrite take_app, take_ge by lia. by rewrite Nat.sub_succ_l, Nat.sub_diag. }
  split; [rewrite length_app; cbn; lia|]. split; [done|]. by rewrite migrate_snoc, Hm, Hr.
Qed.

Lemma grows_elem s s' n : grows s s' -> n ∈ default [] (db_migrations s) -> n ∈ default [] (db_migrations s').
Proof. intros [k Hk] Hn. rewrite Hk. apply elem_of_app. by left. Qed.

Lemma read_only_ok {A B} (m : tx database merror A) (k : result merror A -> prog database call B) s :
  (forall s1, snd (m s1) = s1) ->
  (forall s1, grows s s1 -> I s1 -> ok (k (fst (with_tx m s1))) s1) ->
  ok (k (Err Driver)) s -> ok (p_bind (access m) k) s.
Proof.
  intros Hro Hk Hdown. cbn. split; [done|]. intros [|]; cbn; [done|]. intros s1 Hg HI.
  assert (snd (with_tx m s1) = s1) as ->.
  { unfold with_tx. specialize (Hro s1). by destruct (m s1) as [[|] ?]. }
  split; [reflexivity|]. split; [done|]. by apply Hk.
Qed.

Lemma apply_loop_safe pre rest applied s :
  names = pre ++ rest -> (forall n, n ∈ pre -> n ∈ default [] (db_migrations s)) ->
  ok (apply_loop d rest applied) s.
Proof.
  revert pre applied s. induction rest as [|name rest IH]; intros pre applied s Hn Hpre; [done|]. cbn [apply_loop].
  assert (names = (pre ++ [name]) ++ rest) as Hn' by (by rewrite <-app_assoc).
  assert (forall s1, (forall n, n ∈ pre -> n ∈ default [] (db_migrations s1)) -> name ∈ default [] (db_migrations s1) ->
            forall n, n ∈ pre ++ [name] -> n ∈ default [] (db_migrations s1)) as Hnext by set_solver.
  apply read_only_ok; [by intros s1; unfold is_applied; destruct (db_migrations s1)| |done]. intros s1 Hg HI.
  assert (forall n, n ∈ pre -> n ∈ default [] (db_migrations s1)) as Hpre1 by eauto using grows_elem.
  unfold with_tx, is_applied. destruct (db_migrations s1) as [l|] eqn:El; [|done]. cbn [fst].
  destruct (bool_decide (name ∈ l)) eqn:Eb.
  - apply (IH (pre ++ [name])); [done|]. apply Hnext; rewrite El; [exact Hpre1|]. by apply bool_decide_eq_true in Eb.
  - unfold applyOne. destruct (Read fs d name) as [text|e] eqn:Er; [|done]. cbn. split; [done|].
    intros [|]; cbn; [done|]. intros s2 Hg2 HI2.
    assert (forall n, n ∈ pre -> n ∈ default [] (db_migrations s2)) as Hpre2.
    { intros n Hin. eapply grows_elem; [exact Hg2|]. rewrite El. by apply Hpre1. }
    destruct (file_tx_moves pre name rest text s2 Hn Er HI2 Hpre2) as (Hg3 & HI3 & Hin).
    fold (file_tx name text). split; [exact Hg3|]. split; [exact HI3|].
    destruct (fst (with_tx (file_tx name text) s2)); cbn; [|done]. split; [done|]. intros [|]; [done|].
    apply (IH (pre ++ [name])); [done|]. apply Hnext; [|done]. eauto using grows_elem.
Qed.

Lemma create_table_moves s : I s -> grows s (snd (create_table s)) /\ I (snd (create_table s)).
Proof.
  intros HI. unfold create_table, grows. cbn. destruct (db_migrations s) as [l|] eqn:E; [by rewrite E|]. cbn.
  split; [done|]. destruct HI as (k & Hk & Hl & Ht). exists k. rewrite E in Hl. done.
Qed.

Lemma Apply_safe s : ok (Apply d) s.
Proof.
  unfold Apply, access. cbn. split; [done|]. intros [|]; [done|]. cbn. intros s1 Hg HI.
  destruct (create_table_moves s1 HI) as [Hg1 HI1]. split; [exact Hg1|]. split; [exact HI1|].
  rewrite Hfiles. apply (apply_loop_safe []); [done|]. intros n Hin. by apply not_elem_of_nil in Hin.
Qed.

(** Any number of processes that start on the database at the same time. *)
Definition migrator (p : prog database call unit) : Prop := p = p_bind (Apply d) (fun _ => Done tt).

Lemma migrators_safe (y : system (S := database) (C := call)) :
  rtc (sys_step migrator) (System (MkDatabase None t0) [] []) y -> I (sys_db y).
Proof.
  intros Hst. eapply (sys_safe grows I anycall migrator); [| |exact Hst].
  - intros p s -> HI. apply safe_bind; [apply grows_preorder|apply Apply_safe|done].
  - exists O. split; [lia|]. done.
Qed.

(** *** An undisturbed run *)

(** Nothing fails. *)
Definition quiet : oracle (C := call) := fun X c => match c with Down => false | CommitLost => false end.

Lemma run_skip l ns rest applied s :
  db_migrations s = Some l -> Forall (fun n => n ∈ l) ns ->
  o_value (run quiet (apply_loop d (ns ++ rest) applied) s) = o_value (run quiet (apply_loop d rest applied) s) /\
  o_state (run quiet (apply_loop d (ns ++ rest) applied) s) = o_state (run quiet (apply_loop d rest applied) s).
Proof.
  intros Hs. induction 1 as [|n ns Hn _ IH]; [done|]. cbn. unfold with_tx, is_applied. rewrite Hs.
  by rewrite bool_decide_true by done.
Qed.

Lemma run_one l name text t' s :
  db_migrations s = Some l -> name ∉ l -> Read fs d name = Ok text ->
  exec_statements (Statements text) (db_tables s) = Some t' ->
  with_tx (file_tx name text) s = (Ok tt, MkDatabase (Some (l ++ [name])) t').
Proof.
  intros Hs Hn Hr Ht. pose proof (exec_all_eq name (Statements text) s) as H.
  unfold with_tx, file_tx, tx_bind. destruct (exec_all name (Statements text) s) as [[[]|e] s1]; [|congruence].
  destruct H as [Hm Ht1]. unfold record_name. rewrite Hm, Hs, bool_decide_false by done. congruence.
Qed.

Lemma run_new rest t' l applied s :
  db_migrations s = Some l -> (forall n, n ∈ rest -> n ∉ l) -> NoDup rest -> migrate d rest (db_tables s) = Some t' ->
  o_value (run quiet (apply_loop d rest applied) s) = (applied ++ rest, None) /\
  o_state (run quiet (apply_loop d rest applied) s) = MkDatabase (Some (l ++ rest)) t'.
Proof.
  revert l applied s. induction rest as [|name rest IH]; intros l applied s Hs Hd Hnd' Ht.
  { cbn in *. rewrite !app_nil_r. split; [done|]. destruct s. cbn in *. congruence. }
  apply NoDup_cons in Hnd' as [Hnot Hnd']. unfold migrate in Ht. cbn [foldl] in Ht.
  destruct (Read fs d name) as [text|e] eqn:Er; [|by rewrite fold_none in Ht].
  destruct (exec_statements (Statements text) (db_tables s)) as [t1|] eqn:Et; [|by rewrite fold_none in Ht].
  assert (with_tx (is_applied name) s = (Ok false, s)) as Ha.
  { unfold with_tx, is_applied. by rewrite Hs, bool_decide_false by set_solver. }
  cbn. rewrite Ha. unfold applyOne. rewrite Er. cbn. fold (file_tx name text).
  rewrite (run_one l name text t1 s) by set_solver. cbn.
  destruct (IH (l ++ [name]) (applied ++ [name]) (MkDatabase (Some (l ++ [name])) t1)) as [Hv Hst]; [done|set_solver|done|done|].
  rewrite Hv, Hst.
  by rewrite <-!app_assoc.
Qed.

Lemma migrate_app xs ys t : migrate d (xs ++ ys) t =
  match migrate d xs t with Some t' => migrate d ys t' | None => None end.
Proof.
  unfold migrate. rewrite foldl_app. destruct (foldl _ (Some t) xs); [done|]. apply fold_none.
Qed.

Lemma Apply_completes t' s : I s -> migrate d names t0 = Some t' ->
  exists k, default [] (db_migrations s) = take k names /\
  o_value (run quiet (Apply d) s) = (drop k names, None) /\
  o_state (run quiet (Apply d) s) = MkDatabase (Some names) t'.
Proof.
  intros (k & Hk & Hl & Ht) Hall. exists k. split; [done|].
  rewrite <-(take_drop k names), migrate_app, Ht in Hall.
  pose (s1 := MkDatabase (Some (take k names)) (db_tables s)).
  assert (run quiet (Apply d) s = Outcome (o_value (run quiet (apply_loop d names []) s1))
            (o_state (run quiet (apply_loop d names []) s1)) (existT _ Down :: o_calls (run quiet (apply_loop d names []) s1))) as ->.
  { unfold Apply, access. cbn. assert (snd (create_table s) = s1) as E.
    - unfold create_table, s1. cbn. destruct s as [[l|] t]; cbn in *; [by subst|]. by rewrite Hl.
    - unfold create_table in *. cbn in *. rewrite E, Hfiles. done. }
  cbn [o_value o_state].
  assert (apply_loop d names [] = apply_loop d (take k names ++ drop k names) []) as -> by (by rewrite take_drop).
  destruct (run_skip (take k names) (take k names) (drop k names) [] s1) as [-> ->]; [done|by apply Forall_forall|].
  destruct (run_new (drop k names) t' (take k names) [] s1) as [-> ->]; [done| | |done|by rewrite take_drop].
  - intros n Hin Hin'. rewrite <-(take_drop k names) in Hnd. apply NoDup_app in Hnd as (_ & Hd & _). by apply (Hd n).
  - rewrite <-(take_drop k names) in Hnd. by apply NoDup_app in Hnd as (_ & _ & ?).
Qed.
End laws.
End apply.

(** *** The order of the files *)

#[export] Instance string_le_total : Total string_le.
Proof. intros a b. apply String.leb_total. Qed.

Lemma Files_spec fs d names : Files fs d = Ok names ->
  Sorted string_le names /\
  exists entries, ReadDir fs (dialect_name d) = Some entries /\
    names ≡ₚ map fst (List.filter (fun e => negb (snd e) && HasSuffix (fst e) ".sql") entries).
Proof.
  unfold Files. destruct (Valid d); [|done]. cbn. destruct (ReadDir fs (dialect_name d)) as [entries|]; [|done].
  intros [= <-]. split; [apply Sorted_merge_sort; apply _|]. exists entries. split; [done|]. apply merge_sort_Permutation.
Qed.

Lemma NoDup_map_filter {A B} (f : A -> B) P l : NoDup (map f l) -> NoDup (map f (List.filter P l)).
Proof.
  induction l as [|x l IH]; [done|]. cbn. intros [Hx Hl]%NoDup_cons. destruct (P x); [|by apply IH]. cbn.
  apply NoDup_cons. split; [|by apply IH]. contradict Hx. apply list_elem_of_In, in_map_iff in Hx as (y & <- & Hy).
  apply filter_In in Hy as [Hy _]. by apply list_elem_of_In, in_map.
Qed.

(** C35: the schema is built exactly once, whoever builds it.  Any number of
    processes apply the migrations to one database at the same time, each
    stopping anywhere, with any access to the database failing and any commit
    reported lost: at every moment the tables are what some first files of the
    sorted directory made of the empty database, each executed once, and the
    table of applied names lists exactly those; and from there one undisturbed
    run applies the remaining files in order, and the next one nothing. *)
Theorem migrations_exactly_once {T} (exec_sql : string -> T -> option T) (fs : embedded) (d : Dialect)
    (names : list string) (t0 t' : T) (y : system (S := database) (C := call))
    (Hfiles : Files fs d = Ok names)
    (Hdir : forall entries, ReadDir fs (dialect_name d) = Some entries -> NoDup (map fst entries))
    (Hst : rtc (sys_step (migrator exec_sql fs d)) (System (MkDatabase None t0) [] []) y)
    (Hall : migrate exec_sql fs d names t0 = Some t') :
  Sorted string_le names /\
  exists k, default [] (db_migrations (sys_db y)) = take k names /\
    migrate exec_sql fs d (take k names) t0 = Some (db_tables (sys_db y)) /\
    let r := run quiet (Apply exec_sql fs d) (sys_db y) in
    o_value r = (drop k names, None) /\ o_state r = MkDatabase (Some names) t' /\
    o_value (run quiet (Apply exec_sql fs d) (o_state r)) = ([], None) /\
    o_state (run quiet (Apply exec_sql fs d) (o_state r)) = o_state r.
Proof.
  destruct (Files_spec fs d names Hfiles) as (Hs & entries & He & Hp). split; [done|].
  assert (NoDup names) as Hnd by (rewrite Hp; by apply NoDup_map_filter, Hdir).
  pose proof (migrators_safe exec_sql fs d names t0 Hfiles Hnd y Hst) as HI.
  destruct (Apply_completes exec_sql fs d names t0 Hfiles Hnd t' _ HI Hall) as (k & Hk & Hv & Ho).
  destruct HI as (k' & Hk' & Hl & Ht). exists k. rewrite Hk in Hl. rewrite <-Hl in Ht. split; [done|]. split; [done|].
  cbv zeta. rewrite Hv, Ho. split; [done|]. split; [done|].
  assert (migrated exec_sql fs d names t0 (MkDatabase (Some names) t')) as HI'.
  { exists (List.length names). rewrite take_ge by done. done. }
  destruct (Apply_completes exec_sql fs d names t0 Hfiles Hnd t' _ HI' Hall) as (j & Hj & Hv' & Ho').
  cbn in Hj. rewrite Hv', Ho'. split; [|done]. f_equal. apply drop_ge.
  apply (f_equal (@List.length string)) in Hj. rewrite length_take in Hj. lia.
Qed.

(** Two files; a statement cannot be executed twice. *)
Definition sample_fs : embedded :=
  MkEmbedded
    (fun dir => if bool_decide (dir = "sqlite") then Some [("0002_b.sql", false); ("0001_a.sql", false); ("old", true)] else None)
    (fun path => if bool_decide (path = "sqlite/0001_a.sql") then Some "CREATE TABLE a;"
                 else if bool_decide (path = "sqlite/0002_b.sql") then Some "CREATE TABLE b;" else None).
Definition sample_exec (stmt : string) (t : list string) : option (list string) :=
  if bool_decide (stmt ∈ t) then None else Some (t ++ [stmt]).

Lemma migrations_exactly_once_witness :
  let r := run quiet (Apply sample_exec sample_fs DialectSQLite) (MkDatabase None []) in
  exists k, ["0001_a.sql"; "0002_b.sql"] = drop k ["0001_a.sql"; "0002_b.sql"] /\
  o_state r = MkDatabase (Some ["0001_a.sql"; "0002_b.sql"]) ["CREATE TABLE a;"; "CREATE TABLE b;"].
Proof.
  cbv zeta.
  destruct (migrations_exactly_once sample_exec sample_fs DialectSQLite ["0001_a.sql"; "0002_b.sql"] []
              ["CREATE TABLE a;"; "CREATE TABLE b;"] (System (MkDatabase None []) [] [])) as (_ & k & _ & _ & _ & H & _).
  - vm_compute. reflexivity.
  - intros entries [= <-]. repeat constructor; vm_compute; set_solver.
  - constructor.
  - vm_compute. reflexivity.
  - exists O. split; [reflexivity|exact H].
Defined.

(** *** The statements are the file *)

(** What is left of the file without its comments and blank lines. *)
Definition code_text (lines : list text) : text :=
  List.concat (map (fun l => let line := before_comment l in
                        if empty (TrimSpace (of_chars line)) then [] else line ++ [newline]) lines).

(** The statements in order, with white space around them. *)
Inductive spread : list string -> text -> Prop :=
| spread_nil t : blank t -> spread [] t
| spread_cons s ss l t : blank l -> spread ss t -> spread (s :: ss) (l ++ chars s ++ t).

Lemma spread_blank l ss t : blank l -> spread ss t -> spread ss (l ++ t).
Proof.
  intros Hl Hs. destruct Hs as [t Ht|s ss l' t Hl' Ht].
  - constructor. by apply blank_app.
  - rewrite app_assoc. constructor; [by apply blank_app|done].
Qed.

Lemma scan_spread b lines : spread (scan b lines) (b ++ code_text lines).
Proof.
  revert b. induction lines as [|raw lines IH]; intros b; cbn [scan].
  - cbn. rewrite app_nil_r. destruct (TrimSpace_split (of_chars b)) as (l & r & Hb & Hl & Hr).
    rewrite chars_of_chars in Hb. destruct (empty (TrimSpace (of_chars b))) eqn:E.
    + apply bool_decide_eq_true in E. rewrite E in Hb. constructor. rewrite Hb. by apply blank_app.
    + rewrite Hb at 2. constructor; [done|]. by constructor.
  - unfold code_text. cbn [map List.concat]. fold (code_text lines).
    destruct (empty (TrimSpace (of_chars (before_comment raw)))); [apply IH|].
    destruct (HasSuffix (TrimSpace (of_chars (before_comment raw))) ";").
    + set (b' := b ++ before_comment raw ++ [newline]).
      destruct (TrimSpace_split (of_chars b')) as (l & r & Hb & Hl & Hr). rewrite chars_of_chars in Hb.
      replace (b ++ (before_comment raw ++ [newline]) ++ code_text lines) with (b' ++ code_text lines)
        by (unfold b'; by rewrite !app_assoc).
      rewrite Hb at 2. rewrite <-!app_assoc. constructor; [done|]. apply spread_blank; [done|]. apply (IH []).
    + specialize (IH (b ++ before_comment raw ++ [newline])). by rewrite <-!app_assoc in *.
Qed.

Lemma scan_ends b lines s ss : scan b lines = ss ++ [s] -> Forall (fun x => exists t, chars x = t ++ [";"%char]) ss.
Proof.
  revert b ss. induction lines as [|raw lines IH]; intros b ss; cbn [scan].
  - destruct (empty _); [by destruct ss|]. destruct ss as [|x [|y ss]]; [constructor|done..].
  - destruct (empty (TrimSpace (of_chars (before_comment raw)))); [apply IH|].
    destruct (HasSuffix (TrimSpace (of_chars (before_comment raw))) ";") eqn:E; [|apply IH].
    destruct ss as [|x ss]; [constructor|]. intros [= Hx Hss]. constructor; [|by eapply IH].
    apply HasSuffix_iff in E as [t Ht].
    destruct (TrimSpace_split (of_chars (before_comment raw))) as (l & r & Hb & Hl & Hr).
    rewrite chars_of_chars, Ht, chars_app in Hb. rewrite <-Hx.
    apply (TrimSpace_solid _ (b ++ l ++ chars t) ";" (r ++ [newline])); [|apply blank_app; [done|]|reflexivity].
    + rewrite chars_of_chars, Hb. cbn. by rewrite <-!app_assoc.
    + exists [[newline]]. split; [done|]. constructor; [|constructor]. apply (bool_decide_unpack _). vm_compute. exact Logic.I.
Qed.

(** Splitting loses and reorders nothing: the statements, with only white space
    between them, are the file without its comments and blank lines, and each
    but the last ends in a semicolon. *)
Lemma statements_lossless (sqlText : string) :
  spread (Statements sqlText) (code_text (split_lines (chars sqlText))) /\
  forall ss s, Statements sqlText = ss ++ [s] -> Forall (fun x => exists t, chars x = t ++ [";"%char]) ss.
Proof. split; [apply (scan_spread [])|]. intros ss s. apply scan_ends. Qed.

Example statements_example :
  Statements (of_chars (chars "-- schema;" ++ [newline] ++ chars "CREATE TABLE a ( -- first" ++ [newline] ++
              chars "  x TEXT);" ++ [newline; newline] ++ chars "CREATE INDEX i; -- end")) =
  [of_chars (chars "CREATE TABLE a ( " ++ [newline] ++ chars "  x TEXT);"); "CREATE INDEX i;"].
Proof. vm_compute. reflexivity. Qed.

End Migrations.
