(* ===== verification/Drivers.v ===== *)
(** * Drivers: the two backends of the SQL store

    [go/storage/sqlite/sqlite.go] and [go/storage/postgres/postgres.go]: the
    connection options of SQLite, the numbered placeholders of PostgreSQL, and
    how both map a violated uniqueness rule to the error the repositories test
    for.  Transactions are serial in the model, so the account lock and the row
    locks of PostgreSQL, which make them so, have no effect of their own. *)

From stdpp Require Import base list strings sets.
From Stdlib Require Import ZArith Lia Ascii String.
From S2P Require Import Prelude Text GoStrings Storage.

Open Scope string_scope.
Open Scope list_scope.
Open Scope Z_scope.

Module Drivers.
Import GoStrings.

Definition percent : ascii := "%"%char.
Definition question : ascii := "?"%char.

(** A text at the first occurrence of a byte ([strings.IndexByte] and slicing). *)
Fixpoint cut (c : ascii) (t : text) : text * option text :=
  match t with
  | [] => ([], None)
  | x :: t' => if is_char c x then ([], Some t')
               else let '(a, b) := cut c t' in (x :: a, b)
  end.

(** [strings.Join] *)
Fixpoint join (sep : text) (parts : list text) : text :=
  match parts with
  | [] => []
  | [p] => p
  | p :: ps => p ++ sep ++ join sep ps
  end.

(** ** SQLite *)

(** [url.PathEscape] leaves letters, digits and these. *)
Definition unescaped (c : ascii) : bool :=
  let n := nat_of_ascii c in
  ((48 <=? n) && (n <=? 57) || (65 <=? n) && (n <=? 90) || (97 <=? n) && (n <=? 122))%nat ||
  existsb (is_char c) (chars "-_.~$&+=:@").
Definition hex_digit (n : nat) : ascii := ascii_of_nat (if (n <? 10)%nat then n + 48 else n + 55).
Definition escape (c : ascii) : text :=
  if unescaped c then [c] else [percent; hex_digit (nat_of_ascii c / 16); hex_digit (nat_of_ascii c mod 16)].
Definition PathEscape (t : text) : text := List.concat (map escape t).

(** [strings.ReplaceAll] of the escaped slash by a slash. *)
Fixpoint restore_slashes (t : text) : text :=
  match t with
  | "%"%char :: ("2"%char :: ("F"%char :: t')) => "/"%char :: restore_slashes t'
  | c :: t' => c :: restore_slashes t'
  | [] => []
  end.

Definition options : list text :=
  map chars ["_txlock=immediate"; "_pragma=busy_timeout(5000)"; "_pragma=journal_mode(WAL)"; "_pragma=foreign_keys(1)"].

Definition buildDSN (dsn : string) : string :=
  let '(base, existing) :=
    match cut question (chars dsn) with
    | (b, Some e) => if HasPrefix dsn "file:" then (b, e) else (chars dsn, [])
    | (_, None) => (chars dsn, [])
    end in
  let base := if starts base (chars "file:") then base
              else chars "file:" ++ restore_slashes (PathEscape base) in
  let params := if bool_decide (existing = []) then options else existing :: options in
  of_chars (base ++ [question] ++ join (chars "&") params).

(** [MapError] of SQLite looks at the message of the driver. *)
Definition sqlite_MapError (msg : string) : err :=
  if Contains msg "sweep_jobs.chain_id, sweep_jobs.source_address" then ErrActiveSweepExists
  else if Contains msg "UNIQUE constraint failed" || Contains msg "PRIMARY KEY constraint" then ErrDuplicate
  else ErrOther.

(** ** PostgreSQL *)

(** [appendInt]; one unit of fuel per binary digit is more than enough. *)
Fixpoint appendInt_fuel (fuel : nat) (b : text) (n : Z) : text :=
  match fuel with
  | O => b
  | S fuel' => (if n >=? 10 then appendInt_fuel fuel' b (n / 10) else b) ++ [digit_char (n mod 10)]
  end.
Definition appendInt (b : text) (n : Z) : text := appendInt_fuel (S (Z.to_nat (Z.log2 n))) b n.

Fixpoint rebind (b : text) (n : Z) (query : text) : text :=
  match query with
  | [] => b
  | c :: query' =>
      if is_char question c then rebind (appendInt (b ++ ["$"%char]) (n + 1)) (n + 1) query'
      else rebind (b ++ [c]) n query'
  end.
Definition Rebind (query : string) : string := of_chars (rebind [] 0 (chars query)).

(** A driver error: the SQLSTATE and the constraint, if it is PostgreSQL's. *)
Definition postgres_MapError (e : option (string * string)) : err :=
  match e with
  | Some (code, constraint) =>
      if bool_decide (code = "23505") then
        if bool_decide (constraint = "ux_sweep_nonterminal") then ErrActiveSweepExists else ErrDuplicate
      else ErrOther
  | None => ErrOther
  end.

(** ** The options always reach the driver *)

Lemma cut_eq c t : t = fst (cut c t) ++ match snd (cut c t) with Some r => c :: r | None => [] end.
Proof.
  induction t as [|x t IH]; [done|]. cbn [cut]. unfold is_char. destruct (bool_decide (x = c)) eqn:E.
  - apply bool_decide_eq_true in E as ->. done.
  - destruct (cut c t) as [a b]. cbn in *. by f_equal.
Qed.
Lemma cut_before c t : c ∉ fst (cut c t).
Proof.
  induction t as [|x t IH]; [apply not_elem_of_nil|]. cbn [cut]. unfold is_char. destruct (bool_decide (x = c)) eqn:E.
  - apply not_elem_of_nil.
  - apply bool_decide_eq_false in E. destruct (cut c t) as [a b]. cbn in *. apply not_elem_of_cons. done.
Qed.
Lemma cut_none c t : snd (cut c t) = None -> c ∉ t.
Proof.
  intros H. pose proof (cut_eq c t) as E. rewrite H, app_nil_r in E. rewrite E. apply cut_before.
Qed.

Lemma hex_digit_plain n : (n < 16)%nat -> hex_digit n <> question.
Proof.
  intros H. unfold hex_digit, question. intros E. apply (f_equal nat_of_ascii) in E.
  rewrite nat_ascii_embedding in E by (destruct (n <? 10)%nat eqn:?; lia).
  change (nat_of_ascii "?") with 63%nat in E. destruct (Nat.ltb_spec n 10); lia.
Qed.

Lemma escape_plain c : question ∉ escape c.
Proof.
  unfold escape. destruct (unescaped c) eqn:E.
  - intros H. apply list_elem_of_singleton in H as <-. vm_compute in E. done.
  - pose proof (nat_ascii_bounded c) as Hb.
    rewrite !not_elem_of_cons. split_and!; [done| | |apply not_elem_of_nil]; apply not_eq_sym, hex_digit_plain.
    + apply Nat.Div0.div_lt_upper_bound. lia.
    + apply Nat.mod_upper_bound. lia.
Qed.

Lemma PathEscape_plain t : question ∉ PathEscape t.
Proof.
  induction t as [|c t IH]; [apply not_elem_of_nil|]. unfold PathEscape in *. cbn [map List.concat].
  rewrite elem_of_app. intros [H|H]; [by apply escape_plain in H|done].
Qed.

Lemma restore_plain t : question ∉ t -> question ∉ restore_slashes t.
Proof.
  remember (List.length t) as n eqn:Hn. revert t Hn. induction n as [n IH] using lt_wf_ind. intros t -> H.
  assert (forall c t', t = c :: t' -> question ∉ c :: restore_slashes t') as Hone.
  { intros c t' ->. rewrite not_elem_of_cons in H |- *. split; [by apply H|].
    apply (IH (List.length t')); [cbn; lia|done|by apply H]. }
  assert (forall t', t = "%"%char :: "2"%char :: "F"%char :: t' -> question ∉ "/"%char :: restore_slashes t') as Hrep.
  { intros t' ->. rewrite !not_elem_of_cons in H. apply not_elem_of_cons. split; [done|].
    apply (IH (List.length t')); [cbn; lia|done|]. set_solver. }
  destruct t as [|c t]; [done|]. specialize (Hone c t eq_refl).
  destruct (ascii_dec c "%") as [->|Hc]; [|destruct c as [[] [] [] [] [] [] [] []]; first [exact Hone|done]].
  destruct t as [|c2 t]; [exact Hone|].
  destruct (ascii_dec c2 "2") as [->|Hc2]; [|destruct c2 as [[] [] [] [] [] [] [] []]; first [exact Hone|done]].
  destruct t as [|c3 t]; [exact Hone|].
  destruct (ascii_dec c3 "F") as [->|Hc3]; [|destruct c3 as [[] [] [] [] [] [] [] []]; first [exact Hone|done]].
  by apply Hrep.
Qed.

(** The database is always opened by a [file:] address whose query, which starts
    at the address's first question mark, ends in the four options the kit needs:
    immediate transactions, the busy timeout, WAL and foreign keys. *)
Lemma buildDSN_options (dsn : string) :
  exists base params, buildDSN dsn = of_chars (base ++ [question] ++ join (chars "&") (params ++ options)) /\
    (question ∉ base) /\ starts base (chars "file:") = true.
Proof.
  unfold buildDSN. pose proof (cut_before question (chars dsn)) as Hb.
  pose proof (cut_none question (chars dsn)) as Hn. pose proof (cut_eq question (chars dsn)) as He.
  assert (forall existing, exists params,
    (if bool_decide (existing = []) then options else existing :: options) = params ++ options) as Hp.
  { intros existing. destruct (bool_decide (existing = [])); [by exists []|by exists [existing]]. }
  assert (forall existing (b : text), (if starts b (chars "file:") then question ∉ b else True) ->
    exists base params, of_chars ((if starts b (chars "file:") then b else chars "file:" ++ restore_slashes (PathEscape b)) ++
      [question] ++ join (chars "&") (if bool_decide (existing = []) then options else existing :: options)) =
      of_chars (base ++ [question] ++ join (chars "&") (params ++ options)) /\
      (question ∉ base) /\ starts base (chars "file:") = true) as Hall.
  { intros existing b H. destruct (Hp existing) as [params ->]. eexists _, params. split; [reflexivity|].
    destruct (starts b (chars "file:")) eqn:E; [by rewrite E|]. split.
    - rewrite elem_of_app. intros [Hq|Hq]; [vm_compute in Hq; set_solver|].
      by apply (restore_plain (PathEscape b) (PathEscape_plain b)).
    - apply starts_iff. eauto. }
  destruct (cut question (chars dsn)) as [b [e|]]; cbn [fst snd] in *.
  - destruct (HasPrefix dsn "file:") eqn:E; apply Hall.
    + by destruct (starts b _).
    + unfold HasPrefix in E. by rewrite E.
  - apply Hall. destruct (starts (chars dsn) _); [by apply Hn|done].
Qed.

(** ** Placeholders are numbered in order *)

Lemma appendInt_fuel_eq fuel b n : 0 <= n -> n < 2 ^ Z.of_nat fuel -> (0 < fuel)%nat -> appendInt_fuel fuel b n = b ++ numeral n.
Proof.
  intros Hn. revert fuel. revert n Hn. apply (numeral_ind (fun n => forall fuel, _ -> _ -> _)).
  - intros n Hn [|fuel] Hf Hpos; [lia|]. cbn [appendInt_fuel]. rewrite numeral_small by done.
    destruct (Z.geb_spec n 10); [lia|]. by rewrite Z.mod_small.
  - intros n Hn IH [|fuel] Hf Hpos; [lia|]. cbn [appendInt_fuel]. rewrite numeral_step by done.
    destruct (Z.geb_spec n 10); [|lia]. rewrite Nat2Z.inj_succ, Z.pow_succ_r in Hf by lia.
    assert (n / 10 < 2 ^ Z.of_nat fuel) by (apply Z.div_lt_upper_bound; lia).
    assert (0 < fuel)%nat by (destruct fuel; [cbn in *; lia|lia]).
    by rewrite IH, app_assoc.
Qed.
Lemma appendInt_eq b n : 0 <= n -> appendInt b n = b ++ numeral n.
Proof. intros Hn. apply appendInt_fuel_eq; [done|by apply numeral_bound|lia]. Qed.

(** The pieces between the placeholders, with the numbers between them. *)
Fixpoint numbered (n : Z) (parts : list text) : text :=
  match parts with
  | [] => []
  | [p] => p
  | p :: ps => p ++ ["$"%char] ++ numeral (n + 1) ++ numbered (n + 1) ps
  end.

Lemma rebind_piece b n p rest : question ∉ p -> rebind b n (p ++ rest) = rebind (b ++ p) n rest.
Proof.
  revert b. induction p as [|c p IH]; intros b H; [by rewrite app_nil_r|]. apply not_elem_of_cons in H as [Hc Hp].
  cbn [app rebind]. unfold is_char. rewrite bool_decide_false by done. rewrite IH by done. by rewrite <-app_assoc.
Qed.

Lemma rebind_join b n parts : 0 <= n -> Forall (fun p => question ∉ p) parts ->
  rebind b n (join [question] parts) = b ++ numbered n parts.
Proof.
  intros Hn H. revert b n Hn. induction H as [|p ps Hp Hps IH]; intros b n Hn; [by rewrite app_nil_r|].
  cbn [join numbered]. destruct ps as [|p' ps].
  - rewrite <-(app_nil_r p) at 1. by rewrite rebind_piece.
  - rewrite rebind_piece by done. cbn [app rebind]. unfold is_char at 1. rewrite bool_decide_true by done.
    rewrite appendInt_eq, IH by lia. by rewrite <-!app_assoc.
Qed.

(** The k-th question mark of a query becomes the placeholder [$k], and the rest
    of the query stays. *)
Lemma Rebind_numbers (parts : list text) (Hparts : Forall (fun p => question ∉ p) parts) :
  Rebind (of_chars (join [question] parts)) = of_chars (numbered 0 parts).
Proof. unfold Rebind. by rewrite chars_of_chars, rebind_join. Qed.

Example rebind_example :
  Rebind "UPDATE t SET a = ?, b = ? WHERE c = ?" = "UPDATE t SET a = $1, b = $2 WHERE c = $3".
Proof. vm_compute. reflexivity. Qed.

(** ** Both backends report the same error *)

(** The uniqueness rules of the schema ([migrations/*/0001_init.sql], [0002]): table,
    columns and the name, where the schema gives one. *)
Record unique : Type := MkUnique { ux_table : string; ux_columns : list string; ux_name : string }.
Definition schema : list unique :=
  [MkUnique "ledger_entries" ["chain_id"; "tx_hash"; "message_index"; "op_index"] "ux_ledger_tx";
   MkUnique "ledger_entries" ["chain_id"; "block_height"; "event_index"] "ux_ledger_block_event";
   MkUnique "fee_outflows" ["chain_id"; "tx_hash"] "fee_outflows_chain_id_tx_hash_key";
   MkUnique "deposits" ["chain_id"; "tx_hash"; "message_index"; "coin_index"; "recipient_address"]
     "deposits_chain_id_tx_hash_message_index_coin_index_recipien_key";
   MkUnique "scanner_checkpoints" ["chain_id"] "scanner_checkpoints_pkey";
   MkUnique "withdrawals" ["withdrawal_id"] "withdrawals_pkey";
   MkUnique "withdrawals" ["idempotency_key"] "withdrawals_idempotency_key_key";
   MkUnique "sequence_reservations" ["chain_id"; "source_address"; "sequence"]
     "sequence_reservations_chain_id_source_address_sequence_key";
   MkUnique "sequence_reservations" ["work_kind"; "work_id"] "sequence_reservations_work_kind_work_id_key";
   MkUnique "sweep_jobs" ["sweep_id"] "sweep_jobs_pkey";
   MkUnique "sweep_jobs" ["idempotency_key"] "sweep_jobs_idempotency_key_key";
   MkUnique "sweep_jobs" ["chain_id"; "source_address"] "ux_sweep_nonterminal";
   MkUnique "watched_addresses" ["chain_id"; "address"] "watched_addresses_pkey";
   MkUnique "operational_controls" ["chain_id"] "operational_controls_pkey";
   MkUnique "chain_review_conditions" ["condition_id"] "chain_review_conditions_pkey";
   MkUnique "reconciliation_reports" ["report_id"] "reconciliation_reports_pkey";
   MkUnique "reconciliation_entries" ["report_id"; "entry_index"] "reconciliation_entries_pkey";
   MkUnique "outbox" ["dedup_key"] "outbox_dedup_key_key";
   MkUnique "chain_account_locks" ["chain_id"; "source_address"] "chain_account_locks_pkey";
   MkUnique "fee_funding_spends" ["chain_id"; "tx_hash"] "fee_funding_spends_chain_id_tx_hash_key"].

(** The message SQLite gives, between what the driver puts around it. *)
Definition sqlite_message (u : unique) : string :=
  "constraint failed: UNIQUE constraint failed: " +:+
  of_chars (join (chars ", ") (map (fun c => chars (ux_table u +:+ "." +:+ c)) (ux_columns u))) +:+ " (2067)".

(** Whichever rule of the schema is violated, both backends report the error the
    repositories expect: the guard of the active sweep as such, every other as
    a duplicate. *)
Lemma backends_agree (u : unique) (Hu : u ∈ schema) :
  sqlite_MapError (sqlite_message u) = postgres_MapError (Some ("23505", ux_name u)) /\
  postgres_MapError (Some ("23505", ux_name u)) =
    if bool_decide (ux_table u = "sweep_jobs" /\ ux_columns u = ["chain_id"; "source_address"])
    then ErrActiveSweepExists else ErrDuplicate.
Proof.
  revert u Hu. apply Forall_forall. unfold schema.
  repeat (constructor; [split; vm_compute; reflexivity|]). constructor.
Qed.

End Drivers.
