(* ===== verification/Timestamps.v ===== *)
(** * Timestamps: how the store writes times

    [fmtTime] and [fmtTimePtr] of [go/storage/internal/sqlstore/sqlstore.go] write
    a time as text in a fixed-width layout, and the store compares and orders
    such columns as text.  The rest of the development keeps times as integers
    (nanoseconds since the epoch); this file shows that both orders agree, for
    the years the layout has room for.

    The calendar is the proleptic Gregorian one of Go's [time] package, computed
    in cycles of 400 years that start in March. *)

From stdpp Require Import base list strings.
From Stdlib Require Import ZArith Lia Ascii String NArith.
From S2P Require Import Prelude Text.

Open Scope string_scope.
Open Scope list_scope.
Open Scope Z_scope.

Module Timestamps.

(** ** The calendar *)

(** Year and day of the year of the [doe]-th day of a cycle: centuries, groups
    of four years and years; the last of each may have a day more. *)
Definition cycle_year (doe : Z) : Z * Z :=
  let n100 := Z.min 3 (doe / 36524) in
  let r100 := doe - 36524 * n100 in
  let n4 := r100 / 1461 in
  let r4 := r100 - 1461 * n4 in
  let n1 := Z.min 3 (r4 / 365) in
  (100 * n100 + 4 * n4 + n1, r4 - 365 * n1).

(** Month, counted from March, and day of the month of a day of the year. *)
Definition month_day (doy : Z) : Z * Z :=
  let mp := (5 * doy + 2) / 153 in (mp, doy - (153 * mp + 2) / 5 + 1).

Definition cycle_date (doe : Z) : Z * Z * Z :=
  let '(yoe, doy) := cycle_year doe in
  let '(mp, day) := month_day doy in
  let month := if mp <? 10 then mp + 3 else mp - 9 in
  (yoe + (if month <=? 2 then 1 else 0), month, day).

(** Days since 1970-01-01. *)
Definition date (days : Z) : Z * Z * Z :=
  let z := days + 719468 in
  let '(y, m, d) := cycle_date (z mod 146097) in
  (400 * (z / 146097) + y, m, d).

Definition second : Z := 10 ^ 9.
Definition day : Z := 86400 * second.

(** ** The layout [2006-01-02T15:04:05.000000000Z07:00] in UTC *)

(** A number in a width, padded with zeros. *)
Fixpoint pad (k : nat) (n : Z) : text :=
  match k with
  | O => []
  | S k' => digit_char (n / 10 ^ Z.of_nat k') :: pad k' (n mod 10 ^ Z.of_nat k')
  end.
Definition year_text (y : Z) : text :=
  let a := Z.abs y in
  (if y <? 0 then ["-"%char] else []) ++ (if a <? 10000 then pad 4 a else numeral a).

Definition Format (t : Z) : string :=
  let '(y, m, d) := date (t / day) in
  let s := t mod day in
  of_chars (year_text y ++ chars "-" ++ pad 2 m ++ chars "-" ++ pad 2 d ++ chars "T" ++
            pad 2 (s / (3600 * second)) ++ chars ":" ++ pad 2 (s / (60 * second) mod 60) ++ chars ":" ++
            pad 2 (s / second mod 60) ++ chars "." ++ pad 9 (s mod second) ++ chars "Z").

(** [fmtTime]: the zero time, [None] here, is replaced by the current one. *)
Definition fmtTime (now : Z) (t : option Z) : string := Format (default now t).
Definition fmtTimePtr (t : option Z) : option string := option_map Format t.

Example epoch : Format 0 = "1970-01-01T00:00:00.000000000Z".
Proof. vm_compute. reflexivity. Qed.
Example leap_day : Format 1709210096000000007 = "2024-02-29T12:34:56.000000007Z".
Proof. vm_compute. reflexivity. Qed.

(** ** Dates grow with the days *)

(** Year, month and day in one number. *)
Definition key (x : Z * Z * Z) : Z := let '(y, m, d) := x in (12 * y + m) * 32 + d.

(** Days of a year, one by one. *)
Definition month_step (doy : Z) : bool :=
  let '(mp, d) := month_day doy in let '(mp', d') := month_day (doy + 1) in
  (0 <=? mp) && (mp <=? 11) && (1 <=? d) && (d <=? 31) && ((doy =? 365) || (32 * mp + d <? 32 * mp' + d')).
Lemma month_steps doy : 0 <= doy <= 365 -> month_step doy = true.
Proof.
  intros H. assert (forallb month_step (map Z.of_nat (seq 0 366)) = true) as Hall by (vm_compute; reflexivity).
  rewrite forallb_forall in Hall. apply Hall, in_map_iff. exists (Z.to_nat doy). split; [lia|]. apply in_seq. lia.
Qed.

(** Centuries, groups of four, years and days of a cycle. *)
Lemma cycle_parts doe : 0 <= doe < 146097 -> exists a b c r,
  cycle_year doe = (100 * a + 4 * b + c, r) /\ doe = 36524 * a + 1461 * b + 365 * c + r /\
  0 <= a <= 3 /\ 0 <= b <= 24 /\ 0 <= c <= 3 /\ 0 <= r <= 365 /\ (c < 3 -> r < 365) /\
  (a < 3 -> 1461 * b + 365 * c + r < 36524) /\ 1461 * b + 365 * c + r <= 36524 /\ 365 * c + r < 1461.
Proof.
  intros H. unfold cycle_year. set (a := Z.min 3 (doe / 36524)).
  assert (0 <= a <= 3 /\ 0 <= doe - 36524 * a <= 36524 /\ (a < 3 -> doe - 36524 * a < 36524)) as Ha
    by (subst a; Z.to_euclidean_division_equations; lia).
  set (x := doe - 36524 * a) in *. set (b := x / 1461).
  assert (0 <= b <= 24 /\ 0 <= x - 1461 * b < 1461) as Hb by (subst b; Z.to_euclidean_division_equations; lia).
  set (z := x - 1461 * b) in *. set (c := Z.min 3 (z / 365)).
  assert (0 <= c <= 3 /\ 0 <= z - 365 * c <= 365 /\ (c < 3 -> z - 365 * c < 365)) as Hc
    by (subst c; Z.to_euclidean_division_equations; lia).
  exists a, b, c, (z - 365 * c). split; [done|]. lia.
Qed.

Lemma cycle_year_range doe : 0 <= doe < 146097 ->
  let '(y, r) := cycle_year doe in 0 <= y < 400 /\ 0 <= r <= 365.
Proof. intros H. destruct (cycle_parts doe H) as (a & b & c & r & -> & ?). lia. Qed.

(** The next day is in the same year, or is the first of the next one. *)
Lemma cycle_year_step doe : 0 <= doe < 146096 ->
  let '(y, r) := cycle_year doe in let '(y', r') := cycle_year (doe + 1) in
  (y' = y /\ r' = r + 1) \/ (y' = y + 1 /\ r' = 0).
Proof.
  intros H. destruct (cycle_parts doe ltac:(lia)) as (a & b & c & r & -> & Hd & H1).
  destruct (cycle_parts (doe + 1) ltac:(lia)) as (a' & b' & c' & r' & -> & Hd' & H2).
  assert (a' = a \/ a' = a + 1) as [->| ->] by lia.
  - assert (b' = b \/ b' = b + 1) as [->| ->] by lia.
    + assert (c' = c \/ c' = c + 1) as [->| ->]; lia.
    + assert (c' = 0) by lia. assert (r' = 0) by lia. assert (c = 3); lia.
  - assert (b' = 0) by lia. assert (c' = 0) by lia. assert (r' = 0) by lia. assert (b = 24) by lia. assert (c = 3); lia.
Qed.

Lemma cycle_date_key doe : 0 <= doe < 146097 ->
  let '(y, r) := cycle_year doe in let '(mp, d) := month_day r in
  key (cycle_date doe) = (12 * y + mp + 3) * 32 + d /\ 0 <= mp <= 11 /\ 1 <= d <= 31.
Proof.
  intros H. pose proof (cycle_year_range doe H) as Hr. unfold cycle_date. destruct (cycle_year doe) as [y r].
  pose proof (month_steps r ltac:(lia)) as Hm. unfold month_step in Hm. destruct (month_day r) as [mp d].
  destruct (month_day (r + 1)) as [mp' d']. unfold key.
  destruct (Z.ltb_spec mp 10); [destruct (Z.leb_spec (mp + 3) 2)|destruct (Z.leb_spec (mp - 9) 2)]; lia.
Qed.

Lemma cycle_step doe : 0 <= doe < 146096 -> key (cycle_date doe) < key (cycle_date (doe + 1)).
Proof.
  intros H. pose proof (cycle_date_key doe ltac:(lia)) as H1. pose proof (cycle_date_key (doe + 1) ltac:(lia)) as H2.
  pose proof (cycle_year_step doe H) as Hs. pose proof (cycle_year_range doe ltac:(lia)) as Hr.
  pose proof (cycle_year_range (doe + 1) ltac:(lia)) as Hr'.
  destruct (cycle_year doe) as [y r], (cycle_year (doe + 1)) as [y' r'].
  pose proof (month_steps r ltac:(lia)) as Hm. unfold month_step in Hm.
  destruct Hs as [[-> ->]|[-> ->]]; destruct (month_day r) as [mp d].
  - destruct (month_day (r + 1)) as [mp' d']. lia.
  - destruct (month_day 0) as [mp' d']. lia.
Qed.
Lemma cycle_end : key (cycle_date 146096) < key (cycle_date 0) + 400 * 384.
Proof. vm_compute. done. Qed.

Lemma cycle_range doe : 0 <= doe < 146097 ->
  let '(y, m, d) := cycle_date doe in 1 <= m <= 12 /\ 1 <= d <= 31.
Proof.
  intros H. pose proof (cycle_year_range doe H) as Hr. unfold cycle_date. destruct (cycle_year doe) as [y r].
  pose proof (month_steps r ltac:(lia)) as Hm. unfold month_step in Hm. destruct (month_day r) as [mp d].
  destruct (month_day (r + 1)) as [mp' d']. destruct (Z.ltb_spec mp 10); lia.
Qed.

Lemma key_shift e y m d : key (400 * e + y, m, d) = key (y, m, d) + 400 * 384 * e.
Proof. unfold key. lia. Qed.

Lemma date_step days : key (date days) < key (date (days + 1)).
Proof.
  unfold date. set (z := days + 719468). replace (days + 1 + 719468) with (z + 1) by lia.
  pose proof (Z.mod_pos_bound z 146097 ltac:(lia)) as Hb. pose proof (Z.div_mod z 146097 ltac:(lia)) as Hz.
  destruct (Z.eq_dec (z mod 146097) 146096) as [He|Hne].
  - assert ((z + 1) mod 146097 = 0 /\ (z + 1) / 146097 = z / 146097 + 1) as [-> ->].
    { split; [symmetry; apply (Z.mod_unique _ _ (z / 146097 + 1))|symmetry; apply (Z.div_unique _ _ _ 0)]; lia. }
    rewrite He. pose proof cycle_end as Hend.
    destruct (cycle_date 146096) as [[y m] d], (cycle_date 0) as [[y0 m0] d0]. rewrite !key_shift. lia.
  - assert ((z + 1) mod 146097 = z mod 146097 + 1 /\ (z + 1) / 146097 = z / 146097) as [-> ->].
    { split; [symmetry; apply (Z.mod_unique _ _ (z / 146097))|symmetry; apply (Z.div_unique _ _ _ (z mod 146097 + 1))]; lia. }
    pose proof (cycle_step (z mod 146097) ltac:(lia)) as Hs.
    destruct (cycle_date (z mod 146097)) as [[y m] d], (cycle_date (z mod 146097 + 1)) as [[y1 m1] d1].
    rewrite !key_shift. lia.
Qed.

Lemma date_mono a b : a < b -> key (date a) < key (date b).
Proof.
  intros H. replace b with (a + 1 + Z.of_nat (Z.to_nat (b - a - 1))) by lia.
  generalize (Z.to_nat (b - a - 1)) as n. intros n. induction n as [|n IH].
  - rewrite Z.add_0_r. apply date_step.
  - etransitivity; [exact IH|]. replace (a + 1 + Z.of_nat (S n)) with (a + 1 + Z.of_nat n + 1) by lia. apply date_step.
Qed.

Lemma date_compare a b : Z.compare (key (date a)) (key (date b)) = Z.compare a b.
Proof.
  destruct (Z.compare_spec a b) as [->|H|H].
  - apply Z.compare_refl.
  - by apply Z.compare_lt_iff, date_mono.
  - by apply Z.compare_gt_iff, date_mono.
Qed.

Lemma date_range days : let '(y, m, d) := date days in 1 <= m <= 12 /\ 1 <= d <= 31.
Proof.
  unfold date. pose proof (cycle_range ((days + 719468) mod 146097) ltac:(apply Z.mod_pos_bound; lia)) as H.
  by destruct (cycle_date _) as [[y m] d].
Qed.

(** ** Comparing texts *)

Definition cmp (a b : text) : comparison := String.compare (of_chars a) (of_chars b).
Definition lex (c d : comparison) : comparison := match c with Eq => d | _ => c end.

Lemma cmp_cons c d a b : cmp (c :: a) (d :: b) = lex (Ascii.compare c d) (cmp a b).
Proof. unfold cmp. cbn. by destruct (Ascii.compare c d). Qed.
Lemma cmp_same p a b : cmp (p ++ a) (p ++ b) = cmp a b.
Proof.
  induction p as [|c p IH]; [done|]. cbn [app]. rewrite cmp_cons, IH. unfold Ascii.compare. by rewrite N.compare_refl.
Qed.

Lemma digit_compare m n : 0 <= m < 10 -> 0 <= n < 10 -> Ascii.compare (digit_char m) (digit_char n) = Z.compare m n.
Proof.
  intros Hm Hn.
  assert (forallb (fun '(m, n) => bool_decide (Ascii.compare (digit_char m) (digit_char n) = Z.compare m n))
            (list_prod (map Z.of_nat (seq 0 10)) (map Z.of_nat (seq 0 10))) = true) as Hall by (vm_compute; reflexivity).
  rewrite forallb_forall in Hall. specialize (Hall (m, n)). cbv beta iota in Hall.
  apply bool_decide_eq_true in Hall; [done|]. apply in_prod; apply in_map_iff.
  - exists (Z.to_nat m). split; [lia|]. apply in_seq. lia.
  - exists (Z.to_nat n). split; [lia|]. apply in_seq. lia.
Qed.

(** Leading parts decide, then the rest. *)
Lemma mixed B a r a' r' : 0 <= r < B -> 0 <= r' < B ->
  lex (Z.compare a a') (Z.compare r r') = Z.compare (B * a + r) (B * a' + r').
Proof.
  intros Hr Hr'. destruct (Z.compare_spec a a') as [->|H|H]; cbn [lex].
  - by rewrite Zcompare_plus_compat.
  - symmetry. apply Z.compare_lt_iff. nia.
  - symmetry. apply Z.compare_gt_iff. nia.
Qed.

Lemma lex_assoc a b c : lex (lex a b) c = lex a (lex b c).
Proof. by destruct a. Qed.

Lemma cmp_pad k m n a b : 0 <= m < 10 ^ Z.of_nat k -> 0 <= n < 10 ^ Z.of_nat k ->
  cmp (pad k m ++ a) (pad k n ++ b) = lex (Z.compare m n) (cmp a b).
Proof.
  revert m n. induction k as [|k IH]; intros m n Hm Hn.
  - cbn in Hm, Hn. assert (m = n) as -> by lia. by rewrite Z.compare_refl.
  - rewrite Nat2Z.inj_succ, Z.pow_succ_r in Hm, Hn by lia. set (B := 10 ^ Z.of_nat k) in *.
    assert (0 < B) by (apply Z.pow_pos_nonneg; lia). cbn [pad app].
    pose proof (Z.mod_pos_bound m B ltac:(lia)). pose proof (Z.mod_pos_bound n B ltac:(lia)).
    assert (forall x, 0 <= x < 10 * B -> 0 <= x / B < 10) as Hd
      by (intros x Hx; split; [apply Z.div_pos|apply Z.div_lt_upper_bound]; lia).
    rewrite cmp_cons, IH by done. rewrite digit_compare by auto. rewrite <-lex_assoc, (mixed B) by done.
    by rewrite <-!Z.div_mod by lia.
Qed.

(** ** The order of the texts is the order of the times *)

(** From the first moment of the year 0 to the last of the year 9999. *)
Definition layout_start : Z := -719528 * day.
Definition layout_end : Z := 2932897 * day.

Lemma key_compare y m d y' m' d' : 1 <= m <= 12 -> 1 <= d <= 31 -> 1 <= m' <= 12 -> 1 <= d' <= 31 ->
  lex (Z.compare y y') (lex (Z.compare m m') (Z.compare d d')) = Z.compare (key (y, m, d)) (key (y', m', d')).
Proof.
  intros Hm Hd Hm' Hd'. rewrite (mixed 32) by lia. unfold key.
  replace (Z.compare (32 * m + d) (32 * m' + d')) with (Z.compare (32 * (m - 1) + d) (32 * (m' - 1) + d')).
  2:{ destruct (Z.compare_spec (32 * m + d) (32 * m' + d')); [apply Z.compare_eq_iff|apply Z.compare_lt_iff|apply Z.compare_gt_iff]; lia. }
  rewrite (mixed 384) by lia.
  destruct (Z.compare_spec ((12 * y + m) * 32 + d) ((12 * y' + m') * 32 + d'));
    [apply Z.compare_eq_iff|apply Z.compare_lt_iff|apply Z.compare_gt_iff]; lia.
Qed.

Lemma year_bound days : -719528 <= days < 2932897 -> 0 <= fst (fst (date days)) < 10000.
Proof.
  intros [Hlo Hhi]. pose proof (date_range days) as Hr.
  assert (key (date (-719528)) <= key (date days)) as Hl
    by (destruct (Z.eq_dec days (-719528)) as [->|]; [lia|]; apply Z.lt_le_incl, date_mono; lia).
  pose proof (date_mono days 2932897 Hhi) as Hh. change (date (-719528)) with (0, 1, 1) in Hl.
  change (date 2932897) with (10000, 1, 1) in Hh. destruct (date days) as [[y m] d]. unfold key in *. cbn. lia.
Qed.

Lemma year_text_small y : 0 <= y < 10000 -> year_text y = pad 4 y.
Proof.
  intros H. unfold year_text. rewrite Z.abs_eq by lia. destruct (Z.ltb_spec y 0); [lia|].
  by destruct (Z.ltb_spec y 10000); [|lia].
Qed.

(** The time of a day. *)
Lemma clock_compare s s' : 0 <= s < day -> 0 <= s' < day ->
  lex (Z.compare (s / (3600 * second)) (s' / (3600 * second)))
    (lex (Z.compare (s / (60 * second) mod 60) (s' / (60 * second) mod 60))
      (lex (Z.compare (s / second mod 60) (s' / second mod 60)) (Z.compare (s mod second) (s' mod second)))) =
  Z.compare s s'.
Proof.
  intros Hs Hs'. assert (forall x, x / (3600 * second) = x / (60 * second) / 60) as Hh
    by (intros x; rewrite Z.div_div by (unfold second; lia); f_equal; unfold second; lia).
  assert (forall x, x / (60 * second) = x / second / 60) as Hm
    by (intros x; rewrite Z.div_div by (unfold second; lia); f_equal; unfold second; lia).
  rewrite !Hh, <-lex_assoc, (mixed 60) by (apply Z.mod_pos_bound; lia). rewrite <-!Z.div_mod by lia.
  rewrite !Hm, <-lex_assoc, (mixed 60) by (apply Z.mod_pos_bound; lia). rewrite <-!Z.div_mod by lia.
  rewrite (mixed second) by (apply Z.mod_pos_bound; done). by rewrite <-!Z.div_mod by done.
Qed.

(** C40: text order is time order.  Of any two times of the years 0 to 9999 the
    stored texts compare, byte by byte, as the times do; so equal texts are
    equal times, and a query that orders or compares such a column by its text
    orders it chronologically, which is what the model of the store does. *)
Theorem timestamps_sort_chronologically (t t' : Z)
    (Ht : layout_start <= t < layout_end) (Ht' : layout_start <= t' < layout_end) :
  String.compare (Format t) (Format t') = Z.compare t t'.
Proof.
  assert (forall x, layout_start <= x < layout_end ->
    0 <= fst (fst (date (x / day))) < 10000) as Hy.
  { intros x Hx. apply year_bound. unfold layout_start, layout_end in Hx. split.
    - apply Z.div_le_lower_bound; [done|lia].
    - apply Z.div_lt_upper_bound; [done|lia]. }
  assert (forall x, 0 <= x mod day < day) as Hs by (intros x; by apply Z.mod_pos_bound).
  rewrite (Z.div_mod t day), (Z.div_mod t' day) at 2 by done. rewrite <-mixed by done.
  rewrite <-date_compare, <-(clock_compare (t mod day) (t' mod day)) by done. unfold Format.
  pose proof (Hy t Ht) as Hyt. pose proof (Hy t' Ht') as Hyt'.
  pose proof (date_range (t / day)) as Hr. pose proof (date_range (t' / day)) as Hr'.
  destruct (date (t / day)) as [[y m] d], (date (t' / day)) as [[y' m'] d']. cbn [fst] in Hyt, Hyt'.
  rewrite !year_text_small by done. rewrite <-key_compare by lia. rewrite !lex_assoc.
  pose proof (Hs t) as Hst. pose proof (Hs t') as Hst'. set (s := t mod day) in *. set (s' := t' mod day) in *.
  assert (forall x, 0 <= x < day -> 0 <= x / (3600 * second) < 100) as Hh.
  { intros x Hx. split; [apply Z.div_pos; [lia|done]|]. apply Z.div_lt_upper_bound; [done|]. unfold day, second in *. lia. }
  assert (forall x, 0 <= x mod 60 < 100) as H60 by (intros x; pose proof (Z.mod_pos_bound x 60 ltac:(lia)); lia).
  pose proof (Z.mod_pos_bound s second ltac:(done)). pose proof (Z.mod_pos_bound s' second ltac:(done)).
  match goal with |- String.compare (of_chars ?a) (of_chars ?b) = _ => change (String.compare (of_chars a) (of_chars b)) with (cmp a b) end.
  rewrite cmp_pad by (change (10 ^ Z.of_nat 4) with 10000; lia).
  rewrite cmp_same, cmp_pad by (change (10 ^ Z.of_nat 2) with 100; lia).
  rewrite cmp_same, cmp_pad by (change (10 ^ Z.of_nat 2) with 100; lia).
  rewrite cmp_same, cmp_pad by (change (10 ^ Z.of_nat 2) with 100; auto).
  rewrite cmp_same, cmp_pad by (change (10 ^ Z.of_nat 2) with 100; auto).
  rewrite cmp_same, cmp_pad by (change (10 ^ Z.of_nat 2) with 100; auto).
  rewrite cmp_same, cmp_pad by (change (10 ^ Z.of_nat 9) with second; auto).
  change (cmp (chars "Z") (chars "Z")) with Eq. by destruct (Z.compare (s mod second) (s' mod second)).
Qed.

Lemma timestamps_sort_chronologically_witness :
  String.compare (Format 1709210096000000007) (Format 1709210096000000010) = Lt.
Proof.
  rewrite (timestamps_sort_chronologically 1709210096000000007 1709210096000000010);
    [reflexivity|split; vm_compute; congruence..].
Defined.

End Timestamps.
