(* ===== verification/Manifest.v ===== *)
(** * Manifest: the network manifest ([go/client/config.go])

    [network.yaml] as records, [validate] as the list of the failures it
    collects, and [ParseManifest]/[LoadManifest].  An error is its path and its
    sentinel; the detail text is left out.  The YAML decoders and the SDK's
    parsers of gas prices and decimals are parameters ([ManifestExt]).  The laws
    say what an accepted manifest is, independently of the order of the checks. *)

From stdpp Require Import base list strings.
From Stdlib Require Import ZArith Lia Ascii String.
From S2P Require Import Prelude Text GoStrings Storage.

Open Scope string_scope.
Open Scope list_scope.
Open Scope Z_scope.
Import GoStrings(TrimSpace, HasPrefix, HasPrefix_iff, trim, trim_left, trim_right, starts, starts_iff, spaces).
Local Notation empty := GoStrings.empty.

Module Manifest.

Definition SupportedManifestSchemaMajor : Z := 1.

(** The sentinels. *)
Inductive ErrManifest : Type := SchemaVersionUnsupported | Placeholder | MissingField | Invalid.
Instance ErrManifest_eq_dec : EqDecision ErrManifest.
Proof. solve_decision. Defined.

Record ManifestError : Type := MkManifestError { me_Path : string; me_kind : ErrManifest }.

(** What [LoadManifest] returns: the file's error, or the joined failures. *)
Inductive error : Type := ReadError | Rejected (errs : list ManifestError).

(** [errors.Is] against a sentinel. *)
Definition Is (e : error) (k : ErrManifest) : bool :=
  match e with
  | ReadError => false
  | Rejected errs => existsb (fun m => bool_decide (me_kind m = k)) errs
  end.

Record ManifestVersions : Type := MkVersions {
  mv_SDK : string; mv_CometBFT : string; mv_IBCGo : string; mv_CosmwasmWasmd : string; mv_Go : string;
  mv_App : string }.
Record ManifestFees : Type := MkFees {
  mf_MinimumGasPrice : string; mf_RecommendedGasPrice : string; mf_RecommendedGasAdjustment : string }.
Record ManifestPorts : Type := MkPorts {
  mp_P2P : Z; mp_RPC : Z; mp_GRPC : Z; mp_REST : Z; mp_Metrics : Z }.
Record ManifestGenesis : Type := MkGenesis { mg_SHA256 : string; mg_File : string }.
Record ManifestEndpoint : Type := MkEndpoint { ep_Kind : string; ep_URL : string; ep_Provider : string }.
Record ManifestPeers : Type := MkPeers { pe_Seeds : list string; pe_PersistentPeers : list string }.
Record ManifestLinks : Type := MkLinks {
  ml_Explorer : string; ml_Faucet : option string; ml_StatusPage : option string; ml_RegistryDir : string }.

Record NetworkManifest : Type := MkManifest {
  nm_SchemaVersion : Z; nm_NetworkName : string; nm_NetworkType : string; nm_ChainID : string;
  nm_DaemonName : string; nm_NodeHome : string; nm_AccountPrefix : string;
  nm_ValidatorOperatorPrefix : string; nm_ValidatorConsensusPrefix : string; nm_BaseDenom : string;
  nm_DisplayDenom : string; nm_DisplayExponent : Z; nm_Symbol : string; nm_AccountKeyAlgorithm : string;
  nm_ConsensusKeyAlgorithm : string; nm_Slip44CoinType : Z; nm_Versions : ManifestVersions;
  nm_Fees : ManifestFees; nm_Ports : ManifestPorts; nm_Genesis : ManifestGenesis;
  nm_Endpoints : list ManifestEndpoint; nm_Peers : ManifestPeers; nm_Links : ManifestLinks;
  nm_Divergences : list string }.

(** [yaml.Unmarshal] into the probe and the strict decoder, [sdk.ParseDecCoin]
    (whether it accepts), and [LegacyNewDecFromStr] (the decimal times [10^18]). *)
Class ManifestExt : Type := {
  yaml_probe : bytes -> option (option Z);
  yaml_manifest : bytes -> option NetworkManifest;
  ParseDecCoin : string -> bool;
  LegacyNewDecFromStr : string -> option Z }.

(** ** [validate] *)

Definition isPlaceholder (s : string) : bool :=
  let t := TrimSpace s in GoStrings.EqualFold t "TBD" || HasPrefix t "REPLACE_".

Definition is_lower_hex (c : ascii) : bool :=
  let n := nat_of_ascii c in is_digit c || ((97 <=? n) && (n <=? 102))%nat.
Definition is_hex (c : ascii) : bool :=
  let n := nat_of_ascii c in is_lower_hex c || ((65 <=? n) && (n <=? 70))%nat.
(** The class [[^@\s:]]: [\s] is tab, newline, form feed, return and space. *)
Definition is_host_char (c : ascii) : bool :=
  negb (existsb (Nat.eqb (nat_of_ascii c)) [64; 9; 10; 12; 13; 32; 58]%nat).

Definition sha256Re : re := Times 64 (Chr is_lower_hex).
Definition peerRe : re :=
  Cat (Times 40 (Chr is_hex))
    (Cat (Chr (is_char "@")) (Cat (Plus (Chr is_host_char)) (Cat (Chr (is_char ":")) (Plus (Chr is_digit))))).
Definition MatchString (r : re) (s : string) : bool := matches r (chars s).

Definition fail (path : string) (kind : ErrManifest) : list ManifestError := [MkManifestError path kind].

Definition requireString (path v : string) : list ManifestError :=
  if empty (TrimSpace v) then fail path MissingField
  else if isPlaceholder v then fail path Placeholder
  else [].
Definition optionalString (path : string) (v : option string) : list ManifestError :=
  match v with
  | Some v => if isPlaceholder v then fail path Placeholder else []
  | None => []
  end.
Definition requirePositive (path : string) (v : Z) : list ManifestError :=
  if v <=? 0 then fail path MissingField else [].

(** The path of an element, ["p[i]"], and a check of every element. *)
Definition indexed (p : string) (i : nat) : string := p +:+ "[" +:+ of_chars (numeral (Z.of_nat i)) +:+ "]".
Definition for_each {A} (l : list A) (check : nat -> A -> list ManifestError) : list ManifestError :=
  List.concat (imap check l).

(** [!isPlaceholder(v)] and non-empty, before a value is parsed. *)
Definition to_parse (v : string) : bool := negb (empty v) && negb (isPlaceholder v).

Definition check_endpoint (i : nat) (ep : ManifestEndpoint) : list ManifestError :=
  let p := indexed "endpoints" i in
  requireString (p +:+ ".kind") (ep_Kind ep) ++
  requireString (p +:+ ".url") (ep_URL ep) ++
  requireString (p +:+ ".provider") (ep_Provider ep) ++
  if bool_decide (ep_Kind ep ∈ [""; "rpc"; "rest"; "grpc"]) then [] else fail (p +:+ ".kind") Invalid.

Definition check_peer (path : string) (i : nat) (s : string) : list ManifestError :=
  let p := indexed path i in
  requireString p s ++
  if to_parse s && negb (MatchString peerRe s) then fail p Invalid else [].

Section validate.
Context `{ME : ManifestExt}.

Definition check_coin (path v : string) : list ManifestError :=
  if to_parse v then if ParseDecCoin v then [] else fail path Invalid else [].
Definition check_adjustment (path v : string) : list ManifestError :=
  if to_parse v then
    match LegacyNewDecFromStr v with
    | None => fail path Invalid
    | Some adj => if negb (0 <? adj) then fail path Invalid else []
    end
  else [].

Definition validate (m : NetworkManifest) : list ManifestError :=
  let v := nm_Versions m in let f := nm_Fees m in let o := nm_Ports m in
  let g := nm_Genesis m in let l := nm_Links m in
  let mainnet := bool_decide (nm_NetworkType m = "mainnet") in
  requireString "network_name" (nm_NetworkName m) ++
  requireString "network_type" (nm_NetworkType m) ++
  requireString "chain_id" (nm_ChainID m) ++
  requireString "daemon_name" (nm_DaemonName m) ++
  requireString "node_home" (nm_NodeHome m) ++
  requireString "account_prefix" (nm_AccountPrefix m) ++
  requireString "validator_operator_prefix" (nm_ValidatorOperatorPrefix m) ++
  requireString "validator_consensus_prefix" (nm_ValidatorConsensusPrefix m) ++
  requireString "base_denom" (nm_BaseDenom m) ++
  requireString "display_denom" (nm_DisplayDenom m) ++
  requireString "symbol" (nm_Symbol m) ++
  requireString "account_key_algorithm" (nm_AccountKeyAlgorithm m) ++
  requireString "consensus_key_algorithm" (nm_ConsensusKeyAlgorithm m) ++
  requirePositive "display_exponent" (nm_DisplayExponent m) ++
  requirePositive "slip44_coin_type" (nm_Slip44CoinType m) ++
  (if negb (empty (nm_NetworkType m)) && negb mainnet && negb (bool_decide (nm_NetworkType m = "testnet"))
   then fail "network_type" Invalid else []) ++
  requireString "versions.sdk" (mv_SDK v) ++
  requireString "versions.cometbft" (mv_CometBFT v) ++
  requireString "versions.ibc_go" (mv_IBCGo v) ++
  requireString "versions.cosmwasm_wasmd" (mv_CosmwasmWasmd v) ++
  requireString "versions.go" (mv_Go v) ++
  requireString "versions.app" (mv_App v) ++
  requireString "fees.minimum_gas_price" (mf_MinimumGasPrice f) ++
  requireString "fees.recommended_gas_price" (mf_RecommendedGasPrice f) ++
  requireString "fees.recommended_gas_adjustment" (mf_RecommendedGasAdjustment f) ++
  check_coin "fees.minimum_gas_price" (mf_MinimumGasPrice f) ++
  check_coin "fees.recommended_gas_price" (mf_RecommendedGasPrice f) ++
  check_adjustment "fees.recommended_gas_adjustment" (mf_RecommendedGasAdjustment f) ++
  requirePositive "ports.p2p" (mp_P2P o) ++
  requirePositive "ports.rpc" (mp_RPC o) ++
  requirePositive "ports.grpc" (mp_GRPC o) ++
  requirePositive "ports.rest" (mp_REST o) ++
  requirePositive "ports.metrics" (mp_Metrics o) ++
  requireString "genesis.sha256" (mg_SHA256 g) ++
  requireString "genesis.file" (mg_File g) ++
  (if to_parse (mg_SHA256 g) && negb (MatchString sha256Re (mg_SHA256 g))
   then fail "genesis.sha256" Invalid else []) ++
  (if bool_decide (nm_Endpoints m = []) then fail "endpoints" MissingField else []) ++
  for_each (nm_Endpoints m) check_endpoint ++
  (if bool_decide (pe_Seeds (nm_Peers m) = []) then fail "peers.seeds" MissingField else []) ++
  for_each (pe_Seeds (nm_Peers m)) (check_peer "peers.seeds") ++
  for_each (pe_PersistentPeers (nm_Peers m)) (check_peer "peers.persistent_peers") ++
  (if mainnet || negb (empty (ml_Explorer l)) then requireString "links.explorer" (ml_Explorer l) else []) ++
  requireString "links.registry_dir" (ml_RegistryDir l) ++
  optionalString "links.faucet" (ml_Faucet l) ++
  optionalString "links.status_page" (ml_StatusPage l) ++
  for_each (nm_Divergences m) (fun i d => requireString (indexed "divergences" i) d) ++
  (if mainnet && negb (bool_decide (nm_Divergences m = [])) then fail "divergences" Invalid else []).

(** ** Loading *)

Definition ParseManifest (data : bytes) : result error NetworkManifest :=
  match yaml_probe data with
  | None => Err (Rejected (fail "(document)" Invalid))
  | Some None => Err (Rejected (fail "schema_version" MissingField))
  | Some (Some version) =>
      if negb (version =? SupportedManifestSchemaMajor) then
        Err (Rejected (fail "schema_version" SchemaVersionUnsupported))
      else match yaml_manifest data with
           | None => Err (Rejected (fail "(document)" Invalid))
           | Some m =>
               match validate m with
               | [] => Ok m
               | errs => Err (Rejected errs)
               end
           end
  end.

(** [os.ReadFile] is given. *)
Definition LoadManifest (ReadFile : string -> option bytes) (path : string) : result error NetworkManifest :=
  match ReadFile path with
  | None => Err ReadError
  | Some data => ParseManifest data
  end.

(** ** What an accepted manifest is *)

Definition filled (s : string) : Prop := TrimSpace s <> "" /\ isPlaceholder s = false.

(** Lower-case hexadecimal of a digest, and a node id at a host and port. *)
Definition digest_text (s : string) : Prop :=
  String.length s = 64%nat /\ Forall (fun c => is_lower_hex c = true) (chars s).
Definition peer_text (s : string) : Prop :=
  exists id host port, s = id +:+ "@" +:+ host +:+ ":" +:+ port /\
    String.length id = 40%nat /\ Forall (fun c => is_hex c = true) (chars id) /\
    host <> "" /\ Forall (fun c => is_host_char c = true) (chars host) /\
    port <> "" /\ Forall (fun c => is_digit c = true) (chars port).

Definition required_strings (m : NetworkManifest) : list string :=
  [nm_NetworkName m; nm_ChainID m; nm_DaemonName m; nm_NodeHome m; nm_AccountPrefix m;
   nm_ValidatorOperatorPrefix m; nm_ValidatorConsensusPrefix m; nm_BaseDenom m; nm_DisplayDenom m; nm_Symbol m;
   nm_AccountKeyAlgorithm m; nm_ConsensusKeyAlgorithm m;
   mv_SDK (nm_Versions m); mv_CometBFT (nm_Versions m); mv_IBCGo (nm_Versions m);
   mv_CosmwasmWasmd (nm_Versions m); mv_Go (nm_Versions m); mv_App (nm_Versions m);
   mf_MinimumGasPrice (nm_Fees m); mf_RecommendedGasPrice (nm_Fees m); mf_RecommendedGasAdjustment (nm_Fees m);
   mg_File (nm_Genesis m); ml_RegistryDir (nm_Links m)].
Definition required_numbers (m : NetworkManifest) : list Z :=
  [nm_DisplayExponent m; nm_Slip44CoinType m; mp_P2P (nm_Ports m); mp_RPC (nm_Ports m); mp_GRPC (nm_Ports m);
   mp_REST (nm_Ports m); mp_Metrics (nm_Ports m)].

Record wellformed (m : NetworkManifest) : Prop := {
  wf_strings : Forall filled (required_strings m);
  wf_numbers : Forall (fun n => 0 < n) (required_numbers m);
  wf_type : nm_NetworkType m = "mainnet" \/ nm_NetworkType m = "testnet";
  wf_prices : ParseDecCoin (mf_MinimumGasPrice (nm_Fees m)) = true /\
              ParseDecCoin (mf_RecommendedGasPrice (nm_Fees m)) = true;
  wf_adjustment : exists adj, LegacyNewDecFromStr (mf_RecommendedGasAdjustment (nm_Fees m)) = Some adj /\ 0 < adj;
  wf_digest : digest_text (mg_SHA256 (nm_Genesis m));
  wf_endpoints : nm_Endpoints m <> [] /\
    Forall (fun ep => ep_Kind ep ∈ ["rpc"; "rest"; "grpc"] /\ filled (ep_URL ep) /\ filled (ep_Provider ep)) (nm_Endpoints m);
  wf_seeds : pe_Seeds (nm_Peers m) <> [];
  wf_peers : Forall peer_text (pe_Seeds (nm_Peers m) ++ pe_PersistentPeers (nm_Peers m));
  wf_explorer : filled (ml_Explorer (nm_Links m)) \/
    (nm_NetworkType m = "testnet" /\ ml_Explorer (nm_Links m) = "");
  wf_optional : Forall (fun s => isPlaceholder s = false)
    (option_list (ml_Faucet (nm_Links m)) ++ option_list (ml_StatusPage (nm_Links m)));
  wf_divergences : Forall filled (nm_Divergences m) /\
    (nm_NetworkType m = "mainnet" -> nm_Divergences m = []) }.

Lemma requireString_nil p v : requireString p v = [] <-> filled v.
Proof.
  unfold requireString, filled, GoStrings.empty, fail. case_bool_decide as E; [naive_solver|].
  destruct (isPlaceholder v); naive_solver.
Qed.

Lemma optionalString_nil p v :
  optionalString p v = [] <-> Forall (fun s => isPlaceholder s = false) (option_list v).
Proof.
  destruct v as [v|]; simpl; [|done]. rewrite Forall_singleton. by destruct (isPlaceholder v).
Qed.

Lemma requirePositive_nil p v : requirePositive p v = [] <-> 0 < v.
Proof. unfold requirePositive. destruct (Z.leb_spec v 0); split; try done; lia. Qed.

Lemma fail_if_nil (b : bool) p k : (if b then fail p k else []) = [] <-> b = false.
Proof. by destruct b. Qed.

Lemma for_each_nil {A} (l : list A) check (P : A -> Prop) :
  (forall i x, check i x = [] <-> P x) -> for_each l check = [] <-> Forall P l.
Proof.
  intros Hc. unfold for_each. revert check Hc.
  induction l as [|x l IH]; intros check Hc; [done|]. cbn [imap List.concat].
  rewrite app_nil, Forall_cons, Hc. by rewrite IH by (intros; apply Hc).
Qed.

Lemma filled_to_parse v : filled v -> to_parse v = true.
Proof.
  intros [Ht Hp]. unfold to_parse, GoStrings.empty. rewrite Hp.
  case_bool_decide as E; [|done]. by subst v.
Qed.

Lemma check_coin_nil p v : filled v -> check_coin p v = [] <-> ParseDecCoin v = true.
Proof. intros Hf. unfold check_coin. rewrite filled_to_parse by done. by destruct (ParseDecCoin v). Qed.

Lemma check_adjustment_nil p v : filled v ->
  check_adjustment p v = [] <-> exists adj, LegacyNewDecFromStr v = Some adj /\ 0 < adj.
Proof.
  intros Hf. unfold check_adjustment. rewrite filled_to_parse by done.
  destruct (LegacyNewDecFromStr v) as [adj|]; [|split; [done|by intros (? & ? & _)]].
  rewrite fail_if_nil, negb_false_iff, Z.ltb_lt. split; [eauto|]. by intros (? & [= ->] & ?).
Qed.

(** *** Texts that start and end in letters or digits of ASCII are not trimmed *)

Definition plain (c : ascii) : bool := forallb (fun sp => negb (bool_decide (head sp = Some c))) (spaces ++ map (@rev ascii) spaces).

Lemma trim_plain n sps c t : (forall sp, sp ∈ sps -> head sp <> Some c /\ sp <> []) -> trim n sps (c :: t) = c :: t.
Proof.
  intros H. destruct n as [|n]; [done|]. cbn [trim].
  destruct (List.find (starts (c :: t)) sps) as [sp|] eqn:E; [|done].
  apply List.find_some in E as [Hin Hs]. apply list_elem_of_In in Hin. destruct (H sp Hin) as [Hh Hne].
  apply starts_iff in Hs as [r Hr]. destruct sp as [|x sp]; [done|]. by injection Hr as -> _.
Qed.

Lemma plain_spaces c sps : sps = spaces \/ sps = map (@rev ascii) spaces -> plain c = true ->
  forall sp, sp ∈ sps -> head sp <> Some c /\ sp <> [].
Proof.
  intros Hs Hc sp Hin. unfold plain in Hc. rewrite forallb_forall in Hc. split.
  - specialize (Hc sp). rewrite negb_true_iff, bool_decide_eq_false in Hc. apply Hc, list_elem_of_In, elem_of_app.
    destruct Hs as [-> | ->]; tauto.
  - assert (Forall (fun sp => sp <> []) sps) as Hf by (destruct Hs as [-> | ->]; repeat constructor; discriminate).
    rewrite Forall_forall in Hf. by apply Hf.
Qed.

Lemma TrimSpace_plain c t d : plain c = true -> plain d = true ->
  TrimSpace (of_chars (c :: t ++ [d])) = of_chars (c :: t ++ [d]).
Proof.
  intros Hc Hd. unfold TrimSpace. rewrite chars_of_chars. unfold trim_left.
  rewrite trim_plain by (apply plain_spaces; auto). unfold trim_right.
  change (c :: t ++ [d]) with ((c :: t) ++ [d]). rewrite rev_app_distr. cbn [rev app].
  rewrite trim_plain by (apply plain_spaces; auto). cbn [rev]. by rewrite rev_app_distr, rev_involutive.
Qed.

Lemma TrimSpace_ends t c d : head t = Some c -> last t = Some d -> plain c = true -> plain d = true ->
  TrimSpace (of_chars t) = of_chars t.
Proof.
  intros Hh Hl Hc Hd. destruct t as [|c' t]; [done|]. injection Hh as ->.
  destruct t as [|d' t _] using rev_ind.
  - unfold TrimSpace, trim_left, trim_right. rewrite chars_of_chars, trim_plain by (apply plain_spaces; auto).
    cbn [rev app]. by rewrite trim_plain by (apply plain_spaces; auto).
  - rewrite app_comm_cons, last_snoc in Hl. injection Hl as ->. by apply TrimSpace_plain.
Qed.

Lemma hex_plain c : is_hex c = true -> plain c = true.
Proof. destruct c as [[] [] [] [] [] [] [] []]; intros H; try discriminate H; vm_compute; reflexivity. Qed.

(** A text that starts with a hexadecimal digit and ends with one is filled. *)
Lemma filled_hex c t d : is_hex c = true -> is_hex d = true -> filled (of_chars (c :: t ++ [d])).
Proof.
  intros Hc Hd. unfold filled, isPlaceholder.
  rewrite TrimSpace_plain by (by apply hex_plain). split; [done|]. apply orb_false_iff. split.
  - apply bool_decide_eq_false_2. rewrite chars_of_chars. intros E. apply (f_equal head) in E. cbn in E.
    by destruct c as [[] [] [] [] [] [] [] []].
  - apply not_true_iff_false. rewrite HasPrefix_iff. intros [r E]. injection E as -> _. done.
Qed.

Lemma lang_times_chr n p t : lang (Times n (Chr p)) t <-> List.length t = n /\ Forall (fun c => p c = true) t.
Proof.
  revert t. induction n as [|n IH]; intros t; cbn [Times].
  - rewrite lang_eps_inv. split; [by intros ->|]. intros [H _]. by apply nil_length_inv.
  - rewrite lang_cat_inv. split.
    + intros (t1 & t2 & -> & H1 & H2). apply lang_chr_inv in H1 as (c & -> & Hc). apply IH in H2 as [<- H2].
      split; [done|]. by constructor.
    + intros [Hl Hf]. destruct t as [|c t]; [done|]. apply Forall_cons in Hf as [Hc Hf]. injection Hl as Hl.
      exists [c], t. split; [done|]. split; [apply lang_chr_inv; eauto|]. by apply IH.
Qed.

Lemma lang_plus_chr p t : lang (Plus (Chr p)) t <-> t <> [] /\ Forall (fun c => p c = true) t.
Proof.
  unfold Plus. rewrite lang_cat_inv. split.
  - intros (t1 & t2 & -> & H1 & H2). apply lang_chr_inv in H1 as (c & -> & Hc). apply lang_star_chr in H2.
    split; [done|]. by constructor.
  - intros [Hne Hf]. destruct t as [|c t]; [done|]. apply Forall_cons in Hf as [Hc Hf].
    exists [c], t. split; [done|]. split; [apply lang_chr_inv; eauto|]. by apply lang_star_chr.
Qed.

Lemma digit_hex c : is_digit c = true -> is_hex c = true.
Proof. intros H. unfold is_hex, is_lower_hex. by rewrite H. Qed.
Lemma lower_hex c : is_lower_hex c = true -> is_hex c = true.
Proof. intros H. unfold is_hex. by rewrite H. Qed.

Lemma string_length_chars s : String.length s = List.length (chars s).
Proof. induction s; simpl; [done|]. by f_equal. Qed.

(** A text between two hexadecimal digits, as a list. *)
Lemma filled_ends s c t d : chars s = c :: t ++ [d] -> is_hex c = true -> is_hex d = true -> filled s.
Proof. intros E Hc Hd. rewrite <-(of_chars_chars s), E. by apply filled_hex. Qed.

Lemma digest_match s : MatchString sha256Re s = true <-> digest_text s.
Proof.
  unfold MatchString, sha256Re, digest_text. rewrite matches_lang, lang_times_chr. by rewrite string_length_chars.
Qed.

Lemma digest_filled s : digest_text s -> filled s.
Proof.
  intros [Hl Hf]. rewrite string_length_chars in Hl. destruct (chars s) as [|c t] eqn:E; [done|].
  destruct t as [|d t _] using rev_ind; [done|].
  apply Forall_cons in Hf as [Hc Hf]. apply Forall_app in Hf as [_ Hd]. rewrite Forall_singleton in Hd.
  eapply filled_ends; [done|by apply lower_hex..].
Qed.

Lemma peer_match s : MatchString peerRe s = true <-> peer_text s.
Proof.
  unfold MatchString, peerRe, peer_text. rewrite matches_lang, lang_cat_inv. setoid_rewrite lang_times_chr. split.
  - intros (id & r1 & E & [Hl Hid] & H). apply lang_cat_inv in H as (a & r2 & -> & Ha & H).
    apply lang_chr_inv in Ha as (ca & -> & Hca). apply bool_decide_eq_true in Hca as ->.
    apply lang_cat_inv in H as (host & r3 & -> & Hh & H). apply lang_plus_chr in Hh as [Hhne Hh].
    apply lang_cat_inv in H as (b & port & -> & Hb & H). apply lang_plus_chr in H as [Hpne Hp].
    apply lang_chr_inv in Hb as (cb & -> & Hcb). apply bool_decide_eq_true in Hcb as ->.
    exists (of_chars id), (of_chars host), (of_chars port). rewrite string_length_chars, !chars_of_chars.
    split_and!; try done.
    + apply chars_inj. by rewrite E, !chars_app, !chars_of_chars.
    + intros Hn. by apply (f_equal chars) in Hn; rewrite chars_of_chars in Hn.
    + intros Hn. by apply (f_equal chars) in Hn; rewrite chars_of_chars in Hn.
  - intros (id & host & port & -> & Hl & Hid & Hhne & Hh & Hpne & Hp). rewrite string_length_chars in Hl.
    rewrite !chars_app. exists (chars id), (["@"%char] ++ chars host ++ [":"%char] ++ chars port).
    split; [done|]. split; [done|].
    constructor; [by constructor|]. constructor.
    { apply lang_plus_chr. split; [|done]. intros E. by apply Hhne, chars_inj. }
    constructor; [by constructor|]. apply lang_plus_chr. split; [|done]. intros E. by apply Hpne, chars_inj.
Qed.

Lemma peer_filled s : peer_text s -> filled s.
Proof.
  intros (id & host & port & -> & Hl & Hid & Hhne & Hh & Hpne & Hp). rewrite string_length_chars in Hl.
  destruct (chars id) as [|c t] eqn:E; [done|]. apply Forall_cons in Hid as [Hc _].
  destruct (@exists_last _ (chars port)) as (t' & d & E'); [intros E'; by apply Hpne, chars_inj|].
  rewrite E' in Hp. apply Forall_app in Hp as [_ Hd]. rewrite Forall_singleton in Hd.
  eapply (filled_ends _ c (t ++ ["@"%char] ++ chars host ++ [":"%char] ++ t') d); [|done|by apply digit_hex].
  rewrite !chars_app, E, E', <-!app_assoc. reflexivity.
Qed.

Lemma check_peer_nil path i s : check_peer path i s = [] <-> peer_text s.
Proof.
  unfold check_peer. rewrite app_nil, requireString_nil, fail_if_nil, andb_false_iff, negb_false_iff, peer_match.
  split; [|intros H; split; [by apply peer_filled|by right]].
  intros [Hf [H|H]]; [|done]. by rewrite filled_to_parse in H.
Qed.

Lemma check_digest_nil path s :
  requireString path s = [] /\ (if to_parse s && negb (MatchString sha256Re s) then fail path Invalid else []) = [] <->
  digest_text s.
Proof.
  rewrite requireString_nil, fail_if_nil, andb_false_iff, negb_false_iff, digest_match.
  split; [|intros H; split; [by apply digest_filled|by right]].
  intros [Hf [H|H]]; [|done]. by rewrite filled_to_parse in H.
Qed.

Lemma check_endpoint_nil i ep : check_endpoint i ep = [] <->
  ep_Kind ep ∈ ["rpc"; "rest"; "grpc"] /\ filled (ep_URL ep) /\ filled (ep_Provider ep).
Proof.
  unfold check_endpoint. rewrite !app_nil, !requireString_nil. case_bool_decide as Hk; cbn [fail].
  - split; [|intros (H & ? & ?); split_and!; try done].
    + intros (Hf & Hu & Hp & _). split_and!; try done.
      apply elem_of_cons in Hk as [E|Hk]; [|done]. by destruct Hf as [[] _]; rewrite E.
    + repeat (apply elem_of_cons in H as [->|H]; [by split|]). by apply not_elem_of_nil in H.
  - split; [naive_solver|]. intros (H & _). destruct Hk. by apply elem_of_cons; right.
Qed.

(** The type check, with the requirement that the type is filled. *)
Lemma check_type_nil p s :
  requireString p s = [] /\
  (if negb (empty s) && negb (bool_decide (s = "mainnet")) && negb (bool_decide (s = "testnet")) then fail p Invalid else []) = [] <->
  s = "mainnet" \/ s = "testnet".
Proof.
  rewrite requireString_nil, fail_if_nil, !andb_false_iff, !negb_false_iff, !bool_decide_eq_true. split.
  - intros [Hf [[H|H]|H]]; [|by left|by right]. destruct Hf as [[] _]. by rewrite (bool_decide_eq_true_1 _ H).
  - intros [-> | ->]; (split; [split; [discriminate|reflexivity]|]); tauto.
Qed.

Lemma check_explorer_nil p (mainnet : bool) s :
  (if mainnet || negb (empty s) then requireString p s else []) = [] <-> filled s \/ (mainnet = false /\ s = "").
Proof.
  unfold GoStrings.empty. destruct mainnet; cbn [orb]; [rewrite requireString_nil; naive_solver|].
  case_bool_decide as E; cbn [negb]; [naive_solver|]. rewrite requireString_nil. naive_solver.
Qed.

Definition for_endpoints l := for_each_nil l _ _ check_endpoint_nil.
Definition for_peers path l := for_each_nil l _ _ (check_peer_nil path).
Lemma for_filled p l : for_each l (fun i d => requireString (indexed p i) d) = [] <-> Forall filled l.
Proof. apply for_each_nil. intros. apply requireString_nil. Qed.

(** Opens a conjunction of checks, and reads each one. *)
Ltac open_checks :=
  repeat match goal with
  | H : _ ++ _ = [] |- _ => apply app_nil in H as [? H]
  | H : requireString _ _ = [] |- _ => apply requireString_nil in H
  | H : requirePositive _ _ = [] |- _ => apply requirePositive_nil in H
  | H : optionalString _ _ = [] |- _ => apply optionalString_nil in H
  | H : for_each _ check_endpoint = [] |- _ => apply for_endpoints in H
  | H : for_each _ (check_peer _) = [] |- _ => apply for_peers in H
  | H : for_each _ _ = [] |- _ => apply for_filled in H
  | H : (if _ then fail _ _ else []) = [] |- _ => apply fail_if_nil in H
  end.

Lemma validate_sound m : validate m = [] -> wellformed m.
Proof.
  intros H.
  assert (nm_NetworkType m = "mainnet" \/ nm_NetworkType m = "testnet") as Htype.
  { unfold validate in H. cbv zeta in H. repeat apply app_nil in H as [? H]. eapply check_type_nil; split; eassumption. }
  assert (digest_text (mg_SHA256 (nm_Genesis m))) as Hdig.
  { unfold validate in H. cbv zeta in H. repeat apply app_nil in H as [? H]. eapply check_digest_nil; split; eassumption. }
  unfold validate in H. cbv zeta in H. open_checks.
  split; try done; unfold required_strings, required_numbers.
  - repeat (apply Forall_cons_2; [assumption|]). apply Forall_nil_2.
  - repeat (apply Forall_cons_2; [assumption|]). apply Forall_nil_2.
  - split; eapply check_coin_nil; eassumption.
  - eapply check_adjustment_nil; eassumption.
  - split; [|done]. by eapply bool_decide_eq_false_1.
  - by eapply bool_decide_eq_false_1.
  - by apply Forall_app.
  - edestruct check_explorer_nil as [[?|[E ?]] _]; [eassumption|by left|right].
    apply bool_decide_eq_false_1 in E. naive_solver.
  - by apply Forall_app.
  - split; [done|]. intros E. rewrite E in *.
    apply andb_false_iff in H as [H|H]; [by apply bool_decide_eq_false_1 in H|].
    by apply negb_false_iff, bool_decide_eq_true_1 in H.
Qed.

Lemma validate_complete m : wellformed m -> validate m = [].
Proof.
  intros [Hs Hn Htype [Hp1 Hp2] Hadj Hdig [He Hes] Hse Hpeers Hex Hopt [Hdiv Hmain]].
  apply Forall_app in Hpeers as [Hseeds Hpp]. apply Forall_app in Hopt as [Hf Hst].
  pose proof (proj2 (check_type_nil "network_type" _) Htype) as [Ht1 Ht2].
  pose proof (proj2 (check_digest_nil "genesis.sha256" _) Hdig) as [Hd1 Hd2].
  unfold required_strings, required_numbers in *.
  repeat apply Forall_cons in Hs as [? Hs]. repeat apply Forall_cons in Hn as [? Hn].
  unfold validate. cbv zeta.
  repeat match goal with |- _ ++ _ = [] => apply app_nil; split end;
    first [assumption | apply requireString_nil; assumption | apply requirePositive_nil; assumption
          | apply optionalString_nil; assumption | apply for_endpoints; assumption | apply for_peers; assumption
          | apply for_filled; assumption | apply check_coin_nil; assumption | apply check_adjustment_nil; assumption
          | apply fail_if_nil, bool_decide_eq_false_2; assumption | idtac].
  - apply check_explorer_nil. destruct Hex as [?|[E ?]]; [by left|right]. split; [|done]. by rewrite E.
  - apply fail_if_nil, andb_false_iff. destruct Htype as [E|E]; [right; by rewrite Hmain|left; by rewrite E].
Qed.

Lemma ParseManifest_ok data m : ParseManifest data = Ok m <->
  yaml_probe data = Some (Some SupportedManifestSchemaMajor) /\ yaml_manifest data = Some m /\ validate m = [].
Proof.
  unfold ParseManifest. split.
  - destruct (yaml_probe data) as [[v|]|]; try done. destruct (Z.eqb_spec v SupportedManifestSchemaMajor) as [->|]; [|done].
    cbn [negb]. destruct (yaml_manifest data) as [m'|]; [|done].
    destruct (validate m') eqn:E; [|done]. by intros [= ->].
  - intros (-> & -> & ->). by rewrite Z.eqb_refl.
Qed.

Lemma accepted_wellformed data m : ParseManifest data = Ok m -> wellformed m.
Proof. intros H. apply ParseManifest_ok in H as (_ & _ & H). by apply validate_sound. Qed.

(** C29: [ParseManifest] accepts a document exactly when its schema version is
    the supported one, it decodes strictly, and the manifest is well formed: no
    required value is blank or a placeholder, the network type is mainnet or
    testnet, the gas prices, the adjustment, the genesis digest, the endpoint
    kinds and every peer have their form, and a mainnet manifest has an explorer
    and no divergences. *)
Theorem manifest_accepted_iff_wellformed (data : bytes) (m : NetworkManifest) :
  ParseManifest data = Ok m <->
  yaml_probe data = Some (Some SupportedManifestSchemaMajor) /\ yaml_manifest data = Some m /\ wellformed m.
Proof.
  rewrite ParseManifest_ok. split; intros (? & ? & ?); split_and!; try done; [by apply validate_sound|by apply validate_complete].
Qed.

End validate.
End Manifest.
