(* ===== verification/Database.v ===== *)
(** * Database: tables, statements and the integrity constraints

    The SQL database under [go/storage/internal/sqlstore]: one list of rows
    per table, in insertion order, so that the auto-increment id of a row is
    its position plus one.  The statements the repositories issue are the
    generic operations below: an [INSERT] that fails on a unique-index hit, a
    [SELECT] by predicate with its [ORDER BY] and [LIMIT], an
    [UPDATE ... WHERE].  A failed statement changes nothing and leaves the
    transaction usable (SQLite); rows are never deleted.

    [now] is the wall clock the repositories stamp rows with. *)

From stdpp Require Import base list strings.
From Stdlib Require Import ZArith Lia Sorting.Permutation.
From S2P Require Import Prelude Storage.

Record Store : Type := MkStore {
  st_ledger : list LedgerEntry;
  st_feeOutflows : list FeeOutflow;
  st_feeFundingSpends : list FeeFundingSpend;
  st_deposits : list DepositRecord;
  st_checkpoints : list ScannerCheckpoint;
  st_withdrawals : list WithdrawalRecord;
  st_sequences : list SequenceReservation;
  st_sweeps : list SweepJob;
  st_watched : list WatchedAddress;
  st_controls : list OperationalControls;
  st_audit : list ControlsAuditEntry;
  st_chainReviews : list ChainReviewCondition;
  st_reviews : list ReviewItem;
  st_reports : list ReconciliationReport;
  st_outbox : list OutboxEvent;
  st_now : Z }.

Definition empty_store (t : Z) : Store :=
  MkStore [] [] [] [] [] [] [] [] [] [] [] [] [] [] [] t.

Notation db := (tx Store err).

(** ** Tables *)

Class Table (R : Type) : Type := {
  rows : Store -> list R;
  set_rows : list R -> Store -> Store;
  rows_set : forall l s, rows (set_rows l s) = l;
  now_set : forall l s, st_now (set_rows l s) = st_now s }.

Local Ltac table := by intros ? [].

#[refine] Instance ledger_table : Table LedgerEntry := {
  rows := st_ledger;
  set_rows l '(MkStore _ b c d e f g h i j k m n o p t) := MkStore l b c d e f g h i j k m n o p t }.
Proof. all: table. Defined.
#[refine] Instance feeOutflows_table : Table FeeOutflow := {
  rows := st_feeOutflows;
  set_rows l '(MkStore a _ c d e f g h i j k m n o p t) := MkStore a l c d e f g h i j k m n o p t }.
Proof. all: table. Defined.
#[refine] Instance feeFundingSpends_table : Table FeeFundingSpend := {
  rows := st_feeFundingSpends;
  set_rows l '(MkStore a b _ d e f g h i j k m n o p t) := MkStore a b l d e f g h i j k m n o p t }.
Proof. all: table. Defined.
#[refine] Instance deposits_table : Table DepositRecord := {
  rows := st_deposits;
  set_rows l '(MkStore a b c _ e f g h i j k m n o p t) := MkStore a b c l e f g h i j k m n o p t }.
Proof. all: table. Defined.
#[refine] Instance checkpoints_table : Table ScannerCheckpoint := {
  rows := st_checkpoints;
  set_rows l '(MkStore a b c d _ f g h i j k m n o p t) := MkStore a b c d l f g h i j k m n o p t }.
Proof. all: table. Defined.
#[refine] Instance withdrawals_table : Table WithdrawalRecord := {
  rows := st_withdrawals;
  set_rows l '(MkStore a b c d e _ g h i j k m n o p t) := MkStore a b c d e l g h i j k m n o p t }.
Proof. all: table. Defined.
#[refine] Instance sequences_table : Table SequenceReservation := {
  rows := st_sequences;
  set_rows l '(MkStore a b c d e f _ h i j k m n o p t) := MkStore a b c d e f l h i j k m n o p t }.
Proof. all: table. Defined.
#[refine] Instance sweeps_table : Table SweepJob := {
  rows := st_sweeps;
  set_rows l '(MkStore a b c d e f g _ i j k m n o p t) := MkStore a b c d e f g l i j k m n o p t }.
Proof. all: table. Defined.
#[refine] Instance watched_table : Table WatchedAddress := {
  rows := st_watched;
  set_rows l '(MkStore a b c d e f g h _ j k m n o p t) := MkStore a b c d e f g h l j k m n o p t }.
Proof. all: table. Defined.
#[refine] Instance controls_table : Table OperationalControls := {
  rows := st_controls;
  set_rows l '(MkStore a b c d e f g h i _ k m n o p t) := MkStore a b c d e f g h i l k m n o p t }.
Proof. all: table. Defined.
#[refine] Instance audit_table : Table ControlsAuditEntry := {
  rows := st_audit;
  set_rows l '(MkStore a b c d e f g h i j _ m n o p t) := MkStore a b c d e f g h i j l m n o p t }.
Proof. all: table. Defined.
#[refine] Instance chainReviews_table : Table ChainReviewCondition := {
  rows := st_chainReviews;
  set_rows l '(MkStore a b c d e f g h i j k _ n o p t) := MkStore a b c d e f g h i j k l n o p t }.
Proof. all: table. Defined.
#[refine] Instance reviews_table : Table ReviewItem := {
  rows := st_reviews;
  set_rows l '(MkStore a b c d e f g h i j k m _ o p t) := MkStore a b c d e f g h i j k m l o p t }.
Proof. all: table. Defined.
#[refine] Instance reports_table : Table ReconciliationReport := {
  rows := st_reports;
  set_rows l '(MkStore a b c d e f g h i j k m n _ p t) := MkStore a b c d e f g h i j k m n l p t }.
Proof. all: table. Defined.
#[refine] Instance outbox_table : Table OutboxEvent := {
  rows := st_outbox;
  set_rows l '(MkStore a b c d e f g h i j k m n o _ t) := MkStore a b c d e f g h i j k m n o l t }.
Proof. all: table. Defined.

(** ** Statements *)

(** A unique index: the key of a row, [None] when the row is outside a
    partial index or the column is NULL. *)
Definition hits {R K} `{EqDecision K} (key : R -> option K) (new r : R) : bool :=
  match key new, key r with
  | Some a, Some b => bool_decide (a = b)
  | _, _ => false
  end.

(** A unique index and the error [MapError] makes of a hit on it; the first
    index hit, in the order the database tests them, decides the error. *)
Definition index (R : Type) : Type := (R -> R -> bool) * err.
Definition unique {R K} `{EqDecision K} (key : R -> option K) : index R := (hits key, ErrDuplicate).
Definition violation {R} (new : R) (ixs : list (index R)) (l : list R) : option err :=
  option_map snd (List.find (fun ix => existsb (fst ix new) l) ixs).

Lemma violation_None {R} (new : R) ixs l :
  violation new ixs l = None <-> Forall (fun ix : index R => existsb (fst ix new) l = false) ixs.
Proof.
  unfold violation. induction ixs as [|ix ixs IH]; simpl.
  - split; [constructor | done].
  - rewrite Forall_cons. destruct (existsb (fst ix new) l); simpl.
    + split; [done | intros [? _]; done].
    + rewrite IH. tauto.
Qed.

Section statements.
Context {R : Type} `{Table R}.

(** [SELECT ... WHERE p], in insertion order. *)
Definition select_where (p : R -> bool) : db (list R) :=
  tx_get (fun s => List.filter p (rows s)).

(** [QueryRow(...).Scan], a missing row mapped by [notFound]. *)
Definition select_row (p : R -> bool) : db R :=
  fun s => match List.find p (rows s) with
           | Some r => (Ok r, s)
           | None => (Err ErrNotFound, s)
           end.

(** [INSERT ... RETURNING id] against the table's unique indexes. *)
Definition insert_row (mk : Z -> R) (ixs : list (index R)) : db R :=
  fun s =>
    let r := mk (Z.of_nat (S (List.length (rows s)))) in
    match violation r ixs (rows s) with
    | Some e => (Err e, s)
    | None => (Ok r, set_rows (rows s ++ [r]) s)
    end.

(** [UPDATE ... SET f WHERE p], returning the number of rows affected. *)
Definition update_where (p : R -> bool) (f : R -> R) : db nat :=
  fun s => (Ok (List.length (List.filter p (rows s))),
            set_rows (map (fun r => if p r then f r else r) (rows s)) s).

(** An [UPDATE] of at most one row that writes an indexed column. *)
Definition update_unique (p : R -> bool) (f : R -> R) (ix : index R) : db nat :=
  fun s => if existsb (fun t => p t && existsb (fun r => negb (p r) && fst ix (f t) r) (rows s)) (rows s)
           then (Err (snd ix), s)
           else update_where p f s.

(** [INSERT ... ON CONFLICT (key) DO UPDATE]. *)
Definition upsert_row (p : R -> bool) (f : R -> R) (new : R) : db unit :=
  fun s => (Ok tt, if existsb p (rows s)
                   then set_rows (map (fun r => if p r then f r else r) (rows s)) s
                   else set_rows (rows s ++ [new]) s).

(** [requireOneRow] and its siblings. *)
Definition require_rows (n : nat) (e : err) : db unit := tx_require (0 <? n)%nat e.
End statements.

(** [ORDER BY] with the comparison [le] of the sort keys, ties in insertion
    order. *)
Fixpoint insert_by {R} (le : R -> R -> bool) (x : R) (l : list R) : list R :=
  match l with
  | [] => [x]
  | y :: l' => if le x y then x :: y :: l' else y :: insert_by le x l'
  end.
Fixpoint order_by {R} (le : R -> R -> bool) (l : list R) : list R :=
  match l with
  | [] => []
  | x :: l' => insert_by le x (order_by le l')
  end.

(** [LIMIT n], absent when [n] is not positive. *)
Definition limit {R} (n : Z) (l : list R) : list R :=
  if (0 <? n)%Z then take (Z.to_nat n) l else l.

Lemma insert_by_perm {R} le (x : R) l : insert_by le x l ≡ₚ x :: l.
Proof.
  induction l as [|y l IH]; simpl; [done|]. destruct (le x y); [done|].
  rewrite IH. apply Permutation_swap.
Qed.
Lemma order_by_perm {R} le (l : list R) : order_by le l ≡ₚ l.
Proof. induction l as [|x l IH]; simpl; [done|]. by rewrite insert_by_perm, IH. Qed.

Lemma elem_of_order_by {R} le (l : list R) x : x ∈ order_by le l <-> x ∈ l.
Proof. by rewrite order_by_perm. Qed.

(** ** Integrity constraints *)

(** Auto-increment ids are positions. *)
Definition ids_ok {R} (id : R -> Z) (l : list R) : Prop :=
  forall i r, l !! i = Some r -> id r = Z.of_nat (S i).

(** A unique index holds. *)
Definition uniq {R K} (key : R -> option K) (l : list R) : Prop :=
  forall i j r1 r2 k, l !! i = Some r1 -> l !! j = Some r2 ->
    key r1 = Some k -> key r2 = Some k -> i = j.

Section constraints.
Context {R : Type}.

Lemma ids_ok_nil (id : R -> Z) : ids_ok id [].
Proof. intros i r. by rewrite lookup_nil. Qed.
Lemma uniq_nil {K} (key : R -> option K) : uniq key [].
Proof. intros i j r1 r2 k. by rewrite lookup_nil. Qed.

Lemma ids_ok_app (id : R -> Z) l r :
  ids_ok id l -> id r = Z.of_nat (S (List.length l)) -> ids_ok id (l ++ [r]).
Proof.
  intros Hl Hr i r' Hi. apply lookup_app_Some in Hi as [Hi|[Hge Hi]]; [by apply Hl|].
  apply list_lookup_singleton_Some in Hi as [Hi ->]. rewrite Hr. f_equal. f_equal. lia.
Qed.
Lemma ids_ok_map (id : R -> Z) (f : R -> R) l :
  (forall r, r ∈ l -> id (f r) = id r) -> ids_ok id l -> ids_ok id (map f l).
Proof.
  intros Hf Hl i r Hi. rewrite list_lookup_fmap in Hi.
  destruct (l !! i) as [r'|] eqn:E; [|done]. injection Hi as <-.
  rewrite Hf by (by eapply list_elem_of_lookup_2). by apply Hl.
Qed.

Lemma hits_false {K} `{EqDecision K} (key : R -> option K) new l :
  existsb (hits key new) l = false <->
  forall r k, r ∈ l -> key r = Some k -> key new <> Some k.
Proof.
  rewrite <-not_true_iff_false, existsb_exists. split.
  - intros Hn r k Hr Hk Hnew. apply Hn. exists r. rewrite <-list_elem_of_In.
    split; [done|]. unfold hits. rewrite Hk, Hnew. by apply bool_decide_eq_true.
  - intros Hl (r & Hr & Hh). apply list_elem_of_In in Hr. unfold hits in Hh.
    destruct (key new) as [a|] eqn:Ha; [|done]. destruct (key r) as [b|] eqn:Hb; [|done].
    apply bool_decide_eq_true in Hh as ->. by eapply (Hl r b).
Qed.

Lemma hits_true {K} `{EqDecision K} (key : R -> option K) new l :
  existsb (hits key new) l = true -> exists r, r ∈ l /\ key r = key new /\ key new <> None.
Proof.
  intros (r & Hr & H)%existsb_exists. apply list_elem_of_In in Hr. exists r. unfold hits in H.
  destruct (key new) as [a|], (key r) as [b|] eqn:?; try done.
  by apply bool_decide_eq_true in H as ->.
Qed.

Lemma uniq_app {K} `{EqDecision K} (key : R -> option K) l new :
  uniq key l -> existsb (hits key new) l = false -> uniq key (l ++ [new]).
Proof.
  intros Hl Hh i j r1 r2 k H1 H2 Hk1 Hk2. rewrite hits_false in Hh.
  apply lookup_app_Some in H1 as [H1|[Hi H1]], H2 as [H2|[Hj H2]].
  - by eapply Hl.
  - apply list_lookup_singleton_Some in H2 as [_ ->].
    exfalso. eapply Hh; [by eapply list_elem_of_lookup_2|done..].
  - apply list_lookup_singleton_Some in H1 as [_ ->].
    exfalso. eapply Hh; [by eapply list_elem_of_lookup_2|exact Hk2|done].
  - apply list_lookup_singleton_Some in H1 as [H1 _], H2 as [H2 _]. lia.
Qed.

(** Any update that only shrinks the index (same key or out of it). *)
Lemma uniq_map {K} (key : R -> option K) (f : R -> R) l :
  (forall r k, r ∈ l -> key (f r) = Some k -> key r = Some k) ->
  uniq key l -> uniq key (map f l).
Proof.
  intros Hf Hl i j r1 r2 k H1 H2 Hk1 Hk2.
  rewrite !list_lookup_fmap in H1, H2.
  destruct (l !! i) as [a|] eqn:Ea; [|done]. destruct (l !! j) as [b|] eqn:Eb; [|done].
  injection H1 as <-. injection H2 as <-.
  eapply Hl; [done..| |]; apply Hf; eauto using list_elem_of_lookup_2.
Qed.

(** An update of the one row that satisfies [p] to a key no other row has. *)
Lemma uniq_update_one {K} `{EqDecision K} (key : R -> option K) (p : R -> bool) (f : R -> R) l :
  (forall i j r1 r2, l !! i = Some r1 -> l !! j = Some r2 -> p r1 = true -> p r2 = true -> i = j) ->
  (forall r r' k, r ∈ l -> p r = true -> r' ∈ l -> p r' = false -> key (f r) = Some k ->
     key r' <> Some k) ->
  uniq key l -> uniq key (map (fun r => if p r then f r else r) l).
Proof.
  intros Hp Hf Hl i j r1 r2 k H1 H2 Hk1 Hk2.
  rewrite !list_lookup_fmap in H1, H2.
  destruct (l !! i) as [a|] eqn:Ea; [|done]. destruct (l !! j) as [b|] eqn:Eb; [|done].
  simpl in H1, H2. pose proof (list_elem_of_lookup_2 _ _ _ Ea). pose proof (list_elem_of_lookup_2 _ _ _ Eb).
  destruct (p a) eqn:Pa, (p b) eqn:Pb; injection H1 as <-; injection H2 as <-.
  - by eapply Hp.
  - exfalso. by eapply (Hf a b).
  - exfalso. by eapply (Hf b a).
  - by eapply Hl.
Qed.

(** A row is found by its unique key. *)
Lemma uniq_find {K} `{EqDecision K} (key : R -> option K) (p : R -> bool) l r k :
  uniq key l -> r ∈ l -> key r = Some k -> (forall x, p x = true <-> key x = Some k) ->
  List.find p l = Some r.
Proof.
  intros Hu Hr Hk Hp. destruct (List.find p l) as [r'|] eqn:Hf.
  - apply List.find_some in Hf as [Hin Hpr]. apply list_elem_of_In in Hin. apply Hp in Hpr.
    apply list_elem_of_lookup_1 in Hin as [i Hi]. apply list_elem_of_lookup_1 in Hr as [j Hj].
    assert (i = j) by (eapply Hu; eauto). congruence.
  - exfalso. apply list_elem_of_In in Hr. pose proof (List.find_none _ _ Hf r Hr) as Hn.
    rewrite (proj2 (Hp r) Hk) in Hn. done.
Qed.

Lemma find_elem (p : R -> bool) l r : List.find p l = Some r -> r ∈ l /\ p r = true.
Proof. intros [Hin Hp]%List.find_some. by rewrite <-list_elem_of_In in Hin. Qed.

Lemma find_id (id : R -> Z) l i r :
  ids_ok id l -> l !! i = Some r ->
  List.find (fun x => Z.eqb (id x) (Z.of_nat (S i))) l = Some r.
Proof.
  intros Hl Hi.
  apply (uniq_find (fun x => Some (id x)) _ l r (Z.of_nat (S i))).
  - intros a b r1 r2 k Ha Hb [= <-] [= E]. rewrite (Hl _ _ Ha), (Hl _ _ Hb) in E. lia.
  - by eapply list_elem_of_lookup_2.
  - by rewrite (Hl _ _ Hi).
  - intros x. rewrite Z.eqb_eq. split; congruence.
Qed.

Lemma ids_ok_inj (id : R -> Z) l r1 r2 :
  ids_ok id l -> r1 ∈ l -> r2 ∈ l -> id r1 = id r2 -> r1 = r2.
Proof.
  intros Hl [i Hi]%list_elem_of_lookup_1 [j Hj]%list_elem_of_lookup_1 E.
  rewrite (Hl _ _ Hi), (Hl _ _ Hj) in E. assert (i = j) as -> by lia. congruence.
Qed.
End constraints.
