(* ===== verification/SqlLaws.v ===== *)
(** * SqlLaws: the schema invariant and the contracts of the repositories

    [schema_ok] collects the unique indexes, the auto-increment ids and the
    CHECK constraints of [storage/migrations].  [Schema] says, for one row
    type, which part of it is that table's; it is what the generic statement
    lemmas ([insert_keeps], [update_keeps]) are proved against, and each table
    provides an instance.  The [_eq] lemmas give every status update as one
    equation covering all of its error branches; the workflows are verified
    against those. *)

From stdpp Require Import base list strings.
From Stdlib Require Import ZArith Lia String.
From S2P Require Import Prelude Text Storage Database SqlStore.
Import SqlStore.

Open Scope string_scope.
Open Scope list_scope.
Open Scope Z_scope.

Module SqlLaws.

(** ** The schema *)

Definition prior_ok (d : DepositRecord) : Prop :=
  d_Status d = DepositSuspended <-> d_PriorStatus d <> None.

Definition ledger_ok (l : list LedgerEntry) : Prop :=
  ids_ok e_ID l /\ uniq ledger_tx_key l /\ uniq ledger_block_key l.
Definition feeOutflows_ok (l : list FeeOutflow) : Prop := ids_ok fo_ID l /\ uniq fee_outflow_key l.
Definition feeFundingSpends_ok (l : list FeeFundingSpend) : Prop :=
  ids_ok fs_ID l /\ uniq funding_spend_key l.
Definition deposits_ok (l : list DepositRecord) : Prop :=
  ids_ok d_ID l /\ uniq deposit_key l /\ Forall prior_ok l.
Definition checkpoints_ok (l : list ScannerCheckpoint) : Prop := uniq (fun c => Some (cp_ChainID c)) l.
Definition withdrawals_ok (l : list WithdrawalRecord) : Prop :=
  uniq withdrawal_id_key l /\ uniq withdrawal_idem_key l.
Definition sequences_ok (l : list SequenceReservation) : Prop :=
  ids_ok r_ID l /\ uniq slot_key l /\ uniq work_key l.
Definition sweeps_ok (l : list SweepJob) : Prop :=
  uniq sweep_id_key l /\ uniq sweep_idem_key l /\ uniq sweep_active_key l.
Definition watched_ok (l : list WatchedAddress) : Prop :=
  uniq (fun w => Some (wa_ChainID w, wa_Address w)) l.
Definition controls_ok (l : list OperationalControls) : Prop := uniq (fun c => Some (oc_ChainID c)) l.
Definition audit_ok (l : list ControlsAuditEntry) : Prop := ids_ok ca_ID l.
Definition chainReviews_ok (l : list ChainReviewCondition) : Prop := uniq condition_key l.
Definition reviews_ok (l : list ReviewItem) : Prop := ids_ok ri_ID l.
Definition reports_ok (l : list ReconciliationReport) : Prop := uniq report_key l.
Definition outbox_ok (l : list OutboxEvent) : Prop := ids_ok ob_ID l /\ uniq outbox_key l.

Record schema_ok (s : Store) : Prop := SchemaOk {
  so_ledger : ledger_ok (st_ledger s);
  so_feeOutflows : feeOutflows_ok (st_feeOutflows s);
  so_feeFundingSpends : feeFundingSpends_ok (st_feeFundingSpends s);
  so_deposits : deposits_ok (st_deposits s);
  so_checkpoints : checkpoints_ok (st_checkpoints s);
  so_withdrawals : withdrawals_ok (st_withdrawals s);
  so_sequences : sequences_ok (st_sequences s);
  so_sweeps : sweeps_ok (st_sweeps s);
  so_watched : watched_ok (st_watched s);
  so_controls : controls_ok (st_controls s);
  so_audit : audit_ok (st_audit s);
  so_chainReviews : chainReviews_ok (st_chainReviews s);
  so_reviews : reviews_ok (st_reviews s);
  so_reports : reports_ok (st_reports s);
  so_outbox : outbox_ok (st_outbox s) }.

Lemma empty_schema_ok t : schema_ok (empty_store t).
Proof.
  split; simpl; repeat split; try apply ids_ok_nil; try apply uniq_nil. constructor.
Qed.

(** What one table contributes to the schema. *)
Class Schema (R : Type) `{Table R} : Type := {
  table_ok : list R -> Prop;
  schema_get : forall s, schema_ok s -> table_ok (rows s);
  schema_set : forall l s, schema_ok s -> table_ok l -> schema_ok (set_rows l s) }.

Local Ltac schema :=
  first [ intros ? []; assumption
        | intros ? [] [] ?; split; assumption ].

#[refine] Instance ledger_schema : Schema LedgerEntry := { table_ok := ledger_ok }.
Proof. all: schema. Defined.
#[refine] Instance feeOutflows_schema : Schema FeeOutflow := { table_ok := feeOutflows_ok }.
Proof. all: schema. Defined.
#[refine] Instance feeFundingSpends_schema : Schema FeeFundingSpend := { table_ok := feeFundingSpends_ok }.
Proof. all: schema. Defined.
#[refine] Instance deposits_schema : Schema DepositRecord := { table_ok := deposits_ok }.
Proof. all: schema. Defined.
#[refine] Instance checkpoints_schema : Schema ScannerCheckpoint := { table_ok := checkpoints_ok }.
Proof. all: schema. Defined.
#[refine] Instance withdrawals_schema : Schema WithdrawalRecord := { table_ok := withdrawals_ok }.
Proof. all: schema. Defined.
#[refine] Instance sequences_schema : Schema SequenceReservation := { table_ok := sequences_ok }.
Proof. all: schema. Defined.
#[refine] Instance sweeps_schema : Schema SweepJob := { table_ok := sweeps_ok }.
Proof. all: schema. Defined.
#[refine] Instance watched_schema : Schema WatchedAddress := { table_ok := watched_ok }.
Proof. all: schema. Defined.
#[refine] Instance controls_schema : Schema OperationalControls := { table_ok := controls_ok }.
Proof. all: schema. Defined.
#[refine] Instance audit_schema : Schema ControlsAuditEntry := { table_ok := audit_ok }.
Proof. all: schema. Defined.
#[refine] Instance chainReviews_schema : Schema ChainReviewCondition := { table_ok := chainReviews_ok }.
Proof. all: schema. Defined.
#[refine] Instance reviews_schema : Schema ReviewItem := { table_ok := reviews_ok }.
Proof. all: schema. Defined.
#[refine] Instance reports_schema : Schema ReconciliationReport := { table_ok := reports_ok }.
Proof. all: schema. Defined.
#[refine] Instance outbox_schema : Schema OutboxEvent := { table_ok := outbox_ok }.
Proof. all: schema. Defined.

(** ** Statements keep the schema *)

(** The invariant as a relation, so that [preserves] composes it. *)
Definition keeps_schema (s s' : Store) : Prop := schema_ok s -> schema_ok s'.

#[export] Instance keeps_schema_preorder : PreOrder keeps_schema.
Proof. split; [intros s Hs; exact Hs | intros a b c Hab Hbc Ha; by apply Hbc, Hab]. Qed.

Notation keeps := (preserves keeps_schema).

Section statement_laws.
Context {R : Type} `{Schema R}.

Lemma select_where_keeps (p : R -> bool) : keeps (select_where p).
Proof. intros s. done. Qed.
Lemma select_row_keeps (p : R -> bool) : keeps (select_row p).
Proof. intros s. unfold select_row. by destruct (List.find p (rows s)). Qed.
Lemma insert_keeps (mk : Z -> R) ixs :
  (forall l, table_ok l -> let r := mk (Z.of_nat (S (List.length l))) in
     Forall (fun ix : index R => existsb (fst ix r) l = false) ixs -> table_ok (l ++ [r])) ->
  keeps (insert_row mk ixs).
Proof.
  intros Hmk s Hs. unfold insert_row. destruct (violation _ _ _) eqn:E; simpl; [done|].
  apply schema_set; [done|]. apply Hmk; [by apply schema_get | by apply violation_None].
Qed.
Lemma update_keeps (p : R -> bool) (f : R -> R) :
  (forall l, table_ok l -> table_ok (map (fun r => if p r then f r else r) l)) ->
  keeps (update_where p f).
Proof. intros Hf s Hs. simpl. apply schema_set; [done|]. by apply Hf, schema_get. Qed.
Lemma update_unique_keeps (p : R -> bool) (f : R -> R) ix :
  (forall l, table_ok l ->
     (forall t r, t ∈ l -> r ∈ l -> p t = true -> p r = false -> fst ix (f t) r = false) ->
     table_ok (map (fun r => if p r then f r else r) l)) ->
  keeps (update_unique p f ix).
Proof.
  intros Hf s Hs. unfold update_unique. destruct (existsb _ _) eqn:E; [done|].
  apply schema_set; [done|]. apply Hf; [by apply schema_get|].
  intros t r Ht Hr Hpt Hpr. apply not_true_iff_false. intros Hx.
  apply not_true_iff_false in E. apply E, existsb_exists. exists t.
  rewrite <-list_elem_of_In, Hpt. split; [done|]. apply existsb_exists. exists r.
  by rewrite <-list_elem_of_In, Hpr, Hx.
Qed.
Lemma upsert_keeps (p : R -> bool) (f : R -> R) new :
  (forall l, table_ok l -> table_ok (map (fun r => if p r then f r else r) l)) ->
  (forall l, table_ok l -> existsb p l = false -> table_ok (l ++ [new])) ->
  keeps (upsert_row p f new).
Proof.
  intros Hf Hn s Hs. unfold upsert_row. simpl.
  destruct (existsb p (rows s)) eqn:E; apply schema_set; try done.
  - by apply Hf, schema_get.
  - apply Hn; [by apply schema_get | done].
Qed.
End statement_laws.

(** Decompose a method into its statements. *)
Ltac tx_steps :=
  repeat first
    [ apply preserves_ret | apply preserves_fail | apply preserves_get
    | apply preserves_require | apply preserves_check | apply preserves_of
    | apply select_where_keeps | apply select_row_keeps
    | apply preserves_with_tx | apply preserves_try
    | apply preserves_guard; [typeclasses eauto|let H := fresh "Hg" in intros H]
    | apply preserves_checked; [typeclasses eauto|let H := fresh "Hv" in intros H]
    | apply preserves_bind; [typeclasses eauto| |intros ?]
    | apply preserves_for; [typeclasses eauto|intros ?]
    | match goal with |- preserves _ (match ?x with _ => _ end) => destruct x end
    | match goal with |- preserves _ (if ?x then _ else _) => destruct x end
    | match goal with |- PreOrder _ => typeclasses eauto end ].

(** A keyed [WHERE] test as a unique-index test. *)
Lemma existsb_key {A K} `{EqDecision K} (key : A -> K) new l :
  existsb (fun r => bool_decide (key r = key new)) l = false ->
  existsb (hits (fun r => Some (key r)) new) l = false.
Proof.
  intros H. rewrite hits_false. intros r k Hr [= <-] [= E].
  rewrite <-not_true_iff_false, existsb_exists in H. apply H. exists r.
  rewrite <-list_elem_of_In. split; [done|]. by apply bool_decide_eq_true.
Qed.

Lemma update_if {A B} (p : A -> bool) (f : A -> A) (g : A -> B) r :
  g (f r) = g r -> g (if p r then f r else r) = g r.
Proof. by destruct (p r). Qed.

(** An update that touches no key. *)
Lemma uniq_update {A K} (key : A -> option K) (p : A -> bool) f l :
  (forall r, key (f r) = key r) -> uniq key l -> uniq key (map (fun r => if p r then f r else r) l).
Proof. intros Hf. apply uniq_map. intros r k _. by rewrite update_if. Qed.
Lemma ids_ok_update {A} (id : A -> Z) (p : A -> bool) f l :
  (forall r, id (f r) = id r) -> ids_ok id l -> ids_ok id (map (fun r => if p r then f r else r) l).
Proof. intros Hf. apply ids_ok_map. intros r _. by rewrite update_if. Qed.

(** Replacing the row of one key by a row with that key. *)
Lemma uniq_replace {A K} `{EqDecision K} (key : A -> K) new l :
  uniq (fun r => Some (key r)) l ->
  uniq (fun r => Some (key r)) (map (fun r => if bool_decide (key r = key new) then new else r) l).
Proof.
  apply uniq_map. intros r k _. case_bool_decide as E; [|done]. by rewrite E.
Qed.

Ltac idx :=
  repeat match goal with
    | H : Forall _ (_ :: _) |- _ => apply Forall_cons in H as [? H]
    end; simpl in *;
  repeat first
    [ apply ids_ok_app | apply uniq_app; [|assumption] | apply ids_ok_update; [done|]
    | apply uniq_update; [done|] | assumption | done ].

(** ** Every method keeps the schema *)

Lemma Ledger_Append_keeps e : keeps (Ledger_Append e).
Proof.
  unfold Ledger_Append, fmtTime. tx_steps. apply insert_keeps. intros l (Hi & Hu & Hb) r Hc. split_and!; idx.
Qed.
Lemma AppendFeeOutflow_keeps f : keeps (Ledger_AppendFeeOutflow f).
Proof.
  unfold Ledger_AppendFeeOutflow, fmtTime. tx_steps. apply insert_keeps. intros l (Hi & Hu) r Hc.
  split; idx.
Qed.
Lemma AppendFeeFundingSpend_keeps f : keeps (Ledger_AppendFeeFundingSpend f).
Proof.
  unfold Ledger_AppendFeeFundingSpend, fmtTime. tx_steps. apply insert_keeps. intros l (Hi & Hu) r Hc.
  split; idx.
Qed.
Lemma Checkpoints_Set_keeps c : keeps (Checkpoints_Set c).
Proof.
  unfold Checkpoints_Set, fmtTime. tx_steps. apply upsert_keeps.
  - intros l. apply (uniq_replace cp_ChainID (MkCheckpoint (cp_ChainID c) _ _ _)).
  - intros l Hl Hc. apply uniq_app; [done|].
    apply (existsb_key cp_ChainID (MkCheckpoint (cp_ChainID c) _ _ _)), Hc.
Qed.
Lemma Withdrawals_Create_keeps w : keeps (Withdrawals_Create w).
Proof.
  unfold Withdrawals_Create, fmtTime. tx_steps. apply insert_keeps. intros l (Hi & Hu) r Hc. split; idx.
Qed.
Lemma Withdrawals_UpdateStatus_keeps id from to u : keeps (Withdrawals_UpdateStatus id from to u).
Proof.
  unfold Withdrawals_UpdateStatus, Withdrawals_Get, fmtTime, require_rows. tx_steps.
  apply update_keeps. intros l (Hi & Hu). split; idx.
Qed.
Lemma Sequences_UpdateStatus_keeps id from to : keeps (Sequences_UpdateStatus id from to).
Proof.
  unfold Sequences_UpdateStatus, fmtTime, require_rows. tx_steps.
  apply update_keeps. intros l (Hi & Hu & Hw). split_and!; idx.
Qed.

Lemma deposit_set_prior to now u from d :
  prior_ok (deposit_set to (if bool_decide (to = DepositSuspended) then Some from else None) now u d).
Proof. unfold prior_ok. simpl. case_bool_decide; split; congruence. Qed.

Lemma Deposits_Insert_keeps d : keeps (Deposits_Insert d).
Proof.
  unfold Deposits_Insert, fmtTime. tx_steps. apply insert_keeps. intros l (Hi & Hu & Hf) r Hc.
  split_and!; idx. apply Forall_app; split; [done|]. constructor; [|done].
  unfold prior_ok. simpl. apply Bool.eqb_prop in Hg2.
  destruct (d_PriorStatus d); simpl in Hg2.
  - by apply bool_decide_eq_true in Hg2.
  - by apply bool_decide_eq_false in Hg2.
Qed.
Lemma Deposits_UpdateStatus_keeps id from to u : keeps (Deposits_UpdateStatus id from to u).
Proof.
  unfold Deposits_UpdateStatus, Deposits_GetByID, fmtTime, require_rows. tx_steps;
    apply update_keeps; intros l (Hi & Hu & Hf); (split_and!; idx);
    apply Forall_fmap, Forall_forall; intros d Hd; simpl; destruct (_ && _);
    try apply deposit_set_prior; by eapply Forall_forall in Hf.
Qed.
Lemma Sweeps_Create_keeps j : keeps (Sweeps_Create j).
Proof.
  unfold Sweeps_Create, fmtTime. tx_steps. apply insert_keeps. intros l (Hi & Hm & Ha) r Hc.
  split_and!; idx.
Qed.

(** A terminal sweep stays terminal, so an update never enters the partial
    index. *)
Lemma sweep_terminal_final from to : to ∈ sweepTransitions from -> Terminal from = false.
Proof. destruct from; simpl; intros H; try done; by apply elem_of_nil in H. Qed.

Lemma Sweeps_UpdateStatus_keeps id from to u : keeps (Sweeps_UpdateStatus id from to u).
Proof.
  unfold Sweeps_UpdateStatus, Sweeps_Get, fmtTime, require_rows. tx_steps.
  apply validateTransition_None, sweep_terminal_final in Hv.
  apply update_keeps. intros l (Hi & Hm & Ha). split_and!; idx.
  apply uniq_map; [|done]. intros j k _. unfold sweep_active_key.
  destruct (bool_decide (j_SweepID j = id)), (decide (j_Status j = from)) as [E|E];
    rewrite ?(bool_decide_eq_true_2 _ E), ?(bool_decide_eq_false_2 _ E); simpl; try done.
  rewrite E, Hv. by destruct (Terminal to).
Qed.

Lemma Sequences_Reserve_keeps res : keeps (Sequences_Reserve res).
Proof.
  unfold Sequences_Reserve, fmtTime, require_rows. tx_steps.
  - apply update_unique_keeps. intros l (Hi & Hs & Hw) Hu. split_and!; idx.
    apply uniq_update_one; [| |done].
    + intros i j r1 r2 H1 H2 [E1 _]%andb_true_iff [E2 _]%andb_true_iff.
      apply Z.eqb_eq in E1, E2. rewrite (Hi _ _ H1) in E1. rewrite (Hi _ _ H2) in E2. lia.
    + intros t r k Ht Hpt Hr Hpr Hk Hk'. specialize (Hu t r Ht Hr Hpt Hpr).
      simpl in Hu. unfold hits in Hu. rewrite Hk, Hk' in Hu. by apply bool_decide_eq_false in Hu.
  - apply insert_keeps. intros l (Hi & Hs & Hw) r Hc. split_and!; idx.
Qed.
Lemma Watch_Upsert_keeps w : keeps (Watch_Upsert w).
Proof.
  unfold Watch_Upsert. tx_steps. apply upsert_keeps.
  - intros l. apply uniq_map. intros r k _. unfold watched_at.
    repeat case_bool_decide; simpl; congruence.
  - intros l Hl Hc. apply uniq_app; [done|]. apply hits_false. intros r k Hr [= <-] [= E1 E2].
    apply not_true_iff_false in Hc. apply Hc, existsb_exists. exists r.
    rewrite <-list_elem_of_In. split; [done|]. unfold watched_at.
    by rewrite !bool_decide_eq_true_2 by done.
Qed.
Lemma Watch_SetActive_keeps c a b : keeps (Watch_SetActive c a b).
Proof. unfold Watch_SetActive, require_rows. tx_steps. apply update_keeps. intros l Hl. idx. Qed.
Lemma getControls_keeps c : keeps (Controls_Get c).
Proof. unfold Controls_Get, getControls. tx_steps. Qed.

Lemma apply_update_chain cur u : oc_ChainID (fst (apply_update cur u)) = oc_ChainID cur.
Proof.
  unfold apply_update. repeat match goal with
    |- context [let '(_, _) := ?x in _] => destruct x as [? ?] end. done.
Qed.

(** The controls of a chain, as the database has them. *)
Definition controls_at (chainID : string) (s : Store) : OperationalControls :=
  match List.find (fun c => bool_decide (oc_ChainID c = chainID)) (st_controls s) with
  | Some c => c
  | None => default_controls chainID
  end.

Lemma Controls_Get_eq chainID s : Controls_Get chainID s = (Ok (controls_at chainID s), s).
Proof.
  unfold Controls_Get, tx_bind, tx_try, getControls, select_row, controls_at. simpl.
  by destruct (List.find _ _).
Qed.

Lemma controls_at_chain chainID s : oc_ChainID (controls_at chainID s) = chainID.
Proof.
  unfold controls_at. destruct (List.find _ _) as [r|] eqn:E; [|done].
  apply find_elem in E as [_ E]. by apply bool_decide_eq_true in E.
Qed.

Lemma Controls_Get_chain chainID s c s' : Controls_Get chainID s = (Ok c, s') -> oc_ChainID c = chainID.
Proof. rewrite Controls_Get_eq. intros [= <- _]. apply controls_at_chain. Qed.

(** The continuation of a read may use what it returned. *)
Lemma keeps_read {A B} (m : db A) (k : A -> db B) (P : A -> Prop) :
  keeps m -> (forall s a s', m s = (Ok a, s') -> P a) -> (forall a, P a -> keeps (k a)) ->
  keeps (tx_bind m k).
Proof.
  intros Hm HP Hk s Hs. unfold tx_bind. specialize (Hm s Hs). specialize (HP s).
  destruct (m s) as [[a|e] s']; [|done]. simpl in Hm. by eapply Hk; [eapply HP|].
Qed.

Lemma Controls_Apply_keeps c u a r : keeps (Controls_Apply c u a r).
Proof.
  unfold Controls_Apply. apply preserves_guard; [typeclasses eauto|intros _].
  eapply keeps_read; [apply getControls_keeps | apply Controls_Get_chain |].
  intros cur <-. pose proof (apply_update_chain cur u) as Hc.
  destruct (apply_update cur u) as [new ch]. simpl in Hc. unfold fmtTime. tx_steps.
  - apply upsert_keeps; rewrite <-Hc; intros l Hl.
    + by apply (uniq_replace oc_ChainID (controls_stamp _ new)).
    + intros Hx. apply uniq_app; [done|]. by apply (existsb_key oc_ChainID (controls_stamp _ new)).
  - apply insert_keeps. intros l Hi r' _. by apply ids_ok_app.
Qed.
Lemma Review_Open_keeps i : keeps (Review_Open i).
Proof.
  unfold Review_Open, fmtTime. tx_steps. apply insert_keeps. intros l Hi r _. by apply ids_ok_app.
Qed.
Lemma Review_Resolve_keeps i r t : keeps (Review_Resolve i r t).
Proof.
  unfold Review_Resolve, Review_Get, fmtTime. tx_steps. apply update_keeps. intros l Hl.
  by apply ids_ok_update.
Qed.
Lemma ChainReview_Open_keeps c : keeps (ChainReview_Open c).
Proof. unfold ChainReview_Open, fmtTime. tx_steps. apply insert_keeps. intros l Hu r Hc. idx. Qed.
Lemma ChainReview_Resolve_keeps i r t : keeps (ChainReview_Resolve i r t).
Proof.
  unfold ChainReview_Resolve, ChainReview_Get, fmtTime. tx_steps. apply update_keeps. intros l Hl. idx.
Qed.
Lemma Recon_SaveReport_keeps r : keeps (Recon_SaveReport r).
Proof. unfold Recon_SaveReport, fmtTime. tx_steps. apply insert_keeps. intros l Hu x Hc. idx. Qed.
Lemma Outbox_Enqueue_keeps ev : keeps (Outbox_Enqueue ev).
Proof.
  unfold Outbox_Enqueue, fmtTime. tx_steps. apply insert_keeps. intros l (Hi & Hu) r Hc. split; idx.
Qed.
Lemma Outbox_MarkDispatched_keeps i t : keeps (Outbox_MarkDispatched i t).
Proof.
  unfold Outbox_MarkDispatched, fmtTime. tx_steps. apply update_keeps. intros l (Hi & Hu). split; idx.
Qed.

(** ** The invariant *)

(** Every method that writes. *)
Inductive op : Type :=
| OpLedgerAppend (e : LedgerEntry)
| OpAppendFeeOutflow (f : FeeOutflow)
| OpAppendFeeFundingSpend (f : FeeFundingSpend)
| OpDepositInsert (d : DepositRecord)
| OpDepositStatus (id : Z) (from to : DepositStatus) (u : DepositUpdate)
| OpCheckpointSet (c : ScannerCheckpoint)
| OpWithdrawalCreate (w : WithdrawalRecord)
| OpWithdrawalStatus (id : string) (from to : WithdrawalStatus) (u : WithdrawalUpdate)
| OpSequenceReserve (r : SequenceReservation)
| OpSequenceStatus (id : Z) (from to : SequenceReservationStatus)
| OpSweepCreate (j : SweepJob)
| OpSweepStatus (id : string) (from to : SweepStatus) (u : SweepUpdate)
| OpWatchUpsert (w : WatchedAddress)
| OpWatchSetActive (chainID address : string) (active : bool)
| OpControlsApply (chainID : string) (u : ControlsUpdate) (actor reason : string)
| OpReviewOpen (i : ReviewItem)
| OpReviewResolve (id : Z) (resolution : string) (t : Z)
| OpChainReviewOpen (c : ChainReviewCondition)
| OpChainReviewResolve (id resolution : string) (t : Z)
| OpSaveReport (r : ReconciliationReport)
| OpEnqueue (ev : OutboxEvent)
| OpMarkDispatched (id t : Z).

Definition void {A} (m : db A) : db unit := do_ m; tx_ret tt.

Definition exec_op (o : op) : db unit :=
  match o with
  | OpLedgerAppend e => void (Ledger_Append e)
  | OpAppendFeeOutflow f => void (Ledger_AppendFeeOutflow f)
  | OpAppendFeeFundingSpend f => void (Ledger_AppendFeeFundingSpend f)
  | OpDepositInsert d => void (Deposits_Insert d)
  | OpDepositStatus id from to u => Deposits_UpdateStatus id from to u
  | OpCheckpointSet c => Checkpoints_Set c
  | OpWithdrawalCreate w => void (Withdrawals_Create w)
  | OpWithdrawalStatus id from to u => Withdrawals_UpdateStatus id from to u
  | OpSequenceReserve r => void (Sequences_Reserve r)
  | OpSequenceStatus id from to => Sequences_UpdateStatus id from to
  | OpSweepCreate j => void (Sweeps_Create j)
  | OpSweepStatus id from to u => Sweeps_UpdateStatus id from to u
  | OpWatchUpsert w => Watch_Upsert w
  | OpWatchSetActive c a b => Watch_SetActive c a b
  | OpControlsApply c u a r => void (Controls_Apply c u a r)
  | OpReviewOpen i => void (Review_Open i)
  | OpReviewResolve i r t => Review_Resolve i r t
  | OpChainReviewOpen c => void (ChainReview_Open c)
  | OpChainReviewResolve i r t => ChainReview_Resolve i r t
  | OpSaveReport r => Recon_SaveReport r
  | OpEnqueue ev => void (Outbox_Enqueue ev)
  | OpMarkDispatched i t => Outbox_MarkDispatched i t
  end.

Create HintDb schema.
#[export] Hint Resolve Ledger_Append_keeps AppendFeeOutflow_keeps AppendFeeFundingSpend_keeps
  Deposits_Insert_keeps Deposits_UpdateStatus_keeps Checkpoints_Set_keeps Withdrawals_Create_keeps
  Withdrawals_UpdateStatus_keeps Sequences_Reserve_keeps Sequences_UpdateStatus_keeps
  Sweeps_Create_keeps Sweeps_UpdateStatus_keeps Watch_Upsert_keeps Watch_SetActive_keeps
  Controls_Apply_keeps Review_Open_keeps Review_Resolve_keeps ChainReview_Open_keeps
  ChainReview_Resolve_keeps Recon_SaveReport_keeps Outbox_Enqueue_keeps
  Outbox_MarkDispatched_keeps getControls_keeps : schema.

Lemma void_keeps {A} (m : db A) : keeps m -> keeps (void m).
Proof. intros Hm. unfold void. tx_steps. done. Qed.
#[export] Hint Resolve void_keeps : schema.

Lemma exec_op_keeps o : keeps (exec_op o).
Proof. destruct o; simpl; auto with schema. Qed.

(** A database history: transactions of statements, each committed or rolled
    back as a whole. *)
Definition commit (s : Store) (t : list op) : Store := snd (with_tx (tx_for t exec_op) s).
Definition history (s : Store) (ts : list (list op)) : Store := fold_left commit ts s.

Lemma commit_schema s t : schema_ok s -> schema_ok (commit s t).
Proof.
  apply (preserves_with_tx keeps_schema). apply preserves_for; [typeclasses eauto|].
  apply exec_op_keeps.
Qed.


(** ** Status updates as equations *)

Definition update_rows {R} (p : R -> bool) (f : R -> R) (l : list R) : list R :=
  map (fun r => if p r then f r else r) l.

(** The row just read satisfies the [WHERE], so [requireOneRow] passes. *)
Lemma update_found {R} (p : R -> bool) (l : list R) r :
  r ∈ l -> p r = true -> (0 <? List.length (List.filter p l))%nat = true.
Proof.
  intros Hr Hp. apply Nat.ltb_lt. destruct (List.filter p l) eqn:E; [|simpl; lia].
  assert (In r (List.filter p l)) as Hin by (apply List.filter_In; by rewrite <-list_elem_of_In).
  by rewrite E in Hin.
Qed.

Definition w_at (id : string) (from : WithdrawalStatus) (w : WithdrawalRecord) : bool :=
  bool_decide (w_WithdrawalID w = id) && bool_decide (w_Status w = from).
Definition r_at (id : Z) (from : SequenceReservationStatus) (r : SequenceReservation) : bool :=
  (r_ID r =? id) && bool_decide (r_Status r = from).
Definition d_at (id : Z) (from : DepositStatus) (d : DepositRecord) : bool :=
  (d_ID d =? id) && bool_decide (d_Status d = from).

Lemma Withdrawals_UpdateStatus_eq id from to u s :
  Withdrawals_UpdateStatus id from to u s =
  match ValidateWithdrawalTransition from to, amountPtrText (wu_FeeAmountBaseUnits u) with
  | Some e, _ => (Err e, s)
  | None, Err e => (Err e, s)
  | None, Ok _ =>
      match List.find (fun w => bool_decide (w_WithdrawalID w = id)) (st_withdrawals s) with
      | None => (Err ErrNotFound, s)
      | Some w =>
          if bool_decide (w_Status w = from)
          then (Ok tt, set_rows (update_rows (w_at id from) (withdrawal_set to (st_now s) u)
                                   (st_withdrawals s)) s)
          else (Err ErrStatusConflict, s)
      end
  end.
Proof.
  unfold Withdrawals_UpdateStatus, tx_bind, tx_check.
  destruct (ValidateWithdrawalTransition from to); [done|]. simpl.
  unfold tx_of. destruct (amountPtrText _); [|done].
  unfold Withdrawals_Get, select_row. simpl.
  destruct (List.find _ _) as [w|] eqn:Hf; [|done]. unfold tx_require.
  destruct (bool_decide (w_Status w = from)) eqn:Hs; [|done]. simpl.
  apply find_elem in Hf as [Hin Hid]. unfold require_rows, tx_require.
  by rewrite (update_found _ _ w) by (done || by rewrite Hid, Hs).
Qed.

Lemma Sequences_UpdateStatus_eq id from to s :
  Sequences_UpdateStatus id from to s =
  match ValidateSequenceTransition from to with
  | Some e => (Err e, s)
  | None =>
      match List.find (fun r => r_ID r =? id) (st_sequences s) with
      | None => (Err ErrNotFound, s)
      | Some r =>
          if bool_decide (r_Status r = from)
          then (Ok tt, set_rows (update_rows (r_at id from) (reservation_set to (st_now s))
                                   (st_sequences s)) s)
          else (Err ErrStatusConflict, s)
      end
  end.
Proof.
  unfold Sequences_UpdateStatus, tx_bind, tx_check.
  destruct (ValidateSequenceTransition from to); [done|]. simpl.
  unfold select_row. simpl.
  destruct (List.find _ _) as [r|] eqn:Hf; [|done]. unfold tx_require.
  destruct (bool_decide (r_Status r = from)) eqn:Hs; [|done]. simpl.
  apply find_elem in Hf as [Hin Hid]. unfold require_rows, tx_require.
  by rewrite (update_found _ _ r) by (done || by rewrite Hid, Hs).
Qed.

Definition j_at (id : string) (from : SweepStatus) (j : SweepJob) : bool :=
  bool_decide (j_SweepID j = id) && bool_decide (j_Status j = from).

Lemma Sweeps_UpdateStatus_eq id from to u s :
  Sweeps_UpdateStatus id from to u s =
  match ValidateSweepTransition from to with
  | Some e => (Err e, s)
  | None =>
      match List.find (fun j => bool_decide (j_SweepID j = id)) (st_sweeps s) with
      | None => (Err ErrNotFound, s)
      | Some j =>
          if bool_decide (j_Status j = from)
          then (Ok tt, set_rows (update_rows (j_at id from) (sweep_set to (st_now s) u) (st_sweeps s)) s)
          else (Err ErrStatusConflict, s)
      end
  end.
Proof.
  unfold Sweeps_UpdateStatus, tx_bind, tx_check.
  destruct (ValidateSweepTransition from to); [done|]. simpl.
  unfold Sweeps_Get, select_row. simpl.
  destruct (List.find _ _) as [j|] eqn:Hf; [|done]. unfold tx_require.
  destruct (bool_decide (j_Status j = from)) eqn:Hs; [|done]. simpl.
  apply find_elem in Hf as [Hin Hid]. unfold require_rows, tx_require.
  by rewrite (update_found _ _ j) by (done || by rewrite Hid, Hs).
Qed.

Definition new_prior (from to : DepositStatus) : option DepositStatus :=
  if bool_decide (to = DepositSuspended) then Some from else None.

Lemma Deposits_UpdateStatus_eq id from to u s :
  Deposits_UpdateStatus id from to u s =
  match ValidateDepositTransition from to with
  | Some e => (Err e, s)
  | None =>
      match List.find (fun d => d_ID d =? id) (st_deposits s) with
      | None => (Err ErrNotFound, s)
      | Some d =>
          if negb (bool_decide (d_Status d = from)) then (Err ErrStatusConflict, s)
          else match (if bool_decide (from = DepositSuspended)
                      then match d_PriorStatus d with
                           | None => Some ErrStatusConflict
                           | Some p => if bool_decide (p = to) then None else Some ErrIllegalTransition
                           end
                      else None) with
               | Some e => (Err e, s)
               | None => (Ok tt, set_rows (update_rows (d_at id from)
                             (deposit_set to (new_prior from to) (st_now s) u) (st_deposits s)) s)
               end
      end
  end.
Proof.
  unfold Deposits_UpdateStatus, tx_bind, tx_check.
  destruct (ValidateDepositTransition from to); [done|]. simpl.
  unfold Deposits_GetByID, select_row. simpl.
  destruct (List.find _ _) as [d|] eqn:Hf; [|done]. unfold tx_require.
  destruct (bool_decide (d_Status d = from)) eqn:Hs; [|done]. simpl.
  apply find_elem in Hf as [Hin Hid]. unfold require_rows, tx_require.
  destruct (bool_decide (from = DepositSuspended)); [destruct (d_PriorStatus d) as [p|]|]; try done.
  - destruct (bool_decide (p = to)); [|done]. simpl.
    by rewrite (update_found _ _ d) by (done || by rewrite Hid, Hs).
  - simpl. by rewrite (update_found _ _ d) by (done || by rewrite Hid, Hs).
Qed.

Lemma deposit_legal from to : ValidateDepositTransition from to = None <-> to ∈ depositTransitions from.
Proof. apply validateTransition_None. Qed.
Lemma withdrawal_legal from to :
  ValidateWithdrawalTransition from to = None <-> to ∈ withdrawalTransitions from.
Proof. apply validateTransition_None. Qed.
Lemma sequence_legal from to :
  ValidateSequenceTransition from to = None <-> to ∈ sequenceTransitions from.
Proof. apply validateTransition_None. Qed.

Lemma sweep_legal from to : ValidateSweepTransition from to = None <-> to ∈ sweepTransitions from.
Proof. apply validateTransition_None. Qed.

Lemma Sweeps_UpdateStatus_ok id from to u s s' :
  Sweeps_UpdateStatus id from to u s = (Ok tt, s') ->
  to ∈ sweepTransitions from /\
  exists j, j ∈ st_sweeps s /\ j_SweepID j = id /\ j_Status j = from /\
    s' = set_rows (update_rows (j_at id from) (sweep_set to (st_now s) u) (st_sweeps s)) s.
Proof.
  rewrite Sweeps_UpdateStatus_eq. destruct (ValidateSweepTransition from to) eqn:Hv; [done|].
  destruct (List.find _ _) as [j|] eqn:Hf; [|done].
  case_bool_decide as Hst; [|done]. intros [= <-]. split; [by apply sweep_legal|].
  apply find_elem in Hf as [Hj Hid]. apply bool_decide_eq_true in Hid. eauto.
Qed.

Lemma Sweeps_Get_ok id s r s' :
  Sweeps_Get id s = (Ok r, s') -> s' = s /\ r ∈ st_sweeps s /\ j_SweepID r = id.
Proof.
  unfold Sweeps_Get, select_row. destruct (List.find _ _) eqn:Hf; [|done]. intros [= -> ->].
  apply find_elem in Hf as [Hin Hid]. apply bool_decide_eq_true in Hid. done.
Qed.

Lemma Sweeps_Create_ok j s r s' :
  Sweeps_Create j s = (Ok r, s') ->
  violation r [(hits sweep_active_key, ErrActiveSweepExists); unique sweep_id_key; unique sweep_idem_key]
    (st_sweeps s) = None /\
  0 <= j_AmountBaseUnits j /\ s' = set_rows (st_sweeps s ++ [r]) s /\
  exists c u, r = sweep_row j c u.
Proof.
  unfold Sweeps_Create, fmtTime. intros H. inv_tx H. unfold insert_row in H.
  change (rows ?s) with (st_sweeps s) in H.
  destruct (violation _ _ _) eqn:Hv in H; [done|]. injection H as <- <-. split_and!; [done| |done|eauto].
  unfold amountText in Ha. destruct (Z.ltb_spec (j_AmountBaseUnits j) 0); [done|lia].
Qed.

(** ** Finding rows after an update *)

Lemma find_update {R} (q p : R -> bool) (f : R -> R) l :
  (forall r, q (f r) = q r) ->
  List.find q (update_rows p f l) =
  match List.find q l with Some r => Some (if p r then f r else r) | None => None end.
Proof.
  intros Hq. induction l as [|r l IH]; simpl; [done|].
  rewrite (update_if p f q) by done. by destruct (q r).
Qed.

Lemma find_app_new {R} (q : R -> bool) l new :
  List.find q (l ++ [new]) =
  match List.find q l with Some r => Some r | None => if q new then Some new else None end.
Proof. induction l as [|r l IH]; simpl; [by destruct (q new)|]. by destruct (q r). Qed.

(** ** Deposits: insertion and suspension *)

Definition deposit_found (s : Store) (id : Z) : option DepositRecord :=
  List.find (fun d => d_ID d =? id) (st_deposits s).

(** The statuses a deposit can be suspended from are those it can resume to. *)
Lemma suspendable_resumable p :
  DepositSuspended ∈ depositTransitions p <-> p ∈ depositTransitions DepositSuspended.
Proof. rewrite <-!enumValid_spec. by destruct p. Qed.

(** Suspension is a detour.  A deposit that may be suspended resumes to
    exactly the status it had, with nothing but its update time changed; and
    while it is suspended every attempt to move it to another status fails
    and changes nothing. *)
Theorem suspend_resume (s : Store) (id : Z) (d : DepositRecord)
    (Hd : deposit_found s id = Some d)
    (Hp : DepositSuspended ∈ depositTransitions (d_Status d)) :
  exists s1 s2,
    Deposits_UpdateStatus id (d_Status d) DepositSuspended no_deposit_update s = (Ok tt, s1) /\
    (forall q u, q <> d_Status d ->
       exists e, Deposits_UpdateStatus id DepositSuspended q u s1 = (Err e, s1)) /\
    Deposits_UpdateStatus id DepositSuspended (d_Status d) no_deposit_update s1 = (Ok tt, s2) /\
    deposit_found s2 id =
      Some (deposit_set (d_Status d) None (st_now s) no_deposit_update d).
Proof.
  pose proof (proj2 (deposit_legal _ _) Hp) as Hv.
  pose proof (proj2 (deposit_legal _ _) (proj1 (suspendable_resumable _) Hp)) as Hv'.
  assert (d_Status d <> DepositSuspended) as Hns.
  { intros E. rewrite E in Hv. discriminate Hv. }
  unfold deposit_found in *. pose proof (find_elem _ _ _ Hd) as [_ Hid].
  set (d1 := deposit_set DepositSuspended (Some (d_Status d)) (st_now s) no_deposit_update d).
  set (s1 := set_rows (update_rows (d_at id (d_Status d))
    (deposit_set DepositSuspended (Some (d_Status d)) (st_now s) no_deposit_update) (st_deposits s)) s).
  assert (List.find (fun x => d_ID x =? id) (st_deposits s1) = Some d1) as H1.
  { change (st_deposits s1) with (rows (R := DepositRecord) s1). unfold s1. rewrite rows_set.
    rewrite find_update by done. rewrite Hd. unfold d_at.
    by rewrite Hid, bool_decide_eq_true_2. }
  assert (st_now s1 = st_now s) as Hnow by apply (now_set (R := DepositRecord)).
  set (s2 := set_rows (update_rows (d_at id DepositSuspended) (deposit_set (d_Status d)
    (new_prior DepositSuspended (d_Status d)) (st_now s1) no_deposit_update) (st_deposits s1)) s1).
  exists s1, s2. split_and!.
  - by rewrite Deposits_UpdateStatus_eq, Hv, Hd, (bool_decide_eq_true_2 _ eq_refl),
      (bool_decide_eq_false_2 _ Hns).
  - intros q u Hq. rewrite Deposits_UpdateStatus_eq, H1. simpl.
    destruct (ValidateDepositTransition _ q); [by eexists|].
    rewrite bool_decide_eq_false_2 by done. by eexists.
  - rewrite Deposits_UpdateStatus_eq, Hv', H1. simpl. by rewrite bool_decide_eq_true_2.
  - change (st_deposits s2) with (rows (R := DepositRecord) s2). unfold s2.
    rewrite rows_set, find_update by done. rewrite H1. unfold d_at. simpl.
    rewrite Hid, Hnow. unfold new_prior. by rewrite bool_decide_eq_false_2.
Qed.

Definition ex_deposit : DepositRecord :=
  MkDeposit 1 "sovr-1" "AA" 0 0 10 5 None "sovr1cust" BaseDenom 700 "" 0 "" DepositCreditable
    None None None 5 5.
Definition ex_store : Store := set_rows [ex_deposit] (empty_store 9).

Lemma suspend_resume_witness :
  exists s1 s2,
    Deposits_UpdateStatus 1 DepositCreditable DepositSuspended no_deposit_update ex_store = (Ok tt, s1) /\
    (forall q u, q <> DepositCreditable ->
       exists e, Deposits_UpdateStatus 1 DepositSuspended q u s1 = (Err e, s1)) /\
    Deposits_UpdateStatus 1 DepositSuspended DepositCreditable no_deposit_update s1 = (Ok tt, s2) /\
    deposit_found s2 1 = Some (deposit_set DepositCreditable None 9 no_deposit_update ex_deposit).
Proof.
  apply (suspend_resume ex_store 1 ex_deposit).
  - vm_compute. reflexivity.
  - apply enumValid_spec. vm_compute. reflexivity.
Defined.

(** The row [Insert] writes. *)
Definition inserted (d : DepositRecord) (s : Store) : DepositRecord :=
  let stamp t := if t =? 0 then st_now s else t in
  deposit_row d (stamp (d_BlockTimestamp d)) (stamp (d_CreatedAt d)) (stamp (d_UpdatedAt d))
    (Z.of_nat (S (List.length (st_deposits s)))).

(** The pre-insert validation. *)
Definition deposit_valid (d : DepositRecord) : bool :=
  negb (empty (d_ChainID d) || empty (d_TxHash d) || empty (d_RecipientAddress d)) &&
  bool_decide (d_Denom d = BaseDenom) &&
  Bool.eqb (bool_decide (d_Status d = DepositSuspended)) (is_some (d_PriorStatus d)) &&
  (0 <? d_AmountBaseUnits d).

Lemma amountText_positive v : 0 < v -> amountText v true = Ok (of_chars (numeral v)).
Proof. intros H. unfold amountText. by rewrite (proj2 (Z.ltb_ge v 0)), (proj2 (Z.eqb_neq v 0)) by lia. Qed.
Lemma amountText_nonpositive v : v <= 0 -> amountText v true = Err ErrInvalidRecord.
Proof.
  intros H. unfold amountText. destruct (Z.ltb_spec v 0); [done|].
  assert (v = 0) as -> by lia. done.
Qed.

Lemma Deposits_Insert_eq d s :
  Deposits_Insert d s =
  if deposit_valid d
  then if existsb (hits deposit_key (inserted d s)) (st_deposits s) then (Err ErrDuplicate, s)
       else (Ok (deposit_row (inserted d s) (d_BlockTimestamp d) (d_CreatedAt (inserted d s))
                   (d_UpdatedAt (inserted d s)) (d_ID (inserted d s))),
             set_rows (st_deposits s ++ [inserted d s]) s)
  else (Err ErrInvalidRecord, s).
Proof.
  unfold Deposits_Insert, deposit_valid, fmtTime.
  unfold tx_bind at 1, tx_require at 1. destruct (negb _); [|done].
  unfold tx_bind at 1, tx_require at 1. destruct (bool_decide (d_Denom d = _)); [|done].
  rewrite Valid_true. unfold tx_bind at 1, tx_require at 1.
  unfold tx_bind at 1, tx_require at 1. destruct (Bool.eqb _ _); [|done].
  replace (match d_PriorStatus d with Some p => Valid p | None => true end) with true
    by (destruct (d_PriorStatus d); by rewrite ?Valid_true).
  unfold tx_bind at 1, tx_require at 1. unfold tx_bind at 1, tx_of.
  destruct (Z.ltb_spec 0 (d_AmountBaseUnits d));
    [rewrite amountText_positive by done | by rewrite amountText_nonpositive by lia].
  unfold tx_ret, tx_bind, tx_get, insert_row, violation, unique. cbv beta iota zeta.
  change (deposit_row d (if d_BlockTimestamp d =? 0 then _ else _) _ _ _) with (inserted d s).
  cbn [List.find fst snd]. change (rows s) with (st_deposits s).
  by destruct (existsb (hits deposit_key (inserted d s)) (st_deposits s)).
Qed.

(** The deposit table is a map from the FR-024 key.  After a successful
    insert the key resolves to the inserted deposit, every other key resolves
    as before, and any second deposit with the key is refused and changes
    nothing: as a duplicate if it is a valid record. *)
Theorem deposit_insert_lookup (d d' : DepositRecord) (s s' : Store)
    (H : Deposits_Insert d s = (Ok d', s')) :
  Deposits_Get (d_ChainID d) (d_TxHash d) (d_MessageIndex d) (d_CoinIndex d) (d_RecipientAddress d) s'
    = (Ok (inserted d s), s') /\
  (forall c h m i r, deposit_key d <> Some (c, h, m, i, r) ->
     fst (Deposits_Get c h m i r s') = fst (Deposits_Get c h m i r s)) /\
  (forall d2, deposit_key d2 = deposit_key d -> Deposits_Insert d2 s' =
     (Err (if deposit_valid d2 then ErrDuplicate else ErrInvalidRecord), s')).
Proof.
  rewrite Deposits_Insert_eq in H. destruct (deposit_valid d); [|done].
  destruct (existsb _ _) eqn:Hn; [done|].
  assert (s' = set_rows (st_deposits s ++ [inserted d s]) s) as -> by congruence.
  assert (deposit_key (inserted d s) = deposit_key d) as Hi by done.
  split_and!.
  - unfold Deposits_Get, select_row. rewrite rows_set, find_app_new.
    destruct (List.find _ (st_deposits s)) as [r|] eqn:Hf.
    + apply find_elem in Hf as [Hr E]. apply bool_decide_eq_true in E.
      exfalso. rewrite hits_false in Hn. by apply (Hn r _ Hr E).
    + by rewrite bool_decide_eq_true_2.
  - intros c h m i r Hne. unfold Deposits_Get, select_row. rewrite rows_set, find_app_new.
    change (rows s) with (st_deposits s).
    destruct (List.find _ (st_deposits s)) as [r'|]; [done|].
    by rewrite bool_decide_eq_false_2.
  - intros d2 Hk. rewrite Deposits_Insert_eq. destruct (deposit_valid d2); [|done].
    set (s2 := set_rows _ s). set (l := st_deposits s2).
    assert (inserted d s ∈ l) as Hin.
    { unfold l. change (st_deposits s2) with (rows (R := DepositRecord) s2). unfold s2.
      rewrite rows_set. apply elem_of_app. right. by left. }
    destruct (existsb _ l) eqn:E; [done|]. rewrite hits_false in E.
    exfalso. refine (E _ _ Hin eq_refl _). exact Hk.
Qed.

Lemma deposit_insert_lookup_witness :
  Deposits_Get "sovr-1" "AA" 0 0 "sovr1cust" (snd (Deposits_Insert ex_deposit (empty_store 9)))
    = (Ok ex_deposit, snd (Deposits_Insert ex_deposit (empty_store 9))).
Proof.
  apply (deposit_insert_lookup ex_deposit ex_deposit (empty_store 9)
           (snd (Deposits_Insert ex_deposit (empty_store 9)))).
  vm_compute. reflexivity.
Defined.

End SqlLaws.
