(* ===== verification/Hash.v ===== *)
(** * Hash: SHA-256 and hexadecimal

    The parts of Go's [crypto/sha256] and [encoding/hex] the kit uses: a
    transaction hash is the upper-case hexadecimal SHA-256 of the signed bytes
    ([tx.Assemble], [sequences.RebroadcastPersisted], the scanner).  32-bit
    words are [Z] reduced modulo [2^32]. *)

From stdpp Require Import base list strings.
From Stdlib Require Import ZArith Lia Ascii String Strings.Byte.
From S2P Require Import Prelude Storage.

Open Scope Z_scope.

Module Hash.

Definition w32 (x : Z) : Z := x mod 2 ^ 32.
Definition rotr (n x : Z) : Z :=
  Z.lor (Z.shiftr x n) (w32 (Z.shiftl x (32 - n))).
Definition add32 (x y : Z) : Z := w32 (x + y).

Definition byte_val (b : byte) : Z := Z.of_N (Byte.to_N b).
Definition val_byte (n : Z) : byte :=
  match Byte.of_N (Z.to_N (n mod 256)) with Some b => b | None => x00 end.

(** FIPS 180-4 section 4.2.2 and 5.3.3: the constants are the first 32 bits of
    the fractional parts of the cube (square) roots of the first primes. *)
Definition is_prime (n : Z) : bool :=
  forallb (fun d => negb (n mod (Z.of_nat d + 2) =? 0)) (seq 0 (Z.to_nat n - 2)).
Definition primes (k : nat) : list Z :=
  firstn k (List.filter is_prime (map (fun i => Z.of_nat i + 2) (seq 0 310))).

(** The largest [r] below [2^n] above [acc] with [r^3 <= v], bit by bit. *)
Fixpoint cube_root (n : nat) (acc v : Z) : Z :=
  match n with
  | O => acc
  | S n' => let r := acc + 2 ^ Z.of_nat n' in
            cube_root n' (if r ^ 3 <=? v then r else acc) v
  end.

Definition K : list Z := Eval vm_compute in
  map (fun p => w32 (cube_root 36 0 (p * 2 ^ 96))) (primes 64).
Definition H0 : list Z := Eval vm_compute in map (fun p => w32 (Z.sqrt (p * 2 ^ 64))) (primes 8).

(** Big-endian bytes of an [n]-byte word. *)
Fixpoint be_bytes (n : nat) (v : Z) : list byte :=
  match n with
  | O => []
  | S n' => be_bytes n' (v / 256) ++ [val_byte v]
  end.

(** Padding to a multiple of 64 bytes with the bit length at the end. *)
Definition pad (m : bytes) : bytes :=
  let l := Z.of_nat (List.length m) in
  m ++ [x80] ++ repeat x00 (Z.to_nat ((55 - l) mod 64)) ++ be_bytes 8 (8 * l).

(** The first [n] big-endian 32-bit words of the bytes. *)
Fixpoint words (n : nat) (m : bytes) : list Z :=
  match n, m with
  | S n', a :: b :: c :: d :: m' =>
      (byte_val a * 2 ^ 24 + byte_val b * 2 ^ 16 + byte_val c * 2 ^ 8 + byte_val d) :: words n' m'
  | _, _ => []
  end.

Definition s0 (x : Z) : Z := Z.lxor (Z.lxor (rotr 7 x) (rotr 18 x)) (Z.shiftr x 3).
Definition s1 (x : Z) : Z := Z.lxor (Z.lxor (rotr 17 x) (rotr 19 x)) (Z.shiftr x 10).
Definition S0 (x : Z) : Z := Z.lxor (Z.lxor (rotr 2 x) (rotr 13 x)) (rotr 22 x).
Definition S1 (x : Z) : Z := Z.lxor (Z.lxor (rotr 6 x) (rotr 11 x)) (rotr 25 x).
Definition ch (e f g : Z) : Z := Z.lxor (Z.land e f) (Z.land (Z.lxor e 0xffffffff) g).
Definition maj (a b c : Z) : Z := Z.lxor (Z.lxor (Z.land a b) (Z.land a c)) (Z.land b c).

(** The message schedule, newest word first. *)
Fixpoint schedule (n : nat) (w : list Z) : list Z :=
  match n with
  | O => w
  | S n' =>
      let next := add32 (add32 (s1 (nth 1 w 0)) (nth 6 w 0)) (add32 (s0 (nth 14 w 0)) (nth 15 w 0)) in
      schedule n' (next :: w)
  end.

Definition round (st : list Z) (kw : Z * Z) : list Z :=
  match st with
  | [a; b; c; d; e; f; g; h] =>
      let t1 := add32 (add32 h (S1 e)) (add32 (ch e f g) (add32 (fst kw) (snd kw))) in
      let t2 := add32 (S0 a) (maj a b c) in
      [add32 t1 t2; a; b; c; add32 d t1; e; f; g]
  | _ => st
  end.

Definition block (st : list Z) (m : bytes) : list Z :=
  let w := rev (schedule 48 (rev (words 16 m))) in
  zip_with add32 st (fold_left round (zip K w) st).

Fixpoint blocks (n : nat) (st : list Z) (m : bytes) : list Z :=
  match n with
  | O => st
  | S n' => blocks n' (block st m) (drop 64 m)
  end.

(** [sha256.Sum256]. *)
Definition Sum256 (m : bytes) : bytes :=
  let p := pad m in
  List.concat (map (be_bytes 4) (blocks (Nat.div (List.length p) 64) H0 p)).

Definition hex_digit (n : Z) : ascii :=
  if n <? 10 then Ascii.ascii_of_N (Z.to_N (48 + n)) else Ascii.ascii_of_N (Z.to_N (55 + n)).

(** [strings.ToUpper(hex.EncodeToString(b))]. *)
Fixpoint HexUpper (b : bytes) : string :=
  match b with
  | [] => EmptyString
  | x :: b' => String (hex_digit (byte_val x / 16)) (String (hex_digit (byte_val x mod 16)) (HexUpper b'))
  end.

(** The transaction hash of signed bytes. *)
Definition TxHash (signed : bytes) : string := HexUpper (Sum256 signed).

Example sum256_abc :
  HexUpper (Sum256 [x61; x62; x63]) =
  "BA7816BF8F01CFEA414140DE5DAE2223B00361A396177A9CB410FF61F20015AD"%string.
Proof. vm_compute. reflexivity. Qed.
Example sum256_empty :
  HexUpper (Sum256 []) = "E3B0C44298FC1C149AFBF4C8996FB92427AE41E4649B934CA495991B7852B855"%string.
Proof. vm_compute. reflexivity. Qed.

Lemma be_bytes_length n v : List.length (be_bytes n v) = n.
Proof. revert v. induction n; intros v; simpl; [done|]. rewrite length_app, IHn. simpl. lia. Qed.

Lemma HexUpper_length b : String.length (HexUpper b) = (2 * List.length b)%nat.
Proof. induction b as [|x b IH]; [done|]. simpl. rewrite IH. lia. Qed.

Lemma HexUpper_nonempty x b : HexUpper (x :: b) <> EmptyString.
Proof. done. Qed.

End Hash.
