(* ===== verification/Chain.v ===== *)
(** * Chain: what lies outside the repository

    The answers of the chain node ([go/client/client.go]), the signer
    ([go/signer/signer.go]), the clock and the random source, as the calls a handler makes, and
    the third-party library functions the kit relies on ([Ext]): bech32,
    protobuf encoding, secp256k1, [sdkmath.NewIntFromString].  Calls are
    answered arbitrarily in the theorems; the library functions are parameters,
    and the theorems that need documented behaviour of them take [ExtLaws] as
    a hypothesis. *)

From stdpp Require Import base list strings.
From Stdlib Require Import ZArith Lia.
From S2P Require Import Prelude Workers Text Storage Database.

(** ** client *)

Inductive BroadcastMode : Type := BroadcastSync | BroadcastAsync.

Record NodeStatus : Type := MkNodeStatus {
  ns_ChainID : string; ns_LatestHeight : Z; ns_CatchingUp : bool }.

Record SimulateResult : Type := MkSimulate { sr_GasWanted : Z; sr_GasUsed : Z }.

Record BroadcastResult : Type := MkBroadcast {
  br_TxHash : string; br_Code : Z; br_RawLog : string; br_Accepted : bool }.

Record EventAttribute : Type := MkAttr { at_Key : string; at_Value : string }.
Record Event : Type := MkEvent { ev_Type : string; ev_Attributes : list EventAttribute }.

Record TxInfo : Type := MkTxInfo {
  ti_Hash : string; ti_Height : Z; ti_Code : Z; ti_RawLog : string; ti_TxBytes : bytes;
  ti_Events : list Event }.

Record TxExecResult : Type := MkTxResult {
  tr_Code : Z; tr_Log : string; tr_Events : list Event }.

Record Block : Type := MkBlock {
  bl_ChainID : string; bl_Height : Z; bl_Hash : bytes; bl_Time : Z;
  bl_LastBlockHash : bytes; bl_Txs : list bytes }.

Record BlockResults : Type := MkBlockResults {
  rs_Height : Z; rs_TxResults : list TxExecResult; rs_FinalizeBlockEvents : list Event }.

(** The two-node comparison. *)
Inductive CompareKind : Type :=
| CompareHeight | CompareBlockHash | CompareTxResult | CompareAccountSequence | CompareBalance.

Record CompareRequest : Type := MkCompareRequest {
  cmp_Height : bool; cmp_HeightTolerance : Z; cmp_BlockHashAtHeight : Z; cmp_TxHash : string;
  cmp_SequenceAddress : string; cmp_BalanceAddress : string; cmp_BalanceDenom : string }.

Record CompareItem : Type := MkCompareItem {
  ci_Kind : CompareKind; ci_Match : bool; ci_Primary : string; ci_Secondary : string;
  ci_PrimaryErr : string; ci_SecondaryErr : string }.

(** [CompareResult] is its list of items. *)
Definition AllMatch (items : list CompareItem) : bool := forallb ci_Match items.
Definition Mismatches (items : list CompareItem) : list CompareItem :=
  List.filter (fun it => negb (ci_Match it)) items.

(** ** signer *)

Definition MsgTypeBankSend : string := "/cosmos.bank.v1beta1.MsgSend".

Record SigningSummary : Type := MkSummary {
  ss_ChainID : string; ss_AccountNumber : string; ss_Sequence : string;
  ss_MessageType : string; ss_SenderAddress : string; ss_RecipientAddress : string;
  ss_AmountBaseUnits : string; ss_Denom : string; ss_FeeBaseUnits : string;
  ss_GasLimit : string; ss_Memo : string }.
Instance SigningSummary_eq_dec : EqDecision SigningSummary.
Proof. solve_decision. Defined.

Record SigningRequest : Type := MkSigningRequest {
  sq_KeyRef : string; sq_SignMode : string; sq_SignDocBytes : bytes; sq_Summary : SigningSummary }.

Record SigningResponse : Type := MkSigningResponse {
  sp_KeyRef : string; sp_Signature : bytes; sp_PubKeyCompressed : bytes }.

(** ** Calls *)

(** A [*T] result is [option T]: the interfaces return pointers. *)
Inductive call : Type -> Type :=
| CAccount (addr : string) : call (result err (Z * Z))
| CTx (hash : string) : call (result err (option TxInfo))
| CBroadcast (txBytes : bytes) (mode : BroadcastMode) : call (result err BroadcastResult)
| CBalance (addr denom : string) : call (result err Z)
| CSimulate (txBytes : bytes) : call (result err SimulateResult)
| CNodeStatus : call (result err NodeStatus)
| CLatestBlock : call (result err Block)
| CBlockByHeight (h : Z) : call (result err Block)
| CBlockResults (h : Z) : call (result err BlockResults)
| CGetPublicKey (keyRef : string) : call (result err bytes)
| CSign (req : SigningRequest) : call (result err SigningResponse)
| CNow : call Z
| CCorrelationID : call string
| CNewID : call string
| CCompare (req : CompareRequest) : call (result err (list CompareItem)).

(** A handler of the kit. *)
Notation handler := (prog Store call).

(** The calls of an execution with their answers. *)
Notation trace := (list { T : Type & (call T * T)%type }).
Definition answered {T : Type} (c : call T) (x : T) : { T : Type & (call T * T)%type } :=
  existT T (c, x).

(** Fixed answers, for running a handler at a concrete input; every call not
    listed fails. *)
Record answers : Type := MkAnswers {
  an_Account : result err (Z * Z);
  an_Tx : result err (option TxInfo);
  an_Broadcast : result err BroadcastResult;
  an_Balance : result err Z;
  an_Simulate : result err SimulateResult;
  an_NodeStatus : result err NodeStatus;
  an_PublicKey : result err bytes;
  an_Sign : result err SigningResponse;
  an_Now : Z }.
Definition answering (a : answers) : oracle (C := call) := fun X c =>
  match c in call X return X with
  | CAccount _ => an_Account a
  | CTx _ => an_Tx a
  | CBroadcast _ _ => an_Broadcast a
  | CBalance _ _ => an_Balance a
  | CSimulate _ => an_Simulate a
  | CNodeStatus => an_NodeStatus a
  | CLatestBlock => Err ErrOther
  | CBlockByHeight _ => Err ErrOther
  | CBlockResults _ => Err ErrOther
  | CGetPublicKey _ => an_PublicKey a
  | CSign _ => an_Sign a
  | CNow => an_Now a
  | CCorrelationID => "c0"%string
  | CNewID => "id0"%string
  | CCompare _ => Err ErrOther
  end.
Definition no_answers : answers :=
  MkAnswers (Err ErrOther) (Err ErrClientNotFound) (Err ErrOther) (Err ErrOther) (Err ErrOther)
    (Err ErrOther) (Err ErrOther) (Err ErrOther) 0.

(** ** Third-party libraries *)

(** Decoded protobuf messages, as far as the kit reads them. *)
Record Any : Type := MkAny { any_TypeUrl : string; any_Value : bytes }.
Record Coin : Type := MkCoin { coin_Denom : string; coin_Amount : option Z }.
Record SignDocMsg : Type := MkSignDocMsg {
  sd_BodyBytes : bytes; sd_AuthInfoBytes : bytes; sd_ChainId : string; sd_AccountNumber : Z }.
Record TxBody : Type := MkTxBody {
  tb_Messages : list Any; tb_Memo : string; tb_TimeoutHeight : Z; tb_Unordered : bool;
  tb_TimeoutTimestamp : option Z; tb_ExtensionOptions : list Any;
  tb_NonCriticalExtensionOptions : list Any }.
Record MsgSend : Type := MkMsgSend {
  ms_FromAddress : string; ms_ToAddress : string; ms_Amount : list Coin }.
Record FeeMsg : Type := MkFeeMsg {
  fm_Amount : list Coin; fm_GasLimit : Z; fm_Payer : string; fm_Granter : string }.
Inductive SignMode : Type := SIGN_MODE_DIRECT | SIGN_MODE_OTHER.
(** [ModeInfo.GetSingle().Mode], [None] when the mode info is absent or not
    single. *)
Record SignerInfo : Type := MkSignerInfo {
  si_PublicKey : option Any; si_SingleMode : option SignMode; si_Sequence : Z }.
Record AuthInfo : Type := MkAuthInfo {
  ai_SignerInfos : list SignerInfo; ai_Fee : option FeeMsg; ai_Tip : bool }.

(** What the transaction builder is given. *)
Record TxContent : Type := MkTxContent {
  tc_Msg : MsgSend; tc_Memo : string; tc_GasLimit : Z; tc_Fee : list Coin;
  tc_PubKey : bytes; tc_Sequence : Z }.

Class Ext : Type := {
  (** [cosmos-sdk/types/bech32] and the address codec for prefix [sovr] *)
  bech32_DecodeAndConvert : string -> result err (string * bytes);
  bech32_ConvertAndEncode : string -> bytes -> result err string;
  codec_StringToBytes : string -> result err bytes;
  codec_BytesToString : bytes -> result err string;
  (** [sdkaddr.Module(name)] *)
  address_Module : string -> bytes;
  (** [sdkmath.NewIntFromString] *)
  NewIntFromString : string -> option Z;
  (** [secp256k1.PubKey] *)
  pubkey_Address : bytes -> bytes;
  pubkey_VerifySignature : bytes -> bytes -> bytes -> bool;
  (** the SDK's TxBuilder and TxEncoder followed by decoding the TxRaw: body
      and auth-info bytes *)
  encodeTx : TxContent -> result err (bytes * bytes);
  (** [SignModeHandler().GetSignBytes] for SIGN_MODE_DIRECT *)
  getSignBytes : string -> Z -> bytes -> bytes -> result err bytes;
  (** [proto.Marshal] of a TxRaw *)
  marshalTxRaw : bytes -> bytes -> list bytes -> result err bytes;
  (** [proto.Unmarshal], and [strictUnmarshal] of the three outer messages *)
  unmarshalSignDoc : bytes -> option SignDocMsg;
  strictSignDoc : bytes -> option SignDocMsg;
  strictTxBody : bytes -> option TxBody;
  strictAuthInfo : bytes -> option AuthInfo;
  unmarshalMsgSend : bytes -> option MsgSend;
  unmarshalPubKey : bytes -> option bytes }.

(** [sdkmath.NewIntFromString] reads a decimal numeral of at most 256 bits. *)
Class NumericLaws (X : Ext) : Prop := {
  NewIntFromString_digits : forall t, all_digits t -> t <> [] ->
    NewIntFromString (of_chars t) = if decide (value t < 2 ^ 256)%Z then Some (value t) else None }.
