(* ===== verification/Address.v ===== *)
(** * Address: account address validation

    [go/address/address.go]: the FR-014 check order of
    [ValidateAccountAddress], the strict variant with the prohibited set, and
    the default blocklist.  Error messages are left out; the codes are kept.
    [strings.ToLower]/[ToUpper] are on ASCII letters. *)

From stdpp Require Import base list strings gmap.
From Stdlib Require Import ZArith Lia Ascii String.
From S2P Require Import Prelude Text Storage Chain.

Open Scope string_scope.
Open Scope list_scope.

Module Address.

Definition Bech32PrefixAccount : string := "sovr".
Definition Bech32PrefixValOper : string := "sovrvaloper".
Definition Bech32PrefixValCons : string := "sovrvalcons".
Definition AccountAddressLength : nat := 20.

Inductive code : Type :=
| CodeEmpty | CodeInvalidBech32 | CodeWrongPrefix | CodeWrongLength
| CodeNotAccountType | CodeProhibited | CodeWhitespace.

Record ValidationResult : Type := MkResult {
  vr_Valid : bool; vr_NormalizedAddress : string; vr_ErrorCode : option code }.

Notation PSet := (gset string).
Definition NewPSet (addrs : list string) : PSet := list_to_set addrs.
Definition Contains (p : PSet) (addr : string) : bool := bool_decide (addr ∈ p).

Definition invalid (c : code) : ValidationResult := MkResult false "" (Some c).

(** Space, tab, newline, carriage return, vertical tab, form feed. *)
Definition is_space (c : ascii) : bool :=
  let n := nat_of_ascii c in (n =? 32)%nat || ((9 <=? n)%nat && (n <=? 13)%nat).
Definition is_hex (c : ascii) : bool :=
  let n := nat_of_ascii c in
  ((48 <=? n)%nat && (n <=? 57)%nat) || ((97 <=? n)%nat && (n <=? 102)%nat) ||
  ((65 <=? n)%nat && (n <=? 70)%nat).
Definition is_upper (c : ascii) : bool :=
  let n := nat_of_ascii c in (65 <=? n)%nat && (n <=? 90)%nat.
Definition is_lower (c : ascii) : bool :=
  let n := nat_of_ascii c in (97 <=? n)%nat && (n <=? 122)%nat.

Definition bareHex20Re (t : text) : bool := (List.length t =? 40)%nat && forallb is_hex t.

(** [strings.ToLower(addr) != addr && strings.ToUpper(addr) != addr] *)
Definition mixed_case (t : text) : bool := existsb is_upper t && existsb is_lower t.

Definition has_0x (t : text) : bool :=
  match t with
  | c :: d :: _ => bool_decide (c = "0"%char) && (bool_decide (d = "x"%char) || bool_decide (d = "X"%char))
  | _ => false
  end.

Section validation.
Context `{X : Ext}.

Definition ValidateAccountAddress (addr : string) : ValidationResult :=
  let t := chars addr in
  if bool_decide (addr = "") then invalid CodeEmpty
  else if existsb is_space t then invalid CodeWhitespace
  else if has_0x t || bareHex20Re t then invalid CodeWrongPrefix
  else if mixed_case t then invalid CodeInvalidBech32
  else
    match bech32_DecodeAndConvert addr with
    | Err _ => invalid CodeInvalidBech32
    | Ok (hrp, payload) =>
        if bool_decide (hrp = Bech32PrefixAccount) then
          if negb (List.length payload =? AccountAddressLength)%nat then invalid CodeWrongLength
          else match bech32_ConvertAndEncode Bech32PrefixAccount payload with
               | Err _ => invalid CodeInvalidBech32
               | Ok normalized => MkResult true normalized None
               end
        else if bool_decide (hrp = Bech32PrefixValOper) || bool_decide (hrp = Bech32PrefixValCons)
             then invalid CodeNotAccountType
        else invalid CodeWrongPrefix
    end.

Definition ValidateAccountAddressStrict (addr : string) (prohibited : PSet) : ValidationResult :=
  let res := ValidateAccountAddress addr in
  if negb (vr_Valid res) then res
  else if Contains prohibited (vr_NormalizedAddress res) then invalid CodeProhibited
  else res.

Definition ModuleAccountAddress (name : string) : result err string :=
  if bool_decide (name = "") then Err ErrOther
  else bech32_ConvertAndEncode Bech32PrefixAccount (address_Module name).

Definition legacyRenamedModuleAccountAddress : string :=
  "sovr1evp0da9u6kzn5c3j745qyj379grxhhzwrp5fh8".

Definition module_names : list string :=
  ["auction"; "auction_bond_escrow"; "bandwidth"; "bonded_tokens_pool"; "bootstrap"; "bridge";
   "compute"; "disputebonds"; "distribution"; "distro"; "evmbridge"; "exchange_allocation";
   "fee_collector"; "gateway"; "gov"; "hyperlane"; "identity"; "inference"; "interchainaccounts";
   "lockup"; "nft"; "nodelicense"; "not_bonded_tokens_pool"; "oracle"; "payments"; "policy";
   "settlement"; "settlement_rewards"; "storage"; "supply"; "track_a"; "transfer"; "vectordb";
   "warp"; "wasm"].

Definition DefaultProhibitedModuleAccounts : PSet :=
  {[ legacyRenamedModuleAccountAddress ]} ∪
  list_to_set (omap (fun n => match ModuleAccountAddress n with Ok a => Some a | Err _ => None end)
                 module_names).

(** ** What validation accepts *)

(** bech32 decoding accepts only what encodes a payload, in one case, and
    encoding is its inverse. *)
Class Bech32Laws : Prop := {
  bech32_roundtrip : forall hrp payload a,
    bech32_ConvertAndEncode hrp payload = Ok a -> bech32_DecodeAndConvert a = Ok (hrp, payload);
  bech32_encode_clean : forall payload a,
    bech32_ConvertAndEncode Bech32PrefixAccount payload = Ok a ->
    a <> "" /\ existsb is_space (chars a) = false /\ has_0x (chars a) = false /\
    bareHex20Re (chars a) = false /\ mixed_case (chars a) = false }.

Lemma validate_valid addr r :
  ValidateAccountAddress addr = r -> vr_Valid r = true ->
  exists payload, bech32_DecodeAndConvert addr = Ok (Bech32PrefixAccount, payload) /\
    List.length payload = AccountAddressLength /\
    bech32_ConvertAndEncode Bech32PrefixAccount payload = Ok (vr_NormalizedAddress r).
Proof.
  intros <-. unfold ValidateAccountAddress.
  destruct (bool_decide _); [done|]. destruct (existsb _ _); [done|].
  destruct (_ || _); [done|]. destruct (mixed_case _); [done|].
  destruct (bech32_DecodeAndConvert addr) as [[hrp payload]|]; [|done].
  case_bool_decide as Hh; [subst hrp | by destruct (_ || _)].
  destruct (List.length payload =? AccountAddressLength)%nat eqn:Hl; [|done]. simpl.
  destruct (bech32_ConvertAndEncode _ payload) as [a|] eqn:He; [|done].
  intros _. exists payload. apply Nat.eqb_eq in Hl. done.
Qed.

(** The normalized address is a fixed point.  An accepted address
    decodes to a 20-byte account payload, its normalized form is the
    canonical encoding of that payload, and validating the normalized form
    accepts it unchanged. *)
Theorem normalized_canonical `{!Bech32Laws} (addr : string)
    (Hv : vr_Valid (ValidateAccountAddress addr) = true) :
  exists payload, bech32_DecodeAndConvert addr = Ok (Bech32PrefixAccount, payload) /\
    List.length payload = AccountAddressLength /\
    ValidateAccountAddress (vr_NormalizedAddress (ValidateAccountAddress addr)) =
      MkResult true (vr_NormalizedAddress (ValidateAccountAddress addr)) None.
Proof.
  destruct (validate_valid addr _ eq_refl Hv) as (payload & Hd & Hl & He).
  exists payload. split_and!; [done..|].
  set (a := vr_NormalizedAddress _) in *.
  destruct (bech32_encode_clean payload a He) as (Hne & Hsp & H0 & Hx & Hm).
  unfold ValidateAccountAddress. rewrite bool_decide_eq_false_2 by done.
  rewrite Hsp, H0, Hx, Hm. simpl. rewrite (bech32_roundtrip _ _ _ He).
  rewrite bool_decide_eq_true_2 by done. rewrite Hl. simpl. by rewrite He.
Qed.

(** The withdrawal blocklist is enforced on the normalized address.
    A strict validation with the default set accepts no spelling of the
    address of any listed module account, nor of the legacy account. *)
Theorem strict_rejects_modules (addr m : string) (p : PSet)
    (Hp : DefaultProhibitedModuleAccounts ⊆ p)
    (Hm : m = legacyRenamedModuleAccountAddress \/
          exists n, n ∈ module_names /\ ModuleAccountAddress n = Ok m)
    (Hn : vr_NormalizedAddress (ValidateAccountAddress addr) = m) :
  vr_Valid (ValidateAccountAddressStrict addr p) = false.
Proof.
  unfold ValidateAccountAddressStrict.
  destruct (vr_Valid (ValidateAccountAddress addr)) eqn:Hv; simpl; [|done].
  unfold Contains. rewrite Hn, bool_decide_eq_true_2; [done|].
  apply Hp. unfold DefaultProhibitedModuleAccounts. apply elem_of_union.
  destruct Hm as [-> | (n & Hin & Ha)]; [left; by apply elem_of_singleton|right].
  apply elem_of_list_to_set, list_elem_of_omap. exists n. by rewrite Ha.
Qed.
End validation.

End Address.
