(* ===== verification/Tx.v ===== *)
(** * Tx: building, describing and assembling a transfer

    [go/tx/tx.go] and [go/tx/summary.go].  A transaction is one [MsgSend]:
    [BuildMsgSend] validates the inputs, [SignDoc] fixes the bytes to sign and
    decodes a summary back out of them ([DeriveSummary]), [Assemble] checks the
    signature and produces the bytes to broadcast with their hash.  Encoding
    and cryptography are the [Ext] parameters; SHA-256 is [Hash.Sum256]. *)

From stdpp Require Import base list strings.
From Stdlib Require Import ZArith Lia Ascii String Strings.Byte.
From S2P Require Import Prelude Text Storage Chain Hash.

Open Scope string_scope.
Open Scope list_scope.
Open Scope Z_scope.

Module Tx.

Definition Denom : string := "usovr".
Definition MsgSendTypeURL : string := "/cosmos.bank.v1beta1.MsgSend".
Definition secp256k1PubKeyTypeURL : string := "/cosmos.crypto.secp256k1.PubKey".
Definition PubKeySize : nat := 33.
Definition accountAddressLen : nat := 20.

Inductive error : Type :=
| ErrInvalidAddress | ErrInvalidAmount | ErrAmountNotPositive | ErrAmountTooLarge | ErrInvalidFee
| ErrInvalidGasLimit | ErrEmptyChainID | ErrNotBuilt | ErrNoSignDoc | ErrInvalidSignature
| ErrInvalidPubKey | ErrPubKeyMismatch | ErrMalformedSignDoc | ErrSummaryMismatch
| ErrEncoding.

Record Fee : Type := MkFee { fee_AmountBaseUnits : string; fee_GasLimit : Z }.
Record SignatureResponse : Type := MkSignature { sg_Signature : bytes; sg_PubKeyCompressed : bytes }.

Record UnsignedTx : Type := MkUnsigned {
  u_from : string; u_to : string; u_fromBytes : bytes; u_amount : Z; u_memo : string;
  u_pubKeyCompressed : bytes; u_bodyBytes : bytes; u_authInfoBytes : bytes; u_signDocBytes : bytes }.

Definition is_digits (t : text) : bool := negb (bool_decide (t = [])) && forallb is_digit t.

(** A 33-byte key starting with 02 or 03. *)
Definition compressed (k : bytes) : bool :=
  (List.length k =? PubKeySize)%nat &&
  match k with b :: _ => bool_decide (b = x02) || bool_decide (b = x03) | [] => false end.

Definition FormatUint (n : Z) : string := of_chars (numeral n).

(** [sdkmath.Int.String] *)
Definition int_String (n : Z) : string :=
  if n <? 0 then ("-" ++ FormatUint (- n))%string else FormatUint n.

Notation "'try' x := e 'in' k" :=
  (match e with Ok x => k | Err er => Err er end)
  (at level 10, x pattern, e at level 100, k at level 200).

(** [if !b { return err }] *)
Definition ensure (b : bool) (e : error) : result error unit := if b then Ok tt else Err e.

Section tx.
Context `{X : Ext}.

Definition parseBaseUnits (s : string) (allowZero : bool) : result error Z :=
  let t := chars s in
  if bool_decide (s = "") then Err ErrInvalidAmount
  else if negb (is_digits t) then
    match t with
    | c :: t' => if bool_decide (c = "-"%char) && is_digits t' then Err ErrAmountNotPositive
                 else Err ErrInvalidAmount
    | [] => Err ErrInvalidAmount
    end
  else match NewIntFromString s with
       | None => Err ErrAmountTooLarge
       | Some n => if negb allowZero && (n =? 0) then Err ErrAmountNotPositive else Ok n
       end.

Definition decodeAccountAddress (addr : string) : result error bytes :=
  match codec_StringToBytes addr with
  | Err _ => Err ErrInvalidAddress
  | Ok bz =>
      if negb (List.length bz =? accountAddressLen)%nat then Err ErrInvalidAddress
      else match codec_BytesToString bz with
           | Ok c => if bool_decide (c = addr) then Ok bz else Err ErrInvalidAddress
           | Err _ => Err ErrInvalidAddress
           end
  end.

Definition BuildMsgSend (from to amountBaseUnits memo : string) : result error UnsignedTx :=
  try fromBytes := decodeAccountAddress from in
  try _ := decodeAccountAddress to in
  try amount := parseBaseUnits amountBaseUnits false in
  Ok (MkUnsigned from to fromBytes amount memo [] [] [] []).

Definition one {A} (l : list A) : result error A :=
  match l with [x] => Ok x | _ => Err ErrMalformedSignDoc end.

Definition decoded {A} (o : option A) : result error A :=
  match o with Some a => Ok a | None => Err ErrMalformedSignDoc end.

(** The fee line of the summary. *)
Definition summary_fee (coins : list Coin) : result error string :=
  match coins with
  | [] => Ok "0"
  | [c] => match coin_Amount c with
           | Some n => if bool_decide (coin_Denom c = Denom) && (0 <=? n) then Ok (FormatUint n)
                       else Err ErrMalformedSignDoc
           | None => Err ErrMalformedSignDoc
           end
  | _ => Err ErrMalformedSignDoc
  end.

Definition plain_body (b : TxBody) : bool :=
  (tb_TimeoutHeight b =? 0) && negb (tb_Unordered b) &&
  match tb_TimeoutTimestamp b, tb_ExtensionOptions b, tb_NonCriticalExtensionOptions b with
  | None, [], [] => true
  | _, _, _ => false
  end.

Definition DeriveSummary (signDocBytes : bytes) : result error SigningSummary :=
  try doc := decoded (strictSignDoc signDocBytes) in
  try body := decoded (strictTxBody (sd_BodyBytes doc)) in
  try authInfo := decoded (strictAuthInfo (sd_AuthInfoBytes doc)) in
  try _ := ensure (plain_body body) ErrMalformedSignDoc in
  try msgAny := one (tb_Messages body) in
  try _ := ensure (bool_decide (any_TypeUrl msgAny = MsgSendTypeURL)) ErrMalformedSignDoc in
  try send := decoded (unmarshalMsgSend (any_Value msgAny)) in
  try coin := one (ms_Amount send) in
  try _ := ensure (bool_decide (coin_Denom coin = Denom)) ErrMalformedSignDoc in
  try amount := decoded (coin_Amount coin) in
  try _ := ensure (0 <? amount) ErrMalformedSignDoc in
  try fee := decoded (ai_Fee authInfo) in
  try _ := ensure (bool_decide (fm_Payer fee = "") && bool_decide (fm_Granter fee = "") &&
                   negb (ai_Tip authInfo)) ErrMalformedSignDoc in
  try feeBaseUnits := summary_fee (fm_Amount fee) in
  try signerInfo := one (ai_SignerInfos authInfo) in
  try pkAny := decoded (si_PublicKey signerInfo) in
  try _ := ensure (bool_decide (any_TypeUrl pkAny = secp256k1PubKeyTypeURL)) ErrMalformedSignDoc in
  try pubKey := decoded (unmarshalPubKey (any_Value pkAny)) in
  try _ := ensure (compressed pubKey) ErrMalformedSignDoc in
  try _ := ensure (match codec_BytesToString (pubkey_Address pubKey) with
                   | Ok a => bool_decide (a = ms_FromAddress send)
                   | Err _ => false
                   end) ErrMalformedSignDoc in
  try _ := ensure (match si_SingleMode signerInfo with Some SIGN_MODE_DIRECT => true | _ => false end)
             ErrMalformedSignDoc in
  Ok (MkSummary (sd_ChainId doc) (FormatUint (sd_AccountNumber doc))
        (FormatUint (si_Sequence signerInfo)) MsgSendTypeURL (ms_FromAddress send)
        (ms_ToAddress send) (FormatUint amount) (coin_Denom coin) feeBaseUnits
        (FormatUint (fm_GasLimit fee)) (tb_Memo body)).

Definition VerifySummary (signDocBytes : bytes) (summary : SigningSummary) : result error unit :=
  try derived := DeriveSummary signDocBytes in
  ensure (bool_decide (derived = summary)) ErrSummaryMismatch.

Definition encoding {A} (r : result err A) : result error A :=
  match r with Ok a => Ok a | Err _ => Err ErrEncoding end.

(** Returns the sign-doc bytes, the summary and the transaction with the
    bytes recorded in it. *)
Definition SignDoc (u : UnsignedTx) (chainID : string) (accountNumber sequence : Z) (fee : Fee)
    (pubKeyCompressed : bytes) : result error (bytes * SigningSummary * UnsignedTx) :=
  try _ := ensure (negb (bool_decide (u_fromBytes u = []))) ErrNotBuilt in
  try _ := ensure (negb (bool_decide (chainID = ""))) ErrEmptyChainID in
  try _ := ensure (negb (fee_GasLimit fee =? 0)) ErrInvalidGasLimit in
  match parseBaseUnits (fee_AmountBaseUnits fee) true with
  | Err _ => Err ErrInvalidFee
  | Ok feeAmount =>
      try _ := ensure (compressed pubKeyCompressed) ErrInvalidPubKey in
      try _ := ensure (bool_decide (pubkey_Address pubKeyCompressed = u_fromBytes u)) ErrPubKeyMismatch in
      let feeCoins := if feeAmount =? 0 then [] else [MkCoin Denom (Some feeAmount)] in
      try (body, auth) := encoding (encodeTx (MkTxContent
             (MkMsgSend (u_from u) (u_to u) [MkCoin Denom (Some (u_amount u))]) (u_memo u)
             (fee_GasLimit fee) feeCoins pubKeyCompressed sequence)) in
      try signDocBytes := encoding (getSignBytes chainID accountNumber body auth) in
      try summary := DeriveSummary signDocBytes in
      Ok (signDocBytes, summary,
          MkUnsigned (u_from u) (u_to u) (u_fromBytes u) (u_amount u) (u_memo u)
            pubKeyCompressed body auth signDocBytes)
  end.

Definition Assemble (u : UnsignedTx) (sig : SignatureResponse) : result error (bytes * string) :=
  try _ := ensure (negb (bool_decide (u_fromBytes u = []))) ErrNotBuilt in
  try _ := ensure (negb (bool_decide (u_signDocBytes u = []))) ErrNoSignDoc in
  try _ := ensure (compressed (sg_PubKeyCompressed sig)) ErrInvalidPubKey in
  try _ := ensure (bool_decide (sg_PubKeyCompressed sig = u_pubKeyCompressed u)) ErrPubKeyMismatch in
  try _ := ensure (List.length (sg_Signature sig) =? 64)%nat ErrInvalidSignature in
  try _ := ensure (pubkey_VerifySignature (sg_PubKeyCompressed sig) (u_signDocBytes u) (sg_Signature sig))
             ErrInvalidSignature in
  try _ := ensure (bool_decide (pubkey_Address (sg_PubKeyCompressed sig) = u_fromBytes u)) ErrPubKeyMismatch in
  try signedTxBytes := encoding (marshalTxRaw (u_bodyBytes u) (u_authInfoBytes u) [sg_Signature sig]) in
  Ok (signedTxBytes, Hash.TxHash signedTxBytes).

(** ** The summary describes the transfer *)

(** Documented behaviour of the SDK encoder: the body holds the one message
    and the memo and no option, the auth info the fee, the embedded key and
    the sequence; the sign doc holds the two byte strings it was given, the
    chain and the account number. *)
Class EncodingLaws : Prop := {
  encodeTx_decodes : forall c body auth, encodeTx c = Ok (body, auth) ->
    exists mv pv,
      strictTxBody body = Some (MkTxBody [MkAny MsgSendTypeURL mv] (tc_Memo c) 0 false None [] []) /\
      unmarshalMsgSend mv = Some (tc_Msg c) /\
      strictAuthInfo auth = Some (MkAuthInfo
        [MkSignerInfo (Some (MkAny secp256k1PubKeyTypeURL pv)) (Some SIGN_MODE_DIRECT) (tc_Sequence c)]
        (Some (MkFeeMsg (tc_Fee c) (tc_GasLimit c) "" "")) false) /\
      unmarshalPubKey pv = Some (tc_PubKey c);
  getSignBytes_decodes : forall chain acct body auth doc,
    getSignBytes chain acct body auth = Ok doc ->
    strictSignDoc doc = Some (MkSignDocMsg body auth chain acct) }.

Lemma digits_value `{!NumericLaws X} s n :
  is_digits (chars s) = true -> NewIntFromString s = Some n -> value (chars s) = n /\ 0 <= n.
Proof.
  unfold is_digits. intros [Hne Hd]%andb_true_iff. apply negb_true_iff, bool_decide_eq_false in Hne.
  assert (all_digits (chars s)) as Hall.
  { apply Forall_forall. intros c Hc. rewrite forallb_forall in Hd. by apply Hd, list_elem_of_In. }
  rewrite <-(of_chars_chars s) at 1. rewrite NewIntFromString_digits by done. case_decide; [|done].
  intros [= <-]. split; [done|]. apply (value_range _ Hall).
Qed.

Lemma parseBaseUnits_value `{!NumericLaws X} s allowZero n :
  parseBaseUnits s allowZero = Ok n -> value (chars s) = n /\ 0 <= n /\ (allowZero = false -> 0 < n).
Proof.
  unfold parseBaseUnits. case_bool_decide as He; [done|].
  destruct (is_digits (chars s)) eqn:Hd; simpl; [|destruct (chars s); [done|by destruct (_ && _)]].
  destruct (NewIntFromString s) as [v|] eqn:Hv; [|done]. destruct (digits_value s v Hd Hv) as [Ev Hv0].
  destruct (negb allowZero && (v =? 0)) eqn:Hz; [done|].
  intros [= <-]. split_and!; [done..|]. intros ->. simpl in Hz. apply Z.eqb_neq in Hz. lia.
Qed.

Lemma ensure_ok {A} b e (k : unit -> result error A) r :
  (match ensure b e with Ok x => k x | Err er => Err er end) = Ok r -> b = true /\ k tt = Ok r.
Proof. by destruct b. Qed.

(** Whatever the encoder does, the summary is decoded from the bytes that
    will be signed, and those bytes are recorded for [Assemble]. *)
Lemma SignDoc_derived u chain acct seq fee pk doc sum u' :
  SignDoc u chain acct seq fee pk = Ok (doc, sum, u') ->
  DeriveSummary doc = Ok sum /\ u_signDocBytes u' = doc /\ u_fromBytes u' = u_fromBytes u /\
  u_pubKeyCompressed u' = pk /\ pubkey_Address pk = u_fromBytes u.
Proof.
  intros H. unfold SignDoc in H. do 3 apply ensure_ok in H as [_ H].
  destruct (parseBaseUnits _ true); [|done]. apply ensure_ok in H as [_ H].
  apply ensure_ok in H as [Ha H]. apply bool_decide_eq_true in Ha.
  destruct (encoding (encodeTx _)) as [[body auth]|]; [|done].
  destruct (encoding (getSignBytes _ _ _ _)) as [bz|]; [|done].
  destruct (DeriveSummary bz) as [sm|] eqn:Hd; [|done]. by injection H as <- <- <-.
Qed.

Lemma SignDoc_compressed u chain acct seq fee pk r : SignDoc u chain acct seq fee pk = Ok r -> compressed pk = true.
Proof.
  intros H. unfold SignDoc in H. do 3 apply ensure_ok in H as [_ H].
  destruct (parseBaseUnits _ true); [|done]. by apply ensure_ok in H as [? _].
Qed.

(** The summary of the bytes [SignDoc] hands out. *)
Lemma SignDoc_ok `{!NumericLaws X, !EncodingLaws} u chain acct seq fee pk doc sum u' :
  0 <= u_amount u -> SignDoc u chain acct seq fee pk = Ok (doc, sum, u') ->
  sum = MkSummary chain (FormatUint acct) (FormatUint seq) MsgSendTypeURL (u_from u) (u_to u)
    (FormatUint (u_amount u)) Denom (FormatUint (value (chars (fee_AmountBaseUnits fee))))
    (FormatUint (fee_GasLimit fee)) (u_memo u).
Proof.
  intros Hamt Hr. unfold SignDoc in Hr.
  do 3 apply ensure_ok in Hr as [_ Hr].
  destruct (parseBaseUnits _ true) as [fa|] eqn:Hf; [|done].
  apply parseBaseUnits_value in Hf as (Hfv & Hf0 & _). rewrite Hfv.
  do 2 apply ensure_ok in Hr as [_ Hr].
  destruct (encodeTx _) as [[body auth]|] eqn:He; simpl in Hr; [|done].
  apply encodeTx_decodes in He as (mv & pv & Hb & Hm & Ha & Hp). simpl in *.
  destruct (getSignBytes _ _ _ _) as [bz|] eqn:Hg; simpl in Hr; [|done].
  apply getSignBytes_decodes in Hg.
  unfold DeriveSummary in Hr. rewrite Hg in Hr. simpl in Hr. rewrite Hb, Ha in Hr. simpl in Hr.
  rewrite Hm in Hr. simpl in Hr.
  destruct (0 <? u_amount u); [|done]. simpl in Hr.
  destruct (summary_fee _) as [fs|] eqn:Hs; [|done].
  assert (fs = FormatUint fa) as ->.
  { destruct (Z.eqb_spec fa 0) as [->|]; simpl in Hs; [by injection Hs as <-|].
    destruct (0 <=? fa); [|done]. by injection Hs as <-. }
  rewrite Hp in Hr. simpl in Hr.
  destruct (compressed pk); [|done]. simpl in Hr.
  destruct (codec_BytesToString _) as [a|]; [|done]. simpl in Hr.
  destruct (bool_decide (a = u_from u)); [|done]. simpl in Hr. by injection Hr as <- <- <-.
Qed.

(** A built transfer and the summary of its sign doc. *)
Lemma BuildMsgSend_ok `{!NumericLaws X} from to amount memo u :
  BuildMsgSend from to amount memo = Ok u ->
  u_from u = from /\ u_to u = to /\ u_memo u = memo /\ u_amount u = value (chars amount) /\ 0 < u_amount u.
Proof.
  unfold BuildMsgSend. destruct (decodeAccountAddress from); [|done].
  destruct (decodeAccountAddress to); [|done].
  destruct (parseBaseUnits amount false) as [n|] eqn:Hn; [|done]. intros [= <-]. simpl.
  apply parseBaseUnits_value in Hn as (Hv & H0 & Hpos). specialize (Hpos eq_refl). done.
Qed.

Lemma built_summary `{!NumericLaws X, !EncodingLaws} from to amount memo chain acct seq fee pk doc u u' sum :
  BuildMsgSend from to amount memo = Ok u -> SignDoc u chain acct seq fee pk = Ok (doc, sum, u') ->
  sum = MkSummary chain (FormatUint acct) (FormatUint seq) MsgSendTypeURL from to
    (FormatUint (value (chars amount))) Denom (FormatUint (value (chars (fee_AmountBaseUnits fee))))
    (FormatUint (fee_GasLimit fee)) memo /\ 0 < value (chars amount).
Proof.
  intros Hb Hs. destruct (BuildMsgSend_ok _ _ _ _ _ Hb) as (<- & <- & <- & <- & Hpos).
  split; [|done]. apply (SignDoc_ok u _ _ _ _ _ _ _ _ ltac:(lia) Hs).
Qed.

(** C38: what the signer is shown is what was requested.  The summary decoded
    from the sign-doc bytes of a built transfer names the requested sender,
    recipient, amount, memo, fee, gas limit, chain, account number and
    sequence. *)
Theorem summary_describes_transfer `{!NumericLaws X, !EncodingLaws}
    (from to amount memo chain : string) (acct seq : Z) (fee : Fee) (pk doc : bytes)
    (u u' : UnsignedTx) (sum : SigningSummary)
    (Hb : BuildMsgSend from to amount memo = Ok u)
    (Hs : SignDoc u chain acct seq fee pk = Ok (doc, sum, u')) :
  sum = MkSummary chain (FormatUint acct) (FormatUint seq) MsgSendTypeURL from to
    (FormatUint (value (chars amount))) Denom (FormatUint (value (chars (fee_AmountBaseUnits fee))))
    (FormatUint (fee_GasLimit fee)) memo /\
  0 < value (chars amount) /\ VerifySummary doc sum = Ok tt /\ u_signDocBytes u' = doc.
Proof.
  destruct (built_summary _ _ _ _ _ _ _ _ _ _ _ _ _ Hb Hs) as [Hsum Hpos].
  destruct (SignDoc_derived _ _ _ _ _ _ _ _ _ Hs) as (Hd & Hu & _).
  split_and!; [done..| |done]. unfold VerifySummary. rewrite Hd. simpl.
  by rewrite bool_decide_eq_true_2.
Qed.

(** A signed transaction: the signature verifies over the sign doc under the
    key that was embedded in it and that derives the sender, and the hash is
    the hash of the returned bytes. *)
Lemma Assemble_ok u sig bz h :
  Assemble u sig = Ok (bz, h) ->
  h = Hash.TxHash bz /\ marshalTxRaw (u_bodyBytes u) (u_authInfoBytes u) [sg_Signature sig] = Ok bz /\
  pubkey_VerifySignature (u_pubKeyCompressed u) (u_signDocBytes u) (sg_Signature sig) = true /\
  pubkey_Address (u_pubKeyCompressed u) = u_fromBytes u.
Proof.
  intros H. unfold Assemble in H. do 3 apply ensure_ok in H as [_ H].
  apply ensure_ok in H as [Hk H]. apply bool_decide_eq_true in Hk as <-.
  apply ensure_ok in H as [_ H]. apply ensure_ok in H as [Hv H].
  apply ensure_ok in H as [Ha H]. apply bool_decide_eq_true in Ha.
  destruct (marshalTxRaw _ _ _) as [b|]; [|done]. by injection H as <- <-.
Qed.

(** [bz] is a signed transfer of [amount] from [source] to [dest] with [memo],
    made for [chainID] at sequence [seq]: it was assembled from a sign doc for
    that transfer with a signature that verifies. *)
Definition signed_transfer (bz : bytes) (chainID source dest amount memo : string) (seq : Z) : Prop :=
  exists acct fee pk unsigned doc summary u sig,
    BuildMsgSend source dest amount memo = Ok unsigned /\
    SignDoc unsigned chainID acct seq fee pk = Ok (doc, summary, u) /\
    Assemble u sig = Ok (bz, Hash.TxHash bz).
End tx.

End Tx.
