(* ===== verification/SignerWire.v ===== *)
(** * SignerWire: the byte encoding of the remote-signer messages

    The marshalling code of [go/gen/sovren/signer/v1/signer.pb.go], the wire
    contract between the adapter and an exchange's signing service.  Marshalling
    allocates a buffer of the computed size and fills it from its end; a write
    outside the buffer panics and is [None] here.  Unmarshalling walks the bytes
    with an index of type [int]: here the bytes still to read are kept, and the
    index is the length read so far.  64-bit and 32-bit integers are [Z] with
    their wrap-around written out.  Each message's [Unmarshal] is the loop
    [Unmarshal_loop] with the message's own [switch fieldNum].

    [SignerWireLaws] proves that the buffer is exactly filled with the
    canonical encoding and that unmarshalling gives the message back. *)

From stdpp Require Import base list strings.
From Stdlib Require Import ZArith Lia String Strings.Byte.
From S2P Require Import Prelude Storage Chain Hash.

Open Scope string_scope.
Open Scope list_scope.
Open Scope Z_scope.

Module SignerWire.

(** ** Machine integers *)

Definition w64 (x : Z) : Z := x mod 2 ^ 64.
Definition i64 (x : Z) : Z := (x + 2 ^ 63) mod 2 ^ 64 - 2 ^ 63.
Definition i32 (x : Z) : Z := (x + 2 ^ 31) mod 2 ^ 32 - 2 ^ 31.

Definition len (b : bytes) : Z := Z.of_nat (List.length b).
Definition text (s : string) : bytes := list_byte_of_string s.

(** ** Messages *)

Definition SignerErrorCode : Type := Z.
Definition SIGNER_ERROR_CODE_UNSPECIFIED : SignerErrorCode := 0.
Definition SIGNER_ERROR_CODE_KEY_NOT_FOUND : SignerErrorCode := 1.
Definition SIGNER_ERROR_CODE_SUMMARY_MISMATCH : SignerErrorCode := 2.
Definition SIGNER_ERROR_CODE_POLICY_REJECTED : SignerErrorCode := 3.
Definition SIGNER_ERROR_CODE_SIGNER_UNAVAILABLE : SignerErrorCode := 4.
Definition SIGNER_ERROR_CODE_INTERNAL : SignerErrorCode := 5.

Record GetPublicKeyRequest : Type := MkKeyRequest { gq_KeyRef : string }.
Record GetPublicKeyResponse : Type := MkKeyResponse {
  gr_KeyRef : string; gr_Algorithm : string; gr_PublicKeyCompressed : bytes }.
Record Summary : Type := MkWireSummary {
  pm_ChainId : string; pm_AccountNumber : string; pm_Sequence : string; pm_MessageType : string;
  pm_SenderAddress : string; pm_RecipientAddress : string; pm_AmountBaseUnits : string;
  pm_Denom : string; pm_FeeBaseUnits : string; pm_GasLimit : string; pm_Memo : string }.
Record SignRequest : Type := MkSignRequest {
  sr_KeyRef : string; sr_SignMode : string; sr_SignDocBytes : bytes; sr_Summary : option Summary }.
Record SignResponse : Type := MkSignResponse {
  so_KeyRef : string; so_Signature : bytes; so_PublicKeyCompressed : bytes }.
Record SignerErrorDetail : Type := MkErrorDetail { ed_Code : SignerErrorCode; ed_Detail : string }.

(** ** Size *)

(** [math_bits.Len64] *)
Definition Len64 (x : Z) : Z := if x =? 0 then 0 else Z.log2 x + 1.
Definition sovSigner (x : Z) : Z := (Len64 (Z.lor x 1) + 6) / 7.

(** [if l > 0 { n += 1 + l + sovSigner(uint64(l)) }] *)
Definition size_field (v : bytes) : Z :=
  if 0 <? len v then 1 + len v + sovSigner (w64 (len v)) else 0.

Definition GetPublicKeyRequest_Size (m : GetPublicKeyRequest) : Z := size_field (text (gq_KeyRef m)).
Definition GetPublicKeyResponse_Size (m : GetPublicKeyResponse) : Z :=
  size_field (text (gr_KeyRef m)) + size_field (text (gr_Algorithm m)) +
  size_field (gr_PublicKeyCompressed m).
Definition Summary_Size (m : Summary) : Z :=
  size_field (text (pm_ChainId m)) + size_field (text (pm_AccountNumber m)) +
  size_field (text (pm_Sequence m)) + size_field (text (pm_MessageType m)) +
  size_field (text (pm_SenderAddress m)) + size_field (text (pm_RecipientAddress m)) +
  size_field (text (pm_AmountBaseUnits m)) + size_field (text (pm_Denom m)) +
  size_field (text (pm_FeeBaseUnits m)) + size_field (text (pm_GasLimit m)) +
  size_field (text (pm_Memo m)).
Definition SignRequest_Size (m : SignRequest) : Z :=
  size_field (text (sr_KeyRef m)) + size_field (text (sr_SignMode m)) +
  size_field (sr_SignDocBytes m) +
  match sr_Summary m with
  | Some s => let l := Summary_Size s in 1 + l + sovSigner (w64 l)
  | None => 0
  end.
Definition SignResponse_Size (m : SignResponse) : Z :=
  size_field (text (so_KeyRef m)) + size_field (so_Signature m) + size_field (so_PublicKeyCompressed m).
Definition SignerErrorDetail_Size (m : SignerErrorDetail) : Z :=
  (if ed_Code m =? 0 then 0 else 1 + sovSigner (w64 (ed_Code m))) + size_field (text (ed_Detail m)).

(** ** Marshal *)

(** The buffer [dAtA] and the index [i]. *)
Definition cursor : Type := bytes * Z.

(** [dAtA[i] = x] *)
Definition set_byte (d : bytes) (i : Z) (x : Z) : option bytes :=
  if (0 <=? i) && (i <? len d) then Some (<[Z.to_nat i := Hash.val_byte x]> d) else None.

(** [copy(dAtA[i:], v)] *)
Definition copy_at (d : bytes) (i : Z) (v : bytes) : option bytes :=
  if (0 <=? i) && (i <=? len d) then
    let k := Z.to_nat i in
    Some (take k d ++ take (List.length d - k) v ++ drop (k + List.length v) d)
  else None.

Fixpoint encodeVarint_loop (steps : nat) (d : bytes) (offset v : Z) : option bytes :=
  match steps with
  | O => None
  | S steps' =>
      if 128 <=? v then
        match set_byte d offset (Z.lor (Z.land v 0x7f) 0x80) with
        | Some d' => encodeVarint_loop steps' d' (offset + 1) (Z.shiftr v 7)
        | None => None
        end
      else set_byte d offset v
  end.

(** [encodeVarintSigner]: ten steps are enough for 64 bits. *)
Definition encodeVarintSigner (d : bytes) (offset v : Z) : option cursor :=
  let base := offset - sovSigner v in
  match encodeVarint_loop 10 d base v with Some d' => Some (d', base) | None => None end.

(** [i--; dAtA[i] = tag] *)
Definition put_tag (tag : Z) (c : cursor) : option cursor :=
  let i := snd c - 1 in
  match set_byte (fst c) i tag with Some d => Some (d, i) | None => None end.

Notation "'need' x := e 'in' k" :=
  (match e with Some x => k | None => None end)
  (at level 10, x pattern, e at level 100, k at level 200).

(** One [if len(m.F) > 0 { ... }] block for a string or bytes field. *)
Definition put_field (tag : Z) (v : bytes) (c : cursor) : option cursor :=
  if 0 <? len v then
    let i := snd c - len v in
    need d := copy_at (fst c) i v in
    need c := encodeVarintSigner d i (w64 (len v)) in
    put_tag tag c
  else Some c.

(** The fields of a message in the order the code writes them. *)
Fixpoint put_fields (fs : list (Z * bytes)) (c : cursor) : option cursor :=
  match fs with
  | [] => Some c
  | (tag, v) :: fs' => need c := put_field tag v c in put_fields fs' c
  end.

(** [MarshalToSizedBuffer]: each starts at [i := len(dAtA)] and returns the
    buffer with the bytes written, [len(dAtA) - i]. *)
Definition GetPublicKeyRequest_fill (m : GetPublicKeyRequest) (d : bytes) : option cursor :=
  put_fields [(0xa, text (gq_KeyRef m))] (d, len d).

Definition GetPublicKeyResponse_fill (m : GetPublicKeyResponse) (d : bytes) : option cursor :=
  put_fields [(0x1a, gr_PublicKeyCompressed m); (0x12, text (gr_Algorithm m));
              (0xa, text (gr_KeyRef m))] (d, len d).

Definition Summary_fill (m : Summary) (d : bytes) : option cursor :=
  put_fields
    [(0x5a, text (pm_Memo m)); (0x52, text (pm_GasLimit m)); (0x4a, text (pm_FeeBaseUnits m));
     (0x42, text (pm_Denom m)); (0x3a, text (pm_AmountBaseUnits m));
     (0x32, text (pm_RecipientAddress m)); (0x2a, text (pm_SenderAddress m));
     (0x22, text (pm_MessageType m)); (0x1a, text (pm_Sequence m));
     (0x12, text (pm_AccountNumber m)); (0xa, text (pm_ChainId m))] (d, len d).

Definition SignRequest_fill (m : SignRequest) (d : bytes) : option cursor :=
  need c := match sr_Summary m with
          | Some s =>
              let i := len d in
              need (p, j) := Summary_fill s (take (Z.to_nat i) d) in
              let size := len p - j in
              let d := p ++ drop (Z.to_nat i) d in
              let i := i - size in
              need c := encodeVarintSigner d i (w64 size) in
              put_tag 0x22 c
          | None => Some (d, len d)
          end in
  put_fields [(0x1a, sr_SignDocBytes m); (0x12, text (sr_SignMode m)); (0xa, text (sr_KeyRef m))] c.

Definition SignResponse_fill (m : SignResponse) (d : bytes) : option cursor :=
  put_fields [(0x1a, so_PublicKeyCompressed m); (0x12, so_Signature m);
              (0xa, text (so_KeyRef m))] (d, len d).

Definition SignerErrorDetail_fill (m : SignerErrorDetail) (d : bytes) : option cursor :=
  need c := put_field 0x12 (text (ed_Detail m)) (d, len d) in
  if ed_Code m =? 0 then Some c
  else
    need c := encodeVarintSigner (fst c) (snd c) (w64 (ed_Code m)) in
    put_tag 0x8 c.

(** [Marshal]: a buffer of [Size] zero bytes, filled; [dAtA[:n]] for the [n]
    bytes written. *)
Definition Marshal {M} (Size : M -> Z) (fill : M -> bytes -> option cursor) (m : M) : option bytes :=
  let size := Size m in
  need (d, i) := fill m (repeat x00 (Z.to_nat size)) in
  Some (take (Z.to_nat (len d - i)) d).

Definition GetPublicKeyRequest_Marshal := Marshal GetPublicKeyRequest_Size GetPublicKeyRequest_fill.
Definition GetPublicKeyResponse_Marshal := Marshal GetPublicKeyResponse_Size GetPublicKeyResponse_fill.
Definition SignRequest_Marshal := Marshal SignRequest_Size SignRequest_fill.
Definition SignResponse_Marshal := Marshal SignResponse_Size SignResponse_fill.
Definition SignerErrorDetail_Marshal := Marshal SignerErrorDetail_Size SignerErrorDetail_fill.

(** ** Unmarshal *)

(** [OutOfSteps] is not an error of the code. *)
Inductive uerror : Type :=
| ErrIntOverflowSigner | ErrUnexpectedEOF | ErrInvalidLengthSigner | ErrUnexpectedEndOfGroupSigner
| ErrEndGroup | ErrIllegalTag | ErrWrongWireType | ErrIllegalWireType | OutOfSteps.

Notation "'try' x := e 'in' k" :=
  (match e with Ok x => k | Err er => Err er end)
  (at level 10, x pattern, e at level 100, k at level 200).

(** The [for shift := uint(0); ; shift += 7] loop over the bytes left, into a
    variable whose type wraps by [trunc]; returns the value and what is left. *)
Fixpoint varint (trunc : Z -> Z) (shift acc : Z) (rest : bytes) : result uerror (Z * bytes) :=
  if 64 <=? shift then Err ErrIntOverflowSigner
  else match rest with
       | [] => Err ErrUnexpectedEOF
       | b :: rest' =>
           let acc := Z.lor acc (trunc (Z.shiftl (Z.land (Hash.byte_val b) 0x7f) shift)) in
           if Hash.byte_val b <? 0x80 then Ok (acc, rest') else varint trunc (shift + 7) acc rest'
       end.

(** The same loop when only the bytes are counted. *)
Fixpoint skip_varint (shift : Z) (rest : bytes) : result uerror bytes :=
  if 64 <=? shift then Err ErrIntOverflowSigner
  else match rest with
       | [] => Err ErrUnexpectedEOF
       | b :: rest' => if Hash.byte_val b <? 0x80 then Ok rest' else skip_varint (shift + 7) rest'
       end.

(** One turn of [skipSigner]'s loop: the new index and depth. *)
Definition skip_value (l : Z) (wireType depth : Z) (rest : bytes) : result uerror (Z * Z) :=
  let i := l - len rest in
  if wireType =? 0 then
    try rest := skip_varint 0 rest in Ok (l - len rest, depth)
  else if wireType =? 1 then Ok (i64 (i + 8), depth)
  else if wireType =? 2 then
    try (length, rest) := varint i64 0 0 rest in
    if length <? 0 then Err ErrInvalidLengthSigner else Ok (i64 (l - len rest + length), depth)
  else if wireType =? 3 then Ok (i, depth + 1)
  else if wireType =? 4 then
    if depth =? 0 then Err ErrUnexpectedEndOfGroupSigner else Ok (i, depth - 1)
  else if wireType =? 5 then Ok (i64 (i + 4), depth)
  else Err ErrIllegalWireType.

Fixpoint skip_loop (steps : nat) (d : bytes) (iNdEx depth : Z) : result uerror Z :=
  if iNdEx <? len d then
    match steps with
    | O => Err OutOfSteps
    | S steps' =>
        try (wire, rest) := varint w64 0 0 (drop (Z.to_nat iNdEx) d) in
        try (iNdEx, depth) := skip_value (len d) (Z.land wire 7) depth rest in
        if iNdEx <? 0 then Err ErrInvalidLengthSigner
        else if depth =? 0 then Ok iNdEx
        else skip_loop steps' d iNdEx depth
    end
  else Err ErrUnexpectedEOF.

(** [skipSigner]: every turn reads at least one byte. *)
Definition skipSigner (d : bytes) : result uerror Z := skip_loop (List.length d) d 0 0.

(** The tail of a length-delimited field: [n] bytes from the current index. *)
Definition delimited (l n : Z) (rest : bytes) : result uerror (bytes * bytes) :=
  if n <? 0 then Err ErrInvalidLengthSigner
  else
    let postIndex := i64 (l - len rest + n) in
    if postIndex <? 0 then Err ErrInvalidLengthSigner
    else if l <? postIndex then Err ErrUnexpectedEOF
    else Ok (take (Z.to_nat n) rest, drop (Z.to_nat n) rest).

(** A field's expected wire type and what its case does with the bytes left
    (and [l]). *)
Definition case (M : Type) : Type := (Z * (Z -> bytes -> M -> result uerror (M * bytes)))%type.

(** A string field: the length is read as [uint64] and converted to [int]. *)
Definition string_case {M} (set : string -> M -> M) : case M :=
  (2, fun l rest m =>
        try (stringLen, rest) := varint w64 0 0 rest in
        try (v, rest) := delimited l (i64 stringLen) rest in
        Ok (set (string_of_list_byte v) m, rest)).

(** A bytes field: the length is read as [int]. *)
Definition bytes_case {M} (set : bytes -> M -> M) : case M :=
  (2, fun l rest m =>
        try (byteLen, rest) := varint i64 0 0 rest in
        try (v, rest) := delimited l byteLen rest in
        Ok (set v m, rest)).

(** The loop over the fields; [field] is the [switch fieldNum]. *)
Fixpoint Unmarshal_loop {M} (steps : nat) (field : Z -> option (case M)) (l : Z) (rest : bytes) (m : M)
    : result uerror M :=
  match rest with
  | [] => Ok m
  | _ =>
      match steps with
      | O => Err OutOfSteps
      | S steps' =>
          try (wire, after) := varint w64 0 0 rest in
          let fieldNum := i32 (Z.shiftr wire 3) in
          let wireType := Z.land wire 7 in
          if wireType =? 4 then Err ErrEndGroup
          else if fieldNum <=? 0 then Err ErrIllegalTag
          else match field fieldNum with
               | Some (expected, read) =>
                   if negb (wireType =? expected) then Err ErrWrongWireType
                   else try (m, rest) := read l after m in Unmarshal_loop steps' field l rest m
               | None =>
                   let preIndex := l - len rest in
                   try skippy := skipSigner rest in
                   if (skippy <? 0) || (i64 (preIndex + skippy) <? 0) then Err ErrInvalidLengthSigner
                   else if l <? preIndex + skippy then Err ErrUnexpectedEOF
                   else Unmarshal_loop steps' field l (drop (Z.to_nat skippy) rest) m
               end
      end
  end.

(** [Unmarshal] into [m]: every turn reads at least one byte. *)
Definition Unmarshal {M} (field : Z -> option (case M)) (m : M) (d : bytes) : result uerror M :=
  Unmarshal_loop (List.length d) field (len d) d m.

Definition GetPublicKeyRequest_field (n : Z) : option (case GetPublicKeyRequest) :=
  if n =? 1 then Some (string_case (fun v _ => MkKeyRequest v)) else None.
Definition GetPublicKeyRequest_Unmarshal : bytes -> result uerror GetPublicKeyRequest :=
  Unmarshal GetPublicKeyRequest_field (MkKeyRequest "").

Definition GetPublicKeyResponse_field (n : Z) : option (case GetPublicKeyResponse) :=
  match n with
  | 1 => Some (string_case (fun v '(MkKeyResponse _ b c) => MkKeyResponse v b c))
  | 2 => Some (string_case (fun v '(MkKeyResponse a _ c) => MkKeyResponse a v c))
  | 3 => Some (bytes_case (fun v '(MkKeyResponse a b _) => MkKeyResponse a b v))
  | _ => None
  end.
Definition GetPublicKeyResponse_Unmarshal : bytes -> result uerror GetPublicKeyResponse :=
  Unmarshal GetPublicKeyResponse_field (MkKeyResponse "" "" []).

Definition Summary_field (n : Z) : option (case Summary) :=
  match n with
  | 1 => Some (string_case (fun v '(MkWireSummary _ b c d e f g h i j k) => MkWireSummary v b c d e f g h i j k))
  | 2 => Some (string_case (fun v '(MkWireSummary a _ c d e f g h i j k) => MkWireSummary a v c d e f g h i j k))
  | 3 => Some (string_case (fun v '(MkWireSummary a b _ d e f g h i j k) => MkWireSummary a b v d e f g h i j k))
  | 4 => Some (string_case (fun v '(MkWireSummary a b c _ e f g h i j k) => MkWireSummary a b c v e f g h i j k))
  | 5 => Some (string_case (fun v '(MkWireSummary a b c d _ f g h i j k) => MkWireSummary a b c d v f g h i j k))
  | 6 => Some (string_case (fun v '(MkWireSummary a b c d e _ g h i j k) => MkWireSummary a b c d e v g h i j k))
  | 7 => Some (string_case (fun v '(MkWireSummary a b c d e f _ h i j k) => MkWireSummary a b c d e f v h i j k))
  | 8 => Some (string_case (fun v '(MkWireSummary a b c d e f g _ i j k) => MkWireSummary a b c d e f g v i j k))
  | 9 => Some (string_case (fun v '(MkWireSummary a b c d e f g h _ j k) => MkWireSummary a b c d e f g h v j k))
  | 10 => Some (string_case (fun v '(MkWireSummary a b c d e f g h i _ k) => MkWireSummary a b c d e f g h i v k))
  | 11 => Some (string_case (fun v '(MkWireSummary a b c d e f g h i j _) => MkWireSummary a b c d e f g h i j v))
  | _ => None
  end.
Definition empty_summary : Summary := MkWireSummary "" "" "" "" "" "" "" "" "" "" "".

(** The nested message: allocated when absent, decoded on top of what is
    there when the field repeats. *)
Definition summary_case : case SignRequest :=
  (2, fun l rest m =>
        try (msglen, rest) := varint i64 0 0 rest in
        try (v, rest) := delimited l msglen rest in
        let s := match sr_Summary m with Some s => s | None => empty_summary end in
        try s := Unmarshal Summary_field s v in
        Ok (MkSignRequest (sr_KeyRef m) (sr_SignMode m) (sr_SignDocBytes m) (Some s), rest)).

Definition SignRequest_field (n : Z) : option (case SignRequest) :=
  match n with
  | 1 => Some (string_case (fun v '(MkSignRequest _ b c d) => MkSignRequest v b c d))
  | 2 => Some (string_case (fun v '(MkSignRequest a _ c d) => MkSignRequest a v c d))
  | 3 => Some (bytes_case (fun v '(MkSignRequest a b _ d) => MkSignRequest a b v d))
  | 4 => Some summary_case
  | _ => None
  end.
Definition SignRequest_Unmarshal : bytes -> result uerror SignRequest :=
  Unmarshal SignRequest_field (MkSignRequest "" "" [] None).

Definition SignResponse_field (n : Z) : option (case SignResponse) :=
  match n with
  | 1 => Some (string_case (fun v '(MkSignResponse _ b c) => MkSignResponse v b c))
  | 2 => Some (bytes_case (fun v '(MkSignResponse a _ c) => MkSignResponse a v c))
  | 3 => Some (bytes_case (fun v '(MkSignResponse a b _) => MkSignResponse a b v))
  | _ => None
  end.
Definition SignResponse_Unmarshal : bytes -> result uerror SignResponse :=
  Unmarshal SignResponse_field (MkSignResponse "" [] []).

(** The enum field: [m.Code] is reset and read as [int32]. *)
Definition code_case : case SignerErrorDetail :=
  (0, fun _ rest m =>
        try (code, rest) := varint i32 0 0 rest in
        Ok (MkErrorDetail code (ed_Detail m), rest)).

Definition SignerErrorDetail_field (n : Z) : option (case SignerErrorDetail) :=
  match n with
  | 1 => Some code_case
  | 2 => Some (string_case (fun v '(MkErrorDetail a _) => MkErrorDetail a v))
  | _ => None
  end.
Definition SignerErrorDetail_Unmarshal : bytes -> result uerror SignerErrorDetail :=
  Unmarshal SignerErrorDetail_field (MkErrorDetail 0 "").

Example detail_bytes :
  SignerErrorDetail_Marshal (MkErrorDetail SIGNER_ERROR_CODE_POLICY_REJECTED "no") =
  Some [x08; x03; x12; x02; x6e; x6f].
Proof. reflexivity. Qed.

(** An unknown field is skipped, groups included; a truncated one is refused. *)
Example unknown_skipped :
  SignerErrorDetail_Unmarshal [x1b; x08; x01; x1c; x08; x03] = Ok (MkErrorDetail 3 "") /\
  SignerErrorDetail_Unmarshal [x12; x05; x61] = Err ErrUnexpectedEOF /\
  SignerErrorDetail_Unmarshal [x12; xff; xff; xff; xff; xff; xff; xff; xff; xff; x01] =
    Err ErrInvalidLengthSigner.
Proof. repeat split; reflexivity. Qed.

End SignerWire.
