(* ===== verification/SignerWireLaws.v ===== *)
(** * SignerWireLaws: the encoding is exact and reversible

    The buffer [Marshal] allocates is filled to the last byte, never past it,
    with the fields in order; [Unmarshal] of those bytes is the message. *)

From stdpp Require Import base list strings.
From Stdlib Require Import ZArith Lia String Strings.Byte.
From S2P Require Import Prelude Storage Chain Hash SignerWire.

Open Scope string_scope.
Open Scope list_scope.
Open Scope Z_scope.

Module SignerWireLaws.
Import SignerWire.

(** ** Varints *)

(** The canonical bytes of a varint. *)
Fixpoint vbytes (steps : nat) (v : Z) : bytes :=
  match steps with
  | O => []
  | S steps' =>
      if 128 <=? v then Hash.val_byte (Z.lor (Z.land v 0x7f) 0x80) :: vbytes steps' (Z.shiftr v 7)
      else [Hash.val_byte v]
  end.
Definition uvarint (v : Z) : bytes := vbytes 10 v.

Lemma byte_val_byte x : Hash.byte_val (Hash.val_byte x) = x mod 256.
Proof.
  unfold Hash.byte_val, Hash.val_byte. pose proof (Z.mod_pos_bound x 256 ltac:(lia)) as Hb.
  destruct (Byte.of_N (Z.to_N (x mod 256))) as [b|] eqn:E.
  - apply Byte.to_of_N in E. rewrite E. lia.
  - apply Byte.of_N_None_iff in E. lia.
Qed.

Lemma below_128 (P : Z -> bool) :
  forallb P (map Z.of_nat (seq 0 128)) = true -> forall x, 0 <= x < 128 -> P x = true.
Proof.
  intros H x Hx. rewrite forallb_forall in H. apply H, in_map_iff.
  exists (Z.to_nat x). split; [lia|]. apply in_seq. lia.
Qed.

Lemma land_127 v : Z.land v 0x7f = v mod 128.
Proof. exact (Z.land_ones v 7 ltac:(lia)). Qed.
Lemma shiftr_7 v : Z.shiftr v 7 = v / 128.
Proof. exact (Z.shiftr_div_pow2 v 7 ltac:(lia)). Qed.

(** A continuation byte carries its seven bits and its mark. *)
Lemma continuation v :
  let b := Hash.byte_val (Hash.val_byte (Z.lor (Z.land v 0x7f) 0x80)) in
  Z.land b 0x7f = Z.land v 0x7f /\ (b <? 0x80) = false.
Proof.
  cbv zeta. rewrite byte_val_byte, !land_127.
  pose proof (Z.mod_pos_bound v 128 ltac:(lia)) as Hm. revert Hm. generalize (v mod 128). intros x Hx.
  pose proof (below_128 (fun x => ((Z.lor x 0x80 mod 256) mod 128 =? x) &&
                                 negb (Z.lor x 0x80 mod 256 <? 0x80)) ltac:(vm_compute; reflexivity) x Hx) as H.
  apply andb_true_iff in H as [->%Z.eqb_eq ->%negb_true_iff]. done.
Qed.

Lemma last_byte v : 0 <= v < 128 ->
  Z.land (Hash.byte_val (Hash.val_byte v)) 0x7f = v /\ (Hash.byte_val (Hash.val_byte v) <? 0x80) = true.
Proof.
  intros Hv. rewrite byte_val_byte, land_127, (Z.mod_small v 256), Z.mod_small by lia.
  split; [done|]. lia.
Qed.

Lemma shiftr_step v n : 128 <= v -> v < 2 ^ (7 * Z.of_nat (S n)) ->
  0 < Z.shiftr v 7 /\ Z.shiftr v 7 < 2 ^ (7 * Z.of_nat n).
Proof.
  intros Hv Hn. rewrite shiftr_7.
  replace (7 * Z.of_nat (S n)) with (7 + 7 * Z.of_nat n) in Hn by lia.
  rewrite Z.pow_add_r in Hn by lia. change (2 ^ 7) with 128 in Hn.
  split; [apply Z.div_str_pos; lia|]. apply Z.div_lt_upper_bound; lia.
Qed.

(** *** The size *)

Lemma sov_log v : 0 <= v -> sovSigner v = Z.log2 v / 7 + 1.
Proof.
  intros Hv. unfold sovSigner, Len64.
  assert (Z.lor v 1 <> 0) as Hne by (intros E%Z.lor_eq_0_iff; lia).
  rewrite (proj2 (Z.eqb_neq _ _) Hne), Z.log2_lor by lia. change (Z.log2 1) with 0.
  rewrite Z.max_l by apply Z.log2_nonneg.
  replace (Z.log2 v + 1 + 6) with (Z.log2 v + 1 * 7) by lia. apply Z.div_add. lia.
Qed.

Lemma sov_small v : 0 <= v < 128 -> sovSigner v = 1.
Proof.
  intros Hv. rewrite sov_log by lia.
  assert (Z.log2 v < 7) as Hl.
  { destruct (Z.eq_dec v 0) as [->|]; [done|]. apply Z.log2_lt_pow2; lia. }
  pose proof (Z.log2_nonneg v). rewrite Z.div_small; lia.
Qed.

Lemma sov_step v : 128 <= v -> sovSigner v = 1 + sovSigner (Z.shiftr v 7).
Proof.
  intros Hv. assert (0 < Z.shiftr v 7) as Hs by (rewrite shiftr_7; apply Z.div_str_pos; lia).
  rewrite !sov_log by lia. rewrite Z.log2_shiftr by lia.
  assert (7 <= Z.log2 v) by (change 7 with (Z.log2 128); by apply Z.log2_le_mono).
  rewrite Z.max_r by lia. replace (Z.log2 v) with (Z.log2 v - 7 + 1 * 7) at 1 by lia.
  rewrite Z.div_add by lia. lia.
Qed.

Lemma vbytes_length n v : 0 <= v < 2 ^ (7 * Z.of_nat (S n)) -> len (vbytes (S n) v) = sovSigner v.
Proof.
  revert v. induction n as [|n IH]; intros v Hv; cbn [vbytes]; destruct (Z.leb_spec 128 v).
  - simpl in Hv. lia.
  - by rewrite sov_small by lia.
  - rewrite sov_step by done. destruct (shiftr_step v (S n)); [lia..|].
    rewrite <-IH by lia. unfold len. simpl. lia.
  - by rewrite sov_small by lia.
Qed.

Lemma uvarint_length v : 0 <= v < 2 ^ 64 -> len (uvarint v) = sovSigner v.
Proof. intros Hv. apply (vbytes_length 9). simpl. lia. Qed.

Lemma sov_pos v : 0 <= v -> 1 <= sovSigner v.
Proof. intros Hv. rewrite sov_log by done. pose proof (Z.div_pos (Z.log2 v) 7 (Z.log2_nonneg v) ltac:(lia)). lia. Qed.

(** *** Reading *)

Lemma join_bits acc v shift : 0 <= shift ->
  Z.lor (Z.lor acc (Z.shiftl (Z.land v 0x7f) shift)) (Z.shiftl (Z.shiftr v 7) (shift + 7)) =
  Z.lor acc (Z.shiftl v shift).
Proof.
  intros Hs. rewrite <-Z.lor_assoc. f_equal. apply Z.bits_inj'. intros i Hi.
  rewrite Z.lor_spec, !Z.shiftl_spec by done. change 0x7f with (Z.ones 7). rewrite Z.land_spec.
  destruct (Z.lt_ge_cases i shift) as [?|Hge].
  - rewrite !Z.testbit_neg_r by lia. done.
  - destruct (Z.lt_ge_cases i (shift + 7)) as [?|Hge'].
    + rewrite (Z.testbit_neg_r _ (i - (shift + 7))), Z.ones_spec_low by lia.
      by rewrite andb_true_r, orb_false_r.
    + rewrite Z.ones_spec_high, andb_false_r, Z.shiftr_spec by lia. simpl.
      f_equal. lia.
Qed.

Lemma varint_vbytes trunc n v shift acc rest :
  0 <= shift -> shift + 7 * Z.of_nat n <= 70 -> 0 <= v < 2 ^ (7 * Z.of_nat n) ->
  (forall x, 0 <= x <= Z.shiftl v shift -> trunc x = x) ->
  varint trunc shift acc (vbytes n v ++ rest) = Ok (Z.lor acc (Z.shiftl v shift), rest) \/ n = O.
Proof.
  revert v shift acc. induction n as [|n IH]; intros v shift acc Hs Hn Hv Ht; [by right|left].
  cbn [vbytes]. assert ((64 <=? shift) = false) as Hlt by lia.
  pose proof (Z.mod_pos_bound v 128 ltac:(lia)) as Hm.
  pose proof (Z.pow_pos_nonneg 2 shift ltac:(lia) Hs) as Hp.
  pose proof (Z.div_mod v 128 ltac:(lia)) as Hdm.
  destruct (Z.leb_spec 128 v) as [Hge|Hsm].
  - destruct (shiftr_step v n) as [Hlo Hhi]; [lia..|].
    destruct (continuation v) as [Hc Hd]. cbn [app varint]. rewrite Hlt, Hc, Hd.
    rewrite Ht by (rewrite land_127, !Z.shiftl_mul_pow2 by lia; nia).
    destruct (IH (Z.shiftr v 7) (shift + 7) (Z.lor acc (Z.shiftl (Z.land v 0x7f) shift))) as [-> | ->].
    + lia.
    + lia.
    + lia.
    + intros x Hx. apply Ht. rewrite shiftr_7, Z.shiftl_mul_pow2, Z.pow_add_r in Hx by lia.
      rewrite Z.shiftl_mul_pow2 by lia. change (2 ^ 7) with 128 in Hx. nia.
    + by rewrite join_bits.
    + simpl in Hhi. lia.
  - destruct (last_byte v) as [Hc Hd]; [lia|]. cbn [app varint]. rewrite Hlt, Hc, Hd.
    by rewrite Ht by (rewrite Z.shiftl_mul_pow2 by lia; nia).
Qed.

Lemma varint_uvarint trunc v rest :
  0 <= v < 2 ^ 64 -> (forall x, 0 <= x <= v -> trunc x = x) ->
  varint trunc 0 0 (uvarint v ++ rest) = Ok (v, rest).
Proof.
  intros Hv Ht.
  assert (forall x, 0 <= x <= Z.shiftl v 0 -> trunc x = x) as Ht' by (intros x; rewrite Z.shiftl_0_r; apply Ht).
  destruct (varint_vbytes trunc 10 v 0 0 rest ltac:(lia) ltac:(lia) ltac:(simpl; lia) Ht') as [E|]; [|done].
  unfold uvarint. by rewrite E, Z.shiftl_0_r, Z.lor_0_l.
Qed.

Lemma w64_id x : 0 <= x < 2 ^ 64 -> w64 x = x.
Proof. intros. by apply Z.mod_small. Qed.
Lemma i64_id x : - 2 ^ 63 <= x < 2 ^ 63 -> i64 x = x.
Proof. intros. unfold i64. rewrite Z.mod_small; lia. Qed.
Lemma i32_id x : - 2 ^ 31 <= x < 2 ^ 31 -> i32 x = x.
Proof. intros. unfold i32. rewrite Z.mod_small; lia. Qed.

(** ** Filling the buffer *)

(** What has been written: the buffer is some prefix followed by [suf], and
    the index is where [suf] starts. *)
Definition holds (c : cursor) (suf : bytes) : Prop :=
  exists pre, fst c = pre ++ suf /\ snd c = len pre.

Lemma len_app a b : len (a ++ b) = len a + len b.
Proof. unfold len. rewrite length_app. lia. Qed.
Lemma len_nonneg b : 0 <= len b.
Proof. unfold len. lia. Qed.

(** A prefix with room for [n] more bytes splits where they go. *)
Lemma room pre n : 0 <= n <= len pre -> exists p q, pre = p ++ q /\ len q = n /\ len p = len pre - n.
Proof.
  intros Hn. exists (take (Z.to_nat (len pre - n)) pre), (drop (Z.to_nat (len pre - n)) pre).
  unfold len in *. rewrite take_drop, length_take, length_drop. split_and!; [done|lia..].
Qed.

Lemma set_byte_at pre x y suf :
  set_byte (pre ++ x :: suf) (len pre) y = Some (pre ++ Hash.val_byte y :: suf).
Proof.
  unfold set_byte. rewrite len_app. unfold len. simpl.
  rewrite andb_true_intro by (split; [apply Z.leb_le|apply Z.ltb_lt]; lia). f_equal. rewrite Nat2Z.id.
  rewrite <-(Nat.add_0_r (List.length pre)) at 1. by rewrite insert_app_r.
Qed.

Lemma copy_at_ok p q v suf : len q = len v -> copy_at (p ++ q ++ suf) (len p) v = Some (p ++ v ++ suf).
Proof.
  unfold len, copy_at. intros Hq. unfold len. rewrite !length_app.
  rewrite andb_true_intro by (split; apply Z.leb_le; lia). rewrite Nat2Z.id. f_equal.
  rewrite take_app_length, (take_ge v) by lia. f_equal. f_equal.
  replace (List.length p + List.length v)%nat with (List.length (p ++ q)) by (rewrite length_app; lia).
  by rewrite app_assoc, drop_app_length.
Qed.

Lemma encodeVarint_loop_ok n v p q suf :
  0 <= v < 2 ^ (7 * Z.of_nat (S n)) -> len q = len (vbytes (S n) v) ->
  encodeVarint_loop (S n) (p ++ q ++ suf) (len p) v = Some (p ++ vbytes (S n) v ++ suf).
Proof.
  revert v p q. induction n as [|n IH]; intros v p q Hv Hq; cbn [encodeVarint_loop vbytes] in *;
    destruct (Z.leb_spec 128 v); try (simpl in Hv; lia);
    (destruct q as [|x q]; [unfold len in Hq; simpl in Hq; lia|]); cbn [app]; rewrite set_byte_at.
  - destruct q; [done|]. unfold len in Hq. simpl in Hq. lia.
  - destruct (shiftr_step v (S n)); [lia..|].
    replace (len p + 1) with (len (p ++ [Hash.val_byte (Z.lor (Z.land v 0x7f) 0x80)]))
      by (rewrite len_app; done).
    rewrite (cons_middle _ p), app_assoc. fold (vbytes (S n) (Z.shiftr v 7)) in *.
    rewrite IH; [by rewrite <-app_assoc|lia|]. unfold len in *. cbn [List.length] in Hq. lia.
  - destruct q; [done|]. unfold len in Hq. simpl in Hq. lia.
Qed.

Lemma encodeVarint_holds c suf v :
  holds c suf -> 0 <= v < 2 ^ 64 -> sovSigner v <= snd c ->
  exists c', encodeVarintSigner (fst c) (snd c) v = Some c' /\ holds c' (uvarint v ++ suf) /\
    snd c' = snd c - sovSigner v.
Proof.
  intros (pre & Hd & Hi) Hv Hroom. pose proof (sov_pos v ltac:(lia)).
  destruct (room pre (sovSigner v)) as (p & q & -> & Hq & Hp); [lia|].
  unfold encodeVarintSigner. rewrite Hd, Hi, <-Hp, <-app_assoc.
  assert (0 <= v < 2 ^ (7 * Z.of_nat 10)) as Hv' by (change (7 * Z.of_nat 10) with 70; lia).
  rewrite (encodeVarint_loop_ok 9 v p q suf Hv') by (by rewrite (vbytes_length 9)).
  eexists (_, _). split; [done|]. split; [|done]. exists p. done.
Qed.

Lemma put_tag_holds tag c suf :
  holds c suf -> 1 <= snd c ->
  exists c', put_tag tag c = Some c' /\ holds c' (Hash.val_byte tag :: suf) /\ snd c' = snd c - 1.
Proof.
  intros (pre & Hd & Hi) Hroom. destruct (room pre 1) as (p & q & -> & Hq & Hp); [lia|].
  destruct q as [|x [|]]; [by unfold len in Hq| |unfold len in Hq; simpl in Hq; lia].
  unfold put_tag. rewrite Hd, Hi, <-Hp, <-app_assoc. cbn [app]. rewrite set_byte_at.
  eexists (_, _). split; [done|]. split; [|done]. by exists p.
Qed.

(** The bytes of a length-delimited field, and of a field left out when empty. *)
Definition enc (tag : Z) (v : bytes) : bytes := Hash.val_byte tag :: uvarint (len v) ++ v.
Definition enc_field (tag : Z) (v : bytes) : bytes :=
  match v with [] => [] | _ => enc tag v end.

Lemma size_field_pos v : 0 <= size_field v /\ (v <> [] -> size_field v = 1 + len v + sovSigner (w64 (len v))).
Proof.
  unfold size_field. destruct (Z.ltb_spec 0 (len v)).
  - pose proof (sov_pos (w64 (len v))). unfold w64 in *. pose proof (Z.mod_pos_bound (len v) (2^64)). lia.
  - split; [lia|]. destruct v; [done|]. unfold len in *. simpl in *. lia.
Qed.

Lemma put_field_holds tag v c suf :
  holds c suf -> size_field v <= snd c < 2 ^ 63 ->
  exists c', put_field tag v c = Some c' /\ holds c' (enc_field tag v ++ suf) /\
    snd c' = snd c - size_field v.
Proof.
  intros Hc Hroom. unfold put_field, size_field in *. pose proof (len_nonneg v) as Hv.
  destruct (Z.ltb_spec 0 (len v)) as [Hpos|Hz].
  - destruct Hc as (pre & Hd & Hi). pose proof (sov_pos (w64 (len v)) ltac:(unfold w64; apply Z.mod_pos_bound; lia)).
    assert (w64 (len v) = len v) as Hw by (apply w64_id; lia). rewrite Hw in *.
    destruct (room pre (len v)) as (p & q & -> & Hq & Hp); [lia|].
    replace (snd c - len v) with (len p) by lia. rewrite Hd, <-app_assoc, copy_at_ok by done.
    destruct (encodeVarint_holds (p ++ v ++ suf, len p) (v ++ suf) (len v)) as (c1 & E1 & H1 & S1);
      [by exists p|lia|simpl; lia|]. simpl in E1, S1. rewrite E1.
    destruct (put_tag_holds tag c1 _ H1) as (c2 & E2 & H2 & S2); [lia|].
    exists c2. split; [done|]. split; [|lia]. unfold enc_field. destruct v as [|x v]; [done|].
    unfold enc. cbn [app]. by rewrite <-app_assoc.
  - exists c. split; [done|]. assert (v = []) as -> by (destruct v; [done|unfold len in *; simpl in *; lia]).
    split; [done|lia].
Qed.

(** All the fields of a list, last one first. *)
Definition fields_size (fs : list (Z * bytes)) : Z := foldr (fun f n => size_field (snd f) + n) 0 fs.
Fixpoint fields_bytes (fs : list (Z * bytes)) (suf : bytes) : bytes :=
  match fs with [] => suf | (tag, v) :: fs' => fields_bytes fs' (enc_field tag v ++ suf) end.

Lemma fields_size_pos fs : 0 <= fields_size fs.
Proof. induction fs as [|[t v] fs IH]; simpl; [lia|]. pose proof (proj1 (size_field_pos v)). lia. Qed.

Lemma put_fields_holds fs c suf :
  holds c suf -> fields_size fs <= snd c < 2 ^ 63 ->
  exists c', put_fields fs c = Some c' /\ holds c' (fields_bytes fs suf) /\
    snd c' = snd c - fields_size fs.
Proof.
  revert c suf. induction fs as [|[tag v] fs IH]; intros c suf Hc Hroom; cbn [put_fields fields_size fields_bytes foldr snd] in *.
  - exists c. split; [done|]. split; [done|lia].
  - pose proof (fields_size_pos fs) as H0. pose proof (proj1 (size_field_pos v)). fold (fields_size fs) in *.
    destruct (put_field_holds tag v c suf Hc) as (c1 & -> & H1 & S1); [lia|].
    destruct (IH c1 _ H1) as (c2 & -> & H2 & S2); [lia|]. exists c2. split; [done|]. split; [done|lia].
Qed.

(** A buffer of the exact size is filled exactly. *)
Lemma Marshal_exact {M} (Size : M -> Z) fill (m : M) out :
  0 <= Size m ->
  (forall d, len d = Size m ->
     exists c, fill m d = Some c /\ holds c out /\ snd c = 0) ->
  Marshal Size fill m = Some out.
Proof.
  intros H0 Hf. unfold Marshal.
  destruct (Hf (repeat x00 (Z.to_nat (Size m)))) as ([d i] & -> & (pre & Hd & Hi) & Hz).
  { unfold len. rewrite repeat_length. lia. }
  simpl in *. subst d i. destruct pre; [|unfold len in Hz; simpl in Hz; lia]. simpl.
  rewrite Z.sub_0_r. unfold len. by rewrite Nat2Z.id, firstn_all.
Qed.

Lemma holds_empty d : holds (d, len d) [].
Proof. exists d. by rewrite app_nil_r. Qed.

(** A message whose fields are all length-delimited. *)
Lemma Marshal_fields {M} (Size : M -> Z) (fs : M -> list (Z * bytes)) (m : M) :
  Size m = fields_size (fs m) -> Size m < 2 ^ 63 ->
  Marshal Size (fun m d => put_fields (fs m) (d, len d)) m = Some (fields_bytes (fs m) []).
Proof.
  intros Hs Hfit. pose proof (fields_size_pos (fs m)). apply Marshal_exact; [lia|]. intros d Hd.
  destruct (put_fields_holds (fs m) (d, len d) [] (holds_empty d)) as (c & E & Hc & Hi); [simpl; lia|].
  exists c. simpl in Hi. split; [done|]. split; [done|lia].
Qed.

(** ** Reading the fields back *)

Section reading.
Context {M : Type} (field : Z -> option (case M)) (l : Z).

(** The walk over [rest], from the message [m], ends with [m']. *)
Definition decodes (rest : bytes) (m m' : M) : Prop :=
  len rest <= l -> forall steps, (List.length rest <= steps)%nat ->
  Unmarshal_loop steps field l rest m = Ok m'.

Lemma decodes_end m : decodes [] m m.
Proof. intros _ [|steps]; done. Qed.

Lemma tag_varint num typ rest :
  0 < num < 16 -> 0 <= typ < 8 ->
  varint w64 0 0 (Hash.val_byte (8 * num + typ) :: rest) = Ok (8 * num + typ, rest) /\
  Z.land (8 * num + typ) 7 = typ /\ i32 (Z.shiftr (8 * num + typ) 3) = num.
Proof.
  intros Hn Ht. change 7 with (Z.ones 3). rewrite Z.land_ones, Z.shiftr_div_pow2 by lia.
  change (2 ^ 3) with 8. rewrite (Z.mul_comm 8), Z.add_comm, Z.mod_add, Z.div_add, Z.mod_small, Z.div_small by lia.
  rewrite Z.add_0_l, i32_id by lia. split_and!; [|done..].
  destruct (last_byte (typ + num * 8)) as [Hc Hd]; [lia|]. cbn [varint]. rewrite Hc, Hd. simpl.
  rewrite Z.shiftl_0_r, w64_id by lia. done.
Qed.

(** One turn of the loop on a known field. *)
Lemma decodes_case num typ read rest after m m1 m' :
  0 < num < 16 -> 0 <= typ < 8 -> typ <> 4 -> field num = Some (typ, read) ->
  (len after <= l -> read l after m = Ok (m1, rest)) -> (List.length rest <= List.length after)%nat ->
  decodes rest m1 m' -> decodes (Hash.val_byte (8 * num + typ) :: after) m m'.
Proof.
  intros Hn Ht Ht4 Hf Hr Hle Hd Hl [|steps] Hsteps; [simpl in Hsteps; lia|].
  destruct (tag_varint num typ after Hn Ht) as (Hv & Hw & Hi).
  cbn [Unmarshal_loop]. rewrite Hv, Hw, Hi, Hf. unfold len in *. simpl in Hl, Hsteps.
  replace (typ =? 4) with false by lia. replace (num <=? 0) with false by lia. rewrite Z.eqb_refl. simpl.
  rewrite Hr by (unfold len; lia). apply Hd; unfold len; lia.
Qed.

(** A delimited payload is read back. *)
Lemma delimited_ok v rest : l < 2 ^ 63 -> len (v ++ rest) <= l -> delimited l (len v) (v ++ rest) = Ok (v, rest).
Proof.
  intros Hl Hb. rewrite len_app in Hb. unfold delimited. rewrite len_app.
  pose proof (len_nonneg v). pose proof (len_nonneg rest).
  rewrite (proj2 (Z.ltb_ge (len v) 0)) by lia. rewrite i64_id by lia.
  rewrite (proj2 (Z.ltb_ge _ 0)), (proj2 (Z.ltb_ge l _)) by lia.
  unfold len. by rewrite Nat2Z.id, take_app_length, drop_app_length.
Qed.

Lemma enc_length v rest :
  (List.length rest <= List.length (uvarint (len v) ++ v ++ rest))%nat.
Proof. rewrite !length_app. lia. Qed.

Lemma string_read (set : string -> M -> M) v rest m :
  l < 2 ^ 63 -> len (uvarint (len (text v)) ++ text v ++ rest) <= l ->
  snd (string_case set) l (uvarint (len (text v)) ++ text v ++ rest) m = Ok (set v m, rest).
Proof.
  intros Hl Hb. pose proof (len_nonneg (text v)). pose proof (len_nonneg rest).
  rewrite len_app in Hb. pose proof (len_nonneg (uvarint (len (text v)))). pose proof (len_app (text v) rest).
  simpl. rewrite varint_uvarint by (intros; rewrite ?w64_id; lia).
  rewrite i64_id, delimited_ok by lia. unfold text. by rewrite string_of_list_byte_of_string.
Qed.

Lemma bytes_read (set : bytes -> M -> M) v rest m :
  l < 2 ^ 63 -> len (uvarint (len v) ++ v ++ rest) <= l ->
  snd (bytes_case set) l (uvarint (len v) ++ v ++ rest) m = Ok (set v m, rest).
Proof.
  intros Hl Hb. pose proof (len_nonneg v). pose proof (len_nonneg rest).
  rewrite len_app in Hb. pose proof (len_nonneg (uvarint (len v))). pose proof (len_app v rest).
  simpl. rewrite varint_uvarint by (intros; rewrite ?i64_id; lia).
  by rewrite delimited_ok by lia.
Qed.

(** A field that is left out when empty must then already hold the empty
    value. *)
Lemma decodes_string num (set : string -> M -> M) s rest m m' :
  l < 2 ^ 63 -> 0 < num < 16 -> field num = Some (string_case set) -> (s = "" -> set s m = m) ->
  decodes rest (set s m) m' -> decodes (enc_field (8 * num + 2) (text s) ++ rest) m m'.
Proof.
  intros Hl Hn Hf He Hd. unfold enc_field. destruct (text s) as [|x v] eqn:Es.
  - rewrite <-He; [done|]. rewrite <-(string_of_list_byte_of_string s). unfold text in Es. by rewrite Es.
  - rewrite <-Es. unfold enc. cbn [app]. rewrite <-app_assoc.
    eapply decodes_case; [lia|lia|lia|exact Hf| |apply enc_length|exact Hd].
    intros Hb. by apply string_read.
Qed.

Lemma decodes_bytes num (set : bytes -> M -> M) v rest m m' :
  l < 2 ^ 63 -> 0 < num < 16 -> field num = Some (bytes_case set) -> (v = [] -> set v m = m) ->
  decodes rest (set v m) m' -> decodes (enc_field (8 * num + 2) v ++ rest) m m'.
Proof.
  intros Hl Hn Hf He Hd. unfold enc_field. destruct v as [|x v'] eqn:Es.
  - by rewrite <-He.
  - rewrite <-Es. unfold enc. cbn [app]. rewrite <-app_assoc.
    eapply decodes_case; [lia|lia|lia|exact Hf| |apply enc_length|].
    + intros Hb. by apply bytes_read.
    + by rewrite Es.
Qed.

End reading.

Lemma decodes_Unmarshal {M} (field : Z -> option (case M)) d m m' :
  decodes field (len d) d m m' -> Unmarshal field m d = Ok m'.
Proof. intros H. apply H; [done|]. lia. Qed.

(** Reads the next field of the encoding. *)
Ltac next_field :=
  cbn [fields_bytes];
  match goal with
  | |- decodes _ _ (enc_field ?t (text ?s) ++ _) _ _ =>
      let n := eval vm_compute in (t / 8) in
      change t with (8 * n + 2); eapply (decodes_string _ _ n); [assumption|lia|reflexivity| |]
  | |- decodes _ _ (enc_field ?t ?v ++ _) _ _ =>
      let n := eval vm_compute in (t / 8) in
      change t with (8 * n + 2); eapply (decodes_bytes _ _ n); [assumption|lia|reflexivity| |]
  | |- _ = _ -> _ = _ => intros E; cbn in E |- *; rewrite E; reflexivity
  | |- decodes _ _ [] _ _ => apply decodes_end
  end.

(** ** The messages *)

Lemma fields_bytes_length fs suf :
  fields_size fs < 2 ^ 63 -> len (fields_bytes fs suf) = fields_size fs + len suf.
Proof.
  revert suf. induction fs as [|[tag v] fs IH]; intros suf Hs; cbn [fields_bytes fields_size foldr snd] in *; [lia|].
  fold (fields_size fs) in *. pose proof (fields_size_pos fs). pose proof (proj1 (size_field_pos v)).
  rewrite IH, len_app by lia. assert (len (enc_field tag v) = size_field v); [|lia].
  unfold enc_field, size_field in *. pose proof (len_nonneg v). destruct v as [|x v]; [done|].
  set (w := x :: v) in *. assert (0 < len w) by (unfold len; simpl; lia). destruct (Z.ltb_spec 0 (len w)); [|lia].
  pose proof (sov_pos (w64 (len w)) ltac:(unfold w64; apply Z.mod_pos_bound; lia)).
  assert (w64 (len w) = len w) as Hw by (apply w64_id; lia). rewrite Hw in *. unfold enc.
  assert (forall b r, len (b :: r) = 1 + len r) as Hc by (intros; unfold len; simpl; lia).
  rewrite Hc, len_app, uvarint_length; lia.
Qed.

(** A message that fits in memory: its size is an [int]. *)
Definition fits {M} (Size : M -> Z) (m : M) : Prop := Size m < 2 ^ 63.

(** Marshalling the fields [fs] of a message and reading them back. *)
Lemma fields_roundtrip {M} (Size : M -> Z) (fs : M -> list (Z * bytes)) field m0 m :
  Size m = fields_size (fs m) -> fits Size m ->
  (forall l, l < 2 ^ 63 -> decodes field l (fields_bytes (fs m) []) m0 m) ->
  exists b, Marshal Size (fun m d => put_fields (fs m) (d, len d)) m = Some b /\
    Unmarshal field m0 b = Ok m /\ len b = Size m.
Proof.
  unfold fits. intros Hs Hfit Hd. exists (fields_bytes (fs m) []).
  assert (len (fields_bytes (fs m) []) = Size m) as Hl
    by (rewrite fields_bytes_length by lia; unfold len; simpl; lia).
  split; [by apply Marshal_fields|]. split; [|done]. apply decodes_Unmarshal, Hd. lia.
Qed.

Lemma GetPublicKeyRequest_roundtrip m :
  fits GetPublicKeyRequest_Size m ->
  exists b, GetPublicKeyRequest_Marshal m = Some b /\ GetPublicKeyRequest_Unmarshal b = Ok m.
Proof.
  intros Hfit. destruct (fields_roundtrip GetPublicKeyRequest_Size
    (fun m => [(0xa, text (gq_KeyRef m))]) GetPublicKeyRequest_field (MkKeyRequest "") m) as (b & ? & ? & _).
  - unfold GetPublicKeyRequest_Size. simpl. lia.
  - done.
  - intros l Hl. destruct m. repeat next_field.
  - by exists b.
Qed.

Lemma GetPublicKeyResponse_roundtrip m :
  fits GetPublicKeyResponse_Size m ->
  exists b, GetPublicKeyResponse_Marshal m = Some b /\ GetPublicKeyResponse_Unmarshal b = Ok m.
Proof.
  intros Hfit. destruct (fields_roundtrip GetPublicKeyResponse_Size
    (fun m => [(0x1a, gr_PublicKeyCompressed m); (0x12, text (gr_Algorithm m)); (0xa, text (gr_KeyRef m))])
    GetPublicKeyResponse_field (MkKeyResponse "" "" []) m) as (b & ? & ? & _).
  - unfold GetPublicKeyResponse_Size. simpl. lia.
  - done.
  - intros l Hl. destruct m. repeat next_field.
  - by exists b.
Qed.

Lemma SignResponse_roundtrip m :
  fits SignResponse_Size m ->
  exists b, SignResponse_Marshal m = Some b /\ SignResponse_Unmarshal b = Ok m.
Proof.
  intros Hfit. destruct (fields_roundtrip SignResponse_Size
    (fun m => [(0x1a, so_PublicKeyCompressed m); (0x12, so_Signature m); (0xa, text (so_KeyRef m))])
    SignResponse_field (MkSignResponse "" [] []) m) as (b & ? & ? & _).
  - unfold SignResponse_Size. simpl. lia.
  - done.
  - intros l Hl. destruct m. repeat next_field.
  - by exists b.
Qed.

(** *** The signing request and its nested summary *)

Definition summary_fields (m : Summary) : list (Z * bytes) :=
  [(0x5a, text (pm_Memo m)); (0x52, text (pm_GasLimit m)); (0x4a, text (pm_FeeBaseUnits m));
   (0x42, text (pm_Denom m)); (0x3a, text (pm_AmountBaseUnits m)); (0x32, text (pm_RecipientAddress m));
   (0x2a, text (pm_SenderAddress m)); (0x22, text (pm_MessageType m)); (0x1a, text (pm_Sequence m));
   (0x12, text (pm_AccountNumber m)); (0xa, text (pm_ChainId m))].
Definition request_fields (m : SignRequest) : list (Z * bytes) :=
  [(0x1a, sr_SignDocBytes m); (0x12, text (sr_SignMode m)); (0xa, text (sr_KeyRef m))].
Definition summary_bytes (s : Summary) : bytes := fields_bytes (summary_fields s) [].
Definition request_bytes (m : SignRequest) : bytes :=
  fields_bytes (request_fields m)
    match sr_Summary m with Some s => enc 0x22 (summary_bytes s) | None => [] end.

Lemma Summary_Size_fields s : Summary_Size s = fields_size (summary_fields s).
Proof. unfold Summary_Size. simpl. lia. Qed.

Lemma summary_bytes_length s : Summary_Size s < 2 ^ 63 -> len (summary_bytes s) = Summary_Size s.
Proof.
  rewrite Summary_Size_fields. intros H. unfold summary_bytes. rewrite fields_bytes_length by done.
  unfold len. simpl. lia.
Qed.

Lemma Summary_decodes s : Summary_Size s < 2 ^ 63 -> Unmarshal Summary_field empty_summary (summary_bytes s) = Ok s.
Proof.
  intros H. apply decodes_Unmarshal. rewrite summary_bytes_length by done.
  generalize (Summary_Size s) H. intros l Hl. destruct s. unfold summary_bytes, summary_fields.
  repeat next_field.
Qed.

(** The block that writes the nested summary at the end of the buffer. *)
Lemma summary_block s d :
  1 + Summary_Size s + sovSigner (w64 (Summary_Size s)) <= len d < 2 ^ 63 ->
  exists p c c', Summary_fill s d = Some p /\ len (fst p) = len d /\
    encodeVarintSigner (fst p) (len d - (len (fst p) - snd p)) (w64 (len (fst p) - snd p)) = Some c /\
    put_tag 0x22 c = Some c' /\ holds c' (enc 0x22 (summary_bytes s)) /\
    snd c' = len d - (1 + Summary_Size s + sovSigner (w64 (Summary_Size s))).
Proof.
  intros Hroom. pose proof (fields_size_pos (summary_fields s)) as H0.
  rewrite <-Summary_Size_fields in H0.
  pose proof (sov_pos (w64 (Summary_Size s)) ltac:(unfold w64; apply Z.mod_pos_bound; lia)) as Hsov.
  assert (w64 (Summary_Size s) = Summary_Size s) as Hw by (apply w64_id; lia). rewrite Hw in *.
  destruct (put_fields_holds (summary_fields s) (d, len d) [] (holds_empty d)) as (p & Hp & Hh & Hi).
  { rewrite <-Summary_Size_fields. simpl. lia. }
  rewrite <-Summary_Size_fields in Hi. simpl in Hi.
  assert (len (fst p) - snd p = Summary_Size s) as Hsz.
  { destruct Hh as (pre & -> & ->). rewrite len_app. fold (summary_bytes s).
    rewrite summary_bytes_length by lia. lia. }
  destruct (encodeVarint_holds p _ (Summary_Size s) Hh) as (c & Hc & Hh1 & Hi1); [lia..|].
  destruct (put_tag_holds 0x22 c _ Hh1) as (c' & Hc' & Hh2 & Hi2); [lia|].
  exists p, c, c'. rewrite Hsz, Hw, <-Hi. split_and!; [done|lia|done..| |lia].
  unfold enc. by rewrite summary_bytes_length by lia.
Qed.

Lemma SignRequest_Marshal_ok m : fits SignRequest_Size m -> SignRequest_Marshal m = Some (request_bytes m).
Proof.
  unfold fits. intros Hfit. pose proof (fields_size_pos (request_fields m)) as H0.
  assert (SignRequest_Size m = fields_size (request_fields m) +
    match sr_Summary m with
    | Some s => 1 + Summary_Size s + sovSigner (w64 (Summary_Size s)) | None => 0 end) as Hs.
  { unfold SignRequest_Size. simpl. destruct (sr_Summary m); lia. }
  assert (forall s, 0 <= Summary_Size s /\ 1 <= sovSigner (w64 (Summary_Size s))) as Hpos.
  { intros s. split; [rewrite Summary_Size_fields; apply fields_size_pos|].
    apply sov_pos. unfold w64. apply Z.mod_pos_bound. lia. }
  apply Marshal_exact; [destruct (sr_Summary m) as [s|]; [specialize (Hpos s)|]; lia|]. intros d Hd.
  unfold request_bytes.
  assert (exists c, match sr_Summary m with
    | Some s => holds c (enc 0x22 (summary_bytes s)) | None => holds c [] end /\
    snd c = fields_size (request_fields m) /\
    SignRequest_fill m d = put_fields (request_fields m) c) as (c & Hh & Hi & ->).
  - unfold SignRequest_fill. fold (request_fields m). destruct (sr_Summary m) as [s|].
    + specialize (Hpos s). destruct (summary_block s d) as (p & c & c' & Hp & Hl & Hc & Hc' & Hh & Hi); [lia|].
      assert (Z.to_nat (len d) = List.length d) as Hn by (unfold len; lia).
      exists c'. split; [done|]. split; [lia|]. cbv zeta. destruct p as [pd pi]. simpl in *.
      by rewrite Hn, firstn_all, Hp, drop_all, app_nil_r, Hc, Hc'.
    + exists (d, len d). split; [apply holds_empty|]. split; [simpl snd; lia|done].
  - destruct (put_fields_holds (request_fields m) c
      match sr_Summary m with Some s => enc 0x22 (summary_bytes s) | None => [] end) as (c' & E & Hc & Hi').
    + by destruct (sr_Summary m).
    + destruct (sr_Summary m) as [s|]; [specialize (Hpos s)|]; lia.
    + exists c'. split; [done|]. split; [done|lia].
Qed.

Lemma decodes_summary l s m m' :
  l < 2 ^ 63 -> Summary_Size s < 2 ^ 63 -> sr_Summary m = None ->
  m' = MkSignRequest (sr_KeyRef m) (sr_SignMode m) (sr_SignDocBytes m) (Some s) ->
  decodes SignRequest_field l (enc 0x22 (summary_bytes s)) m m'.
Proof.
  intros Hl Hs Hn ->. rewrite <-(app_nil_r (enc _ _)). unfold enc. cbn [app].
  rewrite <-app_assoc. change 0x22 with (8 * 4 + 2).
  eapply decodes_case; [lia|lia|lia|reflexivity| |apply enc_length|apply decodes_end].
  intros Hb. set (v := summary_bytes s) in *. pose proof (len_nonneg v). rewrite !len_app in Hb.
  pose proof (len_nonneg (uvarint (len v))). change (len []) with 0 in Hb. cbv beta.
  rewrite varint_uvarint by (intros; rewrite ?i64_id; lia).
  rewrite delimited_ok by (rewrite ?len_app; change (len []) with 0; lia).
  subst v. cbv zeta. by rewrite Hn, (Summary_decodes s Hs).
Qed.

Lemma request_decodes m : fits SignRequest_Size m -> SignRequest_Unmarshal (request_bytes m) = Ok m.
Proof.
  unfold fits. intros Hfit. pose proof (fields_size_pos (request_fields m)) as H0.
  apply decodes_Unmarshal.
  assert (match sr_Summary m with Some s => 0 <= Summary_Size s /\ 1 <= sovSigner (w64 (Summary_Size s)) | None => True end)
    as Hpos.
  { destruct (sr_Summary m) as [s|]; [|done]. split; [rewrite Summary_Size_fields; apply fields_size_pos|].
    apply sov_pos. unfold w64. apply Z.mod_pos_bound. lia. }
  assert (SignRequest_Size m = fields_size (request_fields m) +
    match sr_Summary m with
    | Some s => 1 + Summary_Size s + sovSigner (w64 (Summary_Size s)) | None => 0 end) as Hs.
  { unfold SignRequest_Size. simpl. destruct (sr_Summary m); lia. }
  assert (len (request_bytes m) < 2 ^ 63) as Hl.
  { unfold request_bytes. destruct (sr_Summary m) as [s|].
    - rewrite fields_bytes_length by lia. unfold enc.
      assert (forall b r, len (b :: r) = 1 + len r) as Hc by (intros; unfold len; simpl; lia).
      assert (w64 (Summary_Size s) = Summary_Size s) as Hw by (apply w64_id; lia). rewrite Hw in *.
      rewrite Hc, len_app, summary_bytes_length, uvarint_length by lia. lia.
    - rewrite fields_bytes_length by lia. change (len []) with 0. lia. }
  revert Hl. generalize (len (request_bytes m)). intros l Hl.
  destruct m as [ref mode doc sum]. unfold request_bytes, request_fields in *. simpl sr_Summary in *.
  repeat next_field. destruct sum as [s|]; [|apply decodes_end].
  apply decodes_summary; [done|lia|done|done].
Qed.

Lemma SignRequest_roundtrip m :
  fits SignRequest_Size m ->
  exists b, SignRequest_Marshal m = Some b /\ SignRequest_Unmarshal b = Ok m.
Proof.
  intros H. exists (request_bytes m). split; [by apply SignRequest_Marshal_ok|by apply request_decodes].
Qed.

(** *** The error detail *)

Lemma SignerErrorDetail_roundtrip m :
  fits SignerErrorDetail_Size m -> 0 <= ed_Code m < 2 ^ 31 ->
  exists b, SignerErrorDetail_Marshal m = Some b /\ SignerErrorDetail_Unmarshal b = Ok m.
Proof.
  unfold fits, SignerErrorDetail_Size. intros Hfit Hcode. destruct m as [code s]. simpl in Hfit, Hcode.
  pose proof (proj1 (size_field_pos (text s))) as H0.
  assert (w64 code = code) as Hw by (apply w64_id; lia). rewrite Hw in Hfit.
  pose proof (sov_pos code ltac:(lia)) as Hsov.
  exists ((if code =? 0 then [] else Hash.val_byte 0x8 :: uvarint code) ++ enc_field 0x12 (text s) ++ []). split.
  - apply Marshal_exact; unfold SignerErrorDetail_Size; simpl; rewrite Hw; [destruct (code =? 0); lia|].
    intros d Hd. unfold SignerErrorDetail_fill. simpl.
    destruct (put_field_holds 0x12 (text s) (d, len d) [] (holds_empty d)) as (c & -> & Hc & Hi);
      [simpl; destruct (code =? 0); lia|]. simpl in Hi.
    destruct (code =? 0); [exists c; split; [done|]; split; [done|lia]|]. rewrite Hw.
    destruct (encodeVarint_holds c _ code Hc) as (c1 & -> & Hc1 & Hi1); [lia..|].
    destruct (put_tag_holds 0x8 c1 _ Hc1) as (c2 & -> & Hc2 & Hi2); [lia|].
    exists c2. split; [done|]. split; [|lia]. done.
  - apply decodes_Unmarshal. set (b := _ ++ enc_field 0x12 _ ++ []).
    assert (len b < 2 ^ 63) as Hb.
    { subst b. pose proof (fields_bytes_length [(0x12, text s)] []) as E. cbn [fields_bytes fields_size foldr snd] in E.
      assert (size_field (text s) < 2 ^ 63) by (destruct (code =? 0); lia).
      rewrite len_app, E by lia. change (len []) with 0.
      destruct (code =? 0); [change (len []) with 0; lia|].
      change (len (Hash.val_byte 8 :: uvarint code)) with (len ([Hash.val_byte 8] ++ uvarint code)).
      rewrite len_app, uvarint_length by lia. change (len [_]) with 1. lia. }
    revert Hb. generalize (len b). subst b. intros l Hl.
    assert (forall m, ed_Code m = code -> ed_Detail m = "" ->
      decodes SignerErrorDetail_field l (enc_field 0x12 (text s) ++ []) m (MkErrorDetail code s)) as Hrest.
    { intros [c0 d0] Hc0 Hd0. simpl in Hc0, Hd0. subst. repeat next_field. }
    destruct (Z.eqb_spec code 0) as [->|Hne]; [by apply Hrest|]. cbn [app].
    change 0x8 with (8 * 1 + 0).
    eapply decodes_case; [lia|lia|lia|reflexivity| | |].
    + intros Hb. cbv beta. rewrite varint_uvarint; [reflexivity|lia|]. intros. apply i32_id. lia.
    + rewrite (length_app (uvarint code)). lia.
    + by apply Hrest.
Qed.

(** ** Any bytes at all *)

(** The steps given to the loops are enough for every input, so the walks end:
    with the message or with one of the code's own errors. *)
Definition ends {A} (r : result uerror A) : Prop := r <> Err OutOfSteps.

Lemma varint_shrinks trunc shift acc rest :
  match varint trunc shift acc rest with
  | Ok (_, rest') => (List.length rest' < List.length rest)%nat
  | Err e => e <> OutOfSteps
  end.
Proof.
  revert shift acc. induction rest as [|b rest IH]; intros shift acc; simpl; destruct (64 <=? shift); try done.
  destruct (Hash.byte_val b <? 0x80); simpl; [lia|].
  specialize (IH (shift + 7) (Z.lor acc (trunc (Z.shiftl (Z.land (Hash.byte_val b) 0x7f) shift)))).
  destruct (varint _ _ _ _) as [[v r]|]; [lia|done].
Qed.

Lemma skip_varint_shrinks shift rest :
  match skip_varint shift rest with
  | Ok rest' => (List.length rest' < List.length rest)%nat
  | Err e => e <> OutOfSteps
  end.
Proof.
  revert shift. induction rest as [|b rest IH]; intros shift; simpl; destruct (64 <=? shift); try done.
  destruct (Hash.byte_val b <? 0x80); simpl; [lia|]. specialize (IH (shift + 7)).
  destruct (skip_varint _ _); [lia|done].
Qed.

(** An [int] read by the loop is an [int]. *)
Lemma int_shiftr x : - 2 ^ 63 <= x < 2 ^ 63 <-> Z.shiftr x 63 = 0 \/ Z.shiftr x 63 = -1.
Proof.
  rewrite Z.shiftr_div_pow2 by lia. pose proof (Z.div_mod x (2 ^ 63) ltac:(lia)).
  pose proof (Z.mod_pos_bound x (2 ^ 63) ltac:(lia)). nia.
Qed.

Lemma varint_int shift acc rest n r :
  - 2 ^ 63 <= acc < 2 ^ 63 -> varint i64 shift acc rest = Ok (n, r) -> - 2 ^ 63 <= n < 2 ^ 63.
Proof.
  revert shift acc. induction rest as [|b rest IH]; intros shift acc Ha; simpl; destruct (64 <=? shift); try done.
  set (x := Z.shiftl _ _). assert (- 2 ^ 63 <= Z.lor acc (i64 x) < 2 ^ 63) as Hx.
  { assert (- 2 ^ 63 <= i64 x < 2 ^ 63) as Hi by (unfold i64; pose proof (Z.mod_pos_bound (x + 2 ^ 63) (2 ^ 64)); lia).
    apply int_shiftr in Ha, Hi. apply int_shiftr. rewrite Z.shiftr_lor.
    destruct Ha as [-> | ->], Hi as [-> | ->]; auto. }
  destruct (_ <? _); [by intros [= <- <-]|]. by apply IH.
Qed.

(** A sum of two [int]s keeps its value or is negative. *)
Lemma i64_sum a b : 0 <= a < 2 ^ 63 -> 0 <= b < 2 ^ 63 -> i64 (a + b) = a + b \/ i64 (a + b) < 0.
Proof.
  intros Ha Hb. destruct (Z.lt_ge_cases (a + b) (2 ^ 63)); [left; apply i64_id; lia|right].
  unfold i64. replace (a + b + 2 ^ 63) with (a + b - 2 ^ 63 + 1 * 2 ^ 64) by lia.
  rewrite Z.mod_add, Z.mod_small by lia. lia.
Qed.

Lemma skip_value_advances l wireType depth rest :
  len rest <= l < 2 ^ 63 ->
  match skip_value l wireType depth rest with
  | Ok (i, _) => i < 0 \/ l - len rest <= i
  | Err e => e <> OutOfSteps
  end.
Proof.
  intros Hl. unfold skip_value. pose proof (len_nonneg rest).
  destruct (wireType =? 0).
  { pose proof (skip_varint_shrinks 0 rest) as H1. destruct (skip_varint 0 rest); [right; unfold len; lia|done]. }
  destruct (wireType =? 1). { destruct (i64_sum (l - len rest) 8); lia. }
  destruct (wireType =? 2).
  { pose proof (varint_shrinks i64 0 0 rest) as H1. destruct (varint i64 0 0 rest) as [[n r]|] eqn:E; [|done].
    destruct (Z.ltb_spec n 0); [done|].
    pose proof (varint_int 0 0 rest n r ltac:(lia) E) as Hn.
    assert (len r < len rest) by (unfold len; lia). pose proof (len_nonneg r).
    destruct (i64_sum (l - len r) n); lia. }
  destruct (wireType =? 3); [right; lia|].
  destruct (wireType =? 4); [destruct (depth =? 0); [done|right; lia]|].
  destruct (wireType =? 5); [destruct (i64_sum (l - len rest) 4); lia|done].
Qed.

Lemma len_drop n d : len (drop n d) = Z.max 0 (len d - Z.of_nat n).
Proof. unfold len. rewrite length_drop. lia. Qed.

Lemma skip_loop_ends steps d i depth :
  0 <= i -> len d < 2 ^ 63 -> len d - i <= Z.of_nat steps ->
  match skip_loop steps d i depth with Ok n => i < n | Err e => e <> OutOfSteps end.
Proof.
  revert i depth. induction steps as [|steps IH]; intros i depth Hi Hd Hs; simpl;
    destruct (Z.ltb_spec i (len d)); try done; [lia|].
  pose proof (varint_shrinks w64 0 0 (drop (Z.to_nat i) d)) as Hv.
  destruct (varint w64 0 0 _) as [[wire rest]|]; [|done].
  pose proof (len_drop (Z.to_nat i) d) as Hdrop. unfold len in Hdrop at 1.
  assert (len rest <= len d - i - 1) by (unfold len in *; lia).
  pose proof (skip_value_advances (len d) (Z.land wire 7) depth rest ltac:(lia)) as Ha.
  destruct (skip_value _ _ _ _) as [[i' depth']|]; [|done].
  destruct (Z.ltb_spec i' 0); [done|]. destruct (depth' =? 0); [lia|].
  specialize (IH i' depth' ltac:(lia) Hd ltac:(lia)). destruct (skip_loop _ _ _ _); [lia|done].
Qed.

(** A case that reads forward. *)
Definition reads_on {M} (c : case M) : Prop := forall l rest m, len rest <= l < 2 ^ 63 ->
  match snd c l rest m with
  | Ok (_, rest') => (List.length rest' <= List.length rest)%nat
  | Err e => e <> OutOfSteps
  end.

Lemma Unmarshal_loop_ends {M} (field : Z -> option (case M)) l steps rest m :
  (forall n c, field n = Some c -> reads_on c) -> len rest <= l < 2 ^ 63 ->
  (List.length rest <= steps)%nat -> ends (Unmarshal_loop steps field l rest m).
Proof.
  intros Hf. revert rest m. induction steps as [|steps IH]; intros [|b rest] m Hl Hs;
    cbn [Unmarshal_loop]; try done; [simpl in Hs; lia|]. set (d := b :: rest) in *.
  pose proof (varint_shrinks w64 0 0 d) as Hv. destruct (varint w64 0 0 d) as [[wire after]|];
    [|unfold ends; congruence]. cbv zeta.
  destruct (_ =? 4); [done|]. destruct (_ <=? 0); [done|].
  destruct (field _) as [[expected read]|] eqn:Ef.
  - destruct (negb _); [done|]. assert (len after <= l < 2 ^ 63) as Ha by (unfold len in *; lia).
    pose proof (Hf _ _ Ef l after m Ha) as Hr. simpl in Hr.
    destruct (read l after m) as [[m' rest']|]; [|unfold ends; congruence].
    apply IH; unfold len in *; lia.
  - pose proof (skip_loop_ends (List.length d) d 0 0 ltac:(lia) ltac:(lia) ltac:(unfold len; lia)) as Hk.
    unfold skipSigner. destruct (skip_loop _ _ _ _) as [n|]; [|unfold ends; congruence].
    destruct (_ || _); [done|]. destruct (_ <? _); [done|].
    assert (List.length (drop (Z.to_nat n) d) < List.length d)%nat.
    { rewrite length_drop. enough (0 < List.length d)%nat by lia. subst d. simpl. lia. }
    apply IH; unfold len in *; lia.
Qed.

Lemma Unmarshal_ends {M} (field : Z -> option (case M)) m d :
  (forall n c, field n = Some c -> reads_on c) -> len d < 2 ^ 63 -> ends (Unmarshal field m d).
Proof. intros Hf Hd. apply Unmarshal_loop_ends; [done|lia|done]. Qed.

Lemma delimited_shrinks l n rest :
  match delimited l n rest with
  | Ok (v, rest') => (List.length v <= List.length rest /\ List.length rest' <= List.length rest)%nat
  | Err e => e <> OutOfSteps
  end.
Proof.
  unfold delimited. repeat (destruct (_ <? _); [done|]). rewrite length_drop, length_take. lia.
Qed.

(** Discharges [reads_on] for a case built from the length readers. *)
Ltac reads_on :=
  intros l rest m Hl; simpl;
  match goal with |- context [varint ?t 0 0 rest] =>
    pose proof (varint_shrinks t 0 0 rest); destruct (varint t 0 0 rest) as [[? ?]|]; [|done] end;
  try match goal with |- context [delimited ?l ?n ?r] =>
    pose proof (delimited_shrinks l n r); destruct (delimited l n r) as [[? ?]|]; [|done] end.

Lemma string_reads_on {M} (set : string -> M -> M) : reads_on (string_case set).
Proof. reads_on. lia. Qed.
Lemma bytes_reads_on {M} (set : bytes -> M -> M) : reads_on (bytes_case set).
Proof. reads_on. lia. Qed.
Lemma code_reads_on : reads_on code_case.
Proof. reads_on. lia. Qed.

(** The cases of a [switch fieldNum]. *)
Ltac each_case :=
  intros n c; unfold Summary_field, SignRequest_field, SignResponse_field, SignerErrorDetail_field,
    GetPublicKeyRequest_field, GetPublicKeyResponse_field;
  repeat case_match; intros [= <-];
  first [apply string_reads_on | apply bytes_reads_on | apply code_reads_on | idtac].

Lemma Summary_reads_on n c : Summary_field n = Some c -> reads_on c.
Proof. revert n c. each_case. Qed.

Lemma summary_reads_on : reads_on summary_case.
Proof.
  reads_on.
  match goal with |- context [Unmarshal Summary_field ?s ?v] =>
    pose proof (Unmarshal_ends Summary_field s v Summary_reads_on ltac:(unfold len in *; lia)) as He;
    destruct (Unmarshal Summary_field s v) end; [lia|unfold ends in He; congruence].
Qed.

(** Unmarshalling ends on every input. *)
Lemma messages_end d :
  len d < 2 ^ 63 ->
  ends (GetPublicKeyRequest_Unmarshal d) /\ ends (GetPublicKeyResponse_Unmarshal d) /\
  ends (SignRequest_Unmarshal d) /\ ends (SignResponse_Unmarshal d) /\
  ends (SignerErrorDetail_Unmarshal d).
Proof.
  intros Hd. split_and!; (apply Unmarshal_ends; [|done]); each_case. apply summary_reads_on.
Qed.

(** C28: the wire format of the signing service loses nothing and cannot hang.
    A request, a response and an error detail whose sizes fit an [int] are
    marshalled, from the back of a buffer of exactly the computed size, to bytes
    that unmarshal to the same message; and unmarshalling any bytes at all ends,
    with a message or with one of the code's own errors. *)
Theorem signer_wire_roundtrip (req : SignRequest) (resp : SignResponse) (e : SignerErrorDetail) (d : bytes)
    (Hreq : fits SignRequest_Size req) (Hresp : fits SignResponse_Size resp)
    (He : fits SignerErrorDetail_Size e /\ 0 <= ed_Code e < 2 ^ 31) (Hd : len d < 2 ^ 63) :
  (exists b, SignRequest_Marshal req = Some b /\ SignRequest_Unmarshal b = Ok req) /\
  (exists b, SignResponse_Marshal resp = Some b /\ SignResponse_Unmarshal b = Ok resp) /\
  (exists b, SignerErrorDetail_Marshal e = Some b /\ SignerErrorDetail_Unmarshal b = Ok e) /\
  ends (SignRequest_Unmarshal d) /\ ends (SignResponse_Unmarshal d) /\ ends (SignerErrorDetail_Unmarshal d).
Proof.
  destruct (messages_end d Hd) as (_ & _ & ? & ? & ?), He as [He Hcode].
  split_and!; [by apply SignRequest_roundtrip|by apply SignResponse_roundtrip|by apply SignerErrorDetail_roundtrip|done..].
Qed.

Definition sample_request : SignRequest :=
  MkSignRequest "hot-1" "SIGN_MODE_DIRECT" (text "document")
    (Some (MkWireSummary "sovr-1" "7" "3" "send" "a" "b" "10" "usovr" "2" "90000" "memo")).

Lemma signer_wire_roundtrip_witness :
  exists b, SignRequest_Marshal sample_request = Some b /\ SignRequest_Unmarshal b = Ok sample_request.
Proof.
  refine (proj1 (signer_wire_roundtrip sample_request (MkSignResponse "hot-1" (text "signature") (text "key"))
                   (MkErrorDetail SIGNER_ERROR_CODE_INTERNAL "detail") (text "any bytes") _ _ _ _));
    unfold fits; try split; vm_compute; intuition congruence.
Defined.

End SignerWireLaws.
