(* ===== verification/Signers.v ===== *)
(** * Signers: the typed signer errors and the in-memory signer

    [go/signer/errors.go], [go/signer/signer.go] and
    [go/signer/local/local.go].  A signer is the interface [TransactionSigner]:
    two functions of the call's context and the request.  The context is the
    text of [ctx.Err()], [None] while it is live.  The local signer keeps a map
    from key references to secrets; it signs only after decoding the document
    again and comparing every field with the summary it was shown.

    The protobuf runtime ([gogoproto], [protowire]) and the secp256k1 keys are
    parameters ([Wire]); the laws the theorems use of them are [WireLaws],
    [SendLaws] and [KeyLaws]. *)

From stdpp Require Import base list strings gmap.
From Stdlib Require Import ZArith Lia Ascii String Strings.Byte.
From S2P Require Import Prelude Text GoStrings Storage Chain Hash Tx.

Open Scope string_scope.
Open Scope list_scope.
Open Scope Z_scope.

(** ** signer *)

Module Signer.

Definition SignModeDirect : string := "SIGN_MODE_DIRECT".
Definition AlgorithmSecp256k1 : string := "secp256k1".

Definition CodeKeyNotFound : string := "KEY_NOT_FOUND".
Definition CodeSummaryMismatch : string := "SUMMARY_MISMATCH".
Definition CodePolicyRejected : string := "POLICY_REJECTED".
Definition CodeSignerUnavailable : string := "SIGNER_UNAVAILABLE".
Definition CodeInternal : string := "INTERNAL".

Record Error : Type := MkError { Code : string; Detail : string }.
Instance Error_eq_dec : EqDecision Error.
Proof. solve_decision. Defined.

(** An error value: a typed signer error, another error with its text, or an
    error wrapping one ([fmt.Errorf] with [%w]) with the text before it. *)
Inductive error : Type :=
| Typed (e : Error)
| Plain (text : string)
| Wrapped (prefix : string) (inner : error).

(** The method [Error.Error] *)
Definition Error_text (e : Error) : string :=
  if bool_decide (Detail e = "") then Code e else Code e ++ ": " ++ Detail e.

(** The method [Error.Is], for a target that is a signer error. *)
Definition Error_Is (e target : Error) : bool := bool_decide (Code target = Code e).

(** [errors.As(err, &e)] at [*Error]: the first signer error of the chain. *)
Fixpoint As (err : error) : option Error :=
  match err with
  | Typed e => Some e
  | Plain _ => None
  | Wrapped _ inner => As inner
  end.

(** [errors.Is(err, target)] *)
Fixpoint Is (err : error) (target : Error) : bool :=
  match err with
  | Typed e => Error_Is e target
  | Plain _ => false
  | Wrapped _ inner => Is inner target
  end.

(** [err.Error()] *)
Fixpoint error_text (err : error) : string :=
  match err with
  | Typed e => Error_text e
  | Plain t => t
  | Wrapped p inner => p ++ error_text inner
  end.

Definition ErrKeyNotFound : Error := MkError CodeKeyNotFound "".
Definition ErrSummaryMismatch : Error := MkError CodeSummaryMismatch "".
Definition ErrPolicyRejected : Error := MkError CodePolicyRejected "".
Definition ErrSignerUnavailable : Error := MkError CodeSignerUnavailable "".
Definition ErrInternal : Error := MkError CodeInternal "".

Definition NewError (sentinel : Error) (detail : string) : error :=
  Typed (MkError (Code sentinel) detail).

(** [None] is the nil error. *)
Definition CodeOf (err : option error) : string :=
  match err with
  | None => ""
  | Some e => match As e with Some te => Code te | None => CodeInternal end
  end.

Record PublicKeyResponse : Type := MkPublicKey {
  pk_KeyRef : string; pk_Algorithm : string; pk_PublicKeyCompressed : bytes }.

(** The text of [ctx.Err()]. *)
Definition context : Type := option string.
Definition Background : context := None.

Record TransactionSigner : Type := MkSigner {
  GetPublicKey : context -> string -> result error PublicKeyResponse;
  Sign : context -> SigningRequest -> result error SigningResponse }.

(** What the withdrawal workflow and the sweep engine read of a signer's
    error: [errors.Is(err, signer.ErrSignerUnavailable)]. *)
Definition seen (e : error) : err :=
  if Is e ErrSignerUnavailable then ErrSignerDown else ErrOther.
Definition answer {A} (r : result error A) : result err A :=
  match r with Ok a => Ok a | Err e => Err (seen e) end.

Lemma Is_code e target : Is e target = true -> CodeOf (Some e) = Code target.
Proof.
  induction e as [te|t|p e IH]; simpl; [|done|exact IH].
  unfold Error_Is. by intros ->%bool_decide_eq_true.
Qed.

End Signer.

(** ** Libraries *)

Class Wire : Type := {
  (** [proto.Unmarshal] of the two inner messages *)
  unmarshalTxBody : bytes -> option TxBody;
  unmarshalAuthInfo : bytes -> option AuthInfo;
  (** [protowire]: the results and the bytes consumed, negative on error *)
  ConsumeTag : bytes -> Z * Z * Z;
  ConsumeFieldValue : Z -> Z -> bytes -> Z;
  ConsumeBytes : bytes -> bytes * Z;
  (** [secp256k1.PrivKey] *)
  privkey_Sign : bytes -> bytes -> option bytes;
  privkey_PubKey : bytes -> bytes }.

(** [protowire] consumes at least one byte and no more than it was given. *)
Class WireLaws `{Wire} : Prop := {
  ConsumeTag_bounds : forall b num typ n, ConsumeTag b = (num, typ, n) -> 0 <= n ->
    0 < n <= Z.of_nat (List.length b);
  ConsumeFieldValue_bounds : forall num typ b n, ConsumeFieldValue num typ b = n -> 0 <= n ->
    n <= Z.of_nat (List.length b);
  ConsumeBytes_bounds : forall b v n, ConsumeBytes b = (v, n) -> 0 <= n ->
    n <= Z.of_nat (List.length b) }.

(** ** signer/local *)

Module Local.
Import Signer.

Record Options : Type := MkOptions { UnsafeTestOnly : bool; NetworkType : string }.

(** [Signer.keys] *)
Definition keystore : Type := gmap string bytes.

Definition New (opts : Options) : result error keystore :=
  if GoStrings.EqualFold (NetworkType opts) "mainnet" then
    Err (NewError ErrPolicyRejected "unsafe-local signer refused: network_type is mainnet")
  else if negb (UnsafeTestOnly opts) then
    Err (NewError ErrPolicyRejected "unsafe-local signer requires UnsafeTestOnly=true")
  else Ok ∅.

Definition PrivKeySize : nat := 32.

Definition ImportKey (keys : keystore) (keyRef : string) (secret : bytes) : option error * keystore :=
  if negb (List.length secret =? PrivKeySize)%nat then
    (Some (NewError ErrInternal "secp256k1 secret must be 32 bytes"), keys)
  else (None, <[keyRef := secret]> keys).

(** [Signer.key] *)
Definition key (keys : keystore) (ref : string) : result error bytes :=
  match keys !! ref with
  | None => Err (NewError ErrKeyNotFound ("no key for ref " ++ ref))
  | Some priv => Ok priv
  end.

(** [big.Int.String] of the amount in a decoded coin. *)
Definition amount_String (a : option Z) : string :=
  match a with Some n => Tx.int_String n | None => "<nil>" end.

Record wireCoin : Type := MkWireCoin { wc_denom : string; wc_amount : string }.
Record msgSend : Type := MkWireSend {
  wm_fromAddress : string; wm_toAddress : string; wm_amount : list wireCoin }.

(** [string(v)] *)
Definition text_of (v : bytes) : string := string_of_list_byte v.

(** [ParseError] carries the negative count; [OutOfSteps] is not an error of
    the code: the walk did not end within the steps given to the model. *)
Inductive walk_error : Type := ParseError (n : Z) | OutOfSteps.

Notation "'try' x := e 'in' k" :=
  (match e with Ok x => k | Err er => Err er end)
  (at level 10, x pattern, e at level 100, k at level 200).

Section local.
Context `{X : Ext} `{W : Wire}.

(** [GenerateKey] with the key [secp256k1.GenPrivKey] drew. *)
Definition GenerateKey (keys : keystore) (keyRef : string) (drawn : bytes) : bytes * keystore :=
  (privkey_PubKey drawn, <[keyRef := drawn]> keys).

Definition GetPublicKey (keys : keystore) (ctx : context) (keyRef : string)
    : result error PublicKeyResponse :=
  match ctx with
  | Some text => Err (NewError ErrSignerUnavailable text)
  | None =>
      try priv := key keys keyRef in
      Ok (MkPublicKey keyRef AlgorithmSecp256k1 (privkey_PubKey priv))
  end.

(** The loop of [eachField]: at most [steps] fields. *)
Fixpoint eachField_loop {A} (steps : nat) (fn : Z -> bytes -> A -> result walk_error A)
    (b : bytes) (m : A) : result walk_error A :=
  match b with
  | [] => Ok m
  | _ =>
      match steps with
      | O => Err OutOfSteps
      | S steps' =>
          let '(num, typ, n) := ConsumeTag b in
          if n <? 0 then Err (ParseError n)
          else
            let b := drop (Z.to_nat n) b in
            if negb (typ =? 2) then
              let n := ConsumeFieldValue num typ b in
              if n <? 0 then Err (ParseError n)
              else eachField_loop steps' fn (drop (Z.to_nat n) b) m
            else
              let '(v, n) := ConsumeBytes b in
              if n <? 0 then Err (ParseError n)
              else try m' := fn num v m in eachField_loop steps' fn (drop (Z.to_nat n) b) m'
      end
  end.

Definition eachField {A} (b : bytes) (fn : Z -> bytes -> A -> result walk_error A) (m : A)
    : result walk_error A :=
  eachField_loop (List.length b) fn b m.

(** The callback over a coin's fields. *)
Definition coin_field (num : Z) (v : bytes) (c : wireCoin) : result walk_error wireCoin :=
  Ok (if num =? 1 then MkWireCoin (text_of v) (wc_amount c)
      else if num =? 2 then MkWireCoin (wc_denom c) (text_of v)
      else c).

(** The callback over the message's fields. *)
Definition send_field (num : Z) (v : bytes) (m : msgSend) : result walk_error msgSend :=
  if num =? 1 then Ok (MkWireSend (text_of v) (wm_toAddress m) (wm_amount m))
  else if num =? 2 then Ok (MkWireSend (wm_fromAddress m) (text_of v) (wm_amount m))
  else if num =? 3 then
    try c := eachField v coin_field (MkWireCoin "" "") in
    Ok (MkWireSend (wm_fromAddress m) (wm_toAddress m) (wm_amount m ++ [c]))
  else Ok m.

Definition decodeMsgSend (b : bytes) : result walk_error msgSend :=
  eachField b send_field (MkWireSend "" "" []).

Definition mismatch (field : string) : error := NewError ErrSummaryMismatch field.

(** [if cond { return mismatch(field) }] *)
Definition agree (b : bool) (field : string) : result error unit :=
  if b then Ok tt else Err (mismatch field).
Definition decoded {A} (o : option A) (field : string) : result error A :=
  match o with Some a => Ok a | None => Err (mismatch field) end.
Definition sole {A} (l : list A) (field : string) : result error A :=
  match l with [x] => Ok x | _ => Err (mismatch field) end.
Definition same (x y : string) (field : string) : result error unit :=
  agree (bool_decide (x = y)) field.

(** The [switch len(authInfo.Fee.Amount)]. *)
Definition verify_fee (coins : list Coin) (sum : SigningSummary) : result error unit :=
  match coins with
  | [] => same (ss_FeeBaseUnits sum) "0" "fee_base_units"
  | [c] =>
      try _ := same (coin_Denom c) (ss_Denom sum) "fee denom" in
      same (amount_String (coin_Amount c)) (ss_FeeBaseUnits sum) "fee_base_units"
  | _ => Err (mismatch "fee coin count")
  end.

Definition verifySummary (docBytes : bytes) (sum : SigningSummary) : result error unit :=
  try doc := decoded (unmarshalSignDoc docBytes) "sign doc undecodable" in
  try body := decoded (unmarshalTxBody (sd_BodyBytes doc)) "tx body undecodable" in
  try authInfo := decoded (unmarshalAuthInfo (sd_AuthInfoBytes doc)) "auth info undecodable" in
  try _ := same (sd_ChainId doc) (ss_ChainID sum) "chain_id" in
  try _ := same (Tx.FormatUint (sd_AccountNumber doc)) (ss_AccountNumber sum) "account_number" in
  try any := sole (tb_Messages body) "message count" in
  try _ := agree (bool_decide (ss_MessageType sum = MsgTypeBankSend) &&
                  bool_decide (any_TypeUrl any = ss_MessageType sum)) "message_type" in
  try msg := match decodeMsgSend (any_Value any) with
             | Ok m => Ok m | Err _ => Err (mismatch "message undecodable") end in
  try _ := same (wm_fromAddress msg) (ss_SenderAddress sum) "sender_address" in
  try _ := same (wm_toAddress msg) (ss_RecipientAddress sum) "recipient_address" in
  try coin := sole (wm_amount msg) "amount coin count" in
  try _ := same (wc_denom coin) (ss_Denom sum) "denom" in
  try _ := same (wc_amount coin) (ss_AmountBaseUnits sum) "amount_base_units" in
  try _ := same (tb_Memo body) (ss_Memo sum) "memo" in
  try fee := decoded (ai_Fee authInfo) "fee missing" in
  try _ := verify_fee (fm_Amount fee) sum in
  try _ := same (Tx.FormatUint (fm_GasLimit fee)) (ss_GasLimit sum) "gas_limit" in
  try info := sole (ai_SignerInfos authInfo) "signer info count" in
  same (Tx.FormatUint (si_Sequence info)) (ss_Sequence sum) "sequence".

Definition Sign (keys : keystore) (ctx : context) (req : SigningRequest)
    : result error SigningResponse :=
  match ctx with
  | Some text => Err (NewError ErrSignerUnavailable text)
  | None =>
      if negb (bool_decide (sq_SignMode req = SignModeDirect)) then
        Err (NewError ErrPolicyRejected ("unsupported sign mode " ++ sq_SignMode req))
      else
        try priv := key keys (sq_KeyRef req) in
        try _ := verifySummary (sq_SignDocBytes req) (sq_Summary req) in
        match privkey_Sign priv (sq_SignDocBytes req) with
        | None => Err (NewError ErrInternal "signing failed")
        | Some sig => Ok (MkSigningResponse (sq_KeyRef req) sig (privkey_PubKey priv))
        end
  end.

(** The local signer as the interface. *)
Definition signer (keys : keystore) : TransactionSigner := MkSigner (GetPublicKey keys) (Sign keys).
End local.

End Local.
