(* ===== verification/RemoteSigner.v ===== *)
(** * RemoteSigner: the gRPC signer client and its reference server

    [go/signer/grpcremote/grpcremote.go] and [server.go], with the service
    stubs of [go/gen/sovren/signer/v1/signer.pb.go].  The certificate store and
    the dialer are parameters of [New]; a call is [Invoke], which carries the
    marshalled request and returns the marshalled response or a gRPC status.
    [serve] is the server's side of it: [Invoke] over a connection that
    delivers every message.  A context is passed on to the peer. *)

From stdpp Require Import base list strings.
From Stdlib Require Import ZArith Lia Ascii String Strings.Byte.
From S2P Require Import Prelude Text GoStrings Storage Chain Hash Tx Signers SignerWire SignerWireLaws.

Open Scope string_scope.
Open Scope list_scope.
Open Scope Z_scope.

Module RemoteSigner.
Import Signer.

Definition detailTypeURL : string := "type.googleapis.com/sovren.signer.v1.SignerErrorDetail".

(** ** Construction *)

Record TLSConfig : Type := MkTLS {
  CAFile : string; CertFile : string; KeyFile : string; ServerName : string; AllowServerOnly : bool }.
Record Config : Type := MkConfig {
  Target : string; TLS : option TLSConfig; AllowInsecureDev : bool; CallTimeout : Z }.

(** [tls.Config]: TLS 1.2 at least, the server name, whether the server must
    verify under the CA file's pool, and the client certificate's files. *)
Record tls_Config : Type := MkTLSConfig {
  tc_ServerName : string; tc_RootCAs : option bytes; tc_Certificate : option (string * string) }.

Inductive new_error : Type :=
| TargetRequired
| RefusingPlaintext
| ProductionMTLSRequires (missing : list string)
| ReadCAFile | NoCertificates | CertAndKeyTogether | LoadClientKeyPair | Dial.

(** The files and the dialer: [os.ReadFile], [AppendCertsFromPEM],
    [tls.LoadX509KeyPair], [grpc.NewClient] succeeding. *)
Record host : Type := MkHost {
  ReadFile : string -> option bytes;
  AppendCertsFromPEM : bytes -> bool;
  LoadX509KeyPair : string -> string -> bool;
  NewClient : string -> bool }.

Inductive credentials : Type := WithTLS (c : tls_Config) | Insecure.

(** [Client]: where it dials, how, and the timeout of each call (nanoseconds). *)
Record Client : Type := MkClient { c_target : string; c_creds : credentials; c_timeout : Z }.

Definition build (h : host) (t : TLSConfig) : result new_error tls_Config :=
  let missing := if AllowServerOnly t then [] else
    (if GoStrings.empty (CAFile t) then ["ca_file"] else []) ++
    (if GoStrings.empty (CertFile t) then ["cert_file"] else []) ++
    (if GoStrings.empty (KeyFile t) then ["key_file"] else []) in
  match missing with
  | _ :: _ => Err (ProductionMTLSRequires missing)
  | [] =>
      let pool :=
        if GoStrings.empty (CAFile t) then Ok None
        else match ReadFile h (CAFile t) with
             | None => Err ReadCAFile
             | Some pem => if AppendCertsFromPEM h pem then Ok (Some pem) else Err NoCertificates
             end in
      match pool with
      | Err e => Err e
      | Ok roots =>
          if negb (Bool.eqb (GoStrings.empty (CertFile t)) (GoStrings.empty (KeyFile t))) then Err CertAndKeyTogether
          else if GoStrings.empty (CertFile t) then Ok (MkTLSConfig (ServerName t) roots None)
          else if LoadX509KeyPair h (CertFile t) (KeyFile t)
          then Ok (MkTLSConfig (ServerName t) roots (Some (CertFile t, KeyFile t)))
          else Err LoadClientKeyPair
      end
  end.

Definition default_timeout : Z := 30 * 10 ^ 9.

Definition New (h : host) (cfg : Config) : result new_error Client :=
  if GoStrings.empty (Target cfg) then Err TargetRequired
  else
    let creds :=
      match TLS cfg with
      | Some t => match build h t with Ok tc => Ok (WithTLS tc) | Err e => Err e end
      | None => if AllowInsecureDev cfg then Ok Insecure else Err RefusingPlaintext
      end in
    match creds with
    | Err e => Err e
    | Ok creds =>
        if negb (NewClient h (Target cfg)) then Err Dial
        else Ok (MkClient (Target cfg) creds
                   (if CallTimeout cfg <=? 0 then default_timeout else CallTimeout cfg))
    end.

(** ** Messages *)

Definition summaryToProto (s : SigningSummary) : SignerWire.Summary :=
  SignerWire.MkWireSummary (ss_ChainID s) (ss_AccountNumber s) (ss_Sequence s) (ss_MessageType s)
    (ss_SenderAddress s) (ss_RecipientAddress s) (ss_AmountBaseUnits s) (ss_Denom s)
    (ss_FeeBaseUnits s) (ss_GasLimit s) (ss_Memo s).

Definition summaryFromProto (s : option SignerWire.Summary) : SigningSummary :=
  match s with
  | None => MkSummary "" "" "" "" "" "" "" "" "" "" ""
  | Some s =>
      MkSummary (SignerWire.pm_ChainId s) (SignerWire.pm_AccountNumber s) (SignerWire.pm_Sequence s)
        (SignerWire.pm_MessageType s) (SignerWire.pm_SenderAddress s) (SignerWire.pm_RecipientAddress s)
        (SignerWire.pm_AmountBaseUnits s) (SignerWire.pm_Denom s) (SignerWire.pm_FeeBaseUnits s)
        (SignerWire.pm_GasLimit s) (SignerWire.pm_Memo s)
  end.

(** ** Errors *)

(** [google.golang.org/grpc/codes] *)
Definition Canceled : Z := 1.
Definition InvalidArgument : Z := 3.
Definition DeadlineExceeded : Z := 4.
Definition NotFound : Z := 5.
Definition PermissionDenied : Z := 7.
Definition FailedPrecondition : Z := 9.
Definition Unimplemented : Z := 12.
Definition Internal : Z := 13.
Definition Unavailable : Z := 14.

Record Status : Type := MkStatus { st_Code : Z; st_Message : string; st_Details : list Any }.

Definition codeToGRPC : list (string * Z) :=
  [(CodeKeyNotFound, NotFound); (CodeSummaryMismatch, InvalidArgument);
   (CodePolicyRejected, PermissionDenied); (CodeSignerUnavailable, Unavailable);
   (CodeInternal, Internal)].
Definition codeToDetail : list (string * Z) :=
  [(CodeKeyNotFound, SignerWire.SIGNER_ERROR_CODE_KEY_NOT_FOUND);
   (CodeSummaryMismatch, SignerWire.SIGNER_ERROR_CODE_SUMMARY_MISMATCH);
   (CodePolicyRejected, SignerWire.SIGNER_ERROR_CODE_POLICY_REJECTED);
   (CodeSignerUnavailable, SignerWire.SIGNER_ERROR_CODE_SIGNER_UNAVAILABLE);
   (CodeInternal, SignerWire.SIGNER_ERROR_CODE_INTERNAL)].
Definition detailToCode : list (Z * string) :=
  [(SignerWire.SIGNER_ERROR_CODE_KEY_NOT_FOUND, CodeKeyNotFound);
   (SignerWire.SIGNER_ERROR_CODE_SUMMARY_MISMATCH, CodeSummaryMismatch);
   (SignerWire.SIGNER_ERROR_CODE_POLICY_REJECTED, CodePolicyRejected);
   (SignerWire.SIGNER_ERROR_CODE_SIGNER_UNAVAILABLE, CodeSignerUnavailable);
   (SignerWire.SIGNER_ERROR_CODE_INTERNAL, CodeInternal)].

(** [m[k]] of a map literal with its [ok]. *)
Definition map_get {K V} `{EqDecision K} (m : list (K * V)) (k : K) : option V :=
  option_map snd (List.find (fun e => bool_decide (fst e = k)) m).

(** The marshaller returns no error; its panic ([None]) is shown impossible by
    [SignerWireLaws.SignerErrorDetail_roundtrip]. *)
Definition signerErrorToStatus (err : error) : Status :=
  let '(grpcCode, code) :=
    match map_get codeToGRPC (CodeOf (Some err)) with
    | Some g => (g, CodeOf (Some err))
    | None => (Internal, CodeInternal)
    end in
  let detail := match As err with Some se => Detail se | None => "" end in
  let dc := match map_get codeToDetail code with Some d => d | None => 0 end in
  match SignerWire.SignerErrorDetail_Marshal (SignerWire.MkErrorDetail dc detail) with
  | None => MkStatus grpcCode code []
  | Some raw => MkStatus grpcCode code [MkAny detailTypeURL raw]
  end.

(** One detail of the status: the typed error, when the detail is one. *)
Definition detail_error (d : Any) : option Error :=
  if negb (GoStrings.HasSuffix (any_TypeUrl d) "sovren.signer.v1.SignerErrorDetail") then None
  else match SignerWire.SignerErrorDetail_Unmarshal (any_Value d) with
       | Err _ => None
       | Ok detail =>
           match map_get detailToCode (SignerWire.ed_Code detail) with
           | Some code => Some (MkError code (SignerWire.ed_Detail detail))
           | None => None
           end
       end.

(** The loop over the details: the first typed one. *)
Fixpoint first_detail (ds : list Any) : option Error :=
  match ds with
  | [] => None
  | d :: ds' => match detail_error d with Some e => Some e | None => first_detail ds' end
  end.

Definition statusToSignerError (st : Status) : error :=
  match first_detail (st_Details st) with
  | Some e => Typed e
  | None =>
      let c := st_Code st in
      if c =? NotFound then NewError ErrKeyNotFound (st_Message st)
      else if c =? InvalidArgument then NewError ErrSummaryMismatch (st_Message st)
      else if (c =? PermissionDenied) || (c =? FailedPrecondition)
      then NewError ErrPolicyRejected (st_Message st)
      else if (c =? Unavailable) || (c =? DeadlineExceeded) || (c =? Canceled)
      then NewError ErrSignerUnavailable (st_Message st)
      else NewError ErrInternal (st_Message st)
  end.

(** ** The client *)

(** [grpc.ClientConn.Invoke] on the encoded request. *)
Definition channel : Type := context -> string -> bytes -> result Status bytes.

Definition GetPublicKey_method : string := "/sovren.signer.v1.SignerService/GetPublicKey".
Definition Sign_method : string := "/sovren.signer.v1.SignerService/Sign".

(** The generated stubs: the codec encodes the request and decodes the
    response; grpc reports a failure of either as [Internal]. *)
Definition unary {A B} (Marshal : A -> option bytes)
    (Unmarshal : bytes -> result SignerWire.uerror B) (Invoke : channel) (ctx : context)
    (method : string) (inp : A) : result Status B :=
  match Marshal inp with
  | None => Err (MkStatus Internal "grpc: error while marshaling" [])
  | Some raw =>
      match Invoke ctx method raw with
      | Err st => Err st
      | Ok out =>
          match Unmarshal out with
          | Ok b => Ok b
          | Err _ => Err (MkStatus Internal "grpc: failed to unmarshal the received message" [])
          end
      end
  end.

Section client.
Context (Invoke : channel).

Definition svc_GetPublicKey (ctx : context) (inp : SignerWire.GetPublicKeyRequest)
    : result Status SignerWire.GetPublicKeyResponse :=
  unary SignerWire.GetPublicKeyRequest_Marshal SignerWire.GetPublicKeyResponse_Unmarshal Invoke ctx
    GetPublicKey_method inp.
Definition svc_Sign (ctx : context) (inp : SignerWire.SignRequest) : result Status SignerWire.SignResponse :=
  unary SignerWire.SignRequest_Marshal SignerWire.SignResponse_Unmarshal Invoke ctx Sign_method inp.

(** [%d] of a length. *)
Definition count (b : bytes) : string := Tx.FormatUint (Z.of_nat (List.length b)).

Definition GetPublicKey (ctx : context) (keyRef : string) : result error PublicKeyResponse :=
  match svc_GetPublicKey ctx (SignerWire.MkKeyRequest keyRef) with
  | Err st => Err (statusToSignerError st)
  | Ok resp =>
      if negb (bool_decide (SignerWire.gr_Algorithm resp = AlgorithmSecp256k1)) then
        Err (NewError ErrInternal ("remote signer returned unsupported algorithm " ++ SignerWire.gr_Algorithm resp))
      else if negb (List.length (SignerWire.gr_PublicKeyCompressed resp) =? 33)%nat then
        Err (NewError ErrInternal
               ("remote signer returned " ++ count (SignerWire.gr_PublicKeyCompressed resp) ++ "-byte public key"))
      else Ok (MkPublicKey (SignerWire.gr_KeyRef resp) (SignerWire.gr_Algorithm resp)
                 (SignerWire.gr_PublicKeyCompressed resp))
  end.

Definition Sign (ctx : context) (req : SigningRequest) : result error SigningResponse :=
  match svc_Sign ctx (SignerWire.MkSignRequest (sq_KeyRef req) (sq_SignMode req) (sq_SignDocBytes req)
                        (Some (summaryToProto (sq_Summary req)))) with
  | Err st => Err (statusToSignerError st)
  | Ok resp =>
      if negb (List.length (SignerWire.so_Signature resp) =? 64)%nat then
        Err (NewError ErrInternal
               ("remote signer returned " ++ count (SignerWire.so_Signature resp) ++ "-byte signature"))
      else Ok (MkSigningResponse (SignerWire.so_KeyRef resp) (SignerWire.so_Signature resp)
                 (SignerWire.so_PublicKeyCompressed resp))
  end.

Definition remote : TransactionSigner := MkSigner GetPublicKey Sign.
End client.

(** ** The server *)

Section server.
Context (backend : TransactionSigner).

Definition Server_GetPublicKey (ctx : context) (req : SignerWire.GetPublicKeyRequest)
    : result Status SignerWire.GetPublicKeyResponse :=
  match Signer.GetPublicKey backend ctx (SignerWire.gq_KeyRef req) with
  | Err e => Err (signerErrorToStatus e)
  | Ok resp => Ok (SignerWire.MkKeyResponse (pk_KeyRef resp) (pk_Algorithm resp) (pk_PublicKeyCompressed resp))
  end.

Definition Server_Sign (ctx : context) (req : SignerWire.SignRequest) : result Status SignerWire.SignResponse :=
  match Signer.Sign backend ctx (MkSigningRequest (SignerWire.sr_KeyRef req) (SignerWire.sr_SignMode req)
          (SignerWire.sr_SignDocBytes req) (summaryFromProto (SignerWire.sr_Summary req))) with
  | Err e => Err (signerErrorToStatus e)
  | Ok resp => Ok (SignerWire.MkSignResponse (sp_KeyRef resp) (sp_Signature resp) (sp_PubKeyCompressed resp))
  end.

(** The generated handlers: decode, call, encode. *)
Definition handle {A B} (Unmarshal : bytes -> result SignerWire.uerror A) (Marshal : B -> option bytes)
    (f : context -> A -> result Status B) (ctx : context) (raw : bytes) : result Status bytes :=
  match Unmarshal raw with
  | Err _ => Err (MkStatus Internal "grpc: error unmarshalling request" [])
  | Ok inp =>
      match f ctx inp with
      | Err st => Err st
      | Ok out =>
          match Marshal out with
          | Some b => Ok b
          | None => Err (MkStatus Internal "grpc: error while marshaling" [])
          end
      end
  end.

(** The registered service. *)
Definition serve : channel := fun ctx method raw =>
  if bool_decide (method = GetPublicKey_method) then
    handle SignerWire.GetPublicKeyRequest_Unmarshal SignerWire.GetPublicKeyResponse_Marshal
      Server_GetPublicKey ctx raw
  else if bool_decide (method = Sign_method) then
    handle SignerWire.SignRequest_Unmarshal SignerWire.SignResponse_Marshal Server_Sign ctx raw
  else Err (MkStatus Unimplemented "unknown method" []).
End server.

End RemoteSigner.
