(* ===== verification/ExecSigner.v ===== *)
(** * ExecSigner: the subprocess signer and its reference subprocess

    [go/signer/execsigner/execsigner.go], [go/cmd/sovren-exec-signer-demo/main.go]
    and [go/address/derive.go].  One subprocess runs per request: the request is
    a JSON document on its standard input, the answer a JSON document on its
    standard output, byte strings in base64 ([Base64], Go's
    [encoding/base64.StdEncoding]).  The documents are the values the JSON
    decoder delivers; JSON carries a string of valid UTF-8 unchanged.  The HD
    derivation of the demo is a library parameter. *)

From stdpp Require Import base list strings gmap.
From Stdlib Require Import ZArith Lia Ascii String Strings.Byte.
From S2P Require Import Prelude Text GoStrings Storage Chain Hash Address Tx Signers.

Open Scope string_scope.
Open Scope list_scope.
Open Scope Z_scope.

(** ** encoding/base64 *)

Module Base64.

Definition alphabet : text :=
  chars "ABCDEFGHIJKLMNOPQRSTUVWXYZabcdefghijklmnopqrstuvwxyz0123456789+/".
Definition pad : ascii := "="%char.

Definition digit (v : Z) : ascii := nth (Z.to_nat (v mod 64)) alphabet pad.

Fixpoint index (c : ascii) (t : text) (i : Z) : option Z :=
  match t with
  | [] => None
  | d :: t' => if bool_decide (c = d) then Some i else index c t' (i + 1)
  end.
(** [decodeMap] *)
Definition undigit (c : ascii) : option Z := index c alphabet 0.

Definition val3 (a b c : byte) : Z :=
  Hash.byte_val a * 2 ^ 16 + Hash.byte_val b * 2 ^ 8 + Hash.byte_val c.

Fixpoint encode (src : bytes) : text :=
  match src with
  | a :: b :: c :: rest =>
      let n := val3 a b c in
      digit (n / 2 ^ 18) :: digit (n / 2 ^ 12) :: digit (n / 2 ^ 6) :: digit n :: encode rest
  | [a; b] =>
      let n := val3 a b x00 in [digit (n / 2 ^ 18); digit (n / 2 ^ 12); digit (n / 2 ^ 6); pad]
  | [a] => let n := val3 a x00 x00 in [digit (n / 2 ^ 18); digit (n / 2 ^ 12); pad; pad]
  | [] => []
  end.
Definition EncodeToString (src : bytes) : string := of_chars (encode src).

Definition byte_at (n k : Z) : byte := Hash.val_byte (n / 2 ^ k).

(** Quanta of four; padding only in the last one. *)
Fixpoint decode (t : text) : option bytes :=
  match t with
  | [] => Some []
  | a :: b :: c :: d :: rest =>
      match undigit a, undigit b with
      | Some va, Some vb =>
          match undigit c with
          | Some vc =>
              match undigit d with
              | Some vd =>
                  let n := va * 2 ^ 18 + vb * 2 ^ 12 + vc * 2 ^ 6 + vd in
                  match decode rest with
                  | Some out => Some (byte_at n 16 :: byte_at n 8 :: byte_at n 0 :: out)
                  | None => None
                  end
              | None =>
                  if bool_decide (d = pad) && bool_decide (rest = []) then
                    let n := va * 2 ^ 18 + vb * 2 ^ 12 + vc * 2 ^ 6 in
                    Some [byte_at n 16; byte_at n 8]
                  else None
              end
          | None =>
              if bool_decide (c = pad) && bool_decide (d = pad) && bool_decide (rest = []) then
                let n := va * 2 ^ 18 + vb * 2 ^ 12 in Some [byte_at n 16]
              else None
          end
      | _, _ => None
      end
  | _ => None
  end.

(** Line ends are skipped wherever they are. *)
Definition is_newline (c : ascii) : bool :=
  bool_decide (nat_of_ascii c = 10%nat) || bool_decide (nat_of_ascii c = 13%nat).
Definition DecodeString (s : string) : option bytes :=
  decode (List.filter (fun c => negb (is_newline c)) (chars s)).

Example encode_example : EncodeToString [x66; x6f; x6f; x62; x61] = "Zm9vYmE=".
Proof. reflexivity. Qed.
Example decode_example :
  DecodeString "Zm9vYg==" = Some [x66; x6f; x6f; x62] /\ DecodeString "Zm9vYg=" = None /\
  DecodeString "Zm9=vYg=" = None.
Proof. repeat split; reflexivity. Qed.

End Base64.

(** ** address.DeriveAddress *)

(** [hd.Secp256k1.Derive()] with the empty passphrase. *)
Class HD : Type := { hd_Derive : string -> string -> result string bytes }.

Module Derive.

Definition DefaultHDPath : string := "m/44'/118'/0'/0/0".
Definition requiredHDPathPrefix : string := "m/44'/118'/".

(** [address.Address] *)
Record derived : Type := MkDerived {
  d_Path : string; d_PrivateKey : bytes; d_PublicKeyCompressed : bytes; d_AddressBytes : bytes;
  d_Bech32 : string }.

Inductive derive_error : Type :=
| MnemonicEmpty | PathPrefix (path : string) | HDDerivation (text : string) | Bech32Encode.

Definition DeriveAddress `{Ext, Wire, HD} (mnemonic path : string) : result derive_error derived :=
  if GoStrings.empty (GoStrings.TrimSpace mnemonic) then Err MnemonicEmpty
  else if negb (GoStrings.HasPrefix path requiredHDPathPrefix) then Err (PathPrefix path)
  else match hd_Derive mnemonic path with
       | Err text => Err (HDDerivation text)
       | Ok secret =>
           let pub := privkey_PubKey secret in
           let addrBytes := pubkey_Address pub in
           match bech32_ConvertAndEncode Address.Bech32PrefixAccount addrBytes with
           | Err _ => Err Bech32Encode
           | Ok encoded => Ok (MkDerived path secret pub addrBytes encoded)
           end
       end.

End Derive.

(** ** execsigner *)

Module ExecSigner.
Import Signer.

Definition OpGetPublicKey : string := "get_public_key".
Definition OpSign : string := "sign".

Record Summary : Type := MkExecSummary {
  es_ChainID : string; es_AccountNumber : string; es_Sequence : string; es_MessageType : string;
  es_SenderAddress : string; es_RecipientAddress : string; es_AmountBaseUnits : string;
  es_Denom : string; es_FeeBaseUnits : string; es_GasLimit : string; es_Memo : string }.
Record Request : Type := MkRequest {
  rq_Op : string; rq_KeyRef : string; rq_SignMode : string; rq_SignDocBytesB64 : string;
  rq_Summary : option Summary }.
Record Response : Type := MkResponse {
  rp_KeyRef : string; rp_Algorithm : string; rp_PublicKeyCompressedB64 : string; rp_SignatureB64 : string }.
Record ErrorResponse : Type := MkErrorResponse { er_ErrorCode : string; er_Detail : string }.

Definition SummaryFrom (s : SigningSummary) : Summary :=
  MkExecSummary (ss_ChainID s) (ss_AccountNumber s) (ss_Sequence s) (ss_MessageType s)
    (ss_SenderAddress s) (ss_RecipientAddress s) (ss_AmountBaseUnits s) (ss_Denom s)
    (ss_FeeBaseUnits s) (ss_GasLimit s) (ss_Memo s).

Definition ToSigningSummary (s : option Summary) : SigningSummary :=
  match s with
  | None => MkSummary "" "" "" "" "" "" "" "" "" "" ""
  | Some s => MkSummary (es_ChainID s) (es_AccountNumber s) (es_Sequence s) (es_MessageType s)
      (es_SenderAddress s) (es_RecipientAddress s) (es_AmountBaseUnits s) (es_Denom s)
      (es_FeeBaseUnits s) (es_GasLimit s) (es_Memo s)
  end.

Record Config : Type := MkConfig { Path : string; Args : list string; Timeout : Z }.

(** [New]: [None] is the error for the missing path; durations are nanoseconds. *)
Definition New (cfg : Config) : option Config :=
  if GoStrings.empty (Path cfg) then None
  else Some (MkConfig (Path cfg) (Args cfg) (if Timeout cfg <=? 0 then 30 * 10 ^ 9 else Timeout cfg)).

(** What the JSON decoder makes of an output stream, read as a response and,
    with white space trimmed, as an error response. *)
Record output : Type := MkOutput { as_Response : option Response; as_Error : option ErrorResponse }.

(** [cmd.Run()]: success, an exit status, or a command that did not start. *)
Inductive run_result : Type := RunOk | ExitError (code : Z) | NotStarted (text : string).
Record outcome : Type := MkOutcome {
  o_expired : bool; o_result : run_result; o_stdout : output; o_stderr : output }.

Definition sentinels : list Error :=
  [ErrKeyNotFound; ErrSummaryMismatch; ErrPolicyRejected; ErrSignerUnavailable; ErrInternal].

(** [%q] of the unknown code is left as the code. *)
Definition sentinel_error (er : ErrorResponse) : error :=
  match List.find (fun s => bool_decide (er_ErrorCode er = Code s)) sentinels with
  | Some s => NewError s (er_Detail er)
  | None => NewError ErrInternal ("exec signer returned unknown error code " ++ er_ErrorCode er)
  end.

(** The loop over the two streams. *)
Fixpoint stream_error (outs : list output) : option error :=
  match outs with
  | [] => None
  | out :: outs' =>
      match as_Error out with
      | Some er => if GoStrings.empty (er_ErrorCode er) then stream_error outs' else Some (sentinel_error er)
      | None => stream_error outs'
      end
  end.

Definition mapExitError (stdout stderr : output) (exitCode : Z) : error :=
  match stream_error [stdout; stderr] with
  | Some e => e
  | None => NewError ErrInternal ("exec signer exited with code " ++ Tx.int_String exitCode)
  end.

Section client.
(** The subprocess, given the document on its standard input. *)
Context (run : context -> Request -> outcome).

Definition roundTrip (ctx : context) (req : Request) : result error Response :=
  let o := run ctx req in
  if o_expired o then Err (NewError ErrSignerUnavailable "exec signer timed out")
  else match o_result o with
       | ExitError code => Err (mapExitError (o_stdout o) (o_stderr o) code)
       | NotStarted text => Err (NewError ErrSignerUnavailable ("exec signer failed to start: " ++ text))
       | RunOk =>
           match as_Response (o_stdout o) with
           | Some resp => Ok resp
           | None => Err (NewError ErrInternal "exec signer produced undecodable output")
           end
       end.

(** [base64.StdEncoding.DecodeString] followed by the length check. *)
Definition decode_sized (s : string) (n : nat) : option bytes :=
  match Base64.DecodeString s with
  | Some b => if (List.length b =? n)%nat then Some b else None
  | None => None
  end.

Definition GetPublicKey (ctx : context) (keyRef : string) : result error PublicKeyResponse :=
  match roundTrip ctx (MkRequest OpGetPublicKey keyRef "" "" None) with
  | Err e => Err e
  | Ok resp =>
      match decode_sized (rp_PublicKeyCompressedB64 resp) 33 with
      | None => Err (NewError ErrInternal "exec signer returned malformed public key")
      | Some pub =>
          let alg := if GoStrings.empty (rp_Algorithm resp) then AlgorithmSecp256k1 else rp_Algorithm resp in
          if negb (bool_decide (alg = AlgorithmSecp256k1)) then
            Err (NewError ErrInternal ("exec signer returned unsupported algorithm " ++ alg))
          else Ok (MkPublicKey (rp_KeyRef resp) alg pub)
      end
  end.

Definition Sign (ctx : context) (req : SigningRequest) : result error SigningResponse :=
  match roundTrip ctx (MkRequest OpSign (sq_KeyRef req) (sq_SignMode req)
                         (Base64.EncodeToString (sq_SignDocBytes req)) (Some (SummaryFrom (sq_Summary req)))) with
  | Err e => Err e
  | Ok resp =>
      match decode_sized (rp_SignatureB64 resp) 64 with
      | None => Err (NewError ErrInternal "exec signer returned malformed signature")
      | Some sig =>
          match decode_sized (rp_PublicKeyCompressedB64 resp) 33 with
          | None => Err (NewError ErrInternal "exec signer returned malformed public key")
          | Some pub => Ok (MkSigningResponse (rp_KeyRef resp) sig pub)
          end
      end
  end.

Definition exec : TransactionSigner := MkSigner GetPublicKey Sign.
End client.

End ExecSigner.

(** ** cmd/sovren-exec-signer-demo *)

Module Demo.
Import Signer ExecSigner.

(** The environment variables the demo reads, empty when unset. *)
Record environ : Type := MkEnviron {
  e_Unsafe : string; e_Mnemonic : string; e_HDPath : string; e_NetworkType : string }.

Section demo.
Context `{X : Ext, W : Wire, D : HD}.

(** The text of the derivation's error is not modelled. *)
Definition backend (env : environ) : result error (Derive.derived * Local.keystore) :=
  if negb (bool_decide (e_Unsafe env = "UNSAFE_TEST_ONLY")) then
    Err (NewError ErrPolicyRejected "set SOVREN_EXEC_SIGNER_UNSAFE=UNSAFE_TEST_ONLY: this demo signer is for certification/testing only")
  else if GoStrings.empty (e_Mnemonic env) then
    Err (NewError ErrPolicyRejected "SOVREN_EXEC_SIGNER_MNEMONIC is required")
  else
    let hdPath := if GoStrings.empty (e_HDPath env) then Derive.DefaultHDPath else e_HDPath env in
    match Local.New (Local.MkOptions true (e_NetworkType env)) with
    | Err e => Err e
    | Ok keys =>
        match Derive.DeriveAddress (e_Mnemonic env) hdPath with
        | Err _ => Err (NewError ErrInternal "derivation failed")
        | Ok d =>
            match Local.ImportKey keys (Derive.d_Bech32 d) (Derive.d_PrivateKey d) with
            | (Some e, _) => Err e
            | (None, keys) => Ok (d, keys)
            end
        end
    end.

(** [run]: the request as the JSON decoder delivers it, [None] when it does
    not decode; [Ok] is the response written.  The unknown operation is quoted
    without the escapes of [%q]. *)
Definition run (env : environ) (req : option Request) : result error Response :=
  match backend env with
  | Err e => Err e
  | Ok (d, keys) =>
      match req with
      | None => Err (NewError ErrInternal "undecodable request JSON")
      | Some req =>
          let keyRef := if GoStrings.empty (rq_KeyRef req) || bool_decide (rq_KeyRef req = "default")
                        then Derive.d_Bech32 d else rq_KeyRef req in
          if bool_decide (rq_Op req = OpGetPublicKey) then
            match Local.GetPublicKey keys Background keyRef with
            | Err e => Err e
            | Ok resp => Ok (MkResponse (rq_KeyRef req) (pk_Algorithm resp)
                               (Base64.EncodeToString (pk_PublicKeyCompressed resp)) "")
            end
          else if bool_decide (rq_Op req = OpSign) then
            match Base64.DecodeString (rq_SignDocBytesB64 req) with
            | None => Err (NewError ErrInternal "sign_doc_bytes_b64 is not valid base64")
            | Some docBytes =>
                match Local.Sign keys Background (MkSigningRequest keyRef (rq_SignMode req) docBytes
                        (ToSigningSummary (rq_Summary req))) with
                | Err e => Err e
                | Ok resp => Ok (MkResponse (rq_KeyRef req) ""
                                   (Base64.EncodeToString (sp_PubKeyCompressed resp))
                                   (Base64.EncodeToString (sp_Signature resp)))
                end
            end
          else Err (NewError ErrInternal ("unknown op " ++ rq_Op req))
      end
  end.

(** [writeError] *)
Definition writeError (e : error) : ErrorResponse :=
  MkErrorResponse (CodeOf (Some e)) (match As e with Some se => Detail se | None => error_text e end).

(** [main] as a subprocess that was started and was not killed.  A response
    read as an error response has no code, an error response read as a
    response has empty fields. *)
Definition main (env : environ) (req : option Request) : outcome :=
  let nothing := MkOutput None None in
  match run env req with
  | Ok resp => MkOutcome false RunOk (MkOutput (Some resp) (Some (MkErrorResponse "" ""))) nothing
  | Err e => MkOutcome false (ExitError 1)
               (MkOutput (Some (MkResponse "" "" "" "")) (Some (writeError e))) nothing
  end.

(** The subprocess the exec signer runs; it is not started under an expired
    context. *)
Definition subprocess (env : environ) (ctx : context) (req : Request) : outcome :=
  match ctx with
  | Some text => MkOutcome true (NotStarted text) (MkOutput None None) (MkOutput None None)
  | None => main env (Some req)
  end.
End demo.

End Demo.
