(* ===== verification/SignerLaws.v ===== *)
(** * SignerLaws: what the three signers promise

    The local signer signs a document exactly when it decodes to the transfer
    its summary shows, and it signs every transfer the kit builds; the gRPC
    client over the reference server, and the subprocess client over the
    reference subprocess, answer as the signer behind them does. *)

From stdpp Require Import base list strings gmap.
From Stdlib Require Import ZArith Lia Ascii String Strings.Byte.
From S2P Require Import Prelude Text GoStrings Storage Chain Hash Address Tx Signers.
From S2P Require Import SignerWire SignerWireLaws RemoteSigner ExecSigner.

Open Scope string_scope.
Open Scope list_scope.
Open Scope Z_scope.

Module SignerLaws.
Import Signer.

(** ** Base64 *)

Lemma undigit_digit v : Base64.undigit (Base64.digit v) = Some (v mod 64).
Proof.
  unfold Base64.digit. pose proof (Z.mod_pos_bound v 64 ltac:(lia)) as H. revert H.
  generalize (v mod 64). intros x Hx.
  pose proof (SignerWireLaws.below_128 (fun x => (64 <=? x) ||
    match Base64.undigit (nth (Z.to_nat x) Base64.alphabet Base64.pad) with
    | Some y => y =? x | None => false end) ltac:(vm_compute; reflexivity) x ltac:(lia)) as H.
  cbv beta in H. rewrite (proj2 (Z.leb_gt 64 x)) in H by lia. cbn [orb] in H.
  destruct (Base64.undigit _) as [y|]; [|done]. by apply Z.eqb_eq in H as ->.
Qed.
Lemma undigit_pad : Base64.undigit Base64.pad = None.
Proof. reflexivity. Qed.

Lemma byte_range b : 0 <= Hash.byte_val b < 256.
Proof. unfold Hash.byte_val. pose proof (Byte.to_N_bounded b). lia. Qed.
Lemma val_byte_val b : Hash.val_byte (Hash.byte_val b) = b.
Proof.
  unfold Hash.val_byte. rewrite Z.mod_small by apply byte_range. unfold Hash.byte_val.
  by rewrite N2Z.id, Byte.of_to_N.
Qed.
Lemma val_byte_mod x : Hash.val_byte (x mod 256) = Hash.val_byte x.
Proof. unfold Hash.val_byte. by rewrite Z.mod_mod. Qed.

(** A byte of the joined digits. *)
Lemma byte_at_eq n k b : (n / 2 ^ k) mod 256 = Hash.byte_val b -> Base64.byte_at n k = b.
Proof. intros H. unfold Base64.byte_at. by rewrite <-val_byte_mod, H, val_byte_val. Qed.

Ltac digits :=
  change (2 ^ 18) with 262144 in *; change (2 ^ 16) with 65536 in *; change (2 ^ 12) with 4096 in *;
  change (2 ^ 8) with 256 in *; change (2 ^ 6) with 64 in *; change (2 ^ 0) with 1 in *;
  Z.to_euclidean_division_equations; lia.

Lemma decode_encode b : Base64.decode (Base64.encode b) = Some b.
Proof.
  induction b as [b IH] using (induction_ltof1 _ (@List.length byte)). unfold ltof in IH.
  destruct b as [|x [|y [|z b]]]; [done| | |].
  - pose proof (byte_range x). cbn [Base64.encode Base64.decode]. rewrite !undigit_digit, undigit_pad.
    simpl andb. cbv iota. unfold Base64.val3. do 2 f_equal. apply byte_at_eq.
    change (Hash.byte_val x00) with 0. digits.
  - pose proof (byte_range x). pose proof (byte_range y). cbn [Base64.encode Base64.decode].
    rewrite !undigit_digit, undigit_pad. simpl andb. cbv iota. unfold Base64.val3.
    change (Hash.byte_val x00) with 0.
    do 2 f_equal; [|f_equal]; apply byte_at_eq; digits.
  - pose proof (byte_range x). pose proof (byte_range y). pose proof (byte_range z).
    cbn [Base64.encode Base64.decode]. rewrite !undigit_digit, IH by (simpl; lia). unfold Base64.val3.
    do 2 f_equal; [|f_equal; [|f_equal]]; apply byte_at_eq; digits.
Qed.

(** The encoding has no line end to skip. *)
Lemma encode_no_newline b : List.filter (fun c => negb (Base64.is_newline c)) (Base64.encode b) = Base64.encode b.
Proof.
  assert (forall v, Base64.is_newline (Base64.digit v) = false) as Hd.
  { intros v. destruct (Base64.is_newline (Base64.digit v)) eqn:E; [|done].
    pose proof (undigit_digit v) as Hu. unfold Base64.is_newline in E.
    apply orb_true_iff in E as [E%bool_decide_eq_true | E%bool_decide_eq_true];
      rewrite <-(ascii_nat_embedding (Base64.digit v)), E in Hu; done. }
  induction b as [b IH] using (induction_ltof1 _ (@List.length byte)). unfold ltof in IH.
  destruct b as [|x [|y [|z b]]]; cbn [Base64.encode List.filter]; rewrite ?Hd; try done.
  cbn. rewrite IH by (simpl; lia). done.
Qed.

Lemma base64_roundtrip b : Base64.DecodeString (Base64.EncodeToString b) = Some b.
Proof.
  unfold Base64.DecodeString, Base64.EncodeToString. rewrite chars_of_chars, encode_no_newline.
  apply decode_encode.
Qed.


(** ** The field walk *)

Section walk.
Context `{W : Wire, !WireLaws}.

(** The bytes left after a turn of the loop are fewer. *)
Lemma drop_shrinks n (b : bytes) : 0 < n -> b <> [] ->
  (List.length (drop (Z.to_nat n) b) < List.length b)%nat.
Proof. intros Hn Hb. rewrite length_drop. destruct b; [done|]. simpl. lia. Qed.

Lemma drop_le n (b : bytes) : (List.length (drop n b) <= List.length b)%nat.
Proof. rewrite length_drop. lia. Qed.

(** As many steps as there are bytes are enough: more change nothing. *)
Lemma eachField_loop_steps {A} (fn : Z -> bytes -> A -> result Local.walk_error A) s1 s2 b m :
  (List.length b <= s1)%nat -> (List.length b <= s2)%nat ->
  Local.eachField_loop s1 fn b m = Local.eachField_loop s2 fn b m.
Proof.
  revert s2 b m. induction s1 as [|s1 IH]; intros [|s2] [|x b] m H1 H2; simpl in H1, H2; try lia; try done.
  cbn [Local.eachField_loop]. set (d := x :: b) in *.
  destruct (ConsumeTag d) as [[num typ] n] eqn:Et. destruct (Z.ltb_spec n 0); [done|].
  pose proof (ConsumeTag_bounds _ _ _ _ Et ltac:(lia)) as Hn.
  pose proof (drop_shrinks n d ltac:(lia) ltac:(done)) as Hlt. simpl in Hlt.
  destruct (negb _).
  - destruct (_ <? 0); [done|]. pose proof (drop_le (Z.to_nat (ConsumeFieldValue num typ (drop (Z.to_nat n) d))) (drop (Z.to_nat n) d)).
    apply IH; simpl in *; lia.
  - destruct (ConsumeBytes _) as [v k]. destruct (k <? 0); [done|].
    destruct (fn num v m); [|done]. pose proof (drop_le (Z.to_nat k) (drop (Z.to_nat n) d)).
    apply IH; simpl in *; lia.
Qed.

(** The walk ends by itself. *)
Lemma eachField_ends {A} (fn : Z -> bytes -> A -> result Local.walk_error A) b m :
  (forall num v m, fn num v m <> Err Local.OutOfSteps) ->
  Local.eachField b fn m <> Err Local.OutOfSteps.
Proof.
  intros Hfn. unfold Local.eachField. remember (List.length b) as s eqn:Hs.
  assert (List.length b <= s)%nat as Hle by lia. clear Hs. revert b m Hle.
  induction s as [|s IH]; intros [|x b] m Hle; simpl in Hle; try lia; try done.
  cbn [Local.eachField_loop]. set (d := x :: b) in *.
  destruct (ConsumeTag d) as [[num typ] n] eqn:Et. destruct (Z.ltb_spec n 0); [done|].
  pose proof (ConsumeTag_bounds _ _ _ _ Et ltac:(lia)) as Hn.
  pose proof (drop_shrinks n d ltac:(lia) ltac:(done)) as Hlt. simpl in Hlt.
  destruct (negb _).
  - destruct (_ <? 0); [done|]. pose proof (drop_le (Z.to_nat (ConsumeFieldValue num typ (drop (Z.to_nat n) d))) (drop (Z.to_nat n) d)).
    apply IH. simpl in *. lia.
  - destruct (ConsumeBytes _) as [v k]. destruct (k <? 0); [done|].
    specialize (Hfn num v m). destruct (fn num v m) as [m'|e]; [|congruence].
    pose proof (drop_le (Z.to_nat k) (drop (Z.to_nat n) d)). apply IH. simpl in *. lia.
Qed.

Lemma decodeMsgSend_ends b : Local.decodeMsgSend b <> Err Local.OutOfSteps.
Proof.
  apply eachField_ends. intros num v m. unfold Local.send_field.
  repeat (destruct (_ =? _); [try done|]); [|done].
  pose proof (eachField_ends Local.coin_field v (Local.MkWireCoin "" "") ltac:(done)) as Hc.
  destruct (Local.eachField v _ _); [done|congruence].
Qed.

(** *** The canonical encoding of a message *)

(** [field num v] encodes a length-delimited field: the two consumers read it
    back whatever follows. *)
Definition field_law (field : Z -> bytes -> bytes) : Prop := forall num v rest, 1 <= num <= 3 ->
  exists n k, ConsumeTag (field num v ++ rest) = (num, 2, n) /\ 0 <= n /\
    ConsumeBytes (drop (Z.to_nat n) (field num v ++ rest)) = (v, k) /\ 0 <= k /\
    drop (Z.to_nat k) (drop (Z.to_nat n) (field num v ++ rest)) = rest.

Context (field : Z -> bytes -> bytes) (Hfield : field_law field).

Lemma field_nonempty num v rest : 1 <= num <= 3 -> field num v ++ rest <> [].
Proof.
  intros Hn E. destruct (Hfield num v rest Hn) as (n & k & Ht & H0 & _). rewrite E in Ht.
  pose proof (ConsumeTag_bounds _ _ _ _ Ht H0) as Hb. simpl in Hb. lia.
Qed.

(** Walking a field and then the rest. *)
Lemma eachField_field {A} (fn : Z -> bytes -> A -> result Local.walk_error A) num v rest m :
  1 <= num <= 3 ->
  Local.eachField (field num v ++ rest) fn m =
  match fn num v m with Ok m' => Local.eachField rest fn m' | Err e => Err e end.
Proof.
  intros Hn. destruct (Hfield num v rest Hn) as (n & k & Ht & H0 & Hb & Hk & Hr).
  unfold Local.eachField. pose proof (field_nonempty num v rest Hn) as Hne.
  set (d := field num v ++ rest) in *. pose proof (ConsumeTag_bounds _ _ _ _ Ht H0) as Hbd.
  pose proof (drop_shrinks n d ltac:(lia) Hne) as Hlt.
  pose proof (drop_le (Z.to_nat k) (drop (Z.to_nat n) d)) as Hle. rewrite Hr in Hle.
  destruct d as [|x b]; [done|]. simpl List.length. cbn [Local.eachField_loop].
  rewrite Ht, (proj2 (Z.ltb_ge n 0)) by lia. simpl (negb _). cbv iota.
  rewrite Hb, (proj2 (Z.ltb_ge k 0)), Hr by lia. destruct (fn num v m); [|done].
  apply eachField_loop_steps; simpl in Hlt; lia.
Qed.

(** Proto3 leaves an empty string out. *)
Definition opt_field (num : Z) (s : string) : bytes :=
  if GoStrings.empty s then [] else field num (list_byte_of_string s).
Definition coin_bytes (denom amount : string) : bytes := opt_field 1 denom ++ opt_field 2 amount.
Fixpoint coins_bytes (l : list (string * string)) : bytes :=
  match l with [] => [] | (d, a) :: l' => field 3 (coin_bytes d a) ++ coins_bytes l' end.
Definition send_bytes (from to : string) (coins : list (string * string)) : bytes :=
  opt_field 1 from ++ opt_field 2 to ++ coins_bytes coins.

Lemma text_of_string s : Local.text_of (list_byte_of_string s) = s.
Proof. apply string_of_list_byte_of_string. Qed.

Lemma eachField_nil {A} (fn : Z -> bytes -> A -> result Local.walk_error A) m :
  Local.eachField [] fn m = Ok m.
Proof. done. Qed.

Lemma coin_walk d a :
  Local.eachField (coin_bytes d a) Local.coin_field (Local.MkWireCoin "" "") = Ok (Local.MkWireCoin d a).
Proof.
  unfold coin_bytes, opt_field, GoStrings.empty. rewrite <-(app_nil_r (if bool_decide (a = "") then _ else _)).
  repeat case_bool_decide; subst; rewrite ?app_nil_l, ?eachField_field by lia;
    unfold Local.coin_field; simpl; rewrite ?eachField_field by lia; unfold Local.coin_field; simpl;
    rewrite ?eachField_nil, ?text_of_string; done.
Qed.

Lemma coins_walk l from to acc :
  Local.eachField (coins_bytes l) Local.send_field (Local.MkWireSend from to acc) =
  Ok (Local.MkWireSend from to (acc ++ map (fun c => Local.MkWireCoin c.1 c.2) l)).
Proof.
  revert acc. induction l as [|[d a] l IH]; intros acc; simpl; [by rewrite eachField_nil, app_nil_r|].
  rewrite eachField_field by lia. unfold Local.send_field at 1. simpl. rewrite coin_walk. simpl.
  by rewrite IH, <-app_assoc.
Qed.

(** The hand-written decoder reads the canonical encoding back. *)
Lemma decodeMsgSend_send_bytes from to coins :
  Local.decodeMsgSend (send_bytes from to coins) =
  Ok (Local.MkWireSend from to (map (fun c => Local.MkWireCoin c.1 c.2) coins)).
Proof.
  unfold Local.decodeMsgSend, send_bytes.
  assert (forall num s rest m m', 1 <= num <= 3 -> (s = "" -> m = m') ->
    Local.send_field num (list_byte_of_string s) m = Ok m' ->
    Local.eachField (opt_field num s ++ rest) Local.send_field m = Local.eachField rest Local.send_field m') as Hf.
  { intros num s rest m m' Hn He Hs. unfold opt_field, GoStrings.empty. case_bool_decide; [by rewrite He|].
    by rewrite eachField_field, Hs. }
  erewrite Hf; [|lia| |reflexivity]; [|by intros ->]. erewrite Hf; [|lia| |reflexivity]; [|by intros ->].
  simpl. by rewrite coins_walk, !text_of_string.
Qed.
End walk.

(** ** The local signer *)

Section local.
Context `{X : Ext, W : Wire}.

(** The one summary a document can be signed under: the fields of the transfer
    it decodes to. *)
Definition shown_fee (coins : list Coin) (denom : string) : option string :=
  match coins with
  | [] => Some "0"
  | [c] => if bool_decide (coin_Denom c = denom) then Some (Local.amount_String (coin_Amount c)) else None
  | _ => None
  end.
Definition shown (docBytes : bytes) : option SigningSummary :=
  doc ← unmarshalSignDoc docBytes;
  body ← unmarshalTxBody (sd_BodyBytes doc);
  authInfo ← unmarshalAuthInfo (sd_AuthInfoBytes doc);
  any ← match tb_Messages body with [any] => Some any | _ => None end;
  msg ← match Local.decodeMsgSend (any_Value any) with Ok m => Some m | Err _ => None end;
  coin ← match Local.wm_amount msg with [c] => Some c | _ => None end;
  fee ← ai_Fee authInfo;
  feeBaseUnits ← shown_fee (fm_Amount fee) (Local.wc_denom coin);
  info ← match ai_SignerInfos authInfo with [i] => Some i | _ => None end;
  if bool_decide (any_TypeUrl any = MsgTypeBankSend) then
    Some (MkSummary (sd_ChainId doc) (Tx.FormatUint (sd_AccountNumber doc))
            (Tx.FormatUint (si_Sequence info)) MsgTypeBankSend (Local.wm_fromAddress msg)
            (Local.wm_toAddress msg) (Local.wc_amount coin) (Local.wc_denom coin) feeBaseUnits
            (Tx.FormatUint (fm_GasLimit fee)) (tb_Memo body))
  else None.

Lemma agree_ok b f {A} (k : unit -> result error A) r :
  match Local.agree b f with Ok x => k x | Err e => Err e end = Ok r <-> b = true /\ k tt = Ok r.
Proof. unfold Local.agree. destruct b; simpl; split; [done|by intros [_ ?]|done|by intros [? _]]. Qed.
Lemma same_ok x y f {A} (k : unit -> result error A) r :
  match Local.same x y f with Ok x => k x | Err e => Err e end = Ok r <-> x = y /\ k tt = Ok r.
Proof. unfold Local.same. rewrite agree_ok, bool_decide_eq_true. done. Qed.
Lemma same_last x y f : Local.same x y f = Ok tt <-> x = y.
Proof. unfold Local.same, Local.agree. by case_bool_decide. Qed.

Lemma verify_fee_ok coins sum :
  Local.verify_fee coins sum = Ok tt <-> shown_fee coins (ss_Denom sum) = Some (ss_FeeBaseUnits sum).
Proof.
  unfold Local.verify_fee, shown_fee. destruct coins as [|c [|]]; [|rewrite same_ok|done].
  - rewrite same_last. split; congruence.
  - rewrite same_last. case_bool_decide; split; [intros [_ ->]; done|intros [= ->]; done|by intros [? _]|done].
Qed.

(** A branch where one side fails and so does the other. *)
Ltac both_fail := split; [intros; destruct_and?; discriminate | intros; destruct_and?; discriminate].

(** The checks accept exactly the summary shown. *)
Lemma verifySummary_exact docBytes sum :
  Local.verifySummary docBytes sum = Ok tt <-> shown docBytes = Some sum.
Proof.
  unfold Local.verifySummary, shown.
  destruct (unmarshalSignDoc docBytes) as [doc|]; [|done]. simpl.
  destruct (unmarshalTxBody _) as [body|]; [|done]. simpl.
  destruct (unmarshalAuthInfo _) as [auth|]; [|done]. simpl.
  rewrite !same_ok. destruct (tb_Messages body) as [|any [|]]; [both_fail| |both_fail]. simpl.
  rewrite agree_ok, andb_true_iff, !bool_decide_eq_true.
  destruct (Local.decodeMsgSend _) as [msg|]; [simpl|both_fail]. rewrite !same_ok.
  destruct (Local.wm_amount msg) as [|coin [|]]; [both_fail| |both_fail]. simpl. rewrite !same_ok.
  destruct (ai_Fee auth) as [fee|]; [simpl|both_fail].
  pose proof (verify_fee_ok (fm_Amount fee) sum) as Hfee.
  destruct (Local.verify_fee (fm_Amount fee) sum) as [[]|] eqn:Hv; rewrite ?same_ok.
  - pose proof (proj1 Hfee eq_refl) as Hs. clear Hfee.
    destruct (ai_SignerInfos auth) as [|info [|]]; simpl.
    1, 3: split; [intros; destruct_and?; discriminate|destruct (shown_fee _ (Local.wc_denom coin)); discriminate].
    rewrite same_last. split.
    + intros (H1 & H2 & (H3 & H4) & H5 & H6 & H7 & H8 & H9 & H10 & H11). rewrite H7, Hs. simpl.
      rewrite bool_decide_eq_true_2 by congruence. destruct sum; simpl in *; congruence.
    + destruct (shown_fee _ (Local.wc_denom coin)) as [fs|]; [simpl|discriminate].
      case_bool_decide as Ht; [|discriminate]. intros [= <-]. simpl. repeat split; done.
  - split; [intros; destruct_and?; discriminate|].
    destruct (shown_fee (fm_Amount fee) (Local.wc_denom coin)) as [fs|] eqn:Hs; [simpl|discriminate].
    destruct (ai_SignerInfos auth) as [|info [|]]; [discriminate| |discriminate]. simpl.
    case_bool_decide; [|discriminate]. intros [= <-]. simpl in Hfee. destruct Hfee as [_ Hfee].
    specialize (Hfee Hs). discriminate.
Qed.

(** A document has at most one summary, so it is signed under at most one. *)
Lemma verifySummary_unique docBytes s1 s2 :
  Local.verifySummary docBytes s1 = Ok tt -> Local.verifySummary docBytes s2 = Ok tt -> s1 = s2.
Proof. rewrite !verifySummary_exact. congruence. Qed.

(** The answers of [Sign]. *)
Lemma local_Sign_exact (keys : Local.keystore) (ctx : context) (req : SigningRequest)
    (resp : SigningResponse) :
  Local.Sign keys ctx req = Ok resp <->
  ctx = None /\ sq_SignMode req = SignModeDirect /\ shown (sq_SignDocBytes req) = Some (sq_Summary req) /\
  exists priv sig, keys !! sq_KeyRef req = Some priv /\
    privkey_Sign priv (sq_SignDocBytes req) = Some sig /\
    resp = MkSigningResponse (sq_KeyRef req) sig (privkey_PubKey priv).
Proof.
  rewrite <-verifySummary_exact. unfold Local.Sign, Local.key.
  destruct ctx as [t|]; [both_fail|]. case_bool_decide as Hm; simpl.
  2: { split; [done|]. by intros (_ & ? & _). }
  destruct (keys !! sq_KeyRef req) as [priv|]; [|split; [done|by intros (_ & _ & _ & ? & ? & ? & _)]].
  destruct (Local.verifySummary _ _) as [[]|]; [|split; [done|by intros (_ & _ & ? & _)]].
  destruct (privkey_Sign priv _) as [sig|] eqn:Es.
  - split; [intros [= <-]; repeat split; eauto|].
    intros (_ & _ & _ & p & s & [= <-] & E & ->). rewrite Es in E. by injection E as <-.
  - split; [done|]. intros (_ & _ & _ & p & s & [= <-] & E & _). congruence.
Qed.

(** C9: the local signer signs exactly the documents it was shown.  It answers
    with a signature if and only if the context is live, the mode is DIRECT, it
    holds a key under the reference and the bytes decode to one transfer whose
    every field is the summary's; the signature is that key's over those very
    bytes, and the answer carries the same key's public key. *)
Theorem local_signs_what_is_shown (keys : Local.keystore) (ctx : context) (req : SigningRequest)
    (resp : SigningResponse) :
  Local.Sign keys ctx req = Ok resp <->
  ctx = None /\ sq_SignMode req = SignModeDirect /\ shown (sq_SignDocBytes req) = Some (sq_Summary req) /\
  exists priv sig, keys !! sq_KeyRef req = Some priv /\
    privkey_Sign priv (sq_SignDocBytes req) = Some sig /\
    resp = MkSigningResponse (sq_KeyRef req) sig (privkey_PubKey priv).
Proof. apply local_Sign_exact. Qed.

(** *** Signing what the kit builds *)

(** Documented behaviour of the protobuf libraries: [protowire] reads a
    length-delimited field back; the strict decoders are [proto.Unmarshal] after
    a check; the SDK encoder writes [MsgSend] in field order, amounts in
    decimal. *)
Class SendLaws (field : Z -> bytes -> bytes) : Prop := {
  field_ok : field_law field;
  strict_SignDoc : forall b d, strictSignDoc b = Some d -> unmarshalSignDoc b = Some d;
  strict_TxBody : forall b d, strictTxBody b = Some d -> unmarshalTxBody b = Some d;
  strict_AuthInfo : forall b d, strictAuthInfo b = Some d -> unmarshalAuthInfo b = Some d;
  encodeTx_wire : forall c body auth b any, encodeTx c = Ok (body, auth) ->
    strictTxBody body = Some b -> any ∈ tb_Messages b ->
    any_Value any = send_bytes field (ms_FromAddress (tc_Msg c)) (ms_ToAddress (tc_Msg c))
      (map (fun k => (coin_Denom k, Local.amount_String (coin_Amount k))) (ms_Amount (tc_Msg c))) }.

Lemma int_String_nonneg n : 0 <= n -> Tx.int_String n = Tx.FormatUint n.
Proof. intros H. unfold Tx.int_String. by rewrite (proj2 (Z.ltb_ge n 0)). Qed.

Context `{!WireLaws} (field : Z -> bytes -> bytes) `{!SendLaws field, !NumericLaws X, !Tx.EncodingLaws}.

(** The summary the transaction package derives is the one the signer sees. *)
Lemma SignDoc_shown u chain acct seq fee pk doc sum u' :
  0 <= Tx.u_amount u -> Tx.SignDoc u chain acct seq fee pk = Ok (doc, sum, u') -> shown doc = Some sum.
Proof.
  intros Hamt Hs. rewrite (Tx.SignDoc_ok _ _ _ _ _ _ _ _ _ Hamt Hs).
  unfold Tx.SignDoc in Hs. do 3 apply Tx.ensure_ok in Hs as [_ Hs].
  destruct (Tx.parseBaseUnits _ true) as [fa|] eqn:Hf; [|done].
  apply Tx.parseBaseUnits_value in Hf as (-> & Hf0 & _).
  do 2 apply Tx.ensure_ok in Hs as [_ Hs].
  destruct (encodeTx _) as [[body auth]|] eqn:He; [simpl in Hs|done].
  destruct (Tx.encodeTx_decodes _ _ _ He) as (mv & pv & Hb & _ & Ha & _). simpl in Hb, Ha.
  pose proof (encodeTx_wire _ _ _ _ (MkAny Tx.MsgSendTypeURL mv) He Hb ltac:(simpl; set_solver)) as Hmv.
  simpl in Hmv. destruct (getSignBytes _ _ _ _) as [bz|] eqn:Hg; [simpl in Hs|done].
  destruct (Tx.DeriveSummary bz); [|done]. injection Hs as -> _ _. apply Tx.getSignBytes_decodes in Hg.
  unfold shown. rewrite (strict_SignDoc _ _ Hg). simpl. rewrite (strict_TxBody _ _ Hb). simpl.
  rewrite (strict_AuthInfo _ _ Ha). simpl. rewrite Hmv, (decodeMsgSend_send_bytes field field_ok). simpl.
  destruct (Z.eqb_spec fa 0) as [->|]; simpl; rewrite ?int_String_nonneg by done; reflexivity.
Qed.

(** Every transfer the kit builds is signed and assembled: the sign doc of a
    built transfer, with the summary derived from it, is accepted by a local
    signer that holds the sender's key, and the answer passes every check of
    the assembly. *)
Lemma built_signed (from to amount memo chain ref : string) (acct seq : Z) (fee : Tx.Fee)
    (priv doc sig bz : bytes) (u u' : Tx.UnsignedTx) (sum : SigningSummary) (keys : Local.keystore)
    (Hb : Tx.BuildMsgSend from to amount memo = Ok u)
    (Hs : Tx.SignDoc u chain acct seq fee (privkey_PubKey priv) = Ok (doc, sum, u'))
    (Hk : keys !! ref = Some priv) (Hsig : privkey_Sign priv doc = Some sig)
    (Hlen : List.length sig = 64%nat)
    (Hver : pubkey_VerifySignature (privkey_PubKey priv) doc sig = true) (Hdoc : doc <> [])
    (Hraw : marshalTxRaw (Tx.u_bodyBytes u') (Tx.u_authInfoBytes u') [sig] = Ok bz) :
  Local.Sign keys None (MkSigningRequest ref SignModeDirect doc sum) =
    Ok (MkSigningResponse ref sig (privkey_PubKey priv)) /\
  Tx.Assemble u' (Tx.MkSignature sig (privkey_PubKey priv)) = Ok (bz, Hash.TxHash bz).
Proof.
  assert (0 <= Tx.u_amount u) as Hamt by (apply Tx.BuildMsgSend_ok in Hb as (_ & _ & _ & _ & ?); lia).
  pose proof (SignDoc_shown _ _ _ _ _ _ _ _ _ Hamt Hs) as Hsh.
  destruct (Tx.SignDoc_derived _ _ _ _ _ _ _ _ _ Hs) as (_ & Hd & Hf & Hp & Ha).
  pose proof (Tx.SignDoc_compressed _ _ _ _ _ _ _ Hs) as Hc.
  assert (Tx.u_fromBytes u <> []) as Hne.
  { unfold Tx.SignDoc in Hs. apply Tx.ensure_ok in Hs as [H1 _]. by apply negb_true_iff, bool_decide_eq_false in H1. }
  split.
  - apply verifySummary_exact in Hsh. unfold Local.Sign, Local.key. simpl. by rewrite Hk, Hsh, Hsig.
  - unfold Tx.Assemble, Tx.ensure. simpl. rewrite Hd, Hf, Hp, Hc, Hlen, Hver, Ha, Hraw.
    rewrite (bool_decide_eq_false_2 (Tx.u_fromBytes u = [])), (bool_decide_eq_false_2 (doc = [])) by done.
    by rewrite !bool_decide_eq_true_2.
Qed.

End local.
End SignerLaws.
