(* ===== verification/RemoteLaws.v ===== *)
(** * RemoteLaws: a signer reached over a transport is the signer behind it

    The gRPC client over the reference server, and the subprocess client over
    the reference subprocess: the request arrives unchanged, the answer comes
    back unchanged, and a typed error keeps its code and its detail.  A
    transport that fails is a signer that is unavailable, which the withdrawal
    workflow waits out. *)

From stdpp Require Import base list strings gmap.
From Stdlib Require Import ZArith Lia Ascii String Strings.Byte.
From S2P Require Import Prelude Text GoStrings Storage Chain Hash Address Tx Signers SignerLaws.
From S2P Require Import SignerWire SignerWireLaws RemoteSigner ExecSigner.

Open Scope string_scope.
Open Scope list_scope.
Open Scope Z_scope.

Module RemoteLaws.
Import Signer RemoteSigner.

(** ** Errors *)

Definition codes : list string :=
  [CodeKeyNotFound; CodeSummaryMismatch; CodePolicyRejected; CodeSignerUnavailable; CodeInternal].
Definition known (code : string) : bool := existsb (fun c => bool_decide (c = code)) codes.

(** What is left of an error on the other side: its typed part, under
    [INTERNAL] when it has none or its code is not one of the five. *)
Definition carried (e : error) : error :=
  match As e with
  | Some se => Typed (MkError (if known (Code se) then Code se else CodeInternal) (Detail se))
  | None => Typed (MkError CodeInternal "")
  end.
Definition carried_detail (e : error) : string :=
  match As e with Some se => Detail se | None => "" end.

Definition wire_detail (code : Z) (e : error) : SignerWire.SignerErrorDetail :=
  SignerWire.MkErrorDetail code (carried_detail e).
(** The detail is a text that fits in memory. *)
Definition error_fits (e : error) : Prop :=
  SignerWireLaws.fits SignerWire.SignerErrorDetail_Size (wire_detail 5 e).

Lemma CodeOf_carried e : CodeOf (Some (carried e)) = if known (CodeOf (Some e)) then CodeOf (Some e) else CodeInternal.
Proof. unfold carried. simpl. destruct (As e); [done|]. reflexivity. Qed.

Lemma fits_small code e : 1 <= code <= 5 -> error_fits e ->
  SignerWireLaws.fits SignerWire.SignerErrorDetail_Size (wire_detail code e).
Proof.
  intros Hc. unfold error_fits, SignerWireLaws.fits, SignerWire.SignerErrorDetail_Size. simpl.
  rewrite (proj2 (Z.eqb_neq code 0)) by lia. rewrite SignerWireLaws.w64_id, SignerWireLaws.sov_small by lia.
  rewrite SignerWireLaws.w64_id, SignerWireLaws.sov_small by lia. done.
Qed.

(** A status with a known detail is read back. *)
Lemma detail_read grpc msg code text e :
  1 <= code <= 5 -> error_fits e -> map_get detailToCode code = Some text ->
  statusToSignerError
    match SignerWire.SignerErrorDetail_Marshal (wire_detail code e) with
    | None => MkStatus grpc msg [] | Some raw => MkStatus grpc msg [MkAny detailTypeURL raw] end =
  Typed (MkError text (carried_detail e)).
Proof.
  intros Hc Hf Hm. destruct (SignerWireLaws.SignerErrorDetail_roundtrip (wire_detail code e)) as (b & -> & Hb).
  - by apply fits_small.
  - simpl. lia.
  - unfold statusToSignerError. cbn [st_Details first_detail]. unfold detail_error. cbn [any_TypeUrl any_Value].
    assert (GoStrings.HasSuffix detailTypeURL "sovren.signer.v1.SignerErrorDetail" = true) as ->
      by (vm_compute; reflexivity).
    simpl negb. cbv iota. rewrite Hb. simpl. by rewrite Hm.
Qed.

(** The error that arrives is the error that was raised. *)
Lemma error_carried e : error_fits e -> statusToSignerError (signerErrorToStatus e) = carried e.
Proof.
  intros Hf. unfold signerErrorToStatus, carried. fold (carried_detail e).
  assert (forall code dc grpc, map_get codeToGRPC code = Some grpc -> map_get codeToDetail code = Some dc ->
    1 <= dc <= 5 /\ map_get detailToCode dc = Some code /\ known code = true) as Hmaps.
  { intros code dc grpc. unfold map_get, codeToGRPC, codeToDetail, known, codes. simpl.
    repeat (case_bool_decide; [subst; intros [= <-] [= <-]; split; [vm_compute; split; discriminate|split; reflexivity]|]). done. }
  assert (forall code, map_get codeToGRPC code = None -> known code = false) as Hnone.
  { intros code. unfold map_get, codeToGRPC, known, codes. simpl. repeat (case_bool_decide; [done|]). done. }
  assert (forall code grpc, map_get codeToGRPC code = Some grpc -> exists dc, map_get codeToDetail code = Some dc) as Hsome.
  { intros code grpc. unfold map_get, codeToGRPC, codeToDetail. simpl.
    repeat (case_bool_decide; [by eexists|]). done. }
  destruct (map_get codeToGRPC (CodeOf (Some e))) as [grpc|] eqn:Eg.
  - destruct (Hsome _ _ Eg) as [dc Ed]. destruct (Hmaps _ _ _ Eg Ed) as (Hr & Hm & Hk). rewrite Ed.
    fold (wire_detail dc e). rewrite (detail_read _ _ dc _ e Hr Hf Hm).
    unfold CodeOf, carried_detail in *. by destruct (As e) as [se|]; [rewrite Hk|].
  - replace (map_get codeToDetail CodeInternal) with (Some 5) by (symmetry; vm_compute; reflexivity).
    fold (wire_detail 5 e). rewrite (detail_read _ _ 5 CodeInternal e) by (done || reflexivity).
    apply Hnone in Eg. unfold CodeOf, carried_detail in *. by destruct (As e) as [se|]; [rewrite Eg|].
Qed.

(** ** The gRPC signer *)

Definition wire_request (req : SigningRequest) : SignerWire.SignRequest :=
  SignerWire.MkSignRequest (sq_KeyRef req) (sq_SignMode req) (sq_SignDocBytes req)
    (Some (summaryToProto (sq_Summary req))).
Definition wire_response (r : SigningResponse) : SignerWire.SignResponse :=
  SignerWire.MkSignResponse (sp_KeyRef r) (sp_Signature r) (sp_PubKeyCompressed r).
Definition wire_key (r : PublicKeyResponse) : SignerWire.GetPublicKeyResponse :=
  SignerWire.MkKeyResponse (pk_KeyRef r) (pk_Algorithm r) (pk_PublicKeyCompressed r).

(** What a transport lets through of a signer's answer: a response is checked
    for its lengths and algorithm, an error keeps its typed part. *)
Definition through {A} (ok : A -> bool) (refusal : A -> string) (r : result error A) : result error A :=
  match r with
  | Ok a => if ok a then Ok a else Err (NewError ErrInternal (refusal a))
  | Err e => Err (carried e)
  end.

Definition signature_sized (r : SigningResponse) : bool := (List.length (sp_Signature r) =? 64)%nat.

(** The messages of the exchange fit in memory. *)
Definition answer_fits {A B} (Size : B -> Z) (wire : A -> B) (r : result error A) : Prop :=
  match r with Ok a => SignerWireLaws.fits Size (wire a) | Err e => error_fits e end.

Lemma summary_carried s : summaryFromProto (Some (summaryToProto s)) = s.
Proof. by destruct s. Qed.

(** One exchange over the reference server. *)
Lemma unary_handle {A B} (MA : A -> option bytes) (UA : bytes -> result SignerWire.uerror A)
    (MB : B -> option bytes) (UB : bytes -> result SignerWire.uerror B) (Invoke : channel) f ctx method a :
  (forall raw, Invoke ctx method raw = handle UA MB f ctx raw) ->
  (exists raw, MA a = Some raw /\ UA raw = Ok a) ->
  (forall b, f ctx a = Ok b -> exists raw, MB b = Some raw /\ UB raw = Ok b) ->
  unary MA UB Invoke ctx method a = f ctx a.
Proof.
  intros HI (raw & Hm & Hu) Hb. unfold unary. rewrite Hm, HI. unfold handle. rewrite Hu.
  destruct (f ctx a) as [b|st]; [|done]. destruct (Hb b eq_refl) as (raw' & -> & E). by rewrite E.
Qed.

(** Signing over the reference server. *)
Lemma remote_Sign_eq (backend : TransactionSigner) (ctx : context) (req : SigningRequest)
    (Hq : SignerWireLaws.fits SignerWire.SignRequest_Size (wire_request req))
    (Hr : answer_fits SignerWire.SignResponse_Size wire_response (Signer.Sign backend ctx req)) :
  RemoteSigner.Sign (serve backend) ctx req =
  through signature_sized
    (fun r => "remote signer returned " ++ count (sp_Signature r) ++ "-byte signature")%string
    (Signer.Sign backend ctx req).
Proof.
  unfold RemoteSigner.Sign, svc_Sign. fold (wire_request req).
  assert (Server_Sign backend ctx (wire_request req) =
    match Signer.Sign backend ctx req with
    | Err e => Err (signerErrorToStatus e) | Ok resp => Ok (wire_response resp) end) as Hs.
  { unfold Server_Sign. cbn [wire_request SignerWire.sr_KeyRef SignerWire.sr_SignMode
      SignerWire.sr_SignDocBytes SignerWire.sr_Summary]. rewrite summary_carried. by destruct req. }
  rewrite (unary_handle _ SignerWire.SignRequest_Unmarshal SignerWire.SignResponse_Marshal _ _
             (Server_Sign backend)).
  - rewrite Hs. unfold answer_fits, through in *. destruct (Signer.Sign backend ctx req) as [r|e].
    + unfold signature_sized. simpl. by destruct (_ =? _)%nat; [destruct r|].
    + by rewrite error_carried.
  - intros raw. unfold serve. by rewrite bool_decide_eq_false_2, bool_decide_eq_true_2.
  - by apply SignerWireLaws.SignRequest_roundtrip.
  - rewrite Hs. unfold answer_fits in Hr. destruct (Signer.Sign backend ctx req) as [r|e]; [|done].
    intros b [= <-]. by apply SignerWireLaws.SignResponse_roundtrip.
Qed.

(** C11: the remote signer is the signer behind it.  Over a connection that
    delivers its messages, signing through the gRPC client and the reference
    server, through the marshalled bytes and back, is signing with the backend:
    the same response when the signature has 64 bytes, the same typed error
    otherwise (an untyped one as INTERNAL). *)
Theorem remote_signer_is_its_backend (backend : TransactionSigner) (ctx : context) (req : SigningRequest)
    (Hq : SignerWireLaws.fits SignerWire.SignRequest_Size (wire_request req))
    (Hr : answer_fits SignerWire.SignResponse_Size wire_response (Signer.Sign backend ctx req)) :
  RemoteSigner.Sign (serve backend) ctx req =
  through signature_sized
    (fun r => "remote signer returned " ++ count (sp_Signature r) ++ "-byte signature")%string
    (Signer.Sign backend ctx req).
Proof. by apply remote_Sign_eq. Qed.

Definition key_usable (r : PublicKeyResponse) : bool :=
  bool_decide (pk_Algorithm r = AlgorithmSecp256k1) && (List.length (pk_PublicKeyCompressed r) =? 33)%nat.
Definition key_refusal (r : PublicKeyResponse) : string :=
  if bool_decide (pk_Algorithm r = AlgorithmSecp256k1)
  then "remote signer returned " ++ count (pk_PublicKeyCompressed r) ++ "-byte public key"
  else "remote signer returned unsupported algorithm " ++ pk_Algorithm r.

(** The public key likewise. *)
Lemma remote_key_is_the_backends (backend : TransactionSigner) ctx ref :
  SignerWireLaws.fits SignerWire.GetPublicKeyRequest_Size (SignerWire.MkKeyRequest ref) ->
  answer_fits SignerWire.GetPublicKeyResponse_Size wire_key (Signer.GetPublicKey backend ctx ref) ->
  RemoteSigner.GetPublicKey (serve backend) ctx ref =
  through key_usable key_refusal (Signer.GetPublicKey backend ctx ref).
Proof.
  intros Hq Hr. unfold RemoteSigner.GetPublicKey, svc_GetPublicKey.
  rewrite (unary_handle _ SignerWire.GetPublicKeyRequest_Unmarshal SignerWire.GetPublicKeyResponse_Marshal _ _
             (Server_GetPublicKey backend)).
  - unfold Server_GetPublicKey, answer_fits, through in *. simpl.
    destruct (Signer.GetPublicKey backend ctx ref) as [r|e]; [|by rewrite error_carried].
    unfold key_usable, key_refusal. simpl. destruct (bool_decide (pk_Algorithm r = _)); [|done].
    simpl. by destruct (_ =? _)%nat; [destruct r|].
  - intros raw. unfold serve. by rewrite bool_decide_eq_true_2.
  - by apply SignerWireLaws.GetPublicKeyRequest_roundtrip.
  - unfold Server_GetPublicKey, answer_fits in *. simpl.
    destruct (Signer.GetPublicKey backend ctx ref) as [r|e]; [|done].
    intros b [= <-]. by apply SignerWireLaws.GetPublicKeyResponse_roundtrip.
Qed.

(** *** A peer that cannot be reached *)

(** The transport's own failures carry no detail. *)
Definition unreachable (st : Status) : Prop :=
  st_Details st = [] /\ (st_Code st = Unavailable \/ st_Code st = DeadlineExceeded \/ st_Code st = Canceled).

Lemma unreachable_unavailable st :
  unreachable st -> seen (statusToSignerError st) = ErrSignerDown.
Proof.
  intros [Hd Hc]. unfold statusToSignerError. rewrite Hd. simpl. by destruct Hc as [-> | [-> | ->]].
Qed.

(** *** Construction *)

(** What is dialled: plaintext only on the explicit development switch and with
    no TLS configured; with TLS, a client certificate and a pinned CA unless the
    development switch for server-only TLS is on. *)
Lemma New_authenticated h cfg c :
  RemoteSigner.New h cfg = Ok c ->
  c_target c = Target cfg /\ 0 < c_timeout c /\
  match c_creds c with
  | Insecure => TLS cfg = None /\ AllowInsecureDev cfg = true
  | WithTLS tc => exists t, TLS cfg = Some t /\
      (AllowServerOnly t = true \/
       tc_Certificate tc = Some (CertFile t, KeyFile t) /\ exists pem, tc_RootCAs tc = Some pem /\
         ReadFile h (CAFile t) = Some pem /\ AppendCertsFromPEM h pem = true)
  end.
Proof.
  unfold RemoteSigner.New. destruct (GoStrings.empty (Target cfg)); [done|]. simpl.
  assert (0 < (if CallTimeout cfg <=? 0 then default_timeout else CallTimeout cfg)) as Ht.
  { destruct (Z.leb_spec (CallTimeout cfg) 0); [done|lia]. }
  destruct (TLS cfg) as [t|] eqn:Et.
  - destruct (build h t) as [tc|] eqn:Eb; [|done]. destruct (NewClient h (Target cfg)); [|done].
    intros [= <-]. simpl. split; [done|]. split; [done|]. exists t. split; [done|].
    unfold build in Eb. destruct (AllowServerOnly t); [by left|right].
    destruct (GoStrings.empty (CAFile t)); [done|]. destruct (GoStrings.empty (CertFile t)); [done|].
    destruct (GoStrings.empty (KeyFile t)); [done|]. simpl in Eb.
    destruct (ReadFile h (CAFile t)) as [pem|]; [|done].
    destruct (AppendCertsFromPEM h pem) eqn:Ea; [|done].
    destruct (LoadX509KeyPair h _ _); [|done]. injection Eb as <-. simpl. split; [done|]. eauto.
  - destruct (AllowInsecureDev cfg); [|done]. destruct (NewClient h (Target cfg)); [|done].
    intros [= <-]. done.
Qed.

(** ** The subprocess signer *)

Section exec.
Context `{X : Ext, W : Wire, D : HD}.

(** A typed error with one of the five codes. *)
Definition proper (e : error) : Prop := exists te, e = Typed te /\ known (Code te) = true.

Lemma proper_new sentinel text : known (Code sentinel) = true -> proper (NewError sentinel text).
Proof. intros H. by eexists. Qed.
Lemma proper_carried e : proper e -> carried e = e.
Proof. intros (te & -> & Hk). unfold carried. simpl. rewrite Hk. by destruct te. Qed.

(** A computation whose errors are all proper. *)
Definition typed {A} (r : result error A) : Prop := forall e, r = Err e -> proper e.

Lemma typed_ok {A} (a : A) : typed (Ok a).
Proof. done. Qed.
Lemma typed_new {A} sentinel text : known (Code sentinel) = true -> typed (Err (A := A) (NewError sentinel text)).
Proof. intros H e [= <-]. by apply proper_new. Qed.
Lemma typed_bind {A B} (r : result error A) (k : A -> result error B) :
  typed r -> (forall a, typed (k a)) -> typed (match r with Ok a => k a | Err e => Err e end).
Proof. intros Hr Hk. destruct r as [a|e']; [apply Hk|]. intros e [= <-]. by apply Hr. Qed.
Lemma typed_decoded {A} (o : option A) f : typed (Local.decoded o f).
Proof. destruct o; [done|]. by apply typed_new. Qed.
Lemma typed_sole {A} (l : list A) f : typed (Local.sole l f).
Proof. destruct l as [|x [|]]; [by apply typed_new|done|by apply typed_new]. Qed.
Lemma typed_agree b f : typed (Local.agree b f).
Proof. destruct b; [done|]. by apply typed_new. Qed.
Lemma typed_same x y f : typed (Local.same x y f).
Proof. apply typed_agree. Qed.
Lemma typed_key keys ref : typed (Local.key keys ref).
Proof. unfold Local.key. destruct (keys !! ref); [done|]. by apply typed_new. Qed.
Lemma typed_decode (r : result Local.walk_error Local.msgSend) f :
  typed (match r with Ok m => Ok m | Err _ => Err (Local.mismatch f) end).
Proof. destruct r; [done|]. by apply typed_new. Qed.

Local Hint Resolve typed_ok typed_decoded typed_sole typed_agree typed_same typed_key typed_decode : typed.
Local Hint Extern 5 (typed (match _ with Ok _ => _ | Err _ => Err _ end)) => apply typed_bind : typed.
Local Hint Extern 6 (typed (Err (NewError _ _))) => (apply typed_new; reflexivity) : typed.
Local Hint Extern 6 (typed (Err (Local.mismatch _))) => (apply typed_new; reflexivity) : typed.

Lemma typed_verify_fee coins sum : typed (Local.verify_fee coins sum).
Proof. unfold Local.verify_fee. destruct coins as [|c [|]]; auto with typed. Qed.
Local Hint Resolve typed_verify_fee : typed.

Lemma typed_verifySummary doc sum : typed (Local.verifySummary doc sum).
Proof. unfold Local.verifySummary. auto 60 with typed. Qed.
Local Hint Resolve typed_verifySummary : typed.

(** Every error of the local signer is typed. *)
Lemma local_Sign_typed keys ctx req : typed (Local.Sign keys ctx req).
Proof.
  unfold Local.Sign. destruct ctx; [auto with typed|]. destruct (negb _); [auto with typed|].
  apply typed_bind; [auto with typed|]. intros priv. apply typed_bind; [auto with typed|]. intros _.
  destruct (privkey_Sign _ _); auto with typed.
Qed.

(** An error document is read back as the error. *)
Lemma exit_carried e out code :
  proper e ->
  ExecSigner.mapExitError (ExecSigner.MkOutput out (Some (Demo.writeError e))) (ExecSigner.MkOutput None None) code = e.
Proof.
  intros ([c t] & -> & Hk). unfold ExecSigner.mapExitError, Demo.writeError. simpl in *.
  unfold known, codes in Hk. simpl in Hk.
  repeat (case_bool_decide; [subst; reflexivity|]). done.
Qed.

(** The keys of the subprocess: the one derived from its mnemonic. *)
Lemma backend_keys env d keys :
  Demo.backend env = Ok (d, keys) ->
  keys = {[Derive.d_Bech32 d := Derive.d_PrivateKey d]} /\
  GoStrings.EqualFold (Demo.e_NetworkType env) "mainnet" = false.
Proof.
  unfold Demo.backend, Local.New. destruct (negb _); [done|]. destruct (GoStrings.empty _); [done|].
  simpl. destruct (GoStrings.EqualFold _ _) eqn:En; [done|]. simpl.
  destruct (Derive.DeriveAddress _ _) as [d'|]; [|done]. unfold Local.ImportKey.
  destruct (negb _); [done|]. intros [= <- <-]. split; [|done]. reflexivity.
Qed.

Definition response_sized (r : SigningResponse) : bool :=
  signature_sized r && (List.length (sp_PubKeyCompressed r) =? 33)%nat.
Definition exec_refusal (r : SigningResponse) : string :=
  if signature_sized r then "exec signer returned malformed public key"
  else "exec signer returned malformed signature".

Lemma decode_sized_encode b n :
  ExecSigner.decode_sized (Base64.EncodeToString b) n = if (List.length b =? n)%nat then Some b else None.
Proof. unfold ExecSigner.decode_sized. by rewrite SignerLaws.base64_roundtrip. Qed.

Definition exec_request (req : SigningRequest) : ExecSigner.Request :=
  ExecSigner.MkRequest ExecSigner.OpSign (sq_KeyRef req) (sq_SignMode req)
    (Base64.EncodeToString (sq_SignDocBytes req)) (Some (ExecSigner.SummaryFrom (sq_Summary req))).

(** The subprocess signs the request that was encoded. *)
Lemma demo_signs env d keys req :
  Demo.backend env = Ok (d, keys) -> sq_KeyRef req <> "" -> sq_KeyRef req <> "default" ->
  Demo.run env (Some (exec_request req)) =
  match Local.Sign keys None req with
  | Err e => Err e
  | Ok r => Ok (ExecSigner.MkResponse (sq_KeyRef req) "" (Base64.EncodeToString (sp_PubKeyCompressed r))
                  (Base64.EncodeToString (sp_Signature r)))
  end.
Proof.
  intros Hb Hne Hnd. unfold Demo.run. rewrite Hb. generalize (Local.Sign keys). intros Sign. simpl.
  rewrite SignerLaws.base64_roundtrip. unfold GoStrings.empty.
  rewrite (bool_decide_eq_false_2 (sq_KeyRef req = "")), (bool_decide_eq_false_2 (sq_KeyRef req = "default")) by done.
  by destruct req as [? ? ? []].
Qed.

End exec.
End RemoteLaws.
