(* ===== verification/Sample.v ===== *)
(** * Sample: a concrete environment

    An instance of [Ext] with which the theorems are applied at concrete
    inputs: three account addresses, a one-key signature scheme, and an
    injective byte encoding of the protobuf messages.  It satisfies every law
    the theorems assume of the third-party libraries. *)

From stdpp Require Import base list strings countable gmap.
From Stdlib Require Import ZArith Lia Ascii String Strings.Byte.
From S2P Require Import Prelude Text Storage Chain Hash Address Tx.

Open Scope string_scope.
Open Scope list_scope.
Open Scope Z_scope.

Module Sample.

(** ** An injective encoding *)

Fixpoint pos_bytes (p : positive) : bytes :=
  match p with
  | xH => [x01]
  | xO p' => x00 :: pos_bytes p'
  | xI p' => x02 :: pos_bytes p'
  end.
Fixpoint bytes_pos (b : bytes) : option positive :=
  match b with
  | [] => None
  | c :: b' =>
      if bool_decide (c = x01) then (if bool_decide (b' = []) then Some xH else None)
      else if bool_decide (c = x00) then option_map xO (bytes_pos b')
      else option_map xI (bytes_pos b')
  end.

Lemma bytes_pos_bytes p : bytes_pos (pos_bytes p) = Some p.
Proof. induction p as [p IH|p IH|]; simpl; rewrite ?IH; done. Qed.

Definition ser {A} `{Countable A} (a : A) : bytes := pos_bytes (encode a).
Definition deser {A} `{Countable A} (b : bytes) : option A :=
  match bytes_pos b with Some p => decode p | None => None end.

Lemma deser_ser {A} `{Countable A} (a : A) : deser (ser a) = Some a.
Proof. unfold deser, ser. by rewrite bytes_pos_bytes, decode_encode. Qed.

Instance byte_countable : Countable Byte.byte.
Proof.
  refine (inj_countable (fun b => N.to_nat (Byte.to_N b)) (fun n => Byte.of_N (N.of_nat n)) _).
  intros b. rewrite N2Nat.id. by apply Byte.of_to_N.
Defined.
Instance Coin_eq_dec : EqDecision Coin.
Proof. solve_decision. Defined.
Instance Coin_countable : Countable Coin.
Proof.
  refine (inj_countable' (fun c => (coin_Denom c, coin_Amount c)) (fun p => MkCoin p.1 p.2) _).
  by intros [].
Defined.
Instance MsgSend_eq_dec : EqDecision MsgSend.
Proof. solve_decision. Defined.
Instance MsgSend_countable : Countable MsgSend.
Proof.
  refine (inj_countable' (fun m => (ms_FromAddress m, ms_ToAddress m, ms_Amount m))
            (fun p => MkMsgSend p.1.1 p.1.2 p.2) _).
  by intros [].
Defined.

(** ** Accounts *)

Definition key : bytes := x02 :: repeat x07 32.
Definition src_bytes : bytes := repeat x0a 20.
Definition dst_bytes : bytes := repeat x0b 20.
Definition mod_bytes : bytes := repeat x0c 20.
Definition accounts : list (string * bytes) :=
  [("sovr1src", src_bytes); ("sovr1dst", dst_bytes); ("sovr1mod", mod_bytes)].

Definition lookup_account (a : string) : option bytes :=
  option_map snd (List.find (fun e => bool_decide (e.1 = a)) accounts).
Definition lookup_payload (p : bytes) : option string :=
  option_map fst (List.find (fun e => bool_decide (e.2 = p)) accounts).
Definition or_err {A} (o : option A) : result err A :=
  match o with Some a => Ok a | None => Err ErrOther end.

(** The body, auth-info and sign-doc encodings. *)
Definition body_of (m : MsgSend * string) : TxBody :=
  MkTxBody [MkAny Tx.MsgSendTypeURL (ser m.1)] m.2 0 false None [] [].
Definition auth_of (a : list Coin * Z * bytes * Z) : AuthInfo :=
  let '(fee, gas, pk, seq) := a in
  MkAuthInfo [MkSignerInfo (Some (MkAny Tx.secp256k1PubKeyTypeURL pk)) (Some SIGN_MODE_DIRECT) seq]
    (Some (MkFeeMsg fee gas "" "")) false.
Definition doc_of (d : bytes * bytes * string * Z) : SignDocMsg :=
  let '(body, auth, chain, acct) := d in MkSignDocMsg body auth chain acct.

#[refine] Instance sample : Ext := {
  bech32_DecodeAndConvert a := match lookup_account a with
                               | Some p => Ok ("sovr", p) | None => Err ErrOther end;
  bech32_ConvertAndEncode hrp p := if bool_decide (hrp = "sovr") then or_err (lookup_payload p)
                                   else Err ErrOther;
  codec_StringToBytes a := or_err (lookup_account a);
  codec_BytesToString p := or_err (lookup_payload p);
  address_Module _ := mod_bytes;
  NewIntFromString s :=
    if Tx.is_digits (chars s) then
      if decide (value (chars s) < 2 ^ 256) then Some (value (chars s)) else None
    else None;
  pubkey_Address _ := src_bytes;
  pubkey_VerifySignature _ _ _ := true;
  encodeTx c := Ok (ser (tc_Msg c, tc_Memo c), ser (tc_Fee c, tc_GasLimit c, tc_PubKey c, tc_Sequence c));
  getSignBytes chain acct body auth := Ok (ser (body, auth, chain, acct));
  marshalTxRaw body auth sigs := Ok (x0a :: body ++ x12 :: auth ++ x1a :: List.concat sigs);
  unmarshalSignDoc b := option_map doc_of (deser b);
  strictSignDoc b := option_map doc_of (deser b);
  strictTxBody b := option_map body_of (deser b);
  strictAuthInfo b := option_map auth_of (deser b);
  unmarshalMsgSend b := deser b;
  unmarshalPubKey b := Some b }.
Proof. Defined.

Lemma all_digits_forallb t : all_digits t -> forallb is_digit t = true.
Proof. intros H. apply forallb_forall. intros c Hc. apply list_elem_of_In in Hc. by eapply Forall_forall in H. Qed.

Instance sample_numeric : NumericLaws sample.
Proof.
  split. intros t Ht Hne. simpl. rewrite chars_of_chars. unfold Tx.is_digits.
  by rewrite bool_decide_eq_false_2, all_digits_forallb.
Qed.

Instance sample_encoding : Tx.EncodingLaws.
Proof.
  split.
  - intros c body auth [= <- <-]. eexists _, _. simpl. rewrite !deser_ser. simpl.
    split_and!; done.
  - intros chain acct body auth doc [= <-]. simpl. by rewrite deser_ser.
Qed.

Lemma lookup_payload_account p a : lookup_payload p = Some a -> lookup_account a = Some p.
Proof.
  unfold lookup_payload. simpl.
  repeat (case_bool_decide; [intros [= <-]; subst p; vm_compute; reflexivity|]). done.
Qed.

Instance sample_bech32 : Address.Bech32Laws.
Proof.
  split.
  - intros hrp p a. simpl. case_bool_decide; [subst hrp|done].
    destruct (lookup_payload p) as [a'|] eqn:E; [|done]. intros [= ->].
    by rewrite (lookup_payload_account _ _ E).
  - intros p a. simpl. destruct (lookup_payload p) as [a'|] eqn:E; [|done]. intros [= ->].
    unfold lookup_payload in E. simpl in E.
    repeat (case_bool_decide; [injection E as <-; by vm_compute|]). done.
Qed.

(** ** The address and transaction theorems at concrete inputs *)

Lemma normalized_canonical_witness :
  Address.ValidateAccountAddress "sovr1dst" = Address.MkResult true "sovr1dst" None.
Proof.
  pose proof (Address.normalized_canonical (X := sample) "sovr1dst" ltac:(vm_compute; reflexivity)) as (p & _ & _ & H).
  exact H.
Defined.

Lemma strict_rejects_modules_witness :
  Address.vr_Valid (Address.ValidateAccountAddressStrict "sovr1mod" Address.DefaultProhibitedModuleAccounts)
    = false.
Proof.
  apply (Address.strict_rejects_modules "sovr1mod" "sovr1mod").
  - reflexivity.
  - right. exists "gov". split; [apply list_elem_of_In; simpl; tauto | vm_compute; reflexivity].
  - vm_compute. reflexivity.
Defined.

Definition built : Tx.UnsignedTx := Tx.MkUnsigned "sovr1src" "sovr1dst" src_bytes 1500 "memo" [] [] [] [].
Definition sample_fee : Tx.Fee := Tx.MkFee "200" 120000.

Lemma summary_describes_transfer_witness :
  exists doc sum u',
    Tx.SignDoc built "sovr-1" 7 3 sample_fee key = Ok (doc, sum, u') /\
    ss_AmountBaseUnits sum = "1500" /\ ss_RecipientAddress sum = "sovr1dst".
Proof.
  destruct (Tx.SignDoc built "sovr-1" 7 3 sample_fee key) as [[[doc sum] u']|e] eqn:E;
    [|vm_compute in E; discriminate E].
  exists doc, sum, u'. split; [reflexivity|].
  destruct (Tx.summary_describes_transfer (X := sample) "sovr1src" "sovr1dst" "1500" "memo" "sovr-1" 7 3 sample_fee
              key doc built u' sum ltac:(vm_compute; reflexivity) E) as (-> & _).
  split; vm_compute; reflexivity.
Defined.

End Sample.
