(* ===== verification/SignerSample.v ===== *)
(** * SignerSample: a concrete wire format for the signer theorems

    [Sample] with the one message in a field encoding that [eachField] reads,
    a [Wire] instance that satisfies every law the signer theorems assume, and
    the theorems of [SignerLaws] and [RemoteLaws] applied to them. *)

From stdpp Require Import base list strings gmap.
From Stdlib Require Import ZArith Lia Ascii String Strings.Byte.
From S2P Require Import Prelude Text GoStrings Storage Chain Hash Address Tx Sample.
From S2P Require Import Signers SignerWire SignerWireLaws RemoteSigner ExecSigner SignerLaws RemoteLaws.

Open Scope string_scope.
Open Scope list_scope.
Open Scope Z_scope.

Module SignerSample.
Import Sample.

(** ** Fields: a tag byte, the length in unary, the payload *)

Fixpoint ones (b : bytes) : nat :=
  match b with c :: b' => if bool_decide (c = x01) then S (ones b') else O | [] => O end.

Definition consume_bytes (b : bytes) : bytes * Z :=
  let n := ones b in
  match drop n b with
  | _ :: rest => if (n <=? List.length rest)%nat then (take n rest, Z.of_nat (n + 1 + n)) else ([], -1)
  | [] => ([], -1)
  end.

Instance wire : Wire := {
  unmarshalTxBody b := option_map (fun m : bytes * string =>
    MkTxBody [MkAny Tx.MsgSendTypeURL m.1] m.2 0 false None [] []) (deser b);
  unmarshalAuthInfo b := option_map auth_of (deser b);
  ConsumeTag b := match b with
                  | [] => (0, 0, -1)
                  | c :: _ => (Hash.byte_val c / 8, Hash.byte_val c mod 8, 1)
                  end;
  ConsumeFieldValue _ _ _ := -1;
  ConsumeBytes := consume_bytes;
  privkey_Sign _ _ := Some (repeat x01 64);
  privkey_PubKey _ := key }.

Definition field (num : Z) (v : bytes) : bytes :=
  Hash.val_byte (8 * num + 2) :: repeat x01 (List.length v) ++ x00 :: v.

Instance wire_laws : WireLaws.
Proof.
  split.
  - intros [|c b] num typ n; simpl; intros [= <- <- <-]; simpl; lia.
  - intros num typ b n; simpl; intros <-; lia.
  - intros b v n; simpl. unfold consume_bytes. destruct (drop (ones b) b) as [|c rest] eqn:E; [intros [= <- <-]; lia|].
    destruct (Nat.leb_spec (ones b) (List.length rest)); [|intros [= <- <-]; lia]. intros [= <- <-] _.
    assert (List.length (drop (ones b) b) = S (List.length rest)) as Hl by by rewrite E.
    rewrite length_drop in Hl. lia.
Qed.

Lemma ones_repeat n rest : ones (repeat x01 n ++ x00 :: rest) = n.
Proof. induction n as [|n IH]; simpl; [done|]. by rewrite IH. Qed.

Lemma field_laws : SignerLaws.field_law field.
Proof.
  intros num v rest Hn. exists 1, (Z.of_nat (List.length v + 1 + List.length v)).
  unfold field. cbn [app]. cbn [ConsumeTag wire ConsumeBytes]. change (Z.to_nat 1) with 1%nat. cbn [drop].
  assert (Hash.byte_val (Hash.val_byte (8 * num + 2)) = num * 8 + 2) as ->
    by (rewrite SignerWireLaws.byte_val_byte, Z.mod_small; lia).
  rewrite Z.div_add_l, (Z.add_comm (num * 8) 2), Z.mod_add by lia. rewrite drop_0.
  rewrite <-app_assoc. cbn [app]. unfold consume_bytes. rewrite ones_repeat.
  assert (drop (List.length v) (repeat x01 (List.length v) ++ x00 :: v ++ rest) = x00 :: v ++ rest) as Hd.
  { rewrite <-(repeat_length x01 (List.length v)) at 1. apply drop_app_length. }
  rewrite Hd, length_app, (proj2 (Nat.leb_le _ _)) by lia. rewrite take_app_length.
  split; [f_equal; f_equal; change (2 / 8) with 0; lia|].
  split; [lia|]. split; [done|]. split; [lia|]. rewrite Nat2Z.id, <-Nat.add_assoc, <-drop_drop, Hd. simpl.
  apply drop_app_length.
Qed.

(** ** Transactions with such a message *)

Definition read_amount (s : string) : option Z :=
  if Tx.is_digits (chars s) then Some (value (chars s)) else None.
Definition read_send (b : bytes) : option MsgSend :=
  match Local.decodeMsgSend b with
  | Ok m => Some (MkMsgSend (Local.wm_fromAddress m) (Local.wm_toAddress m)
                    (map (fun c => MkCoin (Local.wc_denom c) (read_amount (Local.wc_amount c))) (Local.wm_amount m)))
  | Err _ => None
  end.
Definition writable (c : Coin) : bool := match coin_Amount c with Some n => 0 <=? n | None => false end.
Definition write_send (m : MsgSend) : bytes :=
  SignerLaws.send_bytes field (ms_FromAddress m) (ms_ToAddress m)
    (map (fun k => (coin_Denom k, Local.amount_String (coin_Amount k))) (ms_Amount m)).

#[refine] Instance wired : Ext := {
  bech32_DecodeAndConvert := @bech32_DecodeAndConvert sample;
  bech32_ConvertAndEncode := @bech32_ConvertAndEncode sample;
  codec_StringToBytes := @codec_StringToBytes sample;
  codec_BytesToString := @codec_BytesToString sample;
  address_Module := @address_Module sample;
  NewIntFromString := @NewIntFromString sample;
  pubkey_Address := @pubkey_Address sample;
  pubkey_VerifySignature := @pubkey_VerifySignature sample;
  encodeTx c := if forallb writable (ms_Amount (tc_Msg c)) then
      Ok (ser (write_send (tc_Msg c), tc_Memo c), ser (tc_Fee c, tc_GasLimit c, tc_PubKey c, tc_Sequence c))
    else Err ErrOther;
  getSignBytes := @getSignBytes sample;
  marshalTxRaw := @marshalTxRaw sample;
  unmarshalSignDoc := @unmarshalSignDoc sample;
  strictSignDoc := @strictSignDoc sample;
  strictTxBody := unmarshalTxBody;
  strictAuthInfo := @strictAuthInfo sample;
  unmarshalMsgSend := read_send;
  unmarshalPubKey := @unmarshalPubKey sample }.
Proof. Defined.

Instance wired_numeric : NumericLaws wired.
Proof. split. exact (@NewIntFromString_digits sample sample_numeric). Qed.

Lemma read_amount_write n : 0 <= n -> read_amount (Local.amount_String (Some n)) = Some n.
Proof.
  intros Hn. unfold read_amount. simpl. rewrite SignerLaws.int_String_nonneg by done.
  unfold Tx.FormatUint. rewrite chars_of_chars. unfold Tx.is_digits.
  rewrite all_digits_forallb by by apply numeral_digits.
  destruct (numeral n) eqn:E; [|rewrite bool_decide_eq_false_2 by done; simpl; by rewrite <-E, value_numeral].
  exfalso. pose proof (numeral_canonical n Hn) as Hc. rewrite E in Hc. unfold canonical in Hc. by destruct Hc as (_ & [?|(? & ? & ? & _)]).
Qed.

Lemma read_write_send m : forallb writable (ms_Amount m) = true -> read_send (write_send m) = Some m.
Proof.
  intros Hw. unfold read_send, write_send.
  rewrite (SignerLaws.decodeMsgSend_send_bytes field field_laws). simpl. destruct m as [f t coins]. simpl in *.
  do 2 f_equal. induction coins as [|[d a] coins IH]; simpl in *; [done|].
  apply andb_true_iff in Hw as [Hw Hr]. destruct a as [n|]; [|done]. unfold writable in Hw. simpl in Hw.
  rewrite (IH Hr). f_equal. f_equal. apply read_amount_write. by apply Z.leb_le.
Qed.

Instance wired_encoding : Tx.EncodingLaws.
Proof.
  split.
  - intros c body auth. simpl. destruct (forallb _ _) eqn:Hw; [|done]. intros [= <- <-]. eexists _, _.
    rewrite !deser_ser. simpl. split_and!; [done|by apply read_write_send|done|done].
  - intros chain acct body auth doc [= <-]. simpl. by rewrite deser_ser.
Qed.

Instance wired_send : SignerLaws.SendLaws field.
Proof.
  split; [apply field_laws|done|done|done|].
  intros c body auth b any. simpl. destruct (forallb _ _); [|done]. intros [= <- <-].
  rewrite deser_ser. simpl. intros [= <-]. simpl. intros ->%list_elem_of_singleton. reflexivity.
Qed.

(** ** The theorems at concrete inputs *)

Definition secret : bytes := repeat x03 32.
Definition keys : Local.keystore := {["k1" := secret]}.

(** The built transfer of [Sample], its document and its summary. *)
Local Notation document :=
  (Tx.SignDoc (X := wired) built "sovr-1" 7 3 sample_fee (privkey_PubKey secret)).
Definition doc_bytes : bytes := match document with Ok (d, _, _) => d | Err _ => [] end.
Definition doc_summary : SigningSummary :=
  match document with Ok (_, sm, _) => sm | Err _ => MkSummary "" "" "" "" "" "" "" "" "" "" "" end.
Definition request : SigningRequest := MkSigningRequest "k1" Signer.SignModeDirect doc_bytes doc_summary.

Lemma remote_signer_is_its_backend_witness :
  RemoteSigner.Sign (RemoteSigner.serve (Local.signer (X := wired) keys)) None request =
    Ok (MkSigningResponse "k1" (repeat x01 64) key) /\
  RemoteSigner.Sign (RemoteSigner.serve (Local.signer (X := wired) ∅)) None request =
    Err (Signer.NewError Signer.ErrKeyNotFound "no key for ref k1").
Proof.
  split.
  - rewrite (RemoteLaws.remote_signer_is_its_backend (Local.signer (X := wired) keys) None request);
      vm_compute; reflexivity.
  - rewrite (RemoteLaws.remote_signer_is_its_backend (Local.signer (X := wired) ∅) None request);
      vm_compute; reflexivity.
Defined.

Instance hd : HD := { hd_Derive _ _ := Ok secret }.
Definition environ : Demo.environ := Demo.MkEnviron "UNSAFE_TEST_ONLY" "abandon abandon about" "" "devnet".
Definition derived : Derive.derived := Derive.MkDerived Derive.DefaultHDPath secret key src_bytes "sovr1src".

End SignerSample.
