(* ===== verification/Fees.v ===== *)
(** * Fees: exact decimal arithmetic for gas and fees

    [go/withdrawals/fees.go]: the gas adjustment and the gas price are decimal
    strings, and every product is rounded up in exact integer arithmetic.
    [big.Int] is [Z]. *)

From stdpp Require Import base list strings.
From Stdlib Require Import ZArith Lia Ascii String.
From S2P Require Import Prelude Text Storage Amounts.

Open Scope list_scope.
Open Scope Z_scope.

Module Fees.

Definition MaxUint64 : Z := 2 ^ 64 - 1.

(** One or more digits, optionally a dot and one or more digits. *)
Definition decRe : re :=
  Cat (Plus (Chr is_digit)) (Opt (Cat (Chr (is_char "."%char)) (Plus (Chr is_digit)))).

Record decimal : Type := MkDecimal { dec_num : Z; dec_den : Z }.

Definition parseDecimal (s : string) : result err decimal :=
  let t := chars s in
  if negb (matches decRe t) then Err ErrOther
  else
    let '(whole, frac) := Amounts.split_dot t in
    Ok (MkDecimal (value (whole ++ frac)) (10 ^ Z.of_nat (List.length frac))).

Definition isZero (d : decimal) : bool := dec_num d =? 0.

(** [(n * num + (den - 1)) quo den]. *)
Definition ceilMulBig (d : decimal) (n : Z) : Z :=
  Z.quot (n * dec_num d + (dec_den d - 1)) (dec_den d).

Definition ceilMulU64 (d : decimal) (n : Z) : result err Z :=
  let v := ceilMulBig d n in
  if (0 <=? v) && (v <=? MaxUint64) then Ok v else Err ErrOther.

Definition gasLimitFor (gasUsed : Z) (adjustment : decimal) : result err Z :=
  if gasUsed =? 0 then Err ErrOther
  else match ceilMulU64 adjustment gasUsed with
       | Err e => Err e
       | Ok limit => if (limit =? 0) || (limit =? MaxUint64) then Err ErrOther else Ok limit
       end.

Definition feeFor (gasLimit : Z) (gasPrice : decimal) : Z := ceilMulBig gasPrice gasLimit.

Example fee_ex : match parseDecimal "0.025" with Ok p => feeFor 120001 p = 3001 | Err _ => False end.
Proof. vm_compute. reflexivity. Qed.

(** ** Exactness *)

Lemma ceilMul_spec d n :
  0 < dec_den d -> 0 <= n * dec_num d ->
  let v := ceilMulBig d n in
  n * dec_num d <= v * dec_den d /\ (v - 1) * dec_den d < n * dec_num d.
Proof.
  intros Hd Hn v. unfold v, ceilMulBig. rewrite Z.quot_div_nonneg by lia.
  set (a := n * dec_num d) in *. set (b := dec_den d) in *.
  pose proof (Z.div_mod (a + (b - 1)) b ltac:(lia)).
  pose proof (Z.mod_pos_bound (a + (b - 1)) b ltac:(lia)). nia.
Qed.

Lemma plus_digit_lang t : lang (Plus (Chr is_digit)) t <-> all_digits t /\ t <> [].
Proof. apply Amounts.plus_digits. Qed.

(** [t] is the decimal [w].[f] ([f] empty when there is no dot). *)
Definition decimal_of (t w f : text) : Prop :=
  all_digits w /\ w <> [] /\ all_digits f /\
  t = w ++ (if bool_decide (f = []) then [] else "."%char :: f).

Lemma decRe_spec t : matches decRe t = true <-> exists w f, decimal_of t w f.
Proof.
  rewrite matches_lang. unfold decRe, Opt. rewrite lang_cat_inv. split.
  - intros (w & u & -> & Hw & Hu). apply plus_digit_lang in Hw as [Hw Hne].
    apply lang_alt_inv in Hu as [Hu|Hu].
    + apply lang_cat_inv in Hu as (d & f & -> & Hd & Hf).
      apply lang_chr_inv in Hd as (c & -> & Hc). apply Amounts.is_char_true in Hc as ->.
      apply plus_digit_lang in Hf as [Hf Hnf]. exists w, f. split_and!; [done..|].
      by rewrite bool_decide_eq_false_2.
    + apply lang_eps_inv in Hu as ->. exists w, []. split_and!; [done..|constructor|done].
  - intros (w & f & Hw & Hne & Hf & ->). eexists w, _. split; [done|].
    split; [by apply plus_digit_lang|]. apply lang_alt_inv.
    case_bool_decide as Hn; [right; constructor|left].
    apply lang_cat_inv. exists ["."%char], f. split_and!; [done| |by apply plus_digit_lang].
    apply lang_chr_inv. eexists. split; [done|]. by apply Amounts.is_char_true.
Qed.

Lemma split_decimal t w f : decimal_of t w f -> Amounts.split_dot t = (w, f).
Proof.
  intros (Hw & _ & Hf & ->). induction Hw as [|c w Hc Hw IH]; simpl.
  - by case_bool_decide; subst.
  - rewrite Amounts.digit_not_char by done. by rewrite IH.
Qed.

Lemma parseDecimal_ok s d :
  parseDecimal s = Ok d <->
  exists w f, decimal_of (chars s) w f /\
    d = MkDecimal (value (w ++ f)) (10 ^ Z.of_nat (List.length f)).
Proof.
  unfold parseDecimal. split.
  - destruct (matches decRe (chars s)) eqn:Hm; [simpl|done].
    apply decRe_spec in Hm as (w & f & Hd). rewrite (split_decimal _ _ _ Hd).
    intros [= <-]. eauto.
  - intros (w & f & Hd & ->). rewrite (proj2 (decRe_spec _)) by eauto. simpl.
    by rewrite (split_decimal _ _ _ Hd).
Qed.

Lemma decimal_wf s d : parseDecimal s = Ok d -> 0 <= dec_num d /\ 0 < dec_den d.
Proof.
  intros (w & f & (Hw & _ & Hf & _) & ->)%parseDecimal_ok. simpl. split; [|lia].
  assert (all_digits (w ++ f)) as H by (by apply Forall_app).
  apply value_range in H. lia.
Qed.

(** The fee is the exact ceiling.  For a gas price written [w].[f] the
    fee of a gas limit is the least integer at least gas limit times price:
    no rounding below the product, and never a whole unit above it. *)
Theorem fee_exact_ceiling (s : string) (p : decimal) (gasLimit : Z)
    (Hp : parseDecimal s = Ok p) (Hg : 0 <= gasLimit) :
  exists w f, decimal_of (chars s) w f /\
    let scale := 10 ^ Z.of_nat (List.length f) in
    gasLimit * value (w ++ f) <= feeFor gasLimit p * scale /\
    forall fee, gasLimit * value (w ++ f) <= fee * scale -> feeFor gasLimit p <= fee.
Proof.
  pose proof (decimal_wf _ _ Hp) as [Hn Hd].
  apply parseDecimal_ok in Hp as (w & f & Hdec & ->). exists w, f. split; [done|].
  simpl in *. destruct (ceilMul_spec (MkDecimal (value (w ++ f)) (10 ^ Z.of_nat (List.length f))) gasLimit)
    as [H1 H2]; simpl in *; [done|nia|]. split; [exact H1|].
  intros fee Hfee. unfold feeFor. nia.
Qed.

Lemma fee_exact_ceiling_witness :
  exists w f, decimal_of (chars "0.025") w f /\
    let scale := 10 ^ Z.of_nat (List.length f) in
    120001 * value (w ++ f) <= feeFor 120001 (MkDecimal 25 1000) * scale /\
    forall fee, 120001 * value (w ++ f) <= fee * scale -> feeFor 120001 (MkDecimal 25 1000) <= fee.
Proof.
  apply (fee_exact_ceiling "0.025" (MkDecimal 25 1000) 120001).
  - vm_compute. reflexivity.
  - lia.
Defined.

(** The gas limit is the adjusted gas rounded up and fits a uint64; with
    an adjustment of at least one it never falls below the simulated gas, and
    every refusal is one of the documented ones: zero gas, a zero product, or
    a product at or beyond the top of the range. *)
Theorem gas_limit_bounds (s : string) (a : decimal) (gas : Z)
    (Ha : parseDecimal s = Ok a) (Hg : 0 <= gas) :
  match gasLimitFor gas a with
  | Ok limit => 0 < gas /\ 0 < limit < MaxUint64 /\
      gas * dec_num a <= limit * dec_den a /\ (limit - 1) * dec_den a < gas * dec_num a /\
      (dec_den a <= dec_num a -> gas <= limit)
  | Err _ => gas = 0 \/ dec_num a = 0 \/ (MaxUint64 - 1) * dec_den a < gas * dec_num a
  end.
Proof.
  pose proof (decimal_wf _ _ Ha) as [Hn Hd].
  destruct (ceilMul_spec a gas Hd ltac:(nia)) as [H1 H2].
  unfold gasLimitFor, ceilMulU64. set (v := ceilMulBig a gas) in *.
  destruct (Z.eqb_spec gas 0); [auto|].
  destruct (Z.leb_spec 0 v); simpl; [|nia].
  destruct (Z.leb_spec v MaxUint64); simpl.
  - destruct (Z.eqb_spec v 0); simpl; [right; left; nia|].
    destruct (Z.eqb_spec v MaxUint64); simpl; [right; right; nia|].
    split_and!; try lia. nia.
  - right; right. nia.
Qed.

Lemma gas_limit_bounds_witness :
  match gasLimitFor 90001 (MkDecimal 13 10) with
  | Ok limit => 0 < 90001 /\ 0 < limit < MaxUint64 /\
      90001 * 13 <= limit * 10 /\ (limit - 1) * 10 < 90001 * 13 /\ (10 <= 13 -> 90001 <= limit)
  | Err _ => 90001 = 0 \/ 13 = 0 \/ (MaxUint64 - 1) * 10 < 90001 * 13
  end.
Proof.
  apply (gas_limit_bounds "1.3" (MkDecimal 13 10) 90001).
  - vm_compute. reflexivity.
  - lia.
Defined.

End Fees.
