(* ===== verification/Sequences.v ===== *)
(** * Sequences: the durable sequence manager

    [go/sequences/manager.go].  [Reserve] binds one (chain, account, sequence)
    slot to one work item; [ReconcileAccount] re-derives the open reservations
    of an account from chain truth; [RebroadcastPersisted] pushes persisted
    bytes again.  [uint64] sequences are [Z]; [next + 1] wraps at [2^64].
    Logging, metrics and the reason strings are left out. *)

From stdpp Require Import base list strings.
From Stdlib Require Import ZArith Lia String.
From S2P Require Import Prelude Workers Text Storage Database SqlStore SqlLaws Hash Chain.
Import SqlStore SqlLaws.

Open Scope string_scope.
Open Scope list_scope.
Open Scope Z_scope.

Module Sequences.

Definition wrap64 (x : Z) : Z := x mod 2 ^ 64.

(** The reservation [Reserve] asks the repository for. *)
Definition new_reservation (chainID source : string) (accountNumber seq : Z) (ref : WorkRef)
    : SequenceReservation :=
  MkReservation 0 chainID source accountNumber seq ref SequenceReserved 0 0.

(** [next] after the scan of the open reservations. *)
Definition next_sequence (chainSeq : Z) (open : list SequenceReservation) : Z :=
  fold_left (fun next r => if next <=? r_Sequence r then wrap64 (r_Sequence r + 1) else next)
    open chainSeq.

(** The transaction of [Reserve]: [released] is the work item's own RELEASED
    reservation, when the first read found one. *)
Definition reserveTx (chainID source : string) (ref : WorkRef) (released : option SequenceReservation)
    (accountNumber chainSeq : Z) : db SequenceReservation :=
  do open <- Sequences_ListUnconsumed chainID source;
  do next <- match released with
             | Some ex => if r_Sequence ex <? chainSeq then tx_fail ErrReleasedSlotUnusable
                          else tx_ret (r_Sequence ex)
             | None => tx_ret (next_sequence chainSeq open)
             end;
  Sequences_Reserve (new_reservation chainID source accountNumber next ref).

(** [Reserve] once no live reservation was found for the work item. *)
Definition reserve_new (chainID source : string) (ref : WorkRef) (released : option SequenceReservation)
    : handler (result err SequenceReservation) :=
  let? '(accountNumber, chainSeq) := ask (CAccount source) in
  let* r := atomically (reserveTx chainID source ref released accountNumber chainSeq) in
  match r with
  | Ok out => Done (Ok out)
  | Err ErrDuplicate =>
      let* raced := stmt (Sequences_GetByWorkRef ref) in
      match raced with
      | Ok r => Done (Ok r)
      | Err _ => Done (Err ErrDuplicate)
      end
  | Err e => Done (Err e)
  end.

Definition Reserve (chainID source : string) (ref : WorkRef)
    : handler (result err SequenceReservation) :=
  if negb (Valid (ref_Kind ref)) || empty (ref_ID ref) then Done (Err ErrInvalidRecord)
  else
    let* existing := stmt (Sequences_GetByWorkRef ref) in
    match existing with
    | Ok ex => if bool_decide (r_Status ex = SequenceReleased) then reserve_new chainID source ref (Some ex)
               else Done (Ok ex)
    | Err ErrNotFound => reserve_new chainID source ref None
    | Err e => Done (Err e)
    end.

Record Action : Type := MkAction {
  ac_ReservationID : Z; ac_WorkRef : WorkRef; ac_Sequence : Z;
  ac_From : SequenceReservationStatus; ac_To : SequenceReservationStatus }.

Record Report : Type := MkSeqReport {
  rp_ChainID : string; rp_SourceAddress : string; rp_ChainSequence : Z;
  rp_Actions : list Action; rp_Quarantined : Z; rp_Released : Z; rp_Consumed : Z }.

(** The work item's transaction hash ([""] when none) and whether signed bytes
    are persisted for it. *)
Definition workFacts (ref : WorkRef) : db (string * bool) :=
  match ref_Kind ref with
  | WorkWithdrawal =>
      do w <- Withdrawals_Get (ref_ID ref);
      tx_ret (default "" (w_TxHash w), negb (bool_decide (w_SignedTxBytes w = [])))
  | WorkSweep =>
      do j <- Sweeps_Get (ref_ID ref);
      tx_ret (default "" (j_TxHash j), negb (bool_decide (j_SignedTxBytes j = [])))
  end.

(** A transaction lookup that found the transaction in a block. *)
Definition included (r : result err (option TxInfo)) : bool :=
  match r with Ok (Some info) => 0 <? ti_Height info | _ => false end.

(** A lookup that failed with something other than not-found. *)
Definition lookup_failed (r : result err (option TxInfo)) : bool :=
  match r with Err e => negb (bool_decide (e = ErrClientNotFound)) | Ok _ => false end.

(** The decision once the transaction, if any, is known not to be on chain. *)
Definition resolve_absent (status : SequenceReservationStatus) (hasSigned : bool)
    : SequenceReservationStatus :=
  match status with
  | SequenceReserved => if hasSigned then SequenceReconciliationRequired else SequenceReleased
  | SequenceSigned | SequenceBroadcast => SequenceReconciliationRequired
  | _ => status
  end.

Definition resolve (r : SequenceReservation) (chainSeq : Z) : handler SequenceReservationStatus :=
  let* facts := stmt (workFacts (r_WorkRef r)) in
  match facts with
  | Err _ => Done SequenceReconciliationRequired
  | Ok (txHash, hasSigned) =>
      if empty txHash then Done (resolve_absent (r_Status r) hasSigned)
      else
        let* info := ask (CTx txHash) in
        if included info then Done SequenceConsumed
        else if lookup_failed info then Done SequenceReconciliationRequired
        else Done (resolve_absent (r_Status r) hasSigned)
  end.

Definition count_action (rp : Report) (a : Action) : Report :=
  let inc (s : SequenceReservationStatus) := if bool_decide (ac_To a = s) then 1 else 0 in
  MkSeqReport (rp_ChainID rp) (rp_SourceAddress rp) (rp_ChainSequence rp) (rp_Actions rp ++ [a])
    (rp_Quarantined rp + inc SequenceReconciliationRequired)
    (rp_Released rp + inc SequenceReleased) (rp_Consumed rp + inc SequenceConsumed).

Fixpoint reconcile_loop (open : list SequenceReservation) (report : Report)
    : handler (Report * option err) :=
  match open with
  | [] => Done (report, None)
  | r :: open' =>
      let* to := resolve r (rp_ChainSequence report) in
      if bool_decide (to = r_Status r) then reconcile_loop open' report
      else
        let* upd := stmt (Sequences_UpdateStatus (r_ID r) (r_Status r) to) in
        match upd with
        | Ok _ => reconcile_loop open'
                    (count_action report (MkAction (r_ID r) (r_WorkRef r) (r_Sequence r) (r_Status r) to))
        | Err ErrStatusConflict => reconcile_loop open' report
        | Err e => Done (report, Some e)
        end
  end.

Definition empty_report (chainID source : string) (seq : Z) : Report :=
  MkSeqReport chainID source seq [] 0 0 0.

Definition ReconcileAccount (chainID source : string) : handler (Report * option err) :=
  let* acct := ask (CAccount source) in
  match acct with
  | Err e => Done (empty_report "" "" 0, Some e)
  | Ok (_, chainSeq) =>
      let report := empty_report chainID source chainSeq in
      let* open := stmt (Sequences_ListUnconsumed chainID source) in
      match open with
      | Err e => Done (report, Some e)
      | Ok l => reconcile_loop l report
      end
  end.

Record RebroadcastResult : Type := MkRebroadcast {
  rb_TxHash : string; rb_AlreadyIncluded : bool; rb_Height : Z; rb_Code : Z;
  rb_RawLog : string; rb_Accepted : bool }.

Definition RebroadcastPersisted (signedTxBytes : bytes) : handler (result err RebroadcastResult) :=
  if bool_decide (signedTxBytes = []) then Done (Err ErrInvalidRecord)
  else
    let hash := Hash.TxHash signedTxBytes in
    let* info := ask (CTx hash) in
    match info with
    | Ok (Some i) =>
        if 0 <? ti_Height i
        then Done (Ok (MkRebroadcast hash true (ti_Height i) (ti_Code i) (ti_RawLog i) false))
        else
          let? res := ask (CBroadcast signedTxBytes BroadcastSync) in
          Done (Ok (MkRebroadcast (br_TxHash res) false 0 (br_Code res) (br_RawLog res) (br_Accepted res)))
    | Err e =>
        if bool_decide (e = ErrClientNotFound) then
          let? res := ask (CBroadcast signedTxBytes BroadcastSync) in
          Done (Ok (MkRebroadcast (br_TxHash res) false 0 (br_Code res) (br_RawLog res) (br_Accepted res)))
        else Done (Err e)
    | Ok None =>
        let? res := ask (CBroadcast signedTxBytes BroadcastSync) in
        Done (Ok (MkRebroadcast (br_TxHash res) false 0 (br_Code res) (br_RawLog res) (br_Accepted res)))
    end.

(** ** The reservation transaction *)

(** What a successful [Sequences_Reserve] did: it reclaimed the RELEASED row
    of the slot, or it appended a row for a free slot and a free work item. *)
Lemma Sequences_Reserve_ok res s x s' :
  schema_ok s -> Sequences_Reserve res s = (Ok x, s') ->
  x = reservation_row res (r_CreatedAt x) (r_UpdatedAt x) (r_ID x) /\
  ((exists old, old ∈ st_sequences s /\ slot_key old = slot_key res /\
      r_Status old = SequenceReleased /\ x = reclaim res (st_now s) old /\
      (forall r, r ∈ st_sequences s -> r_WorkRef r = r_WorkRef res -> r = old) /\
      s' = set_rows (update_rows (r_at (r_ID old) SequenceReleased) (reclaim res (st_now s))
                       (st_sequences s)) s) \/
   ((forall r, r ∈ st_sequences s -> slot_key r <> slot_key res /\ r_WorkRef r <> r_WorkRef res) /\
    r_ID x = Z.of_nat (S (List.length (st_sequences s))) /\
    s' = set_rows (st_sequences s ++ [x]) s)).
Proof.
  intros Hs H. unfold Sequences_Reserve, fmtTime in H. inv_tx H.
  change (rows s) with (st_sequences s) in H.
  destruct (List.find _ (st_sequences s)) as [old|] eqn:Hf.
  - inv_tx H. inv_tx1 H. unfold update_unique in Hm. destruct (existsb _ _) eqn:Hx; [done|].
    unfold update_where in Hm. injection Hm as <- <-. unfold require_rows in H.
    inv_tx H. injection H as <- <-. split; [done|]. left. exists old.
    apply find_elem in Hf as [Hin Hk]. apply bool_decide_eq_true in Hk.
    apply bool_decide_eq_true in Hg1.
    split_and!; [done..| | |done].
    + injection Hk as E1 E2 E3. unfold reclaim, reservation_row. by rewrite E1, E2, E3.
    + intros r Hr Hw. destruct (r_at (r_ID old) SequenceReleased r) eqn:Ep.
      * apply andb_true_iff in Ep as [Ei _]. apply Z.eqb_eq in Ei.
        destruct (so_sequences s Hs) as (Hids & _ & _). by eapply ids_ok_inj.
      * exfalso. apply not_true_iff_false in Hx. apply Hx, existsb_exists. exists old.
        rewrite <-list_elem_of_In, Z.eqb_refl, bool_decide_eq_true_2 by done.
        split; [done|]. apply existsb_exists. exists r. rewrite <-list_elem_of_In.
        split; [done|]. unfold r_at in Ep. rewrite Ep. simpl. unfold hits, work_key. simpl.
        by rewrite Hw, bool_decide_eq_true_2.
  - inv_tx H. unfold insert_row in H. destruct (violation _ _ _) eqn:Hv; [done|].
    apply violation_None in Hv. apply Forall_cons in Hv as [H1 Hv].
    apply Forall_cons in Hv as [H2 _]. simpl in H1, H2. rewrite hits_false in H1. rewrite hits_false in H2.
    injection H as <- <-. split; [done|]. right. split_and!; [|done..].
    intros r Hr. split.
    + intros E. by apply (H1 r _ Hr E).
    + intros E. by apply (H2 r _ Hr (f_equal Some E)).
Qed.

Lemma next_sequence_spec chainSeq open :
  (forall r, r ∈ open -> 0 <= r_Sequence r < 2 ^ 64 - 1) ->
  chainSeq <= next_sequence chainSeq open /\
  forall r, r ∈ open -> r_Sequence r < next_sequence chainSeq open.
Proof.
  unfold next_sequence. revert chainSeq. induction open as [|a open IH]; intros c Hb; simpl.
  - split; [lia|]. intros r Hr. by apply elem_of_nil in Hr.
  - pose proof (Hb a ltac:(by left)) as Ha. set (c' := if c <=? r_Sequence a then wrap64 (r_Sequence a + 1) else c).
    destruct (IH c' ltac:(intros r Hr; apply Hb; by right)) as [H1 H2].
    assert (c <= c' /\ r_Sequence a < c') as [Hc Hac].
    { unfold c', wrap64. destruct (Z.leb_spec c (r_Sequence a)); [|lia].
      rewrite Z.mod_small by lia. lia. }
    split; [lia|]. intros r [->|Hr]%elem_of_cons; [lia | auto].
Qed.

(** The open reservations of one account. *)
Definition open_on (chainID source : string) (r : SequenceReservation) : Prop :=
  r_ChainID r = chainID /\ r_SourceAddress r = source /\ unconsumed r = true.

Lemma ListUnconsumed_ok chainID source s :
  exists l, Sequences_ListUnconsumed chainID source s = (Ok l, s) /\
    forall r, r ∈ l <-> r ∈ st_sequences s /\ open_on chainID source r.
Proof.
  eexists. split; [reflexivity|]. intros r. rewrite elem_of_order_by. simpl.
  rewrite list_elem_of_In, List.filter_In, <-list_elem_of_In.
  rewrite !andb_true_iff, !bool_decide_eq_true. unfold open_on. tauto.
Qed.

(** The work item's reservation after the transaction is the returned one. *)
Lemma reserveTx_bound chainID source ref released acct chainSeq s x s' :
  schema_ok s -> reserveTx chainID source ref released acct chainSeq s = (Ok x, s') ->
  schema_ok s' /\ x ∈ st_sequences s' /\ r_WorkRef x = ref /\ r_Status x = SequenceReserved /\
  r_ChainID x = chainID /\ r_SourceAddress x = source /\ r_AccountNumber x = acct.
Proof.
  intros Hs H. unfold reserveTx in H. inv_tx1 H. inv_tx1 H.
  destruct (ListUnconsumed_ok chainID source s) as (l & Hl & _).
  rewrite Hl in Hm. injection Hm as <- <-.
  assert (s1 = s) as ->.
  { destruct released as [ex|]; [destruct (_ <? _); [done|]|]; by injection Hm0. }
  pose proof (Sequences_Reserve_keeps (new_reservation chainID source acct a0 ref) s Hs) as Hs'.
  rewrite H in Hs'. simpl in Hs'. split; [done|].
  apply Sequences_Reserve_ok in H as (Hx & Hcase); [|done].
  rewrite Hx. simpl. rewrite <-Hx. split_and!; try done.
  destruct Hcase as [(old & Ho & _ & Hr & Hxo & _ & ->)|(_ & _ & ->)].
  - change (st_sequences ?t) with (rows (R := SequenceReservation) t). rewrite rows_set.
    apply list_elem_of_fmap. exists old. split; [|done].
    unfold r_at. by rewrite Z.eqb_refl, bool_decide_eq_true_2.
  - change (st_sequences ?t) with (rows (R := SequenceReservation) t). rewrite rows_set.
    apply elem_of_app. right. by left.
Qed.


(** An account with chain sequence 4 and one open reservation at 5. *)
Definition ex_open : SequenceReservation :=
  MkReservation 1 "sovr-1" "sovr1src" 7 5 (MkWorkRef WorkSweep "j1") SequenceSigned 1 1.
Definition ex_seq_store : Store := set_rows [ex_open] (empty_store 9).


(** ** Idempotence *)

Lemma GetByWorkRef_eq ref s :
  with_tx (Sequences_GetByWorkRef ref) s =
  (match List.find (fun r => bool_decide (r_WorkRef r = ref)) (st_sequences s) with
   | Some r => Ok r | None => Err ErrNotFound end, s).
Proof. unfold with_tx, Sequences_GetByWorkRef, select_row. simpl. by destruct (List.find _ _). Qed.

Lemma work_ref_found s x :
  schema_ok s -> x ∈ st_sequences s ->
  List.find (fun r => bool_decide (r_WorkRef r = r_WorkRef x)) (st_sequences s) = Some x.
Proof.
  intros Hs Hx. destruct (so_sequences s Hs) as (_ & _ & Hw).
  apply (uniq_find work_key _ _ _ (r_WorkRef x)); [done..|].
  intros r. unfold work_key. rewrite bool_decide_eq_true. split; congruence.
Qed.

Lemma reserve_new_found (o : oracle) chainID source ref released s x :
  schema_ok s -> o_value (run o (reserve_new chainID source ref released) s) = Ok x ->
  List.find (fun r => bool_decide (r_WorkRef r = ref))
    (st_sequences (o_state (run o (reserve_new chainID source ref released) s))) = Some x.
Proof.
  intros Hs. unfold reserve_new. cbn [ask r_bind p_bind run].
  destruct (o _ (CAccount source)) as [[acct chainSeq]|e]; [|done].
  cbn [atomically p_bind run].
  destruct (with_tx (reserveTx _ _ _ _ _ _) s) as [[y|e] s1] eqn:Ht.
  - apply with_tx_ok in Ht. simpl. intros [= ->]. destruct (reserveTx_bound _ _ _ _ _ _ _ _ _ Hs Ht) as (Hs1 & Hin & <- & _).
    by apply work_ref_found.
  - apply with_tx_err in Ht as ->. destruct e; try done. cbn [stmt p_bind run]. rewrite GetByWorkRef_eq.
    destruct (List.find _ (st_sequences s)) eqn:Hf; [|done]. simpl. congruence.
Qed.

(** [Reserve] is idempotent per work item.  After a call that returned a
    live reservation, a second call for the same work item returns that very
    reservation, changes nothing and asks the chain nothing, whatever the
    chain would answer by then. *)
Theorem reserve_idempotent (o o' : oracle) (chainID source : string) (ref : WorkRef) (s s' : Store)
    (x : SequenceReservation)
    (Hs : schema_ok s)
    (Hv : o_value (run o (Reserve chainID source ref) s) = Ok x)
    (Hs' : o_state (run o (Reserve chainID source ref) s) = s')
    (Hl : r_Status x <> SequenceReleased) :
  run o' (Reserve chainID source ref) s' = Outcome (Ok x) s' [].
Proof.
  assert (negb (Valid (ref_Kind ref)) || empty (ref_ID ref) = false /\
    List.find (fun r => bool_decide (r_WorkRef r = ref)) (st_sequences s') = Some x) as [Hr Hf].
  { unfold Reserve in Hv, Hs'. destruct (_ || _); [done|]. split; [done|].
    cbn [stmt p_bind run] in Hv, Hs'. rewrite GetByWorkRef_eq in Hv, Hs'.
    destruct (List.find _ (st_sequences s)) as [ex|] eqn:Hex; [case_bool_decide|].
    - rewrite <-Hs'. by eapply reserve_new_found.
    - simpl in Hv, Hs'. congruence.
    - rewrite <-Hs'. by eapply reserve_new_found. }
  unfold Reserve. rewrite Hr. cbn [stmt p_bind run]. rewrite GetByWorkRef_eq, Hf.
  by rewrite bool_decide_eq_false_2.
Qed.

Lemma ex_seq_schema : schema_ok ex_seq_store.
Proof.
  apply (schema_set (R := SequenceReservation)); [apply empty_schema_ok|]. split_and!.
  - intros [|[|i]] r; [intros [= <-]; reflexivity | discriminate..].
  - intros [|[|i]] [|[|j]] r1 r2 k; try discriminate; reflexivity.
  - intros [|[|i]] [|[|j]] r1 r2 k; try discriminate; reflexivity.
Qed.

Definition account_at (n : Z) : answers :=
  MkAnswers (Ok (7, n)) (Err ErrClientNotFound) (Err ErrOther) (Err ErrOther) (Err ErrOther)
    (Err ErrOther) (Err ErrOther) (Err ErrOther) 0.

Lemma reserve_idempotent_witness :
  let ref := MkWorkRef WorkWithdrawal "w1" in
  let s' := o_state (run (answering (account_at 4)) (Reserve "sovr-1" "sovr1src" ref) ex_seq_store) in
  exists x, r_Sequence x = 6 /\
    run (answering (account_at 9)) (Reserve "sovr-1" "sovr1src" ref) s' = Outcome (Ok x) s' [].
Proof.
  eexists (MkReservation 2 "sovr-1" "sovr1src" 7 6 (MkWorkRef WorkWithdrawal "w1") SequenceReserved 9 9).
  split; [reflexivity|].
  apply (reserve_idempotent (answering (account_at 4)) (answering (account_at 9)) "sovr-1" "sovr1src"
           (MkWorkRef WorkWithdrawal "w1") ex_seq_store).
  - apply ex_seq_schema.
  - vm_compute. reflexivity.
  - reflexivity.
  - discriminate.
Defined.

(** ** Reconciliation *)

Section reconciliation.
Context (R : Store -> Store -> Prop).

(** The evidence on which [resolve] moves a reservation. *)
Definition evidence (r : SequenceReservation) (to : SequenceReservationStatus)
    (tr : list { X : Type & (call X * X)%type }) : Prop :=
  match to with
  | SequenceReleased =>
      r_Status r = SequenceReserved /\
      exists s1 h, workFacts (r_WorkRef r) s1 = (Ok (h, false), s1) /\
        (h = "" \/ exists a, existT _ (CTx h, a) ∈ tr /\ included a = false /\ lookup_failed a = false)
  | SequenceConsumed =>
      exists h info, existT _ (CTx h, Ok (Some info)) ∈ tr /\ 0 < ti_Height info
  | SequenceReconciliationRequired => True
  | _ => False
  end.

Lemma workFacts_state ref s r s' : workFacts ref s = (r, s') -> s' = s.
Proof.
  unfold workFacts, Withdrawals_Get, Sweeps_Get, tx_bind, select_row.
  destruct (ref_Kind ref); destruct (List.find _ _); by intros [= _ <-].
Qed.

Lemma resolve_absent_evidence r hasSigned s1 h tr :
  workFacts (r_WorkRef r) s1 = (Ok (h, hasSigned), s1) ->
  (h = "" \/ exists a, existT _ (CTx h, a) ∈ tr /\ included a = false /\ lookup_failed a = false) ->
  resolve_absent (r_Status r) hasSigned <> r_Status r ->
  evidence r (resolve_absent (r_Status r) hasSigned) tr.
Proof.
  intros Hw Hh Hne. destruct (r_Status r) eqn:Es; simpl in *; try done.
  destruct hasSigned; [done|]. split; [done|]. by exists s1, h.
Qed.

Lemma resolve_evidence r chainSeq s tr to s' :
  exec R (resolve r chainSeq) s tr to s' -> to <> r_Status r -> evidence r to tr.
Proof.
  intros H Hne. unfold resolve in H. inv_exec H.
  destruct a as [[h hasSigned]|e].
  2:{ inv_exec H. by subst to. }
  apply with_tx_ok in Hx. pose proof (workFacts_state _ _ _ _ Hx) as ->.
  destruct (empty h) eqn:Eh.
  { inv_exec H. subst to. apply bool_decide_eq_true in Eh.
    eapply resolve_absent_evidence; eauto. }
  inv_exec H.
  destruct (included a) eqn:Ei.
  { inv_exec H. subst to. destruct a as [[info|]|]; try done. simpl in Ei. apply Z.ltb_lt in Ei.
    exists h, info. split; [|done]. apply elem_of_app. right. by left. }
  destruct (lookup_failed a) eqn:Ef; inv_exec H; subst to; [done|].
  eapply resolve_absent_evidence; [done| |done]. right. exists a. split_and!; [|done..].
  apply elem_of_app. right. by left.
Qed.

Lemma evidence_mono r to tr tr' : (forall c, c ∈ tr -> c ∈ tr') -> evidence r to tr -> evidence r to tr'.
Proof.
  intros Hs. destruct to; simpl; try done.
  - intros (h & info & Hin & Hh). eauto.
  - intros (Hr & s1 & h & Hw & Hh). split; [done|]. exists s1, h. split; [done|].
    destruct Hh as [->|(a & Ha & Hi)]; [by left | right; eauto].
Qed.

(** One action: a legal move of a listed reservation, on evidence. *)
Definition justified (l : list SequenceReservation) (tr : list { X : Type & (call X * X)%type })
    (a : Action) : Prop :=
  exists r, r ∈ l /\ a = MkAction (r_ID r) (r_WorkRef r) (r_Sequence r) (r_Status r) (ac_To a) /\
    ac_To a ∈ sequenceTransitions (r_Status r) /\ evidence r (ac_To a) tr.

Lemma justified_mono l l' tr tr' a :
  (forall r, r ∈ l -> r ∈ l') -> (forall c, c ∈ tr -> c ∈ tr') ->
  justified l tr a -> justified l' tr' a.
Proof.
  intros Hl Ht (r & Hr & Ha & Hleg & He). exists r. split_and!; eauto using evidence_mono.
Qed.

Definition tally (to : SequenceReservationStatus) (acts : list Action) : Z :=
  Z.of_nat (List.length (List.filter (fun a => bool_decide (ac_To a = to)) acts)).

Definition extends (rep0 rep : Report) (acts : list Action) : Prop :=
  rp_Actions rep = rp_Actions rep0 ++ acts /\
  rp_Released rep = rp_Released rep0 + tally SequenceReleased acts /\
  rp_Consumed rep = rp_Consumed rep0 + tally SequenceConsumed acts /\
  rp_Quarantined rep = rp_Quarantined rep0 + tally SequenceReconciliationRequired acts.

Lemma extends_nil rep : extends rep rep [].
Proof. unfold extends, tally. simpl. rewrite app_nil_r. split_and!; [done|lia..]. Qed.
Lemma tally_cons to a acts :
  tally to (a :: acts) = (if bool_decide (ac_To a = to) then 1 else 0) + tally to acts.
Proof. unfold tally. simpl. case_bool_decide; simpl List.length; lia. Qed.
Lemma extends_action rep0 rep a acts :
  extends (count_action rep0 a) rep acts -> extends rep0 rep (a :: acts).
Proof.
  unfold extends, count_action. simpl. intros (-> & -> & -> & ->). rewrite !tally_cons.
  split_and!; [by rewrite <-app_assoc | lia..].
Qed.

Lemma reconcile_loop_justified l rep0 s tr rep e s' :
  exec R (reconcile_loop l rep0) s tr (rep, e) s' ->
  exists acts, extends rep0 rep acts /\ Forall (justified l tr) acts.
Proof.
  revert rep0 s tr. induction l as [|r l IH]; intros rep0 s tr H; cbn [reconcile_loop] in H.
  { destruct H as (-> & [= -> ->] & ->). exists []. split; [apply extends_nil|constructor]. }
  apply exec_bind in H as (to & s1 & tr1 & tr2 & -> & Hres & H).
  assert (forall rep0 s tr2, exec R (reconcile_loop l rep0) s tr2 (rep, e) s' ->
    exists acts, extends rep0 rep acts /\ Forall (justified (r :: l) (tr1 ++ tr2)) acts) as IH'.
  { intros rep1 s2 tr3 Hx. destruct (IH _ _ _ Hx) as (acts & He & Hf). exists acts.
    split; [done|]. eapply Forall_impl; [exact Hf|]. intros a. apply justified_mono.
    - intros r' Hr'. by right.
    - intros c Hc. apply elem_of_app. by right. }
  case_bool_decide as Hto; [by eapply IH'|].
  apply exec_bind in H as (upd & s2 & tr3 & tr4 & -> & Hupd & H).
  apply exec_stmt in Hupd as (-> & s3 & _ & Hupd). simpl in H.
  destruct upd as [[]|e'].
  - apply IH' in H as (acts & He & Hf).
    exists (MkAction (r_ID r) (r_WorkRef r) (r_Sequence r) (r_Status r) to :: acts).
    split; [by apply extends_action|]. constructor; [|done]. exists r.
    split_and!; [by left | done | |].
    + apply with_tx_ok in Hupd. rewrite Sequences_UpdateStatus_eq in Hupd.
      destruct (ValidateSequenceTransition _ _) eqn:Hv; [done|]. by apply sequence_legal.
    + eapply evidence_mono; [|eapply resolve_evidence; eauto].
      intros c Hc. apply elem_of_app. by left.
  - destruct e'; try (by eapply IH'); destruct H as (-> & [= -> ->] & ->);
      (exists []; split; [apply extends_nil|constructor]).
Qed.

End reconciliation.

(** A withdrawal without signed bytes whose reservation is still RESERVED. *)
Definition ex_unsigned : WithdrawalRecord :=
  MkWithdrawal "w1" "k1" "sovr-1" "sovr1src" "sovr1dst" BaseDenom 500 "" (Some 7) (Some 5) None None
    None SignModeDirect [] None None None "" WithdrawalSequenceReserved 1 1.
Definition ex_reserved : SequenceReservation :=
  MkReservation 1 "sovr-1" "sovr1src" 7 5 (MkWorkRef WorkWithdrawal "w1") SequenceReserved 1 1.
Definition ex_reserved_store : Store := set_rows [ex_unsigned] (set_rows [ex_reserved] (empty_store 9)).


(** The one decision that [sequenceTransitions] does not allow: a RESERVED
    reservation whose transaction is on chain is resolved to CONSUMED, which
    the repository refuses, so the whole pass stops with an illegal
    transition. *)
Definition tx_at (h : Z) : answers :=
  MkAnswers (Ok (7, 9)) (Ok (Some (MkTxInfo "AB" h 0 "" [] []))) (Err ErrOther) (Err ErrOther) (Err ErrOther)
    (Err ErrOther) (Err ErrOther) (Err ErrOther) 0.

Lemma reconcile_aborts_on_reserved_included (s : Store) (r : SequenceReservation) (w : WithdrawalRecord)
    (Hr : st_sequences s = [r]) (Hw : st_withdrawals s = [w])
    (Hk : r_WorkRef r = MkWorkRef WorkWithdrawal (w_WithdrawalID w))
    (Hst : r_Status r = SequenceReserved) (Hh : w_TxHash w = Some "AB") :
  let out := run (answering (tx_at 3)) (ReconcileAccount (r_ChainID r) (r_SourceAddress r)) s in
  snd (o_value out) = Some ErrIllegalTransition /\ o_state out = s.
Proof.
  unfold ReconcileAccount. simpl.
  unfold with_tx, Sequences_ListUnconsumed, select_where, tx_bind, tx_get, tx_ret. simpl.
  rewrite Hr. simpl. unfold unconsumed. rewrite Hst. rewrite !bool_decide_eq_true_2 by done. simpl.
  unfold with_tx, workFacts. rewrite Hk. simpl.
  unfold Withdrawals_Get, tx_bind, select_row. simpl. rewrite Hw. simpl.
  rewrite bool_decide_eq_true_2 by done. simpl. rewrite Hh. simpl. rewrite Hst. done.
Qed.

End Sequences.
