(* ===== verification/Interference.v ===== *)
(** * Interference: what the rest of the system can do to the database

    The workers of the kit share the database with each other and with the
    operator's commands.  [interference] is the most liberal account of that:
    any sequence of committed transactions made of repository methods, in any
    order and with any arguments, and any movement of the clock.  Theorems
    about one handler that quantify over executions under [interference] hold
    however the other workers are written, as long as they go through the
    repositories.  [persists] is what survives it: rows are never deleted, and
    the columns no method updates keep their values. *)

From stdpp Require Import base list strings relations.
From Stdlib Require Import ZArith Lia String.
From S2P Require Import Prelude Workers Text Storage Database SqlStore SqlLaws.
Import SqlStore SqlLaws.

Open Scope string_scope.
Open Scope list_scope.
Open Scope Z_scope.

Module Interference.

Definition set_now (t : Z) (s : Store) : Store :=
  let '(MkStore a b c d e f g h i j k m n o p _) := s in
  MkStore a b c d e f g h i j k m n o p t.

Definition interferes (s s' : Store) : Prop :=
  (exists t, s' = commit s t) \/ (exists t, s' = set_now t s).
Definition interference : Store -> Store -> Prop := rtc interferes.

Lemma interference_refl s : interference s s.
Proof. constructor. Qed.
Lemma eq_interference s s' : s = s' -> interference s s'.
Proof. intros <-. apply interference_refl. Qed.

Lemma set_now_schema t s : schema_ok s -> schema_ok (set_now t s).
Proof. destruct s. intros []. by split. Qed.

Lemma interference_schema s s' : interference s s' -> schema_ok s -> schema_ok s'.
Proof.
  induction 1 as [|s s1 s' [[t ->]|[t ->]] _ IH]; intros Hs; [done|..];
    apply IH; [by apply commit_schema | by apply set_now_schema].
Qed.

(** ** Relations that do not look at a table *)

Class Free (Q : Store -> Store -> Prop) (R : Type) `{Table R} : Prop :=
  free : forall l s, Q s (set_rows (R := R) l s).

Section statements.
Context (Q : Store -> Store -> Prop) `{!PreOrder Q}.

Lemma select_where_moves {R} `{Table R} (p : R -> bool) : preserves Q (select_where p).
Proof. intros s. reflexivity. Qed.
Lemma select_row_moves {R} `{Table R} (p : R -> bool) : preserves Q (select_row p).
Proof. intros s. unfold select_row. destruct (List.find p (rows s)); reflexivity. Qed.
Lemma insert_free {R} `{Free Q R} (mk : Z -> R) ixs : preserves Q (insert_row mk ixs).
Proof. intros s. unfold insert_row. destruct (violation _ _ _); [reflexivity | apply free]. Qed.
Lemma update_free {R} `{Free Q R} (p : R -> bool) f : preserves Q (update_where p f).
Proof. intros s. apply free. Qed.
Lemma update_unique_free {R} `{Free Q R} (p : R -> bool) f ix : preserves Q (update_unique p f ix).
Proof. intros s. unfold update_unique. destruct (existsb _ _); [reflexivity | apply free]. Qed.
Lemma upsert_free {R} `{Free Q R} (p : R -> bool) f new : preserves Q (upsert_row p f new).
Proof. intros s. unfold upsert_row. simpl. destruct (existsb _ _); apply free. Qed.
End statements.

(** Decompose a method whose statements are on tables the relation is free
    of. *)
Ltac free_step :=
  first
    [ apply select_where_moves; typeclasses eauto | apply select_row_moves; typeclasses eauto
    | apply insert_free; typeclasses eauto | apply update_free; typeclasses eauto
    | apply update_unique_free; typeclasses eauto | apply upsert_free; typeclasses eauto
    | apply preserves_ret | apply preserves_fail | apply preserves_get
    | apply preserves_require | apply preserves_check | apply preserves_of
    | apply preserves_with_tx | apply preserves_try
    | apply preserves_bind; [typeclasses eauto| |intros ?]
    | apply preserves_for; [typeclasses eauto|intros ?]
    | match goal with |- preserves _ (match ?x with _ => _ end) => destruct x end
    | match goal with |- preserves _ (if ?x then _ else _) => destruct x end
    | match goal with |- PreOrder _ => typeclasses eauto end ].
Ltac free_steps := repeat free_step.

(** ** Withdrawal requests persist *)

(** The columns of a withdrawal no method updates. *)
Definition request_of (w : WithdrawalRecord) :=
  (w_WithdrawalID w, w_IdempotencyKey w, w_ChainID w, w_SourceAddress w, w_DestinationAddress w,
   w_Denom w, w_AmountBaseUnits w, w_Memo w).

Definition persists (s s' : Store) : Prop :=
  forall w, w ∈ st_withdrawals s -> exists w', w' ∈ st_withdrawals s' /\ request_of w' = request_of w.

#[export] Instance persists_preorder : PreOrder persists.
Proof.
  split.
  - intros s w Hw. eauto.
  - intros a b c Hab Hbc w Hw. destruct (Hab w Hw) as (w1 & H1 & E1).
    destruct (Hbc w1 H1) as (w2 & H2 & E2). exists w2. split; congruence.
Qed.

Ltac frees := intros ? []; intros w Hw; exists w; split; [exact Hw | reflexivity].

#[export] Instance persists_ledger : Free persists LedgerEntry.  Proof. frees. Qed.
#[export] Instance persists_feeOutflow : Free persists FeeOutflow.  Proof. frees. Qed.
#[export] Instance persists_spend : Free persists FeeFundingSpend.  Proof. frees. Qed.
#[export] Instance persists_deposits : Free persists DepositRecord.  Proof. frees. Qed.
#[export] Instance persists_checkpoints : Free persists ScannerCheckpoint.  Proof. frees. Qed.
#[export] Instance persists_sequences : Free persists SequenceReservation.  Proof. frees. Qed.
#[export] Instance persists_sweeps : Free persists SweepJob.  Proof. frees. Qed.
#[export] Instance persists_watched : Free persists WatchedAddress.  Proof. frees. Qed.
#[export] Instance persists_controls : Free persists OperationalControls.  Proof. frees. Qed.
#[export] Instance persists_audit : Free persists ControlsAuditEntry.  Proof. frees. Qed.
#[export] Instance persists_chainReviews : Free persists ChainReviewCondition.  Proof. frees. Qed.
#[export] Instance persists_reviews : Free persists ReviewItem.  Proof. frees. Qed.
#[export] Instance persists_reports : Free persists ReconciliationReport.  Proof. frees. Qed.
#[export] Instance persists_outbox : Free persists OutboxEvent.  Proof. frees. Qed.

Lemma insert_persists (mk : Z -> WithdrawalRecord) ixs : preserves persists (insert_row mk ixs).
Proof.
  intros s. unfold insert_row. destruct (violation _ _ _); [reflexivity|]. intros w Hw. exists w.
  split; [|done]. cbn [snd].
  change (st_withdrawals (set_rows ?l ?t)) with (rows (R := WithdrawalRecord) (set_rows l t)).
  rewrite rows_set. apply elem_of_app. by left.
Qed.

Lemma update_persists p (f : WithdrawalRecord -> WithdrawalRecord) :
  (forall w, request_of (f w) = request_of w) -> preserves persists (update_where p f).
Proof.
  intros Hf s w Hw. exists (if p w then f w else w). split; [|by destruct (p w)].
  cbn [snd update_where].
  change (st_withdrawals (set_rows ?l ?t)) with (rows (R := WithdrawalRecord) (set_rows l t)).
  rewrite rows_set. apply list_elem_of_fmap. by exists w.
Qed.

Lemma exec_op_persists o : preserves persists (exec_op o).
Proof.
  destruct o; simpl; unfold void, Ledger_Append, Ledger_AppendFeeOutflow,
    Ledger_AppendFeeFundingSpend, Deposits_Insert, Deposits_UpdateStatus, Deposits_GetByID,
    Checkpoints_Set, Withdrawals_Create, Withdrawals_UpdateStatus, Withdrawals_Get,
    Sequences_Reserve, Sequences_UpdateStatus, Sweeps_Create, Sweeps_UpdateStatus, Sweeps_Get,
    Watch_Upsert, Watch_SetActive, Controls_Apply, Controls_Get, getControls, Review_Open,
    Review_Resolve, Review_Get, ChainReview_Open, ChainReview_Resolve, ChainReview_Get,
    Recon_SaveReport, Outbox_Enqueue, Outbox_MarkDispatched, fmtTime, require_rows; free_steps.
  - apply insert_persists.
  - by apply update_persists.
Qed.

Lemma interference_persists s s' : interference s s' -> persists s s'.
Proof.
  induction 1 as [|s s1 s' [[t ->]|[t ->]] _ IH]; [reflexivity|..]; (etransitivity; [|exact IH]).
  - apply (preserves_with_tx persists).
    apply preserves_for; [typeclasses eauto | apply exec_op_persists].
  - destruct s. intros w Hw. eauto.
Qed.

End Interference.
