(* ===== verification/Journals.v ===== *)
(** * Journals: the append-only tables

    The ledger, the fee outflows and the fee-wallet spends are only ever
    appended to, and every amount in them is non-negative.  [journals] says
    what becomes of the three under the interference of any workers; the sums
    the kit computes over them never shrink. *)

From stdpp Require Import base list strings relations.
From Stdlib Require Import ZArith Lia String.
From S2P Require Import Prelude Workers Text Storage Database SqlStore SqlLaws Interference.
Import SqlStore SqlLaws Interference.

Open Scope string_scope.
Open Scope list_scope.
Open Scope Z_scope.

Module Journals.

(** [l'] is [l] with rows of non-negative amount appended. *)
Definition grows {R} (amount : R -> Z) (l l' : list R) : Prop :=
  exists k, l' = l ++ k /\ Forall (fun r => 0 <= amount r) k.

Lemma grows_refl {R} amount (l : list R) : grows amount l l.
Proof. exists []. by rewrite app_nil_r. Qed.
Lemma grows_trans {R} amount (a b c : list R) : grows amount a b -> grows amount b c -> grows amount a c.
Proof. intros (k & -> & Hk) (m & -> & Hm). exists (k ++ m). rewrite app_assoc. split; [done|]. by apply Forall_app. Qed.

Record journals (s s' : Store) : Prop := Journals {
  jn_ledger : grows e_AmountBaseUnits (st_ledger s) (st_ledger s');
  jn_fees : grows fo_FeeBaseUnits (st_feeOutflows s) (st_feeOutflows s');
  jn_spends : grows fs_AmountBaseUnits (st_feeFundingSpends s) (st_feeFundingSpends s') }.

#[export] Instance journals_preorder : PreOrder journals.
Proof.
  split; [intros s; split; apply grows_refl|].
  intros a b c [] []. split; eapply grows_trans; eauto.
Qed.

Local Ltac still := intros ? []; split; apply grows_refl.
#[export] Instance journals_deposits : Free journals DepositRecord.  Proof. still. Qed.
#[export] Instance journals_checkpoints : Free journals ScannerCheckpoint.  Proof. still. Qed.
#[export] Instance journals_withdrawals : Free journals WithdrawalRecord.  Proof. still. Qed.
#[export] Instance journals_sequences : Free journals SequenceReservation.  Proof. still. Qed.
#[export] Instance journals_sweeps : Free journals SweepJob.  Proof. still. Qed.
#[export] Instance journals_watched : Free journals WatchedAddress.  Proof. still. Qed.
#[export] Instance journals_controls : Free journals OperationalControls.  Proof. still. Qed.
#[export] Instance journals_audit : Free journals ControlsAuditEntry.  Proof. still. Qed.
#[export] Instance journals_chainReviews : Free journals ChainReviewCondition.  Proof. still. Qed.
#[export] Instance journals_reviews : Free journals ReviewItem.  Proof. still. Qed.
#[export] Instance journals_reports : Free journals ReconciliationReport.  Proof. still. Qed.
#[export] Instance journals_outbox : Free journals OutboxEvent.  Proof. still. Qed.

Lemma amountText_valid v b a : amountText v b = Ok a -> 0 <= v.
Proof. unfold amountText. destruct (Z.ltb_spec v 0); [done|lia]. Qed.

Lemma insert_journals {R} `{Table R} (mk : Z -> R) ixs :
  (forall s id, journals s (set_rows (rows s ++ [mk id]) s)) -> preserves journals (insert_row mk ixs).
Proof. intros Hm s. unfold insert_row. destruct (violation _ _ _); [reflexivity | apply Hm]. Qed.

(** The rest of a method once its amount was found to be valid. *)
Lemma amount_then {A} v b (f : string -> db A) :
  (0 <= v -> forall a, preserves journals (f a)) -> preserves journals (tx_bind (tx_of (amountText v b)) f).
Proof.
  intros Hf s. unfold tx_bind, tx_of. destruct (amountText v b) as [a|] eqn:E; [|reflexivity].
  apply Hf. by eapply amountText_valid.
Qed.

Local Ltac append :=
  repeat first [ apply amount_then; intros ? ? | free_step ];
  apply insert_journals; intros [] ?; split; try apply grows_refl; eexists; split; [reflexivity|];
  (constructor; [done|constructor]).

Lemma Ledger_Append_journals e : preserves journals (Ledger_Append e).
Proof. unfold Ledger_Append, fmtTime. append. Qed.
Lemma AppendFeeOutflow_journals f : preserves journals (Ledger_AppendFeeOutflow f).
Proof. unfold Ledger_AppendFeeOutflow, fmtTime. append. Qed.
Lemma AppendFeeFundingSpend_journals f : preserves journals (Ledger_AppendFeeFundingSpend f).
Proof. unfold Ledger_AppendFeeFundingSpend, fmtTime. append. Qed.

Lemma exec_op_journals o : preserves journals (exec_op o).
Proof.
  destruct o; simpl; unfold void;
    first [ apply preserves_bind; [apply _|apply Ledger_Append_journals|intros ?; apply preserves_ret, _]
          | apply preserves_bind; [apply _|apply AppendFeeOutflow_journals|intros ?; apply preserves_ret, _]
          | apply preserves_bind; [apply _|apply AppendFeeFundingSpend_journals|intros ?; apply preserves_ret, _]
          | unfold Deposits_Insert, Deposits_UpdateStatus, Deposits_GetByID,
              Checkpoints_Set, Withdrawals_Create, Withdrawals_UpdateStatus, Withdrawals_Get,
              Sequences_Reserve, Sequences_UpdateStatus, Sweeps_Create, Sweeps_UpdateStatus, Sweeps_Get,
              Watch_Upsert, Watch_SetActive, Controls_Apply, Controls_Get, getControls, Review_Open,
              Review_Resolve, Review_Get, ChainReview_Open, ChainReview_Resolve, ChainReview_Get,
              Recon_SaveReport, Outbox_Enqueue, Outbox_MarkDispatched, fmtTime, require_rows; solve [free_steps] ].
Qed.

Lemma interference_journals s s' : interference s s' -> journals s s'.
Proof.
  induction 1 as [|s s1 s' [[t ->]|[t ->]] _ IH]; [reflexivity|..]; (etransitivity; [|exact IH]).
  - apply (preserves_with_tx journals).
    apply preserves_for; [typeclasses eauto | apply exec_op_journals].
  - destruct s. split; apply grows_refl.
Qed.

(** ** Sums *)

Lemma sumZ_from l n : fold_left Z.add l n = n + sumZ l.
Proof.
  unfold sumZ. revert n. induction l as [|a l IH]; intros n; cbn [fold_left]; [lia|].
  rewrite (IH (n + a)), (IH (0 + a)). lia.
Qed.
Lemma sumZ_cons a l : sumZ (a :: l) = a + sumZ l.
Proof. unfold sumZ at 1. cbn [fold_left]. rewrite sumZ_from. lia. Qed.
Lemma sumZ_app l1 l2 : sumZ (l1 ++ l2) = sumZ l1 + sumZ l2.
Proof. induction l1 as [|a l1 IH]; simpl; [done|]. rewrite !sumZ_cons, IH. lia. Qed.
Lemma sumZ_nonneg l : Forall (fun v => 0 <= v) l -> 0 <= sumZ l.
Proof. induction 1 as [|v l Hv _ IH]; [done|]. rewrite sumZ_cons. lia. Qed.
Lemma sumZ_perm l l' : l ≡ₚ l' -> sumZ l = sumZ l'.
Proof. induction 1; rewrite ?sumZ_cons; lia || congruence. Qed.

(** The sum over the rows that satisfy [p]. *)
Definition sum_where {R} (amount : R -> Z) (p : R -> bool) (l : list R) : Z :=
  sumZ (map amount (List.filter p l)).

Lemma sum_where_app {R} amount (p : R -> bool) l k :
  sum_where amount p (l ++ k) = sum_where amount p l + sum_where amount p k.
Proof. unfold sum_where. by rewrite List.filter_app, map_app, sumZ_app. Qed.

Lemma sum_where_grows {R} amount (p : R -> bool) l l' :
  grows amount l l' -> sum_where amount p l <= sum_where amount p l'.
Proof.
  intros (k & -> & Hk). rewrite sum_where_app. enough (0 <= sum_where amount p k) by lia.
  apply sumZ_nonneg, Forall_forall. intros v (r & -> & Hr)%list_elem_of_fmap.
  apply list_elem_of_In, List.filter_In in Hr as [Hr _]. rewrite Forall_forall in Hk. apply Hk. by apply list_elem_of_In.
Qed.

End Journals.
