(* ===== verification/Withdrawals.v ===== *)
(** * Withdrawals: the withdrawal workflow and broadcaster

    [go/withdrawals/workflow.go], [verify.go] and [broadcast.go].  Each method
    of [Workflow] is a handler: its database transactions, its calls to the
    node and the signer, and every early return, in the order of the code.
    A method returning [error] returns [result err unit]; [Broadcast],
    [Confirm] and [Recover] return the outcome together with the error.  The
    [AcquireAccountLock] calls are the serialization that makes a transaction
    atomic here.  Review reasons are abbreviated; logging and metrics are left
    out. *)

From stdpp Require Import base list strings gmap.
From Stdlib Require Import ZArith Lia String Strings.Byte.
From S2P Require Import Prelude Workers Text Storage Database SqlStore SqlLaws Hash Chain.
From S2P Require Import Address Tx Fees Sequences.
Import SqlStore.

Open Scope string_scope.
Open Scope list_scope.
Open Scope Z_scope.

Module Withdrawals.

Inductive SimulatePolicy : Type := SimulateQueue | SimulateStatic.

Record Config : Type := MkConfig {
  cfg_ChainID : string;
  cfg_MinimumWithdrawalUsovr : string;
  cfg_MaxFeeUsovr : string;
  cfg_GasAdjustment : string;
  cfg_GasPriceUsovr : string;
  cfg_SimulateUnavailable : option SimulatePolicy;   (* None: neither constant *)
  cfg_StaticGasLimit : Z;
  cfg_BroadcastTimeout : Z;
  cfg_Confirmations : Z;
  cfg_ProhibitedDestinations : list string;
  cfg_KeyRefForSource : option (string -> string) }.

Record parsedConfig : Type := MkParsed {
  p_minWithdrawal : Z; p_maxFee : Z; p_gasAdjustment : Fees.decimal; p_gasPrice : Fees.decimal }.

Record Workflow : Type := MkWorkflow { wf_cfg : Config; wf_pcfg : parsedConfig; wf_deny : gset string }.

Record Request : Type := MkRequest {
  rq_WithdrawalID : string; rq_IdempotencyKey : string; rq_SourceAddress : string;
  rq_DestinationAddress : string; rq_AmountBaseUnits : string; rq_Memo : string }.

(** The eight FR-035 distinctions. *)
Inductive Outcome : Type :=
| OutcomeEncodingFailed | OutcomeSignatureFailed | OutcomeCheckTxRejected | OutcomeMempoolAccepted
| OutcomeIncluded | OutcomeExecSuccess | OutcomeExecFailed | OutcomeUnknownTimeout.

Section workflow.
Context `{X : Ext}.

Definition parseBaseUnits (s : string) : result err Z :=
  if bool_decide (s = "") || negb (Tx.is_digits (chars s)) then Err ErrOther
  else match NewIntFromString s with Some n => Ok n | None => Err ErrOther end.

Definition parse (c : Config) : result err parsedConfig :=
  if empty (cfg_ChainID c) then Err ErrInvalidRequest
  else
    match parseBaseUnits (cfg_MinimumWithdrawalUsovr c), parseBaseUnits (cfg_MaxFeeUsovr c),
          Fees.parseDecimal (cfg_GasAdjustment c), Fees.parseDecimal (cfg_GasPriceUsovr c) with
    | Ok mn, Ok mx, Ok adj, Ok price =>
        if Fees.isZero adj then Err ErrOther
        else match cfg_SimulateUnavailable c with
             | None => Err ErrOther
             | Some pol =>
                 if match pol with SimulateStatic => cfg_StaticGasLimit c =? 0 | SimulateQueue => false end
                 then Err ErrOther
                 else if cfg_Confirmations c =? 0 then Err ErrOther
                 else Ok (MkParsed mn mx adj price)
             end
    | _, _, _, _ => Err ErrOther
    end.

Definition with_timeout (c : Config) : Config :=
  MkConfig (cfg_ChainID c) (cfg_MinimumWithdrawalUsovr c) (cfg_MaxFeeUsovr c) (cfg_GasAdjustment c)
    (cfg_GasPriceUsovr c) (cfg_SimulateUnavailable c) (cfg_StaticGasLimit c)
    (if cfg_BroadcastTimeout c <=? 0 then 15 * 10 ^ 9 else cfg_BroadcastTimeout c)
    (cfg_Confirmations c) (cfg_ProhibitedDestinations c) (cfg_KeyRefForSource c).

(** Durations in nanoseconds. *)
Definition New (c : Config) : result err Workflow :=
  match parse c with
  | Err e => Err e
  | Ok p => Ok (MkWorkflow (with_timeout c) p (Address.NewPSet (cfg_ProhibitedDestinations c)))
  end.

Context (w : Workflow).
Notation cfg := (wf_cfg w).
Notation pcfg := (wf_pcfg w).

Definition withdrawal_ref (id : string) : WorkRef := MkWorkRef WorkWithdrawal id.

(** The review row a quarantine opens. *)
Definition review_item (chainID id reason : string) : ReviewItem :=
  MkReviewItem 0 chainID ReviewKindWithdrawal id reason 0 None "".

Definition quarantineTx (id : string) (from : WithdrawalStatus) (reason : string) : db unit :=
  do_ Withdrawals_UpdateStatus id from WithdrawalReviewRequired no_withdrawal_update;
  do_ Review_Open (review_item (cfg_ChainID cfg) id reason);
  tx_ret tt.

(** [ErrQuarantined], or the error of the transaction. *)
Definition quarantine (id : string) (from : WithdrawalStatus) (reason : string)
    : handler (result err unit) :=
  let? _ := atomically (quarantineTx id from reason) in Done (Err ErrQuarantined).

Definition quarantinePostSignatureTx (id : string) (from : WithdrawalStatus) (reservationID : Z)
    (reason : string) : db unit :=
  do_ Withdrawals_UpdateStatus id from WithdrawalReviewRequired no_withdrawal_update;
  do_ Sequences_UpdateStatus reservationID SequenceReserved SequenceReconciliationRequired;
  do_ Review_Open (review_item (cfg_ChainID cfg) id reason);
  tx_ret tt.

Definition quarantinePostSignature (id : string) (from : WithdrawalStatus) (reservationID : Z)
    (reason : string) : handler (result err unit) :=
  let? _ := atomically (quarantinePostSignatureTx id from reservationID reason) in
  Done (Err ErrQuarantined).

(** ** The pre-sign steps *)

Definition submitted (req : Request) (amount : Z) : WithdrawalRecord :=
  MkWithdrawal (rq_WithdrawalID req) (rq_IdempotencyKey req) (cfg_ChainID cfg) (rq_SourceAddress req)
    (rq_DestinationAddress req) BaseDenom amount (rq_Memo req) None None None None None
    SignModeDirect [] None None None "" WithdrawalRequested 0 0.

Definition Submit (req : Request) : handler (result err WithdrawalRecord) :=
  if empty (rq_WithdrawalID req) || empty (rq_IdempotencyKey req) then Done (Err ErrInvalidRequest)
  else
    match parseBaseUnits (rq_AmountBaseUnits req) with
    | Err _ => Done (Err ErrInvalidRequest)
    | Ok amount =>
        if amount <=? 0 then Done (Err ErrInvalidRequest)
        else
          let* rec := stmt (Withdrawals_Create (submitted req amount)) in
          match rec with
          | Ok rec => Done (Ok rec)
          | Err ErrDuplicate =>
              let* orig := stmt (Withdrawals_GetByIdempotencyKey (rq_IdempotencyKey req)) in
              match orig with
              | Ok orig => Done (Ok orig)
              | Err _ => Done (Err ErrDuplicate)
              end
          | Err e => Done (Err e)
          end
    end.

(** A valid address in normalized form. *)
Definition canonical_address (res : Address.ValidationResult) (addr : string) : bool :=
  Address.vr_Valid res && bool_decide (Address.vr_NormalizedAddress res = addr).

Definition ValidateAddress (id : string) : handler (result err unit) :=
  let? rec := stmt (Withdrawals_Get id) in
  if negb (canonical_address
       (Address.ValidateAccountAddressStrict (w_DestinationAddress rec) (wf_deny w))
       (w_DestinationAddress rec))
  then quarantine (w_WithdrawalID rec) (w_Status rec) "destination rejected"
  else if negb (canonical_address (Address.ValidateAccountAddress (w_SourceAddress rec))
                  (w_SourceAddress rec))
  then quarantine (w_WithdrawalID rec) (w_Status rec) "source rejected"
  else stmt (Withdrawals_UpdateStatus id WithdrawalRequested WithdrawalAddressValidated
               no_withdrawal_update).

Definition ApproveCompliance (id : string) : handler (result err unit) :=
  stmt (Withdrawals_UpdateStatus id WithdrawalAddressValidated WithdrawalComplianceApproved
          no_withdrawal_update).

(** The critical section of [ReserveFunds]. *)
Definition reserveFundsTx (id : string) (rec : WithdrawalRecord) (balance : Z) : db unit :=
  let thisReservation := w_AmountBaseUnits rec + p_maxFee pcfg in
  do cs <- Withdrawals_SumCommittedBySource (w_ChainID rec) (w_SourceAddress rec);
  let committed := snd cs + p_maxFee pcfg * fst cs in
  do_ tx_require (negb (balance <? committed + thisReservation)) ErrInsufficientSpendable;
  Withdrawals_UpdateStatus id WithdrawalComplianceApproved WithdrawalFundsReserved
    no_withdrawal_update.

Definition ReserveFunds (id : string) : handler (result err unit) :=
  let? rec := stmt (Withdrawals_Get id) in
  if negb (bool_decide (w_Status rec = WithdrawalComplianceApproved)) then
    if bool_decide (w_Status rec = WithdrawalAddressValidated) then Done (Err ErrAwaitingCompliance)
    else Done (Err ErrStatusConflict)
  else if w_AmountBaseUnits rec <? p_minWithdrawal pcfg then Done (Err ErrBelowMinimum)
  else
    let? balance := ask (CBalance (w_SourceAddress rec) BaseDenom) in
    atomically (reserveFundsTx id rec balance).

Definition sequence_update (r : SequenceReservation) : WithdrawalUpdate :=
  MkWithdrawalUpdate (Some (r_AccountNumber r)) (Some (r_Sequence r)) None None None [] None None
    None None.

Definition ReserveSequence (id : string) : handler (result err unit) :=
  let? rec := stmt (Withdrawals_Get id) in
  let* res := Sequences.Reserve (w_ChainID rec) (w_SourceAddress rec)
                (withdrawal_ref (w_WithdrawalID rec)) in
  match res with
  | Err ErrReleasedSlotUnusable =>
      quarantine (w_WithdrawalID rec) (w_Status rec) "released slot unusable"
  | Err e => Done (Err e)
  | Ok res => stmt (Withdrawals_UpdateStatus id WithdrawalFundsReserved WithdrawalSequenceReserved
                      (sequence_update res))
  end.

(** [rec.AmountBaseUnits.String()] *)
Definition build_for (rec : WithdrawalRecord) : result Tx.error Tx.UnsignedTx :=
  Tx.BuildMsgSend (w_SourceAddress rec) (w_DestinationAddress rec)
    (Tx.FormatUint (w_AmountBaseUnits rec)) (w_Memo rec).

Definition Build (id : string) : handler (result err unit) :=
  let? rec := stmt (Withdrawals_Get id) in
  match build_for rec with
  | Err _ => quarantine (w_WithdrawalID rec) (w_Status rec) "build rejected"
  | Ok _ => stmt (Withdrawals_UpdateStatus id WithdrawalSequenceReserved WithdrawalTransactionBuilt
                    no_withdrawal_update)
  end.

Definition keyRef (source : string) : string :=
  match cfg_KeyRefForSource cfg with Some f => f source | None => source end.

Definition senderPubKey (source : string) : handler (result err bytes) :=
  let* res := ask (CGetPublicKey (keyRef source)) in
  match res with
  | Ok k => Done (Ok k)
  | Err ErrSignerDown => Done (Err ErrSignerUnavailable)
  | Err _ => Done (Err ErrOther)
  end.

Definition provisionalGas : Z :=
  if cfg_StaticGasLimit cfg =? 0 then 200000 else cfg_StaticGasLimit cfg.

Definition of_tx {A} (r : result Tx.error A) : result err A :=
  match r with Ok a => Ok a | Err _ => Err ErrOther end.

(** The unsigned TxRaw with an empty signature. *)
Definition simulation_bytes (rec : WithdrawalRecord) (u : Tx.UnsignedTx) (acct seq : Z)
    (pubKey : bytes) : result err bytes :=
  match Tx.SignDoc u (w_ChainID rec) acct seq (Tx.MkFee "0" provisionalGas) pubKey with
  | Err _ => Err ErrOther
  | Ok (signDocBytes, _, _) =>
      match unmarshalSignDoc signDocBytes with
      | None => Err ErrOther
      | Some doc => marshalTxRaw (sd_BodyBytes doc) (sd_AuthInfoBytes doc) [[]]
      end
  end.

Definition simulationTxBytes (rec : WithdrawalRecord) (acct seq : Z) : handler (result err bytes) :=
  match build_for rec with
  | Err _ => Done (Err ErrOther)
  | Ok u =>
      let? pubKey := senderPubKey (w_SourceAddress rec) in
      Done (simulation_bytes rec u acct seq pubKey)
  end.

Definition gas_update (gasWanted gasLimit fee : Z) : WithdrawalUpdate :=
  MkWithdrawalUpdate None None (Some gasWanted) (Some gasLimit) (Some fee) [] None None None None.

(** The tail of [Simulate]: fee bound, then the status write. *)
Definition simulateFinish (id : string) (rec : WithdrawalRecord) (gasWanted gasLimit : Z)
    : handler (result err unit) :=
  let fee := Fees.feeFor gasLimit (p_gasPrice pcfg) in
  if p_maxFee pcfg <? fee then
    let* q := quarantine (w_WithdrawalID rec) (w_Status rec) "fee exceeds max_fee_usovr" in
    match q with
    | Err e => if bool_decide (e = ErrQuarantined) then Done (Err ErrFeeExceedsMax) else Done (Err e)
    | Ok _ => Done (Err ErrFeeExceedsMax)
    end
  else stmt (Withdrawals_UpdateStatus id WithdrawalTransactionBuilt WithdrawalTransactionSimulated
               (gas_update gasWanted gasLimit fee)).

Definition Simulate (id : string) : handler (result err unit) :=
  let? rec := stmt (Withdrawals_Get id) in
  if negb (bool_decide (w_Status rec = WithdrawalTransactionBuilt)) then Done (Err ErrStatusConflict)
  else
    match w_AccountNumber rec, w_Sequence rec with
    | Some acct, Some seq =>
        let* sim := simulationTxBytes rec acct seq in
        match sim with
        | Err ErrSignerUnavailable => Done (Err ErrSignerUnavailable)
        | Err _ => quarantine (w_WithdrawalID rec) (w_Status rec) "simulation encoding failed"
        | Ok simTxBytes =>
            let* simRes := ask (CSimulate simTxBytes) in
            match simRes with
            | Ok r =>
                match Fees.gasLimitFor (sr_GasUsed r) (p_gasAdjustment pcfg) with
                | Err _ => quarantine (w_WithdrawalID rec) (w_Status rec) "gas adjustment failed"
                | Ok gasLimit => simulateFinish id rec (sr_GasUsed r) gasLimit
                end
            | Err ErrSimulateUnavailable =>
                match cfg_SimulateUnavailable cfg with
                | Some SimulateQueue => Done (Err ErrSimulationUnavailable)
                | _ => simulateFinish id rec (cfg_StaticGasLimit cfg) (cfg_StaticGasLimit cfg)
                end
            | Err e => Done (Err e)
            end
        end
    | _, _ => Done (Err ErrInvalidRecord)
    end.

(** ** Signing *)

Definition VerifySignedResponse (signDocBytes : bytes) (resp : SigningResponse)
    (expectedSender : string) : option err :=
  if bool_decide (signDocBytes = []) then Some ErrSignatureInvalid
  else if negb (Tx.compressed (sp_PubKeyCompressed resp)) then Some ErrWrongSigningKey
  else if negb (List.length (sp_Signature resp) =? 64)%nat then Some ErrSignatureInvalid
  else if negb (pubkey_VerifySignature (sp_PubKeyCompressed resp) signDocBytes (sp_Signature resp))
       then Some ErrSignatureInvalid
  else
    let res := Address.ValidateAccountAddress expectedSender in
    if negb (Address.vr_Valid res) then Some ErrWrongSigningKey
    else match bech32_DecodeAndConvert (Address.vr_NormalizedAddress res) with
         | Err _ => Some ErrWrongSigningKey
         | Ok (_, senderBytes) =>
             if bool_decide (pubkey_Address (sp_PubKeyCompressed resp) = senderBytes) then None
             else Some ErrWrongSigningKey
         end.

(** The compared fields with the document's and the approved value. *)
Definition summary_checks (rec : WithdrawalRecord) (fee seq acct : Z) (s : SigningSummary)
    : list (string * string * string) :=
  [("chain_id", ss_ChainID s, cfg_ChainID cfg);
   ("record_chain_id", ss_ChainID s, w_ChainID rec);
   ("sender", ss_SenderAddress s, w_SourceAddress rec);
   ("recipient", ss_RecipientAddress s, w_DestinationAddress rec);
   ("amount", ss_AmountBaseUnits s, Tx.FormatUint (w_AmountBaseUnits rec));
   ("denom", ss_Denom s, w_Denom rec);
   ("memo", ss_Memo s, w_Memo rec);
   ("fee", ss_FeeBaseUnits s, Tx.FormatUint fee);
   ("sequence", ss_Sequence s, Tx.FormatUint seq);
   ("account_number", ss_AccountNumber s, Tx.FormatUint acct);
   ("message_type", ss_MessageType s, MsgTypeBankSend)].

(** The first field that differs. *)
Definition summaryMismatch (rec : WithdrawalRecord) (fee seq acct : Z) (s : SigningSummary)
    : option string :=
  option_map (fun c => c.1.1)
    (List.find (fun c => negb (bool_decide (c.1.2 = c.2))) (summary_checks rec fee seq acct s)).

Definition signed_update (signed : bytes) (txHash : string) : WithdrawalUpdate :=
  MkWithdrawalUpdate None None None None None signed (Some txHash) None None None.

Definition signTx (id : string) (reservationID : Z) (signed : bytes) (txHash : string) : db unit :=
  do_ Withdrawals_UpdateStatus id WithdrawalTransactionSimulated WithdrawalSigned
        (signed_update signed txHash);
  Sequences_UpdateStatus reservationID SequenceReserved SequenceSigned.

(** From the sign doc to the persisted transaction. *)
Definition signAndPersist (id : string) (rec : WithdrawalRecord) (res : SequenceReservation)
    (signDocBytes : bytes) (summary : SigningSummary) (u : Tx.UnsignedTx)
    : handler (result err unit) :=
  let* sigRes := ask (CSign (MkSigningRequest (keyRef (w_SourceAddress rec)) SignModeDirect
                               signDocBytes summary)) in
  match sigRes with
  | Err ErrSignerDown => Done (Err ErrSignerUnavailable)
  | Err _ => quarantine (w_WithdrawalID rec) (w_Status rec) "signer refused"
  | Ok sigRes =>
      match VerifySignedResponse signDocBytes sigRes (w_SourceAddress rec) with
      | Some _ => quarantinePostSignature (w_WithdrawalID rec) (w_Status rec) (r_ID res)
                    "signed response verification failed"
      | None =>
          match Tx.Assemble u (Tx.MkSignature (sp_Signature sigRes) (sp_PubKeyCompressed sigRes)) with
          | Err _ => quarantinePostSignature (w_WithdrawalID rec) (w_Status rec) (r_ID res)
                       "assembly failed"
          | Ok (signedTxBytes, txHash) => atomically (signTx id (r_ID res) signedTxBytes txHash)
          end
      end
  end.

Definition Sign (id : string) : handler (result err unit) :=
  let? rec := stmt (Withdrawals_Get id) in
  if negb (bool_decide (w_Status rec = WithdrawalTransactionSimulated))
  then Done (Err ErrStatusConflict)
  else
    let? controls := stmt (Controls_Get (w_ChainID rec)) in
    if oc_SigningPaused controls then Done (Err ErrPaused)
    else
      let? res := stmt (Sequences_GetByWorkRef (withdrawal_ref (w_WithdrawalID rec))) in
      if negb (bool_decide (r_Status res = SequenceReserved))
      then quarantine (w_WithdrawalID rec) (w_Status rec) "reservation not RESERVED"
      else
        match w_AccountNumber rec, w_Sequence rec, w_FeeAmountBaseUnits rec, w_GasLimit rec with
        | Some acct, Some seq, Some fee, Some gasLimit =>
            if negb ((acct =? r_AccountNumber res) && (seq =? r_Sequence res))
            then quarantine (w_WithdrawalID rec) (w_Status rec) "record does not match reservation"
            else
              match build_for rec with
              | Err _ => quarantine (w_WithdrawalID rec) (w_Status rec) "rebuild rejected"
              | Ok unsigned =>
                  let* pubKey := senderPubKey (w_SourceAddress rec) in
                  match pubKey with
                  | Err ErrSignerUnavailable => Done (Err ErrSignerUnavailable)
                  | Err _ => quarantine (w_WithdrawalID rec) (w_Status rec) "public key fetch failed"
                  | Ok pubKey =>
                      match Tx.SignDoc unsigned (w_ChainID rec) acct seq
                              (Tx.MkFee (Tx.FormatUint fee) gasLimit) pubKey with
                      | Err _ => quarantine (w_WithdrawalID rec) (w_Status rec) "sign doc encoding failed"
                      | Ok (signDocBytes, summary, u) =>
                          match summaryMismatch rec fee seq acct summary with
                          | Some _ => quarantine (w_WithdrawalID rec) (w_Status rec)
                                        "sign doc does not match approved request"
                          | None => signAndPersist id rec res signDocBytes summary u
                          end
                      end
                  end
              end
        | _, _, _, _ =>
            quarantine (w_WithdrawalID rec) (w_Status rec) "record does not match reservation"
        end.

Definition cancelTx (id : string) (from : WithdrawalStatus) : db unit :=
  do_ Withdrawals_UpdateStatus id from WithdrawalCancelled no_withdrawal_update;
  do r <- tx_try (Sequences_GetByWorkRef (withdrawal_ref id));
  match r with
  | Err ErrNotFound => tx_ret tt
  | Err e => tx_fail e
  | Ok res => if bool_decide (r_Status res = SequenceReserved)
              then Sequences_UpdateStatus (r_ID res) SequenceReserved SequenceReleased
              else tx_ret tt
  end.

Definition Cancel (id : string) : handler (result err unit) :=
  let? rec := stmt (Withdrawals_Get id) in
  atomically (cancelTx id (w_Status rec)).

(** ** The broadcaster *)

(** Tolerates a concurrent move of the reservation. *)
Definition ignore_conflict (m : db unit) : db unit :=
  do r <- tx_try m;
  match r with
  | Ok _ => tx_ret tt
  | Err ErrStatusConflict => tx_ret tt
  | Err e => tx_fail e
  end.

Definition advanceReservation (id : string) (from to : SequenceReservationStatus) : db unit :=
  do res <- Sequences_GetByWorkRef (withdrawal_ref id);
  if bool_decide (r_Status res = to) then tx_ret tt
  else ignore_conflict (Sequences_UpdateStatus (r_ID res) from to).

Definition consumeReservation (id : string) : db unit :=
  do res <- Sequences_GetByWorkRef (withdrawal_ref id);
  match r_Status res with
  | SequenceConsumed => tx_ret tt
  | SequenceSigned | SequenceBroadcast | SequenceReconciliationRequired =>
      ignore_conflict (Sequences_UpdateStatus (r_ID res) (r_Status res) SequenceConsumed)
  | _ => tx_fail ErrStatusConflict
  end.

Definition quarantineReservation (id : string) (from : SequenceReservationStatus) : db unit :=
  do res <- Sequences_GetByWorkRef (withdrawal_ref id);
  if bool_decide (r_Status res = SequenceReconciliationRequired) ||
     bool_decide (r_Status res = SequenceConsumed) then tx_ret tt
  else ignore_conflict (Sequences_UpdateStatus (r_ID res) from SequenceReconciliationRequired).

Definition acceptTx (id : string) : db unit :=
  do_ Withdrawals_UpdateStatus id WithdrawalSigned WithdrawalBroadcast no_withdrawal_update;
  advanceReservation id SequenceSigned SequenceBroadcast.

(** Withdrawal to review with [u], review row, reservation quarantine. *)
Definition reviewTx (rec : WithdrawalRecord) (id : string) (from : WithdrawalStatus)
    (u : WithdrawalUpdate) (resFrom : SequenceReservationStatus) (reason : string) : db unit :=
  do_ Withdrawals_UpdateStatus id from WithdrawalReviewRequired u;
  do_ Review_Open (review_item (w_ChainID rec) id reason);
  quarantineReservation id resFrom.

Definition code_update (code : Z) (log : string) : WithdrawalUpdate :=
  MkWithdrawalUpdate None None None None None [] None None (Some code) (Some log).

Definition to_err {A} (r : result err A) : option err :=
  match r with Ok _ => None | Err e => Some e end.

Notation reply := (prod (option Outcome) (option err)).

Definition resolveUnknownAfterBroadcast (rec : WithdrawalRecord) (txHash : string) : handler reply :=
  let* info := ask (CTx txHash) in
  match info with
  | Ok (Some _) =>
      let* r := atomically (acceptTx (w_WithdrawalID rec)) in
      Done (Some OutcomeMempoolAccepted, to_err r)
  | _ =>
      let* r := atomically (reviewTx rec (w_WithdrawalID rec) WithdrawalSigned no_withdrawal_update
                              SequenceSigned "broadcast unknown") in
      Done (Some OutcomeUnknownTimeout,
            match r with Err e => Some e | Ok _ => Some ErrQuarantined end)
  end.

Definition Broadcast (id : string) : handler reply :=
  let* got := stmt (Withdrawals_Get id) in
  match got with
  | Err e => Done (None, Some e)
  | Ok rec =>
      if negb (bool_decide (w_Status rec = WithdrawalSigned)) then Done (None, Some ErrStatusConflict)
      else
        match w_SignedTxBytes rec, w_TxHash rec with
        | [], _ | _, None => Done (None, Some ErrInvalidRecord)
        | signed, Some txHash =>
            let* controls := stmt (Controls_Get (w_ChainID rec)) in
            match controls with
            | Err e => Done (None, Some e)
            | Ok controls =>
                if oc_BroadcastPaused controls then Done (None, Some ErrPaused)
                else
                  let* res := ask (CBroadcast signed BroadcastSync) in
                  match res with
                  | Err _ => resolveUnknownAfterBroadcast rec txHash
                  | Ok res =>
                      if negb (br_Accepted res) then
                        let* r := atomically (reviewTx rec id WithdrawalSigned
                                    (code_update (br_Code res) (br_RawLog res)) SequenceSigned
                                    "checktx rejected") in
                        Done (Some OutcomeCheckTxRejected, to_err r)
                      else
                        let* r := atomically (acceptTx id) in
                        Done (Some OutcomeMempoolAccepted, to_err r)
                  end
            end
        end
  end.

Definition included_update (info : TxInfo) : WithdrawalUpdate :=
  MkWithdrawalUpdate None None None None None [] None (Some (asU64 (ti_Height info)))
    (Some (ti_Code info)) (Some (ti_RawLog info)).

Definition includeTx (id : string) (info : TxInfo) : db unit :=
  do_ Withdrawals_UpdateStatus id WithdrawalBroadcast WithdrawalIncluded (included_update info);
  consumeReservation id.

(** [uint64(status.LatestHeight-info.Height)+1] *)
Definition depth (latest height : Z) : Z := Sequences.wrap64 (asU64 (latest - height) + 1).

(** [Confirm] once the withdrawal is INCLUDED. *)
Definition confirmIncluded (id : string) (info : TxInfo) : handler reply :=
  if negb (ti_Code info =? 0) then
    let* r := stmt (Withdrawals_UpdateStatus id WithdrawalIncluded WithdrawalFailed
                      (code_update (ti_Code info) (ti_RawLog info))) in
    Done (Some OutcomeExecFailed, to_err r)
  else
    let* status := ask CNodeStatus in
    match status with
    | Err e => Done (Some OutcomeIncluded, Some e)
    | Ok status =>
        if depth (ns_LatestHeight status) (ti_Height info) <? cfg_Confirmations cfg
        then Done (Some OutcomeIncluded, None)
        else
          let* r := stmt (Withdrawals_UpdateStatus id WithdrawalIncluded WithdrawalConfirmed
                            no_withdrawal_update) in
          Done (Some OutcomeExecSuccess, to_err r)
    end.

(** The transaction is not (any more) in a block. *)
Definition confirmMissing (id : string) (rec : WithdrawalRecord) : handler reply :=
  if bool_decide (w_Status rec = WithdrawalIncluded) then
    let* r := quarantine id (w_Status rec) "tx no longer found after inclusion" in
    Done (Some OutcomeUnknownTimeout, to_err r)
  else
    let* now := ask CNow in
    if now - w_UpdatedAt rec <? cfg_BroadcastTimeout cfg
    then Done (Some OutcomeMempoolAccepted, None)
    else
      let* r := atomically (reviewTx rec id WithdrawalBroadcast no_withdrawal_update
                              SequenceBroadcast "unknown after broadcast timeout") in
      Done (Some OutcomeUnknownTimeout,
            match r with Err e => Some e | Ok _ => Some ErrQuarantined end).

Definition Confirm (id : string) : handler reply :=
  let* got := stmt (Withdrawals_Get id) in
  match got with
  | Err e => Done (None, Some e)
  | Ok rec =>
      if negb (bool_decide (w_Status rec = WithdrawalBroadcast) ||
               bool_decide (w_Status rec = WithdrawalIncluded))
      then Done (None, Some ErrStatusConflict)
      else
        match w_TxHash rec with
        | None => Done (None, Some ErrInvalidRecord)
        | Some txHash =>
            let* looked := ask (CTx txHash) in
            if Sequences.lookup_failed looked
            then Done (None, to_err looked)
            else
              match looked with
              | Ok (Some info) =>
                  if negb (ti_Height info =? 0) then
                    if bool_decide (w_Status rec = WithdrawalBroadcast) then
                      let* r := atomically (includeTx id info) in
                      match r with
                      | Err e => Done (Some OutcomeIncluded, Some e)
                      | Ok _ => confirmIncluded id info
                      end
                    else confirmIncluded id info
                  else confirmMissing id rec
              | _ => confirmMissing id rec
              end
        end
  end.

Definition recoverTx (id : string) : db unit :=
  Withdrawals_UpdateStatus id WithdrawalReviewRequired WithdrawalBroadcast no_withdrawal_update.

Definition Recover (id : string) : handler reply :=
  let* got := stmt (Withdrawals_Get id) in
  match got with
  | Err e => Done (None, Some e)
  | Ok rec =>
      if negb (bool_decide (w_Status rec = WithdrawalReviewRequired))
      then Done (None, Some ErrStatusConflict)
      else if bool_decide (w_SignedTxBytes rec = []) then Done (None, Some ErrInvalidRecord)
      else
        let* res := Sequences.RebroadcastPersisted (w_SignedTxBytes rec) in
        match res with
        | Err e => Done (None, Some e)
        | Ok res =>
            if Sequences.rb_AlreadyIncluded res then
              let* r := stmt (recoverTx id) in Done (Some OutcomeIncluded, to_err r)
            else if Sequences.rb_Accepted res then
              let* r := stmt (recoverTx id) in Done (Some OutcomeMempoolAccepted, to_err r)
            else Done (Some OutcomeCheckTxRejected, Some ErrOther)
        end
  end.
End workflow.

End Withdrawals.
