(* ===== verification/WithdrawalLaws.v ===== *)
(** * WithdrawalLaws: correctness of the withdrawal workflow

    Theorems about the handlers of [Withdrawals].  Where the outcome depends
    on what other workers do between the handler's transactions, the theorem
    is about every execution under [Interference.interference] (or under any
    relation at all), with the node's and the signer's answers arbitrary. *)

From stdpp Require Import base list strings gmap.
From Stdlib Require Import ZArith Lia String Strings.Byte.
From S2P Require Import Prelude Workers Text Storage Database SqlStore SqlLaws Hash Chain.
From S2P Require Import Address Tx Sample Fees Sequences Interference Journals Withdrawals.
Import SqlStore SqlLaws Interference Journals Withdrawals.

Open Scope string_scope.
Open Scope list_scope.
Open Scope Z_scope.

Module WithdrawalLaws.

(** ** Shared facts *)

(** A successful status update: the row it found and the table it left. *)
Lemma Withdrawals_UpdateStatus_ok id from to u s s' :
  Withdrawals_UpdateStatus id from to u s = (Ok tt, s') ->
  to ∈ withdrawalTransitions from /\
  exists w, w ∈ st_withdrawals s /\ w_WithdrawalID w = id /\ w_Status w = from /\
    s' = set_rows (update_rows (w_at id from) (withdrawal_set to (st_now s) u) (st_withdrawals s)) s.
Proof.
  rewrite Withdrawals_UpdateStatus_eq. destruct (ValidateWithdrawalTransition from to) eqn:Hv; [done|].
  destruct (amountPtrText _); [|done]. destruct (List.find _ _) as [w|] eqn:Hf; [|done].
  case_bool_decide as Hst; [|done]. intros [= <-]. split; [by apply withdrawal_legal|].
  apply find_elem in Hf as [Hw Hid]. apply bool_decide_eq_true in Hid. eauto.
Qed.

Lemma withdrawals_set_rows l s : st_withdrawals (set_rows (R := WithdrawalRecord) l s) = l.
Proof. exact (rows_set l s). Qed.

Lemma withdrawals_set_sequences l s :
  st_withdrawals (set_rows (R := SequenceReservation) l s) = st_withdrawals s.
Proof. by destruct s. Qed.

Lemma Sequences_UpdateStatus_ok id from to s s' :
  Sequences_UpdateStatus id from to s = (Ok tt, s') ->
  to ∈ sequenceTransitions from /\
  exists r, r ∈ st_sequences s /\ r_ID r = id /\ r_Status r = from /\
    s' = set_rows (update_rows (r_at id from) (reservation_set to (st_now s)) (st_sequences s)) s.
Proof.
  rewrite Sequences_UpdateStatus_eq. destruct (ValidateSequenceTransition from to) eqn:Hv; [done|].
  destruct (List.find _ _) as [r|] eqn:Hf; [|done].
  case_bool_decide as Hst; [|done]. intros [= <-]. split; [by apply sequence_legal|].
  apply find_elem in Hf as [Hr Hid]. apply Z.eqb_eq in Hid. eauto.
Qed.

(** The row the update wrote. *)
Lemma update_rows_elem {R} (p : R -> bool) f (l : list R) r :
  r ∈ l -> p r = true -> f r ∈ update_rows p f l.
Proof. intros Hr Hp. apply list_elem_of_fmap. exists r. by rewrite Hp. Qed.

Lemma w_at_true id from w : w_WithdrawalID w = id -> w_Status w = from -> w_at id from w = true.
Proof. intros. unfold w_at. by rewrite !bool_decide_eq_true_2. Qed.

(** The id of a withdrawal determines its row. *)
Lemma withdrawal_unique s w w' :
  schema_ok s -> w ∈ st_withdrawals s -> w' ∈ st_withdrawals s ->
  w_WithdrawalID w = w_WithdrawalID w' -> w = w'.
Proof.
  intros Hs Hw Hw' Hid. destruct (so_withdrawals s Hs) as [Hu _].
  apply list_elem_of_lookup_1 in Hw as [i Hi], Hw' as [j Hj].
  assert (i = j) as ->; [|congruence]. eapply Hu; [exact Hi | exact Hj | reflexivity|].
  unfold withdrawal_id_key. by rewrite Hid.
Qed.

(** ** Submission *)

Lemma Withdrawals_Create_ok x s r s' :
  Withdrawals_Create x s = (Ok r, s') ->
  w_IdempotencyKey r = w_IdempotencyKey x /\ s' = set_rows (st_withdrawals s ++ [r]) s /\
  existsb (hits withdrawal_idem_key r) (st_withdrawals s) = false.
Proof.
  unfold Withdrawals_Create, fmtTime. intros H. inv_tx H. unfold insert_row in H.
  destruct (violation _ _ _) eqn:Hv; [done|]. injection H as <- <-.
  apply violation_None in Hv. apply Forall_cons in Hv as [_ Hv]. by apply Forall_cons in Hv as [Hv _].
Qed.

(** With the key taken, creation fails and changes nothing. *)
Lemma Withdrawals_Create_taken x s w :
  w ∈ st_withdrawals s -> w_IdempotencyKey w = w_IdempotencyKey x ->
  exists e, with_tx (Withdrawals_Create x) s = (Err e, s).
Proof.
  intros Hw Hk. unfold with_tx. destruct (Withdrawals_Create x s) as [[r|e] s'] eqn:Hc; [|eauto].
  exfalso. apply Withdrawals_Create_ok in Hc as (Hr & _ & Hx). rewrite hits_false in Hx.
  refine (Hx w _ Hw eq_refl _). unfold withdrawal_idem_key. congruence.
Qed.

Lemma Create_duplicate x s w r s0 s1 :
  Withdrawals_Create x s0 = (Ok r, s1) ->
  w ∈ st_withdrawals s -> w_IdempotencyKey w = w_IdempotencyKey x ->
  with_tx (Withdrawals_Create x) s = (Err ErrDuplicate, s).
Proof.
  intros H Hw Hk. destruct (Withdrawals_Create_taken x s w Hw Hk) as [e He]. rewrite He. repeat f_equal.
  unfold with_tx in He. unfold Withdrawals_Create, fmtTime in H, He. inv_tx H.
  rewrite Hg, Hg0, Hg1, Hg2, Hg3, Ha, Ha0 in He.
  unfold tx_bind, tx_require, tx_of, tx_ret, tx_get, insert_row in He. cbv beta iota zeta in He.
  destruct (violation _ _ _) as [e'|] eqn:Hv; [|done]. injection He as <-.
  unfold violation in Hv. destruct (List.find _ _) as [ix|] eqn:Hf; [|done]. injection Hv as <-.
  apply find_elem in Hf as [Hix _]. by repeat (apply elem_of_cons in Hix as [->|Hix]; [done|]); apply elem_of_nil in Hix.
Qed.

Lemma GetByIdempotencyKey_found s w :
  schema_ok s -> w ∈ st_withdrawals s ->
  with_tx (Withdrawals_GetByIdempotencyKey (w_IdempotencyKey w)) s = (Ok w, s).
Proof.
  intros Hs Hw. destruct (so_withdrawals s Hs) as [_ Hu].
  unfold with_tx, Withdrawals_GetByIdempotencyKey, select_row.
  rewrite (uniq_find withdrawal_idem_key _ (rows s) w (w_IdempotencyKey w)); [done..|].
  intros r. unfold withdrawal_idem_key. rewrite bool_decide_eq_true. split; congruence.
Qed.

Section submission.
Context `{X : Ext} (w : Workflow).

(** [Submit] past its request checks. *)
Definition submit_tail (req : Request) (amount : Z) (s : Store) : result err WithdrawalRecord * Store :=
  match with_tx (Withdrawals_Create (submitted w req amount)) s with
  | (Err ErrDuplicate, s') =>
      match with_tx (Withdrawals_GetByIdempotencyKey (rq_IdempotencyKey req)) s' with
      | (Ok orig, s'') => (Ok orig, s'')
      | (Err _, s'') => (Err ErrDuplicate, s'')
      end
  | r => r
  end.

Lemma Submit_run o req :
  (exists e, forall s, run o (Submit w req) s = Workers.Outcome (Err e) s []) \/
  exists amount, forall o s, run o (Submit w req) s =
    let '(r, s') := submit_tail req amount s in Workers.Outcome r s' [].
Proof.
  unfold Submit. destruct (_ || _); [left; by eexists|].
  destruct (parseBaseUnits _) as [amount|e]; [|left; by eexists].
  destruct (amount <=? 0); [left; by eexists|]. right. exists amount. intros o' s1.
  unfold submit_tail. simpl. destruct (with_tx (Withdrawals_Create _) s1) as [[r|e] s2]; [done|].
  destruct e; try done. simpl.
  destruct (with_tx (Withdrawals_GetByIdempotencyKey _) s2) as [[r|e] s3]; done.
Qed.

(** With the key taken, [Submit] answers with the holder or an error. *)
Lemma submit_taken req amount s r :
  schema_ok s -> r ∈ st_withdrawals s -> w_IdempotencyKey r = rq_IdempotencyKey req ->
  snd (submit_tail req amount s) = s /\
  (fst (submit_tail req amount s) = Ok r \/ exists e, fst (submit_tail req amount s) = Err e).
Proof.
  intros Hs Hr Hk. unfold submit_tail.
  destruct (Withdrawals_Create_taken (submitted w req amount) s r Hr Hk) as [e ->].
  rewrite <-Hk. destruct e; rewrite ?(GetByIdempotencyKey_found s r Hs Hr); simpl; eauto.
Qed.

(** The record [Submit] returned is in the table under the request's key,
    and the same submission finds it again. *)
Lemma submit_tail_ok req amount s rec s' :
  schema_ok s -> submit_tail req amount s = (Ok rec, s') ->
  schema_ok s' /\ rec ∈ st_withdrawals s' /\ w_IdempotencyKey rec = rq_IdempotencyKey req /\
  submit_tail req amount s' = (Ok rec, s').
Proof.
  intros Hs H. unfold submit_tail in H.
  destruct (with_tx (Withdrawals_Create _) s) as [[r|e] s1] eqn:Hc.
  - injection H as -> ->. apply with_tx_ok in Hc.
    pose proof (Withdrawals_Create_keeps (submitted w req amount) s Hs) as Hs'.
    rewrite Hc in Hs'. simpl in Hs'. pose proof Hc as Hc'.
    apply Withdrawals_Create_ok in Hc' as (Hk & Hs'' & _).
    assert (rec ∈ st_withdrawals s') as Hin.
    { rewrite Hs'', withdrawals_set_rows. apply elem_of_app. right. by left. }
    split_and!; [done..|]. unfold submit_tail. rewrite (Create_duplicate _ s' rec _ _ _ Hc Hin Hk).
    assert (rq_IdempotencyKey req = w_IdempotencyKey rec) as -> by done.
    by rewrite (GetByIdempotencyKey_found s' rec Hs' Hin).
  - pose proof (with_tx_err _ _ _ _ Hc) as ->. destruct e; try done.
    destruct (with_tx (Withdrawals_GetByIdempotencyKey _) s) as [[r|e] s2] eqn:Hg; [|done].
    assert (s2 = s /\ rec ∈ st_withdrawals s /\ w_IdempotencyKey rec = rq_IdempotencyKey req)
      as (-> & Hin & Hk).
    { injection H as -> ->. unfold with_tx, Withdrawals_GetByIdempotencyKey, select_row in Hg.
      destruct (List.find _ _) eqn:Hf; [|done]. injection Hg as -> <-.
      apply find_elem in Hf as [Hin Hk]. by apply bool_decide_eq_true in Hk. }
    injection H as <- <-. split_and!; try done. unfold submit_tail. by rewrite Hc, Hg.
Qed.

(** Submission is idempotent on the caller's key.  Once [Submit] has
    accepted a request, submitting it again returns the very record of the
    first call and changes nothing; and any request that reuses the key,
    whatever its other fields, is answered with that record or an error and
    never creates a second withdrawal. *)
Theorem submit_idempotent (o o' : oracle) (req : Request) (s s' : Store) (rec : WithdrawalRecord)
    (Hs : schema_ok s)
    (H : run o (Submit w req) s = Workers.Outcome (Ok rec) s' []) :
  rec ∈ st_withdrawals s' /\ w_IdempotencyKey rec = rq_IdempotencyKey req /\
  run o' (Submit w req) s' = Workers.Outcome (Ok rec) s' [] /\
  (forall req', rq_IdempotencyKey req' = rq_IdempotencyKey req ->
     o_state (run o' (Submit w req') s') = s' /\
     (o_value (run o' (Submit w req') s') = Ok rec \/
      exists e, o_value (run o' (Submit w req') s') = Err e)).
Proof.
  destruct (Submit_run o req) as [[e He]|[amount Ha]]; [by rewrite He in H|].
  rewrite (Ha o s) in H. destruct (submit_tail req amount s) as [r s1] eqn:Ht. injection H as -> ->.
  apply submit_tail_ok in Ht as (Hs' & Hin & Hk & Hagain); [|done].
  split_and!; [done..| |].
  - by rewrite (Ha o' s'), Hagain.
  - intros req' Hk'. destruct (Submit_run o' req') as [[e He]|[amount' Ha']].
    + rewrite He. simpl. eauto.
    + rewrite Ha'. destruct (submit_taken req' amount' s' rec Hs' Hin ltac:(congruence)) as [H1 H2].
      destruct (submit_tail req' amount' s') as [r s2]. simpl in *. by subst s2.
Qed.
End submission.

(** A workflow with a maximum fee of 300 and two confirmations. *)
Definition ex_config : Config :=
  MkConfig "sovr-1" "100" "300" "1.5" "0.001" (Some SimulateQueue) 200000 0 2 [] None.
Definition ex_workflow : Workflow :=
  match New (X := Sample.sample) ex_config with
  | Ok w => w
  | Err _ => MkWorkflow ex_config (MkParsed 0 0 (Fees.MkDecimal 0 1) (Fees.MkDecimal 0 1)) ∅
  end.
Definition ex_request : Request := MkRequest "w1" "k1" "sovr1src" "sovr1dst" "1500" "memo".

Lemma submit_idempotent_witness :
  let s' := o_state (run (answering no_answers) (Submit (X := Sample.sample) ex_workflow ex_request)
                       (empty_store 9)) in
  exists rec, w_AmountBaseUnits rec = 1500 /\
    run (answering no_answers) (Submit (X := Sample.sample) ex_workflow ex_request) s'
      = Workers.Outcome (Ok rec) s' [].
Proof.
  set (rec := withdrawal_row (submitted ex_workflow ex_request 1500) SignModeDirect 9 9).
  exists rec. split; [reflexivity|].
  apply (submit_idempotent (X := Sample.sample) ex_workflow (answering no_answers) (answering no_answers)
           ex_request (empty_store 9) _ rec (empty_schema_ok 9)).
  vm_compute. reflexivity.
Defined.

(** ** Reserving funds *)

(** Updating the one row that satisfies [p] changes the total by that row's
    difference. *)
Lemma sumZ_update_one {R} (p : R -> bool) (h : R -> R) (g : R -> Z) l x :
  NoDup l -> x ∈ l -> p x = true -> (forall r, r ∈ l -> p r = true -> r = x) ->
  sumZ (map g (update_rows p h l)) = sumZ (map g l) + g (h x) - g x.
Proof.
  intros Hnd Hx Hp Hone. apply list_elem_of_split in Hx as (l1 & l2 & ->).
  apply NoDup_app in Hnd as (_ & Hd & Hnd). apply NoDup_cons in Hnd as [Hx2 _].
  assert (forall l', (forall r, r ∈ l' -> p r = false) -> update_rows p h l' = l') as Hid.
  { intros l' Hl'. unfold update_rows. rewrite <-(map_id l') at 2. apply map_ext_in.
    intros r Hr. rewrite Hl'; [done|]. by apply list_elem_of_In. }
  assert (forall r, r ∈ l1 ++ l2 -> p r = false) as Hf.
  { intros r Hr. apply not_true_iff_false. intros Hpr. assert (r = x) as ->.
    { apply Hone; [|done]. apply elem_of_app in Hr as [?|?]; apply elem_of_app; [by left|right; by right]. }
    apply elem_of_app in Hr as [Hr|Hr]; [|done]. apply (Hd x Hr). by left. }
  unfold update_rows in *. rewrite !map_app. simpl. rewrite Hp.
  rewrite (Hid l1), (Hid l2) by (intros r Hr; apply Hf, elem_of_app; eauto).
  rewrite !sumZ_app, !sumZ_cons. lia.
Qed.

Lemma uniq_nodup {R K} (key : R -> option K) l :
  uniq key l -> (forall r, key r <> None) -> NoDup l.
Proof.
  intros Hu Hk. apply NoDup_alt. intros i j r Hi Hj.
  destruct (key r) as [k|] eqn:E; [|by destruct (Hk r)]. by eapply Hu.
Qed.

(** What a source account has promised to pay: amount plus maximum fee of
    every committed withdrawal. *)
Definition weight (maxFee : Z) (s : Store) (chainID source : string) (x : WithdrawalRecord) : Z :=
  if committed s chainID source x then w_AmountBaseUnits x + maxFee else 0.
Definition exposure (maxFee : Z) (s : Store) (chainID source : string) : Z :=
  sumZ (map (weight maxFee s chainID source) (st_withdrawals s)).

Lemma SumCommitted_exposure chainID source s cs s' maxFee :
  Withdrawals_SumCommittedBySource chainID source s = (Ok cs, s') ->
  s' = s /\ snd cs + maxFee * fst cs = exposure maxFee s chainID source.
Proof.
  unfold Withdrawals_SumCommittedBySource, tx_get. intros [= <- <-]. split; [done|]. simpl.
  unfold exposure, weight. change (rows s) with (st_withdrawals s).
  induction (st_withdrawals s) as [|x l IH]; cbn [List.filter map]; [cbn; lia|].
  rewrite sumZ_cons, <-IH. destruct (committed s chainID source x); cbn [map List.length];
    [rewrite sumZ_cons; lia | lia].
Qed.

Lemma sequences_set_withdrawals l s : st_sequences (set_rows (R := WithdrawalRecord) l s) = st_sequences s.
Proof. by destruct s. Qed.

Lemma committed_set l s c src x :
  committed (set_rows (R := WithdrawalRecord) l s) c src x = committed s c src x.
Proof.
  unfold committed, joined_reservation. change (rows ?t) with (st_sequences t).
  by rewrite sequences_set_withdrawals.
Qed.

(** Moving a withdrawal that was not committed into a committed status other
    than REVIEW_REQUIRED adds its weight. *)
Lemma exposure_commit maxFee s x to u :
  schema_ok s -> x ∈ st_withdrawals s -> w_Status x = WithdrawalComplianceApproved ->
  to = WithdrawalFundsReserved ->
  let s' := set_rows (update_rows (w_at (w_WithdrawalID x) (w_Status x))
                        (withdrawal_set to (st_now s) u) (st_withdrawals s)) s in
  exposure maxFee s' (w_ChainID x) (w_SourceAddress x) =
    exposure maxFee s (w_ChainID x) (w_SourceAddress x) + w_AmountBaseUnits x + maxFee.
Proof.
  intros Hs Hx Hst -> s'. unfold exposure, s'. rewrite withdrawals_set_rows.
  erewrite (map_ext (weight _ (set_rows _ s) _ _)).
  2:{ intros r. unfold weight. rewrite committed_set. reflexivity. }
  destruct (so_withdrawals s Hs) as [Hu _].
  rewrite (sumZ_update_one _ _ _ _ x).
  - unfold weight, committed. simpl. rewrite Hst. repeat rewrite (bool_decide_eq_true_2 _ eq_refl). simpl. lia.
  - apply (uniq_nodup withdrawal_id_key); [done|]. done.
  - done.
  - by apply w_at_true.
  - intros r Hr [Hid _]%andb_true_iff. apply bool_decide_eq_true in Hid. by eapply withdrawal_unique.
Qed.

Lemma Withdrawals_Get_ok id s r s' :
  Withdrawals_Get id s = (Ok r, s') -> s' = s /\ r ∈ st_withdrawals s /\ w_WithdrawalID r = id.
Proof.
  unfold Withdrawals_Get, select_row. destruct (List.find _ _) eqn:Hf; [|done]. intros [= -> ->].
  apply find_elem in Hf as [Hin Hid]. apply bool_decide_eq_true in Hid. done.
Qed.

(** A record read earlier, and the row its id names now. *)
Lemma reread s s' r r' :
  schema_ok s -> interference s s' -> r ∈ st_withdrawals s -> r' ∈ st_withdrawals s' ->
  w_WithdrawalID r' = w_WithdrawalID r -> request_of r' = request_of r.
Proof.
  intros Hs Hi Hr Hr' Hid. destruct (interference_persists s s' Hi r Hr) as (r'' & Hr'' & E).
  assert (r' = r'') as ->; [|done]. apply (withdrawal_unique s'); [|done..|].
  - by eapply interference_schema.
  - injection E as E _. congruence.
Qed.

Lemma reserveFundsTx_ok (w : Workflow) id rec bal s s' :
  schema_ok s -> reserveFundsTx w id rec bal s = (Ok tt, s') ->
  exists x, x ∈ st_withdrawals s /\ w_WithdrawalID x = id /\
    exposure (p_maxFee (wf_pcfg w)) s (w_ChainID rec) (w_SourceAddress rec) +
      w_AmountBaseUnits rec + p_maxFee (wf_pcfg w) <= bal /\
    w_Status x = WithdrawalComplianceApproved /\
    s' = set_rows (update_rows (w_at id (w_Status x))
           (withdrawal_set WithdrawalFundsReserved (st_now s) no_withdrawal_update)
           (st_withdrawals s)) s.
Proof.
  intros Hs H. unfold reserveFundsTx in H. inv_tx1 H.
  apply (SumCommitted_exposure _ _ _ _ _ (p_maxFee (wf_pcfg w))) in Hm as [-> Hexp].
  apply tx_require_ok in H as [Hg H]. apply negb_true_iff, Z.ltb_ge in Hg.
  apply Withdrawals_UpdateStatus_ok in H as (_ & x & Hx & Hid & Hst & ->).
  exists x. rewrite Hst. split_and!; [done..|lia|done|done].
Qed.

(** C5: no account is over-committed.  Whatever transactions other workers
    commit between its steps, when [ReserveFunds] succeeds the withdrawal is
    FUNDS_RESERVED and at least the minimum, the node was asked for the
    source's balance, and in the database the transaction left, the amounts
    plus maximum fees of all committed withdrawals of that source, this one
    included, are within the balance the node answered. *)
Theorem funds_covered (w : Workflow) (id : string) (s s' : Store) (tr : trace)
    (Hs : schema_ok s)
    (H : exec interference (ReserveFunds w id) s tr (Ok tt) s') :
  exists x bal, x ∈ st_withdrawals s' /\ w_WithdrawalID x = id /\
    w_Status x = WithdrawalFundsReserved /\ p_minWithdrawal (wf_pcfg w) <= w_AmountBaseUnits x /\
    answered (CBalance (w_SourceAddress x) BaseDenom) (Ok bal) ∈ tr /\
    exposure (p_maxFee (wf_pcfg w)) s' (w_ChainID x) (w_SourceAddress x) <= bal.
Proof.
  unfold ReserveFunds in H. inv_exec H. apply with_tx_ok in Hx.
  apply Withdrawals_Get_ok in Hx as (-> & Hrec & Hid).
  case_bool_decide as Hst; cbn [negb] in H; [|by case_bool_decide; inv_exec H].
  destruct (Z.ltb_spec (w_AmountBaseUnits a) (p_minWithdrawal (wf_pcfg w))); [by inv_exec H|].
  inv_exec H. apply with_tx_ok in H.
  pose proof (interference_schema _ _ HR Hs) as Hs1.
  pose proof (interference_schema _ _ HR0 Hs1) as Hs2.
  apply reserveFundsTx_ok in H as (x & Hx & Hidx & Hbal & Hstx & ->); [|done].
  pose proof (reread _ _ a x Hs1 HR0 Hrec Hx ltac:(congruence)) as E.
  injection E as _ _ Ec Esrc _ _ Eamt _. rewrite <-Ec, <-Esrc, <-Eamt in Hbal.
  exists (withdrawal_set WithdrawalFundsReserved (st_now s0) no_withdrawal_update x), a0.
  rewrite withdrawals_set_rows. split_and!; try done.
  - apply update_rows_elem; [done|]. by apply w_at_true.
  - simpl. lia.
  - simpl. rewrite Esrc. by left.
  - cbn [w_ChainID w_SourceAddress withdrawal_set]. rewrite <-Hidx.
    rewrite exposure_commit by done. lia.
Qed.

Definition ex_withdrawal (status : WithdrawalStatus) : WithdrawalRecord :=
  MkWithdrawal "w1" "k1" "sovr-1" "sovr1src" "sovr1dst" BaseDenom 1500 "memo" None None None None
    None SignModeDirect [] None None None "" status 5 5.
Definition ex_w_store (x : WithdrawalRecord) : Store := set_rows [x] (empty_store 9).

Lemma ex_w_schema x : schema_ok (ex_w_store x).
Proof.
  apply (schema_set (R := WithdrawalRecord)); [apply empty_schema_ok|]. split.
  - intros [|[|i]] [|[|j]] r1 r2 k; try discriminate; reflexivity.
  - intros [|[|i]] [|[|j]] r1 r2 k; try discriminate; reflexivity.
Qed.

Definition balance_of (n : Z) : answers :=
  MkAnswers (Err ErrOther) (Err ErrClientNotFound) (Err ErrOther) (Ok n) (Err ErrOther)
    (Err ErrOther) (Err ErrOther) (Err ErrOther) 0.

Lemma funds_covered_witness :
  let s := ex_w_store (ex_withdrawal WithdrawalComplianceApproved) in
  let s' := o_state (run (answering (balance_of 1800)) (ReserveFunds ex_workflow "w1") s) in
  exists x bal, x ∈ st_withdrawals s' /\ w_WithdrawalID x = "w1" /\
    w_Status x = WithdrawalFundsReserved /\ 100 <= w_AmountBaseUnits x /\
    answered (CBalance (w_SourceAddress x) BaseDenom) (Ok bal)
      ∈ [answered (CBalance "sovr1src" BaseDenom) (Ok 1800)] /\
    exposure 300 s' (w_ChainID x) (w_SourceAddress x) <= bal.
Proof.
  intros s s'.
  apply (funds_covered ex_workflow "w1" s s' [answered (CBalance "sovr1src" BaseDenom) (Ok 1800)]).
  - apply ex_w_schema.
  - exists s. split; [constructor|]. exists (Ok 1800), []. split; [reflexivity|].
    exists s. split; [constructor|]. vm_compute. auto.
Defined.

(** ** Simulation *)

Section handlers.
Context `{X : Ext} (w : Workflow) (R : Store -> Store -> Prop).

(** Quarantine never reports success. *)
Lemma quarantine_not_ok id from reason s tr s' :
  ~ exec R (quarantine w id from reason) s tr (Ok tt) s'.
Proof. intros H. unfold quarantine in H. inv_exec H. done. Qed.
Lemma quarantinePost_not_ok id from rid reason s tr s' :
  ~ exec R (quarantinePostSignature w id from rid reason) s tr (Ok tt) s'.
Proof. intros H. unfold quarantinePostSignature in H. inv_exec H. done. Qed.

(** The fee columns of a simulated withdrawal. *)
Definition fee_set (id : string) (gasLimit : Z) (s : Store) : Prop :=
  exists x, x ∈ st_withdrawals s /\ w_WithdrawalID x = id /\
    w_Status x = WithdrawalTransactionSimulated /\ w_GasLimit x = Some gasLimit /\
    w_FeeAmountBaseUnits x = Some (Fees.feeFor gasLimit (p_gasPrice (wf_pcfg w))) /\
    Fees.feeFor gasLimit (p_gasPrice (wf_pcfg w)) <= p_maxFee (wf_pcfg w).

Lemma simulateFinish_ok id rec gasWanted gasLimit s tr s' :
  exec R (simulateFinish w id rec gasWanted gasLimit) s tr (Ok tt) s' -> fee_set id gasLimit s'.
Proof.
  intros H. unfold simulateFinish in H. destruct (Z.ltb_spec (p_maxFee (wf_pcfg w))
    (Fees.feeFor gasLimit (p_gasPrice (wf_pcfg w)))).
  - apply exec_bind in H as (q & s1 & tr1 & tr2 & -> & _ & H).
    destruct q as [|e]; [inv_exec H; done|]. case_bool_decide; inv_exec H; done.
  - inv_exec H. apply with_tx_ok, Withdrawals_UpdateStatus_ok in H as (_ & x & Hx & Hid & Hst & ->).
    eexists. rewrite withdrawals_set_rows. split_and!;
      [apply update_rows_elem; [exact Hx | by apply w_at_true] | done..].
Qed.

(** The fee is bounded.  Whatever the other workers do, when [Simulate]
    succeeds the withdrawal is TRANSACTION_SIMULATED with a gas limit and
    the fee of that limit at the configured price, at most the configured
    maximum; the limit is the adjusted gas of a simulation the node ran, or
    the static limit when the node had no simulation and the policy allows
    that. *)
Theorem simulated_fee_bounded (id : string) (s s' : Store) (tr : trace)
    (H : exec R (Simulate w id) s tr (Ok tt) s') :
  exists gasLimit, fee_set id gasLimit s' /\ exists simTx,
    (exists r, answered (CSimulate simTx) (Ok r) ∈ tr /\
       Fees.gasLimitFor (sr_GasUsed r) (p_gasAdjustment (wf_pcfg w)) = Ok gasLimit) \/
    (answered (CSimulate simTx) (Err ErrSimulateUnavailable) ∈ tr /\
     cfg_SimulateUnavailable (wf_cfg w) <> Some SimulateQueue /\
     gasLimit = cfg_StaticGasLimit (wf_cfg w)).
Proof.
  unfold Simulate in H.
  apply exec_r_bind_ok in H as (rec & s1 & tr1 & tr2 & -> & _ & H).
  case_bool_decide; cbn [negb] in H; [|by inv_exec H].
  destruct (w_AccountNumber rec) as [acct|], (w_Sequence rec) as [seq|]; try by inv_exec H.
  apply exec_bind in H as (sim & s2 & tr3 & tr4 & -> & _ & H).
  destruct sim as [simTx|e]; [|by destruct e; (apply quarantine_not_ok in H || inv_exec H)].
  apply exec_bind in H as (r & s3 & tr5 & tr6 & -> & Ha & H). apply exec_ask in Ha as [-> ->].
  assert (forall a, existT _ (CSimulate simTx, a) ∈ tr1 ++ tr3 ++ [existT _ (CSimulate simTx, a)] ++ tr6)
    as Hin.
  { intros a. apply elem_of_app. right. apply elem_of_app. right. by left. }
  destruct r as [r|e].
  - destruct (Fees.gasLimitFor _ _) as [gl|e] eqn:Hg; [|by apply quarantine_not_ok in H].
    apply simulateFinish_ok in H. exists gl. split; [done|]. exists simTx. left.
    exists r. split; [apply Hin | done].
  - destruct e; try by inv_exec H.
    destruct (cfg_SimulateUnavailable (wf_cfg w)) as [[]|] eqn:Hp; try by inv_exec H.
    all: apply simulateFinish_ok in H; eexists; split; [done|]; exists simTx; right;
      split_and!; [apply Hin | done..].
Qed.
End handlers.

Definition ex_built : WithdrawalRecord :=
  MkWithdrawal "w1" "k1" "sovr-1" "sovr1src" "sovr1dst" BaseDenom 1500 "memo" (Some 7) (Some 5) None
    None None SignModeDirect [] None None None "" WithdrawalTransactionBuilt 5 5.
Definition simulates (gas : Z) : answers :=
  MkAnswers (Err ErrOther) (Err ErrClientNotFound) (Err ErrOther) (Err ErrOther)
    (Ok (MkSimulate gas gas)) (Err ErrOther) (Ok Sample.key) (Err ErrOther) 0.

Lemma simulated_fee_bounded_witness :
  let s' := o_state (run (answering (simulates 80000)) (Simulate (X := Sample.sample) ex_workflow "w1")
                       (ex_w_store ex_built)) in
  exists gasLimit, fee_set ex_workflow "w1" gasLimit s'.
Proof.
  intros s'.
  destruct (run_exec eq (answering (simulates 80000)) (Simulate (X := Sample.sample) ex_workflow "w1")
              (ex_w_store ex_built)) as [tr H].
  assert (o_value (run (answering (simulates 80000)) (Simulate (X := Sample.sample) ex_workflow "w1")
            (ex_w_store ex_built)) = Ok tt) as E by (vm_compute; reflexivity).
  rewrite E in H.
  destruct (simulated_fee_bounded (X := Sample.sample) ex_workflow eq "w1" _ _ _ H) as (gl & Hf & _).
  by exists gl.
Defined.

(** ** Signing *)

(** The signing requests of a trace. *)
Definition sign_request (e : { T : Type & (call T * T)%type }) : list SigningRequest :=
  match fst (projT2 e) with CSign req => [req] | _ => [] end.
Definition sign_requests (tr : trace) : list SigningRequest := flat_map sign_request tr.

Lemma sign_requests_app t1 t2 : sign_requests (t1 ++ t2) = sign_requests t1 ++ sign_requests t2.
Proof. apply flat_map_app. Qed.

Lemma summaryMismatch_None w rec fee seq acct sm :
  summaryMismatch w rec fee seq acct sm = None ->
  sm = MkSummary (w_ChainID rec) (Tx.FormatUint acct) (Tx.FormatUint seq) MsgTypeBankSend
         (w_SourceAddress rec) (w_DestinationAddress rec) (Tx.FormatUint (w_AmountBaseUnits rec))
         (w_Denom rec) (Tx.FormatUint fee) (ss_GasLimit sm) (w_Memo rec) /\
  w_ChainID rec = cfg_ChainID (wf_cfg w).
Proof.
  unfold summaryMismatch. destruct (List.find _ _) as [c|] eqn:Hf; [done|]. intros _.
  assert (forall c, In c (summary_checks w rec fee seq acct sm) -> c.1.2 = c.2) as Hall.
  { intros c Hc. pose proof (List.find_none _ _ Hf c Hc) as Hn.
    by apply negb_false_iff, bool_decide_eq_true in Hn. }
  assert (Forall (fun c => c.1.2 = c.2) (summary_checks w rec fee seq acct sm)) as HF
    by by apply List.Forall_forall.
  clear Hall Hf. unfold summary_checks in HF. rewrite !Forall_cons in HF. simpl in HF.
  destruct HF as (H1 & H2 & ? & ? & ? & ? & ? & ? & ? & ? & ? & _). destruct sm; simpl in *.
  split; congruence.
Qed.

Section signing.
Context `{X : Ext} (w : Workflow) (R : Store -> Store -> Prop).

(** The reads [Sign] makes before it asks for a signature: the withdrawal,
    the controls and the reservation, as the database held them. *)
Definition cleared (id : string) (rec : WithdrawalRecord) (r : SequenceReservation) : Prop :=
  (exists s, Withdrawals_Get id s = (Ok rec, s)) /\
  w_Status rec = WithdrawalTransactionSimulated /\
  (exists s c, Controls_Get (w_ChainID rec) s = (Ok c, s) /\ oc_SigningPaused c = false) /\
  (exists s, Sequences_GetByWorkRef (withdrawal_ref id) s = (Ok r, s)) /\
  r_Status r = SequenceReserved /\
  w_AccountNumber rec = Some (r_AccountNumber r) /\ w_Sequence rec = Some (r_Sequence r).

(** The request describes the approved withdrawal, and its description is
    decoded from the very bytes to be signed. *)
Definition approved (rec : WithdrawalRecord) (r : SequenceReservation) (req : SigningRequest) : Prop :=
  Tx.DeriveSummary (sq_SignDocBytes req) = Ok (sq_Summary req) /\
  sq_KeyRef req = keyRef w (w_SourceAddress rec) /\
  w_ChainID rec = cfg_ChainID (wf_cfg w) /\
  exists fee, w_FeeAmountBaseUnits rec = Some fee /\
    sq_Summary req = MkSummary (w_ChainID rec) (Tx.FormatUint (r_AccountNumber r))
      (Tx.FormatUint (r_Sequence r)) MsgTypeBankSend (w_SourceAddress rec) (w_DestinationAddress rec)
      (Tx.FormatUint (w_AmountBaseUnits rec)) (w_Denom rec) (Tx.FormatUint fee)
      (ss_GasLimit (sq_Summary req)) (w_Memo rec).

Lemma quarantine_silent id from reason s tr res s' :
  exec R (quarantine w id from reason) s tr res s' -> tr = [] /\ res <> Ok tt.
Proof.
  intros H. unfold quarantine, r_bind in H. inv_exec H. destruct a; inv_exec H; subst; done.
Qed.
Lemma quarantinePost_silent id from rid reason s tr res s' :
  exec R (quarantinePostSignature w id from rid reason) s tr res s' -> tr = [] /\ res <> Ok tt.
Proof.
  intros H. unfold quarantinePostSignature, r_bind in H. inv_exec H. destruct a; inv_exec H; subst; done.
Qed.
Lemma senderPubKey_trace src s tr res s' :
  exec R (senderPubKey w src) s tr res s' -> sign_requests tr = [].
Proof.
  intros H. unfold senderPubKey in H. inv_exec H. destruct a as [k|[]]; inv_exec H; done.
Qed.

Lemma Controls_Get_state c s r s' : Controls_Get c s = (r, s') -> s' = s.
Proof.
  unfold Controls_Get, tx_bind, tx_try, getControls, select_row.
  destruct (List.find _ _); by intros [= _ <-].
Qed.

Lemma read_state {A} (m : db A) s a s' :
  (forall s r s', m s = (r, s') -> s' = s) -> with_tx m s = (Ok a, s') -> m s = (Ok a, s).
Proof. intros Hm H. apply with_tx_ok in H. by rewrite <-(Hm _ _ _ H) at 2. Qed.

Lemma Withdrawals_Get_state id s r s' : Withdrawals_Get id s = (r, s') -> s' = s.
Proof. unfold Withdrawals_Get, select_row. destruct (List.find _ _); by intros [= _ <-]. Qed.
Lemma GetByWorkRef_state ref s r s' : Sequences_GetByWorkRef ref s = (r, s') -> s' = s.
Proof. unfold Sequences_GetByWorkRef, select_row. destruct (List.find _ _); by intros [= _ <-]. Qed.

(** [Sign] stops without asking for a signature, or it reaches the signer
    with an approved request. *)
Lemma Sign_phases id s tr res s' :
  exec R (Sign w id) s tr res s' ->
  (sign_requests tr = [] /\ res <> Ok tt) \/
  exists rec r doc sm u s1 tr1 tr2,
    tr = tr1 ++ tr2 /\ sign_requests tr1 = [] /\ cleared id rec r /\ Tx.u_signDocBytes u = doc /\
    approved rec r (MkSigningRequest (keyRef w (w_SourceAddress rec)) SignModeDirect doc sm) /\
    exec R (signAndPersist w id rec r doc sm u) s1 tr2 res s'.
Proof.
  intros H. unfold Sign, r_bind in H.
  apply exec_bind in H as (g & s1 & t1 & t2 & -> & Hg & H). apply exec_stmt in Hg as (-> & s0 & _ & Hg).
  destruct g as [rec|e]; [|left; inv_exec H; by subst]. pose proof (read_state _ _ _ _ (Withdrawals_Get_state id) Hg) as Hget.
  case_bool_decide as Hst; cbn [negb] in H; [|left; inv_exec H; by subst].
  apply exec_bind in H as (c & s2 & t3 & t4 & -> & Hc & H). apply exec_stmt in Hc as (-> & s3 & _ & Hc).
  destruct c as [c|e]; [|left; inv_exec H; by subst]. apply read_state in Hc; [|apply Controls_Get_state].
  destruct (oc_SigningPaused c) eqn:Hp; [left; inv_exec H; by subst|].
  apply exec_bind in H as (r & s4 & t5 & t6 & -> & Hr & H). apply exec_stmt in Hr as (-> & s5 & _ & Hr).
  destruct r as [r|e]; [|left; inv_exec H; by subst]. apply read_state in Hr; [|apply GetByWorkRef_state].
  case_bool_decide as Hrs; cbn [negb] in H; [|left; apply quarantine_silent in H as [-> ?]; done].
  pose proof (Withdrawals_Get_ok _ _ _ _ Hget) as (_ & _ & Hid). rewrite Hid in *.
  destruct (w_AccountNumber rec) as [acct|] eqn:Ha, (w_Sequence rec) as [seq|] eqn:Hq,
    (w_FeeAmountBaseUnits rec) as [fee|] eqn:Hf, (w_GasLimit rec) as [gl|] eqn:Hgl;
    try (left; apply quarantine_silent in H as [-> ?]; done).
  destruct ((acct =? r_AccountNumber r) && (seq =? r_Sequence r)) eqn:Hm; cbn [negb] in H;
    [|left; apply quarantine_silent in H as [-> ?]; done].
  apply andb_true_iff in Hm as [E1%Z.eqb_eq E2%Z.eqb_eq]. subst acct seq.
  destruct (build_for rec) as [u0|]; [|left; apply quarantine_silent in H as [-> ?]; done].
  apply exec_bind in H as (pk & s6 & t7 & t8 & -> & Hk & H). apply senderPubKey_trace in Hk.
  assert (forall t, sign_requests (t7 ++ t) = sign_requests t) as Htr.
  { intros t. by rewrite sign_requests_app, Hk. }
  destruct pk as [pk|e].
  2:{ left. cbn [app]. rewrite Htr. destruct e; (apply quarantine_silent in H as [-> ?] || inv_exec H); by subst. }
  destruct (Tx.SignDoc _ _ _ _ _ _) as [[[doc sm] u]|] eqn:Hdoc;
    [|left; cbn [app]; rewrite Htr; apply quarantine_silent in H as [-> ?]; done].
  destruct (summaryMismatch _ _ _ _ _ _) eqn:Hmis;
    [left; cbn [app]; rewrite Htr; apply quarantine_silent in H as [-> ?]; done|].
  right. exists rec, r, doc, sm, u, s6, t7, t8. apply summaryMismatch_None in Hmis as [Hsm Hch].
  apply Tx.SignDoc_derived in Hdoc as (Hd & Hu & _).
  split_and!; [done..| |done| |done].
  - unfold cleared. rewrite Ha, Hq. split_and!; eauto.
  - unfold approved. simpl. split_and!; [done..|]. by exists fee.
Qed.

(** The signed transaction in the database: the bytes carry a signature that
    verifies over the approved document, and the hash is their hash. *)
Definition persisted (id : string) (doc sig pk : bytes) (s : Store) : Prop :=
  exists x bz body auth, x ∈ st_withdrawals s /\ w_WithdrawalID x = id /\
    w_Status x = WithdrawalSigned /\ w_TxHash x = Some (Hash.TxHash bz) /\
    marshalTxRaw body auth [sig] = Ok bz /\ (bz <> [] -> w_SignedTxBytes x = bz) /\
    pubkey_VerifySignature pk doc sig = true.

Lemma signTx_ok id rid bz h s s' :
  signTx id rid bz h s = (Ok tt, s') ->
  exists x, x ∈ st_withdrawals s' /\ w_WithdrawalID x = id /\ w_Status x = WithdrawalSigned /\
    w_TxHash x = Some h /\ (bz <> [] -> w_SignedTxBytes x = bz).
Proof.
  intros H. unfold signTx in H. inv_tx1 H. destruct a.
  apply Withdrawals_UpdateStatus_ok in Hm as (_ & x & Hx & Hid & Hst & ->).
  apply Sequences_UpdateStatus_ok in H as (_ & r & _ & _ & _ & ->).
  exists (withdrawal_set WithdrawalSigned (st_now s) (signed_update bz h) x).
  split_and!; [|done..|].
  - rewrite withdrawals_set_sequences, withdrawals_set_rows.
    apply update_rows_elem; [done|]. by apply w_at_true.
  - simpl. by destruct bz.
Qed.

Lemma signAndPersist_ok id rec r doc sm u s tr s' :
  Tx.u_signDocBytes u = doc -> exec R (signAndPersist w id rec r doc sm u) s tr (Ok tt) s' ->
  exists resp,
    answered (CSign (MkSigningRequest (keyRef w (w_SourceAddress rec)) SignModeDirect doc sm)) (Ok resp) ∈ tr /\
    persisted id doc (sp_Signature resp) (sp_PubKeyCompressed resp) s'.
Proof.
  intros Hu H. unfold signAndPersist in H. inv_exec H.
  destruct a as [resp|e]; [|by destruct e; (apply quarantine_silent in H as [_ []] || inv_exec H)].
  destruct (VerifySignedResponse _ _ _) eqn:Hv; [by apply quarantinePost_silent in H as [_ []]|].
  destruct (Tx.Assemble u _) as [[bz h]|] eqn:Hasm; [|by apply quarantinePost_silent in H as [_ []]].
  inv_exec H. apply with_tx_ok, signTx_ok in H as (x & Hx & Hid & Hst & Hh & Hb).
  apply Tx.Assemble_ok in Hasm as (-> & Hmar & _). exists resp. split; [by left|].
  exists x, bz, (Tx.u_bodyBytes u), (Tx.u_authInfoBytes u). split_and!; try done.
  unfold VerifySignedResponse in Hv. case_bool_decide; [done|].
  destruct (Tx.compressed _); [|done]. destruct (_ =? 64)%nat; [|done].
  by destruct (pubkey_VerifySignature _ _ _).
Qed.

Lemma signAndPersist_requests id rec r doc sm u s tr res s' :
  exec R (signAndPersist w id rec r doc sm u) s tr res s' ->
  sign_requests tr = [MkSigningRequest (keyRef w (w_SourceAddress rec)) SignModeDirect doc sm].
Proof.
  intros H. unfold signAndPersist in H. inv_exec H. enough (tr1 = []) as -> by done.
  destruct a as [resp|e]; [|by destruct e; (apply quarantine_silent in H as [-> _] || inv_exec H)].
  destruct (VerifySignedResponse _ _ _); [by apply quarantinePost_silent in H as [-> _]|].
  destruct (Tx.Assemble u _) as [[bz h]|]; [|by apply quarantinePost_silent in H as [-> _]].
  by inv_exec H.
Qed.

End signing.

(** A simulated withdrawal with its reservation, and a signer that answers. *)
Definition ex_simulated : WithdrawalRecord :=
  MkWithdrawal "w1" "k1" "sovr-1" "sovr1src" "sovr1dst" BaseDenom 1500 "memo" (Some 7) (Some 5)
    (Some 80000) (Some 120000) (Some 120) SignModeDirect [] None None None ""
    WithdrawalTransactionSimulated 5 5.
Definition ex_reserved : SequenceReservation :=
  MkReservation 1 "sovr-1" "sovr1src" 7 5 (MkWorkRef WorkWithdrawal "w1") SequenceReserved 5 5.
Definition ex_sign_store : Store := set_rows [ex_reserved] (ex_w_store ex_simulated).
Definition ex_signer : answers :=
  MkAnswers (Err ErrOther) (Err ErrClientNotFound) (Err ErrOther) (Err ErrOther) (Err ErrOther)
    (Err ErrOther) (Ok Sample.key) (Ok (MkSigningResponse "sovr1src" (repeat x01 64) Sample.key)) 0.
Definition ex_sign_run : outcome (result err unit) :=
  run (answering ex_signer) (Sign (X := Sample.sample) ex_workflow "w1") ex_sign_store.


(** ** Confirmation *)

Lemma depth_exact latest height :
  -1 <= latest - height < 2 ^ 63 -> depth latest height = latest - height + 1.
Proof.
  intros H. unfold depth, asU64, Sequences.wrap64.
  rewrite Z.add_mod_idemp_l by lia. rewrite Z.mod_small; lia.
Qed.

Section confirmation.
Context (w : Workflow) (R : Store -> Store -> Prop).

Definition has_status (id : string) (status : WithdrawalStatus) (s : Store) : Prop :=
  exists x, x ∈ st_withdrawals s /\ w_WithdrawalID x = id /\ w_Status x = status.

Lemma UpdateStatus_has id from to u s s' :
  Withdrawals_UpdateStatus id from to u s = (Ok tt, s') -> has_status id to s'.
Proof.
  intros (_ & x & Hx & Hid & Hst & ->)%Withdrawals_UpdateStatus_ok.
  exists (withdrawal_set to (st_now s) u x). rewrite withdrawals_set_rows. split_and!; [|done..].
  apply update_rows_elem; [done|]. by apply w_at_true.
Qed.

(** The evidence of a final verdict: a transaction in a block with the
    verdict's code, and for success a node status deep enough. *)
Definition verdict (info : TxInfo) (tr : trace) (out : Outcome) (id : string) (s : Store) : Prop :=
  match out with
  | OutcomeExecSuccess =>
      ti_Code info = 0 /\ has_status id WithdrawalConfirmed s /\
      exists st, answered CNodeStatus (Ok st) ∈ tr /\
        cfg_Confirmations (wf_cfg w) <= depth (ns_LatestHeight st) (ti_Height info)
  | OutcomeExecFailed => ti_Code info <> 0 /\ has_status id WithdrawalFailed s
  | _ => True
  end.

Lemma confirmIncluded_verdict id info s tr out s' :
  exec R (confirmIncluded w id info) s tr (Some out, None) s' -> verdict info tr out id s'.
Proof.
  intros H. unfold confirmIncluded in H. destruct (Z.eqb_spec (ti_Code info) 0) as [Hc|Hc]; cbn [negb] in H.
  - inv_exec H. destruct a as [st|e]; [|inv_exec H; by simplify_eq].
    destruct (Z.ltb_spec (depth (ns_LatestHeight st) (ti_Height info)) (cfg_Confirmations (wf_cfg w)));
      [inv_exec H; by simplify_eq|].
    inv_exec H. destruct a as [[]|e]; [|done]. injection H as ->. apply with_tx_ok in Hx.
    split_and!; [done|by eapply UpdateStatus_has|]. exists st. split; [by left|done].
  - inv_exec H. destruct a as [[]|e]; [|done]. injection H as ->. apply with_tx_ok in Hx.
    split; [done|by eapply UpdateStatus_has].
Qed.

Lemma confirmMissing_out id rec s tr out e s' :
  exec R (confirmMissing w id rec) s tr (Some out, e) s' ->
  out <> OutcomeExecSuccess /\ out <> OutcomeExecFailed.
Proof.
  intros H. unfold confirmMissing in H. case_bool_decide.
  - apply exec_bind in H as (r & s1 & t1 & t2 & -> & _ & H). inv_exec H. by simplify_eq.
  - apply exec_bind in H as (now & s1 & t1 & t2 & -> & _ & H).
    destruct (_ <? _); [inv_exec H; by simplify_eq|].
    apply exec_bind in H as (r & s2 & t3 & t4 & -> & _ & H). inv_exec H. by simplify_eq.
Qed.

Lemma verdict_mono info tr tr' out id s :
  (forall c, c ∈ tr -> c ∈ tr') -> verdict info tr out id s -> verdict info tr' out id s.
Proof.
  intros Ht. destruct out; try done. intros (? & ? & st & Hst & ?). split_and!; eauto.
Qed.

(** Final verdicts rest on chain evidence.  In every execution of
    [Confirm], whatever the other workers do, CONFIRMED or FAILED is
    reported only when the node returned the withdrawal's own transaction
    hash with a block height: FAILED only on a non-zero code, CONFIRMED only
    on code zero and, as long as the node's reported height is not more
    than one block behind the transaction's, only with the configured number
    of confirmations on top of it. *)
Theorem confirm_on_evidence (id : string) (s s' : Store) (tr : trace) (out : Outcome)
    (Hout : out = OutcomeExecSuccess \/ out = OutcomeExecFailed)
    (H : exec R (Confirm w id) s tr (Some out, None) s') :
  exists rec h info, (exists s1, Withdrawals_Get id s1 = (Ok rec, s1)) /\ w_TxHash rec = Some h /\
    answered (CTx h) (Ok (Some info)) ∈ tr /\ ti_Height info <> 0 /\
    (out = OutcomeExecFailed -> ti_Code info <> 0 /\ has_status id WithdrawalFailed s') /\
    (out = OutcomeExecSuccess -> ti_Code info = 0 /\ has_status id WithdrawalConfirmed s' /\
       exists st, answered CNodeStatus (Ok st) ∈ tr /\
         (-1 <= ns_LatestHeight st - ti_Height info < 2 ^ 63 ->
            cfg_Confirmations (wf_cfg w) <= ns_LatestHeight st - ti_Height info + 1)).
Proof.
  assert (exists rec h info, (exists s1, Withdrawals_Get id s1 = (Ok rec, s1)) /\ w_TxHash rec = Some h /\
    answered (CTx h) (Ok (Some info)) ∈ tr /\ ti_Height info <> 0 /\ verdict info tr out id s') as Hev.
  { unfold Confirm in H. apply exec_bind in H as (g & s1 & t1 & t2 & -> & Hg & H).
    apply exec_stmt in Hg as (-> & s0 & _ & Hg). destruct g as [rec|e]; [|by inv_exec H].
    apply read_state in Hg; [|apply Withdrawals_Get_state].
    destruct (_ || _); cbn [negb] in H; [|by inv_exec H].
    destruct (w_TxHash rec) as [h|] eqn:Hh; [|by inv_exec H].
    apply exec_bind in H as (l & s2 & t3 & t4 & -> & Hl & H). apply exec_ask in Hl as [-> ->].
    destruct (Sequences.lookup_failed l) eqn:Hlf; [by inv_exec H|].
    assert (forall rec s t, exec R (confirmMissing w id rec) s t (Some out, None) s' -> False) as Hno.
    { intros r0 s3 t Hx. apply confirmMissing_out in Hx. by destruct Hx, Hout. }
    destruct l as [[info|]|e]; try (by apply Hno in H).
    destruct (Z.eqb_spec (ti_Height info) 0); cbn [negb] in H; [by apply Hno in H|].
    exists rec, h, info. split_and!; [eauto|done|by left|done|].
    destruct (bool_decide (w_Status rec = WithdrawalBroadcast)).
    - apply exec_bind in H as (r & s3 & t5 & t6 & -> & _ & H). destruct r as [[]|e]; [|by inv_exec H].
      apply confirmIncluded_verdict in H. eapply verdict_mono; [|exact H].
      intros c Hc. rewrite app_assoc. apply elem_of_app. right. apply elem_of_app. by right.
    - apply confirmIncluded_verdict in H. eapply verdict_mono; [|exact H].
      intros c Hc. by right. }
  destruct Hev as (rec & h & info & Hg & Hh & Hin & Hz & Hv). exists rec, h, info.
  split_and!; try done; intros ->; [done|]. destruct Hv as (Hc & Hs & st & Hst & Hd).
  split_and!; [done..|]. exists st. split; [done|]. intros Hr. by rewrite depth_exact in Hd.
Qed.
End confirmation.

(** A broadcast withdrawal whose transaction is in block 10 with code 0. *)
Definition ex_broadcast : WithdrawalRecord :=
  MkWithdrawal "w1" "k1" "sovr-1" "sovr1src" "sovr1dst" BaseDenom 1500 "memo" (Some 7) (Some 5)
    (Some 80000) (Some 120000) (Some 120) SignModeDirect [x01] (Some "AB") (Some 10) (Some 0) ""
    WithdrawalIncluded 5 5.
Definition in_block (height latest : Z) : answers :=
  MkAnswers (Err ErrOther) (Ok (Some (MkTxInfo "AB" height 0 "" [] []))) (Err ErrOther) (Err ErrOther)
    (Err ErrOther) (Ok (MkNodeStatus "sovr-1" latest false)) (Err ErrOther) (Err ErrOther) 0.

Lemma confirm_on_evidence_witness :
  let s := ex_w_store ex_broadcast in
  has_status "w1" WithdrawalConfirmed (o_state (run (answering (in_block 10 11)) (Confirm ex_workflow "w1") s)).
Proof.
  intros s.
  pose proof (confirm_on_evidence ex_workflow eq "w1" s
    (o_state (run (answering (in_block 10 11)) (Confirm ex_workflow "w1") s))
    [answered (CTx "AB") (Ok (Some (MkTxInfo "AB" 10 0 "" [] [])));
     answered CNodeStatus (Ok (MkNodeStatus "sovr-1" 11 false))] OutcomeExecSuccess (or_introl eq_refl))
    as (rec & h & info & _ & _ & _ & _ & _ & Hc).
  - exists s. split; [reflexivity|]. eexists _, _. split; [reflexivity|].
    eexists _, _. split; [reflexivity|]. exists s. split; [reflexivity|]. vm_compute. auto.
  - destruct (Hc eq_refl) as (_ & Hs & _). exact Hs.
Defined.

(** Outside that range the [uint64] difference wraps: a node status two or
    more blocks behind the transaction's height counts as an enormous
    depth. *)
Lemma depth_wraps latest height :
  2 <= height - latest <= 2 ^ 63 -> depth latest height = 2 ^ 64 - (height - latest) + 1.
Proof.
  intros H. unfold depth, asU64, Sequences.wrap64. rewrite Z.add_mod_idemp_l by lia.
  replace (latest - height + 1) with (2 ^ 64 - (height - latest) + 1 + (-1) * 2 ^ 64) by lia.
  rewrite Z.mod_add by lia. apply Z.mod_small. lia.
Qed.

(** With two confirmations required, a transaction in block 10 is confirmed
    on the word of a node at height 8. *)
Lemma confirm_behind_node :
  o_value (run (answering (in_block 10 8)) (Confirm ex_workflow "w1") (ex_w_store ex_broadcast))
  = (Some OutcomeExecSuccess, None).
Proof. vm_compute. reflexivity. Qed.

(** ** Cancellation *)

Lemma sequences_set_rows l s : st_sequences (set_rows (R := SequenceReservation) l s) = l.
Proof. exact (rows_set l s). Qed.

Lemma GetByWorkRef_result ref s :
  Sequences_GetByWorkRef ref s =
  (match List.find (fun r => bool_decide (r_WorkRef r = ref)) (st_sequences s) with
   | Some r => Ok r | None => Err ErrNotFound end, s).
Proof. unfold Sequences_GetByWorkRef, select_row. simpl. by destruct (List.find _ _). Qed.

(** Cancellation gives the reservation back.  When the transaction of
    [Cancel] commits, the move to CANCELLED was a legal one, the withdrawal is
    CANCELLED, it counts nothing towards its source's commitments, and its
    sequence reservation, if any, is no longer RESERVED: it was released when
    it was, and is untouched otherwise. *)
Theorem cancel_releases (id : string) (from : WithdrawalStatus) (s s' : Store)
    (Hs : schema_ok s)
    (H : cancelTx id from s = (Ok tt, s')) :
  WithdrawalCancelled ∈ withdrawalTransitions from /\
  has_status id WithdrawalCancelled s' /\
  (forall x c src, x ∈ st_withdrawals s' -> w_WithdrawalID x = id -> committed s' c src x = false) /\
  (forall r, r ∈ st_sequences s -> r_WorkRef r = withdrawal_ref id ->
     exists r', r' ∈ st_sequences s' /\ r_WorkRef r' = withdrawal_ref id /\ slot_key r' = slot_key r /\
       r_Status r' = if bool_decide (r_Status r = SequenceReserved) then SequenceReleased
                     else r_Status r).
Proof.
  unfold cancelTx in H. inv_tx1 H. destruct a. inv_tx1 H.
  pose proof (Withdrawals_UpdateStatus_keeps id from WithdrawalCancelled no_withdrawal_update s Hs) as Hs0.
  rewrite Hm in Hs0. simpl in Hs0.
  pose proof (UpdateStatus_has _ _ _ _ _ _ Hm) as Hhas.
  apply Withdrawals_UpdateStatus_ok in Hm as (Hleg & _ & _ & _ & _ & Heq).
  assert (st_sequences s0 = st_sequences s) as Hseq by (rewrite Heq; apply sequences_set_withdrawals).
  clear Heq. unfold tx_try in Hm0. rewrite GetByWorkRef_result in Hm0. injection Hm0 as <- <-.
  assert (forall t, has_status id WithdrawalCancelled t -> schema_ok t ->
    forall x c src, x ∈ st_withdrawals t -> w_WithdrawalID x = id -> committed t c src x = false) as Hcomm.
  { intros t (y & Hy & Hidy & Hsty) Ht x c src Hx Hid.
    assert (x = y) as -> by (apply (withdrawal_unique t); congruence).
    unfold committed. rewrite Hsty. apply andb_false_iff. left. apply andb_false_iff. by right. }
  split; [done|]. rewrite <-Hseq.
  destruct (List.find _ (st_sequences s0)) as [res|] eqn:Hf.
  - apply find_elem in Hf as Hf'. destruct Hf' as [Hin Hw]. apply bool_decide_eq_true in Hw.
    assert (forall r, r ∈ st_sequences s0 -> r_WorkRef r = withdrawal_ref id -> r = res) as Hone.
    { intros r Hr Hwr. pose proof (Sequences.work_ref_found s0 r Hs0 Hr) as E. rewrite Hwr in E. congruence. }
    case_bool_decide as Hst.
    + pose proof (Sequences_UpdateStatus_keeps (r_ID res) SequenceReserved SequenceReleased s0 Hs0) as Hs1.
      rewrite H in Hs1. simpl in Hs1. apply Sequences_UpdateStatus_ok in H as (_ & r0 & _ & _ & _ & E).
      assert (has_status id WithdrawalCancelled s') as Hhas'.
      { rewrite E. unfold has_status. by rewrite withdrawals_set_sequences. }
      split_and!; [done|by apply Hcomm|]. intros r Hr Hwr. rewrite (Hone r Hr Hwr).
      exists (reservation_set SequenceReleased (st_now s0) res). rewrite bool_decide_eq_true_2 by done.
      split_and!; [|done..]. rewrite E, sequences_set_rows. apply update_rows_elem; [done|].
      unfold r_at. by rewrite Z.eqb_refl, bool_decide_eq_true_2.
    + injection H as <-. split_and!; [done|by apply Hcomm|]. intros r Hr Hwr. exists r.
      rewrite (Hone r Hr Hwr), bool_decide_eq_false_2 by done. done.
  - injection H as <-. split_and!; [done|by apply Hcomm|]. intros r Hr Hwr.
    apply List.find_none with (x := r) in Hf; [|by apply list_elem_of_In].
    by apply bool_decide_eq_false in Hf.
Qed.

Lemma ex_sign_schema : schema_ok ex_sign_store.
Proof.
  apply (schema_set (R := SequenceReservation)); [apply ex_w_schema|]. split_and!.
  - intros [|[|i]] r; [intros [= <-]; reflexivity | discriminate..].
  - intros [|[|i]] [|[|j]] r1 r2 k; try discriminate; reflexivity.
  - intros [|[|i]] [|[|j]] r1 r2 k; try discriminate; reflexivity.
Qed.

Lemma cancel_releases_witness :
  let s' := snd (cancelTx "w1" WithdrawalTransactionSimulated ex_sign_store) in
  exists r', r' ∈ st_sequences s' /\ r_WorkRef r' = withdrawal_ref "w1" /\
    slot_key r' = slot_key ex_reserved /\ r_Status r' = SequenceReleased.
Proof.
  intros s'.
  destruct (cancel_releases "w1" WithdrawalTransactionSimulated ex_sign_store s' ex_sign_schema)
    as (_ & _ & _ & Hr).
  - vm_compute. reflexivity.
  - apply (Hr ex_reserved); [by left | reflexivity].
Defined.

(** A withdrawal under review that holds signed bytes can be cancelled: its
    status becomes CANCELLED and its amount is no longer committed, while the
    signed transaction is still valid. *)
Definition ex_signed_review : WithdrawalRecord :=
  MkWithdrawal "w1" "k1" "sovr-1" "sovr1src" "sovr1dst" BaseDenom 1500 "memo" (Some 7) (Some 5)
    (Some 80000) (Some 120000) (Some 120) SignModeDirect [x01] (Some "AB") None None ""
    WithdrawalReviewRequired 5 5.
Lemma cancel_accepts_signed :
  let s := ex_w_store ex_signed_review in
  let r := run (answering no_answers) (Cancel "w1") s in
  o_value r = Ok tt /\
  map w_SignedTxBytes (st_withdrawals (o_state r)) = [[x01]] /\
  exposure 300 s "sovr-1" "sovr1src" = 1800 /\ exposure 300 (o_state r) "sovr-1" "sovr1src" = 0.
Proof. vm_compute. auto. Qed.

End WithdrawalLaws.
