(* ===== verification/SignerSystem.v ===== *)
(** * SignerSystem: the withdrawal workflow with its signer

    The workflow of [Withdrawals] when its two signer calls are answered by a
    signer of [Signers], [RemoteSigner] or [ExecSigner]: a withdrawal that is
    ready gets signed and persisted by a remote signing service that holds its
    key, and one whose service cannot be reached is left as it is. *)

From stdpp Require Import base list strings gmap.
From Stdlib Require Import ZArith Lia Ascii String Strings.Byte.
From S2P Require Import Prelude Workers Text Storage Database SqlStore SqlLaws Chain Hash Address Tx Sample.
From S2P Require Import Signers SignerWire SignerWireLaws RemoteSigner SignerLaws RemoteLaws SignerSample.
From S2P Require Import Withdrawals WithdrawalLaws.
Import SqlStore SqlLaws Withdrawals WithdrawalLaws.

Open Scope string_scope.
Open Scope list_scope.
Open Scope Z_scope.

Module SignerSystem.

(** The calls of a workflow are answered by the signer. *)
Definition public_key (r : result Signer.error Signer.PublicKeyResponse) : result Signer.error bytes :=
  match r with Ok p => Ok (Signer.pk_PublicKeyCompressed p) | Err e => Err e end.
Definition uses (o : oracle (C := call)) (sg : Signer.TransactionSigner) : Prop :=
  (forall ref, o _ (CGetPublicKey ref) = Signer.answer (public_key (Signer.GetPublicKey sg None ref))) /\
  (forall req, o _ (CSign req) = Signer.answer (Signer.Sign sg None req)).

(** An oracle that does, and fails every other call. *)
Definition answered_by (sg : Signer.TransactionSigner) : oracle (C := call) := fun X c =>
  match c in call X return X with
  | CGetPublicKey ref => Signer.answer (public_key (Signer.GetPublicKey sg None ref))
  | CSign req => Signer.answer (Signer.Sign sg None req)
  | c => answering no_answers _ c
  end.

Lemma answered_by_uses sg : uses (answered_by sg) sg.
Proof. done. Qed.

Section system.
Context `{X : Ext} (w : Workflow).

(** A simulated withdrawal with its reservation, ready to be signed in [s]:
    signing is not paused, the record and the reservation agree, the approved
    transfer builds. *)
Record ready (s : Store) (id : string) (rec : WithdrawalRecord) (r : SequenceReservation)
    (fee gas : Z) (u : Tx.UnsignedTx) : Prop := {
  ready_get : Withdrawals_Get id s = (Ok rec, s);
  ready_status : w_Status rec = WithdrawalTransactionSimulated;
  ready_controls : exists c, Controls_Get (w_ChainID rec) s = (Ok c, s) /\ oc_SigningPaused c = false;
  ready_reservation : Sequences_GetByWorkRef (withdrawal_ref id) s = (Ok r, s);
  ready_reserved : r_Status r = SequenceReserved;
  ready_row : select_row (fun x : SequenceReservation => r_ID x =? r_ID r) s = (Ok r, s);
  ready_numbers : w_AccountNumber rec = Some (r_AccountNumber r) /\ w_Sequence rec = Some (r_Sequence r);
  ready_fee : w_FeeAmountBaseUnits rec = Some fee /\ w_GasLimit rec = Some gas /\ 0 <= fee;
  ready_chain : w_ChainID rec = cfg_ChainID (wf_cfg w) /\ w_Denom rec = Tx.Denom /\ 0 <= w_AmountBaseUnits rec;
  ready_builds : build_for rec = Ok u }.

(** What [Sign] does once it has the answer to its request for the key. *)
Definition after_key (id : string) (rec : WithdrawalRecord) (r : SequenceReservation) (fee gas : Z)
    (u : Tx.UnsignedTx) (k : result err bytes) : handler (result err unit) :=
  match k with
  | Err ErrSignerDown => Done (Err ErrSignerUnavailable)
  | Err _ => quarantine w id (w_Status rec) "public key fetch failed"
  | Ok pubKey =>
      match Tx.SignDoc u (w_ChainID rec) (r_AccountNumber r) (r_Sequence r)
              (Tx.MkFee (Tx.FormatUint fee) gas) pubKey with
      | Err _ => quarantine w id (w_Status rec) "sign doc encoding failed"
      | Ok (signDocBytes, summary, u) =>
          match summaryMismatch w rec fee (r_Sequence r) (r_AccountNumber r) summary with
          | Some _ => quarantine w id (w_Status rec) "sign doc does not match approved request"
          | None => signAndPersist w id rec r signDocBytes summary u
          end
      end
  end.

(** [Sign] reaches it on a ready withdrawal, having changed nothing. *)
Lemma ready_run (o : oracle (C := call)) s id rec r fee gas u :
  ready s id rec r fee gas u ->
  let rest := after_key id rec r fee gas u (o _ (CGetPublicKey (keyRef w (w_SourceAddress rec)))) in
  o_value (run o (Sign w id) s) = o_value (run o rest s) /\
  o_state (run o (Sign w id) s) = o_state (run o rest s).
Proof.
  intros [Hg Hst (c & Hc & Hp) Hr Hrs _ [Ha Hq] (Hf & Hgl & _) _ Hb].
  pose proof (Withdrawals_Get_ok _ _ _ _ Hg) as (_ & _ & Hid).
  unfold Sign, r_bind, stmt. cbn [p_bind run].
  rewrite (with_tx_commit _ _ _ _ Hg). cbn [p_bind run]. rewrite bool_decide_eq_true_2 by done. cbn [negb p_bind run].
  rewrite (with_tx_commit _ _ _ _ Hc). cbn [p_bind run]. rewrite Hp. cbn [p_bind run]. rewrite Hid.
  rewrite (with_tx_commit _ _ _ _ Hr). cbn [p_bind run]. rewrite bool_decide_eq_true_2 by done.
  cbn [negb p_bind run]. rewrite Ha, Hq, Hf, Hgl, !Z.eqb_refl. cbn [andb negb p_bind run]. rewrite Hb.
  unfold senderPubKey, ask, after_key. cbn [p_bind run].
  destruct (o _ (CGetPublicKey _)) as [k|e]; [done|]. by destruct e.
Qed.

(** A signer that cannot be reached holds nothing up but itself.  When the
    remote signing service fails with UNAVAILABLE, a deadline or a cancellation,
    [Sign] of a ready withdrawal reports the signer unavailable and leaves the
    database exactly as it was: the withdrawal stays ready, with its reservation,
    and is not quarantined. *)
Theorem unreachable_signer_waits (o : oracle (C := call)) (Invoke : RemoteSigner.channel)
    (st : RemoteSigner.Status) (s : Store) (id : string) (rec : WithdrawalRecord) (r : SequenceReservation)
    (fee gas : Z) (u : Tx.UnsignedTx) (Hr : ready s id rec r fee gas u)
    (Ho : uses o (RemoteSigner.remote Invoke)) (Hdown : forall ctx m raw, Invoke ctx m raw = Err st)
    (Hst : RemoteLaws.unreachable st)
    (Hfit : SignerWireLaws.fits SignerWire.GetPublicKeyRequest_Size
              (SignerWire.MkKeyRequest (keyRef w (w_SourceAddress rec)))) :
  o_value (run o (Sign w id) s) = Err ErrSignerUnavailable /\ o_state (run o (Sign w id) s) = s.
Proof.
  destruct (ready_run o s id rec r fee gas u Hr) as [-> ->]. destruct Ho as [Hk _]. rewrite Hk.
  destruct (SignerWireLaws.GetPublicKeyRequest_roundtrip _ Hfit) as (raw & Hm & _). simpl.
  unfold RemoteSigner.GetPublicKey, RemoteSigner.svc_GetPublicKey, RemoteSigner.unary. rewrite Hm, Hdown. simpl.
  by rewrite RemoteLaws.unreachable_unavailable.
Qed.

(** The answer passes the workflow's own checks. *)
Lemma response_verified doc sig pk ref source bz :
  doc <> [] -> Tx.compressed pk = true -> List.length sig = 64%nat ->
  pubkey_VerifySignature pk doc sig = true -> Address.vr_Valid (Address.ValidateAccountAddress source) = true ->
  bech32_DecodeAndConvert (Address.vr_NormalizedAddress (Address.ValidateAccountAddress source)) = Ok bz ->
  snd bz = pubkey_Address pk ->
  VerifySignedResponse doc (MkSigningResponse ref sig pk) source = None.
Proof.
  intros Hd Hc Hl Hv Ha Hb Hp. unfold VerifySignedResponse. simpl.
  rewrite bool_decide_eq_false_2, Hc, Hl, Hv, Ha, Hb by done. simpl. destruct bz as [hrp b].
  by rewrite bool_decide_eq_true_2.
Qed.

(** The two status writes go through. *)
Lemma signTx_commits s id rec r bz h :
  Withdrawals_Get id s = (Ok rec, s) -> w_Status rec = WithdrawalTransactionSimulated ->
  select_row (fun x : SequenceReservation => r_ID x =? r_ID r) s = (Ok r, s) -> r_Status r = SequenceReserved ->
  exists s', signTx id (r_ID r) bz h s = (Ok tt, s').
Proof.
  intros Hg Hst Hr Hrs. unfold signTx, tx_bind. rewrite Withdrawals_UpdateStatus_eq.
  change (ValidateWithdrawalTransition WithdrawalTransactionSimulated WithdrawalSigned) with (@None err).
  simpl amountPtrText. cbv iota. unfold Withdrawals_Get, select_row in Hg.
  change (rows s) with (st_withdrawals s) in Hg. destruct (List.find _ (st_withdrawals s)) as [x|]; [|done].
  injection Hg as ->. rewrite bool_decide_eq_true_2 by done.
  rewrite Sequences_UpdateStatus_eq.
  change (ValidateSequenceTransition SequenceReserved SequenceSigned) with (@None err). cbv iota.
  rewrite sequences_set_withdrawals. unfold select_row in Hr.
  change (rows s) with (st_sequences s) in Hr. destruct (List.find _ (st_sequences s)) as [y|]; [|done].
  injection Hr as ->. rewrite bool_decide_eq_true_2 by done. by eexists.
Qed.

(** The four messages of the two calls fit in memory. *)
Definition exchange_fits (ref : string) (doc : bytes) (sum : SigningSummary) (sig pk : bytes) : Prop :=
  SignerWireLaws.fits SignerWire.GetPublicKeyRequest_Size (SignerWire.MkKeyRequest ref) /\
  SignerWireLaws.fits SignerWire.GetPublicKeyResponse_Size
    (RemoteLaws.wire_key (Signer.MkPublicKey ref Signer.AlgorithmSecp256k1 pk)) /\
  SignerWireLaws.fits SignerWire.SignRequest_Size
    (RemoteLaws.wire_request (MkSigningRequest ref SignModeDirect doc sum)) /\
  SignerWireLaws.fits SignerWire.SignResponse_Size (RemoteLaws.wire_response (MkSigningResponse ref sig pk)).

Context `{W : Wire}.

(** The remote service over the local signer, on a key it holds and a document
    it accepts. *)
Lemma remote_answers keys ref priv doc sum sig pk :
  pk = privkey_PubKey priv -> keys !! ref = Some priv -> Tx.compressed pk = true ->
  Local.Sign keys None (MkSigningRequest ref SignModeDirect doc sum) = Ok (MkSigningResponse ref sig pk) ->
  List.length sig = 64%nat -> exchange_fits ref doc sum sig pk ->
  let sg := RemoteSigner.remote (RemoteSigner.serve (Local.signer keys)) in
  public_key (Signer.GetPublicKey sg None ref) = Ok pk /\
  Signer.Sign sg None (MkSigningRequest ref SignModeDirect doc sum) = Ok (MkSigningResponse ref sig pk).
Proof.
  intros Epk Hk Hc Hs Hl (F1 & F2 & F3 & F4) sg.
  assert (Signer.GetPublicKey (Local.signer keys) None ref =
    Ok (Signer.MkPublicKey ref Signer.AlgorithmSecp256k1 pk)) as Hg.
  { simpl. unfold Local.key. by rewrite Hk, Epk. }
  change (Local.Sign keys) with (Signer.Sign (Local.signer keys)) in Hs.
  assert (List.length pk = 33%nat) as Hpl.
  { unfold Tx.compressed in Hc. apply andb_true_iff in Hc as [Hc _]. by apply Nat.eqb_eq in Hc. }
  subst sg. cbn [RemoteSigner.remote Signer.GetPublicKey Signer.Sign]. split.
  - rewrite RemoteLaws.remote_key_is_the_backends; rewrite ?Hg; [|done..].
    simpl. unfold RemoteLaws.key_usable. simpl. by rewrite Hpl.
  - rewrite RemoteLaws.remote_Sign_eq; rewrite ?Hs; [|done..].
    simpl. unfold RemoteLaws.signature_sized. simpl. by rewrite Hl.
Qed.

(** The summary of the rebuilt transfer matches the approved record. *)
Lemma ready_summary `{!NumericLaws X, !Tx.EncodingLaws} s id rec r fee gas u pk doc sum u' :
  ready s id rec r fee gas u ->
  Tx.SignDoc u (w_ChainID rec) (r_AccountNumber r) (r_Sequence r) (Tx.MkFee (Tx.FormatUint fee) gas) pk =
    Ok (doc, sum, u') ->
  summaryMismatch w rec fee (r_Sequence r) (r_AccountNumber r) sum = None.
Proof.
  intros [_ _ _ _ _ _ _ (_ & _ & Hfee) (Hch & Hden & Hamt) Hb] Hs.
  destruct (Tx.built_summary _ _ _ _ _ _ _ _ _ _ _ _ _ Hb Hs) as (-> & _).
  unfold summaryMismatch, summary_checks, Tx.FormatUint. simpl.
  rewrite !chars_of_chars, !value_numeral by done. rewrite <-Hch, Hden.
  repeat (rewrite bool_decide_eq_true_2 by done; simpl). done.
Qed.

(** Asking for the signature and persisting the answer. *)
Lemma signAndPersist_run (o : oracle (C := call)) s id rec r doc sum u sig pk bz :
  Withdrawals_Get id s = (Ok rec, s) -> w_Status rec = WithdrawalTransactionSimulated ->
  select_row (fun x : SequenceReservation => r_ID x =? r_ID r) s = (Ok r, s) -> r_Status r = SequenceReserved ->
  o _ (CSign (MkSigningRequest (keyRef w (w_SourceAddress rec)) SignModeDirect doc sum)) =
    Ok (MkSigningResponse (keyRef w (w_SourceAddress rec)) sig pk) ->
  VerifySignedResponse doc (MkSigningResponse (keyRef w (w_SourceAddress rec)) sig pk) (w_SourceAddress rec) = None ->
  Tx.Assemble u (Tx.MkSignature sig pk) = Ok (bz, Hash.TxHash bz) ->
  let out := run o (signAndPersist w id rec r doc sum u) s in
  o_value out = Ok tt /\
  exists x, x ∈ st_withdrawals (o_state out) /\ w_WithdrawalID x = id /\ w_Status x = WithdrawalSigned /\
    w_TxHash x = Some (Hash.TxHash bz) /\ (bz <> [] -> w_SignedTxBytes x = bz).
Proof.
  intros Hg Hst Hr Hrs Ho Hv Ha out.
  destruct (signTx_commits s id rec r bz (Hash.TxHash bz) Hg Hst Hr Hrs) as [s' Htx].
  assert (o_value out = Ok tt /\ o_state out = s') as [-> ->].
  { subst out. unfold signAndPersist, ask. cbn [p_bind run]. rewrite Ho. cbn [p_bind run o_value o_state]. rewrite Hv.
    cbn [sp_Signature sp_PubKeyCompressed]. rewrite Ha. cbn [run atomically].
    by rewrite (with_tx_commit _ _ _ _ Htx). }
  split; [done|]. exact (signTx_ok _ _ _ _ _ _ Htx).
Qed.

(** C7: a ready withdrawal is signed by the service that holds its key.  With
    the signer calls answered through the gRPC client, the wire encoding and
    the reference server by a local signer that holds the source's key, [Sign]
    of a ready withdrawal succeeds, and the database then holds the withdrawal
    as SIGNED with the assembled transaction and its hash. *)
Theorem ready_withdrawal_is_signed `{!WireLaws} (field : Z -> bytes -> bytes)
    `{!SignerLaws.SendLaws field, !NumericLaws X, !Tx.EncodingLaws}
    (o : oracle (C := call)) (keys : Local.keystore) (s : Store) (id : string) (rec : WithdrawalRecord)
    (r : SequenceReservation) (fee gas : Z) (u u' : Tx.UnsignedTx) (priv doc sig bz : bytes)
    (sum : SigningSummary) (sender : string * bytes)
    (Hr : ready s id rec r fee gas u)
    (Ho : uses o (RemoteSigner.remote (RemoteSigner.serve (Local.signer keys))))
    (Hk : keys !! keyRef w (w_SourceAddress rec) = Some priv)
    (Hs : Tx.SignDoc u (w_ChainID rec) (r_AccountNumber r) (r_Sequence r)
            (Tx.MkFee (Tx.FormatUint fee) gas) (privkey_PubKey priv) = Ok (doc, sum, u'))
    (Hdoc : doc <> []) (Hsig : privkey_Sign priv doc = Some sig) (Hlen : List.length sig = 64%nat)
    (Hver : pubkey_VerifySignature (privkey_PubKey priv) doc sig = true)
    (Hval : Address.vr_Valid (Address.ValidateAccountAddress (w_SourceAddress rec)) = true)
    (Hdec : bech32_DecodeAndConvert
              (Address.vr_NormalizedAddress (Address.ValidateAccountAddress (w_SourceAddress rec))) = Ok sender)
    (Haddr : snd sender = pubkey_Address (privkey_PubKey priv))
    (Hraw : marshalTxRaw (Tx.u_bodyBytes u') (Tx.u_authInfoBytes u') [sig] = Ok bz)
    (Hfit : exchange_fits (keyRef w (w_SourceAddress rec)) doc sum sig (privkey_PubKey priv)) :
  let out := run o (Sign w id) s in
  o_value out = Ok tt /\
  exists x, x ∈ st_withdrawals (o_state out) /\ w_WithdrawalID x = id /\ w_Status x = WithdrawalSigned /\
    w_TxHash x = Some (Hash.TxHash bz) /\ (bz <> [] -> w_SignedTxBytes x = bz).
Proof.
  intros out. subst out. destruct (ready_run o s id rec r fee gas u Hr) as [-> ->].
  destruct (SignerLaws.built_signed field _ _ _ _ _ _ _ _ _ _ _ _ _ _ _ _ _
              (ready_builds _ _ _ _ _ _ _ Hr) Hs Hk Hsig Hlen Hver Hdoc Hraw) as [Hl Ha].
  assert (Tx.compressed (privkey_PubKey priv) = true) as Hc by by apply Tx.SignDoc_compressed in Hs.
  destruct (remote_answers keys _ priv doc sum sig _ eq_refl Hk Hc Hl Hlen Hfit) as [Hpk Hsg].
  destruct Ho as [Ho1 Ho2]. rewrite Ho1, Hpk. cbn [Signer.answer after_key]. rewrite Hs.
  rewrite (ready_summary _ _ _ _ _ _ _ _ _ _ _ Hr Hs).
  destruct Hr. apply signAndPersist_run with (sig := sig) (pk := privkey_PubKey priv); try done.
  - by rewrite Ho2, Hsg.
  - by eapply response_verified.
Qed.
End system.

(** ** At a concrete withdrawal *)

#[local] Existing Instances SignerSample.wire SignerSample.wire_laws SignerSample.wired_numeric
  SignerSample.wired_encoding SignerSample.wired_send.

Lemma ex_built : build_for (X := SignerSample.wired) ex_simulated = Ok Sample.built.
Proof. vm_compute. reflexivity. Qed.

Lemma ex_ready : ready (X := SignerSample.wired) ex_workflow ex_sign_store "w1" ex_simulated ex_reserved 120 120000 Sample.built.
Proof.
  split; try (vm_compute; reflexivity).
  - eexists. split; vm_compute; reflexivity.
  - split; reflexivity.
  - split; [reflexivity|]. split; [reflexivity|lia].
  - split; [reflexivity|]. split; [reflexivity|]. vm_compute. discriminate.
Qed.

Definition ex_down : RemoteSigner.Status := RemoteSigner.MkStatus RemoteSigner.Unavailable "connection refused" [].

Lemma unreachable_signer_waits_witness :
  let out := run (answered_by (RemoteSigner.remote (fun _ _ _ => Err ex_down)))
               (Sign (X := SignerSample.wired) ex_workflow "w1") ex_sign_store in
  o_value out = Err ErrSignerUnavailable /\ o_state out = ex_sign_store.
Proof.
  intros out.
  apply (unreachable_signer_waits (X := SignerSample.wired) ex_workflow _ (fun _ _ _ => Err ex_down) ex_down
           ex_sign_store "w1" ex_simulated ex_reserved 120 120000 Sample.built ex_ready (answered_by_uses _)).
  - reflexivity.
  - split; [reflexivity|left; reflexivity].
  - vm_compute. reflexivity.
Defined.

Definition ex_keys : Local.keystore := {["sovr1src" := SignerSample.secret]}.
Local Notation ex_document :=
  (Tx.SignDoc (X := SignerSample.wired) Sample.built "sovr-1" 7 5 (Tx.MkFee (Tx.FormatUint 120) 120000)
     (privkey_PubKey SignerSample.secret)).

Lemma ex_exchange :
  match ex_document with
  | Ok (b :: doc, sum, _) =>
      exchange_fits "sovr1src" (b :: doc) sum (repeat x01 64) (privkey_PubKey SignerSample.secret)
  | _ => False
  end.
Proof. vm_compute. repeat split. Qed.

Lemma ready_withdrawal_is_signed_witness :
  let out := run (answered_by (RemoteSigner.remote (RemoteSigner.serve (Local.signer (X := SignerSample.wired) ex_keys))))
               (Sign (X := SignerSample.wired) ex_workflow "w1") ex_sign_store in
  o_value out = Ok tt /\
  exists x, x ∈ st_withdrawals (o_state out) /\ w_WithdrawalID x = "w1" /\ w_Status x = WithdrawalSigned.
Proof.
  intros out. pose proof ex_exchange as Hx.
  destruct ex_document as [[[doc sum] u']|] eqn:E; [|destruct Hx].
  assert (doc <> []) as Hne by (intros ->; exact Hx).
  assert (exchange_fits "sovr1src" doc sum (repeat x01 64) (privkey_PubKey SignerSample.secret)) as Hfit
    by (destruct doc; [destruct Hx|exact Hx]).
  destruct (ready_withdrawal_is_signed (X := SignerSample.wired) ex_workflow SignerSample.field _ ex_keys
              ex_sign_store "w1" ex_simulated ex_reserved 120 120000 Sample.built u' SignerSample.secret doc
              (repeat x01 64) _ sum ("sovr", Sample.src_bytes) ex_ready (answered_by_uses _)
              eq_refl E Hne eq_refl eq_refl eq_refl ltac:(vm_compute; reflexivity) ltac:(vm_compute; reflexivity)
              eq_refl eq_refl Hfit) as (Hv & x & H1 & H2 & H3 & _).
  split; [exact Hv|]. exists x. split; [exact H1|]. split; [exact H2|exact H3].
Defined.
End SignerSystem.
