(* ===== verification/ReviewResolution.v ===== *)
(** * ReviewResolution: the operator's typed review resolutions

    [go/cmd/sovren-adapter/review_resolution.go]: one transaction moves the
    referenced withdrawal or deposit out of REVIEW_REQUIRED, disposes of the
    withdrawal's sequence reservation and resolves the review row.  The HTTP
    handler returns a status code; the response bodies are left out. *)

From stdpp Require Import base list strings.
From Stdlib Require Import ZArith Lia String Ascii.
From S2P Require Import Prelude Workers Text Storage Database SqlStore SqlLaws Chain.
From S2P Require Import Sequences Interference Withdrawals WithdrawalLaws.
Import SqlStore SqlLaws Interference WithdrawalLaws.

Open Scope string_scope.
Open Scope list_scope.
Open Scope Z_scope.

Module ReviewResolution.

(** A [reviewOutcome] is a string; the ones without a constant are
    [OutcomeOther]. *)
Inductive reviewOutcome : Type :=
| outcomeWithdrawalConfirmed | outcomeWithdrawalFailed | outcomeWithdrawalCancelled
| outcomeDepositApproved | outcomeDepositRejected | outcomeLedgerAcknowledged
| outcomeOther (s : string).
Instance reviewOutcome_eq_dec : EqDecision reviewOutcome.
Proof. solve_decision. Defined.

Definition outcome_string (o : reviewOutcome) : string :=
  match o with
  | outcomeWithdrawalConfirmed => "WITHDRAWAL_CONFIRMED"
  | outcomeWithdrawalFailed => "WITHDRAWAL_FAILED"
  | outcomeWithdrawalCancelled => "WITHDRAWAL_CANCELLED"
  | outcomeDepositApproved => "DEPOSIT_APPROVED"
  | outcomeDepositRejected => "DEPOSIT_REJECTED"
  | outcomeLedgerAcknowledged => "LEDGER_ACKNOWLEDGED"
  | outcomeOther s => s
  end.

Definition outcomesByKind (k : ReviewItemKind) : list reviewOutcome :=
  match k with
  | ReviewKindWithdrawal =>
      [outcomeWithdrawalConfirmed; outcomeWithdrawalFailed; outcomeWithdrawalCancelled]
  | ReviewKindDeposit => [outcomeDepositApproved; outcomeDepositRejected]
  | ReviewKindLedgerEntry => [outcomeLedgerAcknowledged]
  end.

Definition outcomeLegalForKind (k : ReviewItemKind) (o : reviewOutcome) : bool :=
  existsb (fun a => bool_decide (a = o)) (outcomesByKind k).

(** [strconv.ParseInt(s, 10, 64)]. *)
Definition ParseInt (s : string) : option Z :=
  let '(neg, t) := match chars s with
                   | c :: t => if bool_decide (c = "-"%char) then (true, t)
                               else if bool_decide (c = "+"%char) then (false, t) else (false, c :: t)
                   | [] => (false, [])
                   end in
  if bool_decide (t = []) || negb (forallb is_digit t) then None
  else let v := if neg then - value t else value t in
       if (- 2 ^ 63 <=? v) && (v <? 2 ^ 63) then Some v else None.

(** No persisted bytes, and a reservation that is absent, RESERVED or
    RELEASED. *)
Definition pre_sign (x : WithdrawalRecord) (res : option SequenceReservation) : bool :=
  bool_decide (w_SignedTxBytes x = []) &&
  match res with
  | None => true
  | Some r => bool_decide (r_Status r = SequenceReserved) || bool_decide (r_Status r = SequenceReleased)
  end.

Definition disposeReservation (withdrawalID : string) (to : SequenceReservationStatus) : db unit :=
  do r <- tx_try (Sequences_GetByWorkRef (MkWorkRef WorkWithdrawal withdrawalID));
  match r with
  | Err ErrNotFound => tx_ret tt
  | Err e => tx_fail e
  | Ok res => if bool_decide (r_Status res = to) then tx_ret tt
              else Sequences_UpdateStatus (r_ID res) (r_Status res) to
  end.

(** The target statuses of an outcome, or the error of the switch. *)
Definition withdrawal_targets (o : reviewOutcome) (preSign : bool)
    : result err (WithdrawalStatus * SequenceReservationStatus) :=
  match o with
  | outcomeWithdrawalConfirmed =>
      if preSign then Err ErrStatusConflict else Ok (WithdrawalConfirmed, SequenceConsumed)
  | outcomeWithdrawalFailed =>
      if preSign then Err ErrStatusConflict else Ok (WithdrawalFailed, SequenceConsumed)
  | outcomeWithdrawalCancelled =>
      if preSign then Ok (WithdrawalCancelled, SequenceReleased) else Err ErrStatusConflict
  | _ => Err ErrInvalidRecord
  end.

Definition resolveWithdrawalReview (withdrawalID : string) (o : reviewOutcome) : db unit :=
  do x <- Withdrawals_Get withdrawalID;
  do_ tx_require (bool_decide (w_Status x = WithdrawalReviewRequired)) ErrStatusConflict;
  do r <- tx_try (Sequences_GetByWorkRef (MkWorkRef WorkWithdrawal withdrawalID));
  do res <- match r with
            | Ok res => tx_ret (Some res)
            | Err ErrNotFound => tx_ret None
            | Err e => tx_fail e
            end;
  do t <- tx_of (withdrawal_targets o (pre_sign x res));
  do_ Withdrawals_UpdateStatus withdrawalID WithdrawalReviewRequired (fst t) no_withdrawal_update;
  match res with
  | None => tx_ret tt
  | Some _ => disposeReservation withdrawalID (snd t)
  end.

Definition resolveDepositReview (refID : string) (o : reviewOutcome) : db unit :=
  match ParseInt refID with
  | None => tx_fail ErrInvalidRecord
  | Some id =>
      do d <- Deposits_GetByID id;
      do_ tx_require (bool_decide (d_Status d = DepositReviewRequired)) ErrStatusConflict;
      match o with
      | outcomeDepositRejected =>
          Deposits_UpdateStatus id DepositReviewRequired DepositRejected no_deposit_update
      | outcomeDepositApproved =>
          do_ Deposits_UpdateStatus id DepositReviewRequired DepositValidated no_deposit_update;
          Deposits_UpdateStatus id DepositValidated DepositAwaitingConfirmations no_deposit_update
      | _ => tx_fail ErrInvalidRecord
      end
  end.

(** The transaction of [resolveReviewItem]. *)
Definition resolveTx (item : ReviewItem) (id : Z) (outcome : reviewOutcome) (note : string) (now : Z)
    : db unit :=
  do_ match ri_Kind item with
      | ReviewKindWithdrawal => resolveWithdrawalReview (ri_RefID item) outcome
      | ReviewKindDeposit => resolveDepositReview (ri_RefID item) outcome
      | ReviewKindLedgerEntry => tx_ret tt
      end;
  Review_Resolve id (outcome_string outcome ++ ": " ++ note)%string now.

(** [storageErrStatus] of [admin_controls.go]. *)
Definition storageErrStatus (e : err) : Z :=
  match e with ErrNotFound => 404 | ErrStatusConflict => 409 | _ => 500 end.

Definition reviewResolveErrStatus (e : err) : Z :=
  match e with
  | ErrIllegalTransition => 409
  | ErrInvalidRecord => 400
  | _ => storageErrStatus e
  end.

Definition resolveReviewItem (id : Z) (outcome : reviewOutcome) (note : string) (now : Z) : handler Z :=
  let* got := stmt (Review_Get id) in
  match got with
  | Err e => Done (storageErrStatus e)
  | Ok item =>
      if is_some (ri_ResolvedAt item) then Done 409
      else if negb (outcomeLegalForKind (ri_Kind item) outcome) then Done 400
      else
        let* r := atomically (resolveTx item id outcome note now) in
        match r with
        | Err e => Done (reviewResolveErrStatus e)
        | Ok _ => Done 200
        end
  end.

(** ** What a resolution does *)

(** The reservation rows of a withdrawal. *)
Definition reservation_of (id : string) (r : SequenceReservation) (s : Store) : Prop :=
  r ∈ st_sequences s /\ r_WorkRef r = MkWorkRef WorkWithdrawal id.

Lemma reservation_found id s :
  schema_ok s ->
  match List.find (fun r => bool_decide (r_WorkRef r = MkWorkRef WorkWithdrawal id)) (st_sequences s) with
  | Some r => reservation_of id r s /\ forall r', reservation_of id r' s -> r' = r
  | None => forall r', ~ reservation_of id r' s
  end.
Proof.
  intros Hs. destruct (List.find _ _) as [r|] eqn:Hf.
  - pose proof (find_elem _ _ _ Hf) as [Hin Hw]. apply bool_decide_eq_true in Hw. split; [done|].
    intros r' [Hr' Hw']. pose proof (Sequences.work_ref_found s r' Hs Hr') as E.
    rewrite Hw' in E. congruence.
  - intros r' [Hr' Hw']. pose proof (List.find_none _ _ Hf r') as E.
    rewrite <-list_elem_of_In in E. specialize (E Hr'). by apply bool_decide_eq_false in E.
Qed.

Lemma disposeReservation_ok id to s s' :
  schema_ok s -> disposeReservation id to s = (Ok tt, s') ->
  st_withdrawals s' = st_withdrawals s /\
  (forall r, reservation_of id r s -> exists r', reservation_of id r' s' /\ slot_key r' = slot_key r /\
     r_Status r' = to /\ (r_Status r = to \/ to ∈ sequenceTransitions (r_Status r))).
Proof.
  intros Hs H. pose proof (reservation_found id s Hs) as Hf.
  unfold disposeReservation, tx_bind, tx_try in H. rewrite GetByWorkRef_result in H.
  destruct (List.find _ _) as [res|]; [|injection H as <-; split; [done|]; intros r Hr; by apply Hf in Hr].
  destruct Hf as [[Hin Hw] Hone]. case_bool_decide as Hst.
  - injection H as <-. split; [done|]. intros r Hr. rewrite (Hone r Hr). exists res.
    split_and!; [by split|done..|by left].
  - apply Sequences_UpdateStatus_ok in H as (Hleg & _ & _ & _ & _ & ->).
    rewrite withdrawals_set_sequences. split; [done|]. intros r Hr. rewrite (Hone r Hr).
    exists (reservation_set to (st_now s) res). split_and!; [|done..|by right]. split; [|done].
    rewrite sequences_set_rows. apply update_rows_elem; [done|]. unfold r_at.
    by rewrite Z.eqb_refl, bool_decide_eq_true_2.
Qed.

(** A withdrawal that may have been signed: bytes, or a reservation that left
    the pre-sign statuses. *)
Definition maybe_signed (x : WithdrawalRecord) (s : Store) : Prop :=
  w_SignedTxBytes x <> [] \/
  exists r, reservation_of (w_WithdrawalID x) r s /\
    r_Status r <> SequenceReserved /\ r_Status r <> SequenceReleased.

Lemma pre_sign_spec x id s :
  schema_ok s -> w_WithdrawalID x = id ->
  pre_sign x (List.find (fun r => bool_decide (r_WorkRef r = MkWorkRef WorkWithdrawal id)) (st_sequences s))
    = false <-> maybe_signed x s.
Proof.
  intros Hs Hid. pose proof (reservation_found id s Hs) as Hf. unfold pre_sign, maybe_signed.
  rewrite Hid. destruct (decide (w_SignedTxBytes x = [])) as [E|E];
    [rewrite bool_decide_eq_true_2 by done | rewrite bool_decide_eq_false_2 by done; split; [by left|done]].
  simpl. destruct (List.find _ _) as [r|].
  - destruct Hf as [Hr Hone]. rewrite orb_false_iff, !bool_decide_eq_false. split.
    + intros [? ?]. right. by exists r.
    + intros [?|(r' & Hr' & ?)]; [done|]. by rewrite <-(Hone r' Hr').
  - split; [done|]. intros [?|(r' & Hr' & _)]; [done|]. by apply Hf in Hr'.
Qed.

(** The terminal statuses an outcome stands for. *)
Definition terminal_of (o : reviewOutcome) : option (WithdrawalStatus * SequenceReservationStatus) :=
  match o with
  | outcomeWithdrawalConfirmed => Some (WithdrawalConfirmed, SequenceConsumed)
  | outcomeWithdrawalFailed => Some (WithdrawalFailed, SequenceConsumed)
  | outcomeWithdrawalCancelled => Some (WithdrawalCancelled, SequenceReleased)
  | _ => None
  end.

Lemma withdrawal_targets_ok o b t :
  withdrawal_targets o b = Ok t -> terminal_of o = Some t /\ (b = true <-> snd t = SequenceReleased).
Proof. destruct o, b; simpl; intros [= <-]; split; done. Qed.

(** C24: an operator's resolution never re-issues a slot that may carry a
    signature.  When the withdrawal part of a resolution goes through, the
    withdrawal was REVIEW_REQUIRED and is now in the status the outcome names;
    its reservation, if any, is CONSUMED for CONFIRMED and FAILED and RELEASED
    for CANCELLED; and RELEASED happens exactly when nothing was signed: no
    persisted bytes and no reservation beyond RESERVED or RELEASED. *)
Theorem resolution_disposes (id : string) (o : reviewOutcome) (s s' : Store)
    (Hs : schema_ok s)
    (H : resolveWithdrawalReview id o s = (Ok tt, s')) :
  exists x target seqTo, x ∈ st_withdrawals s /\ w_WithdrawalID x = id /\
    w_Status x = WithdrawalReviewRequired /\
    terminal_of o = Some (target, seqTo) /\ has_status id target s' /\
    (forall r, reservation_of id r s -> exists r', reservation_of id r' s' /\
       slot_key r' = slot_key r /\ r_Status r' = seqTo) /\
    (seqTo = SequenceReleased <-> ~ maybe_signed x s).
Proof.
  unfold resolveWithdrawalReview in H. inv_tx1 H. apply Withdrawals_Get_ok in Hm as (-> & Hx & Hid).
  apply tx_require_ok in H as [Hst%bool_decide_eq_true H].
  unfold tx_try, tx_bind at 1 in H. rewrite GetByWorkRef_result in H.
  pose proof (pre_sign_spec a id s Hs Hid) as Hpre. pose proof (reservation_found id s Hs) as Hf.
  set (res := List.find _ (st_sequences s)) in *.
  assert (exists t, withdrawal_targets o (pre_sign a res) = Ok t /\
    (do_ Withdrawals_UpdateStatus id WithdrawalReviewRequired (fst t) no_withdrawal_update;
     match res with None => tx_ret tt | Some _ => disposeReservation id (snd t) end) s = (Ok tt, s'))
    as (t & Ht & H2).
  { destruct res; rewrite tx_ret_bind in H; apply tx_of_ok in H as (t & Ht & H); exists t; split; done. }
  clear H. apply withdrawal_targets_ok in Ht as [Hterm Hrel]. destruct t as [target seqTo]. simpl in *.
  inv_tx1 H2. destruct a0.
  pose proof (Withdrawals_UpdateStatus_keeps id WithdrawalReviewRequired target no_withdrawal_update s Hs) as Hs0.
  rewrite Hm in Hs0. pose proof (UpdateStatus_has _ _ _ _ _ _ Hm) as Hhas.
  apply Withdrawals_UpdateStatus_ok in Hm as (_ & _ & _ & _ & _ & Es0).
  assert (st_sequences s0 = st_sequences s) as Eseq by (rewrite Es0; apply sequences_set_withdrawals).
  exists a, target, seqTo. split_and!; try done.
  - unfold has_status. destruct res; [|by injection H2 as <-].
    by apply disposeReservation_ok in H2 as [-> _].
  - intros r Hr. destruct res as [r0|]; [|by apply Hf in Hr].
    apply disposeReservation_ok in H2 as [_ Hd]; [|done].
    destruct (Hd r) as (r' & Hr' & Hk & Hsr & _); [unfold reservation_of; by rewrite Eseq|]. by exists r'.
  - rewrite <-Hrel, <-Hpre. by destruct (pre_sign a res).
Qed.

(** A quarantined withdrawal without bytes, whose reservation is RESERVED. *)
Definition ex_review : WithdrawalRecord := ex_withdrawal WithdrawalReviewRequired.
Definition ex_review_store : Store := set_rows [ex_reserved] (ex_w_store ex_review).

Lemma ex_review_schema : schema_ok ex_review_store.
Proof.
  apply (schema_set (R := SequenceReservation)); [apply ex_w_schema|].
  apply (so_sequences _ ex_sign_schema).
Qed.

Lemma resolution_disposes_witness :
  let s' := snd (resolveWithdrawalReview "w1" outcomeWithdrawalCancelled ex_review_store) in
  has_status "w1" WithdrawalCancelled s' /\
  exists r', reservation_of "w1" r' s' /\ r_Status r' = SequenceReleased.
Proof.
  intros s'.
  destruct (resolution_disposes "w1" outcomeWithdrawalCancelled ex_review_store s' ex_review_schema)
    as (x & target & seqTo & _ & _ & _ & Ht & Hh & Hr & _).
  - vm_compute. reflexivity.
  - injection Ht as <- <-. split; [exact Hh|].
    destruct (Hr ex_reserved) as (r' & H1 & _ & H2); [split; [by left | reflexivity]|].
    exists r'. exact (conj H1 H2).
Defined.

(** ** The review row *)

Definition same_reviews (s s' : Store) : Prop := st_reviews s' = st_reviews s.
#[export] Instance same_reviews_preorder : PreOrder same_reviews.
Proof. split; [done|]. unfold same_reviews. intros a b c -> ->. done. Qed.
#[export] Instance same_reviews_withdrawals : Free same_reviews WithdrawalRecord.
Proof. by intros l []. Qed.
#[export] Instance same_reviews_sequences : Free same_reviews SequenceReservation.
Proof. by intros l []. Qed.
#[export] Instance same_reviews_deposits : Free same_reviews DepositRecord.
Proof. by intros l []. Qed.

Lemma resolve_parts_reviews item outcome :
  preserves same_reviews
    match ri_Kind item with
    | ReviewKindWithdrawal => resolveWithdrawalReview (ri_RefID item) outcome
    | ReviewKindDeposit => resolveDepositReview (ri_RefID item) outcome
    | ReviewKindLedgerEntry => tx_ret tt
    end.
Proof.
  unfold resolveWithdrawalReview, resolveDepositReview, disposeReservation, Withdrawals_Get,
    Sequences_GetByWorkRef, Withdrawals_UpdateStatus, Sequences_UpdateStatus, Deposits_GetByID,
    Deposits_UpdateStatus, Deposits_GetByID, Withdrawals_Get, fmtTime, require_rows. free_steps.
Qed.

(** The row and its resolution. *)
Definition resolves (id : Z) (resolution : string) (s s' : Store) : Prop :=
  exists i i' t, i ∈ st_reviews s /\ ri_ID i = id /\ ri_ResolvedAt i = None /\
    i' ∈ st_reviews s' /\ ri_ID i' = id /\ ri_ResolvedAt i' = Some t /\ ri_Resolution i' = resolution.

Definition open_row (id : Z) (i : ReviewItem) : bool := (ri_ID i =? id) && negb (is_some (ri_ResolvedAt i)).
Definition resolved_row (t : Z) (resolution : string) (i : ReviewItem) : ReviewItem :=
  MkReviewItem (ri_ID i) (ri_ChainID i) (ri_Kind i) (ri_RefID i) (ri_Reason i) (ri_OpenedAt i) (Some t)
    resolution.

Lemma Review_Resolve_ok id resolution t s s' :
  Review_Resolve id resolution t s = (Ok tt, s') -> resolves id resolution s s'.
Proof.
  unfold Review_Resolve, fmtTime. rewrite tx_get_bind. set (t' := if t =? 0 then st_now s else t).
  unfold tx_bind at 1, update_where. change (rows s) with (st_reviews s).
  destruct (Nat.eqb_spec (List.length (List.filter (open_row id) (st_reviews s))) 1) as [Hn|Hn];
    unfold open_row in Hn.
  - intros H. rewrite Hn in H. simpl in H.
    assert (s' = set_rows (update_rows (open_row id) (resolved_row t' resolution) (st_reviews s)) s)
      as -> by (by injection H). clear H.
    destruct (List.filter _ (st_reviews s)) as [|i l] eqn:E; [done|].
    assert (In i (List.filter (open_row id) (st_reviews s))) as [Hi Hp]%List.filter_In
      by (unfold open_row; rewrite E; by left).
    pose proof Hp as [Hid%Z.eqb_eq Hno%negb_true_iff]%andb_true_iff. apply list_elem_of_In in Hi.
    exists i, (resolved_row t' resolution i), t'. split_and!; try done; [by destruct (ri_ResolvedAt i)|].
    match goal with |- _ ∈ st_reviews (set_rows ?l s) =>
      change (st_reviews (set_rows l s)) with (rows (R := ReviewItem) (set_rows l s)) end.
    rewrite rows_set. by apply update_rows_elem.
  - intros H. apply Nat.eqb_neq in Hn. rewrite Hn in H. by apply tx_bind_ok in H as (? & ? & _ & ?).
Qed.

(** A resolution is all or nothing.  Whatever the other workers commit
    around it, a response other than 200 means that this request changed
    nothing, and 200 means that in one transaction an open review row was
    resolved with the outcome and note on record and its domain record was
    moved by the outcome, which is one of those legal for the row's kind. *)
Theorem resolve_review_atomic (id : Z) (o : reviewOutcome) (note : string) (now code : Z)
    (s s' : Store) (tr : trace)
    (H : exec interference (resolveReviewItem id o note now) s tr code s') :
  (code <> 200 -> interference s s') /\
  (code = 200 -> exists s1 s2 item, interference s s1 /\
     (exists s0, Review_Get id s0 = (Ok item, s0)) /\
     outcomeLegalForKind (ri_Kind item) o = true /\
     match ri_Kind item with
     | ReviewKindWithdrawal => resolveWithdrawalReview (ri_RefID item) o
     | ReviewKindDeposit => resolveDepositReview (ri_RefID item) o
     | ReviewKindLedgerEntry => tx_ret tt
     end s1 = (Ok tt, s2) /\
     resolves id (outcome_string o ++ ": " ++ note)%string s1 s').
Proof.
  unfold resolveReviewItem in H. inv_exec H. rename Hx into Hg.
  assert (forall A (m : db A) st r st', (forall st r st', m st = (r, st') -> st' = st) ->
    with_tx m st = (r, st') -> st' = st) as Hread.
  { intros A m st r st' Hm Hw. unfold with_tx in Hw. destruct (m st) as [[?|?] ?] eqn:E; [|congruence].
    injection Hw as _ <-. by eapply Hm. }
  assert (s0 = s1) as ->.
  { eapply Hread; [|exact Hg]. intros st r st'. unfold Review_Get, select_row.
    destruct (List.find _ _); by intros [= _ <-]. }
  destruct a as [item|e]; [|destruct H as (_ & -> & ->); split; [done|]; by destruct e].
  destruct (is_some _); [destruct H as (_ & -> & ->); by split|].
  destruct (outcomeLegalForKind _ _) eqn:Hleg; cbn [negb] in H; [|destruct H as (_ & -> & ->); by split].
  inv_exec H. destruct a as [[]|e].
  - destruct H as (_ & -> & ->). split; [done|]. intros _. apply with_tx_ok in Hx.
    unfold resolveTx in Hx. inv_tx1 Hx. destruct a. exists s2, s3, item.
    split_and!; [by etransitivity|exists s1; by apply with_tx_ok|done|done|].
    pose proof (resolve_parts_reviews item o s2) as E. unfold same_reviews in E. rewrite Hm in E. simpl in E.
    apply Review_Resolve_ok in Hx as (i & i' & t & Hi & Hr). exists i, i', t. by rewrite <-E.
  - destruct H as (_ & -> & ->). apply with_tx_err in Hx as ->.
    split; [intros _; by etransitivity | by destruct e].
Qed.

Definition ex_item : ReviewItem := MkReviewItem 1 "sovr-1" ReviewKindWithdrawal "w1" "" 5 None "".
Definition ex_queue : Store := set_rows [ex_item] ex_review_store.

Lemma resolve_review_atomic_witness :
  let s' := o_state (run (answering no_answers) (resolveReviewItem 1 outcomeWithdrawalCancelled "ok" 7) ex_queue) in
  exists s1, interference ex_queue s1 /\ resolves 1 "WITHDRAWAL_CANCELLED: ok" s1 s'.
Proof.
  intros s'.
  destruct (resolve_review_atomic 1 outcomeWithdrawalCancelled "ok" 7 200 ex_queue s' []) as [_ H].
  - exists ex_queue. split; [constructor|]. exists ex_queue. split; [constructor|]. vm_compute. auto.
  - destruct (H eq_refl) as (s1 & s2 & item & Hi & _ & _ & _ & Hr). exists s1. exact (conj Hi Hr).
Defined.

End ReviewResolution.
