(* ===== verification/WithdrawalSystem.v ===== *)
(** * WithdrawalSystem: what the withdrawal workflow guarantees to the other workers

    [evolves] is the guarantee every handler of [Withdrawals], of the sequence
    manager and of the operator's resolutions gives to the workers that run
    beside it; [signing_ok] is the invariant they keep: each (chain, account,
    sequence) slot carries at most one signed withdrawal, its bytes transfer
    what was requested, its slot is spent, and only bytes that are in the
    database reach the network.  The handlers are proved safe
    ([Workers.safe]) one by one, with node and signer answering anything;
    [OutflowSystem] runs them together. *)

From stdpp Require Import base list strings relations.
From Stdlib Require Import ZArith Lia String.
From S2P Require Import Prelude Workers Text Storage Database SqlStore SqlLaws.
From S2P Require Import Hash Chain Tx Sample Sequences Interference Withdrawals.
From S2P Require Import WithdrawalLaws ReviewResolution.
Import SqlStore SqlLaws Interference Withdrawals WithdrawalLaws ReviewResolution.

Open Scope string_scope.
Open Scope list_scope.
Open Scope Z_scope.

Module WithdrawalSystem.

Section withdrawal_system.
Context `{X : Ext}.

(** ** Guarantee and invariant *)

(** A reservation status from which the slot is never given out again. *)
Definition spent_status (st : SequenceReservationStatus) : bool :=
  match st with SequenceReserved | SequenceReleased => false | _ => true end.
Definition spent (r : SequenceReservation) : Prop := spent_status (r_Status r) = true.

Definition signed (x : WithdrawalRecord) : Prop := w_SignedTxBytes x <> [].

(** Statuses in which the sequence columns may still change. *)
Definition early (st : WithdrawalStatus) : bool :=
  match st with
  | WithdrawalRequested | WithdrawalAddressValidated | WithdrawalComplianceApproved
  | WithdrawalFundsReserved => true
  | _ => false
  end.
(** Statuses before a signature exists. *)
Definition presign (st : WithdrawalStatus) : bool :=
  match st with
  | WithdrawalSequenceReserved | WithdrawalTransactionBuilt | WithdrawalTransactionSimulated => true
  | _ => early st
  end.

(** What becomes of one withdrawal: its request stays, its sequence is fixed
    once assigned, and its signed transaction is fixed once signed. *)
Definition withdrawal_evolves (x x' : WithdrawalRecord) : Prop :=
  request_of x' = request_of x /\
  (early (w_Status x) = false -> early (w_Status x') = false /\ w_Sequence x' = w_Sequence x) /\
  (signed x -> w_SignedTxBytes x' = w_SignedTxBytes x /\ w_TxHash x' = w_TxHash x).

(** What becomes of one reservation row: its slot stays, and a spent slot
    stays spent. *)
Definition reservation_evolves (r r' : SequenceReservation) : Prop :=
  r_ID r' = r_ID r /\ slot_key r' = slot_key r /\ (spent r -> spent r').

(** The slot of a signed withdrawal. *)
Definition slot_of (x : WithdrawalRecord) : option (string * string * Z) :=
  match w_Sequence x with Some n => Some (w_ChainID x, w_SourceAddress x, n) | None => None end.

Record evolves (s s' : Store) : Prop := Evolves {
  ev_withdrawals : forall x, x ∈ st_withdrawals s ->
    exists x', x' ∈ st_withdrawals s' /\ withdrawal_evolves x x';
  ev_sequences : forall r, r ∈ st_sequences s ->
    exists r', r' ∈ st_sequences s' /\ reservation_evolves r r';
  (** a withdrawal is signed on a slot that was not spent *)
  ev_fresh : forall x', x' ∈ st_withdrawals s' -> signed x' ->
    (exists x, x ∈ st_withdrawals s /\ signed x /\ slot_of x = slot_of x') \/
    (forall r, r ∈ st_sequences s -> slot_key r = slot_of x' -> ~ spent r) }.

(** The bytes sign over exactly the withdrawal's request and sequence. *)
Definition transfers (x : WithdrawalRecord) (bz : bytes) : Prop :=
  exists n, w_Sequence x = Some n /\
    Tx.signed_transfer bz (w_ChainID x) (w_SourceAddress x) (w_DestinationAddress x)
      (Tx.FormatUint (w_AmountBaseUnits x)) (w_Memo x) n.

Lemma transfers_stable x x' bz :
  request_of x' = request_of x -> w_Sequence x' = w_Sequence x -> transfers x bz -> transfers x' bz.
Proof.
  intros Hr Hq (n & Hn & Ht). injection Hr as _ _ E3 E4 E5 _ E7 E8. exists n.
  by rewrite Hq, E3, E4, E5, E7, E8.
Qed.

Record signing_ok (s : Store) : Prop := SigningOk {
  sg_schema : schema_ok s;
  (** a withdrawal before signing has no bytes *)
  sg_presign : forall x, x ∈ st_withdrawals s -> presign (w_Status x) = true -> w_SignedTxBytes x = [];
  (** the stored hash is the hash of the stored bytes *)
  sg_hash : forall x, x ∈ st_withdrawals s -> signed x ->
    w_TxHash x = Some (Hash.TxHash (w_SignedTxBytes x));
  (** the stored bytes are a transfer of what was requested, on the slot *)
  sg_transfer : forall x, x ∈ st_withdrawals s -> signed x -> transfers x (w_SignedTxBytes x);
  (** a signed withdrawal's slot is spent *)
  sg_slot : forall x, x ∈ st_withdrawals s -> signed x ->
    exists r, r ∈ st_sequences s /\ spent r /\ slot_key r = slot_of x;
  (** no slot carries two signed withdrawals *)
  sg_once : forall x y, x ∈ st_withdrawals s -> y ∈ st_withdrawals s -> signed x -> signed y ->
    slot_of x = slot_of y -> x = y;
  (** a withdrawal's reservation is on the withdrawal's account *)
  sg_account : forall r id, r ∈ st_sequences s -> r_WorkRef r = MkWorkRef WorkWithdrawal id ->
    exists x, x ∈ st_withdrawals s /\ w_WithdrawalID x = id /\
      w_ChainID x = r_ChainID r /\ w_SourceAddress x = r_SourceAddress r }.

Lemma empty_signing_ok t : signing_ok (empty_store t).
Proof. split; [apply empty_schema_ok|..]; simpl; intros; try by (exfalso; eapply not_elem_of_nil). Qed.

Lemma withdrawal_evolves_refl x : withdrawal_evolves x x.
Proof. done. Qed.
Lemma reservation_evolves_refl r : reservation_evolves r r.
Proof. done. Qed.

#[export] Instance evolves_preorder : PreOrder evolves.
Proof.
  split.
  - intros s. split; eauto using withdrawal_evolves_refl, reservation_evolves_refl.
  - intros a b c [W1 R1 N1] [W2 R2 N2]. split.
    + intros x Hx. destruct (W1 x Hx) as (y & Hy & E1 & E2 & E3). destruct (W2 y Hy) as (z & Hz & F1 & F2 & F3).
      exists z. split; [done|]. unfold withdrawal_evolves, signed in *. split_and!; [congruence|..].
      * intros He. destruct (E2 He) as [He' Eq]. destruct (F2 He') as [? Eq']. split; congruence.
      * intros Hs. destruct (E3 Hs) as [Eb Eh]. rewrite <-Eb in Hs. destruct (F3 Hs). split; congruence.
    + intros r Hr. destruct (R1 r Hr) as (r1 & H1 & E1 & E2 & E3).
      destruct (R2 r1 H1) as (r2 & H2 & F1 & F2 & F3). exists r2. split; [done|].
      unfold reservation_evolves. split_and!; [congruence..|auto].
    + intros z Hz Sz. destruct (N2 z Hz Sz) as [(y & Hy & Sy & Ey)|Hn].
      * destruct (N1 y Hy Sy) as [(x & Hx & Sx & Ex)|Hn]; [left; exists x; by rewrite <-Ey|].
        right. intros r Hr Er. apply (Hn r Hr). congruence.
      * right. intros r Hr Er Hsp. destruct (R1 r Hr) as (r1 & H1 & _ & E2 & E3).
        apply (Hn r1 H1); [congruence | auto].
Qed.

Local Notation moves := (moves evolves signing_ok).

(** ** Transactions off the two tables *)

Definition same_core (s s' : Store) : Prop :=
  st_withdrawals s' = st_withdrawals s /\ st_sequences s' = st_sequences s.
#[export] Instance same_core_preorder : PreOrder same_core.
Proof. split; [done|]. intros a b c [W1 R1] [W2 R2]. split; congruence. Qed.

#[export] Instance core_ledger : Free same_core LedgerEntry.  Proof. by intros l []. Qed.
#[export] Instance core_feeOutflow : Free same_core FeeOutflow.  Proof. by intros l []. Qed.
#[export] Instance core_spend : Free same_core FeeFundingSpend.  Proof. by intros l []. Qed.
#[export] Instance core_deposits : Free same_core DepositRecord.  Proof. by intros l []. Qed.
#[export] Instance core_checkpoints : Free same_core ScannerCheckpoint.  Proof. by intros l []. Qed.
#[export] Instance core_sweeps : Free same_core SweepJob.  Proof. by intros l []. Qed.
#[export] Instance core_watched : Free same_core WatchedAddress.  Proof. by intros l []. Qed.
#[export] Instance core_controls : Free same_core OperationalControls.  Proof. by intros l []. Qed.
#[export] Instance core_audit : Free same_core ControlsAuditEntry.  Proof. by intros l []. Qed.
#[export] Instance core_chainReviews : Free same_core ChainReviewCondition.  Proof. by intros l []. Qed.
#[export] Instance core_reviews : Free same_core ReviewItem.  Proof. by intros l []. Qed.
#[export] Instance core_reports : Free same_core ReconciliationReport.  Proof. by intros l []. Qed.
#[export] Instance core_outbox : Free same_core OutboxEvent.  Proof. by intros l []. Qed.

Lemma same_core_moves s s' : (schema_ok s -> schema_ok s') -> same_core s s' -> moves s s'.
Proof.
  intros Hs [EW ER] []. split.
  - split; rewrite ?EW, ?ER; eauto using withdrawal_evolves_refl, reservation_evolves_refl.
  - split; rewrite ?EW, ?ER; auto.
Qed.

Lemma frame_moves {A} (m : db A) : keeps m -> preserves same_core m -> preserves moves m.
Proof. intros Hk Hc s. apply same_core_moves; [apply Hk | apply Hc]. Qed.

(** Methods that write neither withdrawals nor reservations. *)
Definition other_op (o : op) : bool :=
  match o with
  | OpWithdrawalCreate _ | OpWithdrawalStatus _ _ _ _ | OpSequenceReserve _ | OpSequenceStatus _ _ _ => false
  | _ => true
  end.

Lemma other_op_core o : other_op o = true -> preserves same_core (exec_op o).
Proof.
  destruct o; simpl; intros Ho; try done; unfold void, Ledger_Append, Ledger_AppendFeeOutflow,
    Ledger_AppendFeeFundingSpend, Deposits_Insert, Deposits_UpdateStatus, Deposits_GetByID,
    Checkpoints_Set, Sweeps_Create, Sweeps_UpdateStatus, Sweeps_Get,
    Watch_Upsert, Watch_SetActive, Controls_Apply, Controls_Get, getControls, Review_Open,
    Review_Resolve, Review_Get, ChainReview_Open, ChainReview_Resolve, ChainReview_Get,
    Recon_SaveReport, Outbox_Enqueue, Outbox_MarkDispatched, fmtTime, require_rows; free_steps.
Qed.

Lemma other_op_moves o : other_op o = true -> preserves moves (exec_op o).
Proof. intros Ho. apply frame_moves; [apply exec_op_keeps | by apply other_op_core]. Qed.

Lemma Review_Open_moves i : preserves moves (Review_Open i).
Proof. apply frame_moves; [apply Review_Open_keeps|]. unfold Review_Open, fmtTime. free_steps. Qed.
Lemma Review_Resolve_moves i r t : preserves moves (Review_Resolve i r t).
Proof.
  apply frame_moves; [apply Review_Resolve_keeps|]. unfold Review_Resolve, Review_Get, fmtTime. free_steps.
Qed.
Lemma Deposits_UpdateStatus_moves id from to u : preserves moves (Deposits_UpdateStatus id from to u).
Proof.
  apply frame_moves; [apply Deposits_UpdateStatus_keeps|].
  unfold Deposits_UpdateStatus, Deposits_GetByID, fmtTime, require_rows. free_steps.
Qed.
Lemma select_row_moves' {R} `{Table R} (p : R -> bool) : preserves moves (select_row p).
Proof. apply select_row_moves, _. Qed.
Lemma select_where_moves' {R} `{Table R} (p : R -> bool) : preserves moves (select_where p).
Proof. apply select_where_moves, _. Qed.

(** ** Withdrawal updates *)

(** An update that leaves the signed transaction alone, and the sequence too
    unless the withdrawal is still early. *)
Definition calm (from : WithdrawalStatus) (u : WithdrawalUpdate) : Prop :=
  wu_SignedTxBytes u = [] /\ wu_TxHash u = None /\ (wu_Sequence u = None \/ early from = true).

Lemma early_legal from to : to ∈ withdrawalTransitions from -> early from = false -> early to = false.
Proof. rewrite <-enumValid_spec. by destruct from, to. Qed.
Lemma presign_legal from to : to ∈ withdrawalTransitions from -> presign to = true -> presign from = true.
Proof. rewrite <-enumValid_spec. by destruct from, to. Qed.

Lemma elem_of_update {R} (p : R -> bool) f (l : list R) y :
  y ∈ update_rows p f l <-> exists x, x ∈ l /\ y = if p x then f x else x.
Proof. unfold update_rows. rewrite list_elem_of_fmap. split; intros (x & ? & ?); by exists x. Qed.

Lemma early_presign st : early st = true -> presign st = true.
Proof. by destruct st. Qed.

Lemma withdrawal_set_evolves from to now u x :
  calm from u -> to ∈ withdrawalTransitions from -> w_Status x = from ->
  (presign from = true -> w_SignedTxBytes x = []) ->
  withdrawal_evolves x (withdrawal_set to now u x) /\
  (signed (withdrawal_set to now u x) <-> signed x) /\
  (signed x -> slot_of (withdrawal_set to now u x) = slot_of x).
Proof.
  intros (Hb & Hh & Hq) Hleg Hst Hpre. unfold withdrawal_evolves, signed, slot_of, withdrawal_set. simpl.
  rewrite Hb, Hh, Hst. simpl. destruct Hq as [Hq|He].
  - rewrite Hq. simpl. split_and!; try done. eauto using early_legal.
  - rewrite (Hpre (early_presign _ He)), He. split_and!; done.
Qed.

Lemma calm_update_moves id from to u s s' :
  calm from u -> Withdrawals_UpdateStatus id from to u s = (Ok tt, s') -> moves s s'.
Proof.
  intros Hu H Hok. pose proof Hok as [Hsch Hpre Hhash Htr Hslot Honce Hacc].
  pose proof (Withdrawals_UpdateStatus_keeps id from to u s Hsch) as Hs'. rewrite H in Hs'. simpl in Hs'.
  apply Withdrawals_UpdateStatus_ok in H as (Hleg & _ & _ & _ & _ & E).
  set (f := fun x => if w_at id from x then withdrawal_set to (st_now s) u x else x).
  assert (st_sequences s' = st_sequences s) as ER by (rewrite E; apply sequences_set_withdrawals).
  assert (forall y, y ∈ st_withdrawals s' <-> exists x, x ∈ st_withdrawals s /\ y = f x) as EW.
  { intros y. rewrite E, withdrawals_set_rows. apply elem_of_update. }
  assert (forall x, x ∈ st_withdrawals s -> withdrawal_evolves x (f x) /\ (signed (f x) <-> signed x) /\
    (signed x -> slot_of (f x) = slot_of x)) as Hf.
  { intros x Hx. unfold f. destruct (w_at id from x) eqn:Ew; [|done].
    apply andb_true_iff in Ew as [_ Est]. apply bool_decide_eq_true in Est.
    apply (withdrawal_set_evolves from); [done..|]. rewrite <-Est. by apply Hpre. }
  split; split; try done; rewrite ?ER; eauto using reservation_evolves_refl.
  - intros x Hx. exists (f x). split; [apply EW; eauto | by apply Hf].
  - intros y (x & Hx & ->)%EW Hs. left. exists x. destruct (Hf x Hx) as (_ & Hsig & Hk).
    apply Hsig in Hs. by rewrite Hk.
  - intros y (x & Hx & ->)%EW Hp. destruct (decide (presign (w_Status x) = true)) as [Hpx|Hpx].
    + apply (Hpre x Hx) in Hpx. destruct (Hf x Hx) as (_ & Hsig & _). unfold signed in Hsig.
      destruct (decide (w_SignedTxBytes (f x) = [])); [done|]. by destruct (proj1 Hsig).
    + exfalso. apply Hpx. unfold f in Hp. destruct (w_at id from x) eqn:Ew; [|done].
      apply andb_true_iff in Ew as [_ Est]. apply bool_decide_eq_true in Est. rewrite Est.
      by eapply presign_legal.
  - intros y (x & Hx & ->)%EW Hs. destruct (Hf x Hx) as ((_ & _ & Hb) & Hsig & _).
    apply Hsig in Hs. destruct (Hb Hs) as [-> ->]. auto.
  - intros y (x & Hx & ->)%EW Hs. destruct (Hf x Hx) as ((Hreq & Hl & Hb) & Hsig & _).
    apply Hsig in Hs. destruct (Hb Hs) as [-> _].
    eapply transfers_stable; [exact Hreq| |by apply Htr]. apply Hl, not_true_iff_false.
    intros He. apply Hs, (Hpre x Hx). by apply early_presign.
  - intros y (x & Hx & ->)%EW Hs. destruct (Hf x Hx) as (_ & Hsig & Hk). apply Hsig in Hs. rewrite Hk; auto.
  - intros y1 y2 (x1 & H1 & ->)%EW (x2 & H2 & ->)%EW S1 S2 Eq.
    destruct (Hf x1 H1) as (_ & T1 & F1), (Hf x2 H2) as (_ & T2 & F2). apply T1 in S1. apply T2 in S2.
    f_equal. rewrite F1, F2 in Eq by done. auto.
  - intros r i Hr Hw. destruct (Hacc r i Hr Hw) as (x & Hx & Hid & Hc & Hsrc).
    exists (f x). split; [apply EW; eauto|]. 
    destruct (Hf x Hx) as ((Hreq & _) & _). injection Hreq as -> _ -> -> _ _ _ _. done.
Qed.

Lemma UpdateStatus_calm_moves id from to u : calm from u -> preserves moves (Withdrawals_UpdateStatus id from to u).
Proof.
  intros Hu s. destruct (Withdrawals_UpdateStatus id from to u s) as [[[]|e] s'] eqn:H; simpl.
  - by eapply calm_update_moves.
  - rewrite Withdrawals_UpdateStatus_eq in H.
    destruct (ValidateWithdrawalTransition _ _); [by injection H as _ <-|].
    destruct (amountPtrText _); [|by injection H as _ <-].
    destruct (List.find _ _); [|by injection H as _ <-]. case_bool_decide; [done|by injection H as _ <-].
Qed.

(** ** Reservation updates *)

(** A replacement of the reservation table in which every row evolves and the
    withdrawals' reservations stay on their accounts. *)
Lemma sequences_moves l s :
  (schema_ok s -> schema_ok (set_rows (R := SequenceReservation) l s)) ->
  (forall r, r ∈ st_sequences s -> exists r', r' ∈ l /\ reservation_evolves r r') ->
  (forall r' id, r' ∈ l -> r_WorkRef r' = MkWorkRef WorkWithdrawal id ->
     (exists r, r ∈ st_sequences s /\ r_WorkRef r = r_WorkRef r' /\ slot_key r = slot_key r') \/
     exists x, x ∈ st_withdrawals s /\ w_WithdrawalID x = id /\ w_ChainID x = r_ChainID r' /\
       w_SourceAddress x = r_SourceAddress r') ->
  moves s (set_rows l s).
Proof.
  intros Hsch Hev Hown [H1 H2 H3 H3' H4 H5 H6].
  assert (st_withdrawals (set_rows (R := SequenceReservation) l s) = st_withdrawals s) as EW
    by apply withdrawals_set_sequences.
  assert (st_sequences (set_rows (R := SequenceReservation) l s) = l) as ER by apply sequences_set_rows.
  split; split; rewrite ?EW, ?ER; eauto using withdrawal_evolves_refl.
  - intros x Hx Hs. destruct (H4 x Hx Hs) as (r & Hr & Hsp & Hk).
    destruct (Hev r Hr) as (r' & Hr' & _ & Hk' & Hsp'). exists r'. split_and!; [done|auto|congruence].
  - intros r' id Hr' Hw. destruct (Hown r' id Hr' Hw) as [(r & Hr & Ew & Ek)|Hx]; [|done].
    rewrite Hw in Ew. destruct (H6 r id Hr Ew) as (x & Hx & Hid & Hc & Hsrc).
    injection Ek as E1 E2 _. exists x. split_and!; congruence.
Qed.

(** A move that does not give a spent slot back. *)
Definition forward (from to : SequenceReservationStatus) : Prop :=
  spent_status from = true -> spent_status to = true.

Lemma reservation_set_row id from to now r :
  forward from to ->
  reservation_evolves r (if r_at id from r then reservation_set to now r else r).
Proof.
  intros Hf. destruct (r_at id from r) eqn:E; [|done]. apply andb_true_iff in E as [_ E].
  apply bool_decide_eq_true in E. unfold reservation_evolves, spent. simpl. rewrite E. done.
Qed.

Lemma Sequences_UpdateStatus_moves id from to :
  forward from to -> preserves moves (Sequences_UpdateStatus id from to).
Proof.
  intros Hf s. pose proof (Sequences_UpdateStatus_keeps id from to s) as Hk. revert Hk.
  rewrite Sequences_UpdateStatus_eq. destruct (ValidateSequenceTransition _ _); [done|].
  destruct (List.find _ _) as [r0|]; [|done]. case_bool_decide; [|done]. cbn [snd]. intros Hk.
  apply sequences_moves; [done|..].
  - intros r Hr. eexists. split; [|by apply (reservation_set_row id from to (st_now s))].
    apply elem_of_update. eauto.
  - intros r' i (r & Hr & ->)%elem_of_update _. left. exists r. by destruct (r_at id from r).
Qed.

(** The account a reservation is asked for is the withdrawal's own. *)
Definition owner_ok (chainID source : string) (ref : WorkRef) (s : Store) : Prop :=
  ref_Kind ref = WorkWithdrawal ->
  exists x, x ∈ st_withdrawals s /\ w_WithdrawalID x = ref_ID ref /\ w_ChainID x = chainID /\
    w_SourceAddress x = source.

Lemma owner_ok_stable chainID source ref s s' :
  evolves s s' -> owner_ok chainID source ref s -> owner_ok chainID source ref s'.
Proof.
  intros He Ho Hk. destruct (Ho Hk) as (x & Hx & Hid & Hc & Hsrc).
  destruct (ev_withdrawals _ _ He x Hx) as (x' & Hx' & Hreq & _).
  injection Hreq as E1 _ E3 E4 _ _ _ _. exists x'. split_and!; congruence.
Qed.

Lemma Sequences_Reserve_moves res s x s' :
  owner_ok (r_ChainID res) (r_SourceAddress res) (r_WorkRef res) s ->
  Sequences_Reserve res s = (Ok x, s') -> moves s s'.
Proof.
  intros Hown H Hok. pose proof (sg_schema s Hok) as Hs. pose proof (Sequences_Reserve_keeps res s) as Hk.
  rewrite H in Hk. cbn [snd] in Hk.
  assert (forall r' id, r_WorkRef r' = r_WorkRef res -> slot_key r' = slot_key res ->
    r_WorkRef r' = MkWorkRef WorkWithdrawal id ->
    exists x, x ∈ st_withdrawals s /\ w_WithdrawalID x = id /\ w_ChainID x = r_ChainID r' /\
       w_SourceAddress x = r_SourceAddress r') as Hnew.
  { intros r' id E1 E2 E3. rewrite E3 in E1. unfold owner_ok in Hown. rewrite <-E1 in Hown.
    destruct (Hown eq_refl) as (y & Hy & Hid & Hc & Hsrc). injection E2 as F1 F2 _.
    exists y. split_and!; [done..|congruence|congruence]. }
  apply Sequences.Sequences_Reserve_ok in H as (Ex & [(old & Ho & Eslot & Erel & _ & _ & ->)|(_ & _ & ->)]); [..|done].
  - refine (sequences_moves _ s Hk _ _ Hok).
    + intros r Hr. exists (if r_at (r_ID old) SequenceReleased r then reclaim res (st_now s) r else r).
      split; [apply elem_of_update; eauto|]. destruct (r_at _ _ r) eqn:E; [|done].
      apply andb_true_iff in E as [_ E]. apply bool_decide_eq_true in E.
      unfold reservation_evolves, spent. simpl. rewrite E. done.
    + intros r' id (r & Hr & ->)%elem_of_update Hw. destruct (r_at (r_ID old) SequenceReleased r) eqn:E.
      * right. apply Hnew; [done| |done]. apply andb_true_iff in E as [E _]. apply Z.eqb_eq in E.
        assert (r = old) as -> by (eapply ids_ok_inj; [apply (so_sequences s Hs)|done..]). done.
      * left. by exists r.
  - refine (sequences_moves _ s Hk _ _ Hok).
    + intros r Hr. exists r. split; [apply elem_of_app; by left | done].
    + intros r' id [Hr|[->|Hn]%elem_of_cons]%elem_of_app Hw; [left; by exists r'|right|by apply elem_of_nil in Hn].
      apply Hnew; [by rewrite Ex|by rewrite Ex|done].
Qed.

Lemma reserveTx_moves chainID source ref released acct chainSeq s r s' :
  owner_ok chainID source ref s ->
  with_tx (Sequences.reserveTx chainID source ref released acct chainSeq) s = (r, s') -> moves s s'.
Proof.
  intros Hown H. destruct r as [x|e]; [|apply with_tx_err in H as ->; reflexivity].
  apply with_tx_ok in H. unfold Sequences.reserveTx in H. inv_tx1 H. inv_tx1 H.
  destruct (Sequences.ListUnconsumed_ok chainID source s) as (l & Hl & _).
  rewrite Hl in Hm. injection Hm as <- <-.
  assert (s1 = s) as -> by (destruct released as [ex|]; [destruct (_ <? _); [done|]|]; by injection Hm0).
  by eapply Sequences_Reserve_moves; [|exact H].
Qed.

(** ** Creation *)

Lemma Create_moves x s r s' :
  w_SignedTxBytes x = [] -> Withdrawals_Create x s = (Ok r, s') -> moves s s'.
Proof.
  intros Hb H [H1 H2 H3 H3' H4 H5 H6]. pose proof (Withdrawals_Create_keeps x s H1) as Hs'. rewrite H in Hs'.
  assert (w_SignedTxBytes r = []) as Hr.
  { revert H. unfold Withdrawals_Create, fmtTime. intros H. inv_tx H. unfold insert_row in H.
    destruct (violation _ _ _); [done|]. injection H as <- _. done. }
  apply Withdrawals_Create_ok in H as (_ & E & _). cbn [snd] in Hs'.
  assert (st_sequences s' = st_sequences s) as ER by (rewrite E; apply sequences_set_withdrawals).
  assert (forall y, y ∈ st_withdrawals s' <-> y ∈ st_withdrawals s \/ y = r) as EW.
  { intros y. rewrite E, withdrawals_set_rows, elem_of_app, elem_of_cons, elem_of_nil. tauto. }
  clear E. assert (~ signed r) as Hns by (intros Hn; apply Hn, Hr).
  split; split; try done; rewrite ?ER; eauto using reservation_evolves_refl.
  - intros y Hy. exists y. split; [apply EW; by left | done].
  - intros y [Hy| ->]%EW Hs; [left; by exists y|done].
  - intros y [Hy| ->]%EW Hp; auto.
  - intros y [Hy| ->]%EW Hs; [auto|done].
  - intros y [Hy| ->]%EW Hs; [auto|done].
  - intros y [Hy| ->]%EW Hs; [auto|done].
  - intros y z [Hy| ->]%EW [Hz| ->]%EW Sy Sz; try done. auto.
  - intros q id Hq Hw. destruct (H6 q id Hq Hw) as (y & Hy & Hrest). exists y. split; [apply EW; by left|done].
Qed.

(** ** Signing *)

Lemma slot_unique s r r' :
  schema_ok s -> r ∈ st_sequences s -> r' ∈ st_sequences s -> slot_key r = slot_key r' -> r = r'.
Proof.
  intros Hs Hr Hr' E. destruct (so_sequences s Hs) as (_ & Hu & _).
  apply list_elem_of_lookup_1 in Hr as [i Hi], Hr' as [j Hj].
  assert (i = j) as -> by (eapply Hu; [exact Hi | exact Hj | reflexivity | exact (eq_sym E)]). congruence.
Qed.

(** A reserved slot carries no signed withdrawal. *)
Lemma reserved_unsigned s r x :
  signing_ok s -> r ∈ st_sequences s -> r_Status r = SequenceReserved ->
  x ∈ st_withdrawals s -> signed x -> slot_of x <> slot_key r.
Proof.
  intros Hok Hr Hst Hx Hs E. destruct (sg_slot s Hok x Hx Hs) as (r' & Hr' & Hsp & Hk).
  assert (r' = r) as -> by (apply (slot_unique s); [apply Hok|done..|congruence]). unfold spent in Hsp. by rewrite Hst in Hsp.
Qed.

Section sign_transaction.
Context (s : Store) (id : string) (rid now now' : Z) (bz : bytes) (k : string * string * Z).
Hypothesis Hok : signing_ok s.
Hypothesis Hslotx : forall x, x ∈ st_withdrawals s -> w_WithdrawalID x = id -> slot_of x = Some k.
Hypothesis Hslotr : forall r, r ∈ st_sequences s -> r_ID r = rid -> slot_key r = Some k.
Hypothesis Htr : forall x, x ∈ st_withdrawals s -> w_WithdrawalID x = id -> transfers x bz.

(** The two row updates of the transaction. *)
Definition sign_row (x : WithdrawalRecord) : WithdrawalRecord :=
  if w_at id WithdrawalTransactionSimulated x
  then withdrawal_set WithdrawalSigned now (signed_update bz (Hash.TxHash bz)) x else x.
Definition spend_row (r : SequenceReservation) : SequenceReservation :=
  if r_at rid SequenceReserved r then reservation_set SequenceSigned now' r else r.

Context (r0 : SequenceReservation).
Hypothesis Hr0 : r0 ∈ st_sequences s.
Hypothesis Hrid : r_ID r0 = rid.
Hypothesis Hrst : r_Status r0 = SequenceReserved.

(** Either the row is not the one being signed, or it is: unsigned so far, on
    the slot, signed with [bz] now. *)
Lemma sign_row_cases x :
  x ∈ st_withdrawals s ->
  sign_row x = x \/
  (w_at id WithdrawalTransactionSimulated x = true /\ w_SignedTxBytes x = [] /\ slot_of x = Some k /\
   slot_of (sign_row x) = Some k /\ request_of (sign_row x) = request_of x /\
   w_Sequence (sign_row x) = w_Sequence x /\ w_Status (sign_row x) = WithdrawalSigned /\
   w_TxHash (sign_row x) = Some (Hash.TxHash bz) /\ w_SignedTxBytes (sign_row x) = bz).
Proof.
  intros Hx. unfold sign_row. destruct (w_at id _ x) eqn:E; [right|by left].
  pose proof E as [Ei%bool_decide_eq_true Est%bool_decide_eq_true]%andb_true_iff.
  assert (w_SignedTxBytes x = []) as Hb by (apply (sg_presign s Hok x Hx); by rewrite Est).
  pose proof (Hslotx x Hx Ei) as Hk. split_and!; try done. simpl. by destruct bz.
Qed.

Lemma spend_row_evolves r : reservation_evolves r (spend_row r).
Proof.
  unfold spend_row. destruct (r_at rid _ r) eqn:E; [|done].
  apply andb_true_iff in E as [_ E]. apply bool_decide_eq_true in E.
  unfold reservation_evolves, spent. simpl. by rewrite E.
Qed.

Lemma sign_row_evolves x : x ∈ st_withdrawals s -> withdrawal_evolves x (sign_row x).
Proof.
  intros Hx. destruct (sign_row_cases x Hx) as [->|(E & Hb & _ & _ & Hreq & Hq & Hst & _)]; [done|].
  pose proof E as [_ Est%bool_decide_eq_true]%andb_true_iff.
  unfold withdrawal_evolves, signed. rewrite Hst, Hq, Hb, Est. done.
Qed.

Lemma signed_other x : x ∈ st_withdrawals s -> signed x -> slot_of x <> Some k.
Proof.
  intros Hx Hs. rewrite <-(Hslotr r0 Hr0 Hrid). by eapply reserved_unsigned.
Qed.

Lemma sign_once x y :
  x ∈ st_withdrawals s -> y ∈ st_withdrawals s -> signed (sign_row x) -> signed (sign_row y) ->
  slot_of (sign_row x) = slot_of (sign_row y) -> sign_row x = sign_row y.
Proof.
  intros Hx Hy Sx Sy E.
  destruct (sign_row_cases x Hx) as [Ex|(Wx & _ & _ & Kx & _)],
    (sign_row_cases y Hy) as [Ey|(Wy & _ & _ & Ky & _)].
  - rewrite Ex, Ey in *. by apply (sg_once s Hok).
  - exfalso. rewrite Ex in *. apply (signed_other x Hx Sx). congruence.
  - exfalso. rewrite Ey in *. apply (signed_other y Hy Sy). congruence.
  - f_equal. apply (withdrawal_unique s); [apply (sg_schema s Hok)|done..|].
    apply andb_true_iff in Wx as [Wx%bool_decide_eq_true _], Wy as [Wy%bool_decide_eq_true _]. congruence.
Qed.

(** The slot of the row being signed was not spent. *)
Lemma sign_fresh x :
  x ∈ st_withdrawals s -> signed (sign_row x) ->
  (exists y, y ∈ st_withdrawals s /\ signed y /\ slot_of y = slot_of (sign_row x)) \/
  (forall r, r ∈ st_sequences s -> slot_key r = slot_of (sign_row x) -> ~ spent r).
Proof.
  intros Hx Sx. destruct (sign_row_cases x Hx) as [Ex|(_ & _ & _ & Kx & _)].
  - left. exists x. rewrite Ex in *. done.
  - right. intros r Hr Ek Hsp. rewrite Kx, <-(Hslotr r0 Hr0 Hrid) in Ek.
    rewrite (slot_unique s r r0) in Hsp by (done || apply Hok). unfold spent in Hsp. by rewrite Hrst in Hsp.
Qed.

Lemma sign_slot x :
  x ∈ st_withdrawals s -> signed (sign_row x) ->
  exists r, r ∈ st_sequences s /\ spent (spend_row r) /\ slot_key (spend_row r) = slot_of (sign_row x).
Proof.
  intros Hx Sx. destruct (sign_row_cases x Hx) as [Ex|(_ & _ & _ & Kx & _)].
  - rewrite Ex in *. destruct (sg_slot s Hok x Hx Sx) as (r & Hr & Hsp & Hk). exists r.
    destruct (spend_row_evolves r) as (_ & -> & Hs'). auto.
  - exists r0. rewrite Kx. destruct (spend_row_evolves r0) as (_ & -> & _).
    split_and!; [done| |by apply Hslotr]. unfold spend_row, spent, r_at.
    by rewrite Hrid, Z.eqb_refl, (bool_decide_eq_true_2 _ Hrst).
Qed.

Context (s' : Store).
Hypothesis Hsch' : schema_ok s'.
Hypothesis EW : forall y, y ∈ st_withdrawals s' <-> exists x, x ∈ st_withdrawals s /\ y = sign_row x.
Hypothesis ER : forall r, r ∈ st_sequences s' <-> exists r1, r1 ∈ st_sequences s /\ r = spend_row r1.

Lemma sign_rows_move : evolves s s' /\ signing_ok s'.
Proof.
  split; split; [| | |done|..].
  - intros x Hx. exists (sign_row x). split; [apply EW; eauto | by apply sign_row_evolves].
  - intros r Hr. exists (spend_row r). split; [apply ER; eauto | apply spend_row_evolves].
  - intros y (x & Hx & ->)%EW Hs. by apply sign_fresh.
  - intros y (x & Hx & ->)%EW Hp. destruct (sign_row_cases x Hx) as [Ex|(_ & _ & _ & _ & _ & _ & Est & _)].
    + rewrite Ex in *. by apply (sg_presign s Hok).
    + by rewrite Est in Hp.
  - intros y (x & Hx & ->)%EW Hs. destruct (sign_row_cases x Hx) as [Ex|(_ & _ & _ & _ & _ & _ & _ & -> & ->)].
    + rewrite Ex in *. by apply (sg_hash s Hok).
    + done.
  - intros y (x & Hx & ->)%EW Hs. destruct (sign_row_cases x Hx) as [Ex|(E & _ & _ & _ & Hreq & Hq & _ & _ & Eb)].
    + rewrite Ex in *. by apply (sg_transfer s Hok).
    + rewrite Eb. eapply transfers_stable; [done..|]. apply Htr; [done|].
      by apply andb_true_iff in E as [E%bool_decide_eq_true _].
  - intros y (x & Hx & ->)%EW Hs. destruct (sign_slot x Hx Hs) as (r & Hr & ? & ?).
    exists (spend_row r). split_and!; [apply ER; eauto|done..].
  - intros y z (x & Hx & ->)%EW (x' & Hx' & ->)%EW. by apply sign_once.
  - intros r i (r1 & Hr1 & ->)%ER Hw. destruct (spend_row_evolves r1) as (_ & Hk & _).
    assert (r_WorkRef r1 = MkWorkRef WorkWithdrawal i) as Hw1
      by (rewrite <-Hw; unfold spend_row; by destruct (r_at _ _ r1)).
    destruct (sg_account s Hok r1 i Hr1 Hw1) as (x & Hx & Hid & Hc & Hsrc).
    exists (sign_row x). destruct (sign_row_evolves x Hx) as (Hreq & _).
    injection Hreq as E1 _ E2 E3 _ _ _ _. injection Hk as F1 F2 _.
    split_and!; [apply EW; eauto|congruence..].
Qed.
End sign_transaction.

(** The signature transaction, on a withdrawal and a reservation row that name
    the same slot. *)
Lemma signTx_moves id rid bz k s s' :
  (forall x, x ∈ st_withdrawals s -> w_WithdrawalID x = id -> slot_of x = Some k) ->
  (forall r, r ∈ st_sequences s -> r_ID r = rid -> slot_key r = Some k) ->
  (forall x, x ∈ st_withdrawals s -> w_WithdrawalID x = id -> transfers x bz) ->
  signTx id rid bz (Hash.TxHash bz) s = (Ok tt, s') -> moves s s'.
Proof.
  intros Hslotx Hslotr Htr H Hok. pose proof (sg_schema s Hok) as H1. unfold signTx in H. inv_tx1 H. destruct a.
  pose proof (Withdrawals_UpdateStatus_keeps id WithdrawalTransactionSimulated WithdrawalSigned
    (signed_update bz (Hash.TxHash bz)) s H1) as Hs0. rewrite Hm in Hs0. cbn [snd] in Hs0.
  pose proof (Sequences_UpdateStatus_keeps rid SequenceReserved SequenceSigned s0 Hs0) as Hs'.
  rewrite H in Hs'. cbn [snd] in Hs'.
  apply Withdrawals_UpdateStatus_ok in Hm as (_ & _ & _ & _ & _ & E0).
  apply Sequences_UpdateStatus_ok in H as (_ & r0 & Hr0 & Hrid & Hrst & E1).
  assert (st_sequences s0 = st_sequences s) as ER0 by (rewrite E0; apply sequences_set_withdrawals).
  rewrite ER0 in Hr0.
  eapply (sign_rows_move s id rid (st_now s) (st_now s0) bz k Hok Hslotx Hslotr Htr r0 Hr0 Hrid Hrst s' Hs').
  - intros y. rewrite E1, withdrawals_set_sequences, E0, withdrawals_set_rows. apply elem_of_update.
  - intros r. rewrite E1, sequences_set_rows, ER0. apply elem_of_update.
Qed.

(** ** Programs *)

(** Only bytes of a withdrawal in the database go to the network. *)
Definition callok (T : Type) (c : call T) (s : Store) : Prop :=
  match c with
  | CBroadcast b _ => exists x, x ∈ st_withdrawals s /\ signed x /\ w_SignedTxBytes x = b
  | _ => True
  end.

Lemma callok_stable T (c : call T) s s' : callok T c s -> evolves s s' -> callok T c s'.
Proof.
  destruct c; try done. intros (x & Hx & Hs & Hb) He.
  destruct (ev_withdrawals _ _ He x Hx) as (x' & Hx' & _ & _ & Hkeep).
  destruct (Hkeep Hs) as [E _]. exists x'. unfold signed in *. rewrite E. done.
Qed.

Local Notation ok := (safe evolves signing_ok callok).

Local Notation tame := (tame evolves signing_ok callok).
Local Notation with_tx_moves := (with_tx_moves evolves signing_ok).
Local Notation ok_stmt := (ok_stmt evolves signing_ok callok).
Local Notation tame_done := (tame_done evolves signing_ok callok).
Local Notation tame_bind := (tame_bind evolves signing_ok callok).
Local Notation tame_r_bind := (tame_r_bind evolves signing_ok callok).
Local Notation tame_stmt := (tame_stmt evolves signing_ok callok).
Local Notation tame_stmt_ok := (tame_stmt_ok evolves signing_ok callok).
Local Notation tame_atomically := (tame_atomically evolves signing_ok callok).
Local Notation tame_ask := (tame_ask evolves signing_ok callok).
Local Notation tame_forget := (tame_forget evolves signing_ok callok).

Fixpoint results {A} (Q : A -> Prop) (p : handler A) : Prop :=
  match p with
  | Done a => Q a
  | Txn _ k => forall x, results Q (k x)
  | Call _ k => forall x, results Q (k x)
  end.

Lemma ok_bind_results {A B} (Q : A -> Prop) (p : handler A) (f : A -> handler B) s :
  ok p s -> results Q p -> (forall a s', Q a -> evolves s s' -> ok (f a) s') -> ok (p_bind p f) s.
Proof.
  revert s. induction p as [a|T t k IH|T c k IH]; intros s; simpl.
  - intros _ HQ Hf. by apply Hf.
  - intros H HQ Hf s1 Hs1 HI. destruct (H s1 Hs1 HI) as (HR & HI' & Hk). split_and!; [done..|].
    apply IH; [done..|]. intros a s' Ha Hs'. apply Hf; [done|]. etransitivity; [exact Hs1|]. by etransitivity.
  - intros [Hc Hk] HQ Hf. split; [done|]. intros x. by apply IH.
Qed.

Lemma results_bind {A B} (P : A -> Prop) (Q : B -> Prop) (p : handler A) (f : A -> handler B) :
  results P p -> (forall a, P a -> results Q (f a)) -> results Q (p_bind p f).
Proof. induction p; simpl; eauto. Qed.

(** ** The transactions of the handlers *)

Ltac calm := split_and!; [reflexivity | reflexivity | first [left; reflexivity | right; reflexivity]].
Ltac move_step :=
  lazymatch goal with
  | |- preserves _ (tx_bind _ _) => apply preserves_bind; [typeclasses eauto| |intros ?]
  | |- preserves _ (tx_ret _) => apply preserves_ret; typeclasses eauto
  | |- preserves _ (tx_fail _) => apply preserves_fail; typeclasses eauto
  | |- preserves _ (tx_get _) => apply preserves_get; typeclasses eauto
  | |- preserves _ (tx_require _ _) => apply preserves_require; typeclasses eauto
  | |- preserves _ (tx_of _) => apply preserves_of; typeclasses eauto
  | |- preserves _ (tx_try _) => apply preserves_try
  | |- preserves _ (select_row _) => apply select_row_moves'
  | |- preserves _ (Withdrawals_Get _) => apply select_row_moves'
  | |- preserves _ (Sequences_GetByWorkRef _) => apply select_row_moves'
  | |- preserves _ (Withdrawals_GetByIdempotencyKey _) => apply select_row_moves'
  | |- preserves _ (Deposits_GetByID _) => apply select_row_moves'
  | |- preserves _ (Review_Open _) => apply Review_Open_moves
  | |- preserves _ (Review_Resolve _ _ _) => apply Review_Resolve_moves
  | |- preserves _ (Deposits_UpdateStatus _ _ _ _) => apply Deposits_UpdateStatus_moves
  | |- preserves _ (Withdrawals_UpdateStatus _ _ _ _) => apply UpdateStatus_calm_moves; try calm
  | |- preserves _ (Sequences_UpdateStatus _ _ _) => apply Sequences_UpdateStatus_moves; try (intros ?; done)
  | |- preserves _ (match ?x with _ => _ end) => destruct x eqn:?
  | |- preserves _ (if ?x then _ else _) => destruct x eqn:?
  end.
Ltac move_steps := repeat move_step.

Lemma Controls_Get_moves c : preserves moves (Controls_Get c).
Proof. unfold Controls_Get, getControls. move_steps. Qed.

Lemma quarantineTx_moves w id from reason : preserves moves (quarantineTx w id from reason).
Proof. unfold quarantineTx. move_steps. Qed.
Lemma quarantinePostTx_moves w id from rid reason :
  preserves moves (quarantinePostSignatureTx w id from rid reason).
Proof. unfold quarantinePostSignatureTx. move_steps. Qed.
Lemma reserveFundsTx_moves w id rec bal : preserves moves (reserveFundsTx w id rec bal).
Proof. unfold reserveFundsTx, Withdrawals_SumCommittedBySource. move_steps. Qed.
Lemma cancelTx_moves id from : preserves moves (cancelTx id from).
Proof. unfold cancelTx, Sequences_GetByWorkRef. move_steps. Qed.
Lemma advanceReservation_moves id : preserves moves (advanceReservation id SequenceSigned SequenceBroadcast).
Proof.
  unfold advanceReservation, ignore_conflict. move_steps.
Qed.
Lemma consumeReservation_moves id : preserves moves (consumeReservation id).
Proof.
  unfold consumeReservation, ignore_conflict. move_steps.
Qed.
Lemma quarantineReservation_moves id from : preserves moves (quarantineReservation id from).
Proof.
  unfold quarantineReservation, ignore_conflict. move_steps.
Qed.
Lemma acceptTx_moves id : preserves moves (acceptTx id).
Proof. unfold acceptTx. move_steps. apply advanceReservation_moves. Qed.
Lemma reviewTx_moves rec id from u resFrom reason :
  calm from u -> preserves moves (reviewTx rec id from u resFrom reason).
Proof.
  intros Hu. unfold reviewTx. move_steps; [done|]. apply quarantineReservation_moves.
Qed.
Lemma includeTx_moves id info : preserves moves (includeTx id info).
Proof. unfold includeTx. move_steps. apply consumeReservation_moves. Qed.

(** ** The handlers *)

Create HintDb moves.
#[local] Hint Resolve Controls_Get_moves quarantineTx_moves quarantinePostTx_moves reserveFundsTx_moves
  cancelTx_moves acceptTx_moves includeTx_moves : moves.

Ltac tame_step :=
  lazymatch goal with
  | |- tame (r_bind _ _) => apply tame_r_bind; [|intros ?]
  | |- tame (p_bind _ _) => apply tame_bind; [|intros ?]
  | |- tame (Done _) => apply tame_done
  | |- tame (ask _) => apply tame_ask; done
  | |- tame (stmt _) => apply tame_stmt; solve [auto with moves | move_steps]
  | |- tame (atomically _) => apply tame_atomically; solve [auto with moves | move_steps]
  | |- tame (match ?x with _ => _ end) => destruct x eqn:?
  | |- tame (if ?x then _ else _) => destruct x eqn:?
  end.
Ltac tame_steps := repeat tame_step.

Section handlers.
Context (w : Workflow).

Lemma quarantine_tame id from reason : tame (quarantine w id from reason).
Proof. unfold quarantine. tame_steps. Qed.
Lemma quarantinePost_tame id from rid reason : tame (quarantinePostSignature w id from rid reason).
Proof. unfold quarantinePostSignature. tame_steps. Qed.

Lemma Submit_tame req : tame (Submit w req).
Proof.
  unfold Submit. tame_steps. apply tame_stmt_ok. intros s r s'. by apply Create_moves.
Qed.
Lemma ValidateAddress_tame id : tame (ValidateAddress w id).
Proof. unfold ValidateAddress. tame_steps; apply quarantine_tame. Qed.
Lemma ApproveCompliance_tame id : tame (ApproveCompliance id).
Proof. unfold ApproveCompliance. tame_steps. Qed.
Lemma ReserveFunds_tame id : tame (ReserveFunds w id).
Proof. unfold ReserveFunds. tame_steps. Qed.
Lemma Build_tame id : tame (Build w id).
Proof. unfold Build. tame_steps. apply quarantine_tame. Qed.
Lemma senderPubKey_tame src : tame (senderPubKey w src).
Proof. unfold senderPubKey. tame_steps. Qed.
Lemma simulateFinish_tame id rec g l : tame (simulateFinish w id rec g l).
Proof. unfold simulateFinish. tame_steps. apply quarantine_tame. Qed.
Lemma Simulate_tame id : tame (Simulate w id).
Proof.
  unfold Simulate, simulationTxBytes.
  tame_steps; first [apply quarantine_tame | apply simulateFinish_tame | apply senderPubKey_tame].
Qed.
Lemma Cancel_tame id : tame (Cancel id).
Proof. unfold Cancel. tame_steps. Qed.
Lemma Confirm_tame id : tame (Confirm w id).
Proof.
  unfold Confirm, confirmMissing, confirmIncluded.
  tame_steps; first [apply quarantine_tame | apply tame_atomically, reviewTx_moves; calm].
Qed.

(** *** Handlers whose safety rests on what they read *)

Lemma Reserve_ok chainID source ref s :
  owner_ok chainID source ref s -> ok (Sequences.Reserve chainID source ref) s.
Proof.
  intros Hown. unfold Sequences.Reserve. destruct (_ || _); [done|].
  assert (forall released s1, owner_ok chainID source ref s1 ->
    ok (Sequences.reserve_new chainID source ref released) s1) as Hnew.
  { intros released s1 Hown1. unfold Sequences.reserve_new. split; [done|]. intros [[acct chainSeq]|e]; [|done].
    apply (ok_stmt (Sequences.reserveTx chainID source ref released acct chainSeq)).
    - intros s2 a s3 He _ H. eapply reserveTx_moves; [|apply with_tx_commit; exact H].
      by eapply owner_ok_stable.
    - intros s2 r s3 _ _ _ _ _. destruct r as [r|[]]; try done.
      revert s3. change (tame (let* raced := stmt (Sequences_GetByWorkRef ref) in
        match raced with Ok r => Done (Ok r) | Err _ => Done (Err ErrDuplicate) end)). tame_steps. }
  apply ok_stmt.
  - intros s1 a s2 _ _ H. unfold moves.
    rewrite (GetByWorkRef_state _ _ _ _ H). intros ?. split; [reflexivity|done].
  - intros s1 r s2 _ _ _ _ He. pose proof (owner_ok_stable _ _ _ _ _ He Hown) as Ho.
    destruct r as [ex|[]]; try done; [case_bool_decide; [by apply Hnew|done] | by apply Hnew].
Qed.

Lemma read_moves {A} (m : db A) s a s' :
  (forall s r s', m s = (r, s') -> s' = s) -> m s = (Ok a, s') -> moves s s'.
Proof. intros Hr H. rewrite (Hr _ _ _ H). reflexivity. Qed.

Lemma ReserveSequence_ok id s : ok (ReserveSequence w id) s.
Proof.
  unfold ReserveSequence, r_bind. apply ok_stmt.
  { intros s1 a s2 _ _. apply read_moves, Withdrawals_Get_state. }
  intros s1 [rec|e] s2 _ _ Hg Hs2 _; [|done]. apply with_tx_ok, Withdrawals_Get_ok in Hg as (-> & Hrec & Hid).
  apply safe_bind; [apply _|apply Reserve_ok|].
  - intros _. by exists rec.
  - intros r s' _. revert s'.
    change (tame match r with
      | Err ErrReleasedSlotUnusable => quarantine w (w_WithdrawalID rec) (w_Status rec) "released slot unusable"
      | Err e => Done (Err e)
      | Ok res => stmt (Withdrawals_UpdateStatus id WithdrawalFundsReserved WithdrawalSequenceReserved
                          (sequence_update res))
      end). tame_steps; apply quarantine_tame.
Qed.
(** The withdrawal [Sign] read is still requested and numbered as read, and the
    reservation row it read is on the withdrawal's slot. *)
Definition sign_facts (rec : WithdrawalRecord) (rid : Z) (s : Store) : Prop :=
  (exists x, x ∈ st_withdrawals s /\ early (w_Status x) = false /\ request_of x = request_of rec /\
     w_Sequence x = w_Sequence rec) /\
  (exists r, r ∈ st_sequences s /\ r_ID r = rid /\ slot_key r = slot_of rec).

Lemma sign_facts_stable rec rid s s' : evolves s s' -> sign_facts rec rid s -> sign_facts rec rid s'.
Proof.
  intros He [(x & Hx & Hl & Hr & Hq) (r & Hin & Hrid & Hrk)]. split.
  - destruct (ev_withdrawals _ _ He x Hx) as (x' & Hx' & Hreq & Hlate & _).
    destruct (Hlate Hl) as [Hl' Hq']. exists x'. split_and!; congruence.
  - destruct (ev_sequences _ _ He r Hin) as (r' & Hr' & E1 & E2 & _). exists r'. split_and!; congruence.
Qed.

Lemma signTx_facts_moves rec rid bz s a s' :
  signing_ok s -> sign_facts rec rid s -> transfers rec bz ->
  signTx (w_WithdrawalID rec) rid bz (Hash.TxHash bz) s = (Ok a, s') -> moves s s'.
Proof.
  intros Hok [(x & Hx & _ & Hreq & Hq) (r & Hr & Hrid & Hrk)] Ht H. destruct a.
  pose proof (sg_schema s Hok) as Hs. pose proof Ht as (n & Hn & _).
  assert (forall y, y ∈ st_withdrawals s -> w_WithdrawalID y = w_WithdrawalID rec -> y = x) as Huniq.
  { intros y Hy Hidy. apply (withdrawal_unique s); [done..|]. injection Hreq as ->. done. }
  assert (slot_of rec = Some (w_ChainID rec, w_SourceAddress rec, n)) as Hslot by (unfold slot_of; by rewrite Hn).
  eapply signTx_moves; [..|exact H].
  - intros y Hy ->%Huniq; [|done]. unfold slot_of. injection Hreq as _ _ -> -> _ _ _ _. by rewrite Hq, Hn.
  - intros q Hq' Hidq. assert (q = r) as -> by (eapply ids_ok_inj; [apply (so_sequences s Hs)|congruence..]).
    by rewrite Hrk.
  - intros y Hy ->%Huniq; [|done]. by eapply transfers_stable.
Qed.

Lemma signAndPersist_safe rec res doc sm u s :
  sign_facts rec (r_ID res) s ->
  (forall bz sig, Tx.Assemble u sig = Ok (bz, Hash.TxHash bz) -> transfers rec bz) ->
  ok (signAndPersist w (w_WithdrawalID rec) rec res doc sm u) s.
Proof.
  intros Hf Ht. unfold signAndPersist. split; [done|]. intros [resp|e].
  2:{ destruct e; try apply quarantine_tame; done. }
  cbn. destruct (VerifySignedResponse _ _ _); [apply quarantinePost_tame|].
  destruct (Tx.Assemble u _) as [[bz h]|] eqn:Ha; [|apply quarantinePost_tame].
  assert (h = Hash.TxHash bz) as -> by (by apply Tx.Assemble_ok in Ha as (-> & _)).
  apply Ht in Ha. intros s1 He Hs1.
  destruct (with_tx (signTx _ (r_ID res) bz (Hash.TxHash bz)) s1) as [r s2] eqn:E.
  cbn [fst snd]. split_and!; try done; eapply with_tx_moves; try exact E; try done;
    intros a s'; apply signTx_facts_moves; try done; by eapply sign_facts_stable.
Qed.

Lemma sign_facts_read s1 s rec r :
  signing_ok s -> evolves s1 s -> rec ∈ st_withdrawals s1 ->
  w_Status rec = WithdrawalTransactionSimulated -> r ∈ st_sequences s ->
  r_WorkRef r = withdrawal_ref (w_WithdrawalID rec) -> w_Sequence rec = Some (r_Sequence r) ->
  sign_facts rec (r_ID r) s.
Proof.
  intros Hs He Hrec Hst Hr Hw Hq.
  destruct (ev_withdrawals s1 s He rec Hrec) as (x & Hx & Hreq & Hlate & _).
  rewrite Hst in Hlate. destruct (Hlate eq_refl) as [Hl E]. split; [by exists x|].
  injection Hreq as E1 _ E2 E3 _ _ _ _. exists r. split_and!; [done..|].
    destruct (sg_account s Hs r (w_WithdrawalID rec) Hr Hw) as (y & Hy & Hidy & Hc & Hsrc).
    assert (x = y) as -> by (apply (withdrawal_unique s); [apply (sg_schema s Hs)|congruence..]).
    unfold slot_key, slot_of. rewrite Hq. congruence.
Qed.

Lemma Sign_ok id s : ok (Sign w id) s.
Proof.
  unfold Sign, r_bind. apply ok_stmt.
  { intros s1 a s2 _ _. apply read_moves, Withdrawals_Get_state. }
  intros s1 [rec|e] s2 _ _ Hg _ _; [|done]. apply with_tx_ok, Withdrawals_Get_ok in Hg as (-> & Hrec & Hid).
  case_bool_decide as Hst; cbn [negb]; [|done]. apply ok_stmt.
  { intros s3 a s4 _ _. apply read_moves, Controls_Get_state. }
  intros s3 [c|e] s4 _ _ _ _ He4; [|done]. destruct (oc_SigningPaused c); [done|]. apply ok_stmt.
  { intros s5 a s6 _ _. apply read_moves, GetByWorkRef_state. }
  intros s5 [r|e] s6 _ Hs5 Hr _ He6; [|done]. apply read_state in Hr as Hr'; [|apply GetByWorkRef_state].
  assert (s6 = s5) as -> by (eapply GetByWorkRef_state; by apply with_tx_ok).
  rewrite GetByWorkRef_result in Hr'. destruct (List.find _ _) as [r0|] eqn:Hf; [|done].
  injection Hr' as ->. apply find_elem in Hf as [Hrin Hw]. apply bool_decide_eq_true in Hw.
  case_bool_decide as Hrs; cbn [negb]; [|apply quarantine_tame].
  destruct (w_AccountNumber rec) as [acct|], (w_Sequence rec) as [seq|] eqn:Hq,
    (w_FeeAmountBaseUnits rec) as [fee|], (w_GasLimit rec) as [gl|]; try apply quarantine_tame.
  destruct ((acct =? r_AccountNumber r) && (seq =? r_Sequence r)) eqn:Hm; cbn [negb]; [|apply quarantine_tame].
  apply andb_true_iff in Hm as [_ Hseq%Z.eqb_eq].
  assert (sign_facts rec (r_ID r) s5) as Hfacts.
  { apply (sign_facts_read s1); [done|by etransitivity|done..|congruence]. }
  destruct (build_for rec) as [u0|] eqn:Hbuild; [|apply quarantine_tame].
  apply safe_bind; [apply _|apply senderPubKey_tame|]. intros [pk|e] s7 He7.
  2:{ destruct e; try apply quarantine_tame; done. }
  destruct (Tx.SignDoc _ _ _ _ _ _) as [[[doc sm] u]|] eqn:Hdoc; [|apply quarantine_tame].
  destruct (summaryMismatch _ _ _ _ _ _); [apply quarantine_tame|].
  rewrite <-Hid. apply signAndPersist_safe; [by eapply sign_facts_stable|].
  intros bz sig Ha. exists seq. split; [done|]. unfold Tx.signed_transfer. eauto 12.
Qed.

(** A call about bytes that were read from the database. *)
Lemma broadcast_read x s s' mode :
  x ∈ st_withdrawals s -> signed x -> evolves s s' ->
  forall s1, evolves s' s1 -> signing_ok s1 -> callok _ (CBroadcast (w_SignedTxBytes x) mode) s1.
Proof.
  intros Hx Hs He s1 He1 _. eapply (callok_stable _ (CBroadcast (w_SignedTxBytes x) mode)); [by exists x|].
  by etransitivity.
Qed.

Lemma resolveUnknown_tame rec h : tame (resolveUnknownAfterBroadcast rec h).
Proof.
  unfold resolveUnknownAfterBroadcast. tame_steps; apply tame_atomically, reviewTx_moves; calm.
Qed.

Lemma Broadcast_ok id s : ok (Broadcast id) s.
Proof.
  unfold Broadcast. apply ok_stmt.
  { intros s1 a s2 _ _. apply read_moves, Withdrawals_Get_state. }
  intros s1 [rec|e] s2 _ _ Hg _ _; [|done]. apply with_tx_ok, Withdrawals_Get_ok in Hg as (-> & Hrec & _).
  case_bool_decide; cbn [negb]; [|done].
  destruct (w_SignedTxBytes rec) as [|b0 bs] eqn:Hb; [done|]. destruct (w_TxHash rec) as [h|]; [|done].
  apply ok_stmt.
  { intros s3 a s4 _ _. apply read_moves, Controls_Get_state. }
  intros s3 [c|e] s4 _ _ _ _ He; [|done]. destruct (oc_BroadcastPaused c); [done|]. split.
  { rewrite <-Hb. apply (broadcast_read rec s1); [done|unfold signed; by rewrite Hb|done]. }
  assert (forall res : result err BroadcastResult, tame (match res with
    | Err _ => resolveUnknownAfterBroadcast rec h
    | Ok res => if negb (br_Accepted res)
        then let* r := atomically (reviewTx rec id WithdrawalSigned
               (code_update (br_Code res) (br_RawLog res)) SequenceSigned "checktx rejected") in
             Done (Some OutcomeCheckTxRejected, to_err r)
        else let* r := atomically (acceptTx id) in Done (Some OutcomeMempoolAccepted, to_err r)
    end)) as Htame; [|intros res; exact (Htame res s4)].
  intros res. tame_steps; [apply tame_atomically, reviewTx_moves; calm | apply resolveUnknown_tame].
Qed.

Lemma Rebroadcast_ok x s s' :
  x ∈ st_withdrawals s -> evolves s s' -> ok (Sequences.RebroadcastPersisted (w_SignedTxBytes x)) s'.
Proof.
  intros Hx He. unfold Sequences.RebroadcastPersisted. case_bool_decide as Hb; [done|].
  pose proof (broadcast_read x s s' BroadcastSync Hx Hb He) as Hc.
  split; [done|]. intros [[i|]|e]; cbn.
  - destruct (0 <? ti_Height i); [done|]. split; [exact Hc|]. by intros [].
  - split; [exact Hc|]. by intros [].
  - case_bool_decide; [|done]. split; [exact Hc|]. by intros [].
Qed.

Lemma Recover_ok id s : ok (Recover id) s.
Proof.
  unfold Recover. apply ok_stmt.
  { intros s1 a s2 _ _. apply read_moves, Withdrawals_Get_state. }
  intros s1 [rec|e] s2 _ _ Hg _ _; [|done]. apply with_tx_ok, Withdrawals_Get_ok in Hg as (-> & Hrec & _).
  case_bool_decide; cbn [negb]; [|done]. case_bool_decide; [done|].
  apply safe_bind; [apply _|by apply (Rebroadcast_ok rec s1)|]. intros res s' _.
  enough (tame match res with
    | Err e => Done (None, Some e)
    | Ok res =>
        if Sequences.rb_AlreadyIncluded res then
          let* r := stmt (recoverTx id) in Done (Some OutcomeIncluded, to_err r)
        else if Sequences.rb_Accepted res then
          let* r := stmt (recoverTx id) in Done (Some OutcomeMempoolAccepted, to_err r)
        else Done (Some OutcomeCheckTxRejected, Some ErrOther)
    end) as Ht by exact (Ht s').
  unfold recoverTx. tame_steps.
Qed.

(** *** The sequence manager's reconciliation *)

Lemma resolve_absent_forward st hasSigned : forward st (Sequences.resolve_absent st hasSigned).
Proof. unfold forward. by destruct st, hasSigned. Qed.

Lemma resolve_results r c : results (forward (r_Status r)) (Sequences.resolve r c).
Proof.
  unfold Sequences.resolve. intros [[h hasSigned]|e]; cbn; [|done].
  destruct (empty h); [apply resolve_absent_forward|]. cbn. intros info.
  destruct (Sequences.included info); [done|]. destruct (Sequences.lookup_failed info); [done|].
  apply resolve_absent_forward.
Qed.

Lemma workFacts_moves ref : preserves moves (Sequences.workFacts ref).
Proof. unfold Sequences.workFacts, Sweeps_Get. move_steps. Qed.

Lemma resolve_tame r c : tame (Sequences.resolve r c).
Proof. unfold Sequences.resolve. tame_steps. apply tame_stmt, workFacts_moves. Qed.

Lemma reconcile_loop_tame l report : tame (Sequences.reconcile_loop l report).
Proof.
  revert report. induction l as [|r l IH]; intros report s; [done|]. cbn [Sequences.reconcile_loop].
  apply (ok_bind_results (forward (r_Status r))); [apply resolve_tame|apply resolve_results|].
  intros to s1 Hto _. case_bool_decide; [apply IH|].
  apply safe_bind; [apply _|by apply tame_stmt, Sequences_UpdateStatus_moves|].
  intros [[]|e] s2 _; [apply IH|]. destruct e; try done. apply IH.
Qed.

Lemma ReconcileAccount_tame chainID source : tame (Sequences.ReconcileAccount chainID source).
Proof.
  unfold Sequences.ReconcileAccount. tame_steps; [|apply reconcile_loop_tame].
  apply tame_stmt. unfold Sequences_ListUnconsumed. move_steps. apply select_where_moves'.
Qed.

(** *** The operator's resolutions *)

Lemma disposeReservation_moves id to s a s' :
  (forall r, List.find (fun r => bool_decide (r_WorkRef r = MkWorkRef WorkWithdrawal id)) (st_sequences s)
     = Some r -> forward (r_Status r) to) ->
  disposeReservation id to s = (Ok a, s') -> moves s s'.
Proof.
  intros Hf H. unfold disposeReservation, tx_bind, tx_try in H. rewrite GetByWorkRef_result in H.
  destruct (List.find _ _) as [r|]; [|by injection H as _ <-].
  case_bool_decide; [by injection H as _ <-|].
  pose proof (Sequences_UpdateStatus_moves (r_ID r) (r_Status r) to (Hf r eq_refl) s) as Hm.
  by rewrite H in Hm.
Qed.

Lemma resolveWithdrawalReview_moves id o s a s' :
  resolveWithdrawalReview id o s = (Ok a, s') -> moves s s'.
Proof.
  unfold resolveWithdrawalReview. intros H. inv_tx1 H. apply Withdrawals_Get_ok in Hm as (-> & _ & _).
  apply tx_require_ok in H as [_ H]. unfold tx_try, tx_bind at 1 in H. rewrite GetByWorkRef_result in H.
  set (res := List.find _ (st_sequences s)) in *.
  assert (exists t, withdrawal_targets o (pre_sign a0 res) = Ok t /\
    (do_ Withdrawals_UpdateStatus id WithdrawalReviewRequired (fst t) no_withdrawal_update;
     match res with None => tx_ret tt | Some _ => disposeReservation id (snd t) end) s = (Ok a, s'))
    as ([target seqTo] & Ht & H2).
  { destruct res; rewrite tx_ret_bind in H; apply tx_of_ok in H as (t & Ht & H); exists t; split; done. }
  clear H. apply withdrawal_targets_ok in Ht as [Hterm Hrel]. cbn [fst snd] in *. inv_tx1 H2. destruct a1.
  etransitivity; [eapply calm_update_moves; [|exact Hm]; calm|].
  apply Withdrawals_UpdateStatus_ok in Hm as (_ & _ & _ & _ & _ & E).
  assert (st_sequences s0 = st_sequences s) as Eseq by (rewrite E; apply sequences_set_withdrawals).
  destruct res as [r|] eqn:Hres; [|by injection H2 as _ <-].
  eapply disposeReservation_moves; [|exact H2]. rewrite Eseq. fold res. rewrite Hres. intros r' [= <-] Hsp.
  destruct (decide (seqTo = SequenceReleased)) as [E1|E1].
  - apply Hrel in E1. unfold pre_sign in E1. apply andb_true_iff in E1 as [_ E1].
    apply orb_true_iff in E1 as [E1|E1]; apply bool_decide_eq_true in E1; by rewrite E1 in Hsp.
  - by destruct o; simpl in Hterm; simplify_eq.
Qed.

Lemma resolveTx_moves item id o note now s a s' : resolveTx item id o note now s = (Ok a, s') -> moves s s'.
Proof.
  unfold resolveTx. intros H. inv_tx1 H. etransitivity.
  - destruct (ri_Kind item).
    + assert (preserves moves (resolveDepositReview (ri_RefID item) o)) as Hp
        by (unfold resolveDepositReview; move_steps).
      specialize (Hp s). by rewrite Hm in Hp.
    + by eapply resolveWithdrawalReview_moves.
    + injection Hm as _ <-. reflexivity.
  - pose proof (Review_Resolve_moves id (outcome_string o ++ ": " ++ note)%string now s0) as Hp.
    by rewrite H in Hp.
Qed.

Lemma resolveReviewItem_tame id o note now : tame (resolveReviewItem id o note now).
Proof.
  unfold resolveReviewItem, Review_Get. tame_steps. apply tame_stmt_ok. intros s u s'. apply resolveTx_moves.
Qed.
End handlers.

Definition forget {A} (p : handler A) : handler unit := let* _ := p in Done tt.
End withdrawal_system.

End WithdrawalSystem.
