(* ===== verification/Sweeps.v ===== *)
(** * Sweeps: the sweep engine

    [go/sweeps/engine.go], [plan.go], [steps.go] and [broadcast.go] over the
    types of [sweeps.go].  A method of [Engine] is a handler with every guard,
    transaction and outside call of the code in order.  Decimal arithmetic and
    base-unit parsing are those of [Fees] and [Withdrawals], whose Go text
    [sweeps.go] repeats.  A defer reason is a string, empty for none, as in the
    code; an unset [sdkmath.Int] is [None].  Cancellation of the context,
    logging and metrics are left out: a worker may stop at any point. *)

From stdpp Require Import base list strings gmap.
From Stdlib Require Import ZArith Lia String Strings.Byte.
From S2P Require Import Prelude Workers Text Storage Database SqlStore SqlLaws Hash Chain.
From S2P Require Import Address Tx Fees Sequences Withdrawals.
Import SqlStore.
Import (notations) Tx.

Open Scope string_scope.
Open Scope list_scope.
Open Scope Z_scope.

Module Sweeps.

Inductive SimulatePolicy : Type := SimulateQueue | SimulateStatic.

Record Config : Type := MkConfig {
  cfg_ChainID : string;
  cfg_Strategy : SweepStrategy;
  cfg_HotWallet : string;
  cfg_MinimumSweepAmountUsovr : string;
  cfg_MaximumFeePercentageForSweep : string;
  cfg_FeeReserveUsovr : string;
  cfg_FeeWalletMaxSpendUsovr : string;
  cfg_FeeWalletSpendWindowBlocks : Z;
  cfg_GasAdjustment : string;
  cfg_GasPriceUsovr : string;
  cfg_SimulateUnavailable : option SimulatePolicy;   (* None: neither constant *)
  cfg_StaticGasLimit : Z;
  cfg_BroadcastTimeout : Z;
  cfg_Confirmations : Z;
  cfg_KeyRefForSource : option (string -> string) }.

(** [gasAdj] and [gasPrice] are the zero value under CUSTODY_ABSTRACTED, whose
    [num] is nil: zero over one here. *)
Record parsedConfig : Type := MkParsed {
  p_minSweep : Z; p_maxFeePct : Fees.decimal; p_feeReserve : Z; p_feeWalletMaxSpend : Z;
  p_gasAdj : Fees.decimal; p_gasPrice : Fees.decimal }.

Record Engine : Type := MkEngine {
  en_cfg : Config; en_pcfg : parsedConfig;
  en_signer : bool   (* a signer is configured *) }.

Definition fundingIdemPrefix : string := "FEEFUND:".

Definition IdempotencyKey (chainID source : string) (balance height : Z) : string :=
  ("SWEEP:" ++ chainID ++ ":" ++ source ++ ":" ++ Tx.int_String balance ++ ":" ++ Tx.FormatUint height)%string.

Definition FundingIdempotencyKey (chainID feeWallet parentSweepID : string) : string :=
  (fundingIdemPrefix ++ chainID ++ ":" ++ feeWallet ++ ":" ++ parentSweepID)%string.

Definition IsFundingJob (j : SweepJob) : bool := String.prefix fundingIdemPrefix (j_IdempotencyKey j).

(** The first eight bytes of the hash, in upper-case hex. *)
Definition sweepIDFor (idempotencyKey : string) : string :=
  ("SWP-" ++ Hash.HexUpper (take 8 (Hash.Sum256 (list_byte_of_string idempotencyKey))))%string.

Definition fundingSweepID (parentSweepID : string) : string := ("FUND-" ++ parentSweepID)%string.

(** fee <= amount * pct / 100. *)
Definition feeWithinPercentage (fee amount : Z) (pct : Fees.decimal) : bool :=
  fee * 100 * Fees.dec_den pct <=? amount * Fees.dec_num pct.

Definition sweep_ref (id : string) : WorkRef := MkWorkRef WorkSweep id.

(** ** Configuration *)

Section config.
Context `{X : Ext}.

Definition zero_decimal : Fees.decimal := Fees.MkDecimal 0 1.

(** The optional fee-wallet cap. *)
Definition parse_cap (c : Config) : result err Z :=
  if empty (cfg_FeeWalletMaxSpendUsovr c) || bool_decide (cfg_FeeWalletMaxSpendUsovr c = "0") then Ok 0
  else
    try cap := Withdrawals.parseBaseUnits (cfg_FeeWalletMaxSpendUsovr c) in
    if cfg_FeeWalletSpendWindowBlocks c =? 0 then Err ErrOther else Ok cap.

Definition parse (c : Config) : result err parsedConfig :=
  if empty (cfg_ChainID c) then Err ErrOther
  else if negb (Valid (cfg_Strategy c)) then Err ErrOther
  else if negb (bool_decide (cfg_Strategy c = StrategyCustodyAbstract)) && empty (cfg_HotWallet c)
  then Err ErrOther
  else
    try minSweep := Withdrawals.parseBaseUnits (cfg_MinimumSweepAmountUsovr c) in
    try pct := Fees.parseDecimal (cfg_MaximumFeePercentageForSweep c) in
    try reserve := Withdrawals.parseBaseUnits (cfg_FeeReserveUsovr c) in
    try cap := parse_cap c in
    if bool_decide (cfg_Strategy c = StrategyCustodyAbstract)
    then Ok (MkParsed minSweep pct reserve cap zero_decimal zero_decimal)
    else
      try adj := Fees.parseDecimal (cfg_GasAdjustment c) in
      if Fees.isZero adj then Err ErrOther
      else
        try price := Fees.parseDecimal (cfg_GasPriceUsovr c) in
        match cfg_SimulateUnavailable c with
        | None => Err ErrOther
        | Some pol =>
            if match pol with SimulateStatic => cfg_StaticGasLimit c =? 0 | SimulateQueue => false end
            then Err ErrOther
            else if cfg_Confirmations c =? 0 then Err ErrOther
            else Ok (MkParsed minSweep pct reserve cap adj price)
        end.

Definition with_timeout (c : Config) : Config :=
  MkConfig (cfg_ChainID c) (cfg_Strategy c) (cfg_HotWallet c) (cfg_MinimumSweepAmountUsovr c)
    (cfg_MaximumFeePercentageForSweep c) (cfg_FeeReserveUsovr c) (cfg_FeeWalletMaxSpendUsovr c)
    (cfg_FeeWalletSpendWindowBlocks c) (cfg_GasAdjustment c) (cfg_GasPriceUsovr c)
    (cfg_SimulateUnavailable c) (cfg_StaticGasLimit c)
    (if cfg_BroadcastTimeout c <=? 0 then 15 * 10 ^ 9 else cfg_BroadcastTimeout c)
    (cfg_Confirmations c) (cfg_KeyRefForSource c).

Definition New (signer : bool) (c : Config) : result err Engine :=
  try p := parse c in Ok (MkEngine (with_timeout c) p signer).
End config.

(** ** The engine's transactions *)

Definition releaseUnsignedReservation (sweepID : string) : db unit :=
  do r <- tx_try (Sequences_GetByWorkRef (sweep_ref sweepID));
  match r with
  | Err ErrNotFound => tx_ret tt
  | Err e => tx_fail e
  | Ok res =>
      if negb (bool_decide (r_Status res = SequenceReserved)) then tx_ret tt
      else Withdrawals.ignore_conflict
             (Sequences_UpdateStatus (r_ID res) SequenceReserved SequenceReleased)
  end.

Definition quarantineReservation (sweepID : string) (from : SequenceReservationStatus) : db unit :=
  do res <- Sequences_GetByWorkRef (sweep_ref sweepID);
  if bool_decide (r_Status res = SequenceReconciliationRequired) ||
     bool_decide (r_Status res = SequenceConsumed) then tx_ret tt
  else Withdrawals.ignore_conflict
         (Sequences_UpdateStatus (r_ID res) from SequenceReconciliationRequired).

Definition advanceReservation (sweepID : string) (from to : SequenceReservationStatus) : db unit :=
  do res <- Sequences_GetByWorkRef (sweep_ref sweepID);
  if bool_decide (r_Status res = to) then tx_ret tt
  else Withdrawals.ignore_conflict (Sequences_UpdateStatus (r_ID res) from to).

Definition consumeReservation (sweepID : string) : db unit :=
  do res <- Sequences_GetByWorkRef (sweep_ref sweepID);
  match r_Status res with
  | SequenceConsumed => tx_ret tt
  | SequenceSigned | SequenceBroadcast | SequenceReconciliationRequired =>
      Withdrawals.ignore_conflict (Sequences_UpdateStatus (r_ID res) (r_Status res) SequenceConsumed)
  | _ => tx_fail ErrStatusConflict
  end.

Definition swept_update (txHash : string) : DepositUpdate := MkDepositUpdate None (Some txHash) None.

Definition markDepositsSwept (j : SweepJob) (txHash : string) : db unit :=
  tx_for (j_DepositIDs j) (fun id =>
    do r <- tx_try (Deposits_GetByID id);
    match r with
    | Err ErrNotFound => tx_ret tt
    | Err e => tx_fail e
    | Ok d =>
        if negb (bool_decide (d_Status d = DepositSweepPending)) then tx_ret tt
        else Withdrawals.ignore_conflict
               (Deposits_UpdateStatus id DepositSweepPending DepositSwept (swept_update txHash))
    end).

(** [time.Now()] inside a transaction is the database's clock. *)
Definition recordFeeFundingSpend (j : SweepJob) (height : Z) : db unit :=
  match j_TxHash j with
  | Some h =>
      if negb (IsFundingJob j) then tx_ret tt
      else
        do now <- tx_get st_now;
        do r <- tx_try (Ledger_AppendFeeFundingSpend
                  (MkFeeFundingSpend 0 (j_ChainID j) h (j_SourceAddress j) (j_AmountBaseUnits j) height now));
        match r with
        | Ok _ => tx_ret tt
        | Err ErrDuplicate => tx_ret tt
        | Err e => tx_fail e
        end
  | None => tx_ret tt
  end.

Definition deferTx (sweepID : string) : db unit :=
  do_ Sweeps_UpdateStatus sweepID SweepPending SweepDeferred no_sweep_update;
  releaseUnsignedReservation sweepID.

Definition terminateTx (sweepID : string) (from : SweepStatus) : db unit :=
  do_ Sweeps_UpdateStatus sweepID from SweepCancelled no_sweep_update;
  releaseUnsignedReservation sweepID.

Definition signed_update (signed : bytes) (txHash : string) : SweepUpdate :=
  MkSweepUpdate signed (Some txHash) None None.

Definition signTx (sweepID : string) (reservationID : Z) (signed : bytes) (txHash : string) : db unit :=
  do_ Sweeps_UpdateStatus sweepID SweepBuilt SweepSigned (signed_update signed txHash);
  Sequences_UpdateStatus reservationID SequenceReserved SequenceSigned.

Definition code_update (code : Z) : SweepUpdate := MkSweepUpdate [] None (Some code) None.

Definition rejectTx (sweepID : string) (code : Z) : db unit :=
  do_ Sweeps_UpdateStatus sweepID SweepSigned SweepBroadcast (code_update code);
  do_ Sweeps_UpdateStatus sweepID SweepBroadcast SweepFailed no_sweep_update;
  quarantineReservation sweepID SequenceSigned.

Definition acceptTx (sweepID : string) : db unit :=
  do_ Sweeps_UpdateStatus sweepID SweepSigned SweepBroadcast no_sweep_update;
  advanceReservation sweepID SequenceSigned SequenceBroadcast.

Definition failTx (sweepID : string) (code : Z) : db unit :=
  do_ Sweeps_UpdateStatus sweepID SweepBroadcast SweepFailed (code_update code);
  consumeReservation sweepID.

Definition confirmTx (j : SweepJob) (sweepID txHash : string) (code height : Z) : db unit :=
  do_ Sweeps_UpdateStatus sweepID SweepBroadcast SweepConfirmed (code_update code);
  do_ consumeReservation sweepID;
  do_ markDepositsSwept j txHash;
  recordFeeFundingSpend j height.

(** The new job and its covered deposits. *)
Definition createTx (j : SweepJob) : db unit :=
  do_ Sweeps_Create j;
  tx_for (j_DepositIDs j) (fun id =>
    do d <- Deposits_GetByID id;
    if negb (bool_decide (d_Status d = DepositCredited)) then tx_ret tt
    else Deposits_UpdateStatus id DepositCredited DepositSweepPending no_deposit_update).

(** [CUSTODY_ABSTRACTED]: both status moves of every deposit, counted. *)
Definition custodyTx (creditedIDs sweepPendingIDs : list Z) : db Z :=
  do_ tx_for creditedIDs (fun id =>
        do_ Deposits_UpdateStatus id DepositCredited DepositSweepPending no_deposit_update;
        Deposits_UpdateStatus id DepositSweepPending DepositSwept no_deposit_update);
  do_ tx_for sweepPendingIDs (fun id =>
        Withdrawals.ignore_conflict
          (Deposits_UpdateStatus id DepositSweepPending DepositSwept no_deposit_update));
  tx_ret (Z.of_nat (List.length creditedIDs + List.length sweepPendingIDs)).

(** ** The engine *)

Record PlanReport : Type := MkPlanReport {
  pr_JobsCreated : list string; pr_JobsDeferred : list string;
  pr_CustodySwept : Z; pr_Held : gmap string string }.

Section engine.
Context `{X : Ext} (e : Engine).
Notation cfg := (en_cfg e).
Notation pcfg := (en_pcfg e).

Definition destination (j : SweepJob) : string := j_HotWalletAddress j.

Definition reserveFor (j : SweepJob) : Z :=
  if negb (IsFundingJob j) && bool_decide (j_Strategy j = StrategyFeeReserve) then p_feeReserve pcfg else 0.

Definition keyRef (source : string) : string :=
  match cfg_KeyRefForSource cfg with Some f => f source | None => source end.

Definition senderPubKey (source : string) : handler (result err bytes) :=
  if negb (en_signer e) then Done (Err ErrNoSigner)
  else
    let* res := ask (CGetPublicKey (keyRef source)) in
    match res with
    | Ok k => Done (Ok k)
    | Err ErrSignerDown => Done (Err ErrSignerUnavailable)
    | Err er => Done (Err er)
    end.

Definition controls : handler (result err OperationalControls) := stmt (Controls_Get (cfg_ChainID cfg)).

Definition provisionalGas : Z :=
  if cfg_StaticGasLimit cfg =? 0 then 200000 else cfg_StaticGasLimit cfg.

(** The TxRaw with an empty signature. *)
Definition simulation_bytes (u : Tx.UnsignedTx) (acct seq : Z) (pubKey : bytes) : result err bytes :=
  match Tx.SignDoc u (cfg_ChainID cfg) acct seq (Tx.MkFee "0" provisionalGas) pubKey with
  | Err _ => Err ErrOther
  | Ok (signDocBytes, _, _) =>
      match unmarshalSignDoc signDocBytes with
      | None => Err ErrOther
      | Some doc => marshalTxRaw (sd_BodyBytes doc) (sd_AuthInfoBytes doc) [[]]
      end
  end.

Definition simulationTxBytes (source dest : string) (amount acct seq : Z) : handler (result err bytes) :=
  match Tx.BuildMsgSend source dest (Tx.int_String amount) "" with
  | Err _ => Done (Err ErrOther)
  | Ok u =>
      let? pubKey := senderPubKey source in
      Done (simulation_bytes u acct seq pubKey)
  end.

(** Fee and gas limit. *)
Definition estimateFee (source dest : string) (amount acct seq : Z) : handler (result err (Z * Z)) :=
  let? simBytes := simulationTxBytes source dest amount acct seq in
  let* res := ask (CSimulate simBytes) in
  let fee gasLimit := Done (Ok (Fees.ceilMulBig (p_gasPrice pcfg) gasLimit, gasLimit)) in
  match res with
  | Ok r =>
      if sr_GasUsed r =? 0 then Done (Err ErrOther)
      else match Fees.ceilMulU64 (p_gasAdj pcfg) (sr_GasUsed r) with
           | Err _ => Done (Err ErrOther)
           | Ok gasLimit => fee gasLimit
           end
  | Err ErrSimulateUnavailable =>
      match cfg_SimulateUnavailable cfg with
      | Some SimulateQueue => Done (Err ErrSimulationUnavailable)
      | _ => fee (cfg_StaticGasLimit cfg)
      end
  | Err er => Done (Err er)
  end.

(** Always an error: [ErrDeferred], or that of the transaction. *)
Definition deferJob (sweepID : string) : handler (result err unit) :=
  let? _ := atomically (deferTx sweepID) in Done (Err ErrDeferred).

Definition terminateJob (j : SweepJob) : handler (result err unit) :=
  atomically (terminateTx (j_SweepID j) (j_Status j)).

(** Always an error. *)
Definition cancelJob (j : SweepJob) : handler (result err unit) :=
  let? _ := terminateJob j in Done (Err ErrOther).

Definition deferOrCancel (j : SweepJob) : handler (result err unit) :=
  if bool_decide (j_Status j = SweepBuilt) then cancelJob j else deferJob (j_SweepID j).

(** *** Planning *)

(** The amount, and why it cannot be swept now. *)
Definition planAmount (balance feeEstimate : Z) : option Z * string :=
  let rest (amount : Z) :=
    if amount <=? 0 then (Some balance, "balance cannot cover fee estimate and reserve")
    else if amount <? p_minSweep pcfg
    then (Some balance, "swept amount would fall below minimum_sweep_amount_usovr")
    else if negb (feeWithinPercentage feeEstimate amount (p_maxFeePct pcfg))
    then (Some amount, "fee exceeds maximum_fee_percentage_for_sweep")
    else (Some amount, "") in
  match cfg_Strategy cfg with
  | StrategyFeeFund => rest balance
  | StrategyFeeReserve => rest (balance - feeEstimate - p_feeReserve pcfg)
  | StrategyThresholdOnly => rest (balance - feeEstimate)
  | StrategyCustodyAbstract =>
      (None, ("strategy " ++ enum_string (cfg_Strategy cfg) ++ " plans no transaction")%string)
  end.

Definition planFeeMaxRounds : nat := 8.

(** The remaining rounds of the search. *)
Fixpoint plan_rounds (n : nat) (source dest : string) (balance acct seq : Z) (amount : option Z) (fee : Z)
    (deferReason : string) : handler (result err (option Z * Z * string)) :=
  match n with
  | O => Done (Ok (amount, fee, if empty deferReason then "fee estimate did not converge" else deferReason))
  | S n' =>
      if negb (empty deferReason) || bool_decide (amount = Some balance)
      then Done (Ok (amount, fee, deferReason))
      else
        let? '(refee, _) := estimateFee source dest (default 0 amount) acct seq in
        if refee =? fee then Done (Ok (amount, fee, ""))
        else
          let '(amount', reason') := planAmount balance refee in
          plan_rounds n' source dest balance acct seq amount' refee reason'
  end.

Definition planFeeAmount (source dest : string) (balance acct seq : Z)
    : handler (result err (option Z * Z * string)) :=
  let? '(fee, _) := estimateFee source dest balance acct seq in
  let '(amount, reason) := planAmount balance fee in
  plan_rounds planFeeMaxRounds source dest balance acct seq amount fee reason.

Definition new_job (sweepID idem source : string) (amount : Z) (coveredIDs : list Z) (now : Z) : SweepJob :=
  MkSweep sweepID idem (cfg_ChainID cfg) source (cfg_HotWallet cfg) (cfg_Strategy cfg) amount
    (p_feeReserve pcfg) coveredIDs [] None None SweepPending now now.

Definition createJob (source : string) (balance height : Z) (coveredIDs : list Z)
    : handler (result err (string * bool)) :=
  let? '(acct, seq) := ask (CAccount source) in
  let? '(planned, _, deferReason) := planFeeAmount source (cfg_HotWallet cfg) balance acct seq in
  let amount := match planned with
                | Some a => if a <=? 0 then balance else a
                | None => balance
                end in
  let idem := IdempotencyKey (cfg_ChainID cfg) source balance height in
  let sweepID := sweepIDFor idem in
  let* now := ask CNow in
  let? _ := atomically (createTx (new_job sweepID idem source amount coveredIDs now)) in
  if negb (empty deferReason) then
    let* d := deferJob sweepID in
    match d with
    | Err er => if bool_decide (er = ErrDeferred) then Done (Ok (sweepID, true)) else Done (Err er)
    | Ok _ => Done (Ok (sweepID, true))
    end
  else Done (Ok (sweepID, false)).

Definition depositListLimit : Z := 500.

(** The ids of the listed deposits to one recipient. *)
Definition depositIDsByRecipient (recs : list DepositRecord) (recipient : string) : list Z :=
  map d_ID (List.filter (fun d => bool_decide (d_RecipientAddress d = recipient)) recs).

Definition sweepable (w : WatchedAddress) : bool :=
  (bool_decide (wa_Kind w = WatchCustomerDeposit) || bool_decide (wa_Kind w = WatchOmnibus)) &&
  negb (bool_decide (wa_Address w = cfg_HotWallet cfg)).

Definition sweepableSources : handler (result err (list string)) :=
  let? watched := stmt (Watch_ListActive (cfg_ChainID cfg)) in
  Done (Ok (map wa_Address (List.filter sweepable watched))).

Definition depositBacklog : handler (result err (list DepositRecord * list DepositRecord)) :=
  let? credited := stmt (Deposits_ListByStatus (cfg_ChainID cfg) DepositCredited depositListLimit) in
  let? pending := stmt (Deposits_ListByStatus (cfg_ChainID cfg) DepositSweepPending depositListLimit) in
  Done (Ok (credited, pending)).

Definition custodySettle (creditedIDs sweepPendingIDs : list Z) : handler (result err Z) :=
  match creditedIDs, sweepPendingIDs with
  | [], [] => Done (Ok 0)
  | _, _ => atomically (custodyTx creditedIDs sweepPendingIDs)
  end.

Definition hold (source reason : string) (r : PlanReport) : PlanReport :=
  MkPlanReport (pr_JobsCreated r) (pr_JobsDeferred r) (pr_CustodySwept r) (<[source := reason]> (pr_Held r)).
Definition swept (n : Z) (r : PlanReport) : PlanReport :=
  MkPlanReport (pr_JobsCreated r) (pr_JobsDeferred r) (pr_CustodySwept r + n) (pr_Held r).
Definition planned (id : string) (deferred : bool) (r : PlanReport) : PlanReport :=
  if deferred
  then MkPlanReport (pr_JobsCreated r) (pr_JobsDeferred r ++ [id]) (pr_CustodySwept r) (pr_Held r)
  else MkPlanReport (pr_JobsCreated r ++ [id]) (pr_JobsDeferred r) (pr_CustodySwept r) (pr_Held r).

(** One source: the updated report, or the error that ends the pass. *)
Definition plan_source (credited pending : list DepositRecord) (height : Z) (report : PlanReport)
    (source : string) : handler (result err PlanReport) :=
  let creditedIDs := depositIDsByRecipient credited source in
  let pendingIDs := depositIDsByRecipient pending source in
  if bool_decide (cfg_Strategy cfg = StrategyCustodyAbstract) then
    let? n := custodySettle creditedIDs pendingIDs in Done (Ok (swept n report))
  else
    let* active := stmt (Sweeps_GetActive (cfg_ChainID cfg) source) in
    match active with
    | Ok _ => Done (Ok (hold source "active sweep exists" report))
    | Err ErrNotFound =>
        let? balance := ask (CBalance source BaseDenom) in
        if balance <? p_minSweep pcfg
        then Done (Ok (hold source "balance below minimum_sweep_amount_usovr" report))
        else
          let* created := createJob source balance height (creditedIDs ++ pendingIDs) in
          match created with
          | Err ErrActiveSweepExists | Err ErrDuplicate =>
              Done (Ok (hold source "duplicate or concurrent sweep creation" report))
          | Err ErrSimulationUnavailable => Done (Ok (hold source "simulation unavailable" report))
          | Err er => Done (Err er)
          | Ok (sweepID, deferred) => Done (Ok (planned sweepID deferred report))
          end
    | Err er => Done (Err er)
    end.

Fixpoint plan_loop (credited pending : list DepositRecord) (height : Z) (sources : list string)
    (report : PlanReport) : handler (PlanReport * option err) :=
  match sources with
  | [] => Done (report, None)
  | source :: sources' =>
      let* r := plan_source credited pending height report source in
      match r with
      | Err er => Done (report, Some er)
      | Ok report' => plan_loop credited pending height sources' report'
      end
  end.

Definition empty_plan : PlanReport := MkPlanReport [] [] 0 ∅.

(** The reads before the loop. *)
Definition plan_inputs
    : handler (result err (list string * (list DepositRecord * list DepositRecord) * Z)) :=
  let? c := controls in
  if oc_SweepPaused c then Done (Err ErrPaused)
  else
    let? sources := sweepableSources in
    let? backlog := depositBacklog in
    if bool_decide (cfg_Strategy cfg = StrategyCustodyAbstract) then Done (Ok (sources, backlog, 0))
    else
      let? status := ask CNodeStatus in
      Done (Ok (sources, backlog, asU64 (ns_LatestHeight status))).

Definition Plan : handler (PlanReport * option err) :=
  let* inputs := plan_inputs in
  match inputs with
  | Err er => Done (empty_plan, Some er)
  | Ok (sources, (credited, pending), height) => plan_loop credited pending height sources empty_plan
  end.

(** *** Preparation *)

Definition feeWallet : handler (result err string) :=
  let? watched := stmt (Watch_ListActive (cfg_ChainID cfg)) in
  match List.find (fun w => bool_decide (wa_Kind w = WatchFeeWallet)) watched with
  | Some w => Done (Ok (wa_Address w))
  | None => Done (Err ErrNoFeeWallet)
  end.

(** The first height of the spend window that ends at [height]. *)
Definition window_start (height : Z) : Z :=
  let w := cfg_FeeWalletSpendWindowBlocks cfg in
  if w <=? height then Sequences.wrap64 (height - w + 1) else 0.

(** What a live sweep of the fee wallet counts for. *)
Definition inflight_amount (active : result err SweepJob) : result err Z :=
  match active with
  | Ok j => Ok (if IsFundingJob j then j_AmountBaseUnits j else 0)
  | Err ErrNotFound => Ok 0
  | Err er => Err er
  end.

Definition feeFundingCapExceeded (fee : Z) : handler (result err (bool * Z)) :=
  let maxSpend := p_feeWalletMaxSpend pcfg in
  if maxSpend <=? 0 then Done (Ok (false, 0))
  else
    let? wallet := feeWallet in
    let? status := ask CNodeStatus in
    let height := asU64 (ns_LatestHeight status) in
    let* active := stmt (Sweeps_GetActive (cfg_ChainID cfg) wallet) in
    match inflight_amount active with
    | Err er => Done (Err er)
    | Ok inflight =>
        let? recorded := stmt (Ledger_SumFeeFundingSpend (cfg_ChainID cfg) wallet (window_start height) height) in
        let spent := inflight + recorded in
        Done (Ok (maxSpend <? spent + fee, spent))
    end.

Definition funding_job (parent : SweepJob) (fundingID feeWallet : string) (fee now : Z) : SweepJob :=
  MkSweep fundingID (FundingIdempotencyKey (j_ChainID parent) feeWallet (j_SweepID parent))
    (j_ChainID parent) feeWallet (j_SourceAddress parent) StrategyFeeFund fee 0 [] [] None None
    SweepPending now now.

(** Always an error. *)
Definition createFundingJob (parent : SweepJob) (fundingID : string) (fee : Z) : handler (result err unit) :=
  let? wallet := feeWallet in
  let* now := ask CNow in
  let* r := stmt (Sweeps_Create (funding_job parent fundingID wallet fee now)) in
  match r with
  | Ok _ | Err ErrActiveSweepExists | Err ErrDuplicate => Done (Err ErrFundingPending)
  | Err er => Done (Err er)
  end.

(** [Ok] when the sweep may go on. *)
Definition checkFunding (j : SweepJob) (balance fee : Z) : handler (result err unit) :=
  if negb (bool_decide (j_Strategy j = StrategyFeeFund)) || IsFundingJob j then Done (Ok tt)
  else if j_AmountBaseUnits j + fee <=? balance then Done (Ok tt)
  else
    let fundingID := fundingSweepID (j_SweepID j) in
    let* fj := stmt (Sweeps_Get fundingID) in
    match fj with
    | Err ErrNotFound =>
        let? '(over, _) := feeFundingCapExceeded fee in
        if over : bool then deferOrCancel j else createFundingJob j fundingID fee
    | Err er => Done (Err er)
    | Ok fj =>
        match j_Status fj with
        | SweepConfirmed | SweepFailed | SweepCancelled => deferOrCancel j
        | _ => Done (Err ErrFundingPending)
        end
    end.

Definition economicsFailure (j : SweepJob) (fee : Z) : string :=
  if IsFundingJob j then ""
  else if j_AmountBaseUnits j <? p_minSweep pcfg then "amount below minimum_sweep_amount_usovr"
  else if negb (feeWithinPercentage fee (j_AmountBaseUnits j) (p_maxFeePct pcfg))
  then "fee exceeds maximum_fee_percentage_for_sweep"
  else "".

Definition coverageFailure (j : SweepJob) (balance fee : Z) : string :=
  if balance <? j_AmountBaseUnits j + fee + reserveFor j
  then ("balance " ++ Tx.int_String balance ++ " below amount " ++ Tx.int_String (j_AmountBaseUnits j) ++
        " + fee " ++ Tx.int_String fee ++ " + reserve " ++ Tx.int_String (reserveFor j))%string
  else "".

(** The compared fields with the document's and the job's value. *)
Definition summary_checks (j : SweepJob) (res : SequenceReservation) (fee : Z) (s : SigningSummary)
    : list (string * string * string) :=
  [("chain_id", ss_ChainID s, j_ChainID j);
   ("sender", ss_SenderAddress s, j_SourceAddress j);
   ("recipient", ss_RecipientAddress s, destination j);
   ("amount", ss_AmountBaseUnits s, Tx.int_String (j_AmountBaseUnits j));
   ("denom", ss_Denom s, BaseDenom);
   ("memo", ss_Memo s, "");
   ("fee", ss_FeeBaseUnits s, Tx.int_String fee);
   ("sequence", ss_Sequence s, Tx.FormatUint (r_Sequence res));
   ("account_number", ss_AccountNumber s, Tx.FormatUint (r_AccountNumber res));
   ("message_type", ss_MessageType s, MsgTypeBankSend)].

(** The first field that differs. *)
Definition summaryMismatch (j : SweepJob) (res : SequenceReservation) (fee : Z) (s : SigningSummary)
    : option string :=
  option_map (fun c => c.1.1)
    (List.find (fun c => negb (bool_decide (c.1.2 = c.2))) (summary_checks j res fee s)).

(** The reservation to RECONCILIATION_REQUIRED, whatever comes of it. *)
Definition quarantined (reservationID : Z) : handler (result err unit) :=
  let* _ := stmt (Sequences_UpdateStatus reservationID SequenceReserved SequenceReconciliationRequired) in
  Done (Err ErrQuarantined).

(** From the sign doc to the persisted transaction. *)
Definition signAndPersist (j : SweepJob) (res : SequenceReservation) (signDocBytes : bytes)
    (summary : SigningSummary) (u : Tx.UnsignedTx) : handler (result err unit) :=
  let* sigRes := ask (CSign (MkSigningRequest (keyRef (j_SourceAddress j)) SignModeDirect
                               signDocBytes summary)) in
  match sigRes with
  | Err ErrSignerDown => Done (Err ErrSignerUnavailable)
  | Err _ => quarantined (r_ID res)
  | Ok sigRes =>
      match Withdrawals.VerifySignedResponse signDocBytes sigRes (j_SourceAddress j) with
      | Some _ => quarantined (r_ID res)
      | None =>
          match Tx.Assemble u (Tx.MkSignature (sp_Signature sigRes) (sp_PubKeyCompressed sigRes)) with
          | Err _ => quarantined (r_ID res)
          | Ok (signedTxBytes, txHash) =>
              atomically (signTx (j_SweepID j) (r_ID res) signedTxBytes txHash)
          end
      end
  end.

Definition sign (j : SweepJob) (res : SequenceReservation) (c : OperationalControls) (fee gasLimit : Z)
    : handler (result err unit) :=
  if oc_SigningPaused c then Done (Err ErrPaused)
  else
    match Tx.BuildMsgSend (j_SourceAddress j) (destination j) (Tx.int_String (j_AmountBaseUnits j)) "" with
    | Err _ => cancelJob j
    | Ok unsigned =>
        let* pubKey := senderPubKey (j_SourceAddress j) in
        match pubKey with
        | Err ErrSignerUnavailable => Done (Err ErrSignerUnavailable)
        | Err _ => quarantined (r_ID res)
        | Ok pubKey =>
            match Tx.SignDoc unsigned (j_ChainID j) (r_AccountNumber res) (r_Sequence res)
                    (Tx.MkFee (Tx.int_String fee) gasLimit) pubKey with
            | Err _ => cancelJob j
            | Ok (signDocBytes, summary, u) =>
                match summaryMismatch j res fee summary with
                | Some _ => cancelJob j
                | None => signAndPersist j res signDocBytes summary u
                end
            end
        end
    end.

Definition built (j : SweepJob) : SweepJob :=
  MkSweep (j_SweepID j) (j_IdempotencyKey j) (j_ChainID j) (j_SourceAddress j) (j_HotWalletAddress j)
    (j_Strategy j) (j_AmountBaseUnits j) (j_FeeReserveBaseUnits j) (j_DepositIDs j) (j_SignedTxBytes j)
    (j_TxHash j) (j_TxCode j) SweepBuilt (j_CreatedAt j) (j_UpdatedAt j).

(** [Prepare] once the fee is known. *)
Definition prepareWithFee (j : SweepJob) (res : SequenceReservation) (c : OperationalControls)
    (balance fee gasLimit : Z) : handler (result err unit) :=
  if negb (empty (economicsFailure j fee)) then deferOrCancel j
  else
    let? _ := checkFunding j balance fee in
    if negb (empty (coverageFailure j balance fee)) then deferOrCancel j
    else if bool_decide (j_Status j = SweepPending) then
      let? _ := stmt (Sweeps_UpdateStatus (j_SweepID j) SweepPending SweepBuilt no_sweep_update) in
      sign (built j) res c fee gasLimit
    else sign j res c fee gasLimit.

Definition Prepare (sweepID : string) : handler (result err unit) :=
  let? j := stmt (Sweeps_Get sweepID) in
  if negb (bool_decide (j_Status j = SweepPending) || bool_decide (j_Status j = SweepBuilt))
  then Done (Err ErrStatusConflict)
  else
    let? c := controls in
    if oc_SweepPaused c then Done (Err ErrPaused)
    else if negb (en_signer e) then Done (Err ErrNoSigner)
    else
      let* reserved := Sequences.Reserve (j_ChainID j) (j_SourceAddress j) (sweep_ref (j_SweepID j)) in
      match reserved with
      | Err ErrReleasedSlotUnusable => cancelJob j
      | Err er => Done (Err er)
      | Ok res =>
          if negb (bool_decide (r_Status res = SequenceReserved)) then Done (Err ErrQuarantined)
          else
            let? balance := ask (CBalance (j_SourceAddress j) BaseDenom) in
            let? '(fee, gasLimit) := estimateFee (j_SourceAddress j) (destination j) (j_AmountBaseUnits j)
                                       (r_AccountNumber res) (r_Sequence res) in
            prepareWithFee j res c balance fee gasLimit
      end.

(** *** Deferred sweeps *)

Definition replanStaleAmount (j : SweepJob) (balance acct seq : Z) : handler (result err unit) :=
  if IsFundingJob j || negb (bool_decide (j_Strategy j = StrategyFeeReserve) ||
                             bool_decide (j_Strategy j = StrategyThresholdOnly))
  then Done (Ok tt)
  else
    let? '(freshAmount, _, freshReason) :=
      planFeeAmount (j_SourceAddress j) (destination j) balance acct seq in
    if negb (empty freshReason) || bool_decide (freshAmount = Some (j_AmountBaseUnits j)) then Done (Ok tt)
    else terminateJob j.

(** Whether the sweep is PENDING again. *)
Definition Revisit (sweepID : string) : handler (result err bool) :=
  let? j := stmt (Sweeps_Get sweepID) in
  if negb (bool_decide (j_Status j = SweepDeferred)) then Done (Err ErrStatusConflict)
  else
    let? c := controls in
    if oc_SweepPaused c then Done (Err ErrPaused)
    else
      let? balance := ask (CBalance (j_SourceAddress j) BaseDenom) in
      let? '(acct, seq) := ask (CAccount (j_SourceAddress j)) in
      let? '(fee, _) := estimateFee (j_SourceAddress j) (destination j) (j_AmountBaseUnits j) acct seq in
      if empty (economicsFailure j fee) && empty (coverageFailure j balance fee) then
        let? _ := stmt (Sweeps_UpdateStatus (j_SweepID j) SweepDeferred SweepPending no_sweep_update) in
        Done (Ok true)
      else
        let? _ := replanStaleAmount j balance acct seq in Done (Ok false).

(** *** The broadcaster *)

Definition resolveUnknownAfterBroadcast (j : SweepJob) (txHash : string) : handler (result err unit) :=
  let* info := ask (CTx txHash) in
  match info with
  | Ok (Some _) => atomically (acceptTx (j_SweepID j))
  | _ =>
      let? _ := atomically (quarantineReservation (j_SweepID j) SequenceSigned) in
      Done (Err ErrQuarantined)
  end.

Definition Broadcast (sweepID : string) : handler (result err unit) :=
  let? j := stmt (Sweeps_Get sweepID) in
  if negb (bool_decide (j_Status j = SweepSigned)) then Done (Err ErrStatusConflict)
  else
    match j_SignedTxBytes j, j_TxHash j with
    | [], _ | _, None => Done (Err ErrInvalidRecord)
    | signed, Some txHash =>
        let? c := controls in
        if oc_SweepPaused c then Done (Err ErrPaused)
        else if oc_BroadcastPaused c then Done (Err ErrPaused)
        else
          let* res := ask (CBroadcast signed BroadcastSync) in
          match res with
          | Err _ => resolveUnknownAfterBroadcast j txHash
          | Ok res => if negb (br_Accepted res) then atomically (rejectTx sweepID (br_Code res))
                      else atomically (acceptTx sweepID)
          end
    end.

(** [Confirm] once the transaction is in a block. *)
Definition confirmIncluded (j : SweepJob) (sweepID txHash : string) (info : TxInfo)
    : handler (result err unit) :=
  if negb (ti_Code info =? 0) then atomically (failTx sweepID (ti_Code info))
  else
    let? status := ask CNodeStatus in
    if Withdrawals.depth (ns_LatestHeight status) (ti_Height info) <? cfg_Confirmations cfg
    then Done (Ok tt)
    else atomically (confirmTx j sweepID txHash (ti_Code info) (asU64 (ti_Height info))).

Definition confirmMissing (j : SweepJob) (sweepID : string) : handler (result err unit) :=
  let* now := ask CNow in
  if now - j_UpdatedAt j <? cfg_BroadcastTimeout cfg then Done (Ok tt)
  else
    let? _ := atomically (quarantineReservation sweepID SequenceBroadcast) in
    Done (Err ErrQuarantined).

Definition Confirm (sweepID : string) : handler (result err unit) :=
  let? j := stmt (Sweeps_Get sweepID) in
  if negb (bool_decide (j_Status j = SweepBroadcast)) then Done (Err ErrStatusConflict)
  else
    match j_TxHash j with
    | None => Done (Err ErrInvalidRecord)
    | Some txHash =>
        let* looked := ask (CTx txHash) in
        match looked with
        | Err er => if bool_decide (er = ErrClientNotFound) then confirmMissing j sweepID
                    else Done (Err er)
        | Ok (Some info) => if ti_Height info =? 0 then confirmMissing j sweepID
                            else confirmIncluded j sweepID txHash info
        | Ok None => confirmMissing j sweepID
        end
    end.

Definition Recover (sweepID : string) : handler (result err unit) :=
  let? j := stmt (Sweeps_Get sweepID) in
  if negb (bool_decide (j_Status j = SweepSigned) || bool_decide (j_Status j = SweepBroadcast))
  then Done (Err ErrStatusConflict)
  else if bool_decide (j_SignedTxBytes j = []) then Done (Err ErrInvalidRecord)
  else
    let? res := Sequences.RebroadcastPersisted (j_SignedTxBytes j) in
    if negb (Sequences.rb_AlreadyIncluded res) && negb (Sequences.rb_Accepted res)
    then Done (Err ErrOther)
    else if bool_decide (j_Status j = SweepSigned)
    then stmt (Sweeps_UpdateStatus sweepID SweepSigned SweepBroadcast no_sweep_update)
    else Done (Ok tt).

(** *** One pass *)

Record PassReport : Type := MkPassReport { ps_Plan : PlanReport; ps_Errors : list err }.

Definition IsHold (er : err) : bool :=
  bool_decide (er ∈ [ErrPaused; ErrDeferred; ErrFundingPending; ErrSimulationUnavailable;
                     ErrSignerUnavailable; ErrQuarantined; ErrStatusConflict]).

Definition unless_hold {A} (r : result err A) : list err :=
  match r with Err er => if IsHold er then [] else [er] | Ok _ => [] end.

Definition revisitStep (id : string) : handler (result err unit) := let? _ := Revisit id in Done (Ok tt).

Definition pass_steps : list (SweepStatus * (string -> handler (result err unit))) :=
  [(SweepPending, Prepare); (SweepBuilt, Prepare); (SweepSigned, Broadcast);
   (SweepBroadcast, Confirm); (SweepDeferred, revisitStep)].

(** The step of every listed job, collecting the errors that are not holds. *)
Fixpoint step_jobs (step : string -> handler (result err unit)) (jobs : list SweepJob) (errs : list err)
    : handler (list err) :=
  match jobs with
  | [] => Done errs
  | j :: jobs' =>
      let* r := step (j_SweepID j) in
      step_jobs step jobs' (errs ++ unless_hold r)
  end.

Fixpoint pass_loop (steps : list (SweepStatus * (string -> handler (result err unit)))) (errs : list err)
    : handler (list err) :=
  match steps with
  | [] => Done errs
  | (status, step) :: steps' =>
      let* jobs := stmt (Sweeps_ListByStatus (cfg_ChainID cfg) status 50) in
      match jobs with
      | Err er => pass_loop steps' (errs ++ [er])
      | Ok jobs => let* errs' := step_jobs step jobs errs in pass_loop steps' errs'
      end
  end.

Definition Pass : handler PassReport :=
  let* planned := Plan in
  match planned with
  | (plan, Some er) => Done (MkPassReport plan (if IsHold er then [] else [er]))
  | (plan, None) => let* errs := pass_loop pass_steps [] in Done (MkPassReport plan errs)
  end.
End engine.

End Sweeps.
