(* ===== verification/SweepSystem.v ===== *)
(** * SweepSystem: what the sweep engine guarantees to the other workers

    The counterpart of [WithdrawalSystem] for [Sweeps].  A sweep has no
    sequence column, so the invariant [sweep_signing] speaks of an assignment
    [q] of sequences to signed sweeps: the signed bytes of a sweep are a
    transfer of exactly its record on its slot, the slot is spent, and no slot
    carries two signed sweeps or a signed sweep and a signed withdrawal.  The
    handlers of the withdrawal workflow, the sequence manager and the operator
    keep it because they leave the sweeps alone ([sweep_frame]); the handlers
    of the engine are proved safe here, with node and signer answering
    anything. *)

From stdpp Require Import base list strings relations.
From Stdlib Require Import ZArith Lia String.
From S2P Require Import Prelude Workers Text Storage Database SqlStore SqlLaws.
From S2P Require Import Hash Chain Tx Sequences Interference Withdrawals.
From S2P Require Import WithdrawalLaws ReviewResolution WithdrawalSystem Sweeps.
Import SqlStore SqlLaws Interference WithdrawalLaws ReviewResolution WithdrawalSystem Sweeps.

Open Scope string_scope.
Open Scope list_scope.
Open Scope Z_scope.

Module SweepSystem.

Section sweep_system.
Context `{X : Ext}.

(** ** Guarantee and invariant *)

(** The columns of a sweep no method updates. *)
Definition job_of (j : SweepJob) :=
  (j_SweepID j, j_IdempotencyKey j, j_ChainID j, j_SourceAddress j, j_HotWalletAddress j, j_Strategy j,
   j_AmountBaseUnits j).

Definition sweep_signed (j : SweepJob) : Prop := j_SignedTxBytes j <> [].

(** Statuses a sweep has only while unsigned. *)
Definition sweep_presign (st : SweepStatus) : bool :=
  match st with SweepPending | SweepBuilt | SweepDeferred | SweepCancelled => true | _ => false end.

Definition sweep_evolves (j j' : SweepJob) : Prop :=
  job_of j' = job_of j /\
  (sweep_signed j -> j_SignedTxBytes j' = j_SignedTxBytes j /\ j_TxHash j' = j_TxHash j).

Definition sweeps_evolve (s s' : Store) : Prop :=
  forall j, j ∈ st_sweeps s -> exists j', j' ∈ st_sweeps s' /\ sweep_evolves j j'.

(** The bytes sign over exactly the sweep's record at sequence [n]. *)
Definition sweeps_out (j : SweepJob) (n : Z) (bz : bytes) : Prop :=
  Tx.signed_transfer bz (j_ChainID j) (j_SourceAddress j) (j_HotWalletAddress j)
    (Tx.int_String (j_AmountBaseUnits j)) "" n.

Definition sweep_slot (q : string -> Z) (j : SweepJob) : option (string * string * Z) :=
  Some (j_ChainID j, j_SourceAddress j, q (j_SweepID j)).

Record sweep_signing (q : string -> Z) (s : Store) : Prop := SweepSigning {
  ss_presign : forall j, j ∈ st_sweeps s -> sweep_presign (j_Status j) = true -> j_SignedTxBytes j = [];
  ss_hash : forall j, j ∈ st_sweeps s -> sweep_signed j ->
    j_TxHash j = Some (Hash.TxHash (j_SignedTxBytes j));
  ss_transfer : forall j, j ∈ st_sweeps s -> sweep_signed j ->
    sweeps_out j (q (j_SweepID j)) (j_SignedTxBytes j);
  ss_slot : forall j, j ∈ st_sweeps s -> sweep_signed j ->
    exists r, r ∈ st_sequences s /\ spent r /\ slot_key r = sweep_slot q j;
  ss_once : forall j k, j ∈ st_sweeps s -> k ∈ st_sweeps s -> sweep_signed j -> sweep_signed k ->
    sweep_slot q j = sweep_slot q k -> j = k;
  (** no slot carries a signed withdrawal and a signed sweep *)
  ss_cross : forall x j, x ∈ st_withdrawals s -> j ∈ st_sweeps s -> signed x -> sweep_signed j ->
    slot_of x <> sweep_slot q j;
  (** a sweep's reservation is on the sweep's account *)
  ss_account : forall r id, r ∈ st_sequences s -> r_WorkRef r = sweep_ref id ->
    exists j, j ∈ st_sweeps s /\ j_SweepID j = id /\ j_ChainID j = r_ChainID r /\
      j_SourceAddress j = r_SourceAddress r }.

Definition sweeps_safe (s : Store) : Prop := exists q, sweep_signing q s.

(** Both workflows together. *)
Definition guarantee (s s' : Store) : Prop := evolves s s' /\ sweeps_evolve s s'.
Definition invariant (s : Store) : Prop := signing_ok s /\ sweeps_safe s.

Lemma empty_invariant t : invariant (empty_store t).
Proof.
  split; [apply empty_signing_ok|]. exists (fun _ => 0).
  split; simpl; intros; try by (exfalso; eapply not_elem_of_nil).
Qed.

#[export] Instance sweeps_evolve_preorder : PreOrder sweeps_evolve.
Proof.
  split; [intros s j Hj; by exists j|]. intros a b c H1 H2 j Hj.
  destruct (H1 j Hj) as (k & Hk & E1 & E2), (H2 k Hk) as (l & Hl & F1 & F2). exists l. split; [done|].
  unfold sweep_evolves, sweep_signed in *. split; [congruence|]. intros Hs. destruct (E2 Hs) as [Eb Eh].
  rewrite <-Eb in Hs. destruct (F2 Hs). split; congruence.
Qed.
#[export] Instance guarantee_preorder : PreOrder guarantee.
Proof.
  split; [intros s; split; reflexivity|]. intros a b c [] []. split; by etransitivity.
Qed.

Local Notation moves := (moves guarantee invariant).

Lemma job_unique s j k :
  schema_ok s -> j ∈ st_sweeps s -> k ∈ st_sweeps s -> j_SweepID j = j_SweepID k -> j = k.
Proof.
  intros Hs Hj Hk E. destruct (so_sweeps s Hs) as (Hu & _).
  apply list_elem_of_lookup_1 in Hj as [m Hm], Hk as [n Hn].
  assert (m = n) as -> by (eapply Hu; [exact Hm|exact Hn|reflexivity|unfold sweep_id_key; by rewrite E]).
  congruence.
Qed.

(** ** Transactions that leave the sweeps alone *)

(** The sweeps' reservations after a move that leaves the sweeps alone: no new
    one, unless it is on the sweep's account. *)
Lemma sweeps_stay q s s' :
  signing_ok s -> sweep_signing q s -> evolves s s' -> st_sweeps s' = st_sweeps s ->
  (forall r' id, r' ∈ st_sequences s' -> r_WorkRef r' = sweep_ref id ->
     (exists r, r ∈ st_sequences s /\ r_WorkRef r = sweep_ref id /\ slot_key r = slot_key r') \/
     exists j, j ∈ st_sweeps s /\ j_SweepID j = id /\ j_ChainID j = r_ChainID r' /\
       j_SourceAddress j = r_SourceAddress r') ->
  sweep_signing q s'.
Proof.
  intros Hok [H1 H2 H3 H4 H5 H6 H7] He Es Hown. split; rewrite ?Es; auto.
  - intros j Hj Hs. destruct (H4 j Hj Hs) as (r & Hr & Hsp & Hk).
    destruct (ev_sequences _ _ He r Hr) as (r' & Hr' & _ & Hk' & Hsp'). exists r'. split_and!; [done|auto|congruence].
  - intros x' j Hx' Hj Sx Sj E. destruct (H4 j Hj Sj) as (r & Hr & Hsp & Hk).
    destruct (ev_fresh _ _ He x' Hx' Sx) as [(x & Hx & Sx0 & Ex)|Hn].
    + apply (H6 x j); congruence.
    + apply (Hn r Hr); congruence.
  - intros r' id Hr' Hw. destruct (Hown r' id Hr' Hw) as [(r & Hr & Ew & Ek)|Hj]; [|done].
    destruct (H7 r id Hr Ew) as (j & Hj & Hid & Hc & Hsrc). injection Ek as E1 E2 _.
    exists j. split_and!; congruence.
Qed.

Definition sweep_frame (s s' : Store) : Prop :=
  st_sweeps s' = st_sweeps s /\
  forall r' id, r' ∈ st_sequences s' -> r_WorkRef r' = sweep_ref id ->
    exists r, r ∈ st_sequences s /\ r_WorkRef r = sweep_ref id /\ slot_key r = slot_key r'.

#[export] Instance sweep_frame_preorder : PreOrder sweep_frame.
Proof.
  split; [intros s; split; [done|]; intros r id Hr Hw; by exists r|].
  intros a b c [E1 F1] [E2 F2]. split; [congruence|]. intros r id Hr Hw.
  destruct (F2 r id Hr Hw) as (r1 & Hr1 & Hw1 & K1), (F1 r1 id Hr1 Hw1) as (r0 & Hr0 & Hw0 & K0).
  exists r0. split_and!; [done..|congruence].
Qed.

Lemma sweep_frame_moves s s' :
  signing_ok s -> sweeps_safe s -> evolves s s' -> signing_ok s' -> sweep_frame s s' ->
  sweeps_evolve s s' /\ sweeps_safe s'.
Proof.
  intros Hok [q Hq] He _ [Es Hrows]. split.
  - intros j Hj. exists j. rewrite Es. done.
  - exists q. eapply sweeps_stay; eauto.
Qed.

Local Ltac frame_free := intros ? []; split; [done | intros r id Hr Hw; by exists r].
#[export] Instance frame_ledger : Free sweep_frame LedgerEntry.  Proof. frame_free. Qed.
#[export] Instance frame_feeOutflow : Free sweep_frame FeeOutflow.  Proof. frame_free. Qed.
#[export] Instance frame_spend : Free sweep_frame FeeFundingSpend.  Proof. frame_free. Qed.
#[export] Instance frame_deposits : Free sweep_frame DepositRecord.  Proof. frame_free. Qed.
#[export] Instance frame_checkpoints : Free sweep_frame ScannerCheckpoint.  Proof. frame_free. Qed.
#[export] Instance frame_withdrawals : Free sweep_frame WithdrawalRecord.  Proof. frame_free. Qed.
#[export] Instance frame_watched : Free sweep_frame WatchedAddress.  Proof. frame_free. Qed.
#[export] Instance frame_controls : Free sweep_frame OperationalControls.  Proof. frame_free. Qed.
#[export] Instance frame_audit : Free sweep_frame ControlsAuditEntry.  Proof. frame_free. Qed.
#[export] Instance frame_chainReviews : Free sweep_frame ChainReviewCondition.  Proof. frame_free. Qed.
#[export] Instance frame_reviews : Free sweep_frame ReviewItem.  Proof. frame_free. Qed.
#[export] Instance frame_reports : Free sweep_frame ReconciliationReport.  Proof. frame_free. Qed.
#[export] Instance frame_outbox : Free sweep_frame OutboxEvent.  Proof. frame_free. Qed.

Lemma sweeps_set_sequences (l : list SequenceReservation) s : st_sweeps (set_rows l s) = st_sweeps s.
Proof. by destruct s. Qed.
Lemma sequences_set_sweeps (l : list SweepJob) s : st_sequences (set_rows l s) = st_sequences s.
Proof. by destruct s. Qed.
Lemma withdrawals_set_sweeps (l : list SweepJob) s : st_withdrawals (set_rows l s) = st_withdrawals s.
Proof. by destruct s. Qed.
Lemma sweeps_set_rows (l : list SweepJob) s : st_sweeps (set_rows l s) = l.
Proof. by destruct s. Qed.

(** Reservation rows that are replaced one by one, keeping work and slot. *)
Lemma update_rows_frame p (f : SequenceReservation -> SequenceReservation) s :
  (forall r, ref_Kind (r_WorkRef (f r)) = WorkSweep -> r_WorkRef (f r) = r_WorkRef r /\ slot_key (f r) = slot_key r) ->
  sweep_frame s (set_rows (update_rows p f (st_sequences s)) s).
Proof.
  intros Hf. split; [apply sweeps_set_sequences|]. rewrite sequences_set_rows.
  intros r' id (r & Hr & ->)%elem_of_update Hw. exists r. destruct (p r); [|done].
  destruct (Hf r) as [E1 E2]; [by rewrite Hw|]. split_and!; congruence.
Qed.

Lemma Sequences_UpdateStatus_frame id from to : preserves sweep_frame (Sequences_UpdateStatus id from to).
Proof.
  intros s. rewrite Sequences_UpdateStatus_eq. destruct (ValidateSequenceTransition _ _); [reflexivity|].
  destruct (List.find _ _); [|reflexivity]. case_bool_decide; [|reflexivity]. by apply update_rows_frame.
Qed.

Lemma Sequences_Reserve_frame res :
  ref_Kind (r_WorkRef res) <> WorkSweep -> preserves sweep_frame (Sequences_Reserve res).
Proof.
  intros Hk. unfold Sequences_Reserve, fmtTime, require_rows. free_steps.
  - intros t. unfold update_unique. destruct (existsb _ _); [reflexivity|].
    apply update_rows_frame. simpl. done.
  - intros t. unfold insert_row. destruct (violation _ _ _); [reflexivity|]. cbn [snd]. split.
    + apply sweeps_set_sequences.
    + rewrite sequences_set_rows. intros r id [Hr|[->|[]%elem_of_nil]%elem_of_cons]%elem_of_app Hw.
      * by exists r.
      * simpl in Hw. by rewrite Hw in Hk.
Qed.

(** *** The handlers of the other workers *)

Create HintDb frame.
Local Notation framed := (frames sweep_frame).

Local Ltac method :=
  unfold Withdrawals_UpdateStatus, Withdrawals_Get, Withdrawals_Create, Controls_Get, getControls, Sweeps_Get,
    Review_Open, Review_Get, Review_Resolve, Deposits_GetByID, Deposits_UpdateStatus, fmtTime, require_rows;
  free_steps.
Lemma Withdrawals_UpdateStatus_frame id from to u : preserves sweep_frame (Withdrawals_UpdateStatus id from to u).
Proof. method. Qed.
Lemma Withdrawals_Create_frame x : preserves sweep_frame (Withdrawals_Create x).
Proof. method. Qed.
Lemma Review_Open_frame i : preserves sweep_frame (Review_Open i).
Proof. method. Qed.
Lemma Review_Resolve_frame i r t : preserves sweep_frame (Review_Resolve i r t).
Proof. method. Qed.
Lemma Deposits_UpdateStatus_frame id from to u : preserves sweep_frame (Deposits_UpdateStatus id from to u).
Proof. method. Qed.
Lemma Controls_Get_frame c : preserves sweep_frame (Controls_Get c).
Proof. method. Qed.
Lemma GetByWorkRef_frame ref : preserves sweep_frame (Sequences_GetByWorkRef ref).
Proof. apply select_row_moves, _. Qed.
Lemma Withdrawals_Get_frame id : preserves sweep_frame (Withdrawals_Get id).
Proof. apply select_row_moves, _. Qed.

#[local] Hint Resolve Withdrawals_UpdateStatus_frame Withdrawals_Create_frame Review_Open_frame
  Review_Resolve_frame Deposits_UpdateStatus_frame Controls_Get_frame GetByWorkRef_frame Withdrawals_Get_frame
  Sequences_UpdateStatus_frame : frame.

Ltac frame_tx :=
  repeat first [ solve [auto 1 with frame nocore] | apply Sequences_Reserve_frame; done | free_step ].
Ltac frame_steps := frames_walk ltac:(frame_tx).

Lemma Reserve_framed chainID source ref :
  ref_Kind ref <> WorkSweep -> framed (Sequences.Reserve chainID source ref).
Proof.
  intros Hk. unfold Sequences.Reserve, Sequences.reserve_new, Sequences.reserveTx, Sequences_GetByWorkRef,
    Sequences_ListUnconsumed. frame_steps.
Qed.

Section withdrawals.
Context (w : Withdrawals.Workflow).
Import Withdrawals.

Lemma quarantine_framed id from reason : framed (quarantine w id from reason).
Proof. unfold quarantine, quarantineTx. frame_steps. Qed.
Lemma quarantinePost_framed id from rid reason : framed (quarantinePostSignature w id from rid reason).
Proof. unfold quarantinePostSignature, quarantinePostSignatureTx. frame_steps. Qed.
Lemma reviewTx_frame rec id from u resFrom reason : preserves sweep_frame (reviewTx rec id from u resFrom reason).
Proof. unfold reviewTx, quarantineReservation, ignore_conflict. frame_tx. Qed.
Lemma acceptTx_frame id : preserves sweep_frame (acceptTx id).
Proof. unfold acceptTx, advanceReservation, ignore_conflict. frame_tx. Qed.
Lemma includeTx_frame id info : preserves sweep_frame (includeTx id info).
Proof. unfold includeTx, consumeReservation, ignore_conflict. frame_tx. Qed.
#[local] Hint Resolve reviewTx_frame acceptTx_frame includeTx_frame : frame.
Lemma senderPubKey_framed src : framed (senderPubKey w src).
Proof. unfold senderPubKey. frame_steps. Qed.

Ltac frame_handler :=
  frame_steps;
  first [ apply quarantine_framed | apply quarantinePost_framed | apply senderPubKey_framed
        | apply Reserve_framed; done | idtac ].

Lemma Submit_framed req : framed (Submit w req).
Proof. unfold Submit. frame_handler. Qed.
Lemma ValidateAddress_framed id : framed (ValidateAddress w id).
Proof. unfold ValidateAddress. frame_handler. Qed.
Lemma ApproveCompliance_framed id : framed (ApproveCompliance id).
Proof. unfold ApproveCompliance. frame_handler. Qed.
Lemma ReserveFunds_framed id : framed (ReserveFunds w id).
Proof. unfold ReserveFunds, reserveFundsTx. frame_handler. Qed.
Lemma ReserveSequence_framed id : framed (ReserveSequence w id).
Proof. unfold ReserveSequence. frame_handler. Qed.
Lemma Build_framed id : framed (Build w id).
Proof. unfold Build. frame_handler. Qed.
Lemma Simulate_framed id : framed (Simulate w id).
Proof. unfold Simulate, simulationTxBytes, simulateFinish. frame_handler. Qed.
Lemma Sign_framed id : framed (Sign w id).
Proof. unfold Sign, signAndPersist, signTx. frame_handler. Qed.
Lemma Cancel_framed id : framed (Cancel id).
Proof. unfold Cancel, cancelTx. frame_handler. Qed.
Lemma Broadcast_framed id : framed (Broadcast id).
Proof.
  unfold Broadcast, resolveUnknownAfterBroadcast. frame_handler.
Qed.
Lemma Confirm_framed id : framed (Confirm w id).
Proof.
  unfold Confirm, confirmIncluded, confirmMissing. frame_handler.
Qed.
Lemma Recover_framed id : framed (Recover id).
Proof. unfold Recover, Sequences.RebroadcastPersisted, recoverTx. frame_handler. Qed.
End withdrawals.

Lemma reconcile_loop_framed l report : framed (Sequences.reconcile_loop l report).
Proof.
  revert report. induction l as [|x l IH]; intros report; [done|]. cbn [Sequences.reconcile_loop].
  unfold Sequences.resolve, Sequences.workFacts. frame_steps; apply IH.
Qed.
Lemma ReconcileAccount_framed chainID source : framed (Sequences.ReconcileAccount chainID source).
Proof.
  unfold Sequences.ReconcileAccount, Sequences_ListUnconsumed. frame_steps; apply reconcile_loop_framed.
Qed.

Lemma resolveReviewItem_framed id o note now : framed (resolveReviewItem id o note now).
Proof.
  unfold resolveReviewItem, resolveTx, resolveDepositReview, resolveWithdrawalReview, disposeReservation.
  frame_steps.
Qed.

(** ** Sweep updates *)

(** An update that leaves the signed transaction alone. *)
Definition still (u : SweepUpdate) : Prop := su_SignedTxBytes u = [] /\ su_TxHash u = None.

Lemma sweep_presign_legal from to :
  to ∈ sweepTransitions from -> sweep_presign to = true -> sweep_presign from = true.
Proof. rewrite <-enumValid_spec. by destruct from, to. Qed.

(** A replacement of the sweep table leaves the other workflow alone. *)
Lemma sweeps_only_moves l s :
  signing_ok s -> (schema_ok s -> schema_ok (set_rows (R := SweepJob) l s)) ->
  evolves s (set_rows l s) /\ signing_ok (set_rows l s).
Proof.
  intros Hok Hk. apply same_core_moves; [done| |done].
  split; [apply withdrawals_set_sweeps | apply sequences_set_sweeps].
Qed.

(** Rows that are replaced one by one, keeping record, bytes and hash. *)
Section still_rows.
Context (f : SweepJob -> SweepJob) (q : string -> Z) (s : Store).
Hypothesis Hf : forall j, j ∈ st_sweeps s ->
  job_of (f j) = job_of j /\ j_SignedTxBytes (f j) = j_SignedTxBytes j /\ j_TxHash (f j) = j_TxHash j /\
  (sweep_presign (j_Status (f j)) = true -> sweep_presign (j_Status j) = true).

Lemma still_rows_signing s' :
  sweep_signing q s -> st_withdrawals s' = st_withdrawals s -> st_sequences s' = st_sequences s ->
  st_sweeps s' = map f (st_sweeps s) ->
  sweeps_evolve s s' /\ sweep_signing q s'.
Proof.
  intros [H1 H2 H3 H4 H5 H6 H7] EW ER EJ.
  assert (forall y, y ∈ st_sweeps s' <-> exists j, j ∈ st_sweeps s /\ y = f j) as EJ'.
  { intros y. rewrite EJ, list_elem_of_fmap. split; intros (j & ? & ?); by exists j. }
  assert (forall j, j ∈ st_sweeps s -> sweep_slot q (f j) = sweep_slot q j) as Hslot.
  { intros j Hj. destruct (Hf j Hj) as (E & _). unfold sweep_slot. by injection E as -> _ -> -> _ _ _. }
  assert (forall j, j ∈ st_sweeps s -> sweep_signed (f j) <-> sweep_signed j) as Hsig.
  { intros j Hj. unfold sweep_signed. by destruct (Hf j Hj) as (_ & -> & _). }
  split; [|split; rewrite ?EW, ?ER].
  - intros j Hj. exists (f j). destruct (Hf j Hj) as (? & ? & ? & _). split; [apply EJ'; eauto | done].
  - intros y (j & Hj & ->)%EJ' Hp. destruct (Hf j Hj) as (_ & -> & _ & Hpre). auto.
  - intros y (j & Hj & ->)%EJ' Hs. apply (Hsig j Hj) in Hs. destruct (Hf j Hj) as (_ & -> & -> & _). auto.
  - intros y (j & Hj & ->)%EJ' Hs. apply (Hsig j Hj) in Hs. specialize (H3 j Hj Hs).
    destruct (Hf j Hj) as (E & -> & _ & _). unfold sweeps_out. by injection E as -> _ -> -> -> _ ->.
  - intros y (j & Hj & ->)%EJ' Hs. apply (Hsig j Hj) in Hs. rewrite Hslot by done. auto.
  - intros y z (j & Hj & ->)%EJ' (k & Hk & ->)%EJ' Sj Sk E. rewrite !Hslot in E by done.
    apply (Hsig j Hj) in Sj. apply (Hsig k Hk) in Sk. f_equal. auto.
  - intros x y Hx (j & Hj & ->)%EJ' Sx Sj. rewrite Hslot by done. apply (Hsig j Hj) in Sj. auto.
  - intros r id Hr Hw. destruct (H7 r id Hr Hw) as (j & Hj & Hid & Hc & Hsrc). exists (f j).
    split; [apply EJ'; eauto|]. destruct (Hf j Hj) as (E & _). by injection E as -> _ -> -> _ _ _.
Qed.
End still_rows.

Lemma Sweeps_UpdateStatus_still id from to u : still u -> preserves moves (Sweeps_UpdateStatus id from to u).
Proof.
  intros [Hb Hh] s [Hok [q Hq]]. pose proof (Sweeps_UpdateStatus_keeps id from to u s) as Hk.
  destruct (Sweeps_UpdateStatus id from to u s) as [[[]|e] s'] eqn:E.
  - cbn [snd] in *. apply Sweeps_UpdateStatus_ok in E as (Hleg & _ & _ & _ & _ & ->).
    destruct (sweeps_only_moves _ s Hok Hk) as [He Hok'].
    edestruct (still_rows_signing (fun j => if j_at id from j then sweep_set to (st_now s) u j else j) q s)
      as [Hev Hq']; [..|split; [by split | split; [done | by exists q]]].
    + intros j Hj. destruct (j_at id from j) eqn:Ej; [|done].
      apply andb_true_iff in Ej as [_ Est%bool_decide_eq_true]. simpl. rewrite Hb, Hh, Est.
      split_and!; try done. by apply sweep_presign_legal.
    + done.
    + apply withdrawals_set_sweeps.
    + apply sequences_set_sweeps.
    + apply sweeps_set_rows.
  - assert (s' = s) as ->; [|split; [reflexivity | split; [done | by exists q]]].
    rewrite Sweeps_UpdateStatus_eq in E. destruct (ValidateSweepTransition _ _); [by injection E as _ <-|].
    destruct (List.find _ _); [|by injection E as _ <-]. case_bool_decide; [done|by injection E as _ <-].
Qed.

Lemma Sweeps_Create_moves j s r s' :
  j_SignedTxBytes j = [] -> Sweeps_Create j s = (Ok r, s') -> moves s s'.
Proof.
  intros Hb H [Hok [q [H1 H2 H3 H4 H5 H6 H7]]]. pose proof (Sweeps_Create_keeps j s) as Hk. rewrite H in Hk.
  apply Sweeps_Create_ok in H as (_ & _ & -> & c & u & Er). cbn [snd] in Hk.
  destruct (sweeps_only_moves _ s Hok Hk) as [He Hok'].
  assert (~ sweep_signed r) as Hns by (rewrite Er; intros Hn; by apply Hn).
  assert (forall y, y ∈ st_sweeps (set_rows (st_sweeps s ++ [r]) s) <-> y ∈ st_sweeps s \/ y = r) as EJ.
  { intros y. rewrite sweeps_set_rows, elem_of_app, elem_of_cons, elem_of_nil. tauto. }
  split; [split; [done|]|split; [done|exists q; split]];
    rewrite ?withdrawals_set_sweeps, ?sequences_set_sweeps.
  - intros y Hy. exists y. split; [apply EJ; by left | done].
  - intros y [Hy| ->]%EJ Hp; [auto|by rewrite Er].
  - intros y [Hy| ->]%EJ Hs; [auto|done].
  - intros y [Hy| ->]%EJ Hs; [auto|done].
  - intros y [Hy| ->]%EJ Hs; [auto|done].
  - intros y z [Hy| ->]%EJ [Hz| ->]%EJ Sy Sz; try done. auto.
  - intros x y Hx [Hy| ->]%EJ Sx Sy; [auto|done].
  - intros t id Ht Hw. destruct (H7 t id Ht Hw) as (k & Hk' & Hrest). exists k. split; [apply EJ; by left|done].
Qed.

(** ** Signing *)

Section sign_transaction.
Context (q : string -> Z) (s s' : Store) (id : string) (rid n : Z) (now : Z) (bz : bytes) (c src : string).
Hypothesis Hok : signing_ok s.
Hypothesis Hq : sweep_signing q s.
Hypothesis Hjob : forall j, j ∈ st_sweeps s -> j_SweepID j = id ->
  j_ChainID j = c /\ j_SourceAddress j = src /\ sweeps_out j n bz.
Context (r0 : SequenceReservation).
Hypothesis Hr0 : r0 ∈ st_sequences s.
Hypothesis Hslot0 : slot_key r0 = Some (c, src, n).
Hypothesis Hst0 : r_Status r0 = SequenceReserved.
Context (j0 : SweepJob).
Hypothesis Hj0 : j0 ∈ st_sweeps s.
Hypothesis Hid0 : j_SweepID j0 = id.
Hypothesis Hbuilt : j_Status j0 = SweepBuilt.

(** The sequence the sweep is signed at. *)
Definition assign (i : string) : Z := if bool_decide (i = id) then n else q i.

Definition sign_job (j : SweepJob) : SweepJob :=
  if j_at id SweepBuilt j then sweep_set SweepSigned now (signed_update bz (Hash.TxHash bz)) j else j.

Lemma sign_job_cases j :
  j ∈ st_sweeps s ->
  (sign_job j = j /\ (sweep_signed j -> sweep_slot assign j = sweep_slot q j)) \/
  (j_SweepID j = id /\ j_SignedTxBytes j = [] /\ sweep_slot assign (sign_job j) = Some (c, src, n) /\
   job_of (sign_job j) = job_of j /\ j_Status (sign_job j) = SweepSigned /\
   j_TxHash (sign_job j) = Some (Hash.TxHash bz) /\ j_SignedTxBytes (sign_job j) = bz /\
   sweeps_out j n bz).
Proof.
  intros Hj. unfold sign_job. destruct (j_at id SweepBuilt j) eqn:E; [right|left].
  - pose proof E as [Ei%bool_decide_eq_true Est%bool_decide_eq_true]%andb_true_iff.
    assert (j_SignedTxBytes j = []) as Hb by (apply (ss_presign q s Hq j Hj); by rewrite Est).
    destruct (Hjob j Hj Ei) as (Hc & Hs & Ht). split_and!; try done.
    + unfold sweep_slot, assign. simpl. by rewrite Ei, Hc, Hs, bool_decide_eq_true_2.
    + simpl. by destruct bz.
  - split; [done|]. intros Hs. unfold sweep_slot, assign. case_bool_decide as Ei; [|done].
    rewrite (job_unique s j j0) in E; [|apply Hok|done|done|congruence].
    unfold j_at in E. by rewrite !bool_decide_eq_true_2 in E.
Qed.

Lemma sign_job_evolves j : j ∈ st_sweeps s -> sweep_evolves j (sign_job j).
Proof.
  intros Hj. destruct (sign_job_cases j Hj) as [[-> _]|(_ & Hb & _ & Hjo & _)]; [done|].
  split; [done|]. intros Hs. by destruct Hs.
Qed.

Lemma reserved_fresh j : j ∈ st_sweeps s -> sweep_signed j -> sweep_slot q j <> Some (c, src, n).
Proof.
  intros Hj Hs E. destruct (ss_slot q s Hq j Hj Hs) as (r & Hr & Hsp & Hk). rewrite E, <-Hslot0 in Hk.
  rewrite (slot_unique s r r0) in Hsp by (done || apply Hok).
  unfold spent in Hsp. by rewrite Hst0 in Hsp.
Qed.

Lemma sign_job_once j k :
  j ∈ st_sweeps s -> k ∈ st_sweeps s -> sweep_signed (sign_job j) -> sweep_signed (sign_job k) ->
  sweep_slot assign (sign_job j) = sweep_slot assign (sign_job k) -> sign_job j = sign_job k.
Proof.
  intros Hj Hk Sj Sk E.
  destruct (sign_job_cases j Hj) as [[Ej Fj]|(Ij & _ & Kj & _)],
    (sign_job_cases k Hk) as [[Ek Fk]|(Ik & _ & Kk & _)].
  - rewrite Ej, Ek in *. rewrite Fj, Fk in E by done. by apply (ss_once q s Hq).
  - exfalso. rewrite Ej in *. apply (reserved_fresh j Hj Sj). rewrite <-Fj by done. congruence.
  - exfalso. rewrite Ek in *. apply (reserved_fresh k Hk Sk). rewrite <-Fk by done. congruence.
  - f_equal. apply (job_unique s); [apply Hok|done..|congruence].
Qed.

Hypothesis He : evolves s s'.
Hypothesis EW : st_withdrawals s' = st_withdrawals s.
Hypothesis EJ : forall y, y ∈ st_sweeps s' <-> exists j, j ∈ st_sweeps s /\ y = sign_job j.
Hypothesis ER : forall r', r' ∈ st_sequences s' ->
  exists r, r ∈ st_sequences s /\ r_WorkRef r = r_WorkRef r' /\ slot_key r = slot_key r'.
Hypothesis Hspent : exists r', r' ∈ st_sequences s' /\ spent r' /\ slot_key r' = Some (c, src, n).

Lemma sign_jobs_move : sweeps_evolve s s' /\ sweep_signing assign s'.
Proof.
  split; [|split; rewrite ?EW].
  - intros j Hj. exists (sign_job j). split; [apply EJ; eauto | by apply sign_job_evolves].
  - intros y (j & Hj & ->)%EJ Hp. destruct (sign_job_cases j Hj) as [[E _]|(_ & _ & _ & _ & Est & _)].
    + rewrite E in *. by apply (ss_presign q s Hq).
    + by rewrite Est in Hp.
  - intros y (j & Hj & ->)%EJ Hs. destruct (sign_job_cases j Hj) as [[E _]|(_ & _ & _ & _ & _ & -> & -> & _)].
    + rewrite E in *. by apply (ss_hash q s Hq).
    + done.
  - intros y (j & Hj & ->)%EJ Hs.
    destruct (sign_job_cases j Hj) as [[E F]|(Ei & _ & _ & Ej & _ & _ & -> & Ht)].
    + rewrite E in *. injection (F Hs) as ->. by apply (ss_transfer q s Hq).
    + injection Ej as E1 _ E2 E3 E4 _ E5. unfold sweeps_out, assign. rewrite E1, E2, E3, E4, E5, Ei.
      by rewrite bool_decide_eq_true_2.
  - intros y (j & Hj & ->)%EJ Hs. destruct (sign_job_cases j Hj) as [[E F]|(_ & _ & -> & _)]; [|done].
    rewrite E in *. rewrite (F Hs). destruct (ss_slot q s Hq j Hj Hs) as (r & Hr & Hsp & Hk).
    destruct (ev_sequences _ _ He r Hr) as (r' & Hr' & _ & Hk' & Hsp'). exists r'. split_and!; [done|auto|congruence].
  - intros y z (j & Hj & ->)%EJ (k & Hk & ->)%EJ. by apply sign_job_once.
  - intros x y Hx (j & Hj & ->)%EJ Sx Sj. destruct (sign_job_cases j Hj) as [[E F]|(_ & _ & -> & _)].
    + rewrite E in *. rewrite (F Sj). by apply (ss_cross q s Hq).
    + rewrite <-Hslot0. by eapply reserved_unsigned.
  - intros r' i Hr' Hw. destruct (ER r' Hr') as (r & Hr & Ew & Ek). rewrite Hw in Ew.
    destruct (ss_account q s Hq r i Hr Ew) as (j & Hj & Hi & Hc & Hs). injection Ek as E1 E2 _.
    exists (sign_job j). destruct (sign_job_evolves j Hj) as [Ej _]. injection Ej as F1 _ F2 F3 _ _ _.
    split_and!; [apply EJ; eauto|congruence..].
Qed.
End sign_transaction.

(** The signature transaction, on a sweep and a reservation row of the same
    account. *)
Lemma sweep_signTx_moves id rid bz n c src s s' :
  (forall j, j ∈ st_sweeps s -> j_SweepID j = id ->
     j_ChainID j = c /\ j_SourceAddress j = src /\ sweeps_out j n bz) ->
  (forall r, r ∈ st_sequences s -> r_ID r = rid -> slot_key r = Some (c, src, n)) ->
  signTx id rid bz (Hash.TxHash bz) s = (Ok tt, s') -> moves s s'.
Proof.
  intros Hjob Hslot H [Hok [q Hq]]. unfold signTx in H. inv_tx1 H. destruct a.
  pose proof (Sweeps_UpdateStatus_keeps id SweepBuilt SweepSigned (signed_update bz (Hash.TxHash bz)) s) as Hk.
  rewrite Hm in Hk. cbn [snd] in Hk.
  apply Sweeps_UpdateStatus_ok in Hm as (_ & j0 & Hj0 & Hid0 & Hst0 & E0). subst s0.
  destruct (sweeps_only_moves _ s Hok Hk) as [He Hok0].
  pose proof (WithdrawalSystem.Sequences_UpdateStatus_moves rid SequenceReserved SequenceSigned
    (fun _ => eq_refl) _ Hok0) as Hmv. rewrite H in Hmv. cbn [snd] in Hmv. destruct Hmv as [He' Hok'].
  apply Sequences_UpdateStatus_ok in H as (_ & r0 & Hr0 & Hrid & Hrst & E1).
  rewrite sequences_set_sweeps in Hr0, E1. pose proof (Hslot r0 Hr0 Hrid) as Hslot0.
  assert (evolves s s') as Hev by (by etransitivity).
  destruct (sign_jobs_move q s s' id n (st_now s) bz c src Hok Hq Hjob r0 Hr0 Hslot0 Hrst j0 Hj0 Hid0 Hst0 Hev)
    as [Hse Hq'].
  - by rewrite E1, withdrawals_set_sequences, withdrawals_set_sweeps.
  - intros y. rewrite E1, sweeps_set_sequences, sweeps_set_rows. apply elem_of_update.
  - intros r'. rewrite E1, sequences_set_rows. intros (r & Hr & ->)%elem_of_update. exists r.
    by destruct (r_at rid SequenceReserved r).
  - eexists. rewrite E1, sequences_set_rows. split_and!; [apply elem_of_update; exists r0; split; [done|reflexivity]|..];
      unfold r_at; rewrite Hrid, Z.eqb_refl, bool_decide_eq_true_2 by done; done.
  - split; [by split|]. split; [done|]. by eexists.
Qed.

(** ** Reservations for a sweep *)

Definition job_known (j : SweepJob) (s : Store) : Prop :=
  exists k, k ∈ st_sweeps s /\ job_of k = job_of j.
Lemma job_known_stable j s s' : guarantee s s' -> job_known j s -> job_known j s'.
Proof.
  intros [_ He] (k & Hk & E). destruct (He k Hk) as (k' & Hk' & E' & _). exists k'. split; congruence.
Qed.

(** The reservation row [rid] is the slot of the sweep's account at [n]. *)
Definition row_on (j : SweepJob) (rid n : Z) (s : Store) : Prop :=
  exists r, r ∈ st_sequences s /\ r_ID r = rid /\ slot_key r = Some (j_ChainID j, j_SourceAddress j, n).
Lemma row_on_stable j rid n s s' : guarantee s s' -> row_on j rid n s -> row_on j rid n s'.
Proof.
  intros [He _] (r & Hr & E1 & E2). destruct (ev_sequences _ _ He r Hr) as (r' & Hr' & F1 & F2 & _).
  exists r'. split_and!; congruence.
Qed.

Lemma reserveTx_rows chainID source ref released acct chainSeq s x s' :
  schema_ok s -> Sequences.reserveTx chainID source ref released acct chainSeq s = (Ok x, s') ->
  st_sweeps s' = st_sweeps s /\
  forall r', r' ∈ st_sequences s' ->
    (exists r, r ∈ st_sequences s /\ r_WorkRef r = r_WorkRef r' /\ slot_key r = slot_key r') \/
    (r_WorkRef r' = ref /\ r_ChainID r' = chainID /\ r_SourceAddress r' = source).
Proof.
  intros Hs H. unfold Sequences.reserveTx in H. inv_tx1 H. inv_tx1 H.
  destruct (Sequences.ListUnconsumed_ok chainID source s) as (l & Hl & _).
  rewrite Hl in Hm. injection Hm as <- <-.
  assert (s1 = s) as -> by (destruct released as [ex|]; [destruct (_ <? _); [done|]|]; by injection Hm0).
  apply Sequences.Sequences_Reserve_ok in H as (Ex & [(old & Ho & Eslot & Erel & _ & _ & ->)|(_ & _ & ->)]); [..|done];
    (split; [apply sweeps_set_sequences|]); rewrite sequences_set_rows; intros r'.
  - intros (r & Hr & ->)%elem_of_update. destruct (r_at (r_ID old) SequenceReleased r) eqn:E; [|left; by exists r].
    right. apply andb_true_iff in E as [E%Z.eqb_eq _].
    assert (r = old) as -> by (eapply ids_ok_inj; [apply (so_sequences s Hs)|done..]).
    injection Eslot as E1 E2 _. done.
  - intros [Hr|[->|[]%elem_of_nil]%elem_of_cons]%elem_of_app; [left; by exists r'|].
    right. by rewrite Ex.
Qed.

Lemma sweep_reserveTx_moves j released acct chainSeq s r s' :
  job_known j s ->
  with_tx (Sequences.reserveTx (j_ChainID j) (j_SourceAddress j) (sweep_ref (j_SweepID j))
             released acct chainSeq) s = (r, s') ->
  moves s s'.
Proof.
  intros (k & Hk & Ek) H [Hok [q Hq]].
  assert (owner_ok (j_ChainID j) (j_SourceAddress j) (sweep_ref (j_SweepID j)) s) as Hown by done.
  destruct (reserveTx_moves _ _ _ _ _ _ s r s' Hown H Hok) as [He Hok'].
  destruct r as [x|e]; [|apply with_tx_err in H as ->; split; [reflexivity|split; [done|by exists q]]].
  apply with_tx_ok in H. destruct (reserveTx_rows _ _ _ _ _ _ s x s' (sg_schema s Hok) H) as [Es Hrows].
  split; split; [done| |done|].
  - intros l Hl. exists l. by rewrite Es.
  - exists q. apply (sweeps_stay q s); [done..|]. intros r' id Hr' Hw.
    destruct (Hrows r' Hr') as [(r & Hr & E1 & E2)|(E1 & E2 & E3)].
    + left. exists r. split_and!; congruence.
    + right. exists k. injection Ek as F1 _ F2 F3 _ _ _. rewrite Hw in E1. injection E1 as ->.
      split_and!; congruence.
Qed.

Lemma own_row j r s :
  invariant s -> job_known j s -> r ∈ st_sequences s -> r_WorkRef r = sweep_ref (j_SweepID j) ->
  row_on j (r_ID r) (r_Sequence r) s.
Proof.
  intros [Hok [q Hq]] (k & Hk & Ek) Hr Hw. exists r. split_and!; [done..|].
  destruct (ss_account q s Hq r _ Hr Hw) as (l & Hl & Ei & Ec & Es). injection Ek as F1 _ F2 F3 _ _ _.
  assert (l = k) as -> by (apply (job_unique s); [apply Hok|done..|congruence]).
  unfold slot_key. congruence.
Qed.

(** ** Programs *)

(** Only bytes that are in the database go to the network. *)
Definition out_callok (T : Type) (c : call T) (s : Store) : Prop :=
  match c with
  | CBroadcast b _ => (exists x, x ∈ st_withdrawals s /\ signed x /\ w_SignedTxBytes x = b) \/
      (exists j, j ∈ st_sweeps s /\ sweep_signed j /\ j_SignedTxBytes j = b)
  | _ => True
  end.

Lemma out_callok_stable T (c : call T) s s' : out_callok T c s -> guarantee s s' -> out_callok T c s'.
Proof.
  destruct c; try done. intros [Hx|(j & Hj & Hs & Hb)] [He Hse].
  - left. exact (callok_stable _ (CBroadcast txBytes mode) s s' Hx He).
  - right. destruct (Hse j Hj) as (j' & Hj' & _ & Hkeep). destruct (Hkeep Hs) as [E _]. exists j'.
    unfold sweep_signed in *. rewrite E. done.
Qed.

Local Notation ok := (safe guarantee invariant out_callok).
Local Notation tame := (tame guarantee invariant out_callok).
Local Notation ok_stmt := (ok_stmt guarantee invariant out_callok).

(** The handlers of the other workers keep the whole. *)
Lemma framed_ok {A} (p : handler A) s :
  frames sweep_frame p -> safe evolves signing_ok callok p s -> ok p s.
Proof.
  intros Hf Hs. apply (safe_conj evolves sweeps_evolve signing_ok sweeps_safe callok out_callok sweep_frame);
    [|..|done|done].
  - apply sweep_frame_moves.
  - intros T c s1 Hc. destruct c; try done. by left.
Qed.

Section reserve.
Context (j : SweepJob).
Notation ref := (sweep_ref (j_SweepID j)).
Definition reserved_row (r : result err SequenceReservation) (s : Store) : Prop :=
  forall res, r = Ok res -> row_on j (r_ID res) (r_Sequence res) s.

Lemma read_own_row s s1 r s2 :
  guarantee s s1 -> invariant s1 -> job_known j s -> with_tx (Sequences_GetByWorkRef ref) s1 = (r, s2) ->
  s2 = s1 /\ reserved_row r s1.
Proof.
  intros He Hi Hj H. destruct r as [res|e].
  2:{ apply with_tx_err in H as ->. split; [done|]. by intros res. }
  apply with_tx_ok in H. rewrite GetByWorkRef_result in H.
  destruct (List.find _ _) as [r|] eqn:Hf; [|done]. injection H as -> <-. split; [done|]. intros r [= <-].
  apply find_elem in Hf as [Hr Hw%bool_decide_eq_true].
  apply own_row; [done|by eapply job_known_stable|done..].
Qed.

Context {B : Type} (k : result err SequenceReservation -> handler B) (s : Store).
Hypothesis Hj : job_known j s.
Hypothesis Hk : forall r s', reserved_row r s' -> guarantee s s' -> ok (k r) s'.

Lemma failed_row e s' : reserved_row (Err e) s'.
Proof. by intros res. Qed.

Lemma read_own_ok (f : result err SequenceReservation -> handler B) s1 :
  guarantee s s1 -> (forall r s', reserved_row r s' -> guarantee s s' -> ok (f r) s') ->
  ok (p_bind (stmt (Sequences_GetByWorkRef ref)) f) s1.
Proof.
  intros He Hf. apply ok_stmt.
  - intros s2 a s3 _ _ H. rewrite (GetByWorkRef_state _ _ _ _ H). reflexivity.
  - intros s2 r s3 He2 Hi2 H Hi3 He3. destruct (read_own_row s s2 r s3) as [-> Hrow];
      [by etransitivity|done..|]. apply Hf; [done|by etransitivity].
Qed.

Lemma reserve_new_ok released s1 :
  guarantee s s1 ->
  ok (p_bind (Sequences.reserve_new (j_ChainID j) (j_SourceAddress j) ref released) k) s1.
Proof.
  intros He. unfold Sequences.reserve_new. split; [done|].
  intros [[acct chainSeq]|e]; [|apply Hk; [apply failed_row|done]].
  apply (ok_stmt (Sequences.reserveTx (j_ChainID j) (j_SourceAddress j) ref released acct chainSeq)).
  - intros s2 a s3 He2 _ H. eapply sweep_reserveTx_moves; [|apply with_tx_commit; exact H].
    eapply job_known_stable; [|exact Hj]. by etransitivity.
  - intros s2 r s3 He2 Hi2 H Hi3 He3. assert (guarantee s s3) as He' by (by etransitivity).
    destruct r as [x|e].
    + apply Hk; [|done]. intros res [= <-]. apply with_tx_ok in H.
      apply Sequences.reserveTx_bound in H as (_ & Hx & Hw & _); [|apply Hi2].
      apply own_row; [done|by eapply job_known_stable|done..].
    + destruct e; try (apply Hk; [apply failed_row|done]).
      apply (read_own_ok (fun raced => p_bind (match raced with
        | Ok r => Done (Ok r) | Err _ => Done (Err ErrDuplicate) end) k)); [done|].
      intros [r|e] s4 Hr He4; apply Hk; [done..|apply failed_row|done].
Qed.

Lemma Reserve_for_ok : ok (p_bind (Sequences.Reserve (j_ChainID j) (j_SourceAddress j) ref) k) s.
Proof.
  unfold Sequences.Reserve. destruct (_ || _); [apply Hk; [apply failed_row|reflexivity]|].
  apply (read_own_ok (fun existing => p_bind (match existing with
    | Ok ex => if bool_decide (r_Status ex = SequenceReleased)
               then Sequences.reserve_new (j_ChainID j) (j_SourceAddress j) ref (Some ex) else Done (Ok ex)
    | Err ErrNotFound => Sequences.reserve_new (j_ChainID j) (j_SourceAddress j) ref None
    | Err e => Done (Err e) end) k)); [reflexivity|].
  intros [ex|e] s1 Hr He; [case_bool_decide; [by apply reserve_new_ok | by apply Hk]|].
  destruct e; try (apply Hk; [apply failed_row|done]). by apply reserve_new_ok.
Qed.
End reserve.

(** ** The transactions of the engine *)

Lemma both_moves {A} (m : db A) :
  preserves (Workers.moves evolves signing_ok) m -> preserves sweep_frame m -> preserves moves m.
Proof.
  intros Hm Hf s [Hok Hsw]. destruct (Hm s Hok) as [He Hok'].
  destruct (sweep_frame_moves s (snd (m s)) Hok Hsw He Hok' (Hf s)). done.
Qed.
Lemma read_both {R} `{Table R} (p : R -> bool) : preserves moves (select_row p).
Proof. apply select_row_moves, _. Qed.
Lemma reads_both {R} `{Table R} (p : R -> bool) : preserves moves (select_where p).
Proof. apply select_where_moves, _. Qed.
Lemma forward_both id from to : forward from to -> preserves moves (Sequences_UpdateStatus id from to).
Proof.
  intros Hf. apply both_moves; [by apply WithdrawalSystem.Sequences_UpdateStatus_moves|].
  apply Sequences_UpdateStatus_frame.
Qed.
Lemma deposits_both id from to u : preserves moves (Deposits_UpdateStatus id from to u).
Proof. apply both_moves; [apply Deposits_UpdateStatus_moves | apply Deposits_UpdateStatus_frame]. Qed.
Lemma controls_both c : preserves moves (Controls_Get c).
Proof. apply both_moves; [apply Controls_Get_moves | apply Controls_Get_frame]. Qed.
Lemma spend_both f : preserves moves (Ledger_AppendFeeFundingSpend f).
Proof.
  apply both_moves; [apply frame_moves; [apply AppendFeeFundingSpend_keeps|]|];
    unfold Ledger_AppendFeeFundingSpend, fmtTime; free_steps.
Qed.

Ltac engine_step :=
  lazymatch goal with
  | |- preserves _ (tx_bind _ _) => apply preserves_bind; [typeclasses eauto| |intros ?]
  | |- preserves _ (tx_for _ _) => apply preserves_for; [typeclasses eauto|intros ?]
  | |- preserves _ (tx_ret _) => apply preserves_ret; typeclasses eauto
  | |- preserves _ (tx_fail _) => apply preserves_fail; typeclasses eauto
  | |- preserves _ (tx_get _) => apply preserves_get; typeclasses eauto
  | |- preserves _ (tx_try _) => apply preserves_try
  | |- preserves _ (Sweeps_UpdateStatus _ _ _ _) => apply Sweeps_UpdateStatus_still; by split
  | |- preserves _ (Sequences_UpdateStatus _ _ _) => apply forward_both; intros ?; done
  | |- preserves _ (Deposits_UpdateStatus _ _ _ _) => apply deposits_both
  | |- preserves _ (Ledger_AppendFeeFundingSpend _) => apply spend_both
  | |- preserves _ (Controls_Get _) => apply controls_both
  | |- preserves _ (match ?x with _ => _ end) => destruct x eqn:?
  | |- preserves _ (if ?x then _ else _) => destruct x eqn:?
  | |- preserves _ _ => first [apply read_both | apply reads_both]
  end.
Ltac engine_tx :=
  unfold Withdrawals.ignore_conflict, Sweeps_ListByStatus, Watch_ListActive, Deposits_ListByStatus,
    Ledger_SumFeeFundingSpend; repeat engine_step.

Lemma releaseUnsignedReservation_moves id : preserves moves (releaseUnsignedReservation id).
Proof. unfold releaseUnsignedReservation. engine_tx. Qed.
Lemma sweep_quarantine_moves id from : preserves moves (quarantineReservation id from).
Proof. unfold quarantineReservation. engine_tx. Qed.
Lemma sweep_accept_moves id : preserves moves (acceptTx id).
Proof. unfold acceptTx, advanceReservation. engine_tx. Qed.
Lemma sweep_consume_moves id : preserves moves (consumeReservation id).
Proof. unfold consumeReservation. engine_tx. Qed.

Lemma sweep_markSwept_moves j h : preserves moves (markDepositsSwept j h).
Proof. unfold markDepositsSwept. engine_tx. Qed.
Lemma sweep_recordSpend_moves j h : preserves moves (recordFeeFundingSpend j h).
Proof. unfold recordFeeFundingSpend. engine_tx. Qed.

Lemma createTx_moves j s a s' : j_SignedTxBytes j = [] -> createTx j s = (Ok a, s') -> moves s s'.
Proof.
  intros Hb H. unfold createTx in H. inv_tx1 H. etransitivity; [by eapply Sweeps_Create_moves|].
  match type of H with ?m ?t = _ => assert (preserves moves m) as Hp by engine_tx; specialize (Hp t) end.
  by rewrite H in Hp.
Qed.

Create HintDb engine.
#[local] Hint Resolve releaseUnsignedReservation_moves sweep_quarantine_moves sweep_accept_moves
  sweep_consume_moves sweep_markSwept_moves sweep_recordSpend_moves : engine.

Ltac engine_tx' := first [ solve [auto 1 with engine nocore] | progress engine_tx; engine_tx' | idtac ].
Ltac tame_steps := tame_walk ltac:(engine_tx').

(** ** The handlers *)

Section handlers.
Context (e : Engine).

Lemma terminateJob_tame j : tame (terminateJob j).
Proof. unfold terminateJob, terminateTx. tame_steps. Qed.
Lemma cancelJob_tame j : tame (cancelJob j).
Proof. unfold cancelJob. tame_steps. apply terminateJob_tame. Qed.
Lemma deferJob_tame id : tame (deferJob id).
Proof. unfold deferJob, deferTx. tame_steps. Qed.
Lemma deferOrCancel_tame j : tame (deferOrCancel j).
Proof. unfold deferOrCancel. tame_steps; [apply cancelJob_tame | apply deferJob_tame]. Qed.
Lemma sweep_pubKey_tame src : tame (senderPubKey e src).
Proof. unfold senderPubKey. tame_steps. Qed.
Lemma estimateFee_tame src dst a acct seq : tame (estimateFee e src dst a acct seq).
Proof. unfold estimateFee, simulationTxBytes. tame_steps; apply sweep_pubKey_tame. Qed.
Lemma plan_rounds_tame n src dst bal acct seq a fee reason : tame (plan_rounds e n src dst bal acct seq a fee reason).
Proof.
  revert a fee reason. induction n as [|n IH]; intros a fee reason; simpl; tame_steps;
    [apply estimateFee_tame | apply IH].
Qed.
Lemma planFeeAmount_tame src dst bal acct seq : tame (planFeeAmount e src dst bal acct seq).
Proof. unfold planFeeAmount. tame_steps; [apply estimateFee_tame | apply plan_rounds_tame]. Qed.

Lemma createJob_tame src bal h ids : tame (createJob e src bal h ids).
Proof.
  unfold createJob. tame_steps; try apply planFeeAmount_tame; try apply deferJob_tame.
  all: apply tame_stmt_ok; [typeclasses eauto|]; intros t u t'; by apply createTx_moves.
Qed.
Lemma plan_source_tame cr pe h rep src : tame (plan_source e cr pe h rep src).
Proof.
  unfold plan_source, custodySettle, custodyTx. tame_steps. apply createJob_tame.
Qed.
Lemma Plan_tame : tame (Plan e).
Proof.
  unfold Plan, plan_inputs, controls, sweepableSources, depositBacklog. tame_steps.
  match goal with |- tame (plan_loop _ _ _ _ ?l ?r) => generalize r; clear; induction l as [|src l IH] end;
    intros rep; simpl; tame_steps; [apply plan_source_tame | apply IH].
Qed.

(** *** Preparation *)

Lemma createFundingJob_tame j id fee : tame (createFundingJob e j id fee).
Proof.
  unfold createFundingJob, feeWallet. tame_steps.
  all: apply tame_stmt_ok; [typeclasses eauto|]; intros t u t'; by apply Sweeps_Create_moves.
Qed.
Lemma checkFunding_tame j bal fee : tame (checkFunding e j bal fee).
Proof.
  unfold checkFunding, feeFundingCapExceeded, feeWallet.
  tame_steps; first [apply deferOrCancel_tame | apply createFundingJob_tame].
Qed.
Lemma quarantined_tame rid : tame (quarantined rid).
Proof. unfold quarantined. tame_steps. Qed.

Lemma sign_persist_ok j res doc sm u s :
  job_known j s -> row_on j (r_ID res) (r_Sequence res) s ->
  (forall bz sig, Tx.Assemble u sig = Ok (bz, Hash.TxHash bz) -> sweeps_out j (r_Sequence res) bz) ->
  ok (signAndPersist e j res doc sm u) s.
Proof.
  intros Hj Hr Ht. unfold signAndPersist. split; [done|]. intros [resp|er].
  2:{ destruct er; try apply quarantined_tame; done. }
  cbn. destruct (Withdrawals.VerifySignedResponse _ _ _); [apply quarantined_tame|].
  destruct (Tx.Assemble u _) as [[bz h]|] eqn:Ha; [|apply quarantined_tame].
  assert (h = Hash.TxHash bz) as -> by (by apply Tx.Assemble_ok in Ha as (-> & _)).
  apply Ht in Ha. intros s1 He Hi. pose proof (job_known_stable j s s1 He Hj) as (k & Hk & Ek).
  pose proof (row_on_stable j _ _ s s1 He Hr) as (r & Hrin & Hrid & Hrk). pose proof (sg_schema s1 (proj1 Hi)) as Hs.
  destruct (with_tx (signTx (j_SweepID j) (r_ID res) bz (Hash.TxHash bz)) s1) as [x s2] eqn:E.
  enough (moves s1 s2) as Hm by (destruct (Hm Hi); done).
  eapply with_tx_moves; [typeclasses eauto| |exact E]. intros [] s3 H3.
  apply (sweep_signTx_moves (j_SweepID j) (r_ID res) bz (r_Sequence res) (j_ChainID j) (j_SourceAddress j)); [..|exact H3].
  - intros l Hl Hid. assert (l = k) as ->.
    { apply (job_unique s1); [done..|]. by injection Ek as -> _ _ _ _ _ _. }
    injection Ek as _ _ E1 E2 E3 _ E4. unfold sweeps_out. rewrite E1, E2, E3, E4. done.
  - intros r' Hr' Hid. assert (r' = r) as -> by (eapply ids_ok_inj; [apply (so_sequences s1 Hs)|congruence..]). done.
Qed.

Lemma sign_ok j res c fee gas s :
  job_known j s -> row_on j (r_ID res) (r_Sequence res) s -> ok (sign e j res c fee gas) s.
Proof.
  intros Hj Hr. unfold sign. destruct (oc_SigningPaused c); [done|].
  destruct (Tx.BuildMsgSend _ _ _ _) as [u0|] eqn:Hb; [|apply cancelJob_tame].
  apply safe_bind; [apply _|apply sweep_pubKey_tame|]. intros [pk|er] s1 He.
  2:{ destruct er; try apply quarantined_tame; done. }
  destruct (Tx.SignDoc _ _ _ _ _ _) as [[[doc sm] u]|] eqn:Hd; [|apply cancelJob_tame].
  destruct (summaryMismatch _ _ _ _); [apply cancelJob_tame|].
  apply sign_persist_ok; [by eapply job_known_stable|by eapply row_on_stable|].
  intros bz sig Ha. unfold sweeps_out, Tx.signed_transfer. eauto 12.
Qed.

Lemma prepareWithFee_ok j res c bal fee gas s :
  job_known j s -> row_on j (r_ID res) (r_Sequence res) s -> ok (prepareWithFee e j res c bal fee gas) s.
Proof.
  intros Hj Hr. unfold prepareWithFee. destruct (negb (empty (economicsFailure _ _ _))); [apply deferOrCancel_tame|].
  apply safe_bind; [apply _|apply checkFunding_tame|]. intros [[]|er] s1 He; [|done].
  destruct (negb (empty (coverageFailure _ _ _ _))); [apply deferOrCancel_tame|].
  pose proof (job_known_stable j s s1 He Hj) as Hj1. pose proof (row_on_stable j _ _ s s1 He Hr) as Hr1.
  case_bool_decide; [|by apply sign_ok].
  apply safe_bind; [apply _| |].
  - revert s1 He Hj1 Hr1. intros s1 _ _ _. revert s1.
    change (tame (stmt (Sweeps_UpdateStatus (j_SweepID j) SweepPending SweepBuilt no_sweep_update))). tame_steps.
  - intros [[]|er] s2 He2; [|done]. apply sign_ok; [by apply (job_known_stable j s1) | by apply (row_on_stable j _ _ s1)].
Qed.

(** A handler that starts by reading its sweep. *)
Lemma ok_Sweeps_Get {B} id (k : result err SweepJob -> handler B) s :
  (forall er s', ok (k (Err er)) s') ->
  (forall j s', j ∈ st_sweeps s' -> j_SweepID j = id -> guarantee s s' -> ok (k (Ok j)) s') ->
  ok (p_bind (stmt (Sweeps_Get id)) k) s.
Proof.
  intros He Hk. apply ok_stmt.
  { intros s1 a s2 _ _ H. apply Sweeps_Get_ok in H as (-> & _). reflexivity. }
  intros s1 [j|er] s2 _ _ Hg _ Hg2; [|apply He].
  apply with_tx_ok, Sweeps_Get_ok in Hg as (-> & Hj & Hid). auto.
Qed.

Lemma controls_tame : tame (controls e).
Proof. unfold controls. tame_steps. Qed.

Lemma Prepare_ok id s : ok (Prepare e id) s.
Proof.
  unfold Prepare, r_bind at 1. apply ok_Sweeps_Get; [done|]. intros j s1 Hj Hid _.
  destruct (negb _); [done|]. apply safe_bind; [apply _|apply controls_tame|]. intros [c|er] s2 He2; [|done].
  destruct (oc_SweepPaused c); [done|]. destruct (negb (en_signer e)); [done|].
  assert (job_known j s2) as Hk by (apply (job_known_stable j s1); [done|]; by exists j).
  apply Reserve_for_ok; [done|]. intros [res|er] s3 Hrow He3.
  2:{ destruct er; try apply cancelJob_tame; done. }
  destruct (negb _); [done|]. split; [done|]. intros [bal|er]; [|done].
  cbn [p_bind]. apply safe_bind; [apply _|apply estimateFee_tame|]. intros [[fee gas]|er] s4 He4; [|done].
  specialize (Hrow res eq_refl).
  apply prepareWithFee_ok; [|by apply (row_on_stable j _ _ s3)].
  apply (job_known_stable j s2); [by etransitivity|done].
Qed.

Lemma Revisit_tame id : tame (Revisit e id).
Proof.
  unfold Revisit, replanStaleAmount, controls.
  tame_steps; first [apply estimateFee_tame | apply planFeeAmount_tame | apply terminateJob_tame].
Qed.

(** *** The broadcaster *)

Lemma sweep_bytes_ok j s s' mode :
  j ∈ st_sweeps s -> sweep_signed j -> guarantee s s' ->
  forall s1, guarantee s' s1 -> invariant s1 -> out_callok _ (CBroadcast (j_SignedTxBytes j) mode) s1.
Proof.
  intros Hj Hs He s1 He1 _. eapply (out_callok_stable _ (CBroadcast (j_SignedTxBytes j) mode) s); [|by etransitivity].
  right. by exists j.
Qed.

Lemma sweep_Broadcast_ok id s : ok (Broadcast e id) s.
Proof.
  unfold Broadcast, r_bind at 1. apply ok_Sweeps_Get; [done|]. intros j s1 Hj _ _.
  destruct (negb _); [done|]. destruct (j_SignedTxBytes j) as [|b0 bs] eqn:Hb; [done|].
  destruct (j_TxHash j) as [h|]; [|done].
  apply safe_bind; [apply _|apply controls_tame|]. intros [c|er] s2 He; [|done].
  destruct (oc_SweepPaused c); [done|]. destruct (oc_BroadcastPaused c); [done|]. split.
  { rewrite <-Hb. apply (sweep_bytes_ok j s1); [done|unfold sweep_signed; by rewrite Hb|done]. }
  intros res. revert s2 He. intros s2 _. revert s2.
  change (tame match res with
    | Err _ => resolveUnknownAfterBroadcast j h
    | Ok res => if negb (br_Accepted res) then atomically (rejectTx id (br_Code res))
                else atomically (acceptTx id)
    end). unfold resolveUnknownAfterBroadcast, rejectTx. tame_steps.
Qed.

Lemma sweep_Confirm_tame id : tame (Confirm e id).
Proof. unfold Confirm, confirmMissing, confirmIncluded, failTx, confirmTx. tame_steps. Qed.

Lemma sweep_Rebroadcast_ok j s s' :
  j ∈ st_sweeps s -> guarantee s s' -> ok (Sequences.RebroadcastPersisted (j_SignedTxBytes j)) s'.
Proof.
  intros Hj He. unfold Sequences.RebroadcastPersisted. case_bool_decide as Hb; [done|].
  pose proof (sweep_bytes_ok j s s' BroadcastSync Hj Hb He) as Hc.
  split; [done|]. intros [[i|]|er]; cbn.
  - destruct (0 <? ti_Height i); [done|]. split; [exact Hc|]. by intros [].
  - split; [exact Hc|]. by intros [].
  - case_bool_decide; [|done]. split; [exact Hc|]. by intros [].
Qed.

Lemma sweep_Recover_ok id s : ok (Recover id) s.
Proof.
  unfold Recover, r_bind at 1. apply ok_Sweeps_Get; [done|]. intros j s1 Hj _ _.
  destruct (negb _); [done|]. case_bool_decide; [done|].
  apply safe_bind; [apply _|by apply (sweep_Rebroadcast_ok j s1)|]. intros [res|er] s2 _; [|done].
  revert s2.
  change (tame (if negb (Sequences.rb_AlreadyIncluded res) && negb (Sequences.rb_Accepted res)
    then Done (Err ErrOther)
    else if bool_decide (j_Status j = SweepSigned)
    then stmt (Sweeps_UpdateStatus id SweepSigned SweepBroadcast no_sweep_update)
    else Done (Ok tt))). tame_steps.
Qed.

(** *** One pass *)

Lemma step_jobs_tame step jobs errs : (forall id, tame (step id)) -> tame (step_jobs step jobs errs).
Proof.
  intros Hs. revert errs. induction jobs as [|j jobs IH]; intros errs; simpl; tame_steps; [apply Hs | apply IH].
Qed.
Lemma pass_loop_tame steps errs :
  Forall (fun st => forall id, tame (st.2 id)) steps -> tame (pass_loop e steps errs).
Proof.
  intros Hs. revert errs. induction Hs as [|[st step] steps Hst _ IH]; intros errs; cbn [pass_loop]; tame_steps;
    [by apply step_jobs_tame | apply IH | apply IH].
Qed.
Lemma Pass_tame : tame (Pass e).
Proof.
  unfold Pass. tame_steps; [apply Plan_tame|]. apply pass_loop_tame.
  unfold pass_steps. repeat (apply Forall_cons; split); cbn [snd]; try intros id.
  - intros s. apply Prepare_ok.
  - intros s. apply Prepare_ok.
  - intros s. apply sweep_Broadcast_ok.
  - apply sweep_Confirm_tame.
  - unfold revisitStep. tame_steps. apply Revisit_tame.
  - by apply Forall_nil.
Qed.
End handlers.

End sweep_system.
End SweepSystem.
