(* ===== verification/Services.v ===== *)
(** * Services: the loops that drive the outflow workflows

    [go/cmd/sovren-adapter/withdrawals_service.go] and [sweeper_service.go].
    A service first finds every account with work in flight and reconciles its
    reservations with the chain, refusing to start when either fails, and then
    runs its pass on every tick.  The paging loop is unbounded in the code, so
    it takes a number of batches as fuel ([ServiceLaws] says how many are
    enough); a service is given the number of ticks after which it is stopped.
    The services are given a workflow or an engine, which [Startup] builds from
    the configuration. *)

From stdpp Require Import base list strings gmap.
From Stdlib Require Import ZArith Lia String.
From S2P Require Import Prelude Workers Text Storage Database SqlStore Chain Address Sequences Withdrawals Sweeps.
Import SqlStore.

Open Scope string_scope.
Open Scope list_scope.
Open Scope Z_scope.

Module Services.

(** ** Source discovery *)

Definition sourceReconcilePageSize : Z := 500.

(** [fetch] is given the limit and what was collected so far. *)
Fixpoint paginateAll {A} (n : nat) (fetch : Z -> A -> handler (result err (Z * A))) (limit : Z) (acc : A)
    : handler (result err A) :=
  match n with
  | O => Done (Err OutOfFuel)
  | S n' =>
      let? '(count, acc') := fetch limit acc in
      if count <? limit then Done (Ok acc')
      else paginateAll n' fetch (limit + sourceReconcilePageSize) acc'
  end.

(** The closure [add]: in order of first appearance, without the empty
    address. *)
Definition add (out : list string) (addr : string) : list string :=
  if empty addr || bool_decide (addr ∈ out) then out else out ++ [addr].

Definition active_of (kind : WatchedAddressKind) (watched : list WatchedAddress) : list string :=
  map wa_Address (List.filter (fun w => bool_decide (wa_Kind w = kind)) watched).

Definition withdrawal_statuses : list WithdrawalStatus :=
  [WithdrawalSequenceReserved; WithdrawalTransactionBuilt; WithdrawalTransactionSimulated; WithdrawalSigned;
   WithdrawalBroadcast; WithdrawalReviewRequired].

Definition fetch_withdrawals (chainID : string) (status : WithdrawalStatus) (limit : Z) (out : list string)
    : handler (result err (Z * list string)) :=
  let? recs := stmt (Withdrawals_ListByStatus chainID status limit) in
  Done (Ok (Z.of_nat (List.length recs), fold_left add (map w_SourceAddress recs) out)).

Fixpoint withdrawal_sources (n : nat) (chainID : string) (sts : list WithdrawalStatus) (out : list string)
    : handler (result err (list string)) :=
  match sts with
  | [] => Done (Ok out)
  | st :: sts' =>
      let? out' := paginateAll n (fetch_withdrawals chainID st) sourceReconcilePageSize out in
      withdrawal_sources n chainID sts' out'
  end.

Definition withdrawalsSourceAddresses (n : nat) (chainID : string) : handler (result err (list string)) :=
  let? watched := stmt (Watch_ListActive chainID) in
  withdrawal_sources n chainID withdrawal_statuses (fold_left add (active_of WatchHotWallet watched) []).

Definition sweep_statuses : list SweepStatus :=
  [SweepPending; SweepBuilt; SweepSigned; SweepBroadcast; SweepDeferred].

Definition fetch_sweeps (chainID : string) (status : SweepStatus) (limit : Z) (out : list string)
    : handler (result err (Z * list string)) :=
  let? jobs := stmt (Sweeps_ListByStatus chainID status limit) in
  Done (Ok (Z.of_nat (List.length jobs), fold_left add (map j_SourceAddress jobs) out)).

Fixpoint sweep_sources (n : nat) (chainID : string) (sts : list SweepStatus) (out : list string)
    : handler (result err (list string)) :=
  match sts with
  | [] => Done (Ok out)
  | st :: sts' =>
      let? out' := paginateAll n (fetch_sweeps chainID st) sourceReconcilePageSize out in
      sweep_sources n chainID sts' out'
  end.

Definition sweeperSourceAddresses (n : nat) (chainID : string) : handler (result err (list string)) :=
  let? out := sweep_sources n chainID sweep_statuses [] in
  let? watched := stmt (Watch_ListActive chainID) in
  Done (Ok (fold_left add (active_of WatchFeeWallet watched) out)).

(** ** Startup *)

(** Every source is reconciled, in order; the first failure is fatal. *)
Definition reconcile_sources (chainID : string) (sources : list string) : handler (result err unit) :=
  r_for sources (fun source =>
    let* report := Sequences.ReconcileAccount chainID source in
    Done (match snd report with Some er => Err er | None => Ok tt end)).

Definition startWithdrawals (n : nat) (chainID : string) : handler (result err unit) :=
  let? sources := withdrawalsSourceAddresses n chainID in
  reconcile_sources chainID sources.

Definition startSweeper (n : nat) (chainID : string) : handler (result err unit) :=
  let? sources := sweeperSourceAddresses n chainID in
  reconcile_sources chainID sources.

(** ** The withdrawal pass *)

(** The errors that mean "try again later"; they and the others are logged, at
    most, and the pass goes on. *)
Definition isWithdrawalHold (er : err) : bool :=
  match er with
  | ErrPaused | ErrAwaitingCompliance | ErrSimulationUnavailable | ErrSignerUnavailable | ErrQuarantined
  | ErrStatusConflict => true
  | _ => false
  end.

Definition attempt {A} (p : handler A) : handler unit := let* _ := p in Done tt.

Fixpoint each {A} (l : list A) (f : A -> handler unit) : handler unit :=
  match l with
  | [] => Done tt
  | a :: l' => let* _ := f a in each l' f
  end.

Section workflow.
Context `{X : Ext} (w : Withdrawals.Workflow).
Notation chainID := (Withdrawals.cfg_ChainID (Withdrawals.wf_cfg w)).

Definition steps : list (WithdrawalStatus * (string -> handler unit)) :=
  [(WithdrawalRequested, fun id => attempt (Withdrawals.ValidateAddress w id));
   (WithdrawalComplianceApproved, fun id => attempt (Withdrawals.ReserveFunds w id));
   (WithdrawalFundsReserved, fun id => attempt (Withdrawals.ReserveSequence w id));
   (WithdrawalSequenceReserved, fun id => attempt (Withdrawals.Build w id));
   (WithdrawalTransactionBuilt, fun id => attempt (Withdrawals.Simulate w id));
   (WithdrawalTransactionSimulated, fun id => attempt (Withdrawals.Sign w id));
   (WithdrawalSigned, fun id => attempt (Withdrawals.Broadcast id));
   (WithdrawalBroadcast, fun id => attempt (Withdrawals.Confirm w id));
   (WithdrawalIncluded, fun id => attempt (Withdrawals.Confirm w id))].

(** One status: its first fifty records. *)
Definition drive_status (status : WithdrawalStatus) (step : string -> handler unit) : handler unit :=
  let* recs := stmt (Withdrawals_ListByStatus chainID status 50) in
  match recs with
  | Err _ => Done tt
  | Ok recs => each recs (fun rec => step (w_WithdrawalID rec))
  end.

Definition driveWithdrawals : handler unit := each steps (fun s => drive_status (fst s) (snd s)).

Fixpoint ticks (k : nat) (pass : handler unit) : handler unit :=
  match k with
  | O => Done tt
  | S k' => let* _ := pass in ticks k' pass
  end.

Definition runWithdrawalsService (n k : nat) : handler (result err unit) :=
  let? _ := startWithdrawals n chainID in
  let* _ := ticks k driveWithdrawals in
  Done (Ok tt).
End workflow.

Definition runSweeperService `{X : Ext} (e : Sweeps.Engine) (n k : nat) : handler (result err unit) :=
  let? _ := startSweeper n (Sweeps.cfg_ChainID (Sweeps.en_cfg e)) in
  let* _ := ticks k (attempt (Sweeps.Pass e)) in
  Done (Ok tt).

(** ** Prohibited destinations *)

Section destinations.
Context `{X : Ext}.

Fixpoint prohibit (set : gset string) (configured : list string) : result err (gset string) :=
  match configured with
  | [] => Ok set
  | d :: configured' =>
      let res := Address.ValidateAccountAddress d in
      if negb (Address.vr_Valid res) then Err ErrOther
      else prohibit ({[Address.vr_NormalizedAddress res]} ∪ set) configured'
  end.

Definition resolveProhibitedDestinations (configured : list string) : result err (list string) :=
  match prohibit Address.DefaultProhibitedModuleAccounts configured with
  | Ok set => Ok (order_by String.leb (elements set))
  | Err er => Err er
  end.
End destinations.

End Services.
