(* ===== verification/OutflowSystem.v ===== *)
(** * OutflowSystem: every interleaving of the workers that move money out

    The withdrawal workflow, the sweep engine, the services that drive them,
    the sequence manager, the operator's resolutions and any worker that stays off their three tables
    run concurrently over one database ([Workers.sys_step]), under any
    configurations, with node and signer answering anything and any handler
    stopping at any point.  Account sequences are the resource they compete
    for: each (chain, account, sequence) slot carries at most one signed
    transaction, be it a withdrawal or a sweep, what is signed is what was
    requested, and only signed transactions in the database reach the
    network. *)

From stdpp Require Import base list strings relations.
From Stdlib Require Import ZArith Lia String.
From S2P Require Import Prelude Workers Text Storage Database SqlStore SqlLaws.
From S2P Require Import Hash Chain Tx Fees Sample Sequences Interference Withdrawals.
From S2P Require Import WithdrawalLaws ReviewResolution WithdrawalSystem Sweeps SweepSystem Services.
Import SqlStore SqlLaws Interference WithdrawalLaws ReviewResolution WithdrawalSystem SweepSystem.

Open Scope string_scope.
Open Scope list_scope.
Open Scope Z_scope.

Module OutflowSystem.

Section system.
Context `{X : Ext}.
Local Notation ok := (safe guarantee invariant out_callok).
Local Notation tame := (tame guarantee invariant out_callok).

(** Methods that write neither withdrawals nor reservations nor sweeps. *)
Definition outside_op (o : op) : bool :=
  match o with OpSweepCreate _ | OpSweepStatus _ _ _ _ => false | _ => other_op o end.

(** The programs the workers run: every method of the withdrawal workflow and
    of the sweep engine under any configuration, the services from their
    startup on, the sequence manager, the operator's resolutions, transactions of any other worker over the
    remaining tables, and the clock. *)
Inductive kit : handler unit -> Prop :=
| KSubmit w req : kit (forget (Withdrawals.Submit w req))
| KValidateAddress w id : kit (forget (Withdrawals.ValidateAddress w id))
| KApproveCompliance id : kit (forget (Withdrawals.ApproveCompliance id))
| KReserveFunds w id : kit (forget (Withdrawals.ReserveFunds w id))
| KReserveSequence w id : kit (forget (Withdrawals.ReserveSequence w id))
| KBuild w id : kit (forget (Withdrawals.Build w id))
| KSimulate w id : kit (forget (Withdrawals.Simulate w id))
| KSign w id : kit (forget (Withdrawals.Sign w id))
| KCancel id : kit (forget (Withdrawals.Cancel id))
| KBroadcast id : kit (forget (Withdrawals.Broadcast id))
| KConfirm w id : kit (forget (Withdrawals.Confirm w id))
| KRecover id : kit (forget (Withdrawals.Recover id))
| KPlan e : kit (forget (Sweeps.Plan e))
| KPrepare e id : kit (forget (Sweeps.Prepare e id))
| KRevisit e id : kit (forget (Sweeps.Revisit e id))
| KSweepBroadcast e id : kit (forget (Sweeps.Broadcast e id))
| KSweepConfirm e id : kit (forget (Sweeps.Confirm e id))
| KSweepRecover id : kit (forget (Sweeps.Recover id))
| KPass e : kit (forget (Sweeps.Pass e))
| KWithdrawalsService w n k : kit (forget (Services.runWithdrawalsService w n k))
| KSweeperService e n k : kit (forget (Services.runSweeperService e n k))
| KReconcileAccount chainID source : kit (forget (Sequences.ReconcileAccount chainID source))
| KResolve id o note now : kit (forget (resolveReviewItem id o note now))
| KOther t : forallb outside_op t = true -> kit (forget (atomically (tx_for t exec_op)))
| KTick t : kit (Txn (fun s => (tt, set_now t s)) Done).

Lemma outside_op_both o : outside_op o = true -> preserves (moves guarantee invariant) (exec_op o).
Proof.
  intros Ho. apply both_moves; [apply other_op_moves; by destruct o|].
  destruct o; simpl in *; try done; unfold void, Ledger_Append, Ledger_AppendFeeOutflow,
    Ledger_AppendFeeFundingSpend, Deposits_Insert, Deposits_UpdateStatus, Deposits_GetByID,
    Checkpoints_Set, Watch_Upsert, Watch_SetActive, Controls_Apply, Controls_Get, getControls, Review_Open,
    Review_Resolve, Review_Get, ChainReview_Open, ChainReview_Resolve, ChainReview_Get,
    Recon_SaveReport, Outbox_Enqueue, Outbox_MarkDispatched, fmtTime, require_rows; free_steps.
Qed.

Lemma outside_txs_both t :
  forallb outside_op t = true -> preserves (moves guarantee invariant) (tx_for t exec_op).
Proof.
  induction t as [|o t IH]; simpl; [intros _; apply preserves_ret, _|]. intros [Ho Ht]%andb_true_iff.
  apply preserves_bind; [apply _|by apply outside_op_both|]. intros _. by apply IH.
Qed.

Lemma tick_moves t s : moves guarantee invariant s (set_now t s).
Proof.
  intros [Hok Hsw].
  destruct (same_core_moves s (set_now t s) (set_now_schema t s) ltac:(by destruct s) Hok) as [He Hok'].
  assert (sweep_frame s (set_now t s)) as Hf.
  { destruct s. split; [done|]. intros r id Hr Hw. by exists r. }
  destruct (sweep_frame_moves _ _ Hok Hsw He Hok' Hf). done.
Qed.

Lemma forgets {A} (p : handler A) s : ok p s -> ok (forget p) s.
Proof. apply tame_forget, _. Qed.

(** *** The withdrawal workflow *)

Lemma outflow_ValidateAddress w id : tame (Withdrawals.ValidateAddress w id).
Proof. intros s. apply framed_ok; [apply ValidateAddress_framed | apply ValidateAddress_tame]. Qed.
Lemma outflow_ReserveFunds w id : tame (Withdrawals.ReserveFunds w id).
Proof. intros s. apply framed_ok; [apply ReserveFunds_framed | apply ReserveFunds_tame]. Qed.
Lemma outflow_ReserveSequence w id : tame (Withdrawals.ReserveSequence w id).
Proof. intros s. apply framed_ok; [apply ReserveSequence_framed | apply ReserveSequence_ok]. Qed.
Lemma outflow_Build w id : tame (Withdrawals.Build w id).
Proof. intros s. apply framed_ok; [apply Build_framed | apply Build_tame]. Qed.
Lemma outflow_Simulate w id : tame (Withdrawals.Simulate w id).
Proof. intros s. apply framed_ok; [apply Simulate_framed | apply Simulate_tame]. Qed.
Lemma outflow_Sign w id : tame (Withdrawals.Sign w id).
Proof. intros s. apply framed_ok; [apply Sign_framed | apply Sign_ok]. Qed.
Lemma outflow_Broadcast id : tame (Withdrawals.Broadcast id).
Proof. intros s. apply framed_ok; [apply Broadcast_framed | apply Broadcast_ok]. Qed.
Lemma outflow_Confirm w id : tame (Withdrawals.Confirm w id).
Proof. intros s. apply framed_ok; [apply Confirm_framed | apply Confirm_tame]. Qed.
Lemma outflow_ReconcileAccount chainID source : tame (Sequences.ReconcileAccount chainID source).
Proof. intros s. apply framed_ok; [apply ReconcileAccount_framed | apply ReconcileAccount_tame]. Qed.

(** *** The services *)

(** Their own transactions only read. *)
Local Ltac reads :=
  unfold Withdrawals_ListByStatus, Sweeps_ListByStatus, Watch_ListActive;
  repeat first [ apply select_where_moves; typeclasses eauto | apply preserves_ret; typeclasses eauto
               | apply preserves_bind; [typeclasses eauto| |intros ?] ].
Local Ltac tame_steps := tame_walk ltac:(reads).

Lemma attempt_tame {A} (p : handler A) : tame p -> tame (Services.attempt p).
Proof. intros Hp. unfold Services.attempt. tame_steps. apply Hp. Qed.
Lemma each_tame {A} (l : list A) f : (forall a, tame (f a)) -> tame (Services.each l f).
Proof. intros Hf. induction l as [|a l IH]; simpl; tame_steps; [apply Hf | apply IH]. Qed.
Lemma ticks_tame k p : tame p -> tame (Services.ticks k p).
Proof. intros Hp. induction k as [|k IH]; simpl; tame_steps; [apply Hp | apply IH]. Qed.

Lemma paginateAll_tame {A} n (fetch : Z -> A -> handler (result err (Z * A))) limit acc :
  (forall l a, tame (fetch l a)) -> tame (Services.paginateAll n fetch limit acc).
Proof.
  intros Hf. revert limit acc. induction n as [|n IH]; intros limit acc; simpl; tame_steps; [apply Hf | apply IH].
Qed.
Lemma reconcile_sources_tame chainID l : tame (Services.reconcile_sources chainID l).
Proof. unfold Services.reconcile_sources. tame_steps. apply outflow_ReconcileAccount. Qed.
Lemma startWithdrawals_tame n chainID : tame (Services.startWithdrawals n chainID).
Proof.
  unfold Services.startWithdrawals, Services.withdrawalsSourceAddresses. tame_steps; [|apply reconcile_sources_tame].
  match goal with |- tame (Services.withdrawal_sources _ _ ?l ?o) => generalize o; induction l as [|st sts IH] end;
    intros out; simpl; tame_steps; [|apply IH].
  apply paginateAll_tame. intros. unfold Services.fetch_withdrawals. tame_steps.
Qed.
Lemma startSweeper_tame n chainID : tame (Services.startSweeper n chainID).
Proof.
  unfold Services.startSweeper, Services.sweeperSourceAddresses. tame_steps; [|apply reconcile_sources_tame].
  match goal with |- tame (Services.sweep_sources _ _ ?l ?o) => generalize o; induction l as [|st sts IH] end;
    intros out; simpl; tame_steps; [|apply IH].
  apply paginateAll_tame. intros. unfold Services.fetch_sweeps. tame_steps.
Qed.

Lemma driveWithdrawals_tame w : tame (Services.driveWithdrawals w).
Proof.
  assert (Forall (fun st => forall id, tame (snd st id)) (Services.steps w)) as Hs.
  { unfold Services.steps. repeat (apply Forall_cons; split); cbn [snd]; [..|by apply Forall_nil];
      intros id; apply attempt_tame;
      eauto using outflow_ValidateAddress, outflow_ReserveFunds, outflow_ReserveSequence, outflow_Build,
        outflow_Simulate, outflow_Sign, outflow_Broadcast, outflow_Confirm. }
  unfold Services.driveWithdrawals. induction Hs as [|[st step] l Hst _ IH]; cbn [Services.each]; tame_steps; [|apply IH].
  unfold Services.drive_status. tame_steps. apply each_tame. intros rec. apply Hst.
Qed.

Lemma kit_safe p s : kit p -> invariant s -> ok p s.
Proof.
  intros Hp _. destruct Hp; try apply forgets.
  - apply framed_ok; [apply Submit_framed | apply Submit_tame].
  - apply outflow_ValidateAddress.
  - apply framed_ok; [apply ApproveCompliance_framed | apply ApproveCompliance_tame].
  - apply outflow_ReserveFunds.
  - apply outflow_ReserveSequence.
  - apply outflow_Build.
  - apply outflow_Simulate.
  - apply outflow_Sign.
  - apply framed_ok; [apply Cancel_framed | apply Cancel_tame].
  - apply outflow_Broadcast.
  - apply outflow_Confirm.
  - apply framed_ok; [apply Recover_framed | apply Recover_ok].
  - apply Plan_tame.
  - apply Prepare_ok.
  - apply Revisit_tame.
  - apply sweep_Broadcast_ok.
  - apply sweep_Confirm_tame.
  - apply sweep_Recover_ok.
  - apply Pass_tame.
  - revert s. change (tame (Services.runWithdrawalsService w n k)).
    unfold Services.runWithdrawalsService.
    tame_steps; [apply startWithdrawals_tame | apply ticks_tame, driveWithdrawals_tame].
  - revert s. change (tame (Services.runSweeperService e n k)). unfold Services.runSweeperService.
    tame_steps; [apply startSweeper_tame | apply ticks_tame, attempt_tame, Pass_tame].
  - apply outflow_ReconcileAccount.
  - apply framed_ok; [apply resolveReviewItem_framed | apply resolveReviewItem_tame].
  - apply tame_atomically; [apply _|]. by apply outside_txs_both.
  - intros s1 _ Hs1. by destruct (tick_moves t s1 Hs1).
Qed.

(** ** Signed transactions *)

(** The signed transactions of a database, by slot, bytes and work item; [q]
    gives the sequences of the signed sweeps. *)
Inductive signed_tx (q : string -> Z) (s : Store) : string * string * Z -> bytes -> WorkRef -> Prop :=
| signed_withdrawal x k :
    x ∈ st_withdrawals s -> signed x -> slot_of x = Some k ->
    signed_tx q s k (w_SignedTxBytes x) (Withdrawals.withdrawal_ref (w_WithdrawalID x))
| signed_sweep j k :
    j ∈ st_sweeps s -> sweep_signed j -> sweep_slot q j = Some k ->
    signed_tx q s k (j_SignedTxBytes j) (Sweeps.sweep_ref (j_SweepID j)).

(** The bytes of a work item's transaction transfer exactly what its record
    asks for, at the slot's sequence. *)
Definition as_requested (s : Store) (k : string * string * Z) (bz : bytes) (w : WorkRef) : Prop :=
  let '(chainID, source, n) := k in
  match ref_Kind w with
  | WorkWithdrawal => exists x, x ∈ st_withdrawals s /\ w_WithdrawalID x = ref_ID w /\
      Tx.signed_transfer bz chainID source (w_DestinationAddress x) (Tx.FormatUint (w_AmountBaseUnits x))
        (w_Memo x) n
  | WorkSweep => exists j, j ∈ st_sweeps s /\ j_SweepID j = ref_ID w /\
      Tx.signed_transfer bz chainID source (j_HotWalletAddress j) (Tx.int_String (j_AmountBaseUnits j)) "" n
  end.

Section invariant_facts.
Context (q : string -> Z) (s : Store).
Hypothesis Hok : signing_ok s.
Hypothesis Hq : sweep_signing q s.

Lemma signed_tx_once k b b' w w' : signed_tx q s k b w -> signed_tx q s k b' w' -> b = b' /\ w = w'.
Proof.
  intros [x k1 Hx Sx Kx|j k1 Hj Sj Kj] H2; inversion H2 as [y k2 Hy Sy Ky|l k2 Hl Sl Kl]; subst.
  - rewrite (sg_once s Hok x y); [done..|congruence].
  - destruct (ss_cross q s Hq x l Hx Hl Sx Sl). congruence.
  - destruct (ss_cross q s Hq y j Hy Hj Sy Sj). congruence.
  - rewrite (ss_once q s Hq j l); [done..|congruence].
Qed.

Lemma signed_tx_spent k b w :
  signed_tx q s k b w -> exists r, r ∈ st_sequences s /\ slot_key r = Some k /\ spent r.
Proof.
  intros [x k1 Hx Sx Kx|j k1 Hj Sj Kj].
  - destruct (sg_slot s Hok x Hx Sx) as (r & Hr & Hsp & Hk). exists r. split_and!; congruence.
  - destruct (ss_slot q s Hq j Hj Sj) as (r & Hr & Hsp & Hk). exists r. split_and!; congruence.
Qed.

Lemma signed_tx_requested k b w : signed_tx q s k b w -> as_requested s k b w.
Proof.
  intros [x k1 Hx Sx Kx|j k1 Hj Sj Kj].
  - destruct (sg_transfer s Hok x Hx Sx) as (n & Hn & Ht). unfold slot_of in Kx. rewrite Hn in Kx.
    injection Kx as <-. by exists x.
  - pose proof (ss_transfer q s Hq j Hj Sj) as Ht. injection Kj as <-. by exists j.
Qed.

Lemma signed_tx_withdrawal x :
  x ∈ st_withdrawals s -> signed x ->
  exists k, signed_tx q s k (w_SignedTxBytes x) (Withdrawals.withdrawal_ref (w_WithdrawalID x)).
Proof.
  intros Hx Sx. destruct (sg_transfer s Hok x Hx Sx) as (n & Hn & _).
  exists (w_ChainID x, w_SourceAddress x, n). apply signed_withdrawal; [done..|]. unfold slot_of. by rewrite Hn.
Qed.
End invariant_facts.

Notation start t := (System (empty_store t) [] []).

(** C1: at most one signed transaction per sequence slot.  In every state
    reachable from an empty database by any interleaving of any number of
    workers, with arbitrary answers of node and signer and crashes anywhere,
    the sequences at which the sweeps were signed can be given such that two
    signed transactions on the same chain, account and sequence, withdrawals
    or sweeps, are the same transaction of the same work item; the slot of a
    signed transaction is never up for reservation; the bytes transfer exactly
    what the record of the work item asks for, from the slot's account at the
    slot's sequence; and every transaction that was handed to the network is
    one of the signed transactions in the database. *)
Theorem one_signature_per_slot (t : Z) (y : system)
    (H : rtc (sys_step kit) (start t) y) :
  exists q,
    (forall k b b' w w', signed_tx q (sys_db y) k b w -> signed_tx q (sys_db y) k b' w' ->
       b = b' /\ w = w') /\
    (forall k b w, signed_tx q (sys_db y) k b w ->
       as_requested (sys_db y) k b w /\
       exists r, r ∈ st_sequences (sys_db y) /\ slot_key r = Some k /\
         r_Status r <> SequenceReserved /\ r_Status r <> SequenceReleased) /\
    (forall bz mode, existT _ (CBroadcast bz mode) ∈ sys_calls y ->
       exists k w, signed_tx q (sys_db y) k bz w).
Proof.
  destruct (sys_safe guarantee invariant out_callok kit kit_safe _ _ (empty_invariant t) H)
    as ([Hok [q Hq]] & _ & _).
  pose proof (sys_calls_ok guarantee invariant out_callok kit kit_safe out_callok_stable _ _
    (empty_invariant t) H) as Hcalls.
  exists q. split_and!.
  - apply signed_tx_once; done.
  - intros k b w Hb. split; [by eapply signed_tx_requested|].
    destruct (signed_tx_spent q (sys_db y) Hok Hq k b w Hb) as (r & Hr & Hk & Hsp).
    exists r. split_and!; [done..| |]; intros E; unfold spent in Hsp; by rewrite E in Hsp.
  - intros bz mode Hc. unfold calls_ok in Hcalls. rewrite Forall_forall in Hcalls.
    destruct (Hcalls _ Hc) as [(x & Hx & Sx & <-)|(j & Hj & Sj & <-)].
    + edestruct signed_tx_withdrawal as [k Hk]; eauto.
    + exists (j_ChainID j, j_SourceAddress j, q (j_SweepID j)). eexists. by apply signed_sweep.
Qed.

(** C8: a signed transaction never changes.  From any reachable state, along
    any further interleaving, a signed withdrawal keeps its request, its
    bytes, its hash and its sequence; a signed sweep keeps its account, hot
    wallet, amount, bytes and hash; and a reservation slot that left the
    pre-sign statuses never returns to them. *)
Theorem signed_is_final (t : Z) (y y' : system)
    (H : rtc (sys_step kit) (start t) y) (H' : rtc (sys_step kit) y y') :
  (forall x, x ∈ st_withdrawals (sys_db y) -> signed x ->
     exists x', x' ∈ st_withdrawals (sys_db y') /\ request_of x' = request_of x /\
       w_SignedTxBytes x' = w_SignedTxBytes x /\ w_TxHash x' = w_TxHash x /\
       w_Sequence x' = w_Sequence x) /\
  (forall j, j ∈ st_sweeps (sys_db y) -> sweep_signed j ->
     exists j', j' ∈ st_sweeps (sys_db y') /\ job_of j' = job_of j /\
       j_SignedTxBytes j' = j_SignedTxBytes j /\ j_TxHash j' = j_TxHash j) /\
  (forall r, r ∈ st_sequences (sys_db y) -> spent r ->
     exists r', r' ∈ st_sequences (sys_db y') /\ slot_key r' = slot_key r /\ spent r').
Proof.
  pose proof (sys_safe guarantee invariant out_callok kit kit_safe _ _ (empty_invariant t) H)
    as (Hok & _ & Hpool).
  destruct (sys_extends guarantee invariant out_callok kit kit_safe y y' Hok Hpool H') as [Hev Hsw].
  destruct Hok as [Hok _]. split_and!.
  - intros x Hx Hs. destruct (ev_withdrawals _ _ Hev x Hx) as (x' & Hx' & Hreq & Hl & Hb).
    assert (early (w_Status x) = false) as Hne.
    { apply not_true_iff_false. intros He. apply Hs, (sg_presign _ Hok x Hx). by apply early_presign. }
    destruct (Hl Hne), (Hb Hs). eauto 10.
  - intros j Hj Hs. destruct (Hsw j Hj) as (j' & Hj' & Hjob & Hb). destruct (Hb Hs). eauto 10.
  - intros r Hr Hsp. destruct (ev_sequences _ _ Hev r Hr) as (r' & Hr' & _ & Hk & Hs'). eauto.
Qed.
End system.

(** ** A withdrawal and a sweep from the same account *)

Definition ex_world : answers :=
  MkAnswers (Ok (7, 5)) (Err ErrClientNotFound) (Ok (MkBroadcast "AB" 0 "" true)) (Ok 5000)
    (Ok (MkSimulate 80000 80000)) (Ok (MkNodeStatus "sovr-1" 100 false)) (Ok Sample.key)
    (Ok (MkSigningResponse "sovr1src" (repeat Byte.x01 64) Sample.key)) 0.

Definition ex_sweep_config : Sweeps.Config :=
  Sweeps.MkConfig "sovr-1" StrategyThresholdOnly "sovr1dst" "100" "5" "0" "" 0 "1.5" "0.001"
    (Some Sweeps.SimulateQueue) 200000 0 2 None.
Definition ex_engine : Sweeps.Engine :=
  match Sweeps.New (X := Sample.sample) true ex_sweep_config with
  | Ok e => e
  | Err _ => Sweeps.MkEngine ex_sweep_config (Sweeps.MkParsed 0 (Fees.MkDecimal 0 1) 0 0
               (Fees.MkDecimal 0 1) (Fees.MkDecimal 0 1)) true
  end.
Definition ex_sweep_id : string :=
  Sweeps.sweepIDFor (Sweeps.IdempotencyKey "sovr-1" "sovr1src" 5000 100).

Definition ex_steps : list (handler unit) :=
  let w := ex_workflow in
  [forget (atomically (tx_for [OpWatchUpsert (MkWatched "sovr-1" "sovr1src" WatchOmnibus "" false true)] exec_op));
   forget (Withdrawals.Submit (X := Sample.sample) w ex_request);
   forget (Withdrawals.ValidateAddress (X := Sample.sample) w "w1");
   forget (Withdrawals.ApproveCompliance "w1");
   forget (Withdrawals.ReserveFunds w "w1"); forget (Withdrawals.ReserveSequence w "w1");
   forget (Withdrawals.Build (X := Sample.sample) w "w1");
   forget (Sweeps.Pass (X := Sample.sample) ex_engine);
   forget (Withdrawals.Simulate (X := Sample.sample) w "w1");
   forget (Withdrawals.Sign (X := Sample.sample) w "w1");
   forget (Withdrawals.Broadcast "w1")].

(** The handlers one after the other. *)
Definition run_one (y : system (S := Store) (C := call)) (p : handler unit) : system :=
  let r := run (answering ex_world) p (sys_db y) in
  System (o_state r) (Done (o_value r) :: sys_pool y) (sys_calls y ++ o_calls r).
Definition ex_start : system (S := Store) (C := call) := System (empty_store 9) [] [].
Definition ex_end : system (S := Store) (C := call) := fold_left run_one ex_steps ex_start.

Lemma run_one_reachable (ps : list (handler unit)) y0 y :
  Forall (kit (X := Sample.sample)) ps -> rtc (sys_step (kit (X := Sample.sample))) y0 y ->
  rtc (sys_step (kit (X := Sample.sample))) y0 (fold_left run_one ps y).
Proof.
  intros Hps. revert y. induction Hps as [|p ps Hp _ IH]; intros y Hy; simpl; [done|].
  apply IH. etransitivity; [exact Hy|]. destruct y as [s pool cs]. by apply (run_sys _ (answering ex_world)).
Qed.

Lemma ex_steps_kit : Forall (kit (X := Sample.sample)) ex_steps.
Proof. constructor; [by apply KOther|]. repeat (constructor; [constructor|]). constructor. Qed.

Lemma ex_end_reachable : rtc (sys_step (kit (X := Sample.sample))) ex_start ex_end.
Proof. apply run_one_reachable; [apply ex_steps_kit | constructor]. Qed.

Definition broadcast_of (c : { T : Type & call T }) : list bytes :=
  match projT2 c with CBroadcast bz _ => [bz] | _ => [] end.
Lemma broadcasts_are (calls : list { T : Type & call T }) (P : bytes -> Prop) :
  (forall bz mode, existT _ (CBroadcast bz mode) ∈ calls -> P bz) ->
  forall b, b ∈ flat_map broadcast_of calls -> P b.
Proof.
  intros H b Hb. apply list_elem_of_In, List.in_flat_map in Hb as ([T c] & Hc & Hb).
  destruct c; simpl in Hb; try contradiction. destruct Hb as [<-|[]].
  apply (H txBytes mode). by apply list_elem_of_In.
Qed.
Definition ex_bytes : list bytes := flat_map broadcast_of (sys_calls ex_end).

(** The sweep was signed and broadcast at sequence 6 while the withdrawal held
    sequence 5, and the withdrawal after it. *)
Lemma ex_end_state :
  map w_Status (st_withdrawals (sys_db ex_end)) = [WithdrawalBroadcast] /\
  map w_Sequence (st_withdrawals (sys_db ex_end)) = [Some 5] /\
  map (fun r => (r_Sequence r, r_Status r)) (st_sequences (sys_db ex_end))
    = [(5, SequenceBroadcast); (6, SequenceBroadcast)] /\
  map (fun j => (j_SweepID j, j_AmountBaseUnits j, j_Status j)) (st_sweeps (sys_db ex_end))
    = [(ex_sweep_id, 4880, SweepBroadcast)] /\
  ex_bytes = map j_SignedTxBytes (st_sweeps (sys_db ex_end)) ++
             map w_SignedTxBytes (st_withdrawals (sys_db ex_end)).
Proof. vm_compute. auto 6. Qed.

Lemma one_signature_per_slot_witness :
  List.length ex_bytes = 2%nat /\
  exists q, forall b, b ∈ ex_bytes -> exists k w, signed_tx q (sys_db ex_end) k b w.
Proof.
  split; [vm_compute; reflexivity|].
  destruct (one_signature_per_slot (X := Sample.sample) 9 ex_end ex_end_reachable) as (q & _ & _ & H).
  exists q. exact (broadcasts_are (sys_calls ex_end) _ H).
Defined.

Lemma signed_is_final_witness :
  exists r', r' ∈ st_sequences (sys_db ex_end) /\ slot_key r' = Some ("sovr-1", "sovr1src", 5) /\ spent r'.
Proof.
  pose proof (proj2 (proj2 (signed_is_final (X := Sample.sample) 9 ex_end ex_end ex_end_reachable
    (rtc_refl _ ex_end)))) as H.
  apply (H (MkReservation 1 "sovr-1" "sovr1src" 7 5 (MkWorkRef WorkWithdrawal "w1") SequenceBroadcast 9 9)).
  - apply (list_elem_of_lookup_2 (st_sequences (sys_db ex_end)) 0). vm_compute. reflexivity.
  - reflexivity.
Defined.

End OutflowSystem.
