(* ===== verification/ServiceLaws.v ===== *)
(** * ServiceLaws: starting a service

    Discovery ends and finds every account with work in one of the statuses it
    asks for, whatever the other workers do meanwhile; a service that starts
    has reconciled all of them.  That its passes are safe is part of
    [OutflowSystem]. *)

From stdpp Require Import base list strings relations gmap.
From Stdlib Require Import ZArith Lia String.
From S2P Require Import Prelude Workers Text Storage Database SqlStore SqlLaws Hash Chain Tx Fees Sample.
From S2P Require Import Sequences Interference Journals Withdrawals WithdrawalLaws WithdrawalSystem Services OutflowSystem.
Import SqlStore SqlLaws Interference WithdrawalLaws Services.

Open Scope string_scope.
Open Scope list_scope.
Open Scope Z_scope.

Module ServiceLaws.

(** ** Collecting *)

Lemma elem_of_add out a x : x ∈ add out a <-> x ∈ out \/ (x = a /\ a <> "").
Proof.
  unfold add, empty. case_bool_decide as He; simpl; [naive_solver|]. case_bool_decide as Hin; [naive_solver|].
  rewrite elem_of_app, list_elem_of_singleton. naive_solver.
Qed.
Lemma add_nodup out a : NoDup out -> NoDup (add out a).
Proof.
  intros Hn. unfold add. destruct (empty a); simpl; [done|]. case_bool_decide as Hin; [done|].
  apply NoDup_app. split_and!; [done| |apply NoDup_singleton]. intros x Hx Hy%list_elem_of_singleton. by subst.
Qed.
Lemma elem_of_adds l : forall out x, x ∈ fold_left add l out <-> x ∈ out \/ (x ∈ l /\ x <> "").
Proof.
  induction l as [|a l IH]; intros out x; simpl; [set_solver|]. rewrite IH, elem_of_add. set_solver.
Qed.
Lemma adds_nodup l : forall out, NoDup out -> NoDup (fold_left add l out).
Proof. induction l as [|a l IH]; intros out Hn; simpl; [done|]. by apply IH, add_nodup. Qed.

(** ** Paging with a growing limit *)

Section paging.
Context {Row : Type} (rows : Store -> list Row) (source : Row -> string) (R : Store -> Store -> Prop).
Context (fetch : Z -> list string -> handler (result err (Z * list string))).

(** A batch is read in one state, and is the whole queue when it is short. *)
Definition reads_batches : Prop := forall limit out s tr res s',
  0 < limit -> exec R (fetch limit out) s tr res s' ->
  tr = [] /\ R s s' /\ exists batch, batch ⊆ rows s' /\
    Z.of_nat (List.length batch) = Z.min limit (Z.of_nat (List.length (rows s'))) /\
    (Z.of_nat (List.length batch) < limit -> rows s' ⊆ batch) /\
    res = Ok (Z.of_nat (List.length batch), fold_left add (map source batch) out).

(** The result holds the sources of all rows of the last state, and only
    sources of rows that were there. *)
Lemma paginate_complete n : reads_batches -> forall limit out s tr res s',
  0 < limit -> exec R (paginateAll n fetch limit out) s tr res s' ->
  tr = [] /\ rtc R s s' /\
  ((exists out', res = Ok out' /\ (NoDup out -> NoDup out') /\ out ⊆ out' /\
      forall r, r ∈ rows s' -> source r <> "" -> source r ∈ out') \/
   (res = Err OutOfFuel /\ ((n = 0%nat /\ s' = s) \/ limit + 500 * (Z.of_nat n - 1) <= Z.of_nat (List.length (rows s'))))).
Proof.
  intros Hf. induction n as [|n IH]; intros limit out s tr res s' Hl H; cbn [paginateAll] in H.
  { inv_exec H. split_and!; [done..|]. right. auto. }
  unfold r_bind in H. apply exec_bind in H as (a & s1 & t1 & t2 & -> & Hx & H).
  destruct (Hf limit out s t1 a s1 Hl Hx) as (-> & Hstep & batch & _ & Hlen & Hall & ->). cbn beta iota in H.
  destruct (Z.ltb_spec (Z.of_nat (List.length batch)) limit) as [Hlt|Hge].
  - inv_exec H. split_and!; [done|by apply rtc_once|]. left. eexists. split_and!; [done|apply adds_nodup| |].
    + intros x Hx'. apply elem_of_adds. by left.
    + intros r Hr Hne. apply elem_of_adds. right. split; [|done]. apply list_elem_of_fmap. exists r. split; [done|].
      by apply Hall.
  - apply IH in H as (-> & Hr & H); [|unfold sourceReconcilePageSize; lia]. split_and!; [done|by eapply rtc_l|].
    destruct H as [(out' & -> & Hn & Hsub & Hin)|(-> & H)].
    + left. exists out'. split_and!; [done| | |done].
      * intros Ho. by apply Hn, adds_nodup.
      * intros x Hx'. apply Hsub, elem_of_adds. by left.
    + right. split; [done|]. right. destruct H as [[-> ->]|H]; [lia|]. unfold sourceReconcilePageSize in H. lia.
Qed.
End paging.

Lemma limit_take {A} n (l : list A) : 0 < n -> limit n l = take (Z.to_nat n) l.
Proof. intros Hn. unfold limit. by rewrite (proj2 (Z.ltb_lt _ _)). Qed.

(** A limited, ordered query is a batch. *)
Lemma batch_of {A} n (l l' : list A) :
  0 < n -> l ≡ₚ l' ->
  limit n l ⊆ l' /\ Z.of_nat (List.length (limit n l)) = Z.min n (Z.of_nat (List.length l')) /\
  (Z.of_nat (List.length (limit n l)) < n -> l' ⊆ limit n l).
Proof.
  intros Hn Hp. rewrite limit_take by done. rewrite length_take. rewrite <-(Permutation_length Hp).
  split_and!; [|lia|].
  - intros x Hx. rewrite <-Hp. rewrite <-(take_drop (Z.to_nat n) l). apply elem_of_app. by left.
  - intros Hlt x Hx. rewrite <-Hp in Hx. by rewrite take_ge by lia.
Qed.

(** ** Withdrawals *)

Section withdrawals.
Context (R : Store -> Store -> Prop) (HR : forall s s', R s s' -> interference s s').

Definition queue (chainID : string) (st : WithdrawalStatus) (s : Store) : list WithdrawalRecord :=
  List.filter (fun w => bool_decide (w_ChainID w = chainID) && bool_decide (w_Status w = st)) (st_withdrawals s).

Lemma elem_of_queue chainID st s x :
  x ∈ queue chainID st s <-> x ∈ st_withdrawals s /\ w_ChainID x = chainID /\ w_Status x = st.
Proof.
  unfold queue. rewrite !list_elem_of_In, List.filter_In, andb_true_iff, !bool_decide_eq_true. naive_solver.
Qed.

Lemma fetch_withdrawals_batches chainID st :
  reads_batches (queue chainID st) w_SourceAddress R (fetch_withdrawals chainID st).
Proof.
  intros n out s tr res s' Hn H. unfold fetch_withdrawals, r_bind in H.
  apply exec_bind in H as (a & s1 & t1 & t2 & -> & Hx & H). apply exec_stmt in Hx as (-> & s0 & Hstep & Hx).
  injection Hx as <- <-. inv_exec H. split_and!; [done..|].
  match type of H with context [limit n (order_by ?le ?l)] => destruct (batch_of n (order_by le l) (queue chainID st s0) Hn) as (B1 & B2 & B3) end.
  { apply order_by_perm. }
  eexists. split_and!; [exact B1|exact B2|exact B3|done].
Qed.

(** Withdrawals are never deleted. *)
Lemma withdrawals_monotone s s' :
  interference s s' -> schema_ok s -> (List.length (st_withdrawals s) <= List.length (st_withdrawals s'))%nat.
Proof.
  intros Hi Hs. rewrite <-(length_map w_WithdrawalID (st_withdrawals s)), <-(length_map w_WithdrawalID (st_withdrawals s')).
  destruct (so_withdrawals s Hs) as (Hu & _).
  apply List.NoDup_incl_length.
  - apply NoDup_ListNoDup, NoDup_alt. intros i k id Hi' Hk. rewrite list_lookup_fmap in Hi', Hk.
    destruct (st_withdrawals s !! i) as [a|] eqn:Ea; [|done]. destruct (st_withdrawals s !! k) as [b|] eqn:Eb; [|done].
    simpl in Hi', Hk. injection Hi' as Ei. injection Hk as Ek.
    eapply (Hu i k a b id); [done..| |]; unfold withdrawal_id_key; congruence.
  - intros id (x & <- & Hx)%in_map_iff. apply list_elem_of_In in Hx.
    destruct (interference_persists s s' Hi x Hx) as (x' & Hx' & E). apply in_map_iff. exists x'.
    split; [|by apply list_elem_of_In]. unfold request_of in E. congruence.
Qed.

Lemma queue_short chainID st s : (List.length (queue chainID st s) <= List.length (st_withdrawals s))%nat.
Proof. apply filter_length_le. Qed.

Lemma rtc_interference s s' : rtc R s s' -> interference s s'.
Proof. induction 1 as [|s s1 s2 H _ IH]; [apply interference_refl|]. etransitivity; [by apply HR|exact IH]. Qed.

(** Some moment between [s] and [s'] at which [P]. *)
Definition sometime (s s' : Store) (P : Store -> Prop) : Prop := exists s1, rtc R s s1 /\ rtc R s1 s' /\ P s1.

Lemma sometime_extend s s0 s' s'' P : rtc R s s0 -> rtc R s' s'' -> sometime s0 s' P -> sometime s s'' P.
Proof. intros H1 H2 (s1 & H3 & H4 & HP). exists s1. split_and!; [by etransitivity..|done]. Qed.

Definition found_all (chainID : string) (st : WithdrawalStatus) (out : list string) (s : Store) : Prop :=
  forall x, x ∈ st_withdrawals s -> w_ChainID x = chainID -> w_Status x = st -> w_SourceAddress x <> "" ->
    w_SourceAddress x ∈ out.

Lemma withdrawal_sources_complete n chainID sts : forall out s tr res s',
  schema_ok s -> exec R (withdrawal_sources n chainID sts out) s tr res s' ->
  Z.of_nat (List.length (st_withdrawals s')) < sourceReconcilePageSize * Z.of_nat n ->
  exists out', res = Ok out' /\ tr = [] /\ rtc R s s' /\ (NoDup out -> NoDup out') /\ out ⊆ out' /\
    forall st, st ∈ sts -> sometime s s' (found_all chainID st out').
Proof.
  induction sts as [|st sts IH]; intros out s tr res s' Hs H Hn; cbn [withdrawal_sources] in H.
  { inv_exec H. exists out. split_and!; try done. by intros st Hst%elem_of_nil. }
  unfold r_bind in H. apply exec_bind in H as (a & s1 & t1 & t2 & -> & Hx & H).
  destruct (paginate_complete (queue chainID st) w_SourceAddress R (fetch_withdrawals chainID st) n
    (fetch_withdrawals_batches chainID st) sourceReconcilePageSize out s t1 a s1 ltac:(done) Hx) as (-> & Hr & Hres).
  pose proof (interference_schema s s1 (rtc_interference s s1 Hr) Hs) as Hs1.
  destruct Hres as [(out1 & -> & Hnd & Hsub & Hall)|(-> & Hfull)].
  - destruct (IH out1 s1 t2 res s' Hs1 H Hn) as (out' & -> & -> & Hr' & Hnd' & Hsub' & Hall').
    exists out'. split_and!; try done; [by etransitivity|auto|set_solver|].
    intros st' [->|Hst]%elem_of_cons.
    + exists s1. split_and!; [done..|]. intros x Hx1 Hc Ht Hne. apply Hsub', Hall; [|done]. by apply elem_of_queue.
    + eapply sometime_extend; [exact Hr|reflexivity|by apply Hall'].
  - exfalso. inv_exec H. pose proof (queue_short chainID st s1). unfold sourceReconcilePageSize in *.
    destruct Hfull as [[-> _]|Hfull]; lia.
Qed.

(** Source discovery is complete.  Whatever the other workers do, with
    enough batches for the withdrawals there are at the end, discovery ends
    without an error and without asking the chain anything, with a list
    without repetitions that holds every active hot wallet and, for each
    status it asks for, the source of every withdrawal that had that status
    at the moment its queue was read to the end. *)
Theorem discovery_complete (n : nat) (chainID : string) (s s' : Store) (tr : trace)
    (res : result err (list string))
    (Hs : schema_ok s) (H : exec R (withdrawalsSourceAddresses n chainID) s tr res s')
    (Hn : Z.of_nat (List.length (st_withdrawals s')) < sourceReconcilePageSize * Z.of_nat n) :
  exists out, res = Ok out /\ tr = [] /\ NoDup out /\
    sometime s s' (fun s1 => forall w, w ∈ st_watched s1 -> wa_ChainID w = chainID -> wa_Active w = true ->
      wa_Kind w = WatchHotWallet -> wa_Address w <> "" -> wa_Address w ∈ out) /\
    (forall st, st ∈ withdrawal_statuses -> sometime s s' (found_all chainID st out)).
Proof.
  unfold withdrawalsSourceAddresses, r_bind in H. apply exec_bind in H as (a & s1 & t1 & t2 & -> & Hx & H).
  apply exec_stmt in Hx as (-> & s0 & Hstep & Hx). injection Hx as <- <-.
  pose proof (interference_schema s s0 (HR _ _ Hstep) Hs) as Hs0.
  apply withdrawal_sources_complete in H as (out & -> & -> & Hr & Hnd & Hsub & Hall); [|done..].
  exists out. split_and!; [done..| | |].
  - apply Hnd, adds_nodup. constructor.
  - exists s0. split_and!; [by apply rtc_once|done|]. intros w Hw Hc Ha Hk Hne. apply Hsub, elem_of_adds. right.
    split; [|done]. apply list_elem_of_fmap. exists w. split; [done|].
    apply list_elem_of_In, List.filter_In. rewrite Hk. split; [|done].
    apply list_elem_of_In, elem_of_order_by, list_elem_of_In, List.filter_In.
    rewrite Hc, Ha, bool_decide_eq_true_2 by done. split; [by apply list_elem_of_In|done].
  - intros st Hst. eapply sometime_extend; [by apply rtc_once|reflexivity|by apply Hall].
Qed.
End withdrawals.

(** ** Starting *)

(** A service that starts has reconciled every account it found, one after the
    other, each without an error. *)
Lemma startup_total (R : Store -> Store -> Prop) chainID sources : forall s tr s',
  exec R (reconcile_sources chainID sources) s tr (Ok tt) s' ->
  Forall (fun source => exists s1 tr1 report s2,
    exec R (Sequences.ReconcileAccount chainID source) s1 tr1 (report, None) s2) sources.
Proof.
  induction sources as [|a l IH]; intros s tr s' H; [done|].
  apply exec_r_bind_ok in H as ([] & s1 & t1 & t2 & -> & H1 & H).
  apply exec_bind in H1 as ([report o] & s2 & t3 & t4 & -> & Hrec & H1). inv_exec H1.
  destruct o; [done|]. constructor; [eauto 10|]. by eapply IH.
Qed.

(** ** Examples *)

Lemma discovery_complete_witness :
  exists out, o_value (run (answering no_answers) (withdrawalsSourceAddresses 1 "sovr-1")
    (ex_w_store (ex_withdrawal WithdrawalBroadcast))) = Ok out /\ "sovr1src" ∈ out.
Proof.
  pose (s := ex_w_store (ex_withdrawal WithdrawalBroadcast)).
  destruct (run_exec eq (answering no_answers) (withdrawalsSourceAddresses 1 "sovr-1") s) as [tr H].
  destruct (discovery_complete eq eq_interference 1 "sovr-1" s _ tr _ (ex_w_schema _) H ltac:(vm_compute; reflexivity))
    as (out & E & _ & _ & _ & Hall).
  exists out. split; [exact E|].
  destruct (Hall WithdrawalBroadcast ltac:(vm_compute; tauto || set_solver)) as (s1 & Hr & _ & Hf).
  assert (s = s1) as <- by (clear -Hr; induction Hr; [done|by subst]).
  apply (Hf (ex_withdrawal WithdrawalBroadcast)); [by left|done..].
Defined.

(** INCLUDED is not among the statuses asked for: an account whose only work
    waits for confirmations is not reconciled unless it is a hot wallet. *)
Lemma discovery_misses_included :
  o_value (run (answering no_answers) (withdrawalsSourceAddresses 1 "sovr-1")
    (ex_w_store (ex_withdrawal WithdrawalIncluded))) = Ok [].
Proof. vm_compute. reflexivity. Qed.

(** A pass takes a record through every step that is possible: the statuses
    are visited in workflow order, so the record is met again after each. *)
Lemma drive_several_steps :
  map w_Status (st_withdrawals (o_state (run (answering OutflowSystem.ex_world)
    (driveWithdrawals (X := Sample.sample) ex_workflow) (ex_w_store (ex_withdrawal WithdrawalComplianceApproved)))))
  = [WithdrawalBroadcast].
Proof. vm_compute. reflexivity. Qed.

(** Fifty withdrawals the balance does not cover, and one, later, that it
    would. *)
Definition ex_queued (i : nat) (amount created : Z) : WithdrawalRecord :=
  MkWithdrawal ("w" ++ Tx.FormatUint (Z.of_nat i)) ("k" ++ Tx.FormatUint (Z.of_nat i)) "sovr-1" "sovr1src" "sovr1dst"
    BaseDenom amount "memo" None None None None None SignModeDirect [] None None None "" WithdrawalComplianceApproved created created.
Definition ex_backlog : Store :=
  set_rows (map (fun i => ex_queued i 100000 5) (seq 0 50) ++ [ex_queued 50 1500 6]) (empty_store 9).

(** However often the service ticks, the last one is never tried. *)
Lemma drive_starves k :
  o_state (run (answering OutflowSystem.ex_world) (ticks k (driveWithdrawals (X := Sample.sample) ex_workflow)) ex_backlog)
  = ex_backlog.
Proof.
  assert (o_state (run (answering OutflowSystem.ex_world) (driveWithdrawals (X := Sample.sample) ex_workflow) ex_backlog)
    = ex_backlog) as E by (vm_compute; reflexivity).
  induction k as [|k IH]; [done|]. cbn [ticks]. rewrite run_bind. cbn [o_state]. by rewrite E.
Qed.

End ServiceLaws.
