(* ===== verification/SweepLaws.v ===== *)
(** * SweepLaws: what the sweep engine does

    A constructor that succeeds returns a well-formed engine.  Planning ends
    with a sweep that its own preparation accepts; the fee-wallet cap is
    checked against everything committed at one moment; a confirmed sweep
    settles its deposits, its reservation and its spend record
    in one transaction.  The theorems are about executions under interference
    of the other workers, as in [WithdrawalLaws]. *)

From stdpp Require Import base list strings relations.
From Stdlib Require Import ZArith Lia String.
From S2P Require Import Prelude Workers Text Storage Database SqlStore SqlLaws.
From S2P Require Import Hash Chain Tx Fees Sample Sequences Interference Journals Withdrawals.
From S2P Require Import WithdrawalLaws WithdrawalSystem Sweeps SweepSystem OutflowSystem.
Import SqlStore SqlLaws Interference Journals WithdrawalLaws Sweeps.

Open Scope string_scope.
Open Scope list_scope.
Open Scope Z_scope.

Module SweepLaws.

(** ** Configurations *)

Section configs.
Context `{X : Ext} `{!NumericLaws X}.

Definition decimal_ok (d : Fees.decimal) : Prop := 0 <= Fees.dec_num d /\ 0 < Fees.dec_den d.

Record workflow_ok (w : Withdrawals.Workflow) : Prop := WorkflowOk {
  wo_chain : Withdrawals.cfg_ChainID (Withdrawals.wf_cfg w) <> "";
  wo_amounts : 0 <= Withdrawals.p_minWithdrawal (Withdrawals.wf_pcfg w) /\ 0 <= Withdrawals.p_maxFee (Withdrawals.wf_pcfg w);
  wo_adjustment : 0 < Fees.dec_num (Withdrawals.p_gasAdjustment (Withdrawals.wf_pcfg w)) /\
                  0 < Fees.dec_den (Withdrawals.p_gasAdjustment (Withdrawals.wf_pcfg w));
  wo_price : decimal_ok (Withdrawals.p_gasPrice (Withdrawals.wf_pcfg w));
  wo_confirmations : 1 <= Withdrawals.cfg_Confirmations (Withdrawals.wf_cfg w);
  wo_timeout : 0 < Withdrawals.cfg_BroadcastTimeout (Withdrawals.wf_cfg w);
  wo_fallback : Withdrawals.cfg_SimulateUnavailable (Withdrawals.wf_cfg w) = Some Withdrawals.SimulateStatic ->
                0 < Withdrawals.cfg_StaticGasLimit (Withdrawals.wf_cfg w) }.

(** A custody engine only plans and settles; the rest is for the others. *)
Record engine_ok (e : Engine) : Prop := EngineOk {
  eo_chain : cfg_ChainID (en_cfg e) <> "";
  eo_amounts : 0 <= p_minSweep (en_pcfg e) /\ 0 <= p_feeReserve (en_pcfg e) /\ 0 <= p_feeWalletMaxSpend (en_pcfg e);
  eo_window : 0 < p_feeWalletMaxSpend (en_pcfg e) -> 0 < cfg_FeeWalletSpendWindowBlocks (en_cfg e);
  eo_pct : decimal_ok (p_maxFeePct (en_pcfg e));
  eo_price : decimal_ok (p_gasPrice (en_pcfg e)) /\ decimal_ok (p_gasAdj (en_pcfg e));
  eo_timeout : 0 < cfg_BroadcastTimeout (en_cfg e);
  eo_signing : cfg_Strategy (en_cfg e) <> StrategyCustodyAbstract ->
    cfg_HotWallet (en_cfg e) <> "" /\ 0 < Fees.dec_num (p_gasAdj (en_pcfg e)) /\
    1 <= cfg_Confirmations (en_cfg e) /\
    (cfg_SimulateUnavailable (en_cfg e) = Some SimulateStatic -> 0 < cfg_StaticGasLimit (en_cfg e)) }.

Lemma base_units_nonneg s n : Withdrawals.parseBaseUnits s = Ok n -> 0 <= n.
Proof.
  unfold Withdrawals.parseBaseUnits. case_bool_decide; [done|].
  destruct (Tx.is_digits (chars s)) eqn:Hd; [simpl|done]. destruct (NewIntFromString s) eqn:Hn; [|done].
  intros [= <-]. by apply (Tx.digits_value s).
Qed.

Lemma timeout_pos t : 0 < (if t <=? 0 then 15 * 10 ^ 9 else t).
Proof. destruct (Z.leb_spec t 0); lia. Qed.

Lemma workflow_new_ok c w :
  0 <= Withdrawals.cfg_StaticGasLimit c -> 0 <= Withdrawals.cfg_Confirmations c ->
  Withdrawals.New c = Ok w -> workflow_ok w.
Proof.
  intros Hg Hc. unfold Withdrawals.New, Withdrawals.parse. destruct (empty _) eqn:He; [done|].
  destruct (Withdrawals.parseBaseUnits (Withdrawals.cfg_MinimumWithdrawalUsovr c)) as [mn|] eqn:Emn; [|done].
  destruct (Withdrawals.parseBaseUnits (Withdrawals.cfg_MaxFeeUsovr c)) as [mx|] eqn:Emx; [|done].
  destruct (Fees.parseDecimal (Withdrawals.cfg_GasAdjustment c)) as [adj|] eqn:Ea; [|done].
  destruct (Fees.parseDecimal (Withdrawals.cfg_GasPriceUsovr c)) as [price|] eqn:Ep; [|done].
  apply base_units_nonneg in Emn, Emx. apply Fees.decimal_wf in Ea, Ep. unfold Fees.isZero.
  destruct (Z.eqb_spec (Fees.dec_num adj) 0); [done|].
  destruct (Withdrawals.cfg_SimulateUnavailable c) as [pol|] eqn:Epol; [|done].
  destruct (match pol with Withdrawals.SimulateStatic => Withdrawals.cfg_StaticGasLimit c =? 0
            | Withdrawals.SimulateQueue => false end) eqn:Es; [done|].
  destruct (Z.eqb_spec (Withdrawals.cfg_Confirmations c) 0); [done|].
  intros [= <-]. split; simpl; try done; try lia.
  - by apply bool_decide_eq_false in He.
  - apply timeout_pos.
  - rewrite Epol. intros [= ->]. apply Z.eqb_neq in Es. lia.
Qed.

Lemma parse_cap_ok c cap : 0 <= cfg_FeeWalletSpendWindowBlocks c -> parse_cap c = Ok cap ->
  0 <= cap /\ (0 < cap -> 0 < cfg_FeeWalletSpendWindowBlocks c).
Proof.
  intros Hw. unfold parse_cap. destruct (_ || _); [intros [= <-]; lia|].
  destruct (Withdrawals.parseBaseUnits _) as [n|] eqn:En; [|done]. apply base_units_nonneg in En.
  destruct (Z.eqb_spec (cfg_FeeWalletSpendWindowBlocks c) 0); [done|]. intros [= <-]. lia.
Qed.

Lemma engine_new_ok signer c e :
  0 <= cfg_StaticGasLimit c -> 0 <= cfg_Confirmations c -> 0 <= cfg_FeeWalletSpendWindowBlocks c ->
  New signer c = Ok e -> engine_ok e.
Proof.
  intros Hg Hc Hw. unfold New, parse. destruct (empty (cfg_ChainID c)) eqn:He; [done|].
  destruct (Valid _); [simpl|done]. destruct (negb _ && _) eqn:Eh; [done|].
  destruct (Withdrawals.parseBaseUnits (cfg_MinimumSweepAmountUsovr c)) as [mn|] eqn:Emn; [|done].
  destruct (Fees.parseDecimal (cfg_MaximumFeePercentageForSweep c)) as [pct|] eqn:Ep; [|done].
  destruct (Withdrawals.parseBaseUnits (cfg_FeeReserveUsovr c)) as [rs|] eqn:Ers; [|done].
  destruct (parse_cap c) as [cap|] eqn:Ec; [|done]. apply parse_cap_ok in Ec as [Hcap Hwin]; [|done].
  apply base_units_nonneg in Emn, Ers. apply Fees.decimal_wf in Ep. apply bool_decide_eq_false in He.
  case_bool_decide as Hs.
  { intros [= <-]. split; simpl; try done; try apply timeout_pos; repeat split; simpl; lia. }
  destruct (Fees.parseDecimal (cfg_GasAdjustment c)) as [adj|] eqn:Ea; [|done]. unfold Fees.isZero.
  destruct (Z.eqb_spec (Fees.dec_num adj) 0); [done|].
  destruct (Fees.parseDecimal (cfg_GasPriceUsovr c)) as [price|] eqn:Epr; [|done]. apply Fees.decimal_wf in Ea, Epr.
  destruct (cfg_SimulateUnavailable c) as [pol|] eqn:Epol; [|done].
  destruct (match pol with SimulateStatic => cfg_StaticGasLimit c =? 0 | SimulateQueue => false end) eqn:Es; [done|].
  destruct (Z.eqb_spec (cfg_Confirmations c) 0); [done|].
  intros [= <-]. split; simpl; try done; try apply timeout_pos. intros _. split_and!; try lia.
  - simpl in Eh. by apply bool_decide_eq_false in Eh.
  - rewrite Epol. intros [= ->]. apply Z.eqb_neq in Es. lia.
Qed.

End configs.

(** ** Planning *)

Section planning.
Context `{X : Ext} (e : Engine) (R : Store -> Store -> Prop).
Notation cfg := (en_cfg e).
Notation pcfg := (en_pcfg e).

(** What the source keeps after a sweep under the configured strategy, with a
    fee of [fee]. *)
Definition kept (fee : Z) : Z :=
  match cfg_Strategy cfg with
  | StrategyFeeReserve => fee + p_feeReserve pcfg
  | StrategyThresholdOnly => fee
  | _ => 0
  end.

Lemma planAmount_ok balance fee a :
  planAmount e balance fee = (a, "") ->
  exists n, a = Some n /\ 0 < n /\ n = balance - kept fee /\ p_minSweep pcfg <= n /\
    feeWithinPercentage fee n (p_maxFeePct pcfg) = true /\ cfg_Strategy cfg <> StrategyCustodyAbstract.
Proof.
  unfold planAmount, kept. intros H.
  assert (forall n, (if n <=? 0 then (Some balance, "balance cannot cover fee estimate and reserve")
    else if n <? p_minSweep pcfg then (Some balance, "swept amount would fall below minimum_sweep_amount_usovr")
    else if negb (feeWithinPercentage fee n (p_maxFeePct pcfg))
    then (Some n, "fee exceeds maximum_fee_percentage_for_sweep") else (Some n, "")) = (a, "") ->
    a = Some n /\ 0 < n /\ p_minSweep pcfg <= n /\ feeWithinPercentage fee n (p_maxFeePct pcfg) = true) as Hrest.
  { intros n. destruct (Z.leb_spec n 0); [done|]. destruct (Z.ltb_spec n (p_minSweep pcfg)); [done|].
    destruct (feeWithinPercentage fee n (p_maxFeePct pcfg)); [|done]. intros [= <-]. split_and!; done || lia. }
  destruct (cfg_Strategy cfg) eqn:Es; try (apply Hrest in H as (-> & ? & ? & ?); eexists; split_and!; done || lia).
  by injection H.
Qed.

(** Some run of the estimate for a transfer of [amount] gave [fee]. *)
Definition estimated (source dest : string) (acct seq amount fee : Z) : Prop :=
  exists s tr s' gas, exec R (estimateFee e source dest amount acct seq) s tr (Ok (fee, gas)) s'.

Lemma plan_rounds_ok source dest balance acct seq n : forall amount fee reason s tr a f s',
  planAmount e balance fee = (amount, reason) ->
  exec R (plan_rounds e n source dest balance acct seq amount fee reason) s tr (Ok (a, f, "")) s' ->
  planAmount e balance f = (a, "") /\
  (a = Some balance \/ estimated source dest acct seq (default 0 a) f).
Proof.
  induction n as [|n IH]; intros amount fee reason s tr a f s' Hp H; cbn [plan_rounds] in H.
  - inv_exec H. injection H as _ _ H. unfold empty in H. by case_bool_decide.
  - destruct (empty reason) eqn:Er; cbn [negb orb] in H.
    2:{ inv_exec H. injection H as -> -> <-. unfold empty in Er. by rewrite bool_decide_eq_true_2 in Er. }
    apply bool_decide_eq_true in Er as ->. case_bool_decide as Hb.
    { inv_exec H. injection H as -> ->. auto. }
    apply exec_r_bind_ok in H as ([refee gas] & s1 & tr1 & tr2 & -> & He & H).
    destruct (Z.eqb_spec refee fee) as [->|Hne].
    + inv_exec H. injection H as -> ->. split; [done|]. right. by exists s, tr1, s1, gas.
    + destruct (planAmount e balance refee) as [amount' reason'] eqn:Hp'. by eapply IH.
Qed.

Lemma planFeeAmount_ok source dest balance acct seq s tr a f s' :
  exec R (planFeeAmount e source dest balance acct seq) s tr (Ok (a, f, "")) s' ->
  planAmount e balance f = (a, "") /\
  (a = Some balance \/ estimated source dest acct seq (default 0 a) f).
Proof.
  unfold planFeeAmount. intros H. apply exec_r_bind_ok in H as ([fee gas] & s1 & tr1 & tr2 & -> & He & H).
  destruct (planAmount e balance fee) as [amount reason] eqn:Hp. by eapply plan_rounds_ok.
Qed.

(** A planned job is never a funding leg. *)
Lemma new_job_plain id source balance height amount ids now :
  IsFundingJob (new_job e id (IdempotencyKey (cfg_ChainID cfg) source balance height) source amount ids now) = false.
Proof. reflexivity. Qed.

End planning.

(** ** The fee-wallet cap *)

(** A filter that keeps at most one element is a search. *)
Lemma filter_unique {A} (p : A -> bool) l :
  (forall i k a b, l !! i = Some a -> l !! k = Some b -> p a = true -> p b = true -> i = k) ->
  List.filter p l = match List.find p l with Some a => [a] | None => [] end.
Proof.
  induction l as [|a l IH]; intros Hu; simpl; [done|]. destruct (p a) eqn:Ha.
  - f_equal. apply filter_none. intros b Hb. apply list_elem_of_lookup_1 in Hb as [k Hk].
    apply not_true_iff_false. intros Hpb. by specialize (Hu 0%nat (S k) a b eq_refl Hk Ha Hpb).
  - apply IH. intros i k b c Hi Hk Hb Hc. specialize (Hu (S i) (S k) b c Hi Hk Hb Hc). lia.
Qed.

Section fee_cap.
Context `{X : Ext} (e : Engine).
Notation cfg := (en_cfg e).
Notation pcfg := (en_pcfg e).

(** The funding legs in flight from the wallet, all together. *)
Definition live_leg (wallet : string) (j : SweepJob) : bool :=
  IsFundingJob j && bool_decide (j_ChainID j = cfg_ChainID cfg) && bool_decide (j_SourceAddress j = wallet) &&
  negb (Terminal (j_Status j)).
Definition in_flight (wallet : string) (s : Store) : Z :=
  sum_where j_AmountBaseUnits (live_leg wallet) (st_sweeps s).

(** What the wallet spent on confirmed legs in the window that ends at
    [height]. *)
Definition spent_in_window (wallet : string) (height : Z) (s : Store) : Z :=
  sum_where fs_AmountBaseUnits
    (fun f => bool_decide (fs_ChainID f = cfg_ChainID cfg) && bool_decide (fs_FeeWalletAddress f = wallet) &&
              in_heights (window_start e height) height (fs_BlockHeight f)) (st_feeFundingSpends s).

Definition live_from (wallet : string) (j : SweepJob) : bool :=
  bool_decide (j_ChainID j = cfg_ChainID cfg) && bool_decide (j_SourceAddress j = wallet) &&
  negb (Terminal (j_Status j)).

Lemma live_unique s wallet i k a b :
  schema_ok s -> st_sweeps s !! i = Some a -> st_sweeps s !! k = Some b ->
  live_from wallet a = true -> live_from wallet b = true -> i = k.
Proof.
  intros Hs Hi Hk La Lb. destruct (so_sweeps s Hs) as (_ & _ & Hu). unfold live_from in *.
  rewrite !andb_true_iff, !bool_decide_eq_true, negb_true_iff in La, Lb.
  destruct La as [[E1 E2] E3], Lb as [[F1 F2] F3].
  eapply (Hu i k a b); [done..| |]; unfold sweep_active_key; [rewrite E3|rewrite F3]; [reflexivity|congruence].
Qed.

(** One live sweep per source: the sum has at most one term. *)
Lemma in_flight_active s wallet :
  schema_ok s -> inflight_amount (fst (Sweeps_GetActive (cfg_ChainID cfg) wallet s)) = Ok (in_flight wallet s).
Proof.
  intros Hs. unfold in_flight, sum_where, Sweeps_GetActive, select_row, inflight_amount.
  change (rows s) with (st_sweeps s). change (fun j => _ && _ && _) with (live_from wallet).
  rewrite (List.filter_ext _ (fun j => live_from wallet j && IsFundingJob j)).
  2:{ intros j. unfold live_leg, live_from. destruct (IsFundingJob j); by rewrite ?andb_true_r, ?andb_false_r. }
  rewrite filter_and, (filter_unique (live_from wallet)) by (intros; by eapply live_unique).
  destruct (List.find (live_from wallet) (st_sweeps s)) as [j|]; [|done]. simpl. by destruct (IsFundingJob j).
Qed.

Lemma feeWallet_exec s tr w s' : exec interference (feeWallet e) s tr (Ok w) s' -> tr = [] /\ interference s s'.
Proof.
  unfold feeWallet. intros H. inv_exec H. apply with_tx_ok in Hx. injection Hx as <- <-.
  destruct (List.find _ _) in H; inv_exec H; done.
Qed.

End fee_cap.

(** ** Settlement *)

(** The covered deposits that are SWEEP_PENDING become SWEPT. *)
Definition settle (ids : list Z) (h : string) (now : Z) (d : DepositRecord) : DepositRecord :=
  if bool_decide (d_ID d ∈ ids) && bool_decide (d_Status d = DepositSweepPending)
  then deposit_set DepositSwept None now (swept_update h) d else d.

Lemma deposits_set_same s : set_rows (st_deposits s) s = s.
Proof. by destruct s. Qed.
Lemma deposits_set_twice (l k : list DepositRecord) s : set_rows k (set_rows l s) = set_rows k s.
Proof. by destruct s. Qed.
Lemma deposits_of_set (l : list DepositRecord) s : st_deposits (set_rows l s) = l.
Proof. by destruct s. Qed.
Lemma deposits_set_now (l : list DepositRecord) s : st_now (set_rows l s) = st_now s.
Proof. by destruct s. Qed.

Definition settle_one (h : string) (id : Z) : db unit :=
  do r <- tx_try (Deposits_GetByID id);
  match r with
  | Err ErrNotFound => tx_ret tt
  | Err e => tx_fail e
  | Ok d => if negb (bool_decide (d_Status d = DepositSweepPending)) then tx_ret tt
            else Withdrawals.ignore_conflict
                   (Deposits_UpdateStatus id DepositSweepPending DepositSwept (swept_update h))
  end.

Lemma ignore_conflict_keeps m : keeps m -> keeps (Withdrawals.ignore_conflict m).
Proof.
  intros Hm. unfold Withdrawals.ignore_conflict.
  apply preserves_bind; [apply _|by apply preserves_try|]. intros a. tx_steps.
Qed.
Lemma settle_one_keeps h id : keeps (settle_one h id).
Proof.
  unfold settle_one, Deposits_GetByID.
  apply preserves_bind; [apply _|apply preserves_try, select_row_keeps|]. intros [d|e]; [|tx_steps].
  destruct (negb _); [tx_steps|]. apply ignore_conflict_keeps, Deposits_UpdateStatus_keeps.
Qed.
Lemma consumeReservation_keeps id : keeps (consumeReservation id).
Proof.
  unfold consumeReservation. apply preserves_bind; [apply _|apply select_row_keeps|]. intros r.
  destruct (r_Status r); first [apply ignore_conflict_keeps, Sequences_UpdateStatus_keeps | tx_steps].
Qed.

Lemma settle_same id h now l :
  (forall d, d ∈ l -> d_ID d = id -> d_Status d <> DepositSweepPending) -> map (settle [id] h now) l = l.
Proof.
  intros Hl. transitivity (map (fun d => d) l); [|apply map_id]. apply map_ext_in. intros d Hd%list_elem_of_In.
  unfold settle. case_bool_decide as E; [|done]. apply list_elem_of_singleton in E.
  rewrite bool_decide_eq_false_2; [done|]. by apply Hl.
Qed.

Lemma settle_one_eq h id s :
  schema_ok s -> settle_one h id s = (Ok tt, set_rows (map (settle [id] h (st_now s)) (st_deposits s)) s).
Proof.
  intros Hs. unfold settle_one, tx_bind, tx_try, Deposits_GetByID, select_row.
  change (rows s) with (st_deposits s). destruct (List.find _ _) as [d|] eqn:Hf.
  2:{ cbv beta iota. rewrite settle_same; [by rewrite deposits_set_same|]. intros d Hd Hid. exfalso.
      apply List.find_none with (x := d) in Hf; [|by apply list_elem_of_In]. by rewrite Hid, Z.eqb_refl in Hf. }
  apply find_elem in Hf as Hd. destruct Hd as [Hd Hid%Z.eqb_eq].
  assert (forall k, k ∈ st_deposits s -> d_ID k = id -> k = d) as Hu.
  { intros k Hk Hki. eapply ids_ok_inj; [apply (so_deposits s Hs)|done..|congruence]. }
  case_bool_decide as Hst; cbn beta iota delta [negb].
  - assert (update_rows (d_at id DepositSweepPending)
      (deposit_set DepositSwept (new_prior DepositSweepPending DepositSwept) (st_now s) (swept_update h))
      (st_deposits s) = map (settle [id] h (st_now s)) (st_deposits s)) as E.
    { apply map_ext. intros k. unfold settle, d_at. destruct (Z.eqb_spec (d_ID k) id) as [E|E].
      - by rewrite (bool_decide_eq_true_2 (d_ID k ∈ [id])) by (rewrite E; by left).
      - rewrite (bool_decide_eq_false_2 (d_ID k ∈ [id])); [done|]. by intros ?%list_elem_of_singleton. }
    unfold Withdrawals.ignore_conflict, tx_bind, tx_try. rewrite Deposits_UpdateStatus_eq, Hf.
    change (ValidateDepositTransition DepositSweepPending DepositSwept) with (@None err).
    by rewrite (bool_decide_eq_true_2 _ Hst), E.
  - rewrite settle_same; [by rewrite deposits_set_same|]. intros k Hk Hki. by rewrite (Hu k Hk Hki).
Qed.

Lemma settle_cons id ids h now d : settle ids h now (settle [id] h now d) = settle (id :: ids) h now d.
Proof.
  unfold settle. destruct (bool_decide (d_Status d = DepositSweepPending)) eqn:Es; rewrite ?andb_false_r, ?andb_true_r;
    [|by rewrite Es, andb_false_r].
  destruct (bool_decide (d_ID d ∈ [id])) eqn:E1; rewrite ?andb_true_r; cbn [d_ID d_Status deposit_set].
  - apply bool_decide_eq_true, list_elem_of_singleton in E1.
    rewrite (bool_decide_eq_false_2 (DepositSwept = _)), andb_false_r by done.
    rewrite (bool_decide_eq_true_2 (d_ID d ∈ id :: ids)); [done|]. rewrite E1. by left.
  - apply bool_decide_eq_false in E1. rewrite Es, andb_true_r.
    rewrite (bool_decide_ext (d_ID d ∈ id :: ids) (d_ID d ∈ ids)); [done|].
    rewrite list_elem_of_singleton in E1. rewrite elem_of_cons. tauto.
Qed.

(** The loop over the covered deposits never fails, and does exactly that. *)
Lemma markDepositsSwept_eq j h s :
  schema_ok s ->
  markDepositsSwept j h s = (Ok tt, set_rows (map (settle (j_DepositIDs j) h (st_now s)) (st_deposits s)) s).
Proof.
  unfold markDepositsSwept. change (fun id => tx_bind (tx_try (Deposits_GetByID id)) _) with (settle_one h).
  generalize (j_DepositIDs j) as ids. intros ids. revert s. induction ids as [|id ids IH]; intros s Hs.
  - cbn [tx_for]. unfold tx_ret. rewrite (map_ext _ (fun d => d)), map_id, deposits_set_same; [done|].
    intros d. unfold settle. by rewrite bool_decide_eq_false_2 by apply not_elem_of_nil.
  - cbn [tx_for]. unfold tx_bind at 1. rewrite settle_one_eq by done.
    set (s1 := set_rows _ s). assert (schema_ok s1) as Hs1.
    { pose proof (settle_one_keeps h id s Hs) as Hk. by rewrite settle_one_eq in Hk by done. }
    rewrite IH by done. unfold s1. rewrite deposits_of_set, deposits_set_twice, deposits_set_now, map_map.
    do 2 f_equal. apply map_ext. intros d. apply settle_cons.
Qed.

(** The reservation of the sweep is CONSUMED and nothing but reservations
    changed. *)
Definition consumed (id : string) (s : Store) : Prop :=
  exists r, r ∈ st_sequences s /\ r_WorkRef r = sweep_ref id /\ r_Status r = SequenceConsumed.

Lemma consumeReservation_ok id s s' :
  schema_ok s -> consumeReservation id s = (Ok tt, s') ->
  exists l, s' = set_rows (R := SequenceReservation) l s /\ consumed id s'.
Proof.
  intros Hs H. unfold consumeReservation in H. inv_tx1 H. rewrite GetByWorkRef_result in Hm.
  destruct (List.find _ _) as [r|] eqn:Hf; [|done]. injection Hm as <- <-.
  apply find_elem in Hf as [Hr Hw%bool_decide_eq_true].
  assert (forall from, r_Status r = from -> SequenceConsumed ∈ sequenceTransitions from ->
    Withdrawals.ignore_conflict (Sequences_UpdateStatus (r_ID r) from SequenceConsumed) s = (Ok tt, s') ->
    exists l, s' = set_rows (R := SequenceReservation) l s /\ consumed id s') as Hup.
  { intros from Hst Hleg Hi. unfold Withdrawals.ignore_conflict, tx_bind, tx_try in Hi.
    destruct (Sequences_UpdateStatus (r_ID r) from SequenceConsumed s) as [[[]|e] s1] eqn:Hu.
    - injection Hi as <-. apply Sequences_UpdateStatus_ok in Hu as (_ & r1 & Hr1 & Hid & Hs1 & ->).
      eexists. split; [reflexivity|]. exists (reservation_set SequenceConsumed (st_now s) r).
      rewrite sequences_set_rows. split_and!; [|done..]. apply update_rows_elem; [done|].
      unfold r_at. by rewrite Z.eqb_refl, bool_decide_eq_true_2.
    - exfalso. rewrite Sequences_UpdateStatus_eq, (proj2 (sequence_legal _ _) Hleg) in Hu.
      destruct (List.find _ _) as [r1|] eqn:Hf.
      + apply find_elem in Hf as [Hr1 Hid%Z.eqb_eq].
        rewrite (ids_ok_inj r_ID (st_sequences s) r1 r (proj1 (so_sequences s Hs)) Hr1 Hr Hid) in Hu.
        by rewrite bool_decide_eq_true_2 in Hu.
      + apply List.find_none with (x := r) in Hf; [|by apply list_elem_of_In]. by rewrite Z.eqb_refl in Hf. }
  destruct (r_Status r) eqn:Hst; try done.
  all: try (apply Hup in H; [done..|]; rewrite <-enumValid_spec; reflexivity).
  injection H as <-. exists (st_sequences s). split; [by destruct s|]. by exists r.
Qed.

(** Appending a spend either adds its row or finds one of its key, unless it
    is refused. *)
Lemma AppendFeeFundingSpend_has f s r s' :
  Ledger_AppendFeeFundingSpend f s = (r, s') ->
  (exists l, s' = set_rows (R := FeeFundingSpend) l s) /\
  (r = Err ErrDuplicate \/ (exists x, r = Ok x) ->
   exists g, g ∈ st_feeFundingSpends s' /\ funding_spend_key g = funding_spend_key f).
Proof.
  assert (exists l, s = set_rows (R := FeeFundingSpend) l s) as Hsame
    by (exists (st_feeFundingSpends s); by destruct s).
  assert (forall t, (Err ErrInvalidRecord, s) = (r, t) -> (exists l, t = set_rows (R := FeeFundingSpend) l s) /\
    (r = Err ErrDuplicate \/ (exists x, r = Ok x) ->
     exists g, g ∈ st_feeFundingSpends t /\ funding_spend_key g = funding_spend_key f)) as Hbad.
  { intros t [= <- <-]. split; [done|]. by intros [?|[]]. }
  unfold Ledger_AppendFeeFundingSpend. unfold tx_bind at 1, tx_require at 1.
  destruct (negb (_ || _)); [|exact (Hbad s')].
  unfold tx_ret at 1, tx_bind at 1, tx_require at 1. destruct (negb (empty _)); [|exact (Hbad s')].
  unfold tx_ret at 1, tx_bind at 1, tx_of at 1. unfold amountText.
  destruct (fs_AmountBaseUnits f <? 0); cbn [andb]; [exact (Hbad s')|].
  unfold fmtTime, tx_bind, tx_get, insert_row, violation, unique. cbv beta iota zeta.
  cbn [List.find fst snd]. change (rows s) with (st_feeFundingSpends s).
  destruct (existsb _ _) eqn:Hd; intros Heq.
  - injection Heq as <- <-. split; [done|]. intros _. apply hits_true in Hd as (g & Hg & Hk & _). by exists g.
  - apply (f_equal snd) in Heq. cbn [snd option_map] in Heq. rewrite <-Heq. split; [by eexists|]. intros _. eexists.
    change (st_feeFundingSpends (set_rows ?l ?t)) with (rows (R := FeeFundingSpend) (set_rows l t)).
    rewrite rows_set. split; [apply elem_of_app; right; by left | reflexivity].
Qed.

Lemma recordFeeFundingSpend_ok j height s s' :
  recordFeeFundingSpend j height s = (Ok tt, s') ->
  (exists l, s' = set_rows (R := FeeFundingSpend) l s) /\
  forall h, IsFundingJob j = true -> j_TxHash j = Some h ->
    exists f, f ∈ st_feeFundingSpends s' /\ fs_ChainID f = j_ChainID j /\ fs_TxHash f = h.
Proof.
  assert (exists l, s = set_rows (R := FeeFundingSpend) l s) as Hsame
    by (exists (st_feeFundingSpends s); by destruct s).
  unfold recordFeeFundingSpend. destruct (j_TxHash j) as [h0|]; [|by intros [= <-]].
  destruct (IsFundingJob j); cbn [negb]; [|by intros [= <-]].
  intros H. unfold tx_bind, tx_get, tx_try in H.
  destruct (Ledger_AppendFeeFundingSpend _ s) as [r s1] eqn:Ha. apply AppendFeeFundingSpend_has in Ha as [Hl Hin].
  assert (s1 = s' /\ (r = Err ErrDuplicate \/ exists x, r = Ok x)) as [-> Hr].
  { destruct r as [x|[]]; try discriminate H; injection H as ->; eauto. }
  split; [done|]. intros h _ [= ->]. destruct (Hin Hr) as (g & Hg & E). injection E as E1 E2. by exists g.
Qed.

Lemma sequences_set_sweeps_rows (l : list SequenceReservation) (k : list SweepJob) s :
  st_sweeps (set_rows l (set_rows k s)) = k.
Proof. by destruct s. Qed.

(** What the transaction of a confirmed sweep leaves behind. *)
Record settled (j : SweepJob) (id h : string) (code : Z) (s s' : Store) : Prop := Settled {
  se_job : exists k, k ∈ st_sweeps s' /\ j_SweepID k = id /\ j_Status k = SweepConfirmed /\ j_TxCode k = Some code;
  se_reservation : consumed id s';
  se_deposits : st_deposits s' = map (settle (j_DepositIDs j) h (st_now s)) (st_deposits s);
  se_spend : forall t, IsFundingJob j = true -> j_TxHash j = Some t ->
    exists f, f ∈ st_feeFundingSpends s' /\ fs_ChainID f = j_ChainID j /\ fs_TxHash f = t }.

Lemma confirmTx_settles j id h code height s s' :
  schema_ok s -> confirmTx j id h code height s = (Ok tt, s') -> settled j id h code s s'.
Proof.
  intros Hs H. unfold confirmTx in H. inv_tx1 H. destruct a. inv_tx1 H. destruct a. inv_tx1 H. destruct a.
  pose proof (Sweeps_UpdateStatus_keeps id SweepBroadcast SweepConfirmed (code_update code) s Hs) as Hs0.
  rewrite Hm in Hs0. cbn [snd] in Hs0.
  apply Sweeps_UpdateStatus_ok in Hm as (_ & k & Hk & Hid & Hst & ->).
  pose proof (consumeReservation_keeps id _ Hs0) as Hs1. rewrite Hm0 in Hs1. cbn [snd] in Hs1.
  apply consumeReservation_ok in Hm0 as (l & -> & Hcons); [|done].
  rewrite markDepositsSwept_eq in Hm1 by done. injection Hm1 as <-.
  apply recordFeeFundingSpend_ok in H as [[l' ->] Hsp].
  split.
  - exists (sweep_set SweepConfirmed (st_now s) (code_update code) k). split_and!; [|done..].
    destruct s. simpl. apply update_rows_elem; [done|]. unfold j_at. by rewrite !bool_decide_eq_true_2.
  - destruct Hcons as (r & Hr & ? & ?). exists r. split_and!; [|done..]. by destruct s.
  - by destruct s.
  - done.
Qed.

Lemma failTx_ok id code s s' :
  schema_ok s -> failTx id code s = (Ok tt, s') ->
  (exists k, k ∈ st_sweeps s' /\ j_SweepID k = id /\ j_Status k = SweepFailed /\ j_TxCode k = Some code) /\
  consumed id s' /\ st_deposits s' = st_deposits s.
Proof.
  intros Hs H. unfold failTx in H. inv_tx1 H. destruct a.
  pose proof (Sweeps_UpdateStatus_keeps id SweepBroadcast SweepFailed (code_update code) s Hs) as Hs0.
  rewrite Hm in Hs0. cbn [snd] in Hs0.
  apply Sweeps_UpdateStatus_ok in Hm as (_ & k & Hk & Hid & Hst & ->).
  apply consumeReservation_ok in H as (l & -> & Hcons); [|done]. split_and!; [|done|by destruct s].
  exists (sweep_set SweepFailed (st_now s) (code_update code) k). split_and!; [|done..].
  rewrite sequences_set_sweeps_rows. apply update_rows_elem; [done|]. unfold j_at. by rewrite !bool_decide_eq_true_2.
Qed.


(** ** At concrete inputs *)

Import OutflowSystem.

Definition ex_plan : handler (result err (string * bool)) :=
  createJob (X := Sample.sample) ex_engine "sovr1src" 5000 100 [].


(** A wallet that may spend 1000 within 50 blocks. *)
Definition ex_fund_config : Config :=
  MkConfig "sovr-1" StrategyFeeFund "sovr1dst" "100" "50" "0" "1000" 50 "1.5" "0.001"
    (Some SimulateQueue) 200000 0 2 None.
Definition ex_fund_engine : Engine :=
  match New (X := Sample.sample) true ex_fund_config with Ok e => e | Err _ => ex_engine end.
Definition ex_fund_store : Store :=
  commit (empty_store 9) [OpWatchUpsert (MkWatched "sovr-1" "sovr1mod" WatchFeeWallet "" false true);
    OpAppendFeeFundingSpend (MkFeeFundingSpend 0 "sovr-1" "H1" "sovr1mod" 600 80 0)].

Lemma ex_fund_schema : schema_ok ex_fund_store.
Proof. apply commit_schema, empty_schema_ok. Qed.



(** Between the check and the insertion of the leg nothing is locked: a leg
    of another sweep that is created and confirmed in that window is counted
    by neither, and the wallet's commitments exceed the cap. *)
Definition ex_parent : SweepJob :=
  MkSweep "SWP-1" "SWEEP:1" "sovr-1" "sovr1src" "sovr1dst" StrategyFeeFund 500 0 [] [] None None SweepPending 9 9.
Definition ex_other_leg : list op :=
  [OpAppendFeeFundingSpend (MkFeeFundingSpend 0 "sovr-1" "H2" "sovr1mod" 350 100 0)].
Definition ex_fund_raced : Store := commit ex_fund_store ex_other_leg.

Local Ltac txn t := hnf; exists t; split; [first [constructor | apply rtc_once; left; eexists; reflexivity]|].

Lemma fee_cap_overshoot :
  exists tr s', exec interference (checkFunding ex_fund_engine ex_parent 500 300) ex_fund_store tr
      (Err ErrFundingPending) s' /\
    in_flight ex_fund_engine "sovr1mod" s' + spent_in_window ex_fund_engine "sovr1mod" 100 s' = 1250.
Proof.
  set (leg := funding_job ex_parent "FUND-SWP-1" "sovr1mod" 300 0).
  exists [answered CNodeStatus (Ok (MkNodeStatus "sovr-1" 100 false)); answered CNow 0],
    (snd (with_tx (Sweeps_Create leg) ex_fund_raced)). split; [|vm_compute; reflexivity].
  txn ex_fund_store. txn ex_fund_store. hnf. eexists _, _. split; [reflexivity|].
  txn ex_fund_store. txn ex_fund_store. txn ex_fund_store. hnf. eexists _, _. split; [reflexivity|].
  txn ex_fund_raced. hnf. split_and!; vm_compute; reflexivity.
Qed.

(** A sweep of one deposit, on chain at height 90 of 100. *)
Definition ex_deposit : DepositRecord :=
  MkDeposit 0 "sovr-1" "D1" 0 0 70 9 None "sovr1src" BaseDenom 5000 "" 0 "" DepositSweepPending None None
    None 9 9.
Definition ex_swept : SweepJob :=
  MkSweep "SWP-1" "SWEEP:1" "sovr-1" "sovr1src" "sovr1dst" StrategyThresholdOnly 4880 0 [1] [] None None
    SweepPending 9 9.
Definition ex_swept_store : Store :=
  commit (empty_store 9)
    [OpDepositInsert ex_deposit; OpSweepCreate ex_swept;
      OpSequenceReserve (MkReservation 0 "sovr-1" "sovr1src" 7 5 (sweep_ref "SWP-1") SequenceReserved 9 9);
      OpSweepStatus "SWP-1" SweepPending SweepBuilt no_sweep_update;
      OpSweepStatus "SWP-1" SweepBuilt SweepSigned (signed_update [Byte.x01] "AB");
      OpSequenceStatus 1 SequenceReserved SequenceSigned;
      OpSweepStatus "SWP-1" SweepSigned SweepBroadcast no_sweep_update].
Definition ex_mined : answers :=
  MkAnswers (Err ErrOther) (Ok (Some (MkTxInfo "AB" 90 0 "" [] []))) (Err ErrOther) (Err ErrOther) (Err ErrOther)
    (Ok (MkNodeStatus "sovr-1" 100 false)) (Err ErrOther) (Err ErrOther) 0.


End SweepLaws.
