(* ===== verification/Parse.v ===== *)
(** * Parse: block parsing and watch-set classification

    [go/deposits/parse.go] and [watch.go].  A parsed transaction yields lists
    of transfer rows, fee deductions and review rows in the order the parser
    appends them.  [uint32] conversions wrap at [2^32].  Reading the amount of
    a coin whose amount field was absent dereferences a nil big integer: the
    parse ends in [Panic]. *)

From stdpp Require Import base list strings gmap.
From Stdlib Require Import ZArith Lia String Ascii.
From S2P Require Import Prelude Workers Text Storage Database SqlStore Hash Chain.
Import SqlStore.

Open Scope string_scope.
Open Scope list_scope.
Open Scope Z_scope.

(** ** Third-party decoders *)

Record InOut : Type := MkInOut { io_Address : string; io_Coins : list Coin }.
Record MsgMultiSend : Type := MkMultiSend { mm_Inputs : list InOut; mm_Outputs : list InOut }.

(** [proto.Unmarshal] of the messages the scanner reads, and
    [sdk.ParseCoinsNormalized] followed by [AmountOf]. *)
Class ScanExt : Type := {
  unmarshalTxRaw : bytes -> option (bytes * bytes);
  unmarshalTxBody : bytes -> option (list (option Any) * string);
  unmarshalAuthInfo : bytes -> option AuthInfo;
  decodeMsgSend : bytes -> option MsgSend;
  decodeMsgMultiSend : bytes -> option MsgMultiSend;
  parseCoinsAmountOf : string -> string -> option Z }.

Module Parse.

Definition TypeURLMsgSend : string := "/cosmos.bank.v1beta1.MsgSend".
Definition TypeURLMsgMultiSend : string := "/cosmos.bank.v1beta1.MsgMultiSend".
Definition ReviewOpIndexBase : Z := 2 ^ 16.

Definition wrap32 (x : Z) : Z := x mod 2 ^ 32.

(** An error return, or a crash. *)
Inductive failure : Type := Invalid | Panic.

(** ** The watch set *)

Record WatchSet : Type := MkWatchSet {
  ws_entries : gmap string WatchedAddress;
  ws_memoRecognizer : option (string -> bool) }.

Definition NewWatchSet (addrs : list WatchedAddress) : WatchSet :=
  MkWatchSet (fold_left (fun m a => if wa_Active a then <[wa_Address a := a]> m else m) addrs ∅) None.
Definition WithMemoRecognizer (w : WatchSet) (fn : option (string -> bool)) : WatchSet :=
  MkWatchSet (ws_entries w) fn.
Definition Get (w : WatchSet) (addr : string) : option WatchedAddress := ws_entries w !! addr.
Definition Contains (w : WatchSet) (addr : string) : bool := is_some (Get w addr).
Definition memoRecognized (w : WatchSet) (memo : string) : bool :=
  if empty memo then false
  else match ws_memoRecognizer w with Some f => f memo | None => true end.
(** (any watched, all watched) *)
Definition watchStats (w : WatchSet) (addrs : list string) : bool * bool :=
  fold_left (fun st a => if Contains w a then (true, snd st) else (fst st, false)) addrs
    (false, negb (bool_decide (addrs = []))).

(** ** Parse output *)

Record TransferCandidate : Type := MkTransfer {
  c_TxHash : string; c_MessageIndex : Z; c_CoinIndex : Z; c_OpIndex : Z;
  c_Direction : LedgerDirection; c_Address : string; c_CounterpartySet : list string;
  c_SenderAddress : option string; c_Denom : string; c_AmountBaseUnits : Z; c_Memo : string;
  c_TxCode : Z; c_TxLog : string; c_Classification : Classification; c_ReviewReason : string }.

Definition TransferLedgerEntry (c : TransferCandidate) (chainID : string) (blockHeight now : Z) : LedgerEntry :=
  MkLedgerEntry 0 chainID LedgerKindTx (c_TxHash c) (c_MessageIndex c) (c_OpIndex c) blockHeight 0
    (c_Direction c) (c_Address c) (c_CounterpartySet c) (c_AmountBaseUnits c) (c_Denom c) (c_TxCode c)
    (c_Classification c) now.

Record FeeDeduction : Type := MkFeeDeduction {
  fd_TxHash : string; fd_PayerAddress : string; fd_FeeBaseUnits : Z; fd_TxCode : Z;
  fd_FeeGranterUsed : bool; fd_GranterAddress : string }.

Record ReviewCandidate : Type := MkReviewCandidate {
  rc_TxHash : string; rc_MessageIndex : Z; rc_EventIndex : Z; rc_OpIndex : Z;
  rc_Direction : LedgerDirection; rc_Address : string; rc_CounterpartySet : list string;
  rc_AmountBaseUnits : Z; rc_TxCode : Z; rc_Reason : string }.

Definition ReviewLedgerEntry (c : ReviewCandidate) (chainID : string) (blockHeight now : Z) : LedgerEntry :=
  MkLedgerEntry 0 chainID LedgerKindTx (rc_TxHash c) (rc_MessageIndex c) (rc_OpIndex c) blockHeight 0
    (rc_Direction c) (rc_Address c) (rc_CounterpartySet c) (rc_AmountBaseUnits c) BaseDenom (rc_TxCode c)
    ClassUnattributedReview now.

Record BlockEventEntry : Type := MkBlockEvent {
  be_EventIndex : Z; be_Direction : LedgerDirection; be_Address : string;
  be_CounterpartySet : list string; be_AmountBaseUnits : Z; be_Reason : string }.

Definition BlockLedgerEntry (b : BlockEventEntry) (chainID : string) (blockHeight now : Z) : LedgerEntry :=
  MkLedgerEntry 0 chainID LedgerKindBlockEvent "" 0 0 blockHeight (be_EventIndex b)
    (be_Direction b) (be_Address b) (be_CounterpartySet b) (be_AmountBaseUnits b) BaseDenom 0
    ClassUnattributedReview now.

Record BlockParse : Type := MkBlockParse {
  bp_ChainID : string; bp_Height : Z; bp_BlockHash : string; bp_LastBlockHash : string; bp_Time : Z;
  bp_Transfers : list TransferCandidate; bp_FeeDeductions : list FeeDeduction;
  bp_ReviewCandidates : list ReviewCandidate; bp_BlockEvents : list BlockEventEntry }.

(** ** Classification *)

Section parser.
Context `{X : ScanExt} (watch : WatchSet).

Definition watchedKind (addr : string) (p : WatchedAddressKind -> bool) : bool :=
  match Get watch addr with Some e => p (wa_Kind e) | None => false end.
Definition isFeeWallet (k : WatchedAddressKind) : bool := bool_decide (k = WatchFeeWallet).
Definition isVault (k : WatchedAddressKind) : bool :=
  bool_decide (k = WatchHotWallet) || bool_decide (k = WatchColdWallet).

Definition internalInSubtype (recipient : WatchedAddress) (inputs : list string) : Classification :=
  if existsb (fun i => watchedKind i isFeeWallet) inputs then ClassFeeFunding
  else if isVault (wa_Kind recipient) then ClassSweep
  else ClassInternalTransfer.

Definition classifyIn (recipient : WatchedAddress) (inputs : list string) : Classification * string :=
  let '(anyW, allW) := watchStats watch inputs in
  if negb anyW then (ClassExternalDeposit, "")
  else if allW then (internalInSubtype recipient inputs, "")
  else (ClassUnattributedReview, "mixed watched/external input set — no deterministic input→output attribution").

Definition classifyOut (sender : WatchedAddress) (outputs : list string) : Classification :=
  let '(_, allW) := watchStats watch outputs in
  if negb allW then ClassWithdrawal
  else if isFeeWallet (wa_Kind sender) then ClassFeeFunding
  else if existsb (fun o => watchedKind o isVault) outputs then ClassSweep
  else ClassInternalTransfer.

(** [coin.Denom == BaseDenom && coin.Amount.IsPositive()], with the amount. *)
Definition coin_amount (c : Coin) : result failure (option Z) :=
  if negb (bool_decide (coin_Denom c = BaseDenom)) then Ok None
  else match coin_Amount c with
       | None => Err Panic
       | Some n => Ok (if 0 <? n then Some n else None)
       end.

(** A loop that appends rows for each element, with its index. *)
Fixpoint collect {A B} (f : Z -> A -> result failure (list B)) (i : Z) (l : list A)
    : result failure (list B) :=
  match l with
  | [] => Ok []
  | a :: l' =>
      match f i a, collect f (i + 1) l' with
      | Ok rows, Ok rest => Ok (rows ++ rest)
      | Err e, _ => Err e
      | _, Err e => Err e
      end
  end.

Definition memo_reason (entry : WatchedAddress) (class : Classification) (reason memo : string) : string :=
  if bool_decide (class = ClassExternalDeposit) && wa_MemoRequired entry &&
     negb (memoRecognized watch memo)
  then "omnibus memo required but missing or unrecognized (FR-016)" else reason.

(** The row of a usovr output to [addr], if it is watched. *)
Definition in_row (txHash : string) (mi ci : Z) (inputs : list string) (sender : option string)
    (addr : string) (amt : Z) (memo : string) (res : TxExecResult) : list TransferCandidate :=
  match Get watch addr with
  | None => []
  | Some entry =>
      let '(class, reason) := classifyIn entry inputs in
      [MkTransfer txHash mi ci ci DirectionIn addr inputs sender BaseDenom amt memo (tr_Code res)
         (tr_Log res) class (memo_reason entry class reason memo)]
  end.

(** The row of a usovr input from [addr], if it is watched. *)
Definition out_row (txHash : string) (mi ci op : Z) (outputs : list string) (addr : string) (amt : Z)
    (memo : string) (res : TxExecResult) : list TransferCandidate :=
  match Get watch addr with
  | None => []
  | Some entry =>
      [MkTransfer txHash mi ci op DirectionOut addr outputs None BaseDenom amt memo (tr_Code res)
         (tr_Log res) (classifyOut entry outputs) ""]
  end.

Definition send (txHash : string) (mi : Z) (m : MsgSend) (memo : string) (res : TxExecResult)
    : result failure (list TransferCandidate) :=
  let inputSet := [ms_FromAddress m] in
  let outputSet := [ms_ToAddress m] in
  let nOut := wrap32 (Z.of_nat (List.length (ms_Amount m))) in
  collect (fun k coin =>
    let ci := wrap32 k in
    match coin_amount coin with
    | Err e => Err e
    | Ok None => Ok []
    | Ok (Some amt) =>
        Ok (in_row txHash mi ci inputSet (Some (ms_FromAddress m)) (ms_ToAddress m) amt memo res ++
            out_row txHash mi ci (wrap32 (nOut + ci)) outputSet (ms_FromAddress m) amt memo res)
    end) 0 (ms_Amount m).

(** The coins of the outputs (or inputs) in wire order, with their address. *)
Definition flatten (l : list InOut) : list (string * Coin) :=
  flat_map (fun io => map (pair (io_Address io)) (io_Coins io)) l.

Definition multiSend (txHash : string) (mi : Z) (m : MsgMultiSend) (memo : string) (res : TxExecResult)
    : result failure (list TransferCandidate) :=
  let inputSet := map io_Address (mm_Inputs m) in
  let outputSet := map io_Address (mm_Outputs m) in
  let nOut := wrap32 (Z.of_nat (List.length (flatten (mm_Outputs m)))) in
  let singleSender := match inputSet with [a] => Some a | _ => None end in
  match collect (fun k ac =>
          match coin_amount (snd ac) with
          | Err e => Err e
          | Ok None => Ok []
          | Ok (Some amt) =>
              Ok (in_row txHash mi (wrap32 k) inputSet singleSender (fst ac) amt memo res)
          end) 0 (flatten (mm_Outputs m)),
        collect (fun ji ac =>
          let op := wrap32 (nOut + wrap32 ji) in
          match coin_amount (snd ac) with
          | Err e => Err e
          | Ok None => Ok []
          | Ok (Some amt) =>
              Ok (out_row txHash mi (wrap32 (op - nOut)) op outputSet (fst ac) amt memo res)
          end) 0 (flatten (mm_Inputs m)) with
  | Ok ins, Ok outs => Ok (ins ++ outs)
  | Err e, _ => Err e
  | _, Err e => Err e
  end.

(** ** Events *)

Definition attr (ev : Event) (key : string) : string :=
  match List.find (fun a => bool_decide (at_Key a = key)) (ev_Attributes ev) with
  | Some a => at_Value a
  | None => ""
  end.

(** [strconv.ParseUint(v, 10, 32)]. *)
Definition ParseUint32 (v : string) : option Z :=
  let t := chars v in
  if bool_decide (t = []) || negb (forallb is_digit t) then None
  else if value t <? 2 ^ 32 then Some (value t) else None.

Definition attrUint32 (ev : Event) (key : string) : option Z :=
  let v := attr ev key in if empty v then None else ParseUint32 v.

Definition usovrAmount (coins : string) : Z :=
  if empty coins then 0
  else match parseCoinsAmountOf coins BaseDenom with Some n => n | None => 0 end.

Definition is_type (t : string) (ev : Event) : bool := bool_decide (ev_Type ev = t).

Definition fee_attrs (ev : Event) : bool * string * string :=
  fold_left (fun acc a =>
    let '(has, f, p) := acc in
    if bool_decide (at_Key a = "fee") then (true, at_Value a, p)
    else if bool_decide (at_Key a = "fee_payer") then (has, f, at_Value a)
    else acc) (ev_Attributes ev) (false, "", "").

(** (fee, payer), when a fee event is present. *)
Fixpoint findFeeEvent (events : list Event) : option (string * string) :=
  match events with
  | [] => None
  | ev :: events' =>
      if is_type "tx" ev then
        match fee_attrs ev with (true, f, p) => Some (f, p) | _ => findFeeEvent events' end
      else findFeeEvent events'
  end.

Definition findFeeGrantUse (events : list Event) : option string :=
  match List.find (is_type "use_feegrant") events with
  | Some ev => Some (attr ev "granter")
  | None => None
  end.

(** The payer of the fee: the granter when a grant was used, else the explicit
    payer, else the event's. *)
Definition fee_payer (auth : option AuthInfo) (grant : option string) (payerAttr : string) : string :=
  let explicit := match auth with
                  | Some ai => match ai_Fee ai with Some fee => fm_Payer fee | None => "" end
                  | None => ""
                  end in
  match grant with
  | Some g => if negb (empty g) then g else if negb (empty explicit) then explicit else payerAttr
  | None => if negb (empty explicit) then explicit else payerAttr
  end.

Definition feeDeduction (txHash : string) (auth : option AuthInfo) (res : TxExecResult) : list FeeDeduction :=
  match findFeeEvent (tr_Events res) with
  | None => []
  | Some (feeStr, payerAttr) =>
      let grant := findFeeGrantUse (tr_Events res) in
      let payer := fee_payer auth grant payerAttr in
      if empty payer || negb (Contains watch payer) then []
      else
        let amt := usovrAmount feeStr in
        if negb (0 <? amt) then []
        else [MkFeeDeduction txHash payer amt (tr_Code res) (is_some grant) (default "" grant)]
  end.

(** (receiving, spending, counterparties) *)
Definition transferEventParties (ev : Event) : string * string * list string :=
  if is_type "transfer" ev then
    let i := attr ev "recipient" in
    let o := attr ev "sender" in
    (i, o, if negb (empty o) then [o] else if negb (empty i) then [i] else [])
  else if is_type "coin_received" ev then (attr ev "receiver", "", [])
  else if is_type "coin_spent" ev then ("", attr ev "spender", [])
  else ("", "", []).

Definition dir_string (d : LedgerDirection) : string := enum_string d.
Definition blockKey (d : LedgerDirection) (addr : string) (amt : Z) : string :=
  dir_string d ++ "|" ++ addr ++ "|" ++ of_chars (numeral amt).
Definition reviewKey (msgIdx : Z) (d : LedgerDirection) (addr : string) (amt : Z) : string :=
  of_chars (numeral msgIdx) ++ "|" ++ blockKey d addr amt.

Definition selectEventFamily (fromTransfer : bool) (keys : list string) (key : string) : bool :=
  fromTransfer || negb (bool_decide (key ∈ keys)).

(** The keys of the transfer view of one event. *)
Definition event_keys (key : LedgerDirection -> string -> Z -> string) (ev : Event) : list string :=
  let amt := usovrAmount (attr ev "amount") in
  if negb (0 <? amt) then []
  else
    let '(i, o, _) := transferEventParties ev in
    (if negb (empty i) then [key DirectionIn i amt] else []) ++
    (if negb (empty o) then [key DirectionOut o amt] else []).

Definition transfer_keys (msgIdxOf : Event -> option Z) (attributed : list Z) (events : list Event)
    : list string :=
  flat_map (fun ev =>
    if negb (is_type "transfer" ev) then []
    else match msgIdxOf ev with
         | None => []
         | Some mi => if bool_decide (mi ∈ attributed) then [] else event_keys (reviewKey mi) ev
         end) events.

Definition msgIndex (ev : Event) : option Z := attrUint32 ev "msg_index".

(** The review rows of one event. *)
Definition event_rows (txHash : string) (res : TxExecResult) (attributed : list Z) (keys : list string)
    (evIdx : Z) (ev : Event) : list ReviewCandidate :=
  match msgIndex ev with
  | None => []
  | Some mi =>
      if bool_decide (mi ∈ attributed) then []
      else
        let '(i, o, counter) := transferEventParties ev in
        let amt := usovrAmount (attr ev "amount") in
        if negb (0 <? amt) then []
        else
          let fromTransfer := is_type "transfer" ev in
          let base := wrap32 (ReviewOpIndexBase + 2 * wrap32 evIdx) in
          (if negb (empty i) && Contains watch i &&
              selectEventFamily fromTransfer keys (reviewKey mi DirectionIn i amt)
           then [MkReviewCandidate txHash mi (wrap32 evIdx) base DirectionIn i counter amt (tr_Code res)
                   "unattributed transfer activity to watched address (unsupported message shape — FR-030)"]
           else []) ++
          (if negb (empty o) && Contains watch o &&
              selectEventFamily fromTransfer keys (reviewKey mi DirectionOut o amt)
           then [MkReviewCandidate txHash mi (wrap32 evIdx) (wrap32 (base + 1)) DirectionOut o counter amt
                   (tr_Code res) "unattributed outflow from watched address (unsupported message shape — FR-030)"]
           else [])
  end.

Fixpoint indexed {A B} (f : Z -> A -> list B) (i : Z) (l : list A) : list B :=
  match l with
  | [] => []
  | a :: l' => f i a ++ indexed f (i + 1) l'
  end.

Definition eventReview (txHash : string) (res : TxExecResult) (attributed : list Z) : list ReviewCandidate :=
  indexed (event_rows txHash res attributed (transfer_keys msgIndex attributed (tr_Events res))) 0
    (tr_Events res).

Definition block_event_rows (keys : list string) (evIdx : Z) (ev : Event) : list BlockEventEntry :=
  let '(i, o, counter) := transferEventParties ev in
  let amt := usovrAmount (attr ev "amount") in
  if negb (0 <? amt) then []
  else
    let fromTransfer := is_type "transfer" ev in
    let base := wrap32 (2 * wrap32 evIdx) in
    (if negb (empty i) && Contains watch i &&
        selectEventFamily fromTransfer keys (blockKey DirectionIn i amt)
     then [MkBlockEvent base DirectionIn i counter amt "block-scoped transfer activity to watched address (no transaction association)"]
     else []) ++
    (if negb (empty o) && Contains watch o &&
        selectEventFamily fromTransfer keys (blockKey DirectionOut o amt)
     then [MkBlockEvent (wrap32 (base + 1)) DirectionOut o counter amt
             "block-scoped outflow from watched address (no transaction association)"]
     else []).

Definition blockEvents (events : list Event) : list BlockEventEntry :=
  indexed (block_event_rows (flat_map (fun ev => if is_type "transfer" ev then event_keys blockKey ev else [])
                               events)) 0 events.

(** ** One transaction *)

(** What one message contributes: its rows and whether it was attributed. *)
Definition message (txHash : string) (memo : string) (res : TxExecResult) (mi : Z) (msg : option Any)
    : result failure (list TransferCandidate * bool) :=
  match msg with
  | None => Ok ([], false)
  | Some a =>
      if bool_decide (any_TypeUrl a = TypeURLMsgSend) then
        match decodeMsgSend (any_Value a) with
        | None => Ok ([], false)
        | Some m => match send txHash mi m memo res with Ok rows => Ok (rows, true) | Err e => Err e end
        end
      else if bool_decide (any_TypeUrl a = TypeURLMsgMultiSend) then
        match decodeMsgMultiSend (any_Value a) with
        | None => Ok ([], false)
        | Some m => match multiSend txHash mi m memo res with Ok rows => Ok (rows, true) | Err e => Err e end
        end
      else Ok ([], false)
  end.

(** The message loop: rows, attributed indexes, whether all were attributed. *)
Fixpoint messages (txHash memo : string) (res : TxExecResult) (i : Z) (msgs : list (option Any))
    : result failure (list TransferCandidate * list Z * bool) :=
  match msgs with
  | [] => Ok ([], [], true)
  | msg :: msgs' =>
      match message txHash memo res (wrap32 i) msg with
      | Err e => Err e
      | Ok (rows, ok) =>
          match messages txHash memo res (i + 1) msgs' with
          | Err e => Err e
          | Ok (rows', att', all) =>
              Ok (rows ++ rows', (if ok then [wrap32 i] else []) ++ att', ok && all)
          end
      end
  end.

Record TxParse : Type := MkTxParse {
  tp_Transfers : list TransferCandidate; tp_Fees : list FeeDeduction; tp_Reviews : list ReviewCandidate }.

Definition parse_tx (txBytes : bytes) (res : TxExecResult) : result failure TxParse :=
  let txHash := Hash.TxHash txBytes in
  let raw := unmarshalTxRaw txBytes in
  let body := match raw with Some (b, _) => unmarshalTxBody b | None => None end in
  let auth := match raw with Some (_, a) => unmarshalAuthInfo a | None => None end in
  let finish rows attributed full :=
    MkTxParse rows (feeDeduction txHash auth res)
      (if negb full && (tr_Code res =? 0) then eventReview txHash res attributed else []) in
  match body with
  | None => Ok (finish [] [] false)
  | Some (msgs, memo) =>
      match messages txHash memo res 0 msgs with
      | Err e => Err e
      | Ok (rows, attributed, full) => Ok (finish rows attributed full)
      end
  end.

(** The transaction loop of [ParseBlockTransfers]. *)
Fixpoint parse_txs (l : list (bytes * TxExecResult)) : result failure (list TxParse) :=
  match l with
  | [] => Ok []
  | (b, r) :: l' =>
      match parse_tx b r with
      | Err e => Err e
      | Ok t => match parse_txs l' with Err e => Err e | Ok ts => Ok (t :: ts) end
      end
  end.

Definition ParseBlockTransfers (block : Block) (results : BlockResults) : result failure BlockParse :=
  if negb (bl_Height block =? rs_Height results) then Err Invalid
  else if negb (List.length (bl_Txs block) =? List.length (rs_TxResults results))%nat then Err Invalid
  else if bl_Height block <? 0 then Err Invalid
  else
    match parse_txs (zip (bl_Txs block) (rs_TxResults results)) with
    | Err e => Err e
    | Ok ts => Ok (MkBlockParse (bl_ChainID block) (bl_Height block) (Hash.HexUpper (bl_Hash block))
                     (Hash.HexUpper (bl_LastBlockHash block)) (bl_Time block)
                     (flat_map tp_Transfers ts) (flat_map tp_Fees ts) (flat_map tp_Reviews ts)
                     (blockEvents (rs_FinalizeBlockEvents results)))
    end.

(** ** Deposits are exactly the external usovr outputs *)

Lemma collect_elem {A B} (f : Z -> A -> result failure (list B)) i l rows c :
  collect f i l = Ok rows ->
  c ∈ rows <-> exists k a r, l !! k = Some a /\ f (i + Z.of_nat k) a = Ok r /\ c ∈ r.
Proof.
  revert i rows. induction l as [|a l IH]; intros i rows; cbn [collect].
  - intros [= <-]. rewrite elem_of_nil. split; [done|]. by intros (k & a & r & ? & _).
  - destruct (f i a) as [r|e] eqn:Hf; [|done].
    destruct (collect f (i + 1) l) as [rest|e] eqn:Hc; [|done]. intros [= <-].
    rewrite elem_of_app, (IH _ _ Hc). split.
    + intros [Hr|(k & a' & r' & Hk & Hf' & Hr')].
      * exists 0%nat, a, r. rewrite Z.add_0_r. done.
      * exists (S k), a', r'. split_and!; [done| |done]. rewrite <-Hf'. f_equal. lia.
    + intros ([|k] & a' & r' & Hk & Hf' & Hr').
      * injection Hk as <-. rewrite Z.add_0_r, Hf in Hf'. injection Hf' as <-. by left.
      * right. exists k, a', r'. split_and!; [done| |done]. rewrite <-Hf'. f_equal. lia.
Qed.

Lemma watchStats_fold l b1 b2 :
  fst (fold_left (fun st a => if Contains watch a then (true, snd st) else (fst st, false)) l (b1, b2))
  = b1 || existsb (Contains watch) l.
Proof.
  revert b1 b2. induction l as [|a l IH]; intros b1 b2; simpl; [by rewrite orb_false_r|].
  destruct (Contains watch a); simpl; rewrite IH; [|done]. by rewrite orb_true_r.
Qed.

(** No input is exchange-controlled. *)
Definition external (inputs : list string) : Prop := forall i, i ∈ inputs -> Contains watch i = false.

Lemma watchStats_any inputs : fst (watchStats watch inputs) = false <-> external inputs.
Proof.
  unfold watchStats, external. rewrite watchStats_fold. simpl. split.
  - intros H i Hi. apply not_true_iff_false. intros Hc. apply not_true_iff_false in H. apply H.
    apply existsb_exists. exists i. by rewrite <-list_elem_of_In.
  - intros H. apply not_true_iff_false. intros (i & Hi & Hc)%existsb_exists.
    apply list_elem_of_In in Hi. by rewrite H in Hc.
Qed.

Lemma internal_not_external entry inputs : internalInSubtype entry inputs <> ClassExternalDeposit.
Proof. unfold internalInSubtype. destruct (existsb _ _); [done|]. by destruct (isVault _). Qed.

Lemma classifyIn_external entry inputs :
  fst (classifyIn entry inputs) = ClassExternalDeposit <-> external inputs.
Proof.
  rewrite <-watchStats_any. unfold classifyIn. destruct (watchStats watch inputs) as [anyW allW]. simpl.
  destruct anyW; simpl; [|done]. split; [|done]. destruct allW; [|done]. simpl.
  intros H. by apply internal_not_external in H.
Qed.

(** The deposit row of output [k], to [addr]. *)
Definition deposit_row_of (txHash memo : string) (res : TxExecResult) (mi k : Z) (inputs : list string)
    (addr : string) (entry : WatchedAddress) (amt : Z) : TransferCandidate :=
  MkTransfer txHash mi (wrap32 k) (wrap32 k) DirectionIn addr inputs
    (match inputs with [a] => Some a | _ => None end) BaseDenom amt memo (tr_Code res) (tr_Log res)
    ClassExternalDeposit (memo_reason entry ClassExternalDeposit "" memo).

(** Reference reading of a bank message: who pays, and the output coins in
    wire order. *)
Definition bank_transfer (a : Any) : option (list string * list (string * Coin)) :=
  if bool_decide (any_TypeUrl a = TypeURLMsgSend) then
    option_map (fun m => ([ms_FromAddress m], map (pair (ms_ToAddress m)) (ms_Amount m)))
      (decodeMsgSend (any_Value a))
  else if bool_decide (any_TypeUrl a = TypeURLMsgMultiSend) then
    option_map (fun m => (map io_Address (mm_Inputs m), flatten (mm_Outputs m)))
      (decodeMsgMultiSend (any_Value a))
  else None.

(** [c] is the deposit of some output of the message. *)
Definition message_deposit (txHash memo : string) (res : TxExecResult) (mi : Z) (a : Any)
    (c : TransferCandidate) : Prop :=
  exists inputs outs k addr coin amt entry,
    bank_transfer a = Some (inputs, outs) /\ outs !! k = Some (addr, coin) /\
    coin_Denom coin = BaseDenom /\ coin_Amount coin = Some amt /\ 0 < amt /\
    Get watch addr = Some entry /\ external inputs /\
    c = deposit_row_of txHash memo res mi (Z.of_nat k) inputs addr entry amt.

Definition is_deposit (c : TransferCandidate) : Prop :=
  c_Direction c = DirectionIn /\ c_Classification c = ClassExternalDeposit.

Lemma coin_amount_some coin amt :
  coin_amount coin = Ok (Some amt) <->
  coin_Denom coin = BaseDenom /\ coin_Amount coin = Some amt /\ 0 < amt.
Proof.
  unfold coin_amount. case_bool_decide as Hd; simpl; [|split; [done|by intros [? _]]].
  destruct (coin_Amount coin) as [n|]; [|split; [done|by intros (_ & ? & _)]].
  destruct (Z.ltb_spec 0 n); split; try done.
  - by intros [= <-].
  - by intros (_ & [= <-] & _).
  - intros (_ & [= <-] & ?). lia.
Qed.

Lemma in_row_deposit txHash mi k inputs addr amt memo res c :
  c ∈ in_row txHash mi (wrap32 k) inputs (match inputs with [a] => Some a | _ => None end) addr amt memo res /\
    is_deposit c <->
  exists entry, Get watch addr = Some entry /\ external inputs /\
    c = deposit_row_of txHash memo res mi k inputs addr entry amt.
Proof.
  unfold in_row. destruct (Get watch addr) as [entry|] eqn:Hg.
  2:{ split; [by intros [?%elem_of_nil _]|]. by intros (entry & ? & _). }
  pose proof (classifyIn_external entry inputs) as Hc.
  assert (fst (classifyIn entry inputs) = ClassExternalDeposit -> snd (classifyIn entry inputs) = "") as Hr.
  { unfold classifyIn. destruct (watchStats watch inputs) as [[] []]; simpl; try done. }
  destruct (classifyIn entry inputs) as [class reason]. simpl in Hc, Hr. split.
  - intros [Hin [_ Hcl]]. apply elem_of_cons in Hin as [->|Hn]; [|by apply elem_of_nil in Hn].
    simpl in Hcl. subst class. exists entry. split_and!; [done|by apply Hc|].
    unfold deposit_row_of. by rewrite (Hr eq_refl).
  - intros (entry' & [= <-] & Hext & ->). apply Hc in Hext. subst class. rewrite (Hr eq_refl).
    split; [by left|done].
Qed.

Lemma out_row_not_deposit txHash mi ci op outs addr amt memo res c :
  c ∈ out_row txHash mi ci op outs addr amt memo res -> c_Direction c = DirectionOut.
Proof.
  unfold out_row. destruct (Get watch addr); [|by intros ?%elem_of_nil].
  intros [->|Hn]%elem_of_cons; [done|by apply elem_of_nil in Hn].
Qed.

Lemma send_deposits txHash mi m memo res rows c :
  send txHash mi m memo res = Ok rows ->
  c ∈ rows /\ is_deposit c <->
  exists k coin amt entry, ms_Amount m !! k = Some coin /\ coin_amount coin = Ok (Some amt) /\
    Get watch (ms_ToAddress m) = Some entry /\ external [ms_FromAddress m] /\
    c = deposit_row_of txHash memo res mi (Z.of_nat k) [ms_FromAddress m] (ms_ToAddress m) entry amt.
Proof.
  intros H. unfold send in H. rewrite (collect_elem _ _ _ _ _ H). split.
  - intros [(k & coin & r & Hk & Hf & Hr) Hd]. rewrite Z.add_0_l in Hf.
    destruct (coin_amount coin) as [[amt|]|] eqn:Ha; simplify_eq; [|by apply elem_of_nil in Hr].
    apply elem_of_app in Hr as [Hr|Hr].
    + destruct (proj1 (in_row_deposit _ _ (Z.of_nat k) [ms_FromAddress m] _ _ _ _ c) (conj Hr Hd))
        as (entry & ? & ? & ?). eauto 10.
    + apply out_row_not_deposit in Hr. destruct Hd. congruence.
  - intros (k & coin & amt & entry & Hk & Ha & Hrest).
    destruct (proj2 (in_row_deposit txHash mi (Z.of_nat k) [ms_FromAddress m] (ms_ToAddress m) amt memo res c)
                (ex_intro _ entry Hrest)) as [Hin Hd]. split; [|done].
    exists k, coin. eexists. rewrite Z.add_0_l, Ha. split_and!; [done|reflexivity|].
    apply elem_of_app. by left.
Qed.

Lemma multiSend_deposits txHash mi m memo res rows c :
  multiSend txHash mi m memo res = Ok rows ->
  c ∈ rows /\ is_deposit c <->
  exists k addr coin amt entry, flatten (mm_Outputs m) !! k = Some (addr, coin) /\
    coin_amount coin = Ok (Some amt) /\ Get watch addr = Some entry /\
    external (map io_Address (mm_Inputs m)) /\
    c = deposit_row_of txHash memo res mi (Z.of_nat k) (map io_Address (mm_Inputs m)) addr entry amt.
Proof.
  intros H. unfold multiSend in H.
  destruct (collect _ 0 (flatten (mm_Outputs m))) as [ins|] eqn:Hi; [|done].
  destruct (collect _ 0 (flatten (mm_Inputs m))) as [outs|] eqn:Ho; [|done]. injection H as <-.
  rewrite elem_of_app, (collect_elem _ _ _ _ _ Hi), (collect_elem _ _ _ _ _ Ho). split.
  - intros [[(k & [addr coin] & r & Hk & Hf & Hr)|(k & [addr coin] & r & Hk & Hf & Hr)] Hd];
      rewrite Z.add_0_l in Hf; cbn [fst snd] in Hf;
      destruct (coin_amount coin) as [[amt|]|] eqn:Ha; simplify_eq; try by apply elem_of_nil in Hr.
    + destruct (proj1 (in_row_deposit _ _ (Z.of_nat k) _ _ _ _ _ c) (conj Hr Hd)) as (entry & ? & ? & ?).
      eauto 12.
    + apply out_row_not_deposit in Hr. destruct Hd. congruence.
  - intros (k & addr & coin & amt & entry & Hk & Ha & Hrest).
    destruct (proj2 (in_row_deposit txHash mi (Z.of_nat k) (map io_Address (mm_Inputs m)) addr amt memo res c)
                (ex_intro _ entry Hrest)) as [Hin Hd]. split; [|done]. left.
    exists k, (addr, coin). eexists. rewrite Z.add_0_l. cbn [fst snd]. rewrite Ha.
    split_and!; [done|reflexivity|done].
Qed.

Lemma message_deposits txHash memo res mi msg rows ok c :
  message txHash memo res mi msg = Ok (rows, ok) ->
  c ∈ rows /\ is_deposit c <-> exists a, msg = Some a /\ message_deposit txHash memo res mi a c.
Proof.
  intros H. unfold message in H. destruct msg as [a|].
  2:{ injection H as <- <-. split; [by intros [?%elem_of_nil _]|]. by intros (a & ? & _). }
  assert (c ∈ rows /\ is_deposit c <-> message_deposit txHash memo res mi a c) as Hiff.
  2:{ rewrite Hiff. split; [eauto|]. by intros (a' & [= <-] & ?). }
  unfold message_deposit, bank_transfer.
  case_bool_decide; [|case_bool_decide].
  - destruct (decodeMsgSend (any_Value a)) as [m|].
    + destruct (send _ _ _ _ _) as [r|] eqn:Hs; [|done]. injection H as <- <-.
      rewrite (send_deposits _ _ _ _ _ _ c Hs). split.
      * intros (k & coin & amt & entry & Hk & (Hd & Ha & Hp)%coin_amount_some & Hg & He & Hc).
        eexists _, _, k, _, coin, amt, entry. split; [reflexivity|]. split_and!; try done.
        by rewrite list_lookup_fmap, Hk.
      * intros (inputs & outs & k & addr & coin & amt & entry & [= <- <-] & Hk & Hd & Ha & Hp & Hg & He & Hc).
        rewrite list_lookup_fmap_Some in Hk. destruct Hk as (coin' & [= -> ->] & Hk).
        exists k, coin', amt, entry. split_and!; try done. by apply coin_amount_some.
    + injection H as <- <-. split; [by intros [?%elem_of_nil _]|]. by intros (? & ? & ? & ? & ? & ? & ? & ? & _).
  - destruct (decodeMsgMultiSend (any_Value a)) as [m|].
    + destruct (multiSend _ _ _ _ _) as [r|] eqn:Hs; [|done]. injection H as <- <-.
      rewrite (multiSend_deposits _ _ _ _ _ _ c Hs). split.
      * intros (k & addr & coin & amt & entry & Hk & (Hd & Ha & Hp)%coin_amount_some & Hg & He & Hc).
        eexists _, _, k, addr, coin, amt, entry. split; [reflexivity|]. by split_and!.
      * intros (inputs & outs & k & addr & coin & amt & entry & [= <- <-] & Hk & Hd & Ha & Hp & Hg & He & Hc).
        exists k, addr, coin, amt, entry. split_and!; try done. by apply coin_amount_some.
    + injection H as <- <-. split; [by intros [?%elem_of_nil _]|]. by intros (? & ? & ? & ? & ? & ? & ? & ? & _).
  - injection H as <- <-. split; [by intros [?%elem_of_nil _]|]. by intros (? & ? & ? & ? & ? & ? & ? & ? & _).
Qed.

Lemma messages_deposits txHash memo res i msgs rows att full c :
  messages txHash memo res i msgs = Ok (rows, att, full) ->
  c ∈ rows /\ is_deposit c <->
  exists k a, msgs !! k = Some (Some a) /\
    message_deposit txHash memo res (wrap32 (i + Z.of_nat k)) a c.
Proof.
  revert i rows att full. induction msgs as [|msg msgs IH]; intros i rows att full; cbn [messages].
  - intros [= <- <- <-]. split; [by intros [?%elem_of_nil _]|]. by intros (k & a & ? & _).
  - destruct (message _ _ _ _ msg) as [[r ok]|] eqn:Hm; [|done].
    destruct (messages _ _ _ (i + 1) msgs) as [[[r' att'] all]|] eqn:Hms; [|done]. intros [= <- <- <-].
    pose proof (message_deposits _ _ _ _ _ _ _ c Hm) as H1. pose proof (IH _ _ _ _ Hms) as H2.
    rewrite elem_of_app. split.
    + intros [[Hc|Hc] Hd].
      * destruct (proj1 H1 (conj Hc Hd)) as (a & -> & Ha). exists 0%nat, a. by rewrite Z.add_0_r.
      * destruct (proj1 H2 (conj Hc Hd)) as (k & a & Hk & Ha). exists (S k), a. split; [done|].
        replace (i + Z.of_nat (S k)) with (i + 1 + Z.of_nat k) by lia. done.
    + intros ([|k] & a & Hk & Ha).
      * rewrite Z.add_0_r in Ha. injection Hk as ->. destruct (proj2 H1 (ex_intro _ a (conj eq_refl Ha))). auto.
      * replace (i + Z.of_nat (S k)) with (i + 1 + Z.of_nat k) in Ha by lia.
        destruct (proj2 H2 (ex_intro _ k (ex_intro _ a (conj Hk Ha)))). auto.
Qed.

(** [c] is the deposit of some output of some message of the transaction. *)
Definition tx_deposit (txBytes : bytes) (res : TxExecResult) (c : TransferCandidate) : Prop :=
  exists body auth msgs memo k a,
    unmarshalTxRaw txBytes = Some (body, auth) /\ unmarshalTxBody body = Some (msgs, memo) /\
    msgs !! k = Some (Some a) /\
    message_deposit (Hash.TxHash txBytes) memo res (wrap32 (Z.of_nat k)) a c.

Lemma parse_tx_deposits txBytes res t c :
  parse_tx txBytes res = Ok t ->
  c ∈ tp_Transfers t /\ is_deposit c <-> tx_deposit txBytes res c.
Proof.
  unfold parse_tx, tx_deposit. destruct (unmarshalTxRaw txBytes) as [[body auth]|]; simpl.
  - destruct (unmarshalTxBody body) as [[msgs memo]|] eqn:Hb.
    + destruct (messages _ _ _ 0 msgs) as [[[rows att] full]|] eqn:Hm; [|done]. intros [= <-]. simpl.
      rewrite (messages_deposits _ _ _ _ _ _ _ _ c Hm). split.
      * intros (k & a & Hk & Ha). eauto 12.
      * intros (body' & auth' & msgs' & memo' & k & a & [= <- <-] & Hb' & Hk & Ha).
        rewrite Hb in Hb'. injection Hb' as <- <-. eauto.
    + intros [= <-]. simpl. split; [by intros [?%elem_of_nil _]|].
      intros (body' & auth' & msgs' & memo' & k & a & [= <- <-] & Hb' & _). congruence.
  - intros [= <-]. simpl. split; [by intros [?%elem_of_nil _]|]. by intros (? & ? & ? & ? & ? & ? & ? & _).
Qed.

Lemma parse_txs_elem l ts t :
  parse_txs l = Ok ts -> t ∈ ts <-> exists i b r, l !! i = Some (b, r) /\ parse_tx b r = Ok t.
Proof.
  revert ts. induction l as [|[b r] l IH]; intros ts; cbn [parse_txs].
  - intros [= <-]. rewrite elem_of_nil. split; [done|]. by intros (i & b & r & ? & _).
  - destruct (parse_tx b r) as [t0|] eqn:Ht; [|done]. destruct (parse_txs l) as [ts'|]; [|done].
    intros [= <-]. rewrite elem_of_cons, (IH _ eq_refl). split.
    + intros [->|(i & b' & r' & Hi & Hp)]; [by exists 0%nat, b, r | by exists (S i), b', r'].
    + intros ([|i] & b' & r' & Hi & Hp); [left; simpl in Hi; congruence | right; eauto].
Qed.

Lemma parse_txs_lookup l ts i b r :
  parse_txs l = Ok ts -> l !! i = Some (b, r) -> exists t, parse_tx b r = Ok t.
Proof.
  revert ts i. induction l as [|[b' r'] l IH]; intros ts i H Hi; [done|]. cbn [parse_txs] in H.
  destruct (parse_tx b' r') as [t|] eqn:Ht; [|done]. destruct (parse_txs l) as [ts'|]; [|done].
  destruct i as [|i]; [injection Hi as -> ->; eauto | by eapply (IH ts' i)].
Qed.

(** C17: deposits are exactly the external usovr outputs.  A block's transfer
    rows that lead to deposits (direction IN, classified EXTERNAL_DEPOSIT) are
    precisely the rows of the positive usovr coins that a bank MsgSend or
    MsgMultiSend of a decodable transaction pays to a watched address from
    inputs none of which is watched: with the transaction's hash, the message
    index and the coin's index in wire order, the exact amount, memo and
    execution code.  Nothing else becomes a deposit and nothing of this shape
    is missed. *)
Theorem deposits_exact (block : Block) (results : BlockResults) (bp : BlockParse) (c : TransferCandidate)
    (H : ParseBlockTransfers block results = Ok bp) :
  c ∈ bp_Transfers bp /\ is_deposit c <->
  exists i txBytes res, bl_Txs block !! i = Some txBytes /\ rs_TxResults results !! i = Some res /\
    tx_deposit txBytes res c.
Proof.
  unfold ParseBlockTransfers in H. destruct (_ =? _); [|done]. destruct (_ =? _)%nat; [|done].
  destruct (_ <? _); [done|]. simpl in H.
  destruct (parse_txs _) as [ts|] eqn:Hp; [|done]. injection H as <-. simpl.
  rewrite list_elem_of_In, in_flat_map. split.
  - intros [(t & Ht & Hc) Hd]. apply list_elem_of_In in Ht, Hc.
    apply (parse_txs_elem _ _ _ Hp) in Ht as (i & b & r & Hi & Hpt).
    apply lookup_zip_with_Some in Hi as (b' & r' & [= -> ->] & Hb & Hr).
    exists i, b', r'. split_and!; [done..|]. by apply (parse_tx_deposits _ _ _ _ Hpt).
  - intros (i & b & r & Hb & Hr & Hd).
    assert (zip (bl_Txs block) (rs_TxResults results) !! i = Some (b, r)) as Hi
      by (apply lookup_zip_with_Some; eauto).
    destruct (parse_txs_lookup _ _ _ _ _ Hp Hi) as (t & Hpt).
    apply (parse_tx_deposits _ _ _ c Hpt) in Hd as [Hc Hd]. split; [|done].
    exists t. rewrite <-!list_elem_of_In. split; [|done]. apply (parse_txs_elem _ _ _ Hp). eauto.
Qed.
End parser.

(** *** A concrete block *)

(** Decoders for one transaction that pays 25 usovr to a customer address. *)
Definition ex_scan : ScanExt := {|
  unmarshalTxRaw b := Some (b, []);
  unmarshalTxBody b := Some ([Some (MkAny TypeURLMsgSend b)], "order 7");
  unmarshalAuthInfo _ := None;
  decodeMsgSend _ := Some (MkMsgSend "sovr1payer" "sovr1customer" [MkCoin BaseDenom (Some 25)]);
  decodeMsgMultiSend _ := None;
  parseCoinsAmountOf _ _ := None |}.
Definition ex_customer : WatchedAddress :=
  MkWatched "sovren-1" "sovr1customer" WatchCustomerDeposit "cust" false true.
Definition ex_watch : WatchSet := NewWatchSet [ex_customer].
Definition ex_block : Block :=
  MkBlock "sovren-1" 10 [Byte.xab] 1000 [Byte.xaa] [[Byte.x01]].
Definition ex_results : BlockResults := MkBlockResults 10 [MkTxResult 0 "" []] [].
Definition ex_parsed : BlockParse :=
  match ParseBlockTransfers (X := ex_scan) ex_watch ex_block ex_results with
  | Ok bp => bp
  | Err _ => MkBlockParse "" 0 "" "" 0 [] [] [] []
  end.
Definition ex_candidate : TransferCandidate :=
  MkTransfer (Hash.TxHash [Byte.x01]) 0 0 0 DirectionIn "sovr1customer" ["sovr1payer"] (Some "sovr1payer")
    BaseDenom 25 "order 7" 0 "" ClassExternalDeposit "".

Lemma deposits_exact_witness :
  ParseBlockTransfers (X := ex_scan) ex_watch ex_block ex_results = Ok ex_parsed /\
  bp_Transfers ex_parsed = [ex_candidate] /\
  exists i txBytes res, bl_Txs ex_block !! i = Some txBytes /\ rs_TxResults ex_results !! i = Some res /\
    tx_deposit (X := ex_scan) ex_watch txBytes res ex_candidate.
Proof.
  assert (ParseBlockTransfers (X := ex_scan) ex_watch ex_block ex_results = Ok ex_parsed) as H
    by (vm_compute; reflexivity).
  assert (bp_Transfers ex_parsed = [ex_candidate]) as Hb by (vm_compute; reflexivity).
  split; [exact H|]. split; [exact Hb|].
  apply (deposits_exact (X := ex_scan) ex_watch ex_block ex_results ex_parsed ex_candidate H).
  rewrite Hb. split; [by left | by split].
Defined.

End Parse.
