(* ===== verification/Reconcile.v ===== *)
(** * Reconcile: the reconciliation engine

    [go/reconcile/reconcile.go], [business.go], [schedule.go] and
    [disagreement.go].  A method of [Reconciler] is a handler; the loops that
    page through the ledger are unbounded in the code, so the model gives them
    a number of pages as fuel and returns [OutOfFuel] when it is used up
    ([ReconcileLaws.walk_ledger_terminates] says how many are enough).  The
    random ids are answers of the environment, the two-node comparison is the
    [Comparer] interface ([Failover] models its implementation).  Logging and
    metrics are left out, the tickers too: a pass is a handler of its own. *)

From stdpp Require Import base list strings gmap.
From Stdlib Require Import ZArith Lia String.
From S2P Require Import Prelude Workers Text Storage Database SqlStore Chain Tx Parse.
Import SqlStore Parse.

Open Scope string_scope.
Open Scope list_scope.
Open Scope Z_scope.

Module Reconcile.

Definition ledgerPageSize : Z := 500.
Definition maxRelatedTxHashes : nat := 50.
Definition workflowListLimit : Z := 10000.

(** [chain] may be nil. *)
Record Reconciler : Type := MkReconciler { rc_chain : bool; rc_ChainID : string }.

Definition New (chain : bool) (chainID : string) : result err Reconciler :=
  if empty chainID then Err ErrOther else Ok (MkReconciler chain chainID).

Record LedgerPosition : Type := MkPosition {
  lp_Expected : Z; lp_EarliestHeight : Z; lp_LatestHeight : Z;
  lp_RelatedTxHashes : list string; lp_Rows : Z }.

Definition recommendedRescan (earliest : Z) : Z := if earliest =? 0 then 1 else earliest.

Definition isOperationalWallet (k : WatchedAddressKind) : bool :=
  bool_decide (k = WatchHotWallet) || bool_decide (k = WatchColdWallet) || bool_decide (k = WatchFeeWallet).

Definition signedAmount (d : LedgerDirection) (amt : Z) : Z :=
  match d with DirectionOut => - amt | DirectionIn => amt end.

(** ** Expected balances *)

(** The heights and hashes a row adds to the position; [seen] are the hashes
    met so far. *)
Definition note_height (h : Z) (p : LedgerPosition) : LedgerPosition :=
  MkPosition (lp_Expected p)
    (if (lp_EarliestHeight p =? 0) || (h <? lp_EarliestHeight p) then h else lp_EarliestHeight p)
    (if lp_LatestHeight p <? h then h else lp_LatestHeight p) (lp_RelatedTxHashes p) (lp_Rows p).

Definition note_hash (hash : string) (a : LedgerPosition * gset string) : LedgerPosition * gset string :=
  let '(p, seen) := a in
  if empty hash || bool_decide (hash ∈ seen) then (p, seen)
  else
    (if (List.length (lp_RelatedTxHashes p) <? maxRelatedTxHashes)%nat
     then MkPosition (lp_Expected p) (lp_EarliestHeight p) (lp_LatestHeight p)
            (lp_RelatedTxHashes p ++ [hash]) (lp_Rows p)
     else p, {[hash]} ∪ seen).

Definition add_expected (v : Z) (p : LedgerPosition) : LedgerPosition :=
  MkPosition (lp_Expected p + v) (lp_EarliestHeight p) (lp_LatestHeight p) (lp_RelatedTxHashes p) (lp_Rows p).
Definition add_row (p : LedgerPosition) : LedgerPosition :=
  MkPosition (lp_Expected p) (lp_EarliestHeight p) (lp_LatestHeight p) (lp_RelatedTxHashes p) (lp_Rows p + 1).

(** One ledger row. *)
Definition count_entry (a : LedgerPosition * gset string) (e : LedgerEntry) : LedgerPosition * gset string :=
  if negb (e_TxCode e =? 0) then a
  else
    let '(p, seen) := a in
    let '(p, seen) := note_hash (e_TxHash e) (note_height (e_BlockHeight e) (add_row p), seen) in
    (add_expected (signedAmount (e_Direction e) (e_AmountBaseUnits e)) p, seen).

(** One fee outflow. *)
Definition count_fee (a : LedgerPosition * gset string) (f : FeeOutflow) : LedgerPosition * gset string :=
  let '(p, seen) := a in
  note_hash (fo_TxHash f) (note_height (fo_BlockHeight f) (add_expected (- fo_FeeBaseUnits f) p), seen).

Section reconciler.
Context (r : Reconciler).
Notation chainID := (rc_ChainID r).

Definition page_query (address : string) (afterID : Z) : LedgerQuery :=
  MkLedgerQuery chainID address 0 0 afterID ledgerPageSize.

Definition last_id (afterID : Z) (page : list LedgerEntry) : Z := fold_left (fun _ e => e_ID e) page afterID.

(** The paging loop, folding [f] over the rows; at most [n] pages. *)
Fixpoint walk {A} (n : nat) (f : A -> LedgerEntry -> A) (address : string) (afterID : Z) (acc : A)
    : handler (result err A) :=
  match n with
  | O => Done (Err OutOfFuel)
  | S n' =>
      let? page := stmt (Ledger_List (page_query address afterID)) in
      if (Z.of_nat (List.length page) <? ledgerPageSize) then Done (Ok (fold_left f page acc))
      else walk n' f address (last_id afterID page) (fold_left f page acc)
  end.

Definition walkLedger {A} (n : nat) (address : string) (f : A -> LedgerEntry -> A) (acc : A)
    : handler (result err A) :=
  walk n f address 0 acc.

Definition no_position : LedgerPosition := MkPosition 0 0 0 [] 0.

Definition ExpectedBalance (n : nat) (address : string) : handler (result err LedgerPosition) :=
  let? a := walk n count_entry address 0 (no_position, ∅) in
  let? fees := stmt (Ledger_ListFeeOutflows chainID address 0 0) in
  Done (Ok (fst (fold_left count_fee fees a))).

Definition address_entry (address : string) (pos : LedgerPosition) (observed : Z) : ReconciliationEntry :=
  let diff := observed - lp_Expected pos in
  if diff =? 0 then MkReconEntry address (lp_Expected pos) observed diff 0 [] 0
  else MkReconEntry address (lp_Expected pos) observed diff (lp_EarliestHeight pos) (lp_RelatedTxHashes pos)
         (recommendedRescan (lp_EarliestHeight pos)).

Definition ReconcileAddress (n : nat) (address : string) : handler (result err ReconciliationEntry) :=
  if negb (rc_chain r) then Done (Err ErrOther)
  else
    let? pos := ExpectedBalance n address in
    let? observed := ask (CBalance address BaseDenom) in
    Done (Ok (address_entry address pos observed)).

(** ** Reports *)

(** The zero time is [0]. *)
Definition periodStart (kind : ReconciliationKind) (now : Z) : handler Z :=
  let* prev := stmt (Recon_ListReports chainID kind 1) in
  Done (match prev with
        | Err _ | Ok [] => 0
        | Ok (p :: _) => if now <? rr_GeneratedAt p then now else rr_GeneratedAt p
        end).

Definition discrepancies (entries : list ReconciliationEntry) : Z :=
  Z.of_nat (List.length (List.filter (fun e => negb (re_Difference e =? 0)) entries)).

(** The report; the code also hands it back, unsaved, next to an error of
    [SaveReport]. *)
Definition finishReport (kind : ReconciliationKind) (entries : list ReconciliationEntry)
    : handler (result err ReconciliationReport) :=
  let* now := ask CNow in
  let* id := ask CNewID in
  let* start := periodStart kind now in
  let rep := MkReport id chainID kind start now now entries (discrepancies entries) in
  if bool_decide (kind = ReconTxNearRealTime) && (rr_DiscrepancyCount rep =? 0) then Done (Ok rep)
  else let? _ := stmt (Recon_SaveReport rep) in Done (Ok rep).

Fixpoint run_loop (n : nat) (kind : ReconciliationKind) (watched : list WatchedAddress)
    (entries : list ReconciliationEntry) : handler (result err (list ReconciliationEntry)) :=
  match watched with
  | [] => Done (Ok entries)
  | w :: watched' =>
      if bool_decide (kind = ReconWalletHourly) && negb (isOperationalWallet (wa_Kind w))
      then run_loop n kind watched' entries
      else let? e := ReconcileAddress n (wa_Address w) in run_loop n kind watched' (entries ++ [e])
  end.

Definition Run (n : nat) (kind : ReconciliationKind) : handler (result err ReconciliationReport) :=
  if negb (Valid kind) || bool_decide (kind = ReconTxNearRealTime) then Done (Err ErrOther)
  else
    let? watched := stmt (Watch_ListActive chainID) in
    let? entries := run_loop n kind watched [] in
    finishReport kind entries.

Definition ReconcileAddressReport (n : nat) (address : string) : handler (result err ReconciliationReport) :=
  let? entry := ReconcileAddress n address in
  finishReport ReconManual [entry].

(** ** One transaction *)

Section tx.
Context `{X : ScanExt}.

Definition tx_entry (address : string) (expected observed height : Z) (hash : string) : ReconciliationEntry :=
  MkReconEntry address expected observed (observed - expected) height [hash] (recommendedRescan height).

(** The transfers of the transaction against their ledger rows. *)
Fixpoint tx_transfers (height : Z) (cs : list TransferCandidate) (entries : list ReconciliationEntry)
    : handler (result err (list ReconciliationEntry)) :=
  match cs with
  | [] => Done (Ok entries)
  | c :: cs' =>
      if negb (c_TxCode c =? 0) then tx_transfers height cs' entries
      else
        let observed := signedAmount (c_Direction c) (c_AmountBaseUnits c) in
        let* stored := stmt (Ledger_GetTxEntry chainID (c_TxHash c) (c_MessageIndex c) (c_OpIndex c)) in
        let next expected :=
          tx_transfers height cs'
            (if expected =? observed then entries
             else entries ++ [tx_entry (c_Address c) expected observed height (c_TxHash c)]) in
        match stored with
        | Ok e => next (signedAmount (e_Direction e) (e_AmountBaseUnits e))
        | Err ErrNotFound => next 0
        | Err er => Done (Err er)
        end
  end.

(** The fees of the transaction against the fee outflows. *)
Fixpoint tx_fees (height : Z) (txHash : string) (fs : list FeeDeduction) (entries : list ReconciliationEntry)
    : handler (result err (list ReconciliationEntry)) :=
  match fs with
  | [] => Done (Ok entries)
  | f :: fs' =>
      let? rows := stmt (Ledger_ListFeeOutflows chainID (fd_PayerAddress f) height height) in
      let found := existsb (fun row => bool_decide (fo_TxHash row = txHash) &&
                                       (fo_FeeBaseUnits row =? fd_FeeBaseUnits f)) rows in
      tx_fees height txHash fs'
        (if found then entries
         else entries ++ [tx_entry (fd_PayerAddress f) 0 (- fd_FeeBaseUnits f) height txHash])
  end.

Definition single_tx_parse (watch : WatchSet) (info : TxInfo) : result failure BlockParse :=
  ParseBlockTransfers watch
    (MkBlock chainID (ti_Height info) [] 0 [] [ti_TxBytes info])
    (MkBlockResults (ti_Height info) [MkTxResult (ti_Code info) (ti_RawLog info) (ti_Events info)] []).

Definition ReconcileTx (txHash : string) (kind : ReconciliationKind)
    : handler (result err ReconciliationReport) :=
  if negb (bool_decide (kind = ReconTxNearRealTime) || bool_decide (kind = ReconManual))
  then Done (Err ErrOther)
  else if negb (rc_chain r) then Done (Err ErrOther)
  else
    let* looked := ask (CTx txHash) in
    match looked with
    | Err ErrClientNotFound => finishReport kind []
    | Err er => Done (Err er)
    | Ok None => Done (Err Panicked)
    | Ok (Some info) =>
        let? watched := stmt (Watch_ListActive chainID) in
        match single_tx_parse (NewWatchSet watched) info with
        | Err Panic => Done (Err Panicked)
        | Err Invalid => Done (Err ErrOther)
        | Ok bp =>
            let height := asU64 (ti_Height info) in
            let? entries := tx_transfers height (bp_Transfers bp) [] in
            let? entries := tx_fees height txHash (bp_FeeDeductions bp) entries in
            finishReport kind entries
        end
    end.

(** ** The near-real-time pass *)

(** The transactions of one page that were not seen in this pass: the hashes
    now seen, or the error that ends the pass. *)
Fixpoint nrt_page (page : list LedgerEntry) (seen : gset string) : handler (gset string * option err) :=
  match page with
  | [] => Done (seen, None)
  | e :: page' =>
      if negb (bool_decide (e_Kind e = LedgerKindTx)) || empty (e_TxHash e) || bool_decide (e_TxHash e ∈ seen)
      then nrt_page page' seen
      else
        let* rep := ReconcileTx (e_TxHash e) ReconTxNearRealTime in
        match rep with
        | Err er => Done ({[e_TxHash e]} ∪ seen, Some er)
        | Ok _ => nrt_page page' ({[e_TxHash e]} ∪ seen)
        end
  end.

(** The pages of one address from its cursor on: the hashes seen, the new
    cursor, or the error. *)
Fixpoint nrt_address (n : nat) (address : string) (afterID : Z) (seen : gset string)
    : handler (result err (gset string * Z)) :=
  match n with
  | O => Done (Err OutOfFuel)
  | S n' =>
      let? page := stmt (Ledger_List (page_query address afterID)) in
      let* res := nrt_page page seen in
      match res with
      | (_, Some er) => Done (Err er)
      | (seen', None) =>
          if (Z.of_nat (List.length page) <? ledgerPageSize) then Done (Ok (seen', last_id afterID page))
          else nrt_address n' address (last_id afterID page) seen'
      end
  end.

Fixpoint nrt_loop (n : nat) (watched : list WatchedAddress) (seen : gset string) (cursors : gmap string Z)
    : handler (gmap string Z * option err) :=
  match watched with
  | [] => Done (cursors, None)
  | w :: watched' =>
      let* res := nrt_address n (wa_Address w) (default 0 (cursors !! wa_Address w)) seen in
      match res with
      | Err er => Done (cursors, Some er)
      | Ok (seen', afterID) => nrt_loop n watched' seen' (<[wa_Address w := afterID]> cursors)
      end
  end.

(** [cursors] is updated in place: an address that was finished keeps its new
    cursor when a later one fails. *)
Definition NearRealTimePass (n : nat) (cursors : gmap string Z) : handler (gmap string Z * option err) :=
  let* watched := stmt (Watch_ListActive chainID) in
  match watched with
  | Err er => Done (cursors, Some er)
  | Ok watched => nrt_loop n watched ∅ cursors
  end.
End tx.

(** ** Wallets and the business layer *)

Record HotWalletReport : Type := MkHotWallet {
  hw_ChainID : string; hw_Address : string;
  hw_LedgerExpected : Z; hw_Observed : Z; hw_Difference : Z;
  hw_PendingSignedOutflow : Z; hw_BroadcastUnconfirmedOutflow : Z; hw_BroadcastUnconfirmedInflow : Z;
  hw_ConfirmedWithdrawalOutflow : Z; hw_ConfirmedSweepInflow : Z;
  hw_Explained : bool; hw_GeneratedAt : Z }.

(** The settled withdrawal outflow and sweep inflow. *)
Definition settled_totals (a : Z * Z) (e : LedgerEntry) : Z * Z :=
  if negb (e_TxCode e =? 0) then a
  else if bool_decide (e_Classification e = ClassWithdrawal) && bool_decide (e_Direction e = DirectionOut)
  then (fst a + e_AmountBaseUnits e, snd a)
  else if bool_decide (e_Classification e = ClassSweep) && bool_decide (e_Direction e = DirectionIn)
  then (fst a, snd a + e_AmountBaseUnits e)
  else a.

(** Pending-signed and broadcast-unconfirmed outflow. *)
Definition withdrawal_flow (address : string) (st : WithdrawalStatus) (a : Z * Z) (w : WithdrawalRecord) : Z * Z :=
  if negb (bool_decide (w_SourceAddress w = address)) then a
  else
    let total := w_AmountBaseUnits w + default 0 (w_FeeAmountBaseUnits w) in
    if bool_decide (st = WithdrawalSigned) then (fst a + total, snd a) else (fst a, snd a + total).

(** Pending-signed outflow, broadcast-unconfirmed outflow and inflow. *)
Definition sweep_flow (address : string) (st : SweepStatus) (a : Z * Z * Z) (j : SweepJob) : Z * Z * Z :=
  let '(pending, out, inn) := a in
  if bool_decide (j_SourceAddress j = address) && bool_decide (st = SweepSigned)
  then (pending + j_AmountBaseUnits j, out, inn)
  else if bool_decide (j_SourceAddress j = address) then (pending, out + j_AmountBaseUnits j, inn)
  else if bool_decide (j_HotWalletAddress j = address) && bool_decide (st = SweepBroadcast)
  then (pending, out, inn + j_AmountBaseUnits j)
  else a.

Fixpoint withdrawal_flows (address : string) (sts : list WithdrawalStatus) (a : Z * Z)
    : handler (result err (Z * Z)) :=
  match sts with
  | [] => Done (Ok a)
  | st :: sts' =>
      let? recs := stmt (Withdrawals_ListByStatus chainID st workflowListLimit) in
      withdrawal_flows address sts' (fold_left (withdrawal_flow address st) recs a)
  end.

Fixpoint sweep_flows (address : string) (sts : list SweepStatus) (a : Z * Z * Z)
    : handler (result err (Z * Z * Z)) :=
  match sts with
  | [] => Done (Ok a)
  | st :: sts' =>
      let? jobs := stmt (Sweeps_ListByStatus chainID st workflowListLimit) in
      sweep_flows address sts' (fold_left (sweep_flow address st) jobs a)
  end.

Definition explained (diff out inn : Z) : bool :=
  if diff =? 0 then true else if diff <? 0 then - diff <=? out else diff <=? inn.

Definition HotWallet (n : nat) (address : string) : handler (result err HotWalletReport) :=
  let* now := ask CNow in
  if negb (rc_chain r) then Done (Err ErrOther)
  else
    let? pos := ExpectedBalance n address in
    let? observed := ask (CBalance address BaseDenom) in
    let? settled := walkLedger n address settled_totals (0, 0) in
    let? wf := withdrawal_flows address [WithdrawalSigned; WithdrawalBroadcast; WithdrawalIncluded] (0, 0) in
    let? '(pending, out, inn) := sweep_flows address [SweepSigned; SweepBroadcast] (wf, 0) in
    let diff := observed - lp_Expected pos in
    Done (Ok (MkHotWallet chainID address (lp_Expected pos) observed diff pending out inn
                (fst settled) (snd settled) (explained diff out inn) now)).

Record BusinessSection : Type := MkBusiness {
  bs_ChainID : string; bs_GeneratedAt : Z;
  bs_LedgerExternalDepositTotal : Z; bs_CreditedDepositTotal : Z; bs_UncreditedExternalTotal : Z;
  bs_LedgerWithdrawalOutflowTotal : Z; bs_WorkflowWithdrawalTotal : Z; bs_InFlightWithdrawalTotal : Z;
  bs_LedgerSweepInflowTotal : Z; bs_WorkflowSweepTotal : Z; bs_Findings : list string }.

(** External deposits, withdrawals and sweeps in the ledger. *)
Definition business_totals (a : Z * Z * Z) (e : LedgerEntry) : Z * Z * Z :=
  let '(ext, wd, sw) := a in
  if negb (e_TxCode e =? 0) then a
  else if bool_decide (e_Classification e = ClassExternalDeposit) && bool_decide (e_Direction e = DirectionIn)
  then (ext + e_AmountBaseUnits e, wd, sw)
  else if bool_decide (e_Classification e = ClassWithdrawal) && bool_decide (e_Direction e = DirectionOut)
  then (ext, wd + e_AmountBaseUnits e, sw)
  else if bool_decide (e_Classification e = ClassSweep) && bool_decide (e_Direction e = DirectionIn)
  then (ext, wd, sw + e_AmountBaseUnits e)
  else a.

Fixpoint walk_all {A} (n : nat) (watched : list WatchedAddress) (f : A -> LedgerEntry -> A) (acc : A)
    : handler (result err A) :=
  match watched with
  | [] => Done (Ok acc)
  | w :: watched' => let? acc' := walkLedger n (wa_Address w) f acc in walk_all n watched' f acc'
  end.

Fixpoint deposit_total (sts : list DepositStatus) (total : Z) : handler (result err Z) :=
  match sts with
  | [] => Done (Ok total)
  | st :: sts' =>
      let? ds := stmt (Deposits_ListByStatus chainID st workflowListLimit) in
      deposit_total sts' (fold_left (fun n d => n + d_AmountBaseUnits d) ds total)
  end.

(** Confirmed and in-flight withdrawals. *)
Fixpoint withdrawal_totals (sts : list WithdrawalStatus) (a : Z * Z) : handler (result err (Z * Z)) :=
  match sts with
  | [] => Done (Ok a)
  | st :: sts' =>
      let? ws := stmt (Withdrawals_ListByStatus chainID st workflowListLimit) in
      withdrawal_totals sts'
        (fold_left (fun a w => if bool_decide (st = WithdrawalConfirmed)
                               then (fst a + w_AmountBaseUnits w, snd a)
                               else (fst a, snd a + w_AmountBaseUnits w)) ws a)
  end.

Definition business_findings (ext credited wdLedger wdFlow wdInFlight swLedger swFlow : Z) : list string :=
  (if ext - credited <? 0
   then ["credited deposit total " ++ Tx.int_String credited ++ " exceeds ledger EXTERNAL_DEPOSIT total " ++
         Tx.int_String ext]%string else []) ++
  (if wdLedger <? wdFlow
   then ["confirmed withdrawal total " ++ Tx.int_String wdFlow ++ " exceeds ledger WITHDRAWAL outflow total " ++
         Tx.int_String wdLedger]%string else []) ++
  (if swLedger <? swFlow
   then ["confirmed sweep total " ++ Tx.int_String swFlow ++ " exceeds ledger SWEEP inflow total " ++
         Tx.int_String swLedger]%string else []) ++
  (if 0 <? wdLedger - wdFlow
   then ["ledger WITHDRAWAL outflows lead confirmed workflow totals by " ++ Tx.int_String (wdLedger - wdFlow) ++
         " (in-flight: " ++ Tx.int_String wdInFlight ++ ") — expected during confirmation lag"]%string else []).

Definition Business (n : nat) : handler (result err BusinessSection) :=
  let* now := ask CNow in
  let? watched := stmt (Watch_ListActive chainID) in
  let? '(ext, wd, sw) := walk_all n watched business_totals (0, 0, 0) in
  let? credited := deposit_total [DepositCredited; DepositSweepPending; DepositSwept] 0 in
  let? '(wdFlow, wdInFlight) :=
    withdrawal_totals [WithdrawalConfirmed; WithdrawalBroadcast; WithdrawalIncluded] (0, 0) in
  let? jobs := stmt (Sweeps_ListByStatus chainID SweepConfirmed workflowListLimit) in
  let swFlow := fold_left (fun n j => n + j_AmountBaseUnits j) jobs 0 in
  Done (Ok (MkBusiness chainID now ext credited (ext - credited) wd wdFlow wdInFlight sw swFlow
              (business_findings ext credited wd wdFlow wdInFlight sw swFlow))).
End reconciler.

(** ** Schedules *)

Record Schedule : Type := MkSchedule {
  sd_NearRealTimeInterval : Z; sd_WalletInterval : Z; sd_FullAddressInterval : Z }.

Definition minute : Z := 60 * 10 ^ 9.
Definition withDefaults (s : Schedule) : Schedule :=
  MkSchedule (if sd_NearRealTimeInterval s <=? 0 then minute else sd_NearRealTimeInterval s)
    (if sd_WalletInterval s <=? 0 then 60 * minute else sd_WalletInterval s)
    (if sd_FullAddressInterval s <=? 0 then 24 * 60 * minute else sd_FullAddressInterval s).

(** ** The disagreement monitor *)

Definition autoResolveCleanChecks : Z := 3.

Record DisagreementConfig : Type := MkDisagreement {
  dc_ChainID : string; dc_Interval : Z; dc_HeightTolerance : Z; dc_SequenceAddress : string;
  dc_BalanceAddress : string; dc_CompareHashAtCheckpoint : bool }.

Definition NewMonitor (cfg : DisagreementConfig) : result err DisagreementConfig :=
  if empty (dc_ChainID cfg) then Err ErrOther
  else Ok (MkDisagreement (dc_ChainID cfg) (if dc_Interval cfg <=? 0 then 30 * 10 ^ 9 else dc_Interval cfg)
             (if dc_HeightTolerance cfg <=? 0 then 5 else dc_HeightTolerance cfg) (dc_SequenceAddress cfg)
             (dc_BalanceAddress cfg) (dc_CompareHashAtCheckpoint cfg)).

Definition triggerFor (kind : CompareKind) : ChainReviewTrigger :=
  match kind with
  | CompareHeight => TriggerHeightDivergence
  | CompareBlockHash => TriggerBlockHashMismatch
  | _ => TriggerQueryResultMismatch
  end.

Definition firstNonEmpty (a b : string) : string := if empty a then b else a.

Section monitor.
Context (m : DisagreementConfig).

Definition compare_request (checkpoint : result err ScannerCheckpoint) : CompareRequest :=
  MkCompareRequest true (dc_HeightTolerance m)
    (match checkpoint with
     | Ok cp => if 0 <? cp_LastFullyProcessedHeight cp then u64 (cp_LastFullyProcessedHeight cp) else 0
     | Err _ => 0
     end) "" (dc_SequenceAddress m) (dc_BalanceAddress m)
    (if empty (dc_BalanceAddress m) then "" else BaseDenom).

Definition new_condition (it : CompareItem) (id : string) (now : Z) : ChainReviewCondition :=
  MkCondition id (dc_ChainID m) (triggerFor (ci_Kind it))
    (MkObservation "primary" 0 (firstNonEmpty (ci_Primary it) (ci_PrimaryErr it)))
    (MkObservation "secondary" 0 (firstNonEmpty (ci_Secondary it) (ci_SecondaryErr it))) now None "".

Definition openCondition (it : CompareItem) : handler (result err unit) :=
  let? open := stmt (ChainReview_ListOpen (dc_ChainID m)) in
  if existsb (fun c => bool_decide (cr_Trigger c = triggerFor (ci_Kind it))) open then Done (Ok tt)
  else
    let* id := ask CNewID in
    let* now := ask CNow in
    let? _ := stmt (ChainReview_Open (new_condition it id now)) in
    Done (Ok tt).

Definition transient (t : ChainReviewTrigger) : bool :=
  bool_decide (t = TriggerHeightDivergence) || bool_decide (t = TriggerQueryResultMismatch).

Definition resolution : string :=
  ("auto-resolved: nodes agreed on " ++ Tx.FormatUint autoResolveCleanChecks ++ " consecutive checks")%string.

Definition autoResolveTransient : handler (result err unit) :=
  let? open := stmt (ChainReview_ListOpen (dc_ChainID m)) in
  r_for (List.filter (fun c => transient (cr_Trigger c)) open) (fun c =>
    let* now := ask CNow in
    stmt (ChainReview_Resolve (cr_ConditionID c) resolution now)).

(** One comparison pass from the streak so far: the new streak, and the
    result. *)
Definition Check (cleanStreak : Z) : handler (Z * result err (list CompareItem)) :=
  let* cp := (if dc_CompareHashAtCheckpoint m then stmt (Checkpoints_Get (dc_ChainID m))
              else Done (Err ErrNotFound)) in
  let* res := ask (CCompare (compare_request cp)) in
  match res with
  | Err er => Done (cleanStreak, Err er)
  | Ok items =>
      if AllMatch items then
        if autoResolveCleanChecks <=? cleanStreak + 1 then
          let* done := autoResolveTransient in
          Done (cleanStreak + 1, match done with Ok _ => Ok items | Err er => Err er end)
        else Done (cleanStreak + 1, Ok items)
      else
        let* done := r_for (Mismatches items) openCondition in
        Done (0, match done with Ok _ => Ok items | Err er => Err er end)
  end.
End monitor.

End Reconcile.
