(* ===== verification/ReconcileLaws.v ===== *)
(** * ReconcileLaws: what reconciliation computes

    The paged walk over the ledger ends as soon as it was given one page more
    than the ledger can fill, and returns exactly the fold over the ledger as
    it stands at the last page, however many rows other workers append while
    it runs.  From it follow the exact expected balance and the exact verdict
    of an address. *)

From stdpp Require Import base list strings gmap relations sorting.
From Stdlib Require Import ZArith Lia String.
From S2P Require Import Prelude Workers Text Storage Database SqlStore SqlLaws Chain Tx Parse.
From S2P Require Import Interference Journals Reconcile.
Import SqlStore SqlLaws Parse Interference Journals Reconcile.

Open Scope string_scope.
Open Scope list_scope.
Open Scope Z_scope.

Module ReconcileLaws.

(** ** Pages of a list with increasing ids *)

Section pages.
Context {R : Type} (id : R -> Z).

Definition upto (a : Z) (l : list R) : list R := List.filter (fun e => id e <=? a) l.
Definition above (a : Z) (l : list R) : list R := List.filter (fun e => a <? id e) l.

Definition increasing : list R -> Prop := StronglySorted (fun x y => id x < id y).

Lemma increasing_filter p l : increasing l -> increasing (List.filter p l).
Proof.
  induction 1 as [|x l Hl IH Hx]; simpl; [constructor|]. destruct (p x); [|done].
  constructor; [done|]. rewrite Forall_forall in *. intros y Hy. apply Hx.
  apply list_elem_of_In. apply list_elem_of_In, List.filter_In in Hy. tauto.
Qed.

Lemma ids_increasing l : ids_ok id l -> increasing l.
Proof.
  intros Hl. assert (forall k, (forall i x, l !! i = Some x -> id x = Z.of_nat (k + i)) -> increasing l) as H.
  { clear Hl. induction l as [|x l IH]; intros k Hk; [constructor|]. constructor.
    - apply (IH (S k)). intros i y Hy. rewrite (Hk (S i) y Hy). lia.
    - apply Forall_forall. intros y (i & Hi)%list_elem_of_lookup_1.
      rewrite (Hk 0%nat x eq_refl), (Hk (S i) y Hi). lia. }
  apply (H 1%nat). intros i x Hx. rewrite (Hl i x Hx). lia.
Qed.

Lemma upto_above a l : increasing l -> upto a l ++ above a l = l.
Proof.
  unfold upto, above. induction 1 as [|x l Hl IH Hx]; simpl; [done|].
  destruct (Z.leb_spec (id x) a) as [Hle|Hlt].
  - rewrite (proj2 (Z.ltb_ge _ _)) by lia. simpl. by rewrite IH.
  - rewrite (proj2 (Z.ltb_lt _ _)) by lia.
    assert (List.filter (fun e => id e <=? a) l = []) as E.
    { apply filter_none. intros y Hy. rewrite Forall_forall in Hx. specialize (Hx y Hy). apply Z.leb_gt. lia. }
    rewrite E. simpl. rewrite E in IH. simpl in IH. by rewrite IH.
Qed.

Definition last_of (a : Z) (p : list R) : Z := fold_left (fun _ e => id e) p a.

Lemma last_of_app a p x : last_of a (p ++ [x]) = id x.
Proof. unfold last_of. by rewrite fold_left_app. Qed.

Lemma upto_app a l k : upto a (l ++ k) = upto a l ++ upto a k.
Proof. apply List.filter_app. Qed.

(** Everything up to the last id of a prefix is that prefix. *)
Lemma upto_last a p k : increasing (p ++ k) -> p <> [] -> upto (last_of a p) (p ++ k) = p.
Proof.
  intros Hs Hp. destruct p as [|x p _] using rev_ind; [done|]. rewrite last_of_app, upto_app.
  apply StronglySorted_app in Hs as (Hk & Hs & _). apply StronglySorted_app in Hs as (Hx & _ & _).
  assert (upto (id x) (p ++ [x]) = p ++ [x]) as ->.
  { unfold upto. apply forallb_filter_id, forallb_forall. intros y Hy%list_elem_of_In. apply Z.leb_le.
    apply elem_of_app in Hy as [Hy|Hy%list_elem_of_singleton]; [|by subst].
    specialize (Hx y x Hy ltac:(by left)). lia. }
  assert (upto (id x) k = []) as ->; [|by rewrite app_nil_r].
  apply filter_none. intros y Hy. apply Z.leb_gt, Hk; [set_solver|done].
Qed.

(** Rows with larger ids do not change what is up to [a]. *)
Lemma upto_extend a l k : Forall (fun e => a < id e) k -> upto a (l ++ k) = upto a l.
Proof.
  intros Hk. rewrite upto_app. replace (upto a k) with (@nil R); [by rewrite app_nil_r|].
  symmetry. apply filter_none. intros y Hy. rewrite Forall_forall in Hk. by apply Z.leb_gt, Hk.
Qed.

Lemma last_of_skip a u p : p <> [] -> last_of a (u ++ p) = last_of a p.
Proof. intros Hp. destruct p as [|x p _] using rev_ind; [done|]. by rewrite app_assoc, !last_of_app. Qed.
End pages.

(** ** The walk *)

Section walk.
Context (r : Reconciler) (R : Store -> Store -> Prop) (HR : forall s s', R s s' -> interference s s').
Notation chainID := (rc_ChainID r).

(** The rows of an address the walk is to visit. *)
Definition address_row (address : string) (e : LedgerEntry) : bool :=
  bool_decide (e_ChainID e = chainID) && bool_decide (e_Address e = address) && in_heights 0 0 (e_BlockHeight e).
Definition address_rows (address : string) (s : Store) : list LedgerEntry :=
  List.filter (address_row address) (st_ledger s).

Lemma Ledger_List_page address a s :
  with_tx (Ledger_List (page_query r address a)) s = (Ok (take 500 (above e_ID a (address_rows address s))), s).
Proof.
  unfold Ledger_List, page_query, with_tx, tx_bind, select_where, tx_ret, above, address_rows, address_row.
  cbn -[take in_heights]. unfold limit. cbn -[take in_heights]. do 3 f_equal.
  induction (st_ledger s) as [|e l IH]; cbn -[in_heights]; [done|].
  destruct (bool_decide (e_ChainID e = chainID) && bool_decide (e_Address e = address) && in_heights 0 0 (e_BlockHeight e));
    cbn -[in_heights]; [|done]. destruct (a <? e_ID e); by rewrite IH.
Qed.

(** The rows of an address between two moments. *)
Lemma address_rows_grow address s s' :
  schema_ok s -> R s s' ->
  schema_ok s' /\ exists k, address_rows address s' = address_rows address s ++ k /\
    Forall (fun e => Z.of_nat (List.length (st_ledger s)) < e_ID e) k.
Proof.
  intros Hs H%HR. pose proof (interference_schema s s' H Hs) as Hs'. split; [done|].
  destruct (jn_ledger s s' (interference_journals s s' H)) as (k & Ek & _).
  exists (List.filter (address_row address) k). unfold address_rows. rewrite Ek, List.filter_app. split; [done|].
  destruct (so_ledger s' Hs') as (Hids & _). rewrite Ek in Hids.
  apply Forall_forall. intros e He%list_elem_of_In%List.filter_In. destruct He as [He _].
  apply list_elem_of_In, list_elem_of_lookup_1 in He as (i & Hi).
  rewrite (Hids (List.length (st_ledger s) + i)%nat e); [lia|].
  rewrite lookup_app_r by lia. rewrite <-Hi. f_equal. lia.
Qed.

Lemma address_rows_id address s e : schema_ok s -> e ∈ address_rows address s -> e_ID e <= Z.of_nat (List.length (st_ledger s)).
Proof.
  intros Hs He%list_elem_of_In%List.filter_In. destruct He as [He _].
  apply list_elem_of_In, list_elem_of_lookup_1 in He as (i & Hi).
  destruct (so_ledger s Hs) as (Hids & _). rewrite (Hids i e Hi). apply lookup_lt_Some in Hi. lia.
Qed.

Lemma address_rows_increasing address s : schema_ok s -> increasing e_ID (address_rows address s).
Proof. intros Hs. apply increasing_filter, ids_increasing, (so_ledger s Hs). Qed.

Lemma last_of_bound a p b : a <= b -> (forall e, e ∈ p -> e_ID e <= b) -> last_of e_ID a p <= b.
Proof. intros Ha Hp. destruct p as [|x p _] using rev_ind; [done|]. rewrite last_of_app. apply Hp. set_solver. Qed.

(** With the rows up to the cursor folded, [n] more pages either fold all the
    rows there are, or all were full. *)
Lemma walk_exact {A} n (f : A -> LedgerEntry -> A) address acc0 : forall a s tr res s',
  schema_ok s -> a <= Z.of_nat (List.length (st_ledger s)) ->
  exec R (walk r n f address a (fold_left f (upto e_ID a (address_rows address s)) acc0)) s tr res s' ->
  rtc R s s' /\ tr = [] /\
  (res = Ok (fold_left f (address_rows address s') acc0) \/
   (res = Err OutOfFuel /\
    (List.length (upto e_ID a (address_rows address s)) + 500 * n <= List.length (address_rows address s'))%nat)).
Proof.
  induction n as [|n IH]; intros a s tr res s' Hs Ha H; cbn [walk] in H.
  { inv_exec H. split_and!; [done..|]. right. split; [done|]. rewrite <-(upto_above e_ID a (address_rows address s)) at 2
      by by apply address_rows_increasing. rewrite length_app. lia. }
  unfold r_bind in H. apply exec_bind in H as (page & s1 & t1 & t2 & -> & Hx & H).
  apply exec_stmt in Hx as (-> & s0 & Hstep & Hx). rewrite Ledger_List_page in Hx. injection Hx as <- <-.
  destruct (address_rows_grow address s s0 Hs Hstep) as (Hs0 & k & Ek & Hk).
  assert (upto e_ID a (address_rows address s0) = upto e_ID a (address_rows address s)) as Eu.
  { rewrite Ek. apply upto_extend. eapply Forall_impl; [exact Hk|]. simpl. intros e. lia. }
  rewrite <-Eu in H |- *. clear Ek Hk Eu k.
  pose proof (address_rows_increasing address s0 Hs0) as Hinc.
  pose proof (upto_above e_ID a _ Hinc) as Esplit.
  set (u := upto e_ID a (address_rows address s0)) in *. set (v := above e_ID a (address_rows address s0)) in *.
  assert (a <= Z.of_nat (List.length (st_ledger s0))) as Ha0.
  { destruct (jn_ledger s s0 (interference_journals s s0 (HR _ _ Hstep))) as (k & -> & _). rewrite length_app. lia. }
  rewrite length_take in H. rewrite <-fold_left_app in H.
  destruct (Z.ltb_spec (Z.of_nat (500 `min` List.length v)) ledgerPageSize) as [Hlt|Hge]; unfold ledgerPageSize in *.
  - inv_exec H. split_and!; [by apply rtc_once|done|]. left. rewrite take_ge, Esplit in H by lia. done.
  - set (p := take 500 v) in *. assert (List.length p = 500%nat) as Hp by (unfold p; rewrite length_take; lia).
    assert (p <> []) as Hne by (by destruct p).
    assert (address_rows address s0 = (u ++ p) ++ drop 500 v) as Erows.
    { rewrite <-app_assoc. unfold p. rewrite take_drop. done. }
    assert (upto e_ID (last_id a p) (address_rows address s0) = u ++ p) as Eup.
    { rewrite Erows. change (last_id a p) with (last_of e_ID a p). rewrite <-(last_of_skip e_ID a u p) by done.
      apply upto_last; [by rewrite <-Erows | by destruct u]. }
    rewrite <-Eup in H. apply IH in H as (Hr & -> & H); [|done|].
    + split_and!; [by eapply rtc_l|done|]. destruct H as [->|[-> H]]; [by left|]. right. split; [done|].
      rewrite Eup, length_app in H. lia.
    + apply last_of_bound; [done|]. intros e He. eapply address_rows_id; [done|].
      rewrite Erows. apply elem_of_app. left. apply elem_of_app. by right.
Qed.

Lemma walk_from_start {A} n address (f : A -> LedgerEntry -> A) acc s tr res s' :
  schema_ok s -> exec R (walkLedger r n address f acc) s tr res s' ->
  rtc R s s' /\ tr = [] /\
  (res = Ok (fold_left f (address_rows address s') acc) \/
   (res = Err OutOfFuel /\ (500 * n <= List.length (address_rows address s'))%nat)).
Proof.
  intros Hs H. assert (upto e_ID 0 (address_rows address s) = []) as E.
  { unfold upto. apply filter_none. intros e He. apply Z.leb_gt.
    apply list_elem_of_In, List.filter_In in He as [He _]. apply list_elem_of_In, list_elem_of_lookup_1 in He as (i & Hi).
    destruct (so_ledger s Hs) as (Hids & _). rewrite (Hids i e Hi). lia. }
  pose proof (walk_exact n f address acc 0 s tr res s' Hs) as W. rewrite E in W. apply W; [lia|done].
Qed.

(** C22: the ledger walk ends and misses nothing.  Whatever the other workers
    append to the ledger while it runs, a walk that is given one page more
    than the rows the address has at the end fill returns, without an error,
    exactly the fold over all of those rows, each once and in order: the page
    boundaries, fixed by the last id seen, neither skip nor repeat a row. *)
Theorem walk_ledger_terminates {A} (n : nat) (address : string) (f : A -> LedgerEntry -> A) (acc : A)
    (s s' : Store) (tr : trace) (res : result err A)
    (Hs : schema_ok s) (H : exec R (walkLedger r n address f acc) s tr res s')
    (Hn : Z.of_nat (List.length (address_rows address s')) < ledgerPageSize * Z.of_nat n) :
  res = Ok (fold_left f (address_rows address s') acc).
Proof.
  apply walk_from_start in H as (_ & _ & [->|[_ H]]); [done| |done]. unfold ledgerPageSize in Hn. lia.
Qed.
End walk.

(** ** Positions *)

(** A position after rows worth [v], [n] of them ledger rows, at the heights
    [hs]. *)
Definition earliest (hs : list Z) (m : Z) : Prop :=
  (hs = [] /\ m = 0) \/ (m ∈ hs /\ forall h, h ∈ hs -> m <= h).

Record position_of (v n : Z) (hs : list Z) (a : LedgerPosition * gset string) : Prop := PositionOf {
  po_expected : lp_Expected (fst a) = v;
  po_rows : lp_Rows (fst a) = n;
  po_earliest : Forall (fun h => 0 < h) hs -> earliest hs (lp_EarliestHeight (fst a));
  po_hashes : NoDup (lp_RelatedTxHashes (fst a)) /\ (List.length (lp_RelatedTxHashes (fst a)) <= 50)%nat;
  po_seen : forall h, h ∈ lp_RelatedTxHashes (fst a) -> h ∈ snd a }.

Lemma no_position_of : position_of 0 0 [] (no_position, ∅).
Proof.
  split; simpl; try done; [by left | split; [constructor|lia] |]. by intros h Hh%elem_of_nil.
Qed.

Lemma earliest_snoc hs m h :
  Forall (fun h => 0 < h) (hs ++ [h]) -> earliest hs m ->
  earliest (hs ++ [h]) (if (m =? 0) || (h <? m) then h else m).
Proof.
  intros Hp Hm. right. apply Forall_app in Hp as [Hp Hh]. rewrite Forall_forall in Hp.
  destruct Hm as [[-> ->]|[Hin Hle]]; simpl.
  - split; [by left|]. intros x Hx%list_elem_of_singleton. by subst.
  - rewrite (proj2 (Z.eqb_neq m 0)) by (specialize (Hp m Hin); lia). simpl.
    destruct (Z.ltb_spec h m) as [Hlt|Hge].
    + split; [set_solver|]. intros x [Hx|Hx%list_elem_of_singleton]%elem_of_app; [|by subst].
      specialize (Hle x Hx). lia.
    + split; [set_solver|]. intros x [Hx|Hx%list_elem_of_singleton]%elem_of_app; [auto|by subst].
Qed.

Lemma note_hash_of v n hs hash a : position_of v n hs a -> position_of v n hs (note_hash hash a).
Proof.
  destruct a as [p seen]. intros [Hv Hn He [Hd Hl] Hs]. unfold note_hash.
  destruct (empty hash || _) eqn:E; [by split|]. apply orb_false_iff in E as [_ E]. apply bool_decide_eq_false in E.
  destruct (Nat.ltb_spec (List.length (lp_RelatedTxHashes p)) maxRelatedTxHashes) as [Hlt|Hge].
  - unfold maxRelatedTxHashes in Hlt. split; simpl in *; try done.
    + split; [|rewrite length_app; simpl; lia]. apply NoDup_app. split_and!; [done| |apply NoDup_singleton].
      intros x Hx Hy%list_elem_of_singleton. subst. auto.
    + set_solver.
  - split; simpl in *; try done. set_solver.
Qed.

Lemma note_height_of v n hs h p seen :
  position_of v n hs (p, seen) -> position_of v n (hs ++ [h]) (note_height h p, seen).
Proof.
  intros [Hv Hn He Hh Hs]. split; try done. simpl in *. intros Hp. apply earliest_snoc; [done|].
  apply Forall_app in Hp as [Hp _]. auto.
Qed.

Definition settled (e : LedgerEntry) : bool := e_TxCode e =? 0.
Definition signed (e : LedgerEntry) : Z := signedAmount (e_Direction e) (e_AmountBaseUnits e).

Lemma count_entries_of l : forall v n hs a, position_of v n hs a ->
  position_of (v + sum_where signed settled l) (n + Z.of_nat (List.length (List.filter settled l)))
    (hs ++ map e_BlockHeight (List.filter settled l)) (fold_left count_entry l a).
Proof.
  induction l as [|e l IH]; intros v n hs a Ha.
  { unfold sum_where, sumZ. simpl. by rewrite app_nil_r, !Z.add_0_r. }
  change (e :: l) with ([e] ++ l) at 1. rewrite sum_where_app. unfold sum_where at 1. cbn [List.filter fold_left].
  unfold count_entry at 2. change (e_TxCode e =? 0) with (settled e).
  destruct (settled e); cbn [negb].
  2:{ unfold sumZ at 1. cbn [map fold_left]. rewrite Z.add_0_l. by apply IH. }
  destruct a as [p seen].
  assert (position_of (v + signed e) (n + 1) (hs ++ [e_BlockHeight e])
            (let '(p, seen) := note_hash (e_TxHash e) (note_height (e_BlockHeight e) (add_row p), seen) in
             (add_expected (signedAmount (e_Direction e) (e_AmountBaseUnits e)) p, seen))) as H1.
  { assert (position_of v (n + 1) (hs ++ [e_BlockHeight e])
              (note_hash (e_TxHash e) (note_height (e_BlockHeight e) (add_row p), seen))) as H0.
    { apply note_hash_of, note_height_of. destruct Ha. split; simpl in *; try done. lia. }
    destruct (note_hash _ _) as [q seen']. destruct H0. split; simpl in *; try done. unfold signed. lia. }
  apply IH in H1. revert H1. cbn [map List.length]. unfold sumZ at 1. cbn [fold_left].
  rewrite <-app_assoc. simpl ([_] ++ _).
  replace (v + signed e + sum_where signed settled l) with (v + (0 + signed e + sum_where signed settled l)) by lia.
  replace (n + 1 + Z.of_nat (List.length (List.filter settled l)))
    with (n + Z.of_nat (S (List.length (List.filter settled l)))) by lia.
  done.
Qed.

Lemma count_fees_of l : forall v n hs a, position_of v n hs a ->
  position_of (v - sumZ (map fo_FeeBaseUnits l)) n (hs ++ map fo_BlockHeight l) (fold_left count_fee l a).
Proof.
  induction l as [|f l IH]; intros v n hs a Ha.
  { unfold sumZ. simpl. by rewrite app_nil_r, Z.sub_0_r. }
  change (map fo_FeeBaseUnits (f :: l)) with ([fo_FeeBaseUnits f] ++ map fo_FeeBaseUnits l).
  rewrite sumZ_app. cbn [fold_left]. destruct a as [p seen].
  assert (position_of (v - fo_FeeBaseUnits f) n (hs ++ [fo_BlockHeight f]) (count_fee (p, seen) f)) as H1.
  { apply note_hash_of, note_height_of. destruct Ha. split; simpl in *; try done. lia. }
  apply IH in H1. rewrite <-app_assoc in H1. simpl in H1 |- *. unfold sumZ at 1. cbn [fold_left].
  replace (v - (0 + fo_FeeBaseUnits f + sumZ (map fo_FeeBaseUnits l)))
    with (v - fo_FeeBaseUnits f - sumZ (map fo_FeeBaseUnits l)) by lia.
  done.
Qed.

Lemma earliest_perm hs hs' m : hs ≡ₚ hs' -> earliest hs m -> earliest hs' m.
Proof.
  intros Hp [[-> ->]|[Hin Hle]]; [left; by apply Permutation_nil_l in Hp|right].
  split; [by rewrite <-Hp|]. intros h Hh. apply Hle. by rewrite Hp.
Qed.

(** ** Addresses *)

Section address.
Context (r : Reconciler) (R : Store -> Store -> Prop) (HR : forall s s', R s s' -> interference s s').
Notation chainID := (rc_ChainID r).

Definition fee_row (address : string) (f : FeeOutflow) : bool :=
  bool_decide (fo_ChainID f = chainID) && bool_decide (fo_PayerAddress f = address) && in_heights 0 0 (fo_BlockHeight f).
Definition fee_rows (address : string) (s : Store) : list FeeOutflow :=
  List.filter (fee_row address) (st_feeOutflows s).

(** What the ledger of [s1] and the fee outflows of [s2] leave an address,
    and the heights they are from. *)
Definition ledger_balance (address : string) (s1 s2 : Store) : Z :=
  sum_where signed settled (address_rows r address s1) - sumZ (map fo_FeeBaseUnits (fee_rows address s2)).
Definition ledger_heights (address : string) (s1 s2 : Store) : list Z :=
  map e_BlockHeight (List.filter settled (address_rows r address s1)) ++ map fo_BlockHeight (fee_rows address s2).

Lemma ListFeeOutflows_all address s : exists fees,
  with_tx (Ledger_ListFeeOutflows chainID address 0 0) s = (Ok fees, s) /\ fees ≡ₚ fee_rows address s.
Proof. eexists. split; [reflexivity|]. apply order_by_perm. Qed.

Lemma expected_balance n address s tr res s' :
  schema_ok s -> exec R (ExpectedBalance r n address) s tr res s' ->
  Z.of_nat (List.length (address_rows r address s')) < ledgerPageSize * Z.of_nat n ->
  exists s1 pos seen, tr = [] /\ rtc R s s1 /\ R s1 s' /\ res = Ok pos /\
    position_of (ledger_balance address s1 s')
      (Z.of_nat (List.length (List.filter settled (address_rows r address s1))))
      (ledger_heights address s1 s') (pos, seen).
Proof.
  intros Hs H Hn. unfold ExpectedBalance, r_bind in H.
  apply exec_bind in H as (a & s1 & t1 & t2 & -> & Hw & H).
  destruct (walk_from_start r R HR n address count_entry (no_position, ∅) s t1 a s1 Hs Hw) as (Hr & -> & Ha).
  destruct Ha as [->|[-> Hlen]].
  2:{ inv_exec H. unfold ledgerPageSize in Hn. lia. }
  apply exec_bind in H as (fees & s2 & t3 & t4 & -> & Hf & H). apply exec_stmt in Hf as (-> & s3 & Hstep & Hf).
  destruct (ListFeeOutflows_all address s3) as (l & El & Hl). rewrite El in Hf. injection Hf as <- <-. inv_exec H.
  pose proof (count_entries_of (address_rows r address s1) 0 0 [] _ no_position_of) as P1.
  apply (count_fees_of l) in P1.
  exists s1. eexists _, _. split_and!; [done..|]. rewrite <-surjective_pairing.
  destruct P1 as [E1 E2 E3 E4 E5]. split; [..|exact E4|exact E5].
  - rewrite E1. unfold ledger_balance. by rewrite (sumZ_perm _ _ (Permutation_map fo_FeeBaseUnits Hl)).
  - rewrite E2. lia.
  - intros Hp. assert (map e_BlockHeight (List.filter settled (address_rows r address s1)) ++ map fo_BlockHeight l
        ≡ₚ ledger_heights address s1 s3) as Hh.
    { unfold ledger_heights. apply Permutation_app_head. by apply Permutation_map. }
    eapply earliest_perm; [exact Hh|]. apply E3. simpl. by rewrite Hh.
Qed.

(** C21: reconciling an address compares the chain with exactly what the
    ledger says.  With enough pages for the rows of the address, under any
    interference, [ReconcileAddress] asks the chain for the balance once and
    then fails only as that query does; otherwise its entry's expected amount
    is the sum of the successful inflows less the successful outflows of all
    the rows the address had when the walk ended, less all its fee outflows
    when they were read; the difference is what the chain reports beyond it;
    and a discrepancy recommends a rescan from the earliest height that
    contributed, with at most fifty distinct transaction hashes. *)
Theorem reconcile_address_exact (n : nat) (address : string) (s s' : Store) (tr : trace)
    (res : result err ReconciliationEntry)
    (Hc : rc_chain r = true) (Hs : schema_ok s) (H : exec R (ReconcileAddress r n address) s tr res s')
    (Hn : Z.of_nat (List.length (address_rows r address s')) < ledgerPageSize * Z.of_nat n) :
  exists b s1, tr = [answered (CBalance address BaseDenom) b] /\ rtc R s s1 /\ R s1 s' /\
    match b with
    | Err er => res = Err er
    | Ok observed => exists en, res = Ok en /\ re_Address en = address /\
        re_ExpectedBaseUnits en = ledger_balance address s1 s' /\ re_ObservedBaseUnits en = observed /\
        re_Difference en = observed - ledger_balance address s1 s' /\
        (re_Difference en <> 0 -> ledger_heights address s1 s' <> [] ->
         Forall (fun h => 0 < h) (ledger_heights address s1 s') ->
         earliest (ledger_heights address s1 s') (re_RecommendedRescanHeight en)) /\
        NoDup (re_RelatedTxHashes en) /\ (List.length (re_RelatedTxHashes en) <= maxRelatedTxHashes)%nat
    end.
Proof.
  unfold ReconcileAddress, r_bind in H. rewrite Hc in H. cbn [negb] in H.
  apply exec_bind in H as (pos & s2 & t1 & t2 & -> & He & H).
  assert (s2 = s') as ->.
  { destruct pos; [|by inv_exec H]. apply exec_bind in H as (b & s3 & t3 & t4 & -> & Hb & H). inv_exec Hb.
    destruct b; by inv_exec H. }
  destruct (expected_balance n address s t1 pos s' Hs He Hn) as (s1 & p & seen & -> & Hr & Hl & -> & P).
  apply exec_bind in H as (b & s3 & t3 & t4 & -> & Hb & H). inv_exec Hb.
  exists b, s1. destruct b as [observed|er]; destruct H as (-> & -> & _); (split_and!; [done..|]); [|done].
  eexists. split; [done|]. destruct P as [E1 _ E3 [E4 E5] _]. simpl in *. unfold address_entry, maxRelatedTxHashes.
  rewrite E1. destruct (Z.eqb_spec (observed - ledger_balance address s1 s') 0) as [E|E]; simpl.
  - split_and!; try done; [constructor|lia].
  - split_and!; try done. intros _ Hne Hp. specialize (E3 Hp). unfold recommendedRescan.
    destruct E3 as [[? _]|[Hin Hle]]; [done|]. rewrite Forall_forall in Hp.
    rewrite (proj2 (Z.eqb_neq _ 0)) by (specialize (Hp _ Hin); lia). by right.
Qed.
End address.

(** ** The disagreement monitor *)

(** Open conditions stay as they are. *)
Definition standing (s s' : Store) : Prop :=
  forall c, c ∈ st_chainReviews s -> cr_ResolvedAt c = None -> c ∈ st_chainReviews s'.

#[export] Instance standing_preorder : PreOrder standing.
Proof. split; [by intros s c|]. intros a b c Hab Hbc x Hx Ho. auto. Qed.

Definition open_for (chainID : string) (t : ChainReviewTrigger) (s : Store) : Prop :=
  exists c, c ∈ st_chainReviews s /\ open_condition chainID c = true /\ cr_Trigger c = t.

Lemma open_for_standing chainID t s s' : standing s s' -> open_for chainID t s -> open_for chainID t s'.
Proof.
  intros H (c & Hc & Ho & Ht). exists c. split_and!; [|done..]. apply H; [done|].
  unfold open_condition in Ho. apply andb_true_iff in Ho as [_ Ho]. by destruct (cr_ResolvedAt c).
Qed.

Lemma ListOpen_all chainID s : exists l, with_tx (ChainReview_ListOpen chainID) s = (Ok l, s) /\
  forall c, c ∈ l <-> c ∈ st_chainReviews s /\ open_condition chainID c = true.
Proof.
  eexists. split; [reflexivity|]. intros c. rewrite elem_of_order_by, !list_elem_of_In. apply List.filter_In.
Qed.

Lemma resolve_other id res now s r s' c :
  with_tx (ChainReview_Resolve id res now) s = (r, s') -> c ∈ st_chainReviews s -> cr_ConditionID c <> id ->
  c ∈ st_chainReviews s'.
Proof.
  intros H Hc Hid. destruct r as [[]|er]; [apply with_tx_ok in H|by apply with_tx_err in H as ->].
  unfold ChainReview_Resolve in H. inv_tx1 H. inv_tx1 H.
  unfold fmtTime in Hm. destruct (_ =? 1)%nat; [|inv_tx1 H; done]. injection H as <-.
  assert (st_chainReviews s0 = st_chainReviews s) as E0.
  { destruct (now =? 0); by injection Hm as _ <-. }
  injection Hm0 as _ <-. rewrite <-E0 in Hc. destruct s0. simpl in *. apply list_elem_of_fmap. exists c.
  by rewrite bool_decide_eq_false_2.
Qed.

Section monitor.
Context (m : DisagreementConfig) (R : Store -> Store -> Prop).
Hypothesis HR : forall s s', R s s' -> interference s s'.
Hypothesis HK : forall s s', R s s' -> standing s s'.
Notation chainID := (dc_ChainID m).

Lemma resolve_all c l : forall s tr res s',
  (forall x, x ∈ l -> cr_ConditionID x <> cr_ConditionID c) -> c ∈ st_chainReviews s -> cr_ResolvedAt c = None ->
  exec R (r_for l (fun c => let* now := ask CNow in
                            stmt (ChainReview_Resolve (cr_ConditionID c) resolution now))) s tr res s' ->
  c ∈ st_chainReviews s'.
Proof.
  induction l as [|x l IH]; intros s tr res s' Hl Hc Ho H; cbn [r_for] in H; [by inv_exec H|].
  unfold r_bind at 1 in H. apply exec_bind in H as (a & s2 & t1 & t2 & -> & H1 & H).
  apply exec_bind in H1 as (now & s0 & t3 & t4 & -> & Hn & H1). inv_exec Hn.
  apply exec_stmt in H1 as (-> & s1 & Hstep & H1).
  assert (c ∈ st_chainReviews s2) as Hc2.
  { eapply resolve_other; [exact H1|by eapply HK|]. intros E. by apply (Hl x ltac:(by left)). }
  destruct a as [[]|er]; [|by inv_exec H]. eapply IH; [..|exact H]; try done. intros y Hy. apply Hl. by right.
Qed.

Lemma autoResolve_spares c s tr res s' :
  schema_ok s -> c ∈ st_chainReviews s -> cr_ResolvedAt c = None -> transient (cr_Trigger c) = false ->
  exec R (autoResolveTransient m) s tr res s' -> c ∈ st_chainReviews s'.
Proof.
  intros Hs Hc Ho Ht H. unfold autoResolveTransient, r_bind in H.
  apply exec_bind in H as (open & s1 & t1 & t2 & -> & Hl & H). apply exec_stmt in Hl as (-> & s0 & Hstep & Hl).
  destruct (ListOpen_all chainID s0) as (l & El & Hin). rewrite El in Hl. injection Hl as <- <-.
  eapply resolve_all; [| |done|exact H]; [|by eapply HK].
  intros x Hx E. apply list_elem_of_In, List.filter_In in Hx as [Hx Htx]. apply list_elem_of_In, Hin in Hx as [Hx _].
  assert (x = c) as ->; [|congruence].
  assert (c ∈ st_chainReviews s0) as Hc0 by (by eapply HK).
  pose proof (so_chainReviews s0 (interference_schema s s0 (HR _ _ Hstep) Hs)) as Hu.
  apply list_elem_of_lookup_1 in Hx as (i & Hi), Hc0 as (k & Hk).
  assert (i = k) as -> by (eapply Hu; [exact Hi|exact Hk| |]; unfold condition_key; by rewrite ?E). congruence.
Qed.

Lemma openCondition_opens it s tr res s' :
  exec R (openCondition m it) s tr res s' ->
  standing s s' /\ (res = Ok tt -> open_for chainID (triggerFor (ci_Kind it)) s').
Proof.
  intros H. unfold openCondition, r_bind in H.
  apply exec_bind in H as (open & s1 & t1 & t2 & -> & Hl & H). apply exec_stmt in Hl as (-> & s0 & Hstep & Hl).
  destruct (ListOpen_all chainID s0) as (l & El & Hin). rewrite El in Hl. injection Hl as <- <-.
  apply HK in Hstep. destruct (existsb _ l) eqn:Ex.
  { inv_exec H. split; [done|]. intros _. apply existsb_exists in Ex as (c & Hc & Ht).
    apply list_elem_of_In, Hin in Hc as [Hc Ho]. apply bool_decide_eq_true in Ht. by exists c. }
  apply exec_bind in H as (id & s1 & t3 & t4 & -> & Hi & H). inv_exec Hi.
  apply exec_bind in H as (now & s1 & t5 & t6 & -> & Hn & H). inv_exec Hn.
  apply exec_bind in H as (a & s1 & t7 & t8 & -> & Hop & H). apply exec_stmt in Hop as (-> & s2 & Hstep2 & Hop).
  assert (standing s s2) as H2 by (etransitivity; [exact Hstep|by apply HK]).
  destruct a as [c|er]; [apply with_tx_ok in Hop|apply with_tx_err in Hop as ->]; inv_exec H; [|split; [done|congruence]].
  unfold ChainReview_Open, fmtTime in Hop. inv_tx Hop. unfold insert_row in Hop. destruct (violation _ _ _); [done|].
  injection Hop as Ec <-. split.
  - etransitivity; [exact H2|]. intros x Hx _. destruct s2. apply elem_of_app. by left.
  - intros _. eexists. split_and!; [destruct s2; apply elem_of_app; right; by left| |done].
    unfold open_condition. cbn. by rewrite bool_decide_eq_true_2.
Qed.

Lemma openConditions_open l : forall s tr res s',
  exec R (r_for l (openCondition m)) s tr res s' ->
  standing s s' /\ (res = Ok tt -> forall it, it ∈ l -> open_for chainID (triggerFor (ci_Kind it)) s').
Proof.
  induction l as [|x l IH]; intros s tr res s' H; cbn [r_for] in H.
  { inv_exec H. split; [done|]. by intros _ it Hit%elem_of_nil. }
  unfold r_bind at 1 in H. apply exec_bind in H as (a & s2 & t1 & t2 & -> & H1 & H).
  apply openCondition_opens in H1 as [Hst H1].
  destruct a as [[]|er]; [|inv_exec H; split; [done|congruence]].
  apply IH in H as [Hst' H]. split; [by etransitivity|]. intros -> it [->|Hit]%elem_of_cons; [|by apply H].
  eapply open_for_standing; [exact Hst'|auto].
Qed.

(** C23: the monitor gates on disagreement and never lifts a hash gate.  One
    check from a streak of clean checks, while nobody else resolves
    conditions: a condition that was open stays open, untouched, unless its
    trigger is one of the two transient ones and this check completed a
    streak of at least three clean ones; a clean check lengthens the streak by
    one; and after a check that returns with a mismatch, the streak is zero and
    for every mismatched item a condition with its trigger is open on the
    chain. *)
Theorem monitor_gates (streak streak' : Z) (s s' : Store) (tr : trace) (res : result err (list CompareItem))
    (Hs : schema_ok s) (H : exec R (Check m streak) s tr (streak', res) s') :
  (forall c, c ∈ st_chainReviews s -> cr_ResolvedAt c = None ->
     c ∈ st_chainReviews s' \/
     (transient (cr_Trigger c) = true /\ streak' = streak + 1 /\ autoResolveCleanChecks <= streak')) /\
  (forall items, res = Ok items ->
     if AllMatch items then streak' = streak + 1
     else streak' = 0 /\ forall it, it ∈ items -> ci_Match it = false ->
            open_for chainID (triggerFor (ci_Kind it)) s').
Proof.
  unfold Check in H. apply exec_bind in H as (cp & s1 & t1 & t2 & -> & Hcp & H).
  assert (schema_ok s1 /\ standing s s1) as [Hs1 Hst].
  { destruct (dc_CompareHashAtCheckpoint m); [|by inv_exec Hcp].
    apply exec_stmt in Hcp as (_ & s0 & Hstep & Hcp).
    assert (s1 = s0) as ->.
    { destruct cp; [apply with_tx_ok in Hcp|by apply with_tx_err in Hcp].
      unfold Checkpoints_Get, select_row in Hcp. destruct (List.find _ _); congruence. }
    split; [by eapply interference_schema; [apply HR|]|by apply HK]. }
  apply exec_bind in H as (b & s2 & t3 & t4 & -> & Hb & H). inv_exec Hb.
  destruct b as [items|er]; [|inv_exec H; injection H as -> ->; split; [intros c Hc Ho; left; auto|done]].
  destruct (AllMatch items) eqn:Em.
  - destruct (Z.leb_spec autoResolveCleanChecks (streak + 1)) as [Hle|Hlt].
    + apply exec_bind in H as (a & s2 & t5 & t6 & -> & Ha & H). inv_exec H. injection H as -> ->. split.
      * intros c Hc Ho. destruct (transient (cr_Trigger c)) eqn:Ht; [by right|left].
        eapply autoResolve_spares; [exact Hs1| |done..|exact Ha]. auto.
      * intros l. destruct a; [|done]. intros [= <-]. by rewrite Em.
    + inv_exec H. injection H as -> ->. split; [intros c Hc Ho; left; auto|]. intros l [= <-]. by rewrite Em.
  - apply exec_bind in H as (a & s2 & t5 & t6 & -> & Ha & H). inv_exec H. injection H as -> ->.
    apply openConditions_open in Ha as [Hst' Ha]. split; [intros c Hc Ho; left; auto|].
    intros l. destruct a as [[]|]; [|done]. intros [= <-]. rewrite Em. split; [done|]. intros it Hit Hm.
    apply Ha; [done|]. apply list_elem_of_In, List.filter_In. rewrite Hm. split; [by apply list_elem_of_In|done].
Qed.
End monitor.

(** ** Reports *)

Lemma tx_for_fails {S E A} (l : list A) (m : A -> tx S E unit) x s :
  x ∈ l -> (forall s, exists er s', m x s = (Err er, s')) -> exists er s', tx_for l m s = (Err er, s').
Proof.
  intros Hx Hm. revert s. induction l as [|y l IH]; intros s; [by apply elem_of_nil in Hx|].
  cbn [tx_for]. unfold tx_bind. apply elem_of_cons in Hx as [<-|Hx].
  - destruct (Hm s) as (er & s' & ->). eauto.
  - destruct (m y s) as [[[]|er] s1]; [by apply IH|eauto].
Qed.

Definition negative (e : ReconciliationEntry) : Prop := re_ExpectedBaseUnits e < 0 \/ re_ObservedBaseUnits e < 0.

Lemma entry_negative e : negative e -> entry_ok e = Err ErrInvalidRecord.
Proof.
  unfold entry_ok, amountText. intros [H|H].
  - by rewrite (proj2 (Z.ltb_lt _ _) H).
  - rewrite (proj2 (Z.ltb_lt _ _) H). by destruct (_ <? 0).
Qed.

Lemma SaveReport_negative rep e s :
  e ∈ rr_Entries rep -> negative e -> exists er, with_tx (Recon_SaveReport rep) s = (Err er, s).
Proof.
  intros He Hn. destruct (with_tx (Recon_SaveReport rep) s) as [[[]|er] s'] eqn:H.
  2:{ pose proof (with_tx_err _ _ _ _ H) as ->. by exists er. }
  exfalso. apply with_tx_ok in H. unfold Recon_SaveReport in H. inv_tx H. apply with_tx_ok in H.
  repeat inv_tx1 H.
  match type of H with tx_for _ _ ?s0 = _ => 
    destruct (tx_for_fails (rr_Entries rep) (fun e => tx_of (entry_ok e)) e s0 He) as (er & s9 & E) end.
  { intros s8. rewrite (entry_negative e Hn). unfold tx_of. eauto. }
  rewrite E in H. done.
Qed.

(** A report with a negative amount is lost.  When an entry that differs
    has a negative expected or observed amount, as the entries of
    [ReconcileTx] for an outflow or a fee the ledger lacks do, and the entry of
    an address whose ledger outflows exceed its inflows, every execution of
    [finishReport] fails: the store refuses the report, whatever else it says,
    and of this handler's making the database is left as it was. *)
Theorem negative_report_lost (r : Reconciler) (R : Store -> Store -> Prop) (kind : ReconciliationKind)
    (entries : list ReconciliationEntry) (e : ReconciliationEntry) (s s' : Store) (tr : trace)
    (res : result err ReconciliationReport)
    (He : e ∈ entries) (Hd : re_Difference e <> 0) (Hn : negative e)
    (H : exec R (finishReport r kind entries) s tr res s') :
  rtc R s s' /\ exists er, res = Err er.
Proof.
  unfold finishReport in H.
  apply exec_bind in H as (now & s1 & t1 & t2 & -> & Hnow & H). inv_exec Hnow.
  apply exec_bind in H as (id & s1 & t3 & t4 & -> & Hid & H). inv_exec Hid.
  apply exec_bind in H as (start & s1 & t5 & t6 & -> & Hp & H).
  assert (rtc R s s1) as Hr.
  { unfold periodStart in Hp. apply exec_bind in Hp as (prev & s2 & t7 & t8 & -> & Hx & Hp). inv_exec Hp.
    apply exec_stmt in Hx as (_ & s3 & Hstep & Hx). injection Hx as _ <-. by apply rtc_once. }
  assert (discrepancies entries =? 0 = false) as Ed.
  { apply Z.eqb_neq. unfold discrepancies.
    assert (e ∈ List.filter (fun e => negb (re_Difference e =? 0)) entries) as Hin.
    { apply list_elem_of_In, List.filter_In. rewrite (proj2 (Z.eqb_neq _ _) Hd). split; [by apply list_elem_of_In|done]. }
    destruct (List.filter _ entries); [by apply elem_of_nil in Hin|]. simpl. lia. }
  cbn [rr_DiscrepancyCount] in H. rewrite Ed, andb_false_r in H. unfold r_bind in H.
  apply exec_bind in H as (a & s2 & t9 & t10 & -> & Hx & H). apply exec_stmt in Hx as (_ & s3 & Hstep & Hx).
  match type of Hx with with_tx (Recon_SaveReport ?rep) _ = _ => destruct (SaveReport_negative rep e s3 He Hn) as (er & E) end.
  rewrite E in Hx. injection Hx as <- <-. inv_exec H. split; [by eapply rtc_r|]. by exists er.
Qed.

(** ** Witnesses *)

(** An address that received 700, failed to send 50, sent 200 and paid a fee
    of 3. *)
Definition ex_entry (hash : string) (height : Z) (d : LedgerDirection) (amount code : Z) : op :=
  OpLedgerAppend (MkLedgerEntry 0 "sovr-1" LedgerKindTx hash 0 0 height 0 d "sovr1a" [] amount BaseDenom code
    ClassExternalDeposit 5).
Definition ex_books : Store :=
  commit (empty_store 5)
    [ex_entry "H1" 7 DirectionIn 700 0; ex_entry "H2" 8 DirectionOut 50 5; ex_entry "H3" 9 DirectionOut 200 0;
     OpAppendFeeOutflow (MkFeeOutflow 0 "sovr-1" "H3" "sovr1a" 3 0 9 5)].
Definition ex_reconciler : Reconciler := MkReconciler true "sovr-1".

Lemma ex_books_schema : schema_ok ex_books.
Proof. apply commit_schema, empty_schema_ok. Qed.

Lemma walk_ledger_terminates_witness :
  exists tr s', exec interference (walkLedger ex_reconciler 1 "sovr1a" (fun n e => n + signed e) 0) ex_books tr (Ok 450) s'.
Proof.
  destruct (run_exec interference (answering no_answers)
    (walkLedger ex_reconciler 1 "sovr1a" (fun n e => n + signed e) 0) ex_books) as [tr H].
  exists tr. eexists. pose proof (walk_ledger_terminates ex_reconciler interference (fun _ _ H => H) 1 "sovr1a"
    (fun n e => n + signed e) 0 ex_books _ tr _ ex_books_schema H ltac:(vm_compute; reflexivity)) as E.
  rewrite E in H. exact H.
Defined.

(** The chain reports 500 where the books say 497. *)
Definition ex_observes (observed : Z) : answers :=
  MkAnswers (Err ErrOther) (Err ErrClientNotFound) (Err ErrOther) (Ok observed) (Err ErrOther)
    (Err ErrOther) (Err ErrOther) (Err ErrOther) 11.

Lemma reconcile_address_exact_witness :
  exists en observed, o_value (run (answering (ex_observes 500)) (ReconcileAddress ex_reconciler 1 "sovr1a") ex_books) = Ok en /\
    re_ExpectedBaseUnits en = 497 /\ re_Difference en = observed - 497 /\ re_RecommendedRescanHeight en = 7.
Proof.
  destruct (run_exec eq (answering (ex_observes 500)) (ReconcileAddress ex_reconciler 1 "sovr1a") ex_books) as [tr H].
  destruct (reconcile_address_exact ex_reconciler eq eq_interference 1 "sovr1a" ex_books _ tr _ eq_refl
    ex_books_schema H ltac:(vm_compute; reflexivity)) as (b & s1 & -> & Hr & Hs1 & Hb).
  destruct b as [observed|er]; [|vm_compute in Hb; done].
  destruct Hb as (en & E & _ & E1 & _ & E3 & _). exists en, observed. split; [exact E|].
  assert (s1 = o_state (run (answering (ex_observes 500)) (ReconcileAddress ex_reconciler 1 "sovr1a") ex_books)) as -> by done.
  rewrite E3, E1. split_and!; [vm_compute; reflexivity..|].
  assert (o_value (run (answering (ex_observes 500)) (ReconcileAddress ex_reconciler 1 "sovr1a") ex_books)
    = Ok (MkReconEntry "sovr1a" 497 500 3 7 ["H1"; "H3"] 7)) as E' by (vm_compute; reflexivity).
  rewrite E' in E. by injection E as <-.
Defined.

(** A height divergence that was caught up with is lifted by the third clean
    check; the hash mismatch next to it stays. *)
Definition ex_condition (id : string) (t : ChainReviewTrigger) : op :=
  OpChainReviewOpen (MkCondition id "sovr-1" t (MkObservation "primary" 0 "a") (MkObservation "secondary" 0 "b") 4 None "").
Definition ex_reviews : Store :=
  commit (empty_store 5) [ex_condition "c1" TriggerBlockHashMismatch; ex_condition "c2" TriggerHeightDivergence].
Definition ex_monitor : DisagreementConfig := MkDisagreement "sovr-1" 30 5 "" "" false.
Definition ex_compared (ok : bool) : oracle (C := call) := fun X c =>
  match c in call X return X with
  | CCompare _ => Ok [MkCompareItem CompareHeight ok "10" "12" "" ""]
  | c => answering no_answers _ c
  end.

Lemma monitor_gates_witness :
  let y := run (ex_compared true) (Check ex_monitor 2) ex_reviews in
  map cr_Trigger (List.filter (open_condition "sovr-1") (st_chainReviews (o_state y))) = [TriggerBlockHashMismatch] /\
  exists c, c ∈ st_chainReviews (o_state y) /\ cr_Trigger c = TriggerBlockHashMismatch /\ cr_ResolvedAt c = None.
Proof.
  intros y. split; [vm_compute; reflexivity|].
  destruct (run_exec eq (ex_compared true) (Check ex_monitor 2) ex_reviews) as [tr H].
  assert (schema_ok ex_reviews) as Hs by apply commit_schema, empty_schema_ok.
  assert (forall s s', s = s' -> standing s s') as Hk by (intros s s' <-; reflexivity).
  destruct (o_value (run (ex_compared true) (Check ex_monitor 2) ex_reviews)) as [streak' res] eqn:E.
  destruct (monitor_gates ex_monitor eq eq_interference Hk 2 streak' ex_reviews _ tr res Hs H) as [Hc _].
  assert (exists c, List.find (fun c => bool_decide (cr_Trigger c = TriggerBlockHashMismatch)) (st_chainReviews ex_reviews)
    = Some c /\ cr_ResolvedAt c = None) as (c & Hf & Ho) by (eexists; split; [vm_compute; reflexivity|reflexivity]).
  apply find_elem in Hf as [Hin Ht]. apply bool_decide_eq_true in Ht. exists c. split_and!; [|done..].
  destruct (Hc c Hin Ho) as [Hc'|(Htr & _)]; [exact Hc'|]. rewrite Ht in Htr. done.
Defined.

(** The books lack an outflow of 40. *)
Lemma negative_report_lost_witness :
  exists er, o_value (run (answering (ex_observes 0))
    (finishReport ex_reconciler ReconManual [tx_entry "sovr1a" 0 (-40) 9 "H9"]) ex_books) = Err er.
Proof.
  destruct (run_exec eq (answering (ex_observes 0))
    (finishReport ex_reconciler ReconManual [tx_entry "sovr1a" 0 (-40) 9 "H9"]) ex_books) as [tr H].
  exact (proj2 (negative_report_lost ex_reconciler eq ReconManual _ (tx_entry "sovr1a" 0 (-40) 9 "H9") ex_books _ tr _
    ltac:(by left) ltac:(done) ltac:(right; done) H)).
Defined.

End ReconcileLaws.
