(* ===== verification/Admin.v ===== *)
(** * Admin: the operator's HTTP interface

    [go/cmd/sovren-adapter/admin.go] and [admin_controls.go]: the bearer-token
    check, [GET /v1/status] and the mutations, one definition per handler.  An
    [endpoint] is what the mux hands to a handler: the route, the path value
    and the body as the JSON decoder delivers it, [None] when it does not
    decode.  A response is the status code and the body; error bodies keep
    their code and lose their message, times are left unformatted, and the
    structured log is left out.  [serve] is [adminMux]. *)

From stdpp Require Import base list strings.
From Stdlib Require Import ZArith Lia String Ascii.
From S2P Require Import Prelude Workers Text Storage Database SqlStore Chain.
From S2P Require Import ReviewResolution Parse Reconcile.
Import SqlStore.

Open Scope string_scope.
Open Scope list_scope.
Open Scope Z_scope.

Module Admin.

(** ** Requests and responses *)

Record controlsRequest : Type := MkControlsRequest { cq_Flow : string; cq_Reason : string }.
Record scanWithoutCreditRequest : Type := MkScanRequest { wq_Enabled : bool; wq_Reason : string }.
Record resumeFromRequest : Type := MkResumeRequest { hq_Height : Z; hq_Reason : string }.
Record resolveRequest : Type := MkResolveRequest { vq_Outcome : string; vq_Resolution : string }.

(** The routes of [registerAdminControls] and [/v1/status]; [reconcileTxRequest]
    and [reconcileAddressRequest] are their one field. *)
Inductive endpoint : Type :=
| Status (method : string)
| ControlsPause (body : option controlsRequest)
| ControlsResume (body : option controlsRequest)
| ScanWithoutCredit (body : option scanWithoutCreditRequest)
| ScannerResumeFrom (body : option resumeFromRequest)
| ReconcileTx (body : option string)
| ReconcileAddress (body : option string)
| ReviewQueueList
| ReviewQueueResolve (id : string) (body : option resolveRequest)
| ChainReviewResolve (id : string) (body : option resolveRequest).

(** A header that is absent is empty. *)
Record Request : Type := MkRequest {
  rq_Authorization : string; rq_Actor : string; rq_Endpoint : endpoint }.

Record statusControls : Type := MkStatusControls {
  sc_CreditPaused : bool; sc_SigningPaused : bool; sc_BroadcastPaused : bool;
  sc_SweepPaused : bool; sc_ScanWithoutCredit : bool; sc_ResumeFromHeight : option Z }.
Record statusCheckpoint : Type := MkStatusCheckpoint {
  sp_LastFullyProcessedHeight : Z; sp_LastObservedBlockHash : string; sp_UpdatedAt : Z }.
Record statusChainReview : Type := MkStatusReview {
  sv_ConditionID : string; sv_Trigger : ChainReviewTrigger; sv_OpenedAt : Z }.
Record statusVersions : Type := MkVersions {
  vs_Adapter : string; vs_Commit : string; vs_AppVersion : string; vs_SDKVersion : string }.
Record statusResponse : Type := MkStatus {
  st_ChainID : string; st_NetworkType : string; st_Controls : statusControls;
  st_Checkpoint : option statusCheckpoint; st_ChainReviewOpen : bool;
  st_ChainReviewConditions : list statusChainReview; st_Versions : statusVersions }.
Record reviewItemView : Type := MkItemView {
  iv_ID : Z; iv_ChainID : string; iv_Kind : ReviewItemKind; iv_RefID : string;
  iv_Reason : string; iv_OpenedAt : Z }.

Inductive body : Type :=
| apiError (code : string)
| StatusBody (s : statusResponse)
| ControlsBody (c : statusControls)
| ReportBody (r : ReconciliationReport)
| QueueBody (items : list reviewItemView)
| ReviewBody (status : Z)
| ConditionBody (conditionID : string).

Notation response := (prod Z body).

(** What the handlers use of [Deps]: the manifest, whether there is a chain
    client, the token and the build's version strings. *)
Record Deps : Type := MkDeps {
  dp_ChainID : string; dp_NetworkType : string; dp_App : string; dp_SDK : string;
  dp_Version : string; dp_Commit : string; dp_Client : bool; dp_AuthToken : string }.

Definition actorOf (r : Request) : string :=
  if empty (rq_Actor r) then "admin-api" else rq_Actor r.

Definition default_reason (reason default : string) : string := if empty reason then default else reason.

Definition error_code (e : err) : string :=
  match e with ErrNotFound => "NOT_FOUND" | ErrStatusConflict => "STATUS_CONFLICT" | _ => "INTERNAL" end.

Definition storage_failure (e : err) : response := (ReviewResolution.storageErrStatus e, apiError (error_code e)).

Definition invalid_request : response := (400, apiError "INVALID_REQUEST").

Definition toStatusControls (c : OperationalControls) : statusControls :=
  MkStatusControls (oc_CreditPaused c) (oc_SigningPaused c) (oc_BroadcastPaused c) (oc_SweepPaused c)
    (oc_ScanWithoutCredit c) (oc_ResumeFromHeight c).

(** [strings.TrimPrefix]. *)
Definition TrimPrefix (s prefix : string) : string :=
  if String.prefix prefix s
  then String.substring (String.length prefix) (String.length s - String.length prefix) s else s.

(** Whether [adminAuth] lets the request through. *)
Definition authorized (token : string) (r : Request) : bool :=
  empty token || bool_decide (TrimPrefix (rq_Authorization r) "Bearer " = token).

Section handlers.
Context `{X : ScanExt} (deps : Deps).
Notation chainID := (dp_ChainID deps).

(** ** Status *)

Definition checkpoint_view (c : ScannerCheckpoint) : statusCheckpoint :=
  MkStatusCheckpoint (cp_LastFullyProcessedHeight c) (cp_LastObservedBlockHash c) (cp_UpdatedAt c).
Definition condition_view (c : ChainReviewCondition) : statusChainReview :=
  MkStatusReview (cr_ConditionID c) (cr_Trigger c) (cr_OpenedAt c).

(** Three reads, each its own statement. *)
Definition buildStatus : handler (result err statusResponse) :=
  let? controls := stmt (Controls_Get chainID) in
  let* cp := stmt (Checkpoints_Get chainID) in
  let? checkpoint := Done (match cp with
                           | Ok cp => Ok (Some (checkpoint_view cp))
                           | Err ErrNotFound => Ok None
                           | Err e => Err e
                           end) in
  let? open := stmt (ChainReview_ListOpen chainID) in
  Done (Ok (MkStatus chainID (dp_NetworkType deps) (toStatusControls controls) checkpoint
              (negb (bool_decide (open = [] :> list ChainReviewCondition))) (condition_view <$> open)
              (MkVersions (dp_Version deps) (dp_Commit deps) (dp_App deps) (dp_SDK deps)))).

Definition handleStatus (method : string) : handler response :=
  if negb (bool_decide (method = "GET")) then Done (405, apiError "METHOD_NOT_ALLOWED")
  else
    let* resp := buildStatus in
    match resp with
    | Ok resp => Done (200, StatusBody resp)
    | Err _ => Done (500, apiError "STATUS_UNAVAILABLE")
    end.

(** ** Controls *)

Definition no_controls : ControlsUpdate := MkControlsUpdate None None None None None None false.

Definition flow_update (f : ControlFlow) (v : bool) : ControlsUpdate :=
  match f with
  | FlowCredit => MkControlsUpdate (Some v) None None None None None false
  | FlowSigning => MkControlsUpdate None (Some v) None None None None false
  | FlowBroadcast => MkControlsUpdate None None (Some v) None None None false
  | FlowSweep => MkControlsUpdate None None None (Some v) None None false
  end.

(** [Controls().Apply] and the response of the three mutations. *)
Definition apply_controls (u : ControlsUpdate) (actor reason : string) : handler response :=
  let* r := atomically (Controls_Apply chainID u actor reason) in
  match r with
  | Err e => Done (storage_failure e)
  | Ok controls => Done (200, ControlsBody (toStatusControls controls))
  end.

Definition handleControlsPause (pause : bool) (r : Request) (req : option controlsRequest) : handler response :=
  match req with
  | None => Done invalid_request
  | Some req =>
      match enum_parse (cq_Flow req) with
      | None => Done (400, apiError "INVALID_FLOW")
      | Some flow => apply_controls (flow_update flow pause) (actorOf r)
                       (default_reason (cq_Reason req) "admin API request")
      end
  end.

Definition handleScanWithoutCredit (r : Request) (req : option scanWithoutCreditRequest) : handler response :=
  match req with
  | None => Done invalid_request
  | Some req => apply_controls (MkControlsUpdate None None None None (Some (wq_Enabled req)) None false)
                  (actorOf r) (default_reason (wq_Reason req) "admin API request")
  end.

Definition handleScannerResumeFrom (r : Request) (req : option resumeFromRequest) : handler response :=
  match req with
  | None => Done invalid_request
  | Some req =>
      if hq_Height req =? 0 then Done (400, apiError "INVALID_HEIGHT")
      else apply_controls (MkControlsUpdate None None None None None (Some (hq_Height req)) false)
             (actorOf r) (default_reason (hq_Reason req) "admin API rescan request")
  end.

(** ** Reconciliation on demand *)

Definition buildReconciler : result err Reconcile.Reconciler :=
  if negb (dp_Client deps) then Err ErrOther else Reconcile.New true chainID.

Definition report_response (p : handler (result err ReconciliationReport)) : handler response :=
  let* report := p in
  match report with
  | Err _ => Done (500, apiError "RECONCILE_FAILED")
  | Ok report => Done (200, ReportBody report)
  end.

Definition handleReconcileTx (req : option string) : handler response :=
  match req with
  | None | Some "" => Done invalid_request
  | Some txHash =>
      match buildReconciler with
      | Err _ => Done (503, apiError "RECONCILE_UNAVAILABLE")
      | Ok rec => report_response (Reconcile.ReconcileTx rec txHash ReconManual)
      end
  end.

(** [n]: pages the ledger walk may read, as in [Reconcile]. *)
Definition handleReconcileAddress (n : nat) (req : option string) : handler response :=
  match req with
  | None | Some "" => Done invalid_request
  | Some address =>
      match buildReconciler with
      | Err _ => Done (503, apiError "RECONCILE_UNAVAILABLE")
      | Ok rec => report_response (Reconcile.ReconcileAddressReport rec n address)
      end
  end.

(** ** Review queue *)

Definition reviewQueueListLimit : Z := 500.

Definition item_view (it : ReviewItem) : reviewItemView :=
  MkItemView (ri_ID it) (ri_ChainID it) (ri_Kind it) (ri_RefID it) (ri_Reason it) (ri_OpenedAt it).

Definition handleReviewQueueList : handler response :=
  let* items := stmt (Review_ListOpen chainID reviewQueueListLimit) in
  match items with
  | Err e => Done (storage_failure e)
  | Ok items => Done (200, QueueBody (item_view <$> items))
  end.

(** The conversion [reviewOutcome(req.Outcome)]. *)
Definition outcome_of (s : string) : ReviewResolution.reviewOutcome :=
  match List.find (fun o => bool_decide (ReviewResolution.outcome_string o = s))
          [ReviewResolution.outcomeWithdrawalConfirmed; ReviewResolution.outcomeWithdrawalFailed;
           ReviewResolution.outcomeWithdrawalCancelled; ReviewResolution.outcomeDepositApproved;
           ReviewResolution.outcomeDepositRejected; ReviewResolution.outcomeLedgerAcknowledged] with
  | Some o => o
  | None => ReviewResolution.outcomeOther s
  end.

Definition handleReviewQueueResolve (idText : string) (req : option resolveRequest) : handler response :=
  match ReviewResolution.ParseInt idText, req with
  | None, _ | _, None => Done invalid_request
  | Some id, Some req =>
      if empty (vq_Resolution req) || empty (vq_Outcome req) then Done invalid_request
      else
        let* now := ask CNow in
        let* status := ReviewResolution.resolveReviewItem id (outcome_of (vq_Outcome req)) (vq_Resolution req) now in
        Done (status, ReviewBody status)
  end.

Definition handleChainReviewResolve (id : string) (req : option resolveRequest) : handler response :=
  match req with
  | None => Done invalid_request
  | Some req =>
      if empty (vq_Resolution req) then Done invalid_request
      else
        let* now := ask CNow in
        let* r := stmt (ChainReview_Resolve id (vq_Resolution req) now) in
        match r with
        | Err e => Done (storage_failure e)
        | Ok _ => Done (200, ConditionBody id)
        end
  end.

(** ** The mux *)

Definition route (n : nat) (r : Request) : handler response :=
  match rq_Endpoint r with
  | Status method => handleStatus method
  | ControlsPause req => handleControlsPause true r req
  | ControlsResume req => handleControlsPause false r req
  | ScanWithoutCredit req => handleScanWithoutCredit r req
  | ScannerResumeFrom req => handleScannerResumeFrom r req
  | ReconcileTx req => handleReconcileTx req
  | ReconcileAddress req => handleReconcileAddress n req
  | ReviewQueueList => handleReviewQueueList
  | ReviewQueueResolve id req => handleReviewQueueResolve id req
  | ChainReviewResolve id req => handleChainReviewResolve id req
  end.

Definition serve (n : nat) (r : Request) : handler response :=
  if authorized (dp_AuthToken deps) r then route n r else Done (401, apiError "UNAUTHORIZED").
End handlers.

End Admin.
