(* ===== verification/AdminLaws.v ===== *)
(** * AdminLaws: what the operator's requests do

    A flow switch changes one switch of one chain, with its audit row, and the
    status shows it at once; a request without the token does nothing; a paused
    flow is silent: no worker started after the pause asks for a signature, or
    broadcasts, on that chain until the flow is resumed. *)

From stdpp Require Import base list strings gmap.
From Stdlib Require Import ZArith Lia String Ascii.
From S2P Require Import Prelude Workers Text Storage Database SqlStore SqlLaws Chain.
From S2P Require Import Interference ReviewResolution Parse Reconcile Admin.
Import SqlStore SqlLaws Interference Admin.

Open Scope string_scope.
Open Scope list_scope.
Open Scope Z_scope.

Module AdminLaws.

(** ** The controls of a chain *)

Definition paused (f : ControlFlow) (c : statusControls) : bool :=
  match f with
  | FlowCredit => sc_CreditPaused c
  | FlowSigning => sc_SigningPaused c
  | FlowBroadcast => sc_BroadcastPaused c
  | FlowSweep => sc_SweepPaused c
  end.

(** The controls with one switch set. *)
Definition switched (f : ControlFlow) (v : bool) (c : statusControls) : statusControls :=
  let '(MkStatusControls cr si br sw sc h) := c in
  match f with
  | FlowCredit => MkStatusControls v si br sw sc h
  | FlowSigning => MkStatusControls cr v br sw sc h
  | FlowBroadcast => MkStatusControls cr si v sw sc h
  | FlowSweep => MkStatusControls cr si br v sc h
  end.

Definition control_field (f : ControlFlow) : string :=
  match f with
  | FlowCredit => "credit_paused" | FlowSigning => "signing_paused"
  | FlowBroadcast => "broadcast_paused" | FlowSweep => "sweep_paused"
  end.

(** The audit rows of some changes, numbered from a table of [n] rows. *)
Fixpoint audit_rows (n : nat) (chainID actor reason : string) (now : Z) (changes : list controlChange)
    : list ControlsAuditEntry :=
  match changes with
  | [] => []
  | ch :: l => MkAudit (Z.of_nat (S n)) chainID (ch_field ch) (ch_old ch) (ch_new ch) actor reason now
                 :: audit_rows (S n) chainID actor reason now l
  end.

(** Only the controls and their audit trail differ. *)
Definition only_controls (s s' : Store) : Prop := set_rows (st_controls s) (set_rows (st_audit s) s') = s.

Lemma audit_inserted chainID actor reason now changes : forall s,
  tx_for changes (fun ch =>
    do_ insert_row (fun id => MkAudit id chainID (ch_field ch) (ch_old ch) (ch_new ch) actor reason now) [];
    tx_ret tt) s
  = (Ok tt, set_rows (st_audit s ++ audit_rows (List.length (st_audit s)) chainID actor reason now changes) s).
Proof.
  induction changes as [|ch l IH]; intros s; cbn [tx_for audit_rows].
  - rewrite app_nil_r. by destruct s.
  - unfold tx_bind at 1 2. unfold insert_row at 1. cbn [violation List.find option_map tx_ret rows audit_table].
    rewrite IH. destruct s. cbn. rewrite length_app, Nat.add_1_r, <-app_assoc. done.
Qed.

Lemma applyBool_value f d v b l : applyBool f d v = (b, l) -> b = default d v.
Proof. unfold applyBool. destruct v as [v|]; [|by intros [= <- _]]. destruct (Bool.eqb v d) eqn:E; intros [= <- _]; [|done]. by apply Bool.eqb_prop in E. Qed.

Lemma applyBool_none f d v b : applyBool f d v = (b, []) -> b = d.
Proof. unfold applyBool. destruct v as [v|]; [|by intros [= <-]]. by destruct (Bool.eqb v d); intros [= <-]. Qed.

Lemma apply_update_none cur u : snd (apply_update cur u) = [] -> fst (apply_update cur u) = cur.
Proof.
  unfold apply_update. destruct (applyBool "credit_paused" _ _) eqn:E1, (applyBool "signing_paused" _ _) eqn:E2,
    (applyBool "broadcast_paused" _ _) eqn:E3, (applyBool "sweep_paused" _ _) eqn:E4,
    (applyBool "scan_without_credit" _ _) eqn:E5.
  match goal with |- context [let '(_, _) := ?x in _] => destruct x as [h l6] eqn:E6 end. cbn [fst snd].
  intros [-> [-> [-> [-> [-> ->]%app_eq_nil]%app_eq_nil]%app_eq_nil]%app_eq_nil]%app_eq_nil.
  apply applyBool_none in E1 as ->, E2 as ->, E3 as ->, E4 as ->, E5 as ->.
  assert (h = oc_ResumeFromHeight cur) as -> by (clear -E6; repeat case_match; congruence).
  by destruct cur.
Qed.

Lemma apply_update_switches cur u :
  oc_SigningPaused (fst (apply_update cur u)) = default (oc_SigningPaused cur) (cu_SigningPaused u) /\
  oc_BroadcastPaused (fst (apply_update cur u)) = default (oc_BroadcastPaused cur) (cu_BroadcastPaused u).
Proof.
  unfold apply_update. destruct (applyBool "credit_paused" _ _), (applyBool "signing_paused" _ _) eqn:E2,
    (applyBool "broadcast_paused" _ _) eqn:E3, (applyBool "sweep_paused" _ _), (applyBool "scan_without_credit" _ _).
  apply applyBool_value in E2 as ->, E3 as ->. by destruct (match _ with Some _ => _ | None => _ end).
Qed.

(** The row a chain's controls are written to is the one read back. *)
Lemma upserted_controls (row : OperationalControls) s :
  exists s', upsert_row (fun c => bool_decide (oc_ChainID c = oc_ChainID row)) (fun _ => row) row s = (Ok tt, s') /\
    controls_at (oc_ChainID row) s' = row /\ (forall c, c <> oc_ChainID row -> controls_at c s' = controls_at c s) /\
    st_audit s' = st_audit s /\ set_rows (st_controls s) s' = s.
Proof.
  unfold upsert_row, controls_at. cbn [rows set_rows controls_table].
  destruct (existsb _ (st_controls s)) eqn:Ex; eexists; (split; [reflexivity|]); destruct s as [? ? ? ? ? ? ? ? ? l ? ? ? ? ? ?]; cbn in *;
    (split_and!; [| |done..]).
  - clear -Ex. induction l as [|c l IH]; [done|]. simpl in *. case_bool_decide; cbn [List.find].
    + by rewrite bool_decide_eq_true_2.
    + rewrite bool_decide_eq_false_2 by done. by apply IH.
  - intros c Hc. clear -Hc. induction l as [|x l IH]; [done|]. simpl in *. repeat case_bool_decide; congruence.
  - clear -Ex. induction l as [|c l IH]; cbn in *; [by rewrite bool_decide_eq_true_2|].
    apply orb_false_iff in Ex as [E1 E2]. rewrite E1. by apply IH.
  - intros c Hc. clear -Hc. induction l as [|x l IH]; cbn; [by rewrite bool_decide_eq_false_2|].
    by case_bool_decide.
Qed.

Lemma Controls_Apply_result chainID u actor reason s :
  chainID <> "" -> exists s', Controls_Apply chainID u actor reason s = (Ok (controls_at chainID s'), s') /\
    toStatusControls (controls_at chainID s') = toStatusControls (fst (apply_update (controls_at chainID s) u)) /\
    (forall c, c <> chainID -> controls_at c s' = controls_at c s) /\
    st_audit s' = st_audit s ++ audit_rows (List.length (st_audit s)) chainID actor reason (st_now s)
                    (snd (apply_update (controls_at chainID s) u)) /\
    only_controls s s'.
Proof.
  intros Hne. unfold Controls_Apply, tx_bind at 1, tx_require. replace (negb (empty chainID)) with true by (by destruct chainID).
  cbn [tx_ret]. unfold tx_bind at 1. rewrite Controls_Get_eq.
  pose proof (apply_update_none (controls_at chainID s) u) as Hnone.
  pose proof (apply_update_chain (controls_at chainID s) u) as Hch. rewrite controls_at_chain in Hch.
  destruct (apply_update (controls_at chainID s) u) as [new changes]. cbn [fst snd] in *. case_bool_decide as Hc.
  - subst changes. specialize (Hnone eq_refl). subst new. exists s. split_and!; [done..| |by destruct s].
    cbn. by rewrite app_nil_r.
  - clear Hnone. unfold tx_bind at 1, fmtTime, tx_get. rewrite Z.eqb_refl.
    destruct (upserted_controls (controls_stamp (st_now s) new) s) as (s1 & E & Hrow & Hother & Haudit & Hback).
    cbn [controls_stamp oc_ChainID] in *. rewrite Hch in *. unfold tx_bind at 1. rewrite E.
    unfold tx_bind at 1. rewrite audit_inserted. eexists. assert (forall c l, controls_at c (set_rows (R := ControlsAuditEntry) l s1) = controls_at c s1) as Ha by (by destruct s1).
    rewrite !Ha, Hrow. split_and!; [done|done| | |].
    + intros c Hc'. rewrite Ha. by apply Hother.
    + rewrite Haudit. by destruct s1.
    + rewrite <-Hback. destruct s1. cbn in *. unfold only_controls. cbn. by rewrite Haudit.
Qed.
Lemma flow_update_result f v cur :
  toStatusControls (fst (apply_update cur (flow_update f v))) = switched f v (toStatusControls cur) /\
  snd (apply_update cur (flow_update f v)) =
    (if Bool.eqb (paused f (toStatusControls cur)) v then []
     else [MkChange (control_field f) (FormatBool (negb v)) (FormatBool v)]).
Proof. by destruct f, v, cur as [ch [] [] [] [] sc h t]. Qed.

Section requests.
Context `{X : ScanExt} (deps : Deps) (R : Store -> Store -> Prop).
Notation chainID := (dp_ChainID deps).
Notation shown s := (toStatusControls (controls_at chainID s)).

Lemma apply_controls_exec u actor reason s tr resp s' :
  chainID <> "" -> exec R (apply_controls deps u actor reason) s tr resp s' ->
  exists s1, R s s1 /\ tr = [] /\ resp = (200, ControlsBody (shown s')) /\
    shown s' = toStatusControls (fst (apply_update (controls_at chainID s1) u)) /\
    (forall c, c <> chainID -> controls_at c s' = controls_at c s1) /\
    st_audit s' = st_audit s1 ++ audit_rows (List.length (st_audit s1)) chainID actor reason (st_now s1)
                    (snd (apply_update (controls_at chainID s1) u)) /\
    only_controls s1 s'.
Proof.
  intros Hne H. apply exec_bind in H as (a & s2 & t1 & t2 & -> & Ht & H).
  apply exec_stmt in Ht as (-> & s1 & Hs & Ht). exists s1. split; [done|].
  destruct (Controls_Apply_result chainID u actor reason s1 Hne) as (s3 & E & Hnew & Hother & Ha & Hf).
  unfold with_tx in Ht. rewrite E in Ht. injection Ht as <- <-. by inv_exec H.
Qed.

(** The status right after is built from the same controls. *)
Lemma status_shows o s : exists st, o_value (run o (handleStatus deps "GET") s) = (200, StatusBody st) /\
  st_Controls st = shown s.
Proof.
  unfold handleStatus, buildStatus, r_bind, stmt, Checkpoints_Get, select_row, ChainReview_ListOpen.
  rewrite bool_decide_eq_true_2 by done. cbn [negb p_bind run]. unfold with_tx at 1. rewrite Controls_Get_eq.
  cbn [p_bind run]. unfold with_tx at 1. destruct (List.find _ _); eexists; done.
Qed.

(** A flow switch changes one switch.  An authorized pause or resume of a
    known flow is answered 200 and made in one transaction on a state [s1] the
    other workers left: exactly that switch of that chain takes the requested
    value, the other chains and all other tables stay as they are, the audit
    trail gets one row with actor and reason if the switch changed and none
    otherwise, and the response and the next [GET /v1/status] show the new
    state. *)
Theorem flow_switch_exact (n : nat) (r : Request) (pause : bool) (req : controlsRequest) (flow : ControlFlow)
    (s s' : Store) (tr : trace) (resp : Z * body)
    (Hauth : authorized (dp_AuthToken deps) r = true)
    (Hend : rq_Endpoint r = if pause then ControlsPause (Some req) else ControlsResume (Some req))
    (Hflow : enum_parse (cq_Flow req) = Some flow) (Hch : chainID <> "")
    (H : exec R (serve deps n r) s tr resp s') :
  exists s1, R s s1 /\ tr = [] /\ resp = (200, ControlsBody (shown s')) /\
    shown s' = switched flow pause (shown s1) /\
    (forall c, c <> chainID -> controls_at c s' = controls_at c s1) /\
    st_audit s' = st_audit s1 ++
      (if Bool.eqb (paused flow (shown s1)) pause then []
       else [MkAudit (Z.of_nat (S (List.length (st_audit s1)))) chainID (control_field flow)
               (FormatBool (negb pause)) (FormatBool pause) (actorOf r)
               (default_reason (cq_Reason req) "admin API request") (st_now s1)]) /\
    only_controls s1 s' /\
    (forall o, exists st, o_value (run o (handleStatus deps "GET") s') = (200, StatusBody st) /\
       st_Controls st = shown s').
Proof.
  assert (route deps n r = apply_controls deps (flow_update flow pause) (actorOf r)
            (default_reason (cq_Reason req) "admin API request")) as E.
  { unfold route. rewrite Hend. destruct pause; unfold handleControlsPause; by rewrite Hflow. }
  unfold serve in H. rewrite Hauth, E in H.
  apply apply_controls_exec in H as (s1 & Hs & -> & -> & Hnew & Hother & Ha & Hf); [|done].
  destruct (flow_update_result flow pause (controls_at chainID s1)) as [E1 E2]. rewrite E2 in Ha. rewrite E1 in Hnew.
  exists s1. split_and!; [done..| |done|intros o; apply status_shows].
  rewrite Ha. by destruct (Bool.eqb _ _).
Qed.
End requests.

(** ** Refused requests *)

Local Ltac reads :=
  unfold Controls_Get, getControls, Checkpoints_Get, ChainReview_ListOpen, Ledger_List, Ledger_ListFeeOutflows,
    Ledger_GetTxEntry, Recon_ListReports, Watch_ListActive, Review_Get, Review_ListOpen, fmtTime; free_steps.
Local Ltac read_only := apply inert_reads; frames_walk ltac:(reads).

Section refused.
Context `{X : ScanExt} (deps : Deps).
Definition refused (resp : Z * body) : Prop := fst resp <> 200.

Lemma status_inert method : inert refused (handleStatus deps method).
Proof. unfold handleStatus, buildStatus. read_only. Qed.

Lemma apply_controls_inert u actor reason : inert refused (apply_controls deps u actor reason).
Proof. apply inert_last; [intros e; apply inert_done|]. by intros c R s tr b s' (_ & -> & _) []. Qed.

Lemma finishReport_inert rec kind entries : inert failed (Reconcile.finishReport rec kind entries).
Proof.
  unfold Reconcile.finishReport, Reconcile.periodStart. do 2 (apply inert_after; [read_only|intros ?]).
  apply inert_after; [read_only|intros start]. cbv zeta. destruct (_ && _); [apply inert_done|].
  apply inert_last; [intros e; apply inert_done|]. by intros c R s tr b s' (_ & -> & _) [].
Qed.

(** Reading steps that may fail, and then the rest. *)
Lemma inert_r_after {A B} (p : handler (result err A)) (f : A -> handler (result err B)) :
  frames eq p -> (forall a, inert failed (f a)) -> inert failed (r_bind p f).
Proof. intros Hp Hf. apply inert_after; [by apply inert_reads|]. intros [a|e]; [apply Hf | apply inert_done]. Qed.

Lemma ReconcileAddressReport_inert rec n a : inert failed (Reconcile.ReconcileAddressReport rec n a).
Proof.
  apply inert_r_after; [|intros e; apply finishReport_inert].
  unfold Reconcile.ReconcileAddress, Reconcile.ExpectedBalance. frames_walk ltac:(reads).
  generalize (Reconcile.no_position, (∅ : gset string)), 0. induction n as [|n IH]; intros ? ?; cbn [Reconcile.walk]; frames_walk ltac:(reads).
  apply IH.
Qed.

Lemma ReconcileTx_inert rec hash kind : inert failed (Reconcile.ReconcileTx rec hash kind).
Proof.
  unfold Reconcile.ReconcileTx. do 2 (destruct (negb _); [apply inert_done|]).
  apply inert_after; [read_only|]. intros [[info|]|[]]; try apply inert_done; [|apply finishReport_inert].
  apply inert_r_after; [frames_walk ltac:(reads)|intros watched].
  destruct (Reconcile.single_tx_parse _ _ _) as [bp|[]]; [|apply inert_done..].
  apply inert_r_after; [|intros es; apply inert_r_after; [|intros ?; apply finishReport_inert]].
  - generalize (@nil ReconciliationEntry). induction (Parse.bp_Transfers bp) as [|c cs IH]; intros l; cbn [Reconcile.tx_transfers]; frames_walk ltac:(reads); apply IH.
  - revert es. induction (Parse.bp_FeeDeductions bp) as [|c cs IH]; intros l; cbn [Reconcile.tx_fees]; frames_walk ltac:(reads); apply IH.
Qed.

Lemma report_inert p : inert failed p -> inert refused (report_response p).
Proof.
  intros Hp. eapply inert_bind; [exact Hp|]. intros [rep|e]; [right|left; split; [done|apply inert_done]].
  by intros R s tr b s' (_ & -> & _) [].
Qed.

Lemma resolve_inert id o note now :
  inert (fun status => status <> 200) (ReviewResolution.resolveReviewItem id o note now).
Proof.
  apply inert_after; [read_only|]. intros [item|e]; [|apply inert_done].
  do 2 (case_match; [apply inert_done|]). apply inert_last; [intros e; apply inert_done|].
  by intros c R s tr b s' (_ & -> & _) [].
Qed.

(** C25: a refused request changes nothing.  Whatever the endpoint, a request
    that is not answered 200 has left the database to the other workers, and a
    request without the token is answered 401 without touching the database
    or the node. *)
Theorem refused_inert (R : Store -> Store -> Prop) (n : nat) (r : Request) (s s' : Store) (tr : trace)
    (resp : Z * body) (HR : PreOrder R) (H : exec R (serve deps n r) s tr resp s') (Hresp : fst resp <> 200) :
  R s s' /\ (authorized (dp_AuthToken deps) r = false -> resp = (401, apiError "UNAUTHORIZED") /\ s' = s /\ tr = []).
Proof.
  split.
  - refine (_ R HR s tr resp s' H Hresp). clear. change (inert refused (serve deps n r)).
    unfold serve. destruct (authorized _ _); [|apply inert_done].
    unfold route. destruct (rq_Endpoint r) as [m|q|q|q|q|q|q| |id q|id q].
    + apply status_inert.
    + unfold handleControlsPause. repeat case_match; first [apply inert_done | apply apply_controls_inert].
    + unfold handleControlsPause. repeat case_match; first [apply inert_done | apply apply_controls_inert].
    + unfold handleScanWithoutCredit. case_match; first [apply inert_done | apply apply_controls_inert].
    + unfold handleScannerResumeFrom. repeat case_match; first [apply inert_done | apply apply_controls_inert].
    + unfold handleReconcileTx. repeat case_match; first [apply inert_done | apply report_inert, ReconcileTx_inert].
    + unfold handleReconcileAddress. repeat case_match; first [apply inert_done | apply report_inert, ReconcileAddressReport_inert].
    + unfold handleReviewQueueList. read_only.
    + unfold handleReviewQueueResolve. repeat case_match; try apply inert_done. apply inert_after; [read_only|intros now].
      eapply inert_bind; [apply resolve_inert|]. intros st. destruct (decide (st = 200)) as [->|Hst].
      * right. by intros R s tr b s' (_ & -> & _) [].
      * left. split; [done|apply inert_done].
    + unfold handleChainReviewResolve. repeat case_match; try apply inert_done. apply inert_after; [read_only|intros now].
      apply inert_last; [intros e; apply inert_done|]. by intros c R s tr b s' (_ & -> & _) [].
  - unfold serve in H. intros Ha. rewrite Ha in H. by inv_exec H.
Qed.
End refused.

(** ** Examples *)

Definition ex_deps : Deps := MkDeps "sovr-1" "testnet" "1.0" "0.50" "dev" "none" true "secret".
Definition ex_switch (flow auth : string) : Request :=
  MkRequest auth "alice" (ControlsPause (Some (MkControlsRequest flow "incident"))).

Lemma flow_switch_exact_witness :
  let s' := o_state (run (answering no_answers) (serve (X := Parse.ex_scan) ex_deps 1 (ex_switch "signing" "Bearer secret")) (empty_store 9)) in
  sc_SigningPaused (toStatusControls (controls_at "sovr-1" s')) = true /\
  st_audit s' = [MkAudit 1 "sovr-1" "signing_paused" "false" "true" "alice" "incident" 9].
Proof.
  pose (r := ex_switch "signing" "Bearer secret"). pose (p := serve (X := Parse.ex_scan) ex_deps 1 r).
  destruct (run_exec eq (answering no_answers) p (empty_store 9)) as [tr H].
  destruct (flow_switch_exact (X := Parse.ex_scan) ex_deps eq 1 r true (MkControlsRequest "signing" "incident") FlowSigning
    (empty_store 9) _ tr _ ltac:(reflexivity) ltac:(reflexivity) ltac:(reflexivity) ltac:(done) H)
    as (s1 & <- & _ & _ & Hnew & _ & Ha & _).
  split; [exact (f_equal sc_SigningPaused Hnew) | exact Ha].
Defined.

Lemma refused_inert_witness :
  o_state (run (answering no_answers) (serve (X := Parse.ex_scan) ex_deps 1 (ex_switch "deposits" "Bearer secret")) (empty_store 9))
    = empty_store 9.
Proof.
  pose (r := ex_switch "deposits" "Bearer secret"). pose (p := serve (X := Parse.ex_scan) ex_deps 1 r).
  destruct (run_exec eq (answering no_answers) p (empty_store 9)) as [tr H].
  destruct (refused_inert (X := Parse.ex_scan) ex_deps eq 1 r _ _ tr _ ltac:(apply _) H ltac:(vm_compute; discriminate))
    as [E _].
  exact (eq_sym E).
Defined.
End AdminLaws.
