(* ===== verification/Calm.v ===== *)
(** * Calm: handlers that leave the controls alone

    Every handler of the withdrawal workflow, the sweep engine and the sequence
    manager, with the two things the pause theorems need of it: its
    transactions do not write the operational controls, and it neither asks for
    a signature nor broadcasts, or only when the controls it was given say that
    it may. *)

From stdpp Require Import base list strings gmap relations.
From Stdlib Require Import ZArith Lia String.
From S2P Require Import Prelude Workers Text Storage Database SqlStore SqlLaws.
From S2P Require Import Hash Chain Tx Fees Sample Sequences Interference Withdrawals.
From S2P Require Import WithdrawalLaws ReviewResolution WithdrawalSystem Sweeps SweepSystem.
Import SqlStore SqlLaws Interference WithdrawalLaws ReviewResolution WithdrawalSystem SweepSystem.

Open Scope string_scope.
Open Scope list_scope.
Open Scope Z_scope.

Module Calm.

(** ** Transactions that leave the controls alone *)

Definition same_controls (s s' : Store) : Prop := st_controls s' = st_controls s.
#[export] Instance same_controls_preorder : PreOrder same_controls.
Proof. split; [done|]. intros a b c H1 H2. unfold same_controls in *. congruence. Qed.

Local Ltac leaves := by intros ? [].
#[export] Instance controls_ledger : Free same_controls LedgerEntry.  Proof. leaves. Qed.
#[export] Instance controls_feeOutflow : Free same_controls FeeOutflow.  Proof. leaves. Qed.
#[export] Instance controls_spend : Free same_controls FeeFundingSpend.  Proof. leaves. Qed.
#[export] Instance controls_deposits : Free same_controls DepositRecord.  Proof. leaves. Qed.
#[export] Instance controls_checkpoints : Free same_controls ScannerCheckpoint.  Proof. leaves. Qed.
#[export] Instance controls_withdrawals : Free same_controls WithdrawalRecord.  Proof. leaves. Qed.
#[export] Instance controls_sequences : Free same_controls SequenceReservation.  Proof. leaves. Qed.
#[export] Instance controls_sweeps : Free same_controls SweepJob.  Proof. leaves. Qed.
#[export] Instance controls_watched : Free same_controls WatchedAddress.  Proof. leaves. Qed.
#[export] Instance controls_audit : Free same_controls ControlsAuditEntry.  Proof. leaves. Qed.
#[export] Instance controls_chainReviews : Free same_controls ChainReviewCondition.  Proof. leaves. Qed.
#[export] Instance controls_reviews : Free same_controls ReviewItem.  Proof. leaves. Qed.
#[export] Instance controls_reports : Free same_controls ReconciliationReport.  Proof. leaves. Qed.
#[export] Instance controls_outbox : Free same_controls OutboxEvent.  Proof. leaves. Qed.

(** The repository methods of the workflows. *)
Ltac methods :=
  unfold Withdrawals.ignore_conflict, Withdrawals_UpdateStatus, Withdrawals_Get, Withdrawals_Create,
    Withdrawals_GetByIdempotencyKey, Withdrawals_ListByStatus, Withdrawals_SumCommittedBySource,
    Controls_Get, getControls, Sweeps_Get, Sweeps_UpdateStatus, Sweeps_Create, Sweeps_ListByStatus,
    Sequences_Reserve, Sequences_UpdateStatus, Sequences_GetByWorkRef, Sequences_ListUnconsumed,
    Review_Open, Review_Get, Review_Resolve, Review_ListOpen, ChainReview_Resolve, ChainReview_Get,
    ChainReview_ListOpen, Checkpoints_Get, Deposits_GetByID, Deposits_UpdateStatus, Deposits_ListByStatus,
    Watch_ListActive, Ledger_SumFeeFundingSpend, Ledger_AppendFeeFundingSpend, Ledger_List,
    Ledger_ListFeeOutflows, Ledger_GetTxEntry, Recon_ListReports, Recon_SaveReport, fmtTime, require_rows;
  free_steps.

Section pause.
Context `{X : Ext} (chain : string) (signing broadcasting : bool).

(** No signature is asked for while signing is paused, nothing is handed to the
    network while broadcasting is. *)
Definition mild (T : Type) (c : call T) : Prop :=
  match c with
  | CSign _ => signing = false
  | CBroadcast _ _ => broadcasting = false
  | _ => True
  end.
Local Notation calm := (obeys same_controls mild).
Local Ltac calm_steps := obeys_walk ltac:(methods) ltac:(done).

(** ** The withdrawal workflow *)

Section withdrawals.
Context (w : Withdrawals.Workflow).
Import Withdrawals.

Lemma quarantine_calm id from reason : calm (quarantine w id from reason).
Proof. unfold quarantine, quarantineTx. calm_steps. Qed.
Lemma senderPubKey_calm src : calm (senderPubKey w src).
Proof. unfold senderPubKey. calm_steps. Qed.
Lemma Reserve_calm c src ref : calm (Sequences.Reserve c src ref).
Proof. unfold Sequences.Reserve, Sequences.reserve_new, Sequences.reserveTx. calm_steps. Qed.
Lemma Submit_calm req : calm (Submit w req).
Proof. unfold Submit. calm_steps. Qed.
Lemma ValidateAddress_calm id : calm (ValidateAddress w id).
Proof. unfold ValidateAddress. calm_steps; apply quarantine_calm. Qed.
Lemma ReserveFunds_calm id : calm (ReserveFunds w id).
Proof. unfold ReserveFunds, reserveFundsTx. calm_steps; apply quarantine_calm. Qed.
Lemma ReserveSequence_calm id : calm (ReserveSequence w id).
Proof. unfold ReserveSequence. calm_steps; first [apply quarantine_calm | apply Reserve_calm]. Qed.
Lemma ApproveCompliance_calm id : calm (ApproveCompliance id).
Proof. unfold ApproveCompliance. calm_steps. Qed.
Lemma Build_calm id : calm (Build w id).
Proof. unfold Build. calm_steps; apply quarantine_calm. Qed.
Lemma Simulate_calm id : calm (Simulate w id).
Proof.
  unfold Simulate, simulationTxBytes, simulateFinish. calm_steps; first [apply quarantine_calm | apply senderPubKey_calm].
Qed.
Lemma Sign_calm id : signing = false -> calm (Sign w id).
Proof.
  intros Hs. unfold Sign, signAndPersist, signTx, quarantinePostSignature, quarantinePostSignatureTx. calm_steps;
    first [apply quarantine_calm | apply senderPubKey_calm].
Qed.
Lemma resolveUnknown_calm rec h : calm (resolveUnknownAfterBroadcast rec h).
Proof.
  unfold resolveUnknownAfterBroadcast, acceptTx, advanceReservation, reviewTx, quarantineReservation. calm_steps.
Qed.
Lemma Broadcast_calm id : broadcasting = false -> calm (Broadcast id).
Proof.
  intros Hb. unfold Broadcast, acceptTx, advanceReservation, reviewTx, quarantineReservation.
  calm_steps; apply resolveUnknown_calm.
Qed.
Lemma Cancel_calm id : calm (Cancel id).
Proof. unfold Cancel, cancelTx. calm_steps. Qed.
Lemma Confirm_calm id : calm (Confirm w id).
Proof.
  unfold Confirm, confirmIncluded, confirmMissing, includeTx, consumeReservation, reviewTx, quarantineReservation.
  calm_steps; apply quarantine_calm.
Qed.
End withdrawals.

Lemma ReconcileAccount_calm c src : calm (Sequences.ReconcileAccount c src).
Proof.
  unfold Sequences.ReconcileAccount. calm_steps.
  match goal with |- calm (Sequences.reconcile_loop ?l ?r) => generalize r; clear; induction l as [|x l IH] end;
    intros report; [done|]. cbn [Sequences.reconcile_loop]. unfold Sequences.resolve, Sequences.workFacts.
  calm_steps; apply IH.
Qed.

Lemma resolveReviewItem_calm id o note now : calm (resolveReviewItem id o note now).
Proof.
  unfold resolveReviewItem, resolveTx, resolveDepositReview, resolveWithdrawalReview, disposeReservation. calm_steps.
Qed.

(** ** The sweep engine *)

Section sweeps.
Context (e : Sweeps.Engine).
Import Sweeps.

Lemma terminateJob_calm j : calm (terminateJob j).
Proof. unfold terminateJob, terminateTx, releaseUnsignedReservation. calm_steps. Qed.
Lemma cancelJob_calm j : calm (cancelJob j).
Proof. unfold cancelJob. calm_steps. apply terminateJob_calm. Qed.
Lemma deferJob_calm id : calm (deferJob id).
Proof. unfold deferJob, deferTx, releaseUnsignedReservation. calm_steps. Qed.
Lemma deferOrCancel_calm j : calm (deferOrCancel j).
Proof. unfold deferOrCancel. calm_steps; [apply cancelJob_calm | apply deferJob_calm]. Qed.
Lemma sweep_pubKey_calm src : calm (senderPubKey e src).
Proof. unfold senderPubKey. calm_steps. Qed.
Lemma estimateFee_calm src dst a acct seq : calm (estimateFee e src dst a acct seq).
Proof. unfold estimateFee, simulationTxBytes. calm_steps; apply sweep_pubKey_calm. Qed.
Lemma plan_rounds_calm n src dst bal acct seq a fee reason : calm (plan_rounds e n src dst bal acct seq a fee reason).
Proof.
  revert a fee reason. induction n as [|n IH]; intros a fee reason; simpl; calm_steps;
    [apply estimateFee_calm | apply IH].
Qed.
Lemma planFeeAmount_calm src dst bal acct seq : calm (planFeeAmount e src dst bal acct seq).
Proof. unfold planFeeAmount. calm_steps; [apply estimateFee_calm | apply plan_rounds_calm]. Qed.
Lemma createJob_calm src bal h ids : calm (createJob e src bal h ids).
Proof. unfold createJob, createTx. calm_steps; first [apply planFeeAmount_calm | apply deferJob_calm]. Qed.
Lemma plan_source_calm cr pe h rep src : calm (plan_source e cr pe h rep src).
Proof. unfold plan_source, custodySettle, custodyTx. calm_steps. apply createJob_calm. Qed.
Lemma Plan_calm : calm (Plan e).
Proof.
  unfold Plan, plan_inputs, controls, sweepableSources, depositBacklog. calm_steps.
  match goal with |- calm (plan_loop _ _ _ _ ?l ?r) => generalize r; clear; induction l as [|src l IH] end;
    intros rep; simpl; calm_steps; [apply plan_source_calm | apply IH].
Qed.
Lemma createFundingJob_calm j id fee : calm (createFundingJob e j id fee).
Proof. unfold createFundingJob, feeWallet. calm_steps. Qed.
Lemma checkFunding_calm j bal fee : calm (checkFunding e j bal fee).
Proof.
  unfold checkFunding, feeFundingCapExceeded, feeWallet.
  calm_steps; first [apply deferOrCancel_calm | apply createFundingJob_calm].
Qed.
Lemma prepareWithFee_calm j res c bal fee gas :
  (signing = true -> oc_SigningPaused c = true) -> calm (prepareWithFee e j res c bal fee gas).
Proof.
  intros Hs. assert (oc_SigningPaused c = false -> signing = false) as Hs' by (destruct signing, (oc_SigningPaused c); naive_solver).
  unfold prepareWithFee, sign, signAndPersist, signTx, quarantined.
  calm_steps; first [apply deferOrCancel_calm | apply checkFunding_calm | apply cancelJob_calm | apply sweep_pubKey_calm
                    | apply obeys_ask; by apply Hs'].
  all: calm_steps.
Qed.
Lemma Revisit_calm id : calm (Revisit e id).
Proof.
  unfold Revisit, replanStaleAmount, controls.
  calm_steps; first [apply estimateFee_calm | apply planFeeAmount_calm | apply terminateJob_calm].
Qed.
Lemma sweep_Confirm_calm id : calm (Confirm e id).
Proof.
  unfold Confirm, confirmMissing, confirmIncluded, failTx, confirmTx, consumeReservation, quarantineReservation,
    markDepositsSwept, recordFeeFundingSpend. calm_steps.
Qed.
Lemma sweep_unknown_calm j h : calm (resolveUnknownAfterBroadcast j h).
Proof. unfold resolveUnknownAfterBroadcast, acceptTx, advanceReservation, quarantineReservation. calm_steps. Qed.
Lemma sweep_Broadcast_calm id : broadcasting = false -> calm (Broadcast e id).
Proof.
  intros Hb. unfold Broadcast, controls, rejectTx, acceptTx, advanceReservation, quarantineReservation.
  calm_steps; apply sweep_unknown_calm.
Qed.
End sweeps.
End pause.

End Calm.
