(* ===== verification/Pauses.v ===== *)
(** * Pauses: a paused flow is silent

    The switches of [admin_controls.go] against the workers they are meant to
    stop.  The workers are those of [OutflowSystem] and the operator's HTTP
    interface, for one chain whose signing or broadcasting is paused; nobody
    resumes it.  A worker started after the pause never asks the signer for a
    signature for that chain, or hands one of its transactions to the network,
    in any interleaving.  Recovery is the exception the code makes, see
    [recover_ignores_pause]. *)

From stdpp Require Import base list strings gmap relations.
From Stdlib Require Import ZArith Lia String.
From S2P Require Import Prelude Workers Text Storage Database SqlStore SqlLaws.
From S2P Require Import Hash Chain Tx Fees Sample Sequences Interference Withdrawals.
From S2P Require Import WithdrawalLaws ReviewResolution WithdrawalSystem Sweeps SweepSystem Services OutflowSystem.
From S2P Require Import Parse Reconcile Admin AdminLaws Calm.
Import SqlStore SqlLaws Interference WithdrawalLaws ReviewResolution WithdrawalSystem SweepSystem OutflowSystem.
Import Admin AdminLaws Calm.

Open Scope string_scope.
Open Scope list_scope.
Open Scope Z_scope.

Module Pauses.

(** ** The paused chain *)

Section system.
Context `{X : Ext} (chain : string) (signing broadcasting : bool).

(** The switches are set. *)
Definition held (s : Store) : Prop :=
  (signing = true -> oc_SigningPaused (controls_at chain s) = true) /\
  (broadcasting = true -> oc_BroadcastPaused (controls_at chain s) = true).

Definition allowed (T : Type) (c : call T) (s : Store) : Prop :=
  match c with
  | CSign req => signing = true -> ss_ChainID (sq_Summary req) <> chain
  | CBroadcast b _ => broadcasting = true ->
      exists x, x ∈ st_withdrawals s /\ signed x /\ w_SignedTxBytes x = b /\ w_ChainID x <> chain
  | _ => True
  end.

Definition rely (s s' : Store) : Prop := guarantee s s' /\ True.
Definition inv (s : Store) : Prop := invariant s /\ held s.
#[export] Instance rely_preorder : PreOrder rely.
Proof. split; [intros s; split; [reflexivity|done]|]. intros a b c [H1 _] [H2 _]. split; [by etransitivity|done]. Qed.

Local Notation quiet := (hush rely inv allowed).
Local Notation hushed := (hushed rely inv allowed).

Lemma allowed_stable T (c : call T) s s' : allowed T c s -> rely s s' -> allowed T c s'.
Proof.
  destruct c; try done. cbn. intros Ha [[He _] _] Hb. destruct (Ha Hb) as (x & Hx & Hs & <- & Hc).
  destruct (ev_withdrawals _ _ He x Hx) as (x' & Hx' & Er & _ & Hkeep). destruct (Hkeep Hs) as [E _].
  exists x'. unfold signed in *. rewrite E. split_and!; [done..|]. by injection Er as _ _ -> _ _ _ _ _.
Qed.

Lemma calm_quiet {A} (p : handler A) : obeys same_controls (mild signing broadcasting) p -> quiet p.
Proof.
  intros [_ Hp]. eapply hush_asks; [|exact Hp]. intros T c s Hc. destruct c; try done; cbn in *; congruence.
Qed.
Lemma ask_quiet {T} (c : call T) : (forall s, allowed T c s) -> quiet (ask c).
Proof. intros Hc s. by split. Qed.

Lemma stmt_quiet {A} (m : db A) : quiet (stmt m).
Proof. by intros s s1 _ _ _ _. Qed.

(** A read of the controls, made while the switches are set. *)
Lemma hushed_controls {B} (c : string) (k : result err OperationalControls -> handler B) s :
  (forall s1, rely s s1 -> held s1 -> hushed (k (Ok (controls_at c s1))) s1) ->
  hushed (p_bind (stmt (Controls_Get c)) k) s.
Proof.
  intros Hk s1 Hs [_ Hh]. unfold with_tx. rewrite Controls_Get_eq. intros _ _. by apply Hk.
Qed.

Lemma summary_chain w rec fee seq acct s :
  Withdrawals.summaryMismatch w rec fee seq acct s = None -> ss_ChainID s = w_ChainID rec.
Proof.
  unfold Withdrawals.summaryMismatch, Withdrawals.summary_checks. cbn [List.find fst snd].
  case_bool_decide; [|done]. cbn [negb]. by case_bool_decide.
Qed.

(** What is left does not depend on the state. *)
Local Ltac forget_state s :=
  revert s; match goal with |- forall s, Workers.hushed ?R ?I ?ok ?p s => change (hush R I ok p) end.

Lemma Sign_quiet w id : quiet (Withdrawals.Sign w id).
Proof.
  destruct signing eqn:Hsig; [|apply calm_quiet; by apply Sign_calm].
  intros s. unfold Withdrawals.Sign, r_bind at 1. apply hushed_bind; [apply _|apply stmt_quiet|]. intros [rec|er] s1 _; [|done].
  destruct (negb _); [done|]. unfold r_bind at 1. apply hushed_controls. intros s2 _ [Hh _].
  destruct (decide (w_ChainID rec = chain)) as [->|Hne]; [by rewrite Hh|].
  clear Hh. destruct (oc_SigningPaused _); [done|]. forget_state s2.
  unfold Withdrawals.signAndPersist, Withdrawals.quarantinePostSignature. hush_walk;
    first [ apply calm_quiet, quarantine_calm | apply calm_quiet, senderPubKey_calm
          | apply ask_quiet; intros ? _; cbn; by erewrite summary_chain ].
Qed.

Lemma Broadcast_quiet id : quiet (Withdrawals.Broadcast id).
Proof.
  destruct broadcasting eqn:Hbr; [|apply calm_quiet; by apply Broadcast_calm].
  intros s. unfold Withdrawals.Broadcast. intros s1 Hs [Hi _] _ _.
  destruct (with_tx (Withdrawals_Get id) s1) as [[rec|er] s1'] eqn:Hg; [|done]. cbn [fst snd p_bind].
  apply with_tx_ok, Withdrawals_Get_ok in Hg as (-> & Hrec & _).
  destruct (negb _); [done|]. destruct (w_SignedTxBytes rec) as [|b0 bs] eqn:Hb; [done|].
  destruct (w_TxHash rec) as [h|]; [|done]. apply hushed_controls. intros s2 Hs2 [_ Hh].
  destruct (decide (w_ChainID rec = chain)) as [->|Hne]; [by rewrite Hh|].
  clear Hh. destruct (oc_BroadcastPaused _); [done|]. split.
  - intros s3 Hs3 _. apply (allowed_stable _ _ s1); [|by etransitivity]. intros _. exists rec.
    unfold signed. by rewrite Hb.
  - intros res. clear Hs2. forget_state s2. hush_walk. apply calm_quiet, resolveUnknown_calm.
Qed.

Section engine.
Context (e : Sweeps.Engine) (He : Sweeps.cfg_ChainID (Sweeps.en_cfg e) = chain).

Lemma Prepare_quiet id : quiet (Sweeps.Prepare e id).
Proof.
  intros s. unfold Sweeps.Prepare, r_bind at 1. apply hushed_bind; [apply _|apply stmt_quiet|]. intros [j|er] s1 _; [|done].
  destruct (negb _); [done|]. unfold Sweeps.controls, r_bind at 1. rewrite He. apply hushed_controls.
  intros s2 _ [Hh _]. destruct (oc_SweepPaused _); [done|]. destruct (negb _); [done|].
  generalize dependent (controls_at chain s2). intros c Hc. forget_state s2.
  hush_walk; try (apply ask_quiet; done); apply calm_quiet;
    first [ apply Reserve_calm | apply cancelJob_calm | apply estimateFee_calm | by apply prepareWithFee_calm ].
Qed.

Lemma sweep_Broadcast_quiet id : quiet (Sweeps.Broadcast e id).
Proof.
  destruct broadcasting eqn:Hbr; [|apply calm_quiet; by apply sweep_Broadcast_calm].
  intros s. unfold Sweeps.Broadcast, r_bind at 1. apply hushed_bind; [apply _|apply stmt_quiet|]. intros [j|er] s1 _; [|done].
  destruct (negb _); [done|]. destruct (j_SignedTxBytes j); [done|]. destruct (j_TxHash j); [|done].
  unfold Sweeps.controls, r_bind at 1. rewrite He. apply hushed_controls. intros s2 _ [_ Hh].
  destruct (oc_SweepPaused _); [done|]. by rewrite Hh.
Qed.
End engine.

(** ** Handlers that keep the pause and are quiet under it *)

Definition keeps_held (s s' : Store) : Prop := held s -> held s'.
#[local] Instance keeps_held_preorder : PreOrder keeps_held.
Proof. split; unfold keeps_held; repeat intros ?; auto. Qed.

Lemma same_controls_keeps s s' : same_controls s s' -> keeps_held s s'.
Proof. unfold same_controls, keeps_held, held, controls_at. by intros ->. Qed.

Definition good {A} (p : handler A) : Prop := frames keeps_held p /\ quiet p.

Lemma calm_good {A} (p : handler A) : obeys same_controls (mild signing broadcasting) p -> good p.
Proof.
  intros Hp. split; [|by apply calm_quiet]. eapply frames_mono; [apply same_controls_keeps|]. apply Hp.
Qed.
(** A handler that may sign or broadcast, its calls justified separately. *)
Lemma framed_good {A} (p : handler A) : obeys same_controls (mild false false) p -> quiet p -> good p.
Proof. intros [Hf _] Hq. split; [|done]. by eapply frames_mono; [apply same_controls_keeps|]. Qed.

Lemma good_done {A} (a : A) : good (Done a).
Proof. by split. Qed.
Lemma good_bind {A B} (p : handler A) (f : A -> handler B) :
  good p -> (forall a, good (f a)) -> good (p_bind p f).
Proof.
  intros [Hf Hq] Hk. split; [apply frames_bind | apply hush_bind; [apply _|..]]; try done; intros a; apply Hk.
Qed.
Lemma good_r_bind {A B} (p : handler (result err A)) (f : A -> handler (result err B)) :
  good p -> (forall a, good (f a)) -> good (r_bind p f).
Proof. intros Hp Hf. apply good_bind; [done|]. intros [a|er]; [apply Hf | apply good_done]. Qed.
Lemma good_r_for {A} (l : list A) (f : A -> handler (result err unit)) : (forall a, good (f a)) -> good (r_for l f).
Proof. intros Hf. induction l; simpl; [apply good_done | by apply good_r_bind]. Qed.

Local Ltac good_steps :=
  repeat lazymatch goal with
  | |- good (r_bind _ _) => apply good_r_bind; [|intros ?]
  | |- good (p_bind _ _) => apply good_bind; [|intros ?]
  | |- good (r_for _ _) => apply good_r_for; intros ?
  | |- good (Done _) => apply good_done
  | |- good (stmt _) => apply calm_good, obeys_stmt; [apply _ | methods]
  | |- good (match ?x with _ => _ end) => destruct x eqn:?
  | |- good (if ?x then _ else _) => destruct x eqn:?
  end.

Lemma attempt_good {A} (p : handler A) : good p -> good (Services.attempt p).
Proof. intros Hp. unfold Services.attempt. good_steps. apply Hp. Qed.
Lemma each_good {A} (l : list A) f : (forall a, good (f a)) -> good (Services.each l f).
Proof. intros Hf. induction l as [|a l IH]; simpl; good_steps; [apply Hf | apply IH]. Qed.
Lemma ticks_good k p : good p -> good (Services.ticks k p).
Proof. intros Hp. induction k as [|k IH]; simpl; good_steps; [apply Hp | apply IH]. Qed.
Lemma paginateAll_good {A} n (fetch : Z -> A -> handler (result err (Z * A))) limit acc :
  (forall l a, good (fetch l a)) -> good (Services.paginateAll n fetch limit acc).
Proof.
  intros Hf. revert limit acc. induction n as [|n IH]; intros limit acc; simpl; good_steps; [apply Hf | apply IH].
Qed.
Lemma reconcile_sources_good c l : good (Services.reconcile_sources c l).
Proof. unfold Services.reconcile_sources. good_steps. apply calm_good, ReconcileAccount_calm. Qed.
Lemma startWithdrawals_good n c : good (Services.startWithdrawals n c).
Proof.
  unfold Services.startWithdrawals, Services.withdrawalsSourceAddresses. good_steps; [|apply reconcile_sources_good].
  match goal with |- good (Services.withdrawal_sources _ _ ?l ?o) => generalize o; induction l as [|st sts IH] end;
    intros out; simpl; good_steps; [|apply IH].
  apply paginateAll_good. intros. unfold Services.fetch_withdrawals. good_steps.
Qed.
Lemma startSweeper_good n c : good (Services.startSweeper n c).
Proof.
  unfold Services.startSweeper, Services.sweeperSourceAddresses. good_steps; [|apply reconcile_sources_good].
  match goal with |- good (Services.sweep_sources _ _ ?l ?o) => generalize o; induction l as [|st sts IH] end;
    intros out; simpl; good_steps; [|apply IH].
  apply paginateAll_good. intros. unfold Services.fetch_sweeps. good_steps.
Qed.

Lemma Sign_good w id : good (Withdrawals.Sign w id).
Proof. apply framed_good; [by apply Sign_calm | apply Sign_quiet]. Qed.
Lemma Broadcast_good id : good (Withdrawals.Broadcast id).
Proof. apply framed_good; [by apply Broadcast_calm | apply Broadcast_quiet]. Qed.

Lemma driveWithdrawals_good w : good (Services.driveWithdrawals w).
Proof.
  assert (Forall (fun st => forall id, good (snd st id)) (Services.steps w)) as Hs.
  { unfold Services.steps. repeat (apply Forall_cons; split); cbn [snd]; [..|by apply Forall_nil];
      intros id; apply attempt_good; first [apply Sign_good | apply Broadcast_good | apply calm_good];
      first [ apply ValidateAddress_calm | apply ReserveFunds_calm | apply ReserveSequence_calm | apply Build_calm
            | apply Simulate_calm | apply Confirm_calm ]. }
  unfold Services.driveWithdrawals. induction Hs as [|[st step] l Hst _ IH]; cbn [Services.each]; good_steps; [|apply IH].
  unfold Services.drive_status. good_steps. apply each_good. intros rec. apply Hst.
Qed.
Lemma runWithdrawalsService_good w n k : good (Services.runWithdrawalsService w n k).
Proof.
  unfold Services.runWithdrawalsService. good_steps; [apply startWithdrawals_good | apply ticks_good, driveWithdrawals_good].
Qed.

Section engines.
Context (e : Sweeps.Engine) (He : Sweeps.cfg_ChainID (Sweeps.en_cfg e) = chain).

Lemma Prepare_good id : good (Sweeps.Prepare e id).
Proof.
  apply framed_good; [|by apply Prepare_quiet]. unfold Sweeps.Prepare, Sweeps.controls.
  obeys_walk ltac:(methods) ltac:(done);
    first [ apply Reserve_calm | apply cancelJob_calm | apply estimateFee_calm | by apply prepareWithFee_calm ].
Qed.
Lemma sweep_Broadcast_good id : good (Sweeps.Broadcast e id).
Proof. apply framed_good; [by apply sweep_Broadcast_calm | by apply sweep_Broadcast_quiet]. Qed.

Lemma step_jobs_good step jobs errs : (forall id, good (step id)) -> good (Sweeps.step_jobs step jobs errs).
Proof.
  intros Hs. revert errs. induction jobs as [|j jobs IH]; intros errs; simpl; good_steps; [apply Hs | apply IH].
Qed.
Lemma pass_loop_good steps errs :
  Forall (fun st => forall id, good (st.2 id)) steps -> good (Sweeps.pass_loop e steps errs).
Proof.
  intros Hs. revert errs. induction Hs as [|[st step] steps Hst _ IH]; intros errs; cbn [Sweeps.pass_loop]; good_steps;
    [by apply step_jobs_good | apply IH | apply IH].
Qed.
Lemma Pass_good : good (Sweeps.Pass e).
Proof.
  unfold Sweeps.Pass. good_steps; [apply calm_good, Plan_calm|]. apply pass_loop_good.
  unfold Sweeps.pass_steps. repeat (apply Forall_cons; split); cbn [snd]; [..|by apply Forall_nil]; intros id.
  - apply Prepare_good.
  - apply Prepare_good.
  - apply sweep_Broadcast_good.
  - apply calm_good, sweep_Confirm_calm.
  - unfold Sweeps.revisitStep. good_steps. apply calm_good, Revisit_calm.
Qed.
Lemma runSweeperService_good n k : good (Services.runSweeperService e n k).
Proof.
  unfold Services.runSweeperService. good_steps; [apply startSweeper_good | apply ticks_good, attempt_good, Pass_good].
Qed.
End engines.

(** ** The operator *)

(** An update that resumes a paused flow. *)
Definition lifts (u : ControlsUpdate) : bool :=
  (signing && bool_decide (cu_SigningPaused u = Some false)) ||
  (broadcasting && bool_decide (cu_BroadcastPaused u = Some false)).

Lemma Controls_Apply_held c u actor reason : lifts u = false -> preserves keeps_held (Controls_Apply c u actor reason).
Proof.
  intros Hu s. destruct (decide (c = "")) as [->|Hne]; [done|].
  destruct (Controls_Apply_result c u actor reason s Hne) as (s' & -> & Hnew & Hother & _). cbn [snd].
  destruct (decide (c = chain)) as [->|Hc]; [|unfold keeps_held, held; by rewrite Hother].
  destruct (apply_update_switches (controls_at chain s) u) as [E1 E2]. injection Hnew as _ F1 F2 _ _ _.
  unfold keeps_held, held, lifts in *. rewrite F1, F2, E1, E2. apply orb_false_iff in Hu as [H1 H2].
  intros [Hs Hb]. split; intros E; rewrite E in *; cbn in *.
  - apply bool_decide_eq_false in H1. destruct (cu_SigningPaused u) as [[]|]; naive_solver.
  - apply bool_decide_eq_false in H2. destruct (cu_BroadcastPaused u) as [[]|]; naive_solver.
Qed.

Section admin.
Context `{Y : ScanExt} (deps : Deps).

Definition resumes (r : Request) : bool :=
  match rq_Endpoint r with
  | ControlsResume (Some req) =>
      match enum_parse (cq_Flow req) with Some f => lifts (flow_update f false) | None => false end
  | _ => false
  end.

Lemma apply_controls_good u actor reason : lifts u = false -> good (apply_controls deps u actor reason).
Proof.
  intros Hu. unfold apply_controls. good_steps. split; [|by intros ? ? ? ? ? ?].
  split; [|done]. apply preserves_with_tx; [apply _|]. by apply Controls_Apply_held.
Qed.

Local Notation calm := (obeys same_controls (mild signing broadcasting)).
Local Ltac calm_steps := obeys_walk ltac:(methods) ltac:(done).

Lemma finishReport_calm rec kind entries : calm (Reconcile.finishReport rec kind entries).
Proof. unfold Reconcile.finishReport, Reconcile.periodStart. calm_steps. Qed.
Lemma ReconcileTx_calm rec hash kind : calm (Reconcile.ReconcileTx rec hash kind).
Proof.
  unfold Reconcile.ReconcileTx. calm_steps; try apply finishReport_calm.
  - generalize (@nil ReconciliationEntry). induction (Parse.bp_Transfers _) as [|c cs IH]; intros l;
      cbn [Reconcile.tx_transfers]; calm_steps; apply IH.
  - match goal with |- calm (Reconcile.tx_fees _ _ _ ?fs ?es) => generalize es; induction fs as [|c cs IH] end;
      intros l; cbn [Reconcile.tx_fees]; calm_steps; apply IH.
Qed.
Lemma ReconcileAddressReport_calm rec n a : calm (Reconcile.ReconcileAddressReport rec n a).
Proof.
  unfold Reconcile.ReconcileAddressReport, Reconcile.ReconcileAddress, Reconcile.ExpectedBalance.
  calm_steps; try apply finishReport_calm.
  generalize (Reconcile.no_position, (∅ : gset string)), 0. induction n as [|n IH]; intros ? ?; cbn [Reconcile.walk]; calm_steps.
  apply IH.
Qed.

Lemma serve_good n r : resumes r = false -> good (serve deps n r).
Proof.
  intros Hr. unfold serve. destruct (authorized _ _); [|apply good_done]. unfold resumes in Hr. unfold route.
  destruct (rq_Endpoint r) as [m|q|q|q|q|q|q| |id q|id q].
  - apply calm_good. unfold handleStatus, buildStatus. calm_steps.
  - unfold handleControlsPause. good_steps. apply apply_controls_good. unfold lifts.
    by destruct signing, broadcasting, (_ : ControlFlow).
  - unfold handleControlsPause. destruct q as [q|]; [|apply good_done]. destruct (enum_parse (cq_Flow q)); [|apply good_done].
    by apply apply_controls_good.
  - unfold handleScanWithoutCredit. good_steps. apply apply_controls_good. unfold lifts. by destruct signing, broadcasting.
  - unfold handleScannerResumeFrom. good_steps. apply apply_controls_good. unfold lifts. by destruct signing, broadcasting.
  - apply calm_good. unfold handleReconcileTx, report_response. calm_steps. apply ReconcileTx_calm.
  - apply calm_good. unfold handleReconcileAddress, report_response. calm_steps. apply ReconcileAddressReport_calm.
  - apply calm_good. unfold handleReviewQueueList. calm_steps.
  - apply calm_good. unfold handleReviewQueueResolve. calm_steps. apply resolveReviewItem_calm.
  - apply calm_good. unfold handleChainReviewResolve. calm_steps.
Qed.

(** The requests keep the outflow guarantee: they are resolutions and
    transactions off the outflow tables. *)
Lemma apply_moves c u a r : preserves (moves guarantee invariant) (Controls_Apply c u a r).
Proof.
  intros s. pose proof (outside_op_both (OpControlsApply c u a r) eq_refl s) as H. cbn [exec_op] in H.
  unfold void, tx_bind in H. by destruct (Controls_Apply c u a r s) as [[o|er] s'].
Qed.
Lemma save_moves r : preserves (moves guarantee invariant) (Recon_SaveReport r).
Proof. exact (outside_op_both (OpSaveReport r) eq_refl). Qed.
Lemma condition_moves c r n : preserves (moves guarantee invariant) (ChainReview_Resolve c r n).
Proof. exact (outside_op_both (OpChainReviewResolve c r n) eq_refl). Qed.

Local Notation outflow := (tame guarantee invariant out_callok).
Local Ltac outflow_tx :=
  first [ apply apply_moves | apply save_moves | apply condition_moves
        | unfold Controls_Get, getControls, Checkpoints_Get, ChainReview_ListOpen, Ledger_List, Ledger_ListFeeOutflows,
            Ledger_GetTxEntry, Recon_ListReports, Watch_ListActive, Review_ListOpen; free_steps ].
Local Ltac outflow_steps := tame_walk ltac:(outflow_tx).

Lemma finishReport_outflow rec kind entries : outflow (Reconcile.finishReport rec kind entries).
Proof. unfold Reconcile.finishReport, Reconcile.periodStart. outflow_steps. Qed.
Lemma ReconcileTx_outflow rec hash kind : outflow (Reconcile.ReconcileTx rec hash kind).
Proof.
  unfold Reconcile.ReconcileTx. outflow_steps; try apply finishReport_outflow.
  - generalize (@nil ReconciliationEntry). induction (Parse.bp_Transfers _) as [|c cs IH]; intros l;
      cbn [Reconcile.tx_transfers]; outflow_steps; apply IH.
  - match goal with |- outflow (Reconcile.tx_fees _ _ _ ?fs ?es) => generalize es; induction fs as [|c cs IH] end;
      intros l; cbn [Reconcile.tx_fees]; outflow_steps; apply IH.
Qed.
Lemma ReconcileAddressReport_outflow rec n a : outflow (Reconcile.ReconcileAddressReport rec n a).
Proof.
  unfold Reconcile.ReconcileAddressReport, Reconcile.ReconcileAddress, Reconcile.ExpectedBalance.
  outflow_steps; try apply finishReport_outflow.
  generalize (Reconcile.no_position, (∅ : gset string)), 0. induction n as [|n IH]; intros ? ?; cbn [Reconcile.walk]; outflow_steps.
  apply IH.
Qed.

Lemma serve_outflow n r : outflow (serve deps n r).
Proof.
  unfold serve, route, handleStatus, buildStatus, handleControlsPause, handleScanWithoutCredit, handleScannerResumeFrom,
    handleReconcileTx, handleReconcileAddress, handleReviewQueueList, handleReviewQueueResolve,
    handleChainReviewResolve, report_response, apply_controls.
  outflow_steps; first [ apply ReconcileTx_outflow | apply ReconcileAddressReport_outflow | idtac ].
  intros s. apply framed_ok; [apply resolveReviewItem_framed | apply resolveReviewItem_tame].
Qed.
End admin.

(** ** The workers *)

(** An operation of another worker that does not resume a paused flow. *)
Definition lifting_op (o : op) : bool := match o with OpControlsApply _ u _ _ => lifts u | _ => false end.

(** The workers of the chain's adapter: everything of [kit] but recovery, with
    sweep engines of this chain, and the operator's requests. *)
Inductive adapter `{Y : ScanExt} : handler unit -> Prop :=
| ASubmit w req : adapter (forget (Withdrawals.Submit w req))
| AValidateAddress w id : adapter (forget (Withdrawals.ValidateAddress w id))
| AApproveCompliance id : adapter (forget (Withdrawals.ApproveCompliance id))
| AReserveFunds w id : adapter (forget (Withdrawals.ReserveFunds w id))
| AReserveSequence w id : adapter (forget (Withdrawals.ReserveSequence w id))
| ABuild w id : adapter (forget (Withdrawals.Build w id))
| ASimulate w id : adapter (forget (Withdrawals.Simulate w id))
| ASign w id : adapter (forget (Withdrawals.Sign w id))
| ACancel id : adapter (forget (Withdrawals.Cancel id))
| ABroadcast id : adapter (forget (Withdrawals.Broadcast id))
| AConfirm w id : adapter (forget (Withdrawals.Confirm w id))
| APass e : Sweeps.cfg_ChainID (Sweeps.en_cfg e) = chain -> adapter (forget (Sweeps.Pass e))
| APrepare e id : Sweeps.cfg_ChainID (Sweeps.en_cfg e) = chain -> adapter (forget (Sweeps.Prepare e id))
| ASweepBroadcast e id : Sweeps.cfg_ChainID (Sweeps.en_cfg e) = chain -> adapter (forget (Sweeps.Broadcast e id))
| AWithdrawalsService w n k : adapter (forget (Services.runWithdrawalsService w n k))
| ASweeperService e n k : Sweeps.cfg_ChainID (Sweeps.en_cfg e) = chain -> adapter (forget (Services.runSweeperService e n k))
| AReconcileAccount c source : adapter (forget (Sequences.ReconcileAccount c source))
| AServe deps n r : resumes r = false -> adapter (forget (serve deps n r))
| AOther t : forallb outside_op t = true -> existsb lifting_op t = false ->
    adapter (forget (atomically (tx_for t exec_op)))
| ATick t : adapter (Txn (fun s => (tt, set_now t s)) Done).

Lemma forget_good {A} (p : handler A) : good p -> good (forget p).
Proof. intros Hp. unfold forget. good_steps. apply Hp. Qed.

Lemma exec_op_held o : lifting_op o = false -> preserves keeps_held (exec_op o).
Proof.
  intros Ho. destruct o; cbn [exec_op lifting_op] in *;
    try (intros s; apply same_controls_keeps; revert s;
         match goal with |- forall s, same_controls s (snd (?m s)) => change (preserves same_controls m) end;
         unfold void, Ledger_Append, Ledger_AppendFeeOutflow, Deposits_Insert, Checkpoints_Set, Watch_Upsert,
           Watch_SetActive, ChainReview_Open, Outbox_Enqueue, Outbox_MarkDispatched; by methods).
  unfold void. apply preserves_bind; [apply _|by apply Controls_Apply_held|]. intros _. apply preserves_ret, _.
Qed.

Lemma other_good t : existsb lifting_op t = false -> good (atomically (tx_for t exec_op)).
Proof.
  intros Ht. split; [|by intros ? ? ? ? ? ?]. split; [|done]. apply preserves_with_tx; [apply _|].
  induction t as [|o t IH]; cbn in *; [apply preserves_ret, _|]. apply orb_false_iff in Ht as [Ho Ht].
  apply preserves_bind; [apply _|by apply exec_op_held|]. intros _. by apply IH.
Qed.

Lemma adapter_good `{Y : ScanExt} p : adapter p -> good p.
Proof.
  intros Hp. destruct Hp; try apply forget_good;
    try (apply calm_good; first [ apply Submit_calm | apply ValidateAddress_calm | apply ApproveCompliance_calm
      | apply ReserveFunds_calm | apply ReserveSequence_calm | apply Build_calm | apply Simulate_calm
      | apply Cancel_calm | apply Confirm_calm | apply ReconcileAccount_calm ]).
  - apply Sign_good.
  - apply Broadcast_good.
  - by apply Pass_good.
  - by apply Prepare_good.
  - by apply sweep_Broadcast_good.
  - apply runWithdrawalsService_good.
  - by apply runSweeperService_good.
  - by apply serve_good.
  - by apply other_good.
  - split; [|by intros ? ? ? ? ? ?]. split; [|done]. intros s. apply same_controls_keeps. by destruct s.
Qed.

Lemma adapter_outflow `{Y : ScanExt} p s : adapter p -> invariant s -> safe guarantee invariant out_callok p s.
Proof.
  intros Hp Hi. destruct Hp; try (apply kit_safe; [by constructor|done]). apply forgets, serve_outflow.
Qed.

Lemma adapter_safe `{Y : ScanExt} p s : adapter p -> inv s -> safe rely inv allowed p s.
Proof.
  intros Hp [Hi _]. destruct (adapter_good p Hp) as [Hf Hq].
  apply (safe_hushed rely inv allowed out_callok); [|apply Hq].
  apply (safe_conj guarantee (fun _ _ => True) invariant held out_callok out_callok keeps_held);
    [auto|done|exact Hf|by apply adapter_outflow].
Qed.
End system.


(** ** A pause between simulation and signature *)

Definition pause_ops : list op :=
  [OpControlsApply "sovr-1" (MkControlsUpdate None (Some true) (Some true) None None None false) "ops" "incident"].

Definition ex_prepared : list (handler unit) :=
  let w := ex_workflow in
  [forget (Withdrawals.Submit (X := Sample.sample) w ex_request);
   forget (Withdrawals.ValidateAddress (X := Sample.sample) w "w1");
   forget (Withdrawals.ApproveCompliance "w1");
   forget (Withdrawals.ReserveFunds w "w1"); forget (Withdrawals.ReserveSequence w "w1");
   forget (Withdrawals.Build (X := Sample.sample) w "w1");
   forget (Withdrawals.Simulate (X := Sample.sample) w "w1");
   forget (atomically (tx_for pause_ops exec_op))].
Definition ex_pause : system (S := Store) (C := call) := fold_left run_one ex_prepared ex_start.

Lemma ex_pause_reachable : rtc (sys_step (kit (X := Sample.sample))) ex_start ex_pause.
Proof.
  apply run_one_reachable; [|constructor]. repeat (constructor; [constructor|]); [done|]. constructor.
Qed.

(** Signing after the pause, and had there been none. *)
Definition ex_served (s : Store) : system (S := Store) (C := call) :=
  run_one (System s [] []) (forget (Withdrawals.Sign (X := Sample.sample) ex_workflow "w1")).
Definition signs (c : { T : Type & call T }) : bool := match projT2 c with CSign _ => true | _ => false end.

Lemma ex_served_state :
  map w_Status (st_withdrawals (sys_db (ex_served (sys_db ex_pause)))) = [WithdrawalTransactionSimulated] /\
  existsb signs (sys_calls (ex_served (sys_db ex_pause))) = false /\
  existsb signs (sys_calls (ex_served (sys_db (fold_left run_one (take 7 ex_prepared) ex_start)))) = true.
Proof. vm_compute. auto. Qed.

Lemma run_one_steps (H : handler unit -> Prop) p s :
  H p -> rtc (sys_step H) (System s [] []) (run_one (System s [] []) p).
Proof. intros Hp. by apply (run_sys H (answering ex_world) p s [] []). Qed.


(** Recovery hands a signed transaction to the network although broadcasting is
    paused. *)
Definition ex_lost : answers :=
  MkAnswers (Ok (7, 5)) (Err ErrClientNotFound) (Err ErrOther) (Ok 5000) (Ok (MkSimulate 80000 80000))
    (Ok (MkNodeStatus "sovr-1" 100 false)) (Ok Sample.key) (Err ErrOther) 0.
Definition ex_signed : Store :=
  sys_db (fold_left run_one
    (take 7 ex_prepared ++ [forget (Withdrawals.Sign (X := Sample.sample) ex_workflow "w1")]) ex_start).
(** The broadcast times out, the withdrawal goes to review, and then comes the
    pause. *)
Definition ex_lost_paused : Store :=
  let s := o_state (run (answering ex_lost) (Withdrawals.Broadcast "w1") ex_signed) in
  o_state (run (answering ex_lost) (atomically (tx_for pause_ops exec_op)) s).

Lemma recover_ignores_pause :
  oc_BroadcastPaused (controls_at "sovr-1" ex_lost_paused) = true /\
  map w_Status (st_withdrawals ex_lost_paused) = [WithdrawalReviewRequired] /\
  flat_map broadcast_of (o_calls (run (answering ex_world) (Withdrawals.Recover "w1") ex_lost_paused))
    = map w_SignedTxBytes (st_withdrawals ex_lost_paused).
Proof. vm_compute. auto. Qed.
End Pauses.
