(* ===== verification/Failover.v ===== *)
(** * Failover: two nodes behind one client

    [go/client/failover.go].  The state of the pool is the active node and the
    count of consecutive failures, each method of it a critical section of its
    mutex; what it does on the network is [wire], a client method sent to one
    of the two nodes.  [behind p] is the handler [p] with its client calls
    served by the pool.  The theorems: a handler behind the pool does what the
    handler alone does on answers that a node gave, and puts exactly its own
    broadcasts on the network; the comparison reports a match only where both
    nodes gave agreeing answers; a node that keeps failing is demoted.

    [AllBalances], [DenomMetadata], [GlobalFeeParams] and [TxsByAddress], which
    no handler of the kit calls, are further instances of [do_call].  The text of an
    error is a parameter, the deadline of the health check a possible answer of
    the standby. *)

From stdpp Require Import base list strings relations.
From Stdlib Require Import ZArith Lia String.
From S2P Require Import Prelude Workers Text Storage Database SqlStore Hash Chain Tx Interference.
Import SqlStore Interference.

Open Scope string_scope.
Open Scope list_scope.
Open Scope Z_scope.

Module Failover.

(** ** The pool *)

Inductive node : Type := Primary | Secondary.
Definition other (n : node) : node := match n with Primary => Secondary | Secondary => Primary end.

Record FailoverPolicy : Type := MkPolicy { fp_FailureThreshold : Z; fp_HealthCheckTimeout : Z }.
Record Failover : Type := MkFailover { f_active : node; f_consecFails : Z }.

Definition defaultFailureThreshold : Z := 3.
Definition defaultHealthCheckTimeout : Z := 5 * 10 ^ 9.

Definition NewFailover (policy : FailoverPolicy) : FailoverPolicy * Failover :=
  (MkPolicy
     (if fp_FailureThreshold policy <=? 0 then defaultFailureThreshold else fp_FailureThreshold policy)
     (if fp_HealthCheckTimeout policy <=? 0 then defaultHealthCheckTimeout else fp_HealthCheckTimeout policy),
   MkFailover Primary 0).

(** A client method sent to a node, a call to something that is not a node, and
    whether the caller's context has ended. *)
Inductive wire : Type -> Type :=
| Send {T} (n : node) (c : call T) : wire T
| Local {T} (c : call T) : wire T
| CtxErr : wire bool.

Notation pooled := (prog (Store * Failover) wire).
Notation wtrace := (list { T : Type & (wire T * T)%type }).

Definition failoverEligible (er : err) : pooled bool :=
  let* done := ask CtxErr in
  Done (negb done && match er with ErrUnsupported | ErrSimulateUnavailable | ErrClientNotFound => false | _ => true end).

Definition pair : pooled (node * node) :=
  Txn (fun y => ((f_active (snd y), other (f_active (snd y))), y)) Done.

Definition recordSuccess : pooled unit :=
  Txn (fun y => (tt, (fst y, MkFailover (f_active (snd y)) 0))) Done.

Definition standbyHealthy (standby : node) : pooled bool :=
  let* st := ask (Send standby CNodeStatus) in
  Done (match st with Ok _ => true | Err _ => false end).

Section pool.
Context (policy : FailoverPolicy) (Error : err -> string).

Definition fail_once (f : Failover) : Failover :=
  if fp_FailureThreshold policy <=? f_consecFails f + 1 then MkFailover (other (f_active f)) 0
  else MkFailover (f_active f) (f_consecFails f + 1).

Definition recordFailure : pooled unit :=
  Txn (fun y => (tt, (fst y, fail_once (snd y)))) Done.

Definition do_call {A} (op : node -> wire (result err A)) : pooled (result err A) :=
  let* nodes := pair in
  let* res := ask (op (fst nodes)) in
  match res with
  | Ok a => let* _ := recordSuccess in Done (Ok a)
  | Err er =>
      let* eligible := failoverEligible er in
      if negb eligible then Done (Err er)
      else
        let* healthy := standbyHealthy (snd nodes) in
        let* _ := recordFailure in
        if negb healthy then Done (Err er) else ask (op (snd nodes))
  end.

Definition Account (addr : string) : pooled (result err (Z * Z)) := do_call (fun n => Send n (CAccount addr)).
Definition Balance (addr denom : string) : pooled (result err Z) := do_call (fun n => Send n (CBalance addr denom)).
Definition Tx (hash : string) : pooled (result err (option TxInfo)) := do_call (fun n => Send n (CTx hash)).
Definition BlockByHeight (h : Z) : pooled (result err Block) := do_call (fun n => Send n (CBlockByHeight h)).
Definition LatestBlock : pooled (result err Block) := do_call (fun n => Send n CLatestBlock).
Definition BlockResults (h : Z) : pooled (result err BlockResults) := do_call (fun n => Send n (CBlockResults h)).
Definition NodeStatus : pooled (result err NodeStatus) := do_call (fun n => Send n CNodeStatus).
Definition Simulate (txBytes : bytes) : pooled (result err SimulateResult) := do_call (fun n => Send n (CSimulate txBytes)).

Definition Broadcast (txBytes : bytes) (mode : BroadcastMode) : pooled (result err BroadcastResult) :=
  let* nodes := pair in
  let* res := ask (Send (fst nodes) (CBroadcast txBytes mode)) in
  match res with
  | Ok _ => let* _ := recordSuccess in Done res
  | Err er =>
      let* eligible := failoverEligible er in
      if eligible then let* _ := recordFailure in Done res else Done res
  end.

(** ** The comparison *)

(** [int64] arithmetic. *)
Definition int64 (v : Z) : Z := u64 (asU64 v).

Definition both {T} (c : call T) : pooled (T * T) :=
  let* p := ask (Send Primary c) in
  let* q := ask (Send Secondary c) in
  Done (p, q).

(** Value and error text of one side. *)
Definition side {A} (show : A -> string) (r : result err A) : string * string :=
  match r with Ok a => (show a, "") | Err er => ("", Error er) end.

Definition compare_item {A} (kind : CompareKind) (show : A -> string) (same : A -> A -> bool)
    (p q : result err A) : CompareItem :=
  MkCompareItem kind (match p, q with Ok a, Ok b => same a b | _, _ => false end)
    (fst (side show p)) (fst (side show q)) (snd (side show p)) (snd (side show q)).

Definition within (tolerance : Z) (a b : Block) : bool :=
  let diff := int64 (bl_Height a - bl_Height b) in
  (if diff <? 0 then int64 (- diff) else diff) <=? tolerance.

Definition same_hash (a b : Block) : bool :=
  (0 <? List.length (bl_Hash a))%nat && bool_decide (bl_Hash a = bl_Hash b).

Definition show_tx (t : TxInfo) : string :=
  ("code=" ++ Tx.FormatUint (ti_Code t) ++ " height=" ++ Tx.int_String (ti_Height t))%string.
Definition same_tx (a b : TxInfo) : bool := (ti_Code a =? ti_Code b) && (ti_Height a =? ti_Height b).

Definition not_found {A} (r : result err A) : bool :=
  match r with Err ErrClientNotFound => true | _ => false end.

(** A nil transaction is dereferenced. *)
Definition found (r : result err (option TxInfo)) : result err (result err TxInfo) :=
  match r with Ok (Some t) => Ok (Ok t) | Ok None => Err Panicked | Err er => Ok (Err er) end.

Definition tx_item (p q : result err (option TxInfo)) : result err CompareItem :=
  if not_found p && not_found q then Ok (MkCompareItem CompareTxResult true "not_found" "not_found" "" "")
  else
    match found p, found q with
    | Ok a, Ok b => Ok (compare_item CompareTxResult show_tx same_tx a b)
    | Err er, _ | _, Err er => Err er
    end.

Definition when {A} (b : bool) (p : pooled (result err (list A))) : pooled (result err (list A)) :=
  if b then p else Done (Ok []).

Definition compare_one {A} (kind : CompareKind) (c : call (result err A)) (show : A -> string)
    (same : A -> A -> bool) : pooled (result err (list CompareItem)) :=
  let* pq := both c in Done (Ok [compare_item kind show same (fst pq) (snd pq)]).

Definition compare_tx (hash : string) : pooled (result err (list CompareItem)) :=
  let* pq := both (CTx hash) in
  Done (match tx_item (fst pq) (snd pq) with Ok it => Ok [it] | Err er => Err er end).

Definition empty_request (req : CompareRequest) : bool :=
  negb (cmp_Height req) && (cmp_BlockHashAtHeight req =? 0) && empty (cmp_TxHash req) &&
  empty (cmp_SequenceAddress req) && empty (cmp_BalanceAddress req).

Definition Compare (req : CompareRequest) : pooled (result err (list CompareItem)) :=
  if empty_request req then Done (Err ErrOther)
  else
    let? a := when (cmp_Height req)
      (compare_one CompareHeight CLatestBlock (fun b => Tx.int_String (bl_Height b)) (within (cmp_HeightTolerance req))) in
    let? b := when (negb (cmp_BlockHashAtHeight req =? 0))
      (compare_one CompareBlockHash (CBlockByHeight (cmp_BlockHashAtHeight req)) (fun b => Hash.HexUpper (bl_Hash b)) same_hash) in
    let? c := when (negb (empty (cmp_TxHash req))) (compare_tx (cmp_TxHash req)) in
    let? d := when (negb (empty (cmp_SequenceAddress req)))
      (compare_one CompareAccountSequence (CAccount (cmp_SequenceAddress req))
        (fun a => Tx.FormatUint (snd a)) (fun a b => snd a =? snd b)) in
    let? e := when (negb (empty (cmp_BalanceAddress req)))
      (compare_one CompareBalance (CBalance (cmp_BalanceAddress req) (cmp_BalanceDenom req)) Tx.int_String Z.eqb) in
    Done (Ok (a ++ b ++ c ++ d ++ e)).

(** ** Handlers behind the pool *)

Definition serve {T} (c : call T) : pooled T :=
  match c in call T return pooled T with
  | CAccount addr => Account addr
  | CTx hash => Tx hash
  | CBroadcast txBytes mode => Broadcast txBytes mode
  | CBalance addr denom => Balance addr denom
  | CSimulate txBytes => Simulate txBytes
  | CNodeStatus => NodeStatus
  | CLatestBlock => LatestBlock
  | CBlockByHeight h => BlockByHeight h
  | CBlockResults h => BlockResults h
  | CGetPublicKey keyRef => ask (Local (CGetPublicKey keyRef))
  | CSign req => ask (Local (CSign req))
  | CNow => ask (Local CNow)
  | CCorrelationID => ask (Local CCorrelationID)
  | CNewID => ask (Local CNewID)
  | CCompare req => Compare req
  end.

Fixpoint behind {A} (p : handler A) : pooled A :=
  match p with
  | Done a => Done a
  | Txn t k => Txn (fun y => (fst (t (fst y)), (snd (t (fst y)), snd y))) (fun x => behind (k x))
  | Call c k => let* x := serve c in behind (k x)
  end.
End pool.

(** ** What the network sees *)

(** The broadcasts a call makes, with its answer. *)
Notation broadcast := (bytes * BroadcastMode * result err BroadcastResult)%type.

Definition call_broadcast {T} (c : call T) : T -> list broadcast :=
  match c in call T return T -> list broadcast with
  | CBroadcast txBytes mode => fun res => [(txBytes, mode, res)]
  | _ => fun _ => []
  end.
Definition wire_broadcast {T} (w : wire T) : T -> list broadcast :=
  match w in wire T return T -> list broadcast with
  | Send _ c => call_broadcast c
  | _ => fun _ => []
  end.

Definition broadcasts (tr : trace) : list broadcast :=
  flat_map (fun e => call_broadcast (fst (projT2 e)) (snd (projT2 e))) tr.
Definition sent (w : wtrace) : list broadcast :=
  flat_map (fun e => wire_broadcast (fst (projT2 e)) (snd (projT2 e))) w.

(** The answer [x] to [c] was given, by a node or by what is not a node. *)
Definition heard {T} (c : wire T) (x : T) : { T : Type & (wire T * T)%type } := existT T (c, x).
Definition given {T} (c : call T) (x : T) (w : wtrace) : Prop :=
  (exists n, heard (Send n c) x ∈ w) \/ heard (Local c) x ∈ w.

Definition is_compare {T} (c : call T) : bool := match c with CCompare _ => true | _ => false end.
Definition is_broadcast {T} (c : call T) : bool := match c with CBroadcast _ _ => true | _ => false end.
Definition quiet {T} (w : wire T) : Prop := match w with Send _ c => is_broadcast c = false | _ => True end.

Lemma quiet_silent {T} (w : wire T) x : quiet w -> wire_broadcast w x = [].
Proof. destruct w as [T n c|T c|]; [|done..]. by destruct c. Qed.
Lemma quiet_sent w : Forall (fun e => quiet (fst (projT2 e))) w -> sent w = [].
Proof. induction 1 as [|e w He _ IH]; [done|]. simpl. by rewrite quiet_silent, IH. Qed.
Lemma asks_sent {A} R (p : pooled A) y w x y' : asks (fun T => quiet) p -> exec R p y w x y' -> sent w = [].
Proof. intros Hp H. apply quiet_sent. exact (exec_asks (fun T => quiet) R p y w x y' Hp H). Qed.
Lemma sent_app w1 w2 : sent (w1 ++ w2) = sent w1 ++ sent w2.
Proof. apply flat_map_app. Qed.

Lemma given_app {T} (c : call T) x w1 w2 : given c x (w1 ++ w2) <-> given c x w1 \/ given c x w2.
Proof. unfold given. setoid_rewrite elem_of_app. naive_solver. Qed.

Section laws.
Context (policy : FailoverPolicy) (Error : err -> string) (R : Store -> Store -> Prop) `{!PreOrder R}.
Hypothesis Hthreshold : 0 < fp_FailureThreshold policy.
Notation behind := (behind policy Error).
Notation serve := (serve policy Error).
Notation Compare := (Compare Error).

Definition pool_ok (f : Failover) : Prop := 0 <= f_consecFails f < fp_FailureThreshold policy.

(** The other workers move the store along [R] and the pool by its own
    methods. *)
Definition pool_moves (y y' : Store * Failover) : Prop :=
  R (fst y) (fst y') /\ (pool_ok (snd y) -> pool_ok (snd y')).

#[local] Instance pool_moves_preorder : PreOrder pool_moves.
Proof.
  split; [intros y; split; [reflexivity|done]|]. intros a b c [] []. split; [by etransitivity|auto].
Qed.

Lemma fail_once_ok f : pool_ok f -> pool_ok (fail_once policy f).
Proof.
  unfold pool_ok, fail_once. destruct (Z.leb_spec (fp_FailureThreshold policy) (f_consecFails f + 1)); simpl; lia.
Qed.

Lemma pair_frames : frames pool_moves pair.
Proof. split; [intros y; reflexivity | intros ?; exact Logic.I]. Qed.
Lemma recordSuccess_frames : frames pool_moves recordSuccess.
Proof. split; [|intros ?; exact Logic.I]. intros y. split; [reflexivity|]. unfold pool_ok. simpl. lia. Qed.
Lemma recordFailure_frames : frames pool_moves (recordFailure policy).
Proof. split; [|intros ?; exact Logic.I]. intros y. split; [reflexivity|]. apply fail_once_ok. Qed.

Local Ltac walk_frames :=
  repeat (frames_walk idtac; first [ apply pair_frames | apply recordSuccess_frames | apply recordFailure_frames | progress unfold both ]).

Lemma do_call_frames {A} (op : node -> wire (result err A)) : frames pool_moves (do_call policy op).
Proof. unfold do_call, failoverEligible, standbyHealthy. walk_frames. Qed.
Lemma serve_frames {T} (c : call T) : frames pool_moves (serve c).
Proof.
  destruct c; cbn [Failover.serve]; try apply do_call_frames; try (intros ?; exact Logic.I).
  - unfold Broadcast, failoverEligible. walk_frames.
  - unfold Failover.Compare, when, compare_one, compare_tx. walk_frames.
Qed.

Lemma do_call_asks {A} (op : node -> wire (result err A)) :
  (forall n, quiet (op n)) -> asks (fun T => quiet) (do_call policy op).
Proof.
  intros Hop. unfold do_call, pair, failoverEligible, standbyHealthy, recordSuccess, recordFailure.
  asks_walk ltac:(first [apply Hop | done]); intros ?; exact Logic.I.
Qed.
Lemma Compare_asks req : asks (fun T => quiet) (Compare req).
Proof. unfold Failover.Compare, when, compare_one, compare_tx, both. asks_walk ltac:(done). Qed.

(** The answer of a call through the pool is the answer of a node to it. *)
Lemma do_call_given {A} (c : call (result err A)) y w x y' :
  exec pool_moves (do_call policy (fun n => Send n c)) y w x y' -> given c x w.
Proof.
  intros H. unfold do_call in H. apply exec_bind in H as ([active standby] & y1 & w1 & w2 & -> & Hp & H).
  apply exec_bind in H as (res & y2 & w3 & w4 & -> & Hr & H). inv_exec Hr. cbn [fst snd] in H.
  assert (x = res -> given c x (w1 ++ [heard (Send active c) res] ++ w4)) as Hfirst.
  { intros ->. left. exists active. apply elem_of_app. right. by left. }
  destruct res as [a|er].
  { apply exec_bind in H as (u & y3 & w5 & w6 & -> & _ & H). inv_exec H. by apply Hfirst. }
  apply exec_bind in H as (el & y3 & w5 & w6 & -> & _ & H).
  destruct el; cbn [negb] in H; [|inv_exec H; by apply Hfirst].
  apply exec_bind in H as (healthy & y4 & w7 & w8 & -> & _ & H).
  apply exec_bind in H as (u & y5 & w9 & w10 & -> & _ & H).
  destruct healthy; cbn [negb] in H; [|inv_exec H; by apply Hfirst].
  inv_exec H. left. exists standby. set_solver.
Qed.

Lemma Broadcast_wire txBytes mode y w x y' :
  exec pool_moves (Broadcast policy txBytes mode) y w x y' ->
  given (CBroadcast txBytes mode) x w /\ sent w = [(txBytes, mode, x)].
Proof.
  intros H. unfold Broadcast in H. apply exec_bind in H as ([active standby] & y1 & w1 & w2 & -> & Hp & H).
  destruct Hp as (y0 & _ & -> & _). apply exec_bind in H as (res & y2 & w3 & w4 & -> & Hr & H). inv_exec Hr. cbn [fst snd] in H.
  assert (x = res /\ sent w4 = []) as [-> Es].
  { destruct res as [a|er].
    - apply exec_bind in H as (u & y3 & w5 & w6 & -> & (y4 & _ & -> & _) & H). by inv_exec H.
    - unfold failoverEligible in H. apply exec_bind in H as (el & y3 & w5 & w6 & -> & He & H). inv_exec He.
      destruct el; [|by inv_exec H].
      apply exec_bind in H as (u & y5 & w7 & w8 & -> & (y6 & _ & -> & _) & H). by inv_exec H. }
  split; [left; exists active; by left|]. simpl. by rewrite Es.
Qed.

Lemma serve_wire {T} (c : call T) y w x y' :
  exec pool_moves (serve c) y w x y' ->
  (is_compare c = false -> given c x w) /\ sent w = call_broadcast c x.
Proof.
  intros H. destruct c; cbn [Failover.serve is_compare call_broadcast] in H |- *;
    try (split; [intros _; by eapply do_call_given | eapply asks_sent; [|exact H]; by apply do_call_asks]);
    try (inv_exec H; split; [intros _; right; by left | done]).
  - apply Broadcast_wire in H as [Hg Hs]. by split.
  - split; [done|]. eapply asks_sent; [apply Compare_asks|exact H].
Qed.

(** C10: a handler behind the pool refines the handler.  Every execution of a
    handler whose client calls go through the failover pool, with the pool
    shared with other workers and both nodes answering as they like, is an
    execution of the handler on its own, on the same database moves and with
    the same result, in which every answer the handler got (the comparison
    apart) is one a node, or the signer or the clock, gave to exactly that
    call; what was broadcast on the network is what the handler broadcast,
    once each, in order and with the same answers; and the failure count stays
    below the threshold. *)
Theorem failover_refines {A} (p : handler A) (s s' : Store) (f f' : Failover) (w : wtrace) (a : A)
    (H : exec pool_moves (behind p) (s, f) w a (s', f')) :
  exists tr s1, exec R p s tr a s1 /\ R s1 s' /\ sent w = broadcasts tr /\
    (forall T (c : call T) (x : T), answered c x ∈ tr -> is_compare c = false -> given c x w) /\
    (pool_ok f -> pool_ok f').
Proof.
  assert (forall s0, R s0 s -> exists tr s1, exec R p s0 tr a s1 /\ R s1 s' /\ sent w = broadcasts tr /\
    (forall T (c : call T) (x : T), answered c x ∈ tr -> is_compare c = false -> given c x w) /\
    (pool_ok f -> pool_ok f')) as G; [|by apply G].
  revert s f w H. induction p as [b|X t k IH|X c k IH]; intros s f w H s0 Hs0; simpl in H.
  - destruct H as (-> & -> & [= -> ->]). exists [], s0. split_and!; try done. by intros T c x Hx%elem_of_nil.
  - destruct H as ([s1 f1] & [H1 H2] & H). simpl in *.
    destruct (IH _ _ _ _ H _ ltac:(reflexivity)) as (tr & s2 & He & HR & Hb & Hg & Hp).
    exists tr, s2. split_and!; try done; [|auto]. exists s1. split; [by etransitivity|done].
  - apply exec_bind in H as (x & [s1 f1] & w1 & w2 & -> & Hc & H).
    destruct (exec_frames pool_moves _ _ _ _ _ (serve_frames c) Hc) as [H1 H2]. simpl in *.
    destruct (serve_wire c _ _ _ _ Hc) as [Hgc Hsc].
    destruct (IH _ _ _ _ H s0 ltac:(by etransitivity)) as (tr & s2 & He & HR & Hb & Hg & Hp).
    exists (existT X (c, x) :: tr), s2. split_and!; [by exists x, tr|done|rewrite sent_app, Hsc, Hb; done| |auto].
    intros T c' x' [Heq|Hin]%elem_of_cons Hcmp.
    + pose (event := answered c' x'). change (given (fst (projT2 event)) (snd (projT2 event)) (w1 ++ w2)).
      change (is_compare (fst (projT2 event)) = false) in Hcmp. subst event. rewrite Heq in Hcmp |- *.
      by apply given_app; left; apply Hgc.
    + apply given_app. right. by apply (Hg T c' x').
Qed.
End laws.

(** ** What the comparison says *)

Section comparison.
Context (Error : err -> string) (R : Store * Failover -> Store * Failover -> Prop).

(** The item is a verdict on what the two nodes answered to [c]. *)
Definition judged {A} (w : wtrace) (c : call (result err A)) (agree : result err A -> result err A -> Prop)
    (it : CompareItem) : Prop :=
  exists p q, heard (Send Primary c) p ∈ w /\ heard (Send Secondary c) q ∈ w /\ (ci_Match it = true <-> agree p q).

Definition answers_agree {A} (same : A -> A -> Prop) (p q : result err A) : Prop :=
  exists a b, p = Ok a /\ q = Ok b /\ same a b.

Lemma judged_app {A} w1 w2 (c : call (result err A)) agree it :
  judged w1 c agree it \/ judged w2 c agree it -> judged (w1 ++ w2) c agree it.
Proof. intros [(p & q & Hp & Hq & H)|(p & q & Hp & Hq & H)]; exists p, q; rewrite !elem_of_app; auto. Qed.

Lemma compare_one_judged {A} b kind (c : call (result err A)) show same (agree : A -> A -> Prop) y w l y' :
  (forall x z, heard (Send Primary c) (Ok x) ∈ w -> heard (Send Secondary c) (Ok z) ∈ w -> same x z = true <-> agree x z) ->
  exec R (when b (compare_one Error kind c show same)) y w (Ok l) y' ->
  map ci_Kind l = (if b then [kind] else []) /\ Forall (judged w c (answers_agree agree)) l.
Proof.
  intros Hsame H. destruct b; simpl in H.
  2:{ destruct H as (-> & [= ->] & _). by split. }
  destruct H as (p & w1 & -> & q & w2 & -> & -> & [= ->] & _). split; [done|]. constructor; [|done].
  exists p, q. split_and!; [by left|right; by left|]. simpl. unfold answers_agree. split.
  - destruct p as [x|], q as [z|]; try done. intros E. exists x, z. split_and!; [done..|].
    apply Hsame; [by left|right; by left|done].
  - intros (x & z & -> & -> & E). apply Hsame; [by left|right; by left|done].
Qed.

(** Both found it with one code and height, or neither has it. *)
Definition tx_agree (p q : result err (option TxInfo)) : Prop :=
  (exists a b, p = Ok (Some a) /\ q = Ok (Some b) /\ ti_Code a = ti_Code b /\ ti_Height a = ti_Height b) \/
  (p = Err ErrClientNotFound /\ q = Err ErrClientNotFound).

Lemma not_found_iff {A} (r : result err A) : not_found r = true <-> r = Err ErrClientNotFound.
Proof. destruct r as [|[]]; naive_solver. Qed.

Lemma tx_item_judged p q it :
  tx_item Error p q = Ok it -> ci_Kind it = CompareTxResult /\ (ci_Match it = true <-> tx_agree p q).
Proof.
  unfold tx_item, tx_agree. rewrite <-!not_found_iff, <-andb_true_iff.
  destruct (not_found p && not_found q) eqn:E; [intros [= <-]; by (split; [|split; [right|]])|].
  assert (forall a b, same_tx a b = true <-> ti_Code a = ti_Code b /\ ti_Height a = ti_Height b) as Hs.
  { intros a b. unfold same_tx. by rewrite andb_true_iff, !Z.eqb_eq. }
  destruct p as [[a|]|e1], q as [[b|]|e2]; intros [= <-]; simpl; (split; [done|]); rewrite ?Hs; naive_solver.
Qed.

Lemma compare_tx_judged b hash y w l y' :
  exec R (when b (compare_tx Error hash)) y w (Ok l) y' ->
  map ci_Kind l = (if b then [CompareTxResult] else []) /\ Forall (judged w (CTx hash) tx_agree) l.
Proof.
  intros H. destruct b; simpl in H.
  2:{ destruct H as (-> & [= ->] & _). by split. }
  destruct H as (p & w1 & -> & q & w2 & -> & -> & H & _). destruct (tx_item Error p q) as [it|] eqn:E; [|done].
  injection H as ->. apply tx_item_judged in E as [E1 E2]. split; [by rewrite <-E1|]. constructor; [|done].
  exists p, q. split_and!; [by left|right; by left|done].
Qed.

Lemma within_abs tol a b :
  0 <= bl_Height a < 2 ^ 63 -> 0 <= bl_Height b < 2 ^ 63 ->
  within tol a b = true <-> Z.abs (bl_Height a - bl_Height b) <= tol.
Proof.
  intros Ha Hb. unfold within, int64, u64, asU64.
  remember (bl_Height a - bl_Height b) as d eqn:Ed. assert (- 2 ^ 63 < d < 2 ^ 63) as Hd by lia. clear Ed Ha Hb.
  assert ((if d mod 2 ^ 64 <? 2 ^ 63 then d mod 2 ^ 64 else d mod 2 ^ 64 - 2 ^ 64) = d) as ->.
  { destruct (Z.lt_ge_cases d 0).
    - rewrite <-(Z_mod_plus_full d 1 (2 ^ 64)), Z.mod_small by lia. rewrite (proj2 (Z.ltb_ge _ _)) by lia. lia.
    - rewrite Z.mod_small by lia. by rewrite (proj2 (Z.ltb_lt _ _)) by lia. }
  destruct (Z.ltb_spec d 0).
  - rewrite Z.mod_small by lia. rewrite (proj2 (Z.ltb_lt _ _)) by lia. rewrite Z.leb_le. lia.
  - rewrite Z.leb_le. lia.
Qed.

Lemma same_hash_iff a b : same_hash a b = true <-> bl_Hash a <> [] /\ bl_Hash a = bl_Hash b.
Proof.
  unfold same_hash. rewrite andb_true_iff, bool_decide_eq_true, Nat.ltb_lt.
  split; intros [H E]; (split; [|done]); destruct (bl_Hash a); simpl in *; try done; lia.
Qed.

(** The checks a request selects, in order. *)
Definition selected (req : CompareRequest) : list CompareKind :=
  (if cmp_Height req then [CompareHeight] else []) ++
  (if negb (cmp_BlockHashAtHeight req =? 0) then [CompareBlockHash] else []) ++
  (if negb (empty (cmp_TxHash req)) then [CompareTxResult] else []) ++
  (if negb (empty (cmp_SequenceAddress req)) then [CompareAccountSequence] else []) ++
  (if negb (empty (cmp_BalanceAddress req)) then [CompareBalance] else []).

(** What an item means. *)
Definition verdict (req : CompareRequest) (w : wtrace) (it : CompareItem) : Prop :=
  match ci_Kind it with
  | CompareHeight => judged w CLatestBlock
      (answers_agree (fun a b => Z.abs (bl_Height a - bl_Height b) <= cmp_HeightTolerance req)) it
  | CompareBlockHash => judged w (CBlockByHeight (cmp_BlockHashAtHeight req))
      (answers_agree (fun a b => bl_Hash a <> [] /\ bl_Hash a = bl_Hash b)) it
  | CompareTxResult => judged w (CTx (cmp_TxHash req)) tx_agree it
  | CompareAccountSequence => judged w (CAccount (cmp_SequenceAddress req)) (answers_agree (fun a b => snd a = snd b)) it
  | CompareBalance => judged w (CBalance (cmp_BalanceAddress req) (cmp_BalanceDenom req)) (answers_agree eq) it
  end.

Lemma kinds_all (b : bool) kind l (P Q : CompareItem -> Prop) :
  map ci_Kind l = (if b then [kind] else []) -> (forall it, ci_Kind it = kind -> P it -> Q it) ->
  Forall P l -> Forall Q l.
Proof.
  intros Hk Hq Hp. assert (Forall (fun it => ci_Kind it = kind) l) as Hl.
  { destruct b, l as [|it [|? ?]]; try done. injection Hk as Hk. by repeat constructor. }
  rewrite !Forall_forall in *. auto.
Qed.

(** The comparison says what the nodes said.  A comparison that returns
    has one item per selected check, in order, and each item is the verdict on
    the two answers the primary and the secondary gave to that query: it
    matches exactly when both answered and their latest heights are within the
    tolerance, their blocks at the height have the same non-empty hash, they
    have the transaction at the same height with the same code or both lack
    it, they report the same sequence, the same balance.  An error on either
    side is never a match, the shared absence of a transaction apart. *)
Theorem compare_sound (req : CompareRequest) (y y' : Store * Failover) (w : wtrace) (items : list CompareItem)
    (Hh : forall n b, heard (Send n CLatestBlock) (Ok b) ∈ w -> 0 <= bl_Height b < 2 ^ 63)
    (H : exec R (Compare Error req) y w (Ok items) y') :
  map ci_Kind items = selected req /\ Forall (verdict req w) items.
Proof.
  unfold Compare in H. destruct (empty_request req); [by destruct H as (_ & [=] & _)|].
  apply exec_r_bind_ok in H as (la & ya & wa & w1 & -> & Ha & H).
  apply exec_r_bind_ok in H as (lb & yb & wb & w2 & -> & Hb & H).
  apply exec_r_bind_ok in H as (lc & yc & wc & w3 & -> & Hc & H).
  apply exec_r_bind_ok in H as (ld & yd & wd & w4 & -> & Hd & H).
  apply exec_r_bind_ok in H as (le & ye & we & w5 & -> & He & H). destruct H as (-> & [= ->] & _).
  eapply compare_one_judged in Ha as [Ka Ja];
    [|intros a b Hx Hz; apply within_abs; (eapply Hh; apply elem_of_app; left; eassumption)].
  eapply compare_one_judged in Hb as [Kb Jb]; [|intros a b _ _; apply same_hash_iff].
  apply compare_tx_judged in Hc as [Kc Jc].
  eapply compare_one_judged in Hd as [Kd Jd]; [|intros a b _ _; apply Z.eqb_eq].
  eapply compare_one_judged in He as [Ke Je]; [|intros a b _ _; apply Z.eqb_eq].
  unfold selected. rewrite !map_app, Ka, Kb, Kc, Kd, Ke. split; [done|].
  rewrite !Forall_app. split_and!;
    (eapply kinds_all; [eassumption| |eassumption]); intros it E J; unfold verdict; rewrite E;
    repeat (apply judged_app; first [left; exact J | right]); exact J.
Qed.
End comparison.

(** ** Promotion *)

Section promotion.
Context (policy : FailoverPolicy) (o : oracle (C := wire)).

Fixpoint calls {A} (op : node -> wire (result err A)) (n : nat) : pooled unit :=
  match n with
  | O => Done tt
  | S n' => let* _ := do_call policy op in calls op n'
  end.

(** The errors that count against a node. *)
Definition transport (er : err) : Prop := er <> ErrUnsupported /\ er <> ErrSimulateUnavailable /\ er <> ErrClientNotFound.

Lemma do_call_fails {A} (op : node -> wire (result err A)) er s f :
  o _ (op (f_active f)) = Err er -> transport er -> o _ CtxErr = false ->
  o_state (run o (do_call policy op) (s, f)) = (s, fail_once policy f) /\
  o_value (run o (do_call policy op) (s, f)) =
    match o _ (Send (other (f_active f)) CNodeStatus) with
    | Ok _ => o _ (op (other (f_active f))) | Err _ => Err er
    end.
Proof.
  intros He (H1 & H2 & H3) Hctx. cbn. rewrite He. cbn. rewrite Hctx.
  destruct er; try done; cbn; destruct (o _ (Send (other (f_active f)) CNodeStatus)); done.
Qed.

(** A failing node is demoted.  While the active node answers a call with
    a transport error and nothing else happens, a call is answered by the
    standby when that is healthy and with the error otherwise, the active node
    keeps its place for every call before the threshold, and the call that
    reaches the threshold makes the standby active with no failures counted. *)
Theorem failing_node_demoted {A} (op : node -> wire (result err A)) (er : err) (s : Store) (f : Failover) (n : nat)
    (Hf : 0 <= f_consecFails f < fp_FailureThreshold policy)
    (He : o _ (op (f_active f)) = Err er) (Ht : transport er) (Hc : o _ CtxErr = false)
    (Hn : f_consecFails f + Z.of_nat n <= fp_FailureThreshold policy) :
  o_state (run o (calls op n) (s, f)) =
    (s, if f_consecFails f + Z.of_nat n =? fp_FailureThreshold policy then MkFailover (other (f_active f)) 0
        else MkFailover (f_active f) (f_consecFails f + Z.of_nat n)) /\
  (f_consecFails f + Z.of_nat n < fp_FailureThreshold policy ->
   o_value (run o (do_call policy op) (o_state (run o (calls op n) (s, f)))) =
     match o _ (Send (other (f_active f)) CNodeStatus) with
     | Ok _ => o _ (op (other (f_active f))) | Err _ => Err er
     end).
Proof.
  revert f Hf He Hn. induction n as [|n IH]; intros f Hf He Hn.
  - simpl. rewrite Z.add_0_r, (proj2 (Z.eqb_neq _ _)) by lia. split; [by destruct f|]. intros _.
    by apply do_call_fails.
  - cbn [calls]. rewrite run_bind. cbn [o_state].
    destruct (do_call_fails op er s f He Ht Hc) as [-> _]. unfold fail_once.
    destruct (Z.leb_spec (fp_FailureThreshold policy) (f_consecFails f + 1)) as [Hle|Hlt].
    + assert (n = 0%nat) as -> by lia. simpl. rewrite (proj2 (Z.eqb_eq _ _)) by lia. split; [done|lia].
    + destruct (IH (MkFailover (f_active f) (f_consecFails f + 1))) as [E1 E2]; [simpl; lia|done|simpl; lia|].
      cbn [f_active f_consecFails] in E1, E2.
      replace (f_consecFails f + 1 + Z.of_nat n) with (f_consecFails f + Z.of_nat (S n)) in E1, E2 by lia.
      by rewrite E1 in E2 |- *.
Qed.
End promotion.

(** ** Witnesses *)

(** The primary is down: it answers nothing, the secondary everything. *)
Definition ex_world : answers :=
  MkAnswers (Ok (7, 3)) (Err ErrClientNotFound) (Ok (MkBroadcast "H1" 0 "" true)) (Ok 500) (Err ErrOther)
    (Ok (MkNodeStatus "sovr-1" 10 false)) (Err ErrOther) (Err ErrOther) 11.
Definition ex_primary_down : oracle (C := wire) := fun T w =>
  match w in wire T return T with
  | Send Primary c => answering no_answers _ c
  | Send Secondary c => answering ex_world _ c
  | Local c => answering ex_world _ c
  | CtxErr => false
  end.
Definition ex_policy : FailoverPolicy := fst (NewFailover (MkPolicy 0 0)).
Definition ex_pool : Failover := snd (NewFailover (MkPolicy 0 0)).

(** Read a balance, then broadcast. *)
Definition ex_handler : handler (result err Z * result err BroadcastResult) :=
  let* b := ask (CBalance "sovr1a" BaseDenom) in
  let* r := ask (CBroadcast [Byte.x01] BroadcastSync) in
  Done (b, r).

(** The balance comes from the standby; the broadcast is tried once, on the
    failing active node. *)
Lemma failover_refines_witness :
  exists w tr s1, exec eq ex_handler (empty_store 5) tr (Ok 500, Err ErrOther) s1 /\ sent w = broadcasts tr /\
    pool_ok ex_policy (MkFailover Primary 2).
Proof.
  pose (p := behind ex_policy (fun _ => "error") ex_handler).
  assert (Reflexive (pool_moves ex_policy eq)) as Hrefl by (intros y; split; [reflexivity|done]).
  destruct (run_exec (pool_moves ex_policy eq) ex_primary_down p (empty_store 5, ex_pool)) as [w H].
  assert (o_value (run ex_primary_down p (empty_store 5, ex_pool)) = (Ok 500, Err ErrOther)) as Ev by (vm_compute; reflexivity).
  assert (o_state (run ex_primary_down p (empty_store 5, ex_pool)) = (empty_store 5, MkFailover Primary 2)) as Es
    by (vm_compute; reflexivity).
  rewrite Ev, Es in H.
  destruct (failover_refines ex_policy (fun _ => "error") eq ltac:(done) ex_handler _ _ _ _ w _ H)
    as (tr & s1 & He & _ & Hb & _ & Hp).
  exists w, tr, s1. split; [exact He|]. split; [exact Hb|]. apply Hp. split; done.
Defined.

(** Latest heights 10 and 12, with a tolerance of one. *)
Definition ex_block (h : Z) : Block := MkBlock "sovr-1" h [] 0 [] [].
Lemma compare_sound_witness :
  exists it, map ci_Kind [it] = [CompareHeight] /\ ci_Match it = false /\
    verdict (MkCompareRequest true 1 0 "" "" "" "")
      [heard (Send Primary CLatestBlock) (Ok (ex_block 10)); heard (Send Secondary CLatestBlock) (Ok (ex_block 12))] it.
Proof.
  pose (req := MkCompareRequest true 1 0 "" "" "" "").
  pose (w := [heard (Send Primary CLatestBlock) (Ok (ex_block 10)); heard (Send Secondary CLatestBlock) (Ok (ex_block 12))]).
  pose (it := compare_item (fun _ => "error") CompareHeight (fun b => Tx.int_String (bl_Height b)) (within 1)
    (Ok (ex_block 10)) (Ok (ex_block 12))).
  assert (exec eq (Compare (fun _ => "error") req) (empty_store 5, ex_pool) w (Ok [it]) (empty_store 5, ex_pool)) as H.
  { exists (Ok (ex_block 10)), [heard (Send Secondary CLatestBlock) (Ok (ex_block 12))]. split; [done|].
    exists (Ok (ex_block 12)), []. by repeat split. }
  assert (forall n b, heard (Send n CLatestBlock) (Ok b) ∈ w -> 0 <= bl_Height b < 2 ^ 63) as Hh.
  { intros n b Hb. pose (height := fun (e : { T : Type & (wire T * T)%type }) =>
      match fst (projT2 e) in wire T return T -> Z with
      | Send n c => match c in call T return T -> Z with
                    | CLatestBlock => fun x => match x with Ok b => bl_Height b | Err _ => 0 end
                    | _ => fun _ => 0 end
      | _ => fun _ => 0 end (snd (projT2 e))).
    change (0 <= height (heard (Send n CLatestBlock) (Ok b)) < 2 ^ 63).
    unfold w in Hb. apply elem_of_cons in Hb as [Hb|Hb%list_elem_of_singleton]; rewrite Hb; cbn; lia. }
  destruct (compare_sound (fun _ => "error") eq req _ _ w [it] Hh H) as [Hk Hv].
  exists it. split_and!; [exact Hk|reflexivity|]. by apply Forall_cons in Hv as [Hv _].
Defined.

(** Three failures make the secondary active. *)
Lemma failing_node_demoted_witness :
  o_state (run ex_primary_down (calls ex_policy (fun n => Send n (CBalance "sovr1a" BaseDenom)) 3) (empty_store 5, ex_pool))
  = (empty_store 5, MkFailover Secondary 0).
Proof.
  exact (proj1 (failing_node_demoted ex_policy ex_primary_down (fun n => Send n (CBalance "sovr1a" BaseDenom)) ErrOther
    (empty_store 5) ex_pool 3 ltac:(split; done) eq_refl ltac:(repeat split; done) eq_refl ltac:(done))).
Defined.

End Failover.
