(* ===== verification/Transport.v ===== *)
(** * Transport: the two chain clients ([go/client/client.go], [cometrpc.go], [grpc.go])

    [NewCometRPC] speaks JSON-RPC and tunnels service queries through
    [abci_query]; [NewGRPC] calls the services.  A method is a program whose
    state is the cached probe outcome (each access a critical section of its
    mutex) and whose calls are the requests on the wire, answered by the node.
    The protobuf codec is a parameter ([Proto]); deadlines, metrics and log lines
    are left out, and an error is its sentinel, with its text where the code
    looks at it.  The laws are in [TransportLaws]. *)

From stdpp Require Import base list strings.
From Stdlib Require Import ZArith Lia Ascii String Strings.Byte.
From S2P Require Import Prelude Workers Text GoStrings Storage Hash Chain Tx.

Open Scope string_scope.
Open Scope list_scope.
Open Scope Z_scope.

Module Transport.

(** ** Shared helpers ([client.go]) *)

Record ProbeResult : Type := MkProbe { pr_NodeReachable : bool; pr_TxServiceRoutable : bool }.

(** [probeState] *)
Record probeState : Type := MkProbeState { ps_probed : bool; ps_routable : bool }.
Definition fresh : probeState := MkProbeState false false.
Definition blocked (p : probeState) : bool := ps_probed p && negb (ps_routable p).

(** Filters of [TxsByAddress]; [PageRequest] and the responses the kit passes on
    are the codec's. *)
Record TxsByAddressOptions : Type := MkTxsOptions { to_OrderBy : Z; to_StartDate : string; to_EndDate : string }.

Class Proto : Type := {
  PageRequest : Type;
  Metadata : Type;
  Params : Type;
  TxsResponse : Type }.

Section client.
Context `{P : Proto}.

Record TxsRequest : Type := MkTxsRequest {
  tq_Address : string; tq_Pagination : option PageRequest; tq_OrderBy : Z; tq_StartDate : string; tq_EndDate : string }.
Definition txsByAddressRequest (addr : string) (page : option PageRequest) (opts : list TxsByAddressOptions) : TxsRequest :=
  match opts with
  | [] => MkTxsRequest addr page 0 "" ""
  | o :: _ => MkTxsRequest addr page (to_OrderBy o) (to_StartDate o) (to_EndDate o)
  end.

(** The service queries, with what the kit reads of each response. *)
Inductive query : Type -> Type :=
| QAccount (addr : string) : query (option Any)
| QBalance (addr denom : string) : query (option string)
| QAllBalances (addr : string) : query (list (string * string))
| QDenomMetadata (denom : string) : query (option Metadata)
| QSimulate (txBytes : bytes) : query (option (Z * Z))
| QGlobalFeeParams : query Params
| QTxsByAddress (req : TxsRequest) : query TxsResponse.

(** An account message as the codec decodes it: [None] is a missing embedded
    message. *)
Inductive account : Type :=
| BaseAccount (number sequence : Z)
| ModuleAccount (base : option (Z * Z))
| BaseVestingAccount (base : option (Z * Z))
| VestingAccount (vesting : option (option (Z * Z))).

(** Marshalling of requests, unmarshalling of responses and of accounts by
    message name. *)
Class Codec : Type := {
  marshal : forall A, query A -> option bytes;
  unmarshal : forall A, query A -> bytes -> option A;
  unmarshalAccount : string -> bytes -> option account }.
Context `{K : Codec}.

Definition account_names : list string :=
  ["cosmos.auth.v1beta1.BaseAccount"; "cosmos.auth.v1beta1.ModuleAccount";
   "cosmos.vesting.v1beta1.BaseVestingAccount"; "cosmos.vesting.v1beta1.ContinuousVestingAccount";
   "cosmos.vesting.v1beta1.DelayedVestingAccount"; "cosmos.vesting.v1beta1.PeriodicVestingAccount";
   "cosmos.vesting.v1beta1.PermanentLockedAccount"].

(** What follows the last slash. *)
Fixpoint after_slash (t : text) : option text :=
  match t with
  | [] => None
  | c :: t' => match after_slash t' with
               | Some r => Some r
               | None => if is_char "/"%char c then Some t' else None
               end
  end.
Definition message_name (typeURL : string) : string :=
  match after_slash (chars typeURL) with Some r => of_chars r | None => typeURL end.

Definition fromBase (b : option (Z * Z)) : result err (Z * Z) :=
  match b with Some p => Ok p | None => Err ErrOther end.

Definition accountFromAny (a : option Any) : result err (Z * Z) :=
  match a with
  | None => Err ErrClientNotFound
  | Some a =>
      let name := message_name (any_TypeUrl a) in
      if bool_decide (name ∈ account_names) then
        match unmarshalAccount name (any_Value a) with
        | None => Err ErrOther
        | Some (BaseAccount n s) => Ok (n, s)
        | Some (ModuleAccount b) | Some (BaseVestingAccount b) => fromBase b
        | Some (VestingAccount None) => Err ErrOther
        | Some (VestingAccount (Some b)) => fromBase b
        end
      else Err ErrUnsupported
  end.

Context `{X : Ext}.

Definition intFromCoinAmount (amount : string) : result err Z :=
  if GoStrings.empty amount then Ok 0
  else match NewIntFromString amount with Some v => Ok v | None => Err ErrOther end.

Fixpoint coinsFromPulsar (coins : list (string * string)) : result err (list (string * Z)) :=
  match coins with
  | [] => Ok []
  | (denom, amount) :: coins' =>
      match intFromCoinAmount amount with
      | Err e => Err e
      | Ok v => match coinsFromPulsar coins' with Ok out => Ok ((denom, v) :: out) | Err e => Err e end
      end
  end.

Definition eventsFromABCI (evs : list Event) : list Event :=
  map (fun ev => MkEvent (ev_Type ev) (map (fun a => MkAttr (at_Key a) (at_Value a)) (ev_Attributes ev))) evs.

(** The balance of a response, and the gas of one. *)
Definition balance_of (b : option string) : result err Z :=
  match b with None => Ok 0 | Some amount => intFromCoinAmount amount end.
Definition gas_of (g : option (Z * Z)) : SimulateResult :=
  match g with None => MkSimulate 0 0 | Some (wanted, used) => MkSimulate wanted used end.

(** The zero [time.Time], in nanoseconds since the epoch. *)
Definition zero_time : Z := -62135596800 * 10 ^ 9.

(** ** The CometBFT-RPC transport ([cometrpc.go]) *)

Record ABCIResponse : Type := MkABCI { ab_Code : Z; ab_Codespace : string; ab_Log : string; ab_Value : bytes }.
Record ResultTx : Type := MkResultTx {
  rt_Hash : bytes; rt_Height : Z; rt_Code : Z; rt_Log : string; rt_Events : list Event; rt_Tx : bytes }.
Record Header : Type := MkHeader { hd_ChainID : string; hd_Height : Z; hd_Time : Z; hd_LastBlockHash : bytes }.
Record ResultBlock : Type := MkResultBlock { rb_Hash : bytes; rb_Block : option (Header * list bytes) }.
Record ResultBlockResults : Type := MkResultBlockResults {
  rr_Height : Z; rr_TxsResults : list (option TxExecResult); rr_FinalizeBlockEvents : list Event }.
Record ResultStatus : Type := MkResultStatus { rs_Network : string; rs_LatestHeight : Z; rs_CatchingUp : bool }.
Record ResultBroadcastTx : Type := MkResultBroadcast { rx_Hash : bytes; rx_Code : Z; rx_Log : string }.

Inductive route : Type -> Type :=
| R_abci_query (path : string) (data : bytes) : route ABCIResponse
| R_tx (hash : bytes) : route ResultTx
| R_block (height : option Z) : route ResultBlock
| R_block_results (height : Z) : route ResultBlockResults
| R_status : route ResultStatus
| R_broadcast_tx_sync (tx : bytes) : route ResultBroadcastTx
| R_broadcast_tx_async (tx : bytes) : route ResultBroadcastTx.

Definition method {A} (r : route A) : string :=
  match r with
  | R_abci_query _ _ => "abci_query" | R_tx _ => "tx" | R_block _ => "block"
  | R_block_results _ => "block_results" | R_status => "status"
  | R_broadcast_tx_sync _ => "broadcast_tx_sync" | R_broadcast_tx_async _ => "broadcast_tx_async"
  end.

(** What comes back: an error of the connection, of the body or of its
    decoding, with its text; the envelope's error; or the result. *)
Inductive reply (A : Type) : Type :=
| Broken (text : string)
| EnvelopeError (code : Z) (message data : string)
| Result (a : A).
Arguments Broken {A}.
Arguments EnvelopeError {A}.
Arguments Result {A}.

Inductive rpc : Type -> Type :=
| Rpc {A} (r : route A) : rpc (reply A).
Notation comet := (prog probeState rpc).

(** [rpcCall]: the error is its text. *)
Definition rpcCall {A} (r : route A) : comet (result string A) :=
  let* res := ask (Rpc r) in
  Done (match res with
        | Broken text => Err ("rpc " +:+ method r +:+ ": " +:+ text)
        | EnvelopeError code message data =>
            Err ("rpc " +:+ method r +:+ ": code=" +:+ Tx.int_String code +:+ " message=" +:+ message +:+
                 " data=" +:+ data)
        | Result a => Ok a
        end).

(** [strings.Contains(strings.ToLower(s), sub)] for a lower-case ASCII [sub]. *)
Definition mentions (s sub : string) : bool := GoStrings.Contains (of_chars (map GoStrings.lower (chars s))) sub.

Definition isRouteMissing (code : Z) (codespace log : string) : bool :=
  (bool_decide (codespace = "sdk") && (code =? 6)) ||
  mentions log "no route for query" || mentions log "unknown query path".

Definition abciQueryRaw (path : string) (data : bytes) : comet (result err bytes) :=
  let* res := rpcCall (R_abci_query path data) in
  Done (match res with
        | Err _ => Err ErrOther
        | Ok r =>
            if negb (ab_Code r =? 0) then
              if isRouteMissing (ab_Code r) (ab_Codespace r) (ab_Log r) then Err ErrUnsupported
              else if mentions (ab_Log r) "not found" then Err ErrClientNotFound
              else Err ErrOther
            else Ok (ab_Value r)
        end).

Definition path {A} (q : query A) : string :=
  match q with
  | QAccount _ => "/cosmos.auth.v1beta1.Query/Account"
  | QBalance _ _ => "/cosmos.bank.v1beta1.Query/Balance"
  | QAllBalances _ => "/cosmos.bank.v1beta1.Query/AllBalances"
  | QDenomMetadata _ => "/cosmos.bank.v1beta1.Query/DenomMetadata"
  | QSimulate _ => "/cosmos.tx.v1beta1.Service/Simulate"
  | QGlobalFeeParams => "/sovr.globalfee.v1.Query/Params"
  | QTxsByAddress _ => "/sovr.txquery.v1.Query/GetTxsByAddress"
  end.

(** [abciQuery] and [abciQueryV2], which differ in the protobuf runtime. *)
Definition abciQuery {A} (q : query A) : comet (result err A) :=
  match marshal A q with
  | None => Done (Err ErrOther)
  | Some data =>
      let* value := abciQueryRaw (path q) data in
      Done (match value with
            | Err e => Err e
            | Ok v => match unmarshal A q v with Some a => Ok a | None => Err ErrOther end
            end)
  end.

(** [probeState.set] and [simulateBlocked]. *)
Definition set_probe {C} (routable : bool) : prog probeState C unit := Txn (fun _ => (tt, MkProbeState true routable)) Done.
Definition simulateBlocked {C} : prog probeState C bool := Txn (fun p => (blocked p, p)) Done.

(** [NewCometRPC]: [scheme] is what [url.Parse] makes of the address. *)
Definition NewCometRPC (scheme : string -> option string) (rpcURL : string) : option string :=
  match scheme rpcURL with
  | None => None
  | Some s => if bool_decide (s = "http") || bool_decide (s = "https") then Some (GoStrings.TrimSuffix rpcURL "/") else None
  end.

(** Two characters of [hex.DecodeString] at a time. *)
Definition hex_val (c : ascii) : option Z :=
  let n := Z.of_nat (nat_of_ascii c) in
  if (48 <=? n) && (n <=? 57) then Some (n - 48)
  else if (97 <=? n) && (n <=? 102) then Some (n - 87)
  else if (65 <=? n) && (n <=? 70) then Some (n - 55)
  else None.
Fixpoint hexDecode (t : text) : option bytes :=
  match t with
  | [] => Some []
  | a :: b :: t' =>
      match hex_val a, hex_val b, hexDecode t' with
      | Some x, Some y, Some r => Some (Hash.val_byte (16 * x + y) :: r)
      | _, _, _ => None
      end
  | _ => None
  end.
Definition upper (c : ascii) : ascii :=
  let n := nat_of_ascii c in if ((97 <=? n) && (n <=? 122))%nat then ascii_of_nat (n - 32) else c.
Definition hash_bytes (hash : string) : option bytes :=
  match map upper (chars hash) with
  | "0"%char :: "X"%char :: t => hexDecode t
  | t => hexDecode t
  end.

Definition comet_Account (addr : string) : comet (result err (Z * Z)) :=
  let* r := abciQuery (QAccount addr) in
  Done (match r with Ok a => accountFromAny a | Err e => Err e end).
Definition comet_Balance (addr denom : string) : comet (result err Z) :=
  let* r := abciQuery (QBalance addr denom) in
  Done (match r with Ok b => balance_of b | Err e => Err e end).
Definition comet_AllBalances (addr : string) : comet (result err (list (string * Z))) :=
  let* r := abciQuery (QAllBalances addr) in
  Done (match r with Ok l => coinsFromPulsar l | Err e => Err e end).
Definition comet_DenomMetadata (denom : string) : comet (result err (option Metadata)) := abciQuery (QDenomMetadata denom).
Definition comet_GlobalFeeParams : comet (result err Params) := abciQuery QGlobalFeeParams.
Definition comet_TxsByAddress (addr : string) (page : option PageRequest) (opts : list TxsByAddressOptions)
    : comet (result err TxsResponse) := abciQuery (QTxsByAddress (txsByAddressRequest addr page opts)).

Definition comet_Tx (hash : string) : comet (result err TxInfo) :=
  match hash_bytes hash with
  | None => Done (Err ErrOther)
  | Some h =>
      let* r := rpcCall (R_tx h) in
      Done (match r with
            | Err text => Err (if mentions text "not found" then ErrClientNotFound else ErrOther)
            | Ok res => Ok (MkTxInfo (Hash.HexUpper (rt_Hash res)) (rt_Height res) (rt_Code res) (rt_Log res)
                              (rt_Tx res) (eventsFromABCI (rt_Events res)))
            end)
  end.

Definition lift_rpc {A B} (f : A -> B) (r : result string A) : result err B :=
  match r with Ok a => Ok (f a) | Err _ => Err ErrOther end.

Definition block_of (res : ResultBlock) : Block :=
  match rb_Block res with
  | None => MkBlock "" 0 (rb_Hash res) zero_time [] []
  | Some (h, txs) => MkBlock (hd_ChainID h) (hd_Height h) (rb_Hash res) (hd_Time h) (hd_LastBlockHash h) txs
  end.
Definition comet_block (height : option Z) : comet (result err Block) :=
  let* r := rpcCall (R_block height) in Done (lift_rpc block_of r).
Definition comet_BlockByHeight (height : Z) : comet (result err Block) := comet_block (Some height).
Definition comet_LatestBlock : comet (result err Block) := comet_block None.

(** A nil entry becomes the zero result. *)
Definition exec_result (tr : option TxExecResult) : TxExecResult :=
  match tr with
  | None => MkTxResult 0 "" []
  | Some tr => MkTxResult (tr_Code tr) (tr_Log tr) (eventsFromABCI (tr_Events tr))
  end.
Definition comet_BlockResults (height : Z) : comet (result err BlockResults) :=
  let* r := rpcCall (R_block_results height) in
  Done (lift_rpc (fun res => MkBlockResults (rr_Height res) (map exec_result (rr_TxsResults res))
                               (eventsFromABCI (rr_FinalizeBlockEvents res))) r).

Definition comet_NodeStatus : comet (result err NodeStatus) :=
  let* r := rpcCall R_status in
  Done (lift_rpc (fun s => MkNodeStatus (rs_Network s) (rs_LatestHeight s) (rs_CatchingUp s)) r).

Definition comet_Simulate (txBytes : bytes) : comet (result err SimulateResult) :=
  let* stop := simulateBlocked in
  if stop : bool then Done (Err ErrSimulateUnavailable)
  else
    let* r := abciQuery (QSimulate txBytes) in
    match r with
    | Err ErrUnsupported => let* _ := set_probe false in Done (Err ErrSimulateUnavailable)
    | Err e => Done (Err e)
    | Ok g => Done (Ok (gas_of g))
    end.

Definition comet_Broadcast (txBytes : bytes) (mode : BroadcastMode) : comet (result err BroadcastResult) :=
  let* r := rpcCall (match mode with
                     | BroadcastSync => R_broadcast_tx_sync txBytes
                     | BroadcastAsync => R_broadcast_tx_async txBytes
                     end) in
  Done (lift_rpc (fun res => MkBroadcast (Hash.HexUpper (rx_Hash res)) (rx_Code res) (rx_Log res) (rx_Code res =? 0)) r).

Definition comet_Probe : comet (ProbeResult * option err) :=
  let* r := rpcCall R_status in
  match r with
  | Err _ => let* _ := set_probe false in Done (MkProbe false false, Some ErrOther)
  | Ok _ =>
      let* sim := abciQuery (QSimulate []) in
      let routable := match sim with Err ErrUnsupported => false | _ => true end in
      let* _ := set_probe routable in
      Done (MkProbe true routable, None)
  end.

(** ** The gRPC transport ([grpc.go]) *)

(** A status that is not OK is its code. *)
Definition Unimplemented : Z := 12.
Definition NotFound : Z := 5.

Record TxResponse : Type := MkTxResponse {
  tp_TxHash : string; tp_Height : Z; tp_Code : Z; tp_RawLog : string; tp_Events : list Event; tp_Tx : option bytes }.

(** A block of the service: its header's fields read through nil-safe getters. *)
Record pb_Header : Type := MkPbHeader {
  ph_ChainID : string; ph_Height : Z; ph_Time : option Z; ph_LastBlockHash : bytes }.
Definition no_header : pb_Header := MkPbHeader "" 0 None [].
Record BlockResponse : Type := MkBlockResponse {
  bk_Hash : bytes; bk_SdkBlock : option (option pb_Header * list bytes); bk_Block : option (option pb_Header * list bytes) }.

Inductive service : Type -> Type :=
| S_query {A} (q : query A) : service (result Z A)
| S_GetTx (hash : string) : service (result Z (option TxResponse))
| S_GetBlockByHeight (height : Z) : service (result Z BlockResponse)
| S_GetLatestBlock : service (result Z BlockResponse)
| S_GetSyncing : service (result Z bool)
| S_BroadcastTx (txBytes : bytes) (mode : BroadcastMode) : service (result Z (option TxResponse)).
Notation grpc := (prog probeState service).

Definition mapErr (s : Z) : err :=
  if s =? Unimplemented then ErrUnsupported else if s =? NotFound then ErrClientNotFound else ErrOther.
Definition mapped {A B} (f : A -> result err B) (r : result Z A) : result err B :=
  match r with Ok a => f a | Err s => Err (mapErr s) end.

Definition grpc_Account (addr : string) : grpc (result err (Z * Z)) :=
  let* r := ask (S_query (QAccount addr)) in Done (mapped accountFromAny r).
Definition grpc_Balance (addr denom : string) : grpc (result err Z) :=
  let* r := ask (S_query (QBalance addr denom)) in Done (mapped balance_of r).
Definition grpc_AllBalances (addr : string) : grpc (result err (list (string * Z))) :=
  let* r := ask (S_query (QAllBalances addr)) in Done (mapped coinsFromPulsar r).
Definition grpc_DenomMetadata (denom : string) : grpc (result err (option Metadata)) :=
  let* r := ask (S_query (QDenomMetadata denom)) in Done (mapped Ok r).
Definition grpc_GlobalFeeParams : grpc (result err Params) :=
  let* r := ask (S_query QGlobalFeeParams) in Done (mapped Ok r).
Definition grpc_TxsByAddress (addr : string) (page : option PageRequest) (opts : list TxsByAddressOptions)
    : grpc (result err TxsResponse) :=
  let* r := ask (S_query (QTxsByAddress (txsByAddressRequest addr page opts))) in Done (mapped Ok r).

Definition grpc_Tx (hash : string) : grpc (result err TxInfo) :=
  let* r := ask (S_GetTx hash) in
  Done (mapped (fun t => match t with
                         | None => Err ErrClientNotFound
                         | Some t => Ok (MkTxInfo (tp_TxHash t) (tp_Height t) (tp_Code t) (tp_RawLog t)
                                           (default [] (tp_Tx t)) (eventsFromABCI (tp_Events t)))
                         end) r).

Definition blockFromCmtService (b : BlockResponse) : Block :=
  let show '(h, txs) :=
    let h := default no_header h in
    MkBlock (ph_ChainID h) (ph_Height h) (bk_Hash b) (default zero_time (ph_Time h)) (ph_LastBlockHash h) txs in
  match bk_SdkBlock b, bk_Block b with
  | Some s, _ => show s
  | None, Some p => show p
  | None, None => MkBlock "" 0 (bk_Hash b) zero_time [] []
  end.

Definition grpc_BlockByHeight (height : Z) : grpc (result err Block) :=
  let* r := ask (S_GetBlockByHeight height) in Done (mapped (fun b => Ok (blockFromCmtService b)) r).
Definition grpc_LatestBlock : grpc (result err Block) :=
  let* r := ask S_GetLatestBlock in Done (mapped (fun b => Ok (blockFromCmtService b)) r).
Definition grpc_BlockResults (height : Z) : grpc (result err BlockResults) := Done (Err ErrUnsupported).

Definition grpc_NodeStatus : grpc (result err NodeStatus) :=
  let* blk := ask S_GetLatestBlock in
  match blk with
  | Err s => Done (Err (mapErr s))
  | Ok blk =>
      let* sync := ask S_GetSyncing in
      Done (mapped (fun syncing => let b := blockFromCmtService blk in
                                   Ok (MkNodeStatus (bl_ChainID b) (bl_Height b) syncing)) sync)
  end.

Definition grpc_Simulate (txBytes : bytes) : grpc (result err SimulateResult) :=
  let* stop := simulateBlocked in
  if stop : bool then Done (Err ErrSimulateUnavailable)
  else
    let* r := ask (S_query (QSimulate txBytes)) in
    match r with
    | Err s =>
        if s =? Unimplemented then let* _ := set_probe false in Done (Err ErrSimulateUnavailable)
        else Done (Err (mapErr s))
    | Ok g => Done (Ok (gas_of g))
    end.

Definition grpc_Broadcast (txBytes : bytes) (mode : BroadcastMode) : grpc (result err BroadcastResult) :=
  let* r := ask (S_BroadcastTx txBytes mode) in
  Done (mapped (fun t => match t with
                         | None => Err ErrOther
                         | Some t => Ok (MkBroadcast (tp_TxHash t) (tp_Code t) (tp_RawLog t) (tp_Code t =? 0))
                         end) r).

Definition grpc_Probe : grpc (ProbeResult * option err) :=
  let* r := ask S_GetLatestBlock in
  match r with
  | Err _ => let* _ := set_probe false in Done (MkProbe false false, Some ErrOther)
  | Ok _ =>
      let* sim := ask (S_query (QSimulate [])) in
      let routable := match sim with Ok _ => true | Err s => negb (s =? Unimplemented) end in
      let* _ := set_probe routable in
      Done (MkProbe true routable, None)
  end.

End client.

Arguments Broken {A} text.
Arguments EnvelopeError {A} code message data.
Arguments Result {A} a.

End Transport.
