(* ===== verification/TransportLaws.v ===== *)
(** * TransportLaws: the two transports are one client

    A node that shows the same chain over both interfaces gets the same answers
    read through both transports, errors included; a broadcast is one request
    with exactly the signed bytes, and a rejection by the node is a result; a
    client whose [Simulate] met a missing route stays blocked until it is probed
    again; and how an error text becomes "not found". *)

From stdpp Require Import base list strings.
From Stdlib Require Import ZArith Lia Ascii String Strings.Byte.
From S2P Require Import Prelude Workers Text GoStrings Storage Hash Chain Tx Sample Transport.
Import Transport.

Open Scope string_scope.
Open Scope list_scope.
Open Scope Z_scope.

Module TransportLaws.

(** ** Text *)

Lemma contains_app_r p t sub : GoStrings.contains t sub = true -> GoStrings.contains (p ++ t) sub = true.
Proof.
  intros H. induction p as [|c p IH]; [done|]. cbn [app GoStrings.contains]. rewrite IH. apply orb_true_r.
Qed.

Lemma contains_app_l t r sub : GoStrings.contains t sub = true -> GoStrings.contains (t ++ r) sub = true.
Proof.
  assert (forall t', GoStrings.starts t' sub = true -> GoStrings.starts (t' ++ r) sub = true) as Hs.
  { intros t' H. apply GoStrings.starts_iff in H as [u ->]. apply GoStrings.starts_iff. exists (u ++ r). by rewrite app_assoc. }
  induction t as [|c t IH]; cbn [app GoStrings.contains]; rewrite !orb_true_iff.
  - intros [H|H]; [|done]. apply Hs in H. cbn [app] in H. destruct r; cbn [GoStrings.contains]; by rewrite H.
  - intros [H|H]; [left; by apply Hs in H|right; by apply IH].
Qed.

Lemma mentions_app_l s r sub : mentions s sub = true -> mentions (s +:+ r) sub = true.
Proof.
  unfold mentions, GoStrings.Contains. rewrite !chars_of_chars, chars_app, map_app. apply contains_app_l.
Qed.

Lemma mentions_app_r p s sub : mentions s sub = true -> mentions (p +:+ s) sub = true.
Proof.
  unfold mentions, GoStrings.Contains. rewrite !chars_of_chars, chars_app, map_app. apply contains_app_r.
Qed.

(** ** Hashes *)

Definition hex_of (b : byte) : ascii * ascii :=
  (Hash.hex_digit (Hash.byte_val b / 16), Hash.hex_digit (Hash.byte_val b mod 16)).

Lemma hex_of_facts b :
  let '(x, y) := hex_of b in
  upper x = x /\ upper y = y /\ y <> "X"%char /\
  match hex_val x, hex_val y with Some i, Some j => Hash.val_byte (16 * i + j) = b | _, _ => False end.
Proof. destruct b; vm_compute; (split; [|split; [|split]]); first [reflexivity|discriminate]. Qed.

Lemma HexUpper_cons b r : chars (Hash.HexUpper (b :: r)) = fst (hex_of b) :: snd (hex_of b) :: chars (Hash.HexUpper r).
Proof. reflexivity. Qed.

Lemma hexDecode_upper h : map upper (chars (Hash.HexUpper h)) = chars (Hash.HexUpper h) /\
  hexDecode (chars (Hash.HexUpper h)) = Some h.
Proof.
  induction h as [|b h [IH1 IH2]]; [done|]. rewrite HexUpper_cons. pose proof (hex_of_facts b) as Hb.
  destruct (hex_of b) as [x y]. destruct Hb as (Hx & Hy & _ & Hv). cbn [fst snd map hexDecode].
  rewrite Hx, Hy, IH1, IH2. split; [done|].
  destruct (hex_val x); [|done]. destruct (hex_val y); [|done]. by rewrite Hv.
Qed.

(** The hash a transaction is known by is read back. *)
Lemma hash_bytes_upper h : hash_bytes (Hash.HexUpper h) = Some h.
Proof.
  unfold hash_bytes. destruct (hexDecode_upper h) as [-> E]. destruct h as [|b h]; [done|].
  rewrite HexUpper_cons in *. pose proof (hex_of_facts b) as Hb. destruct (hex_of b) as [x y].
  destruct Hb as (_ & _ & Hne & _). cbn [fst snd] in *.
  destruct x as [[] [] [] [] [] [] [] []]; try exact E. destruct y as [[] [] [] [] [] [] [] []]; try exact E. done.
Qed.

Section laws.
Context `{P : Proto, K : !Codec, X : Ext}.

(** ** Broadcast *)

(** One request with exactly these bytes; what the node answered about the
    transaction is the result, rejected or not. *)
Lemma comet_Broadcast_once R p tr res p' tx mode :
  exec R (comet_Broadcast tx mode) p tr res p' ->
  p' = p /\ exists rep,
    tr = [existT _ (Rpc (match mode with BroadcastSync => R_broadcast_tx_sync tx | BroadcastAsync => R_broadcast_tx_async tx end), rep)] /\
    res = match rep with
          | Result r => Ok (MkBroadcast (Hash.HexUpper (rx_Hash r)) (rx_Code r) (rx_Log r) (rx_Code r =? 0))
          | _ => Err ErrOther
          end.
Proof.
  unfold comet_Broadcast, rpcCall. cbn. intros (rep & tr' & -> & -> & -> & ->). split; [done|].
  exists rep. split; [done|]. by destruct rep.
Qed.

Lemma grpc_Broadcast_once R p tr res p' tx mode :
  exec R (grpc_Broadcast tx mode) p tr res p' ->
  p' = p /\ exists rep, tr = [existT _ (S_BroadcastTx tx mode, rep)] /\
    res = match rep with
          | Ok (Some t) => Ok (MkBroadcast (tp_TxHash t) (tp_Code t) (tp_RawLog t) (tp_Code t =? 0))
          | Ok None => Err ErrOther
          | Err s => Err (mapErr s)
          end.
Proof.
  unfold grpc_Broadcast. cbn. intros (rep & tr' & -> & -> & -> & ->). split; [done|].
  exists rep. split; [done|]. by destruct rep as [[]|].
Qed.

(** ** Service queries *)

(** What [abciQuery] makes of the node's reply. *)
Definition read_reply {A} (q : query A) (rep : reply ABCIResponse) : result err A :=
  match rep with
  | Result r =>
      if ab_Code r =? 0 then match unmarshal A q (ab_Value r) with Some a => Ok a | None => Err ErrOther end
      else if isRouteMissing (ab_Code r) (ab_Codespace r) (ab_Log r) then Err ErrUnsupported
      else if mentions (ab_Log r) "not found" then Err ErrClientNotFound
      else Err ErrOther
  | _ => Err ErrOther
  end.

Lemma run_abciQuery {A} (o : oracle (C := rpc)) (q : query A) p :
  run o (abciQuery q) p =
  match marshal A q with
  | None => Outcome (Err ErrOther) p []
  | Some data =>
      Outcome (read_reply q (o _ (Rpc (R_abci_query (path q) data)))) p [existT _ (Rpc (R_abci_query (path q) data))]
  end.
Proof.
  unfold abciQuery. destruct (marshal A q) as [data|]; [|done]. unfold abciQueryRaw, rpcCall, ask. cbn [p_bind run].
  cbn [o_value o_state o_calls]. unfold read_reply.
  destruct (o _ (Rpc (R_abci_query (path q) data))) as [text|code msg d|r]; [done|done|].
  destruct (ab_Code r =? 0); cbn [negb]; [done|]. destruct (isRouteMissing _ _ _); [done|]. by destruct (mentions _ _).
Qed.

Lemma read_reply_errors {A} (q : query A) rep : read_reply q rep <> Err ErrSimulateUnavailable.
Proof. unfold read_reply. repeat case_match; done. Qed.

(** ** Simulation *)

(** A blocked client asks the node nothing. *)
Lemma blocked_simulates_nothing (o : oracle (C := rpc)) p tx : blocked p = true ->
  run o (comet_Simulate tx) p = Outcome (Err ErrSimulateUnavailable) p [].
Proof. intros H. unfold comet_Simulate, simulateBlocked. cbn [p_bind run]. by rewrite H. Qed.

(** One answer "no route" blocks every later simulation, whatever the node
    answers by then. *)
Lemma simulate_latches (o o' : oracle (C := rpc)) p tx tx' :
  o_value (run o (comet_Simulate tx) p) = Err ErrSimulateUnavailable ->
  run o' (comet_Simulate tx') (o_state (run o (comet_Simulate tx) p)) =
    Outcome (Err ErrSimulateUnavailable) (o_state (run o (comet_Simulate tx) p)) [].
Proof.
  intros H. apply blocked_simulates_nothing. revert H. unfold comet_Simulate, simulateBlocked. cbn [p_bind run].
  destruct (blocked p) eqn:Eb; [by intros _|]. rewrite run_bind. cbv zeta. cbn [o_value o_state].
  rewrite run_abciQuery. destruct (marshal _ _) as [data|]; [|done]. cbn [o_value o_state].
  pose proof (read_reply_errors (QSimulate tx) (o _ (Rpc (R_abci_query (path (QSimulate tx)) data)))) as Hne.
  destruct (read_reply _ _) as [g|[]]; try done.
Qed.

(** ** "Not found" *)

(** The answer of a node that does not serve the method counts as an absent
    transaction. *)
Lemma method_not_found_is_not_found (o : oracle (C := rpc)) p h data :
  o _ (Rpc (R_tx h)) = EnvelopeError (-32601) "Method not found" data ->
  o_value (run o (comet_Tx (Hash.HexUpper h)) p) = Err ErrClientNotFound.
Proof.
  intros H. unfold comet_Tx. rewrite hash_bytes_upper. unfold rpcCall. cbn [p_bind run ask o_value]. rewrite H. cbn [method].
  match goal with |- Err (if mentions ?t _ then _ else _) = _ => assert (mentions t "not found" = true) as ->; [|done] end.
  do 5 apply mentions_app_r. apply mentions_app_l. reflexivity.
Qed.

(** ** One chain behind both interfaces *)

(** Why a query has no answer. *)
Inductive failure : Type := NoRoute | Missing | Failure.
Instance failure_eq_dec : EqDecision failure.
Proof. solve_decision. Defined.

(** What a node knows, whatever the interface. *)
Record view : Type := MkView {
  v_query : forall A, query A -> result failure A;
  v_tx : bytes -> option ResultTx;
  v_block : option Z -> option (bytes * Header * list bytes);
  v_syncing : bool;
  v_check : bytes -> ResultBroadcastTx }.

(** The node shows it over JSON-RPC: an answer carries the marshalled response,
    a failure a code with the router's or the module's log. *)
Record comet_shows (V : view) (o : oracle (C := rpc)) : Prop := {
  cs_query : forall A (q : query A), exists data resp, marshal A q = Some data /\
    o _ (Rpc (R_abci_query (path q) data)) = Result resp /\
    match v_query V A q with
    | Ok a => ab_Code resp = 0 /\ unmarshal A q (ab_Value resp) = Some a
    | Err f => ab_Code resp <> 0 /\
        isRouteMissing (ab_Code resp) (ab_Codespace resp) (ab_Log resp) = bool_decide (f = NoRoute) /\
        (f <> NoRoute -> mentions (ab_Log resp) "not found" = bool_decide (f = Missing))
    end;
  cs_tx : forall h, match v_tx V h with
    | Some t => o _ (Rpc (R_tx h)) = Result t
    | None => exists code message data, o _ (Rpc (R_tx h)) = EnvelopeError code message data /\
        mentions data "not found" = true
    end;
  cs_block : forall height, match v_block V height with
    | Some (hash, h, txs) => o _ (Rpc (R_block height)) = Result (MkResultBlock hash (Some (h, txs)))
    | None => exists text, o _ (Rpc (R_block height)) = Broken text
    end;
  cs_status : match v_block V None with
    | Some (_, h, _) => o _ (Rpc R_status) = Result (MkResultStatus (hd_ChainID h) (hd_Height h) (v_syncing V))
    | None => exists text, o _ (Rpc R_status) = Broken text
    end;
  cs_broadcast : forall tx, o _ (Rpc (R_broadcast_tx_sync tx)) = Result (v_check V tx) /\
    o _ (Rpc (R_broadcast_tx_async tx)) = Result (v_check V tx) }.

(** The status of a failure. *)
Definition status_of (f : failure) (s : Z) : Prop :=
  match f with
  | NoRoute => s = Unimplemented
  | Missing => s = NotFound
  | Failure => s <> Unimplemented /\ s <> NotFound
  end.

(** The node shows it over gRPC; a transaction's bytes are encoded again. *)
Record grpc_shows (V : view) (o : oracle (C := service)) : Prop := {
  gs_query : forall A (q : query A), match v_query V A q with
    | Ok a => o _ (S_query q) = Ok a
    | Err f => exists s, o _ (S_query q) = Err s /\ status_of f s
    end;
  gs_tx : forall h, match v_tx V h with
    | Some t => exists raw, o _ (S_GetTx (Hash.HexUpper h)) =
        Ok (Some (MkTxResponse (Hash.HexUpper (rt_Hash t)) (rt_Height t) (rt_Code t) (rt_Log t) (rt_Events t) raw))
    | None => o _ (S_GetTx (Hash.HexUpper h)) = Err NotFound
    end;
  gs_block : forall height, let r := match height with
      | Some n => o _ (S_GetBlockByHeight n) | None => o _ S_GetLatestBlock end in
    match v_block V height with
    | Some (hash, h, txs) => exists old, r = Ok (MkBlockResponse hash
        (Some (Some (MkPbHeader (hd_ChainID h) (hd_Height h) (Some (hd_Time h)) (hd_LastBlockHash h)), txs)) old)
    | None => exists s, r = Err s /\ status_of Failure s
    end;
  gs_syncing : o _ S_GetSyncing = Ok (v_syncing V);
  gs_broadcast : forall tx mode, exists height evs raw, o _ (S_BroadcastTx tx mode) =
    Ok (Some (MkTxResponse (Hash.HexUpper (rx_Hash (v_check V tx))) height (rx_Code (v_check V tx))
                (rx_Log (v_check V tx)) evs raw)) }.

Definition read_failure (f : failure) : err :=
  match f with NoRoute => ErrUnsupported | Missing => ErrClientNotFound | Failure => ErrOther end.
Definition answer_of {A} (V : view) (q : query A) : result err A :=
  match v_query V A q with Ok a => Ok a | Err f => Err (read_failure f) end.

Section both.
Context (V : view) (oc : oracle (C := rpc)) (og : oracle (C := service)) (HC : comet_shows V oc) (HG : grpc_shows V og).

(** Both transports read a query as the node's answer. *)
Lemma comet_answers {A} (q : query A) p : exists calls, run oc (abciQuery q) p = Outcome (answer_of V q) p calls.
Proof.
  rewrite run_abciQuery. destruct (cs_query V oc HC A q) as (data & resp & -> & -> & H). eexists. f_equal.
  unfold read_reply, answer_of. destruct (v_query V A q) as [a|f].
  - destruct H as [-> ->]. done.
  - destruct H as (Hc & -> & Hm). rewrite (proj2 (Z.eqb_neq _ _) Hc).
    destruct f; [done|rewrite Hm by done; done..].
Qed.

Lemma mapErr_failure f s : status_of f s -> mapErr s = read_failure f.
Proof.
  destruct f; cbn; [by intros ->..|]. intros [H1 H2]. unfold mapErr.
  by rewrite (proj2 (Z.eqb_neq _ _) H1), (proj2 (Z.eqb_neq _ _) H2).
Qed.

Lemma grpc_answers {A B} (q : query A) (f : A -> result err B) :
  mapped f (og _ (S_query q)) = match answer_of V q with Ok a => f a | Err e => Err e end.
Proof.
  pose proof (gs_query V og HG A q) as H. unfold answer_of. destruct (v_query V A q) as [a|e]; [by rewrite H|].
  destruct H as (s & -> & Hs). cbn. by rewrite (mapErr_failure e s Hs).
Qed.

(** Two methods that return the same and leave the same probe state. *)
Definition same {A} (c : prog probeState rpc A) (g : prog probeState service A) : Prop :=
  forall p, o_value (run oc c p) = o_value (run og g p) /\ o_state (run oc c p) = o_state (run og g p).

Lemma same_query {A B} (q : query A) (f : A -> result err B) :
  same (p_bind (abciQuery q) (fun r => Done (match r with Ok a => f a | Err e => Err e end)))
       (p_bind (ask (S_query q)) (fun r => Done (mapped f r))).
Proof.
  intros p. rewrite run_bind. destruct (comet_answers q p) as [calls ->]. cbn. by rewrite grpc_answers.
Qed.

Lemma same_blocks height c g :
  run oc c = run oc (comet_block height) ->
  (forall p, run og g p = Outcome (mapped (fun b => Ok (blockFromCmtService b))
     (match height with Some n => og _ (S_GetBlockByHeight n) | None => og _ S_GetLatestBlock end)) p
     (o_calls (run og g p))) ->
  forall p, o_value (run oc c p) = o_value (run og g p) /\ o_state (run oc c p) = o_state (run og g p).
Proof.
  intros Hc Hg p. rewrite Hc, Hg. unfold comet_block, rpcCall. cbn.
  pose proof (cs_block V oc HC height) as H1. pose proof (gs_block V og HG height) as H2. cbv zeta in H2.
  destruct (v_block V height) as [[[hash h] txs]|].
  - destruct H2 as [old ->]. rewrite H1. done.
  - destruct H1 as [text ->]. destruct H2 as (s & -> & Hs). cbn. by rewrite (mapErr_failure Failure s Hs).
Qed.

Lemma same_status : same comet_NodeStatus grpc_NodeStatus.
Proof.
  intros p. unfold comet_NodeStatus, grpc_NodeStatus, rpcCall. cbn.
  pose proof (cs_status V oc HC) as H1. pose proof (gs_block V og HG None) as H2. cbv zeta in H2.
  destruct (v_block V None) as [[[hash h] txs]|].
  - destruct H2 as [old ->]. rewrite H1. cbn. by rewrite (gs_syncing V og HG).
  - destruct H1 as [text ->]. destruct H2 as (s & -> & Hs). cbn. by rewrite (mapErr_failure Failure s Hs).
Qed.

Lemma same_simulate tx : same (comet_Simulate tx) (grpc_Simulate tx).
Proof.
  intros p. unfold comet_Simulate, grpc_Simulate, simulateBlocked. cbn [p_bind run].
  destruct (blocked p); [done|]. rewrite !run_bind. destruct (comet_answers (QSimulate tx) p) as [calls ->]. cbn.
  pose proof (gs_query V og HG _ (QSimulate tx)) as H. unfold answer_of.
  destruct (v_query V _ (QSimulate tx)) as [g|f]; [by rewrite H|].
  destruct H as (s & -> & Hs). pose proof (mapErr_failure f s Hs) as Hm. destruct f; cbn in *; [by rewrite Hs..|].
  destruct Hs as [Hs _]. rewrite (proj2 (Z.eqb_neq _ _) Hs). cbn. by rewrite Hm.
Qed.

(** What both transports report of a transaction: all but its bytes. *)
Definition without_bytes (r : result err TxInfo) : result err TxInfo :=
  match r with
  | Ok t => Ok (MkTxInfo (ti_Hash t) (ti_Height t) (ti_Code t) (ti_RawLog t) [] (ti_Events t))
  | Err e => Err e
  end.

Lemma same_tx h p :
  without_bytes (o_value (run oc (comet_Tx (Hash.HexUpper h)) p)) =
  without_bytes (o_value (run og (grpc_Tx (Hash.HexUpper h)) p)).
Proof.
  unfold comet_Tx, grpc_Tx, rpcCall. rewrite hash_bytes_upper. cbn.
  pose proof (cs_tx V oc HC h) as H1. pose proof (gs_tx V og HG h) as H2. destruct (v_tx V h) as [t|].
  - destruct H2 as [raw ->]. by rewrite H1.
  - destruct H1 as (code & message & data & -> & Hd). rewrite H2. cbn [without_bytes mapped].
    match goal with |- context [mentions ?t _] => assert (mentions t "not found" = true) as ->; [|done] end.
    do 7 apply mentions_app_r. done.
Qed.

Lemma same_broadcast tx mode : same (comet_Broadcast tx mode) (grpc_Broadcast tx mode).
Proof.
  intros p. unfold comet_Broadcast, grpc_Broadcast, rpcCall. cbn.
  destruct (gs_broadcast V og HG tx mode) as (height & evs & raw & ->).
  destruct (cs_broadcast V oc HC tx) as [H1 H2]. destruct mode; cbn; by rewrite ?H1, ?H2.
Qed.
End both.


End laws.

(** ** A node, for the witness *)

Existing Instance Sample.sample.
Instance proto : Proto := {| PageRequest := unit; Metadata := string; Params := Z; TxsResponse := list string |}.

Definition ex_answer {A} (q : query A) : A :=
  match q in query A return A with
  | QAccount _ => Some (MkAny "/cosmos.auth.v1beta1.BaseAccount" [])
  | QBalance _ _ => Some "500"
  | QAllBalances _ => []
  | QDenomMetadata _ => Some "SOVR"
  | QSimulate _ => None
  | QGlobalFeeParams => 1
  | QTxsByAddress _ => []
  end.
Instance codec : Codec := {|
  marshal _ _ := Some []; unmarshal _ q _ := Some (ex_answer q); unmarshalAccount _ _ := Some (BaseAccount 7 3) |}.

(** The simulation route is not served, and no balances are found. *)
Definition ex_header : Header := MkHeader "sovr-1" 41 0 [x02].
Definition ex_view : view := MkView
  (fun A q => match q in query A return result failure A with
              | QSimulate _ => Err NoRoute | QAllBalances _ => Err Missing | q => Ok (ex_answer q) end)
  (fun h => if bool_decide (h = []) then None else Some (MkResultTx h 41 0 "" [] [x01]))
  (fun n => if bool_decide (n = Some 99) then None else Some ([x03], ex_header, [[x01]]))
  false (fun _ => MkResultBroadcast [x0a] 5 "insufficient funds").

Definition ex_comet : oracle (C := rpc) := fun T c =>
  match c in rpc T return T with
  | Rpc r =>
      match r in route A return reply A with
      | R_abci_query p _ =>
          Result (if bool_decide (p = path (QSimulate [])) then MkABCI 6 "sdk" "no route" []
                  else if bool_decide (p = path (QAllBalances "")) then MkABCI 22 "bank" "account not found" []
                  else MkABCI 0 "" "" [])
      | R_tx h => if bool_decide (h = []) then EnvelopeError (-32603) "Internal error" "tx () not found"
                  else Result (MkResultTx h 41 0 "" [] [x01])
      | R_block n => if bool_decide (n = Some 99) then Broken "height 99 is not available"
                     else Result (MkResultBlock [x03] (Some (ex_header, [[x01]])))
      | R_block_results _ => Broken "pruned"
      | R_status => Result (MkResultStatus "sovr-1" 41 false)
      | R_broadcast_tx_sync _ | R_broadcast_tx_async _ => Result (MkResultBroadcast [x0a] 5 "insufficient funds")
      end
  end.

Definition ex_block : BlockResponse :=
  MkBlockResponse [x03] (Some (Some (MkPbHeader "sovr-1" 41 (Some 0) [x02]), [[x01]])) None.
Definition ex_grpc : oracle (C := service) := fun T c =>
  match c in service T return T with
  | S_query q => match v_query ex_view _ q with
                 | Ok a => Ok a | Err NoRoute => Err Unimplemented | Err Missing => Err NotFound | Err Failure => Err 13 end
  | S_GetTx h => if bool_decide (h = "") then Err NotFound
                 else Ok (Some (MkTxResponse h 41 0 "" [] None))
  | S_GetBlockByHeight n => if bool_decide (n = 99) then Err 13 else Ok ex_block
  | S_GetLatestBlock => Ok ex_block
  | S_GetSyncing => Ok false
  | S_BroadcastTx _ _ => Ok (Some (MkTxResponse (Hash.HexUpper [x0a]) 0 5 "insufficient funds" [] None))
  end.

Lemma ex_comet_shows : comet_shows ex_view ex_comet.
Proof.
  split.
  - intros A q. exists []. destruct q; eexists; (split; [reflexivity|split; [reflexivity|]]); cbn; try (by split);
      (split; [done|split; [reflexivity|]]); done.
  - intros h. cbn. case_bool_decide; [|done]. by eexists _, _, _.
  - intros n. cbn. case_bool_decide; [by eexists|done].
  - done.
  - done.
Qed.

Lemma ex_grpc_shows : grpc_shows ex_view ex_grpc.
Proof.
  split.
  - intros A q. destruct q; cbn; try done; by eexists.
  - intros h. cbn. case_bool_decide as E; [by subst|]. destruct h as [|b h]; [done|]. by exists None.
  - intros [n|]; cbn; [|by exists None]. case_bool_decide as E.
    + injection E as ->. by exists 13.
    + rewrite bool_decide_eq_false_2 by congruence. by exists None.
  - done.
  - intros tx mode. by exists 0, [], None.
Qed.


End TransportLaws.
