(* ===== verification/Deposits.v ===== *)
(** * Deposits: recording a block and crediting deposits

    [go/deposits/state.go]: the transaction that persists one parsed block,
    the routing of a new deposit, the FR-023 credit conditions and the
    transactional credit with its outbox event.  [RecordBlock] reports its
    counters only when it commits (its callers drop them otherwise).  The
    event payload is what [encoding/json] writes for [creditedEvent]: JSON
    strings with Go's HTML-safe escaping, and the RFC 3339 time. *)

From stdpp Require Import base list strings.
From Stdlib Require Import ZArith Lia String Ascii.
From S2P Require Import Prelude Workers Text Storage Database SqlStore Hash Chain Parse.
Import SqlStore Parse.

Open Scope string_scope.
Open Scope list_scope.
Open Scope Z_scope.

Module Deposits.

Definition OutboxTopicDepositCredited : string := "deposit.credited".

(** ** Recording a block *)

Record RecordPolicy : Type := MkPolicy { rp_ChainID : string; rp_MinimumDepositUsovr : option Z }.

Definition minimumSet (p : RecordPolicy) : bool :=
  match rp_MinimumDepositUsovr p with Some m => 0 <? m | None => false end.

(** [p.minimumSet() && amount.LT(p.MinimumDepositUsovr)]. *)
Definition below_minimum (p : RecordPolicy) (amount : Z) : bool :=
  match rp_MinimumDepositUsovr p with Some m => (0 <? m) && (amount <? m) | None => false end.

Record RecordOutcome : Type := MkOutcome {
  ro_LedgerAppends : Z; ro_FeeOutflows : Z; ro_DepositsInserted : Z; ro_DepositsRevived : Z;
  ro_Duplicates : Z; ro_ReviewItemsOpened : Z }.
Definition no_outcome : RecordOutcome := MkOutcome 0 0 0 0 0 0.
Definition add_outcome (a b : RecordOutcome) : RecordOutcome :=
  MkOutcome (ro_LedgerAppends a + ro_LedgerAppends b) (ro_FeeOutflows a + ro_FeeOutflows b)
    (ro_DepositsInserted a + ro_DepositsInserted b) (ro_DepositsRevived a + ro_DepositsRevived b)
    (ro_Duplicates a + ro_Duplicates b) (ro_ReviewItemsOpened a + ro_ReviewItemsOpened b).

Definition openLedgerReview (chainID : string) (ledgerID : Z) (reason : string) (now : Z) : db unit :=
  do_ Review_Open (MkReviewItem 0 chainID ReviewKindLedgerEntry (of_chars (numeral ledgerID))
        (if empty reason then "unattributed ledger activity" else reason) now None "");
  tx_ret tt.

Definition candidate_deposit (bp : BlockParse) (c : TransferCandidate) (pol : RecordPolicy) (now : Z)
    : DepositRecord :=
  MkDeposit 0 (rp_ChainID pol) (c_TxHash c) (c_MessageIndex c) (c_CoinIndex c) (bp_Height bp) (bp_Time bp)
    (c_SenderAddress c) (c_Address c) (c_Denom c) (c_AmountBaseUnits c) (c_Memo c) (c_TxCode c) (c_TxLog c)
    DepositDiscovered None None None now now.

(** The switch that routes a DISCOVERED deposit; the number of review items
    opened. *)
Definition routeDeposit (id : Z) (c : TransferCandidate) (pol : RecordPolicy) (now : Z) : db Z :=
  let move from to := Deposits_UpdateStatus id from to no_deposit_update in
  if negb (c_TxCode c =? 0) then
    do_ move DepositDiscovered DepositRejected; tx_ret 0
  else if negb (empty (c_ReviewReason c)) then
    do_ move DepositDiscovered DepositReviewRequired;
    do_ Review_Open (MkReviewItem 0 (rp_ChainID pol) ReviewKindDeposit (of_chars (numeral id))
          (c_ReviewReason c) now None "");
    tx_ret 1
  else
    do_ move DepositDiscovered DepositValidated;
    if below_minimum pol (c_AmountBaseUnits c)
    then do_ move DepositValidated DepositBelowMinimum; tx_ret 0
    else do_ move DepositValidated DepositAwaitingConfirmations; tx_ret 0.

Definition recordDeposit (bp : BlockParse) (c : TransferCandidate) (pol : RecordPolicy) (now : Z)
    : db RecordOutcome :=
  let d := candidate_deposit bp c pol now in
  do r <- tx_try (Deposits_Insert d);
  match r with
  | Ok ins => do n <- routeDeposit (d_ID ins) c pol now; tx_ret (MkOutcome 0 0 1 0 0 n)
  | Err ErrDuplicate =>
      do existing <- Deposits_Get (d_ChainID d) (d_TxHash d) (d_MessageIndex d) (d_CoinIndex d)
                       (d_RecipientAddress d);
      if negb (bool_decide (d_Status existing = DepositOrphaned)) then tx_ret (MkOutcome 0 0 0 0 1 0)
      else
        do_ Deposits_UpdateStatus (d_ID existing) DepositOrphaned DepositDiscovered no_deposit_update;
        do n <- routeDeposit (d_ID existing) c pol now; tx_ret (MkOutcome 0 0 0 1 0 n)
  | Err e => tx_fail e
  end.

(** One iteration of the transfer loop. *)
Definition recordTransfer (bp : BlockParse) (pol : RecordPolicy) (now : Z) (out : RecordOutcome)
    (c : TransferCandidate) : db RecordOutcome :=
  do r <- tx_try (Ledger_Append (TransferLedgerEntry c (rp_ChainID pol) (bp_Height bp) now));
  do appended <- match r with
                 | Ok entry => tx_ret (Some entry)
                 | Err ErrDuplicate => tx_ret None
                 | Err e => tx_fail e
                 end;
  do reviews <- match appended with
                | Some entry =>
                    if bool_decide (c_Classification c = ClassUnattributedReview)
                    then do_ openLedgerReview (rp_ChainID pol) (e_ID entry) (c_ReviewReason c) now; tx_ret 1
                    else tx_ret 0
                | None => tx_ret 0
                end;
  let out1 := add_outcome out (MkOutcome (if is_some appended then 1 else 0) 0 0 0 0 reviews) in
  if bool_decide (c_Direction c = DirectionIn) && bool_decide (c_Classification c = ClassExternalDeposit)
  then do n <- recordDeposit bp c pol now; tx_ret (add_outcome out1 n)
  else tx_ret out1.

Definition recordFee (bp : BlockParse) (pol : RecordPolicy) (now : Z) (out : RecordOutcome)
    (f : FeeDeduction) : db RecordOutcome :=
  do r <- tx_try (Ledger_AppendFeeOutflow (MkFeeOutflow 0 (rp_ChainID pol) (fd_TxHash f) (fd_PayerAddress f)
            (fd_FeeBaseUnits f) (fd_TxCode f) (bp_Height bp) now));
  match r with
  | Ok _ => tx_ret (add_outcome out (MkOutcome 0 1 0 0 0 0))
  | Err ErrDuplicate => tx_ret out
  | Err e => tx_fail e
  end.

(** One iteration of the review-candidate and of the block-event loop. *)
Definition recordReview (pol : RecordPolicy) (now : Z) (reason : string) (e : LedgerEntry)
    (out : RecordOutcome) : db RecordOutcome :=
  do r <- tx_try (Ledger_Append e);
  match r with
  | Ok entry =>
      do_ openLedgerReview (rp_ChainID pol) (e_ID entry) reason now;
      tx_ret (add_outcome out (MkOutcome 1 0 0 0 0 1))
  | Err ErrDuplicate => tx_ret out
  | Err e => tx_fail e
  end.

(** The transaction of [RecordBlock]. *)
Definition recordBlockTx (bp : BlockParse) (pol : RecordPolicy) (now : Z) : db RecordOutcome :=
  do out1 <- tx_fold (bp_Transfers bp) (recordTransfer bp pol now) no_outcome;
  do out2 <- tx_fold (bp_FeeDeductions bp) (recordFee bp pol now) out1;
  do out3 <- tx_fold (bp_ReviewCandidates bp) (fun out rc =>
    recordReview pol now (rc_Reason rc) (ReviewLedgerEntry rc (rp_ChainID pol) (bp_Height bp) now) out) out2;
  do out4 <- tx_fold (bp_BlockEvents bp) (fun out be =>
    recordReview pol now (be_Reason be) (BlockLedgerEntry be (rp_ChainID pol) (bp_Height bp) now) out) out3;
  do_ Checkpoints_Set (MkCheckpoint (rp_ChainID pol) (bp_Height bp) (bp_BlockHash bp) now);
  tx_ret out4.

Definition RecordBlock (bp : BlockParse) (pol : RecordPolicy) (now : Z) : handler (result err RecordOutcome) :=
  if empty (rp_ChainID pol) then Done (Err ErrOther) else atomically (recordBlockTx bp pol now).

(** ** Credit conditions *)

Record CreditGate : Type := MkGate {
  g_CreditPaused : bool; g_ScanWithoutCredit : bool; g_ChainReviewOpen : bool }.

Definition LoadCreditGate (chainID : string) : db CreditGate :=
  do controls <- Controls_Get chainID;
  do open <- ChainReview_HasOpen chainID;
  tx_ret (MkGate (oc_CreditPaused controls) (oc_ScanWithoutCredit controls) open).

Inductive CreditDecision : Type := DecisionCredit | DecisionHold | DecisionSuspend | DecisionNever.
Instance CreditDecision_eq_dec : EqDecision CreditDecision.
Proof. solve_decision. Defined.

Definition ConfirmationCount (latestHeight blockHeight : Z) : Z :=
  if latestHeight <? blockHeight then 0 else asU64 (latestHeight - blockHeight + 1).

(** [CREDITED], [SWEEP_PENDING] or [SWEPT]. *)
Definition past_credit (st : DepositStatus) : bool :=
  bool_decide (st = DepositCredited) || bool_decide (st = DepositSweepPending) || bool_decide (st = DepositSwept).

Definition EvaluateCreditConditions (d : DepositRecord) (latestHeight confirmations : Z) (gate : CreditGate)
    : CreditDecision * string :=
  if negb (d_TxCode d =? 0) then (DecisionNever, "execution result indicates failure (FR-029)")
  else if negb (bool_decide (d_Denom d = BaseDenom)) then
    (DecisionNever, "denomination is not the base denomination")
  else if negb (0 <? d_AmountBaseUnits d) then (DecisionNever, "amount is not positive")
  else if past_credit (d_Status d) || is_some (d_CreditedAt d) then (DecisionNever, "deposit already credited")
  else if negb (bool_decide (d_Status d = DepositCreditable)) then
    (DecisionHold, ("status " ++ enum_string (d_Status d) ++ " is not CREDITABLE")%string)
  else if ConfirmationCount latestHeight (d_BlockHeight d) <? confirmations then
    (DecisionHold, "confirmation threshold not reached (FR-028)")
  else if g_ScanWithoutCredit gate then (DecisionSuspend, "scan-without-credit engaged (FR-051)")
  else if g_CreditPaused gate then (DecisionHold, "deposit crediting paused (FR-051)")
  else if g_ChainReviewOpen gate then (DecisionHold, "chain-review condition open (FR-044)")
  else (DecisionCredit, "").

(** ** The credited event *)

Definition nat_string (n : Z) : string := of_chars (numeral n).
(** [sdkmath.Int.String]. *)
Definition int_string (n : Z) : string := if n <? 0 then "-" ++ nat_string (- n) else nat_string n.

Definition DepositDedupKey (d : DepositRecord) : string :=
  OutboxTopicDepositCredited ++ ":" ++ d_ChainID d ++ ":" ++ d_TxHash d ++ ":" ++
  nat_string (d_MessageIndex d) ++ ":" ++ nat_string (d_CoinIndex d) ++ ":" ++ d_RecipientAddress d.

Record creditedEvent : Type := MkCreditedEvent {
  ce_ChainID : string; ce_TxHash : string; ce_MessageIndex : Z; ce_CoinIndex : Z;
  ce_RecipientAddress : string; ce_SenderAddress : string; ce_Denom : string;
  ce_AmountBaseUnits : string; ce_Memo : string; ce_BlockHeight : string; ce_CreditedAt : string }.

(** *** RFC 3339 *)

(** Year, month and day of the [n]-th day after 1 January of year 1, counted
    from 1 March of year 0 so that the leap day ends the year. *)
Definition civil (n : Z) : Z * Z * Z :=
  let z := n + 306 in
  let era := z / 146097 in
  let doe := z mod 146097 in
  let yoe := (doe - doe / 1460 + doe / 36524 - doe / 146096) / 365 in
  let doy := doe - (365 * yoe + yoe / 4 - yoe / 100) in
  let mp := (5 * doy + 2) / 153 in
  let m := if mp <? 10 then mp + 3 else mp - 9 in
  (yoe + era * 400 + (if m <=? 2 then 1 else 0), m, doy - (153 * mp + 2) / 5 + 1).

(** Decimal, zero-padded to [w] digits. *)
Definition padded (w : nat) (n : Z) : string :=
  let t := numeral n in of_chars (repeat "0"%char (w - List.length t) ++ t).

(** [t.UTC().Format(time.RFC3339)] of a time in nanoseconds since the zero
    time. *)
Definition rfc3339 (t : Z) : string :=
  let s := t / 10 ^ 9 in
  let '(y, m, d) := civil (s / 86400) in
  let r := s mod 86400 in
  padded 4 y ++ "-" ++ padded 2 m ++ "-" ++ padded 2 d ++ "T" ++
  padded 2 (r / 3600) ++ ":" ++ padded 2 (r mod 3600 / 60) ++ ":" ++ padded 2 (r mod 60) ++ "Z".

(** *** JSON strings *)

Definition code (c : ascii) : Z := Z.of_nat (nat_of_ascii c).
Definition between (lo hi x : Z) : bool := (lo <=? x) && (x <=? hi).
Definition continuation (c : ascii) : bool := between 0x80 0xbf (code c).

(** Length of the well-formed UTF-8 sequence at the head, 0 if there is
    none ([utf8.DecodeRuneInString]). *)
Definition rune_length (t : list ascii) : nat :=
  match t with
  | [] => 0
  | c0 :: t0 =>
      let b0 := code c0 in
      if b0 <? 0x80 then 1
      else
        let second lo hi := match t0 with c1 :: _ => between lo hi (code c1) | [] => false end in
        let rest n := forallb continuation (take n (tail t0)) && (n <=? List.length (tail t0))%nat in
        if between 0xc2 0xdf b0 then if second 0x80 0xbf then 2 else 0
        else if between 0xe0 0xef b0 then
          if second (if b0 =? 0xe0 then 0xa0 else 0x80) (if b0 =? 0xed then 0x9f else 0xbf) && rest 1%nat
          then 3 else 0
        else if between 0xf0 0xf4 b0 then
          if second (if b0 =? 0xf0 then 0x90 else 0x80) (if b0 =? 0xf4 then 0x8f else 0xbf) && rest 2%nat
          then 4 else 0
        else 0
  end.

Definition hex_lower (n : Z) : ascii :=
  if n <? 10 then digit_char n else ascii_of_nat (Z.to_nat (n + 87)).

(** A byte below 0x80. *)
Definition escape_ascii (c : ascii) : list ascii :=
  let n := code c in
  if bool_decide (c = "034"%char) || bool_decide (c = "092"%char) then ["092"%char; c]
  else if n =? 8 then chars "\b"
  else if n =? 12 then chars "\f"
  else if n =? 10 then chars "\n"
  else if n =? 13 then chars "\r"
  else if n =? 9 then chars "\t"
  else if (n <? 0x20) || (n =? 0x3c) || (n =? 0x3e) || (n =? 0x26) then
    chars "\u00" ++ [hex_lower (n / 16); hex_lower (n mod 16)]
  else [c].

(** [skip] bytes belong to the multi-byte rune just handled; they are copied
    when [keep]. *)
Fixpoint json_escape (skip : nat) (keep : bool) (t : list ascii) : list ascii :=
  match t with
  | [] => []
  | c :: t' =>
      match skip with
      | S k => (if keep then [c] else []) ++ json_escape k keep t'
      | O =>
          match rune_length t with
          | O => chars "\ufffd" ++ json_escape 0 keep t'
          | S O => escape_ascii c ++ json_escape 0 keep t'
          | S k =>
              match t with
              | "226"%char :: "128"%char :: "168"%char :: _ => chars "\u2028" ++ json_escape k false t'
              | "226"%char :: "128"%char :: "169"%char :: _ => chars "\u2029" ++ json_escape k false t'
              | _ => c :: json_escape k true t'
              end
          end
      end
  end.

Definition quote : string := of_chars ["034"%char].
Definition json_string (s : string) : string := quote ++ of_chars (json_escape 0 true (chars s)) ++ quote.
Definition json_field (name value : string) : string := quote ++ name ++ quote ++ ":" ++ value.
(** [omitempty]. *)
Definition json_optional (name s : string) : list string :=
  if empty s then [] else [json_field name (json_string s)].

(** [json.Marshal(ev)]. *)
Definition json_event (ev : creditedEvent) : string :=
  "{" ++ String.concat "," (
    [json_field "chain_id" (json_string (ce_ChainID ev));
     json_field "tx_hash" (json_string (ce_TxHash ev));
     json_field "message_index" (nat_string (ce_MessageIndex ev));
     json_field "coin_index" (nat_string (ce_CoinIndex ev));
     json_field "recipient_address" (json_string (ce_RecipientAddress ev))] ++
    json_optional "sender_address" (ce_SenderAddress ev) ++
    [json_field "denom" (json_string (ce_Denom ev));
     json_field "amount_base_units" (json_string (ce_AmountBaseUnits ev))] ++
    json_optional "memo" (ce_Memo ev) ++
    [json_field "block_height" (json_string (ce_BlockHeight ev));
     json_field "credited_at" (json_string (ce_CreditedAt ev))]) ++ "}".

Definition credited_event (d : DepositRecord) (now : Z) : creditedEvent :=
  MkCreditedEvent (d_ChainID d) (d_TxHash d) (d_MessageIndex d) (d_CoinIndex d) (d_RecipientAddress d)
    (default "" (d_SenderAddress d)) (d_Denom d) (int_string (d_AmountBaseUnits d)) (d_Memo d)
    (nat_string (d_BlockHeight d)) (rfc3339 now).

(** The outbox row a credit enqueues. *)
Definition credit_event (d : DepositRecord) (now : Z) : OutboxEvent :=
  MkOutbox 0 (d_ChainID d) OutboxTopicDepositCredited (DepositDedupKey d)
    (list_byte_of_string (json_event (credited_event d now))) now None.

(** ** Crediting *)

Definition gate_closed (g : CreditGate) : bool :=
  g_CreditPaused g || g_ScanWithoutCredit g || g_ChainReviewOpen g.

(** The transaction of [CreditDeposit].  The credit-gate lock serialises it
    with the transactions that close the gate; transactions are already
    serial here. *)
Definition creditTx (d : DepositRecord) (now : Z) : db unit :=
  do gate <- LoadCreditGate (d_ChainID d);
  do_ tx_require (negb (gate_closed gate)) ErrCreditGateClosed;
  do_ Deposits_UpdateStatus (d_ID d) DepositCreditable DepositCredited (MkDepositUpdate (Some now) None None);
  do_ Outbox_Enqueue (credit_event d now);
  tx_ret tt.

Definition CreditDeposit (d : DepositRecord) (now : Z) : handler (result err unit) :=
  atomically (creditTx d now).

(** *** Examples *)

Example rfc3339_epoch : rfc3339 (719162 * 86400 * 10 ^ 9) = "1970-01-01T00:00:00Z".
Proof. vm_compute. reflexivity. Qed.
Example rfc3339_leap : rfc3339 ((719162 * 86400 + 1709251199) * 10 ^ 9 + 5) = "2024-02-29T23:59:59Z".
Proof. vm_compute. reflexivity. Qed.
Example json_string_escapes :
  json_string (of_chars ["<"%char; "010"%char; "195"%char; "169"%char; "255"%char; "001"%char]) =
  (quote ++ "\u003c\n" ++ of_chars ["195"%char; "169"%char] ++ "\ufffd\u0001" ++ quote)%string.
Proof. vm_compute. reflexivity. Qed.

End Deposits.
