(* ===== verification/DepositLaws.v ===== *)
(** * DepositLaws: what recording and crediting guarantee

    Theorems about [Deposits]: the credit conditions, the routing of a
    deposit, what a committed block leaves in the database, that recording it
    again changes nothing but the checkpoint, and that a credit happens only
    under an open gate and together with its event. *)

From stdpp Require Import base list strings relations.
From Stdlib Require Import ZArith Lia String.
From S2P Require Import Prelude Workers Text Storage Database SqlStore SqlLaws Hash Chain Parse.
From S2P Require Import Interference Deposits.
Import SqlStore SqlLaws Parse Interference Deposits.

Open Scope string_scope.
Open Scope list_scope.
Open Scope Z_scope.

Module DepositLaws.

(** ** Statements as equations *)

Lemma ledger_set_rows l s : st_ledger (set_rows (R := LedgerEntry) l s) = l.
Proof. by destruct s. Qed.
Lemma deposits_set_rows l s : st_deposits (set_rows (R := DepositRecord) l s) = l.
Proof. by destruct s. Qed.
Lemma fees_set_rows l s : st_feeOutflows (set_rows (R := FeeOutflow) l s) = l.
Proof. by destruct s. Qed.

Definition ledger_valid (e : LedgerEntry) : bool :=
  negb (empty (e_ChainID e)) && negb (empty (e_Address e)) && negb (empty (e_Denom e)) &&
  match e_Kind e with
  | LedgerKindTx => negb (empty (e_TxHash e))
  | LedgerKindBlockEvent => empty (e_TxHash e)
  end && (0 <=? e_AmountBaseUnits e).

Definition ledger_new (e : LedgerEntry) (s : Store) : LedgerEntry :=
  ledger_row e (if e_CreatedAt e =? 0 then st_now s else e_CreatedAt e)
    (Z.of_nat (S (List.length (st_ledger s)))).

Lemma amountText_nonneg v : amountText v false = if 0 <=? v then Ok (of_chars (numeral v)) else Err ErrInvalidRecord.
Proof. unfold amountText. destruct (Z.ltb_spec v 0), (Z.leb_spec 0 v); (done || lia). Qed.

Definition ledger_taken (e : LedgerEntry) (s : Store) : bool :=
  existsb (hits ledger_tx_key (ledger_new e s)) (st_ledger s) ||
  existsb (hits ledger_block_key (ledger_new e s)) (st_ledger s).

(** The entry with the id and creation time of the new row. *)
Definition ledger_returned (e : LedgerEntry) (s : Store) : LedgerEntry :=
  MkLedgerEntry (e_ID (ledger_new e s)) (e_ChainID e) (e_Kind e) (e_TxHash e) (e_MessageIndex e)
    (e_OpIndex e) (e_BlockHeight e) (e_EventIndex e) (e_Direction e) (e_Address e)
    (e_CounterpartySet e) (e_AmountBaseUnits e) (e_Denom e) (e_TxCode e)
    (e_Classification e) (e_CreatedAt (ledger_new e s)).

Lemma Ledger_Append_eq e s :
  Ledger_Append e s =
  if negb (ledger_valid e) then (Err ErrInvalidRecord, s)
  else if ledger_taken e s then (Err ErrDuplicate, s)
  else (Ok (ledger_returned e s), set_rows (st_ledger s ++ [ledger_new e s]) s).
Proof.
  unfold Ledger_Append, ledger_valid, ledger_taken. rewrite !Valid_true. unfold tx_bind at 1, tx_require at 1.
  destruct (negb (empty (e_ChainID e))); [|done]. unfold tx_ret at 1.
  do 3 (unfold tx_bind at 1, tx_require at 1; unfold tx_ret at 1).
  unfold tx_bind at 1, tx_require at 1. destruct (negb (empty (e_Address e))); [|done]. unfold tx_ret at 1.
  unfold tx_bind at 1, tx_require at 1. destruct (negb (empty (e_Denom e))); [|done]. unfold tx_ret at 1.
  unfold tx_bind at 1, tx_require at 1. simpl.
  destruct (match e_Kind e with LedgerKindTx => _ | _ => _ end); [|done]. unfold tx_ret at 1.
  unfold tx_bind at 1, tx_of at 1. rewrite amountText_nonneg.
  destruct (0 <=? e_AmountBaseUnits e); [|done].
  unfold tx_ret, fmtTime, tx_bind, tx_get, insert_row, violation, unique. cbv beta iota zeta.
  change (ledger_row e (if e_CreatedAt e =? 0 then _ else _) _) with (ledger_new e s).
  cbn [List.find fst snd]. change (rows s) with (st_ledger s).
  destruct (existsb (hits ledger_tx_key _) _); [done|].
  by destruct (existsb (hits ledger_block_key _) _).
Qed.

(** The row has the entry's keys. *)
Definition same_entry (e r : LedgerEntry) : Prop :=
  ledger_tx_key r = ledger_tx_key e /\ ledger_block_key r = ledger_block_key e.
Definition ledger_has (s : Store) (e : LedgerEntry) : Prop :=
  ledger_valid e = true /\ exists r, r ∈ st_ledger s /\ same_entry e r.

Lemma ledger_new_same e s : same_entry e (ledger_new e s).
Proof.
  unfold same_entry, ledger_new, ledger_row, ledger_tx_key, ledger_block_key; simpl.
  by destruct (e_Kind e).
Qed.

Lemma same_entry_half e r :
  (ledger_tx_key r = ledger_tx_key e /\ ledger_tx_key e <> None) \/
  (ledger_block_key r = ledger_block_key e /\ ledger_block_key e <> None) -> same_entry e r.
Proof.
  unfold same_entry, ledger_tx_key, ledger_block_key.
  destruct (e_Kind e), (e_Kind r); intros [[? ?]|[? ?]]; split; congruence.
Qed.

(** Appending an entry that is already there. *)
Lemma Ledger_Append_again e s : ledger_has s e -> Ledger_Append e s = (Err ErrDuplicate, s).
Proof.
  intros [Hv (r & Hr & Ht & Hb)]. rewrite Ledger_Append_eq, Hv. simpl.
  destruct (ledger_taken e s) eqn:Hd; [done|]. unfold ledger_taken in Hd.
  apply orb_false_iff in Hd as [H1 H2].
  destruct (ledger_new_same e s) as [Nt Nb]. rewrite hits_false in H1. rewrite hits_false in H2. exfalso.
  destruct (ledger_tx_key e) as [k|] eqn:Ek.
  - by apply (H1 r k Hr).
  - destruct (ledger_block_key e) as [k|] eqn:Ek'; [by apply (H2 r k Hr)|].
    unfold ledger_tx_key, ledger_block_key in Ek, Ek'. by destruct (e_Kind e).
Qed.

(** Success or a tolerated duplicate: afterwards the entry is there. *)
Lemma Ledger_Append_has e s r s' :
  Ledger_Append e s = (r, s') -> r = Err ErrDuplicate \/ (exists e', r = Ok e') ->
  ledger_has s' e.
Proof.
  intros H Hr. destruct (ledger_new_same e s) as [Nt Nb]. rewrite Ledger_Append_eq in H.
  destruct (ledger_valid e) eqn:Hv; cbn [negb] in H; [|by injection H as <- <-; destruct Hr as [|[]]].
  split; [done|]. destruct (ledger_taken e s) eqn:Hd.
  - injection H as <- <-. apply orb_true_iff in Hd as [(x & Hx & Hk & Hn)%hits_true|(x & Hx & Hk & Hn)%hits_true];
      exists x; (split; [done|]); apply same_entry_half; [left|right]; split; congruence.
  - assert (s' = set_rows (st_ledger s ++ [ledger_new e s]) s) as -> by congruence.
    exists (ledger_new e s). split; [|done]. rewrite ledger_set_rows. apply elem_of_app. right. by left.
Qed.

(** ** What the database retains *)

(** The columns of a deposit no method updates. *)
Definition deposit_of (d : DepositRecord) :=
  (d_ID d, d_ChainID d, d_TxHash d, d_MessageIndex d, d_CoinIndex d, d_BlockHeight d, d_BlockTimestamp d,
   d_SenderAddress d, d_RecipientAddress d, d_Denom d, d_AmountBaseUnits d, d_Memo d, d_TxCode d).

Definition same_deposit (a b : DepositRecord) : Prop := deposit_of a = deposit_of b.
#[export] Instance same_deposit_equiv : Equivalence same_deposit.
Proof. split; repeat intro; unfold same_deposit in *; congruence. Qed.

Record retains (s s' : Store) : Prop := Retains {
  kept_ledger : forall r, r ∈ st_ledger s -> r ∈ st_ledger s';
  kept_fees : forall r, r ∈ st_feeOutflows s -> r ∈ st_feeOutflows s';
  kept_deposits : forall d, d ∈ st_deposits s -> exists d', d' ∈ st_deposits s' /\ same_deposit d' d }.

Local Ltac retain := split; simpl; [done | done | intros d Hd; exists d; by split].

#[export] Instance retains_preorder : PreOrder retains.
Proof.
  split.
  - intros s. retain.
  - intros a b c [L1 F1 D1] [L2 F2 D2]. split; [eauto..|]. intros d Hd.
    destruct (D1 d Hd) as (d1 & H1 & E1). destruct (D2 d1 H1) as (d2 & H2 & E2). exists d2.
    split; [done | by etransitivity].
Qed.

Local Ltac frees := intros ? []; retain.

#[export] Instance retains_spend : Free retains FeeFundingSpend.  Proof. frees. Qed.
#[export] Instance retains_checkpoints : Free retains ScannerCheckpoint.  Proof. frees. Qed.
#[export] Instance retains_withdrawals : Free retains WithdrawalRecord.  Proof. frees. Qed.
#[export] Instance retains_sequences : Free retains SequenceReservation.  Proof. frees. Qed.
#[export] Instance retains_sweeps : Free retains SweepJob.  Proof. frees. Qed.
#[export] Instance retains_watched : Free retains WatchedAddress.  Proof. frees. Qed.
#[export] Instance retains_controls : Free retains OperationalControls.  Proof. frees. Qed.
#[export] Instance retains_audit : Free retains ControlsAuditEntry.  Proof. frees. Qed.
#[export] Instance retains_chainReviews : Free retains ChainReviewCondition.  Proof. frees. Qed.
#[export] Instance retains_reviews : Free retains ReviewItem.  Proof. frees. Qed.
#[export] Instance retains_reports : Free retains ReconciliationReport.  Proof. frees. Qed.
#[export] Instance retains_outbox : Free retains OutboxEvent.  Proof. frees. Qed.

(** Rows added to, or updated in, the three tables. *)
Class Retained (R : Type) `{Table R} (same : R -> R -> Prop) : Prop :=
  retained : forall l s, (forall r, r ∈ rows s -> exists r', r' ∈ l /\ same r' r) -> retains s (set_rows l s).

#[export] Instance ledger_retained : Retained LedgerEntry eq.
Proof.
  intros l [] H. split; simpl in *; [intros r Hr; by destruct (H r Hr) as (? & ? & ->) | done | intros d Hd; by exists d].
Qed.
#[export] Instance fees_retained : Retained FeeOutflow eq.
Proof.
  intros l [] H. split; simpl in *; [done | intros r Hr; by destruct (H r Hr) as (? & ? & ->) | intros d Hd; by exists d].
Qed.
#[export] Instance deposits_retained : Retained DepositRecord same_deposit.
Proof. intros l [] H. split; simpl in *; eauto. Qed.

Lemma insert_retains {R} `{Retained R same} `{!Reflexive same} (mk : Z -> R) ixs :
  preserves retains (insert_row mk ixs).
Proof.
  intros s. unfold insert_row. destruct (violation _ _ _); [reflexivity|]. apply retained.
  intros r Hr. exists r. split; [apply elem_of_app; by left | reflexivity].
Qed.
Lemma update_retains {R} `{Retained R same} `{!Reflexive same} p (f : R -> R) :
  (forall r, same (f r) r) -> preserves retains (update_where p f).
Proof.
  intros Hf s. apply retained. intros r Hr. exists (if p r then f r else r).
  split; [apply list_elem_of_fmap; by exists r | by destruct (p r)].
Qed.

Lemma exec_op_retains o : preserves retains (exec_op o).
Proof.
  destruct o; simpl; unfold void, Ledger_Append, Ledger_AppendFeeOutflow,
    Ledger_AppendFeeFundingSpend, Deposits_Insert, Deposits_UpdateStatus, Deposits_GetByID,
    Checkpoints_Set, Withdrawals_Create, Withdrawals_UpdateStatus, Withdrawals_Get,
    Sequences_Reserve, Sequences_UpdateStatus, Sweeps_Create, Sweeps_UpdateStatus, Sweeps_Get,
    Watch_Upsert, Watch_SetActive, Controls_Apply, Controls_Get, getControls, Review_Open,
    Review_Resolve, Review_Get, ChainReview_Open, ChainReview_Resolve, ChainReview_Get,
    Recon_SaveReport, Outbox_Enqueue, Outbox_MarkDispatched, fmtTime, require_rows; free_steps.
  - apply (insert_retains (same := eq)).
  - apply (insert_retains (same := eq)).
  - apply (insert_retains (same := same_deposit)).
  - by apply (update_retains (same := same_deposit)).
Qed.

Lemma interference_retains s s' : interference s s' -> retains s s'.
Proof.
  induction 1 as [|s s1 s' [[t ->]|[t ->]] _ IH]; [reflexivity|..]; (etransitivity; [|exact IH]).
  - apply (preserves_with_tx retains).
    apply preserves_for; [typeclasses eauto | apply exec_op_retains].
  - destruct s. retain.
Qed.

Lemma Ledger_Append_retains e : preserves retains (Ledger_Append e).
Proof. unfold Ledger_Append, fmtTime. free_steps. apply (insert_retains (same := eq)). Qed.
Lemma AppendFeeOutflow_retains f : preserves retains (Ledger_AppendFeeOutflow f).
Proof. unfold Ledger_AppendFeeOutflow, fmtTime. free_steps. apply (insert_retains (same := eq)). Qed.
Lemma Deposits_Insert_retains d : preserves retains (Deposits_Insert d).
Proof. unfold Deposits_Insert, fmtTime. free_steps. apply (insert_retains (same := same_deposit)). Qed.
Lemma Deposits_UpdateStatus_retains id from to u : preserves retains (Deposits_UpdateStatus id from to u).
Proof.
  unfold Deposits_UpdateStatus, Deposits_GetByID, fmtTime, require_rows. free_steps.
  by apply (update_retains (same := same_deposit)).
Qed.
Lemma Review_Open_retains i : preserves retains (Review_Open i).
Proof. unfold Review_Open, fmtTime. free_steps. Qed.

Ltac retain_step :=
  first
    [ apply Ledger_Append_retains | apply AppendFeeOutflow_retains | apply Deposits_Insert_retains
    | apply Deposits_UpdateStatus_retains | apply Review_Open_retains | free_step ].
Ltac retain_steps := repeat retain_step.

Lemma routeDeposit_retains id c pol now : preserves retains (routeDeposit id c pol now).
Proof. unfold routeDeposit. cbv zeta. retain_steps. Qed.
Lemma recordDeposit_retains bp c pol now : preserves retains (recordDeposit bp c pol now).
Proof.
  unfold recordDeposit, Deposits_Get. cbv zeta. repeat first [apply routeDeposit_retains | retain_step].
Qed.
Lemma recordTransfer_retains bp pol now out c : preserves retains (recordTransfer bp pol now out c).
Proof.
  unfold recordTransfer, openLedgerReview. cbv zeta.
  repeat first [apply recordDeposit_retains | retain_step].
Qed.
Lemma recordFee_retains bp pol now out f : preserves retains (recordFee bp pol now out f).
Proof. unfold recordFee. retain_steps. Qed.
Lemma recordReview_retains pol now r e out : preserves retains (recordReview pol now r e out).
Proof. unfold recordReview, openLedgerReview. retain_steps. Qed.

(** ** What a committed block leaves behind *)

Definition fee_valid (f : FeeOutflow) : bool :=
  negb (empty (fo_ChainID f) || empty (fo_TxHash f)) && negb (empty (fo_PayerAddress f)) &&
  (0 <=? fo_FeeBaseUnits f).
Definition fee_has (s : Store) (f : FeeOutflow) : Prop :=
  fee_valid f = true /\ exists r, r ∈ st_feeOutflows s /\ fee_outflow_key r = fee_outflow_key f.
Definition deposit_has (s : Store) (d : DepositRecord) : Prop :=
  deposit_valid d = true /\ exists r, r ∈ st_deposits s /\ deposit_key r = deposit_key d.

Lemma ledger_has_mono s s' e : retains s s' -> ledger_has s e -> ledger_has s' e.
Proof. intros H [Hv (r & Hr & E)]. split; [done|]. exists r. split; [by apply (kept_ledger _ _ H) | done]. Qed.
Lemma fee_has_mono s s' e : retains s s' -> fee_has s e -> fee_has s' e.
Proof. intros H [Hv (r & Hr & E)]. split; [done|]. exists r. split; [by apply (kept_fees _ _ H) | done]. Qed.
Lemma same_deposit_key a b : same_deposit a b -> deposit_key a = deposit_key b.
Proof. unfold same_deposit, deposit_of, deposit_key. congruence. Qed.
Lemma same_deposit_id a b : same_deposit a b -> d_ID a = d_ID b.
Proof. unfold same_deposit, deposit_of. congruence. Qed.
Lemma deposit_has_mono s s' e : retains s s' -> deposit_has s e -> deposit_has s' e.
Proof.
  intros H [Hv (r & Hr & E)]. split; [done|]. destruct (kept_deposits _ _ H r Hr) as (r' & Hr' & Hs).
  exists r'. split; [done|]. by rewrite (same_deposit_key _ _ Hs).
Qed.

Definition fee_new (f : FeeOutflow) (s : Store) : FeeOutflow :=
  MkFeeOutflow (Z.of_nat (S (List.length (st_feeOutflows s)))) (fo_ChainID f) (fo_TxHash f) (fo_PayerAddress f)
    (fo_FeeBaseUnits f) (fo_TxCode f) (fo_BlockHeight f)
    (if fo_CreatedAt f =? 0 then st_now s else fo_CreatedAt f).

Lemma AppendFeeOutflow_eq f s :
  Ledger_AppendFeeOutflow f s =
  if negb (fee_valid f) then (Err ErrInvalidRecord, s)
  else if existsb (hits fee_outflow_key (fee_new f s)) (st_feeOutflows s) then (Err ErrDuplicate, s)
  else (Ok (fee_new f s), set_rows (st_feeOutflows s ++ [fee_new f s]) s).
Proof.
  unfold Ledger_AppendFeeOutflow, fee_valid. unfold tx_bind at 1, tx_require at 1.
  destruct (negb (_ || _)); [|done]. unfold tx_ret at 1.
  unfold tx_bind at 1, tx_require at 1. destruct (negb (empty _)); [|done]. unfold tx_ret at 1.
  unfold tx_bind at 1, tx_of at 1. rewrite amountText_nonneg. destruct (0 <=? _); [|done].
  unfold fmtTime, tx_bind, tx_get, insert_row, violation, unique. cbv beta iota zeta.
  fold (fee_new f s). cbn [List.find fst snd andb negb]. change (rows s) with (st_feeOutflows s).
  change (MkFeeOutflow _ _ _ _ _ _ _ _) with (fee_new f s).
  by destruct (existsb _ _).
Qed.

Lemma AppendFeeOutflow_again f s : fee_has s f -> Ledger_AppendFeeOutflow f s = (Err ErrDuplicate, s).
Proof.
  intros [Hv (r & Hr & Hk)]. rewrite AppendFeeOutflow_eq, Hv. simpl.
  destruct (existsb _ _) eqn:Hd; [done|]. rewrite hits_false in Hd. exfalso. by eapply (Hd r).
Qed.
Lemma AppendFeeOutflow_has f s r s' :
  Ledger_AppendFeeOutflow f s = (r, s') -> r = Err ErrDuplicate \/ (exists f', r = Ok f') -> fee_has s' f.
Proof.
  intros H Hr. rewrite AppendFeeOutflow_eq in H. destruct (fee_valid f) eqn:Hv; cbn [negb] in H;
    [|by injection H as <- <-; destruct Hr as [|[]]]. split; [done|].
  destruct (existsb _ _) eqn:Hd.
  - injection H as <- <-. apply hits_true in Hd as (x & Hx & Hk & _). by exists x.
  - assert (s' = set_rows (st_feeOutflows s ++ [fee_new f s]) s) as -> by congruence.
    exists (fee_new f s). split; [|done]. rewrite fees_set_rows. apply elem_of_app. right. by left.
Qed.

Lemma Deposits_Insert_again d s : deposit_has s d -> Deposits_Insert d s = (Err ErrDuplicate, s).
Proof.
  intros [Hv (r & Hr & Hk)]. rewrite Deposits_Insert_eq, Hv.
  destruct (existsb _ _) eqn:Hd; [done|]. rewrite hits_false in Hd. exfalso. by eapply (Hd r).
Qed.
Lemma Deposits_Insert_has d s r s' :
  Deposits_Insert d s = (r, s') -> r = Err ErrDuplicate \/ (exists d', r = Ok d') -> deposit_has s' d.
Proof.
  intros H Hr. rewrite Deposits_Insert_eq in H. destruct (deposit_valid d) eqn:Hv;
    [|by injection H as <- <-; destruct Hr as [|[]]]. split; [done|].
  destruct (existsb _ _) eqn:Hd.
  - injection H as <- <-. apply hits_true in Hd as (x & Hx & Hk & _). by exists x.
  - assert (s' = set_rows (st_deposits s ++ [inserted d s]) s) as -> by congruence.
    exists (inserted d s). split; [|done]. rewrite deposits_set_rows. apply elem_of_app. right. by left.
Qed.

Lemma tx_try_ok {S E A} (m : tx S E A) s r s' : tx_try m s = (Ok r, s') -> m s = (r, s').
Proof. unfold tx_try. destruct (m s). congruence. Qed.

(** A loop whose body establishes a fact about its element that later rows do
    not destroy. *)
Lemma fold_establishes {A B} (m : B -> A -> db B) (P : A -> Store -> Prop) :
  (forall a s s', retains s s' -> P a s -> P a s') ->
  (forall b a, preserves retains (m b a)) ->
  (forall b a s b' s', m b a s = (Ok b', s') -> P a s') ->
  forall l b s b' s', tx_fold l m b s = (Ok b', s') -> (forall a, a ∈ l -> P a s') /\ retains s s'.
Proof.
  intros Hm Hr Hp l. induction l as [|a l IH]; intros b s b' s' H.
  - injection H as <- <-. split; [by intros a ?%elem_of_nil | reflexivity].
  - cbn [tx_fold] in H. inv_tx1 H. destruct (IH _ _ _ _ H) as [Hl Hs].
    pose proof (Hr b a s) as Hrs. rewrite Hm0 in Hrs. simpl in Hrs. split; [|by etransitivity].
    intros x [->|Hx]%elem_of_cons; [|by apply Hl]. eapply Hm; [exact Hs|]. by eapply Hp.
Qed.

(** A loop whose body leaves the state alone. *)
Lemma fold_idle {A B} (m : B -> A -> db B) (g : B -> A -> B) l b s :
  (forall b a, a ∈ l -> m b a s = (Ok (g b a), s)) -> tx_fold l m b s = (Ok (fold_left g l b), s).
Proof.
  revert b. induction l as [|a l IH]; intros b H; [done|]. cbn [tx_fold fold_left].
  unfold tx_bind. rewrite H by (by left). apply IH. intros b' a' Ha. apply H. by right.
Qed.

Definition wants_deposit (c : TransferCandidate) : bool :=
  bool_decide (c_Direction c = DirectionIn) && bool_decide (c_Classification c = ClassExternalDeposit).

Lemma recordDeposit_has bp c pol now s n s' :
  recordDeposit bp c pol now s = (Ok n, s') -> deposit_has s' (candidate_deposit bp c pol now).
Proof.
  intros H. unfold recordDeposit in H. cbv zeta in H. inv_tx1 H. apply tx_try_ok in Hm.
  assert (retains s0 s') as Hr.
  { destruct a as [ins|[]]; try discriminate; inv_tx1 H.
    - pose proof (routeDeposit_retains (d_ID ins) c pol now s0) as Hr. rewrite Hm0 in Hr.
      injection H as _ <-. exact Hr.
    - unfold Deposits_Get, select_row in Hm0. destruct (List.find _ _); [|done]. injection Hm0 as <- <-.
      destruct (negb _); [injection H as _ <-; reflexivity|].
      inv_tx1 H. inv_tx1 H. injection H as _ <-.
      match type of Hm0 with Deposits_UpdateStatus ?i ?f ?t ?u ?x = _ =>
        pose proof (Deposits_UpdateStatus_retains i f t u x) as H1; rewrite Hm0 in H1 end.
      match type of Hm1 with routeDeposit ?i ?f ?t ?u ?x = _ =>
        pose proof (routeDeposit_retains i f t u x) as H2; rewrite Hm1 in H2 end.
      simpl in H1, H2. by etransitivity. }
  eapply deposit_has_mono; [exact Hr|]. eapply Deposits_Insert_has; [exact Hm|].
  destruct a as [ins|[]]; try discriminate; eauto.
Qed.

Lemma recordDeposit_again bp c pol now s :
  deposit_has s (candidate_deposit bp c pol now) ->
  (forall d, d ∈ st_deposits s -> deposit_key d = deposit_key (candidate_deposit bp c pol now) ->
     d_Status d <> DepositOrphaned) ->
  recordDeposit bp c pol now s = (Ok (MkOutcome 0 0 0 0 1 0), s).
Proof.
  intros Hh Ho. unfold recordDeposit. cbv zeta. unfold tx_bind at 1, tx_try.
  rewrite (Deposits_Insert_again _ _ Hh). destruct Hh as [_ (r & Hr & Hk)].
  unfold tx_bind, Deposits_Get, select_row. change (rows s) with (st_deposits s).
  destruct (List.find _ _) as [d|] eqn:Hf.
  - apply find_elem in Hf as [Hd E]. apply bool_decide_eq_true in E.
    specialize (Ho d Hd E). by rewrite bool_decide_eq_false_2.
  - apply list_elem_of_In in Hr. pose proof (List.find_none _ _ Hf r Hr) as Hn.
    apply bool_decide_eq_false in Hn. exfalso. apply Hn. exact Hk.
Qed.

Definition transfer_has (bp : BlockParse) (pol : RecordPolicy) (now : Z) (c : TransferCandidate) (s : Store) : Prop :=
  ledger_has s (TransferLedgerEntry c (rp_ChainID pol) (bp_Height bp) now) /\
  (wants_deposit c = true -> deposit_has s (candidate_deposit bp c pol now)).

Lemma recordTransfer_has bp pol now out c s out' s' :
  recordTransfer bp pol now out c s = (Ok out', s') -> transfer_has bp pol now c s'.
Proof.
  intros H. unfold recordTransfer in H. inv_tx1 H. apply tx_try_ok in Hm. inv_tx1 H. inv_tx1 H.
  assert (a = Err ErrDuplicate \/ (exists e', a = Ok e')) as Ha.
  { destruct a as [|[]]; try discriminate; eauto. }
  pose proof (Ledger_Append_has _ _ _ _ Hm Ha) as Hh.
  assert (s1 = s0) as -> by (destruct a as [|[]]; try discriminate; by injection Hm0).
  assert (retains s0 s2) as Hr.
  { destruct a0 as [e|]; [|injection Hm1 as _ <-; reflexivity].
    destruct (bool_decide _); [|injection Hm1 as _ <-; reflexivity].
    inv_tx1 Hm1. injection Hm1 as _ <-. unfold openLedgerReview in Hm2. inv_tx1 Hm2.
    injection Hm2 as _ <-. match type of Hm1 with Review_Open ?i ?x = _ =>
      pose proof (Review_Open_retains i x) as H1; rewrite Hm1 in H1 end. exact H1. }
  cbv zeta in H. fold (wants_deposit c) in H. destruct (wants_deposit c) eqn:Hw.
  - inv_tx1 H. injection H as _ <-. pose proof (recordDeposit_retains bp c pol now s2) as H1.
    rewrite Hm2 in H1. split.
    + eapply ledger_has_mono; [|exact Hh]. by etransitivity.
    + intros _. by eapply recordDeposit_has.
  - injection H as _ <-. split; [by eapply ledger_has_mono | by rewrite Hw].
Qed.

Lemma recordTransfer_again bp pol now out c s :
  transfer_has bp pol now c s ->
  (wants_deposit c = true -> forall d, d ∈ st_deposits s ->
     deposit_key d = deposit_key (candidate_deposit bp c pol now) -> d_Status d <> DepositOrphaned) ->
  recordTransfer bp pol now out c s =
    (Ok (if wants_deposit c then add_outcome out (MkOutcome 0 0 0 0 1 0) else out), s).
Proof.
  intros [Hl Hd] Ho. unfold recordTransfer, tx_bind, tx_try.
  rewrite (Ledger_Append_again _ _ Hl). cbv beta iota zeta delta [tx_ret is_some].
  assert (add_outcome out (MkOutcome 0 0 0 0 0 0) = out) as ->
    by (destruct out; unfold add_outcome; simpl; by rewrite !Z.add_0_r).
  fold (wants_deposit c). destruct (wants_deposit c); [|done].
  by rewrite (recordDeposit_again _ _ _ _ _ (Hd eq_refl) (Ho eq_refl)).
Qed.

Definition fee_entry (bp : BlockParse) (pol : RecordPolicy) (now : Z) (f : FeeDeduction) : FeeOutflow :=
  MkFeeOutflow 0 (rp_ChainID pol) (fd_TxHash f) (fd_PayerAddress f) (fd_FeeBaseUnits f) (fd_TxCode f)
    (bp_Height bp) now.

Lemma recordFee_has bp pol now out f s out' s' :
  recordFee bp pol now out f s = (Ok out', s') -> fee_has s' (fee_entry bp pol now f).
Proof.
  intros H. unfold recordFee in H. inv_tx1 H. apply tx_try_ok in Hm.
  destruct a as [|[]]; try discriminate; injection H as _ <-; (eapply AppendFeeOutflow_has; [exact Hm|eauto]).
Qed.
Lemma recordFee_again bp pol now out f s :
  fee_has s (fee_entry bp pol now f) -> recordFee bp pol now out f s = (Ok out, s).
Proof.
  intros H. unfold recordFee, tx_bind, tx_try. fold (fee_entry bp pol now f).
  by rewrite (AppendFeeOutflow_again _ _ H).
Qed.

Lemma recordReview_has pol now reason e out s out' s' :
  recordReview pol now reason e out s = (Ok out', s') -> ledger_has s' e.
Proof.
  intros H. unfold recordReview in H. inv_tx1 H. apply tx_try_ok in Hm.
  assert (retains s0 s') as Hr.
  { destruct a as [entry|[]]; try discriminate.
    - pose proof (Review_Open_retains) as HR. unfold openLedgerReview in H. inv_tx1 H. inv_tx1 Hm0.
      match type of Hm1 with Review_Open ?i ?x = _ => specialize (HR i x); rewrite Hm1 in HR end.
      injection Hm0 as _ <-. injection H as _ <-. exact HR.
    - injection H as _ <-. reflexivity. }
  eapply ledger_has_mono; [exact Hr|]. eapply Ledger_Append_has; [exact Hm|].
  destruct a as [|[]]; try discriminate; eauto.
Qed.
Lemma recordReview_again pol now reason e out s :
  ledger_has s e -> recordReview pol now reason e out s = (Ok out, s).
Proof. intros H. unfold recordReview, tx_bind, tx_try. by rewrite (Ledger_Append_again _ _ H). Qed.

(** Every movement of the parsed block has its row. *)
Record recorded (bp : BlockParse) (pol : RecordPolicy) (now : Z) (s : Store) : Prop := Recorded {
  rec_transfers : forall c, c ∈ bp_Transfers bp -> transfer_has bp pol now c s;
  rec_fees : forall f, f ∈ bp_FeeDeductions bp -> fee_has s (fee_entry bp pol now f);
  rec_reviews : forall rc, rc ∈ bp_ReviewCandidates bp ->
    ledger_has s (ReviewLedgerEntry rc (rp_ChainID pol) (bp_Height bp) now);
  rec_events : forall be, be ∈ bp_BlockEvents bp ->
    ledger_has s (BlockLedgerEntry be (rp_ChainID pol) (bp_Height bp) now) }.

Lemma transfer_has_mono bp pol now c s s' :
  retains s s' -> transfer_has bp pol now c s -> transfer_has bp pol now c s'.
Proof.
  intros H [Hl Hd]. split; [by eapply ledger_has_mono|]. intros Hw. eapply deposit_has_mono; eauto.
Qed.
Lemma recorded_mono bp pol now s s' : retains s s' -> recorded bp pol now s -> recorded bp pol now s'.
Proof.
  intros H []. split; eauto using transfer_has_mono, fee_has_mono, ledger_has_mono.
Qed.

(** The block's checkpoint row replaces the chain's, or is the first. *)
Definition checkpoint_of (bp : BlockParse) (pol : RecordPolicy) (now : Z) (s : Store) : ScannerCheckpoint :=
  MkCheckpoint (rp_ChainID pol) (bp_Height bp) (bp_BlockHash bp) (if now =? 0 then st_now s else now).
Definition with_checkpoint (cp : ScannerCheckpoint) (s : Store) : Store :=
  let at_ r := bool_decide (cp_ChainID r = cp_ChainID cp) in
  set_rows (if existsb at_ (st_checkpoints s) then update_rows at_ (fun _ => cp) (st_checkpoints s)
            else st_checkpoints s ++ [cp]) s.

Lemma Checkpoints_Set_eq chainID h hash now s :
  empty chainID = false ->
  Checkpoints_Set (MkCheckpoint chainID h hash now) s =
  (Ok tt, with_checkpoint (MkCheckpoint chainID h hash (if now =? 0 then st_now s else now)) s).
Proof.
  intros He. unfold Checkpoints_Set, with_checkpoint, tx_bind, tx_require, fmtTime, tx_get, upsert_row.
  cbn [cp_ChainID cp_UpdatedAt cp_LastFullyProcessedHeight cp_LastObservedBlockHash].
  rewrite He. simpl. by destruct (existsb _ _).
Qed.

Lemma with_checkpoint_retains cp s : retains s (with_checkpoint cp s).
Proof. apply free. Qed.

Lemma recordBlockTx_recorded bp pol now s out s' :
  recordBlockTx bp pol now s = (Ok out, s') ->
  recorded bp pol now s' /\ retains s s' /\
  exists s1, s' = with_checkpoint (checkpoint_of bp pol now s1) s1.
Proof.
  intros H. unfold recordBlockTx in H. do 5 inv_tx1 H. injection H as _ <-.
  assert (empty (rp_ChainID pol) = false) as He.
  { unfold Checkpoints_Set, tx_bind, tx_require in Hm3. simpl in Hm3.
    by destruct (empty (rp_ChainID pol)). }
  rewrite (Checkpoints_Set_eq _ _ _ now _ He) in Hm3. injection Hm3 as _ <-.
  apply (fold_establishes _ (transfer_has bp pol now)) in Hm as [H1 R1];
    [|eauto using transfer_has_mono, recordTransfer_retains, recordTransfer_has..].
  apply (fold_establishes _ (fun f s => fee_has s (fee_entry bp pol now f))) in Hm0 as [H2 R2];
    [|eauto using fee_has_mono, recordFee_retains, recordFee_has..].
  apply (fold_establishes _ (fun rc s =>
    ledger_has s (ReviewLedgerEntry rc (rp_ChainID pol) (bp_Height bp) now))) in Hm1 as [H3 R3];
    [|eauto using ledger_has_mono, recordReview_retains, recordReview_has..].
  apply (fold_establishes _ (fun be s =>
    ledger_has s (BlockLedgerEntry be (rp_ChainID pol) (bp_Height bp) now))) in Hm2 as [H4 R4];
    [|eauto using ledger_has_mono, recordReview_retains, recordReview_has..].
  pose proof (with_checkpoint_retains (checkpoint_of bp pol now s3) s3) as R5.
  split_and!; [|repeat (etransitivity; [eassumption|]); reflexivity|eauto].
  split; intros x Hx.
  - eapply transfer_has_mono; [|by apply H1]. repeat (etransitivity; [eassumption|]). reflexivity.
  - eapply fee_has_mono; [|by apply H2]. repeat (etransitivity; [eassumption|]). reflexivity.
  - eapply ledger_has_mono; [|by apply H3]. repeat (etransitivity; [eassumption|]). reflexivity.
  - eapply ledger_has_mono; [|by apply H4]. done.
Qed.

Lemma with_checkpoint_get cp s :
  Checkpoints_Get (cp_ChainID cp) (with_checkpoint cp s) = (Ok cp, with_checkpoint cp s).
Proof.
  unfold Checkpoints_Get, select_row, with_checkpoint. rewrite rows_set.
  set (at_ := fun r => bool_decide (cp_ChainID r = cp_ChainID cp)).
  assert (at_ cp = true) as Hc by (by apply bool_decide_eq_true).
  assert (List.find at_ (if existsb at_ (st_checkpoints s) then update_rows at_ (fun _ => cp) (st_checkpoints s)
                         else st_checkpoints s ++ [cp]) = Some cp) as ->; [|done].
  induction (st_checkpoints s) as [|r l IH]; simpl; [by rewrite Hc|].
  destruct (at_ r) eqn:Hr; simpl; [by rewrite Hc|].
  destruct (existsb at_ l); simpl; by rewrite Hr.
Qed.

Lemma run_atomically {A} (o : oracle (C := call)) (m : db A) s :
  o_value (run o (atomically (C := call) m) s) = fst (with_tx m s) /\
  o_state (run o (atomically (C := call) m) s) = snd (with_tx m s).
Proof. unfold atomically, run. by destruct (with_tx m s). Qed.

Lemma run_RecordBlock o bp pol now s :
  (empty (rp_ChainID pol) = true /\ o_value (run o (RecordBlock bp pol now) s) = Err ErrOther /\
     o_state (run o (RecordBlock bp pol now) s) = s) \/
  (empty (rp_ChainID pol) = false /\
     o_value (run o (RecordBlock bp pol now) s) = fst (with_tx (recordBlockTx bp pol now) s) /\
     o_state (run o (RecordBlock bp pol now) s) = snd (with_tx (recordBlockTx bp pol now) s)).
Proof.
  unfold RecordBlock. destruct (empty (rp_ChainID pol)); [by left|right].
  split; [done|]. apply run_atomically.
Qed.

(** A block is recorded as a whole.  When [RecordBlock] succeeds, every
    transfer, fee deduction, review movement and block event of the parsed
    block has its ledger row, every external deposit of the block has its
    deposit record, no earlier ledger row, fee outflow or deposit is lost, and
    the chain's checkpoint is this block's height and hash.  When it fails the
    database, the checkpoint included, is as it was. *)
Theorem record_block_atomic (o : oracle) (bp : BlockParse) (pol : RecordPolicy) (now : Z) (s : Store) :
  let s' := o_state (run o (RecordBlock bp pol now) s) in
  match o_value (run o (RecordBlock bp pol now) s) with
  | Ok _ => recorded bp pol now s' /\ retains s s' /\
            exists t, fst (Checkpoints_Get (rp_ChainID pol) s') =
              Ok (MkCheckpoint (rp_ChainID pol) (bp_Height bp) (bp_BlockHash bp) t)
  | Err _ => s' = s
  end.
Proof.
  cbv zeta. destruct (run_RecordBlock o bp pol now s) as [(_ & -> & ->)|(_ & -> & ->)]; [done|].
  destruct (with_tx (recordBlockTx bp pol now) s) as [[out|e] s'] eqn:H; simpl.
  - apply with_tx_ok in H. destruct (recordBlockTx_recorded _ _ _ _ _ _ H) as (Hr & Hs & s1 & ->).
    split_and!; [done..|]. exists (if now =? 0 then st_now s1 else now).
    change (rp_ChainID pol) with (cp_ChainID (checkpoint_of bp pol now s1)) at 1.
    by rewrite with_checkpoint_get.
  - by apply with_tx_err in H.
Qed.

Lemma fold_duplicates l out :
  fold_left (fun out c => if wants_deposit c then add_outcome out (MkOutcome 0 0 0 0 1 0) else out) l out =
  add_outcome out (MkOutcome 0 0 0 0 (Z.of_nat (List.length (List.filter wants_deposit l))) 0).
Proof.
  revert out. induction l as [|c l IH]; intros out; cbn [fold_left List.filter].
  - destruct out. unfold add_outcome. simpl. by rewrite !Z.add_0_r.
  - rewrite IH. destruct (wants_deposit c); [|done]. unfold add_outcome. simpl. f_equal; lia.
Qed.

Lemma fold_same {A B} (l : list A) (b : B) : fold_left (fun b _ => b) l b = b.
Proof. induction l; done. Qed.

Lemma recordBlockTx_again bp pol now s :
  empty (rp_ChainID pol) = false -> recorded bp pol now s ->
  (forall c d, c ∈ bp_Transfers bp -> wants_deposit c = true -> d ∈ st_deposits s ->
     deposit_key d = deposit_key (candidate_deposit bp c pol now) -> d_Status d <> DepositOrphaned) ->
  recordBlockTx bp pol now s =
    (Ok (MkOutcome 0 0 0 0 (Z.of_nat (List.length (List.filter wants_deposit (bp_Transfers bp)))) 0),
     with_checkpoint (checkpoint_of bp pol now s) s).
Proof.
  intros He [H1 H2 H3 H4] Ho. unfold recordBlockTx, tx_bind.
  rewrite (fold_idle _ (fun out c => if wants_deposit c then add_outcome out (MkOutcome 0 0 0 0 1 0) else out));
    [|intros b a Ha; apply recordTransfer_again; eauto].
  rewrite fold_duplicates.
  rewrite (fold_idle _ (fun out _ => out)) by (intros; by apply recordFee_again, H2). rewrite fold_same.
  rewrite (fold_idle _ (fun out _ => out)) by (intros; by apply recordReview_again, H3). rewrite fold_same.
  rewrite (fold_idle _ (fun out _ => out)) by (intros; by apply recordReview_again, H4). rewrite fold_same.
  rewrite Checkpoints_Set_eq by done. done.
Qed.


(** *** A concrete recorded block *)

Definition ex_policy : RecordPolicy := MkPolicy "sovren-1" (Some 10).
Definition ex_oracle : oracle (C := call) := answering no_answers.
Definition ex_after : Store := o_state (run ex_oracle (RecordBlock ex_parsed ex_policy 7) (empty_store 5)).


(** ** Routing a deposit *)

(** Where a new deposit goes. *)
Definition route (pol : RecordPolicy) (c : TransferCandidate) : DepositStatus :=
  if negb (c_TxCode c =? 0) then DepositRejected
  else if negb (empty (c_ReviewReason c)) then DepositReviewRequired
  else if below_minimum pol (c_AmountBaseUnits c) then DepositBelowMinimum
  else DepositAwaitingConfirmations.

(** The review item opened with it. *)
Definition route_reviews (pol : RecordPolicy) (c : TransferCandidate) (now id : Z) (s : Store) : list ReviewItem :=
  if bool_decide (route pol c = DepositReviewRequired)
  then [MkReviewItem (Z.of_nat (S (List.length (st_reviews s)))) (rp_ChainID pol) ReviewKindDeposit
          (of_chars (numeral id)) (c_ReviewReason c) (if now =? 0 then st_now s else now) None ""]
  else [].

(** The database with the deposit at its place and the reviews appended. *)
Definition routed (l1 : list DepositRecord) (d' : DepositRecord) (l2 : list DepositRecord)
    (reviews : list ReviewItem) (s : Store) : Store :=
  set_rows (l1 ++ d' :: l2) (set_rows (st_reviews s ++ reviews) s).

Lemma map_id_on {A} (f : A -> A) l : (forall a, a ∈ l -> f a = a) -> map f l = l.
Proof.
  induction l as [|a l IH]; intros H; [done|]. simpl. rewrite H by (by left). f_equal.
  apply IH. intros b Hb. apply H. by right.
Qed.

Lemma update_rows_at l1 d l2 from f :
  ids_ok d_ID (l1 ++ d :: l2) -> d_Status d = from ->
  update_rows (d_at (d_ID d) from) f (l1 ++ d :: l2) = l1 ++ f d :: l2.
Proof.
  intros Hids Hst. unfold update_rows. rewrite map_app. cbn [map]. unfold d_at at 2.
  rewrite Z.eqb_refl, (bool_decide_eq_true_2 _ Hst). cbn [andb].
  assert (forall i r, i <> List.length l1 -> (l1 ++ d :: l2) !! i = Some r -> d_at (d_ID d) from r = false) as Hne.
  { intros i r Hi Hr. unfold d_at. rewrite (proj2 (Z.eqb_neq _ _)); [done|].
    rewrite (Hids _ _ Hr), (Hids (List.length l1) d) by (by apply list_lookup_middle). lia. }
  f_equal; [|f_equal]; apply map_id_on; intros r [i Hi]%list_elem_of_lookup_1.
  - rewrite (Hne i); [done| |by apply lookup_app_l_Some]. apply lookup_lt_Some in Hi. lia.
  - rewrite (Hne (List.length l1 + S i)%nat); [done|lia|].
    rewrite lookup_app_r by lia. by replace (List.length l1 + S i - List.length l1)%nat with (S i) by lia.
Qed.

Lemma UpdateStatus_at s l1 d l2 from to u :
  st_deposits s = l1 ++ d :: l2 -> ids_ok d_ID (l1 ++ d :: l2) -> d_Status d = from ->
  to ∈ depositTransitions from -> from <> DepositSuspended ->
  Deposits_UpdateStatus (d_ID d) from to u s =
    (Ok tt, set_rows (l1 ++ deposit_set to (new_prior from to) (st_now s) u d :: l2) s).
Proof.
  intros Hl Hids Hst Hleg Hns. rewrite Deposits_UpdateStatus_eq.
  rewrite (proj2 (deposit_legal from to) Hleg), Hl.
  assert (List.find (fun x => d_ID x =? d_ID d) (l1 ++ d :: l2) = Some d) as ->.
  { rewrite (Hids (List.length l1) d) by (by apply list_lookup_middle).
    apply find_id; [done | by apply list_lookup_middle]. }
  rewrite (bool_decide_eq_true_2 _ Hst), (bool_decide_eq_false_2 _ Hns). simpl negb. cbv iota.
  by rewrite update_rows_at.
Qed.

(** Both stores are given by their deposits and reviews. *)
Lemma routed_step l1 d d' l2 r r' s :
  set_rows (l1 ++ d' :: l2) (routed l1 d l2 r s) = routed l1 d' l2 r s /\
  set_rows (st_reviews (routed l1 d l2 r s) ++ r') (routed l1 d l2 r s) = routed l1 d l2 (r ++ r') s /\
  st_deposits (routed l1 d l2 r s) = l1 ++ d :: l2 /\ st_now (routed l1 d l2 r s) = st_now s /\
  st_reviews (routed l1 d l2 r s) = st_reviews s ++ r.
Proof. destruct s. unfold routed. simpl. by rewrite app_assoc. Qed.

Lemma routed_self l1 d l2 s : st_deposits s = l1 ++ d :: l2 -> s = routed l1 d l2 [] s.
Proof. destruct s. unfold routed. simpl. rewrite app_nil_r. by intros ->. Qed.

Lemma ids_ok_set l1 d d' l2 : d_ID d' = d_ID d -> ids_ok d_ID (l1 ++ d :: l2) -> ids_ok d_ID (l1 ++ d' :: l2).
Proof.
  intros E H i r Hi. destruct (decide (i = List.length l1)) as [->|Hne].
  - rewrite list_lookup_middle in Hi by done. injection Hi as <-. rewrite E. apply H. by apply list_lookup_middle.
  - apply H. rewrite <-Hi. destruct (decide (i < List.length l1)%nat).
    + by rewrite !lookup_app_l by lia.
    + rewrite !lookup_app_r by lia. by destruct (i - List.length l1)%nat eqn:?; [lia|].
Qed.

Lemma numeral_nonempty n : 0 < n -> empty (of_chars (numeral n)) = false.
Proof. intros H. destruct (numeral_head n H) as (c & t & -> & _). by apply bool_decide_eq_false. Qed.

(** One move of the deposit in a routed store. *)
Lemma routed_move l1 d l2 r s from to :
  ids_ok d_ID (l1 ++ d :: l2) -> d_Status d = from -> to ∈ depositTransitions from -> from <> DepositSuspended ->
  Deposits_UpdateStatus (d_ID d) from to no_deposit_update (routed l1 d l2 r s) =
    (Ok tt, routed l1 (deposit_set to (new_prior from to) (st_now s) no_deposit_update d) l2 r s).
Proof.
  intros Hids Hst Hleg Hns. destruct (routed_step l1 d d l2 r [] s) as (_ & _ & Hd & Hn & _).
  rewrite (UpdateStatus_at _ l1 d l2) by done. rewrite Hn. f_equal.
  by destruct (routed_step l1 d (deposit_set to (new_prior from to) (st_now s) no_deposit_update d) l2 r [] s)
    as (-> & _).
Qed.

Definition review_new (item : ReviewItem) (s : Store) : ReviewItem :=
  MkReviewItem (Z.of_nat (S (List.length (st_reviews s)))) (ri_ChainID item) (ri_Kind item) (ri_RefID item)
    (ri_Reason item) (if ri_OpenedAt item =? 0 then st_now s else ri_OpenedAt item)
    (ri_ResolvedAt item) (ri_Resolution item).
Lemma Review_Open_eq item s :
  empty (ri_ChainID item) = false -> empty (ri_RefID item) = false ->
  Review_Open item s = (Ok (review_new item s), set_rows (st_reviews s ++ [review_new item s]) s).
Proof.
  intros H1 H2. unfold Review_Open, tx_bind, tx_require. by rewrite H1, H2, Valid_true.
Qed.

Lemma routeDeposit_at s l1 d l2 r c pol now :
  ids_ok d_ID (l1 ++ d :: l2) -> d_Status d = DepositDiscovered -> empty (rp_ChainID pol) = false ->
  exists d', routeDeposit (d_ID d) c pol now (routed l1 d l2 r s) =
    (Ok (Z.of_nat (List.length (route_reviews pol c now (d_ID d) (routed l1 d l2 r s)))),
     routed l1 d' l2 (r ++ route_reviews pol c now (d_ID d) (routed l1 d l2 r s)) s) /\
    same_deposit d' d /\ d_Status d' = route pol c /\ d_CreditedAt d' = d_CreditedAt d.
Proof.
  intros Hids Hst He. unfold routeDeposit, route_reviews, route. cbv zeta.
  destruct (negb (c_TxCode c =? 0)) eqn:Hc; [|destruct (negb (empty (c_ReviewReason c))) eqn:Hr].
  - eexists. unfold tx_bind. rewrite routed_move by (done || vm_compute; by repeat constructor).
    rewrite app_nil_r. by split_and!.
  - unfold tx_bind at 1. rewrite routed_move by (done || vm_compute; by repeat constructor).
    match goal with |- context [deposit_set ?t ?p ?n ?u d] => set (d1 := deposit_set t p n u d) end. exists d1.
    unfold tx_bind. rewrite Review_Open_eq; [|exact He|apply numeral_nonempty].
    2:{ rewrite (Hids (List.length l1) d) by (by apply list_lookup_middle). lia. }
    destruct (routed_step l1 d1 d1 l2 r [] s) as (_ & _ & _ & Hn1 & Hr1).
    destruct (routed_step l1 d d l2 r [] s) as (_ & _ & _ & Hn & Hr0).
    split_and!; [|done..]. unfold review_new. cbn [ri_ChainID ri_Kind ri_RefID ri_Reason ri_OpenedAt
      ri_ResolvedAt ri_Resolution]. rewrite Hn, Hn1, Hr0, Hr1. simpl List.length. f_equal.
    match goal with |- set_rows (_ ++ ?r') _ = _ =>
      destruct (routed_step l1 d1 d1 l2 r r' s) as (_ & E & _) end.
    rewrite Hr1 in E. exact E.
  - unfold tx_bind at 1. rewrite routed_move by (done || vm_compute; by repeat constructor).
    match goal with |- context [deposit_set ?t ?p ?n ?u d] => set (d1 := deposit_set t p n u d) end.
    assert (ids_ok d_ID (l1 ++ d1 :: l2)) as Hids1 by (by apply (ids_ok_set l1 d d1)).
    change (d_ID d) with (d_ID d1).
    destruct (below_minimum pol (c_AmountBaseUnits c)); simpl bool_decide; cbv iota; unfold tx_bind.
    + rewrite (routed_move l1 d1 l2 r s DepositValidated DepositBelowMinimum Hids1 eq_refl);
        [|by apply deposit_legal; vm_compute|done].
      eexists. rewrite app_nil_r. split; [reflexivity|]. by split_and!.
    + rewrite (routed_move l1 d1 l2 r s DepositValidated DepositAwaitingConfirmations Hids1 eq_refl);
        [|by apply deposit_legal; vm_compute|done].
      eexists. rewrite app_nil_r. split; [reflexivity|]. by split_and!.
Qed.

Lemma find_deposit (d : DepositRecord) l1 r l2 :
  deposits_ok (l1 ++ r :: l2) -> deposit_key r = deposit_key d ->
  List.find (fun x => bool_decide (deposit_key x = deposit_key d)) (l1 ++ r :: l2) = Some r.
Proof.
  intros (_ & Hu & _) Hk.
  apply (uniq_find deposit_key _ _ r (default ("", "", 0, 0, "") (deposit_key d))); [done| |done|].
  - apply elem_of_app. right. by left.
  - intros x. by rewrite bool_decide_eq_true.
Qed.

(** Nothing is in the review queue yet: the reviews are those of the database itself. *)
Lemma routeDeposit_fresh s l1 d l2 c pol now :
  ids_ok d_ID (l1 ++ d :: l2) -> d_Status d = DepositDiscovered -> empty (rp_ChainID pol) = false ->
  exists d', routeDeposit (d_ID d) c pol now (routed l1 d l2 [] s) =
    (Ok (Z.of_nat (List.length (route_reviews pol c now (d_ID d) s))),
     routed l1 d' l2 (route_reviews pol c now (d_ID d) s) s) /\
    same_deposit d' d /\ d_Status d' = route pol c.
Proof.
  intros Hids Hst He.
  assert (route_reviews pol c now (d_ID d) (routed l1 d l2 [] s) = route_reviews pol c now (d_ID d) s) as HR
    by (unfold route_reviews, routed; destruct s; simpl; by rewrite app_nil_r).
  destruct (routeDeposit_at s l1 d l2 [] c pol now) as (d' & E & Hsame & Hr & _); [done..|].
  rewrite HR in E. by exists d'.
Qed.

Lemma recordDeposit_new bp c pol now s :
  let d0 := candidate_deposit bp c pol now in
  ids_ok d_ID (st_deposits s) -> deposit_valid d0 = true -> empty (rp_ChainID pol) = false ->
  (forall d, d ∈ st_deposits s -> deposit_key d <> deposit_key d0) ->
  exists d', recordDeposit bp c pol now s =
      (Ok (MkOutcome 0 0 1 0 0 (Z.of_nat (List.length (route_reviews pol c now (d_ID d') s)))),
       routed (st_deposits s) d' [] (route_reviews pol c now (d_ID d') s) s) /\
    same_deposit d' (inserted d0 s) /\ d_Status d' = route pol c.
Proof.
  intros d0 Hids Hv He Hnew. unfold recordDeposit. cbv zeta. fold d0. unfold tx_bind at 1, tx_try.
  rewrite Deposits_Insert_eq, Hv. destruct (existsb _ _) eqn:Hx.
  { apply hits_true in Hx as (r & Hr & Hk & _). by destruct (Hnew r Hr). }
  set (ins := inserted d0 s).
  assert (set_rows (st_deposits s ++ [ins]) s = routed (st_deposits s) ins [] [] s) as ->
    by (destruct s; unfold routed; simpl; by rewrite app_nil_r).
  destruct (routeDeposit_fresh s (st_deposits s) ins [] c pol now) as (d' & E & Hsame & Hst); [|done|done|].
  { by apply ids_ok_app. }
  exists d'. rewrite (same_deposit_id _ _ Hsame). unfold tx_bind. fold ins.
  change (d_ID (deposit_row ins _ _ _ _)) with (d_ID ins). by rewrite E.
Qed.

Lemma recordDeposit_revive bp c pol now s l1 d l2 :
  let d0 := candidate_deposit bp c pol now in
  st_deposits s = l1 ++ d :: l2 -> ids_ok d_ID (l1 ++ d :: l2) ->
  find (fun r => bool_decide (deposit_key r = deposit_key d0)) (l1 ++ d :: l2) = Some d ->
  deposit_has s d0 -> empty (rp_ChainID pol) = false -> d_Status d = DepositOrphaned ->
  exists d', recordDeposit bp c pol now s =
      (Ok (MkOutcome 0 0 0 1 0 (Z.of_nat (List.length (route_reviews pol c now (d_ID d) s)))),
       routed l1 d' l2 (route_reviews pol c now (d_ID d) s) s) /\
    same_deposit d' d /\ d_Status d' = route pol c.
Proof.
  intros d0 Hl Hids Hf Hh He Ho. unfold recordDeposit. cbv zeta. fold d0. unfold tx_bind at 1, tx_try.
  rewrite (Deposits_Insert_again _ _ Hh). unfold tx_bind at 1, Deposits_Get, select_row.
  change (rows s) with (st_deposits s). rewrite Hl.
  change (Some (d_ChainID d0, d_TxHash d0, d_MessageIndex d0, d_CoinIndex d0, d_RecipientAddress d0))
    with (deposit_key d0). rewrite Hf, (bool_decide_eq_true_2 _ Ho). cbn [negb].
  assert (forall m : db RecordOutcome, m s = m (routed l1 d l2 [] s)) as Hsw
    by (intros m; f_equal; by apply routed_self).
  match goal with |- context [tx_bind ?a ?b s] => rewrite (Hsw (tx_bind a b)) end. unfold tx_bind at 1.
  rewrite routed_move; [|done|done|by apply deposit_legal; vm_compute|done].
  set (d1 := deposit_set _ _ _ _ d).
  destruct (routeDeposit_fresh s l1 d1 l2 c pol now) as (d' & E & Hsame & Hst); [|done|done|].
  { by apply (ids_ok_set l1 d d1). }
  exists d'. change (d_ID d) with (d_ID d1). unfold tx_bind. rewrite E. split_and!; [done| |done].
  by etransitivity.
Qed.

(** A deposit is routed by its candidate alone.  A valid candidate whose
    key is new is inserted with every column of the movement and lands in
    REJECTED (failed execution), REVIEW_REQUIRED with one open review item
    (memo or attribution doubt), BELOW_MINIMUM or AWAITING_CONFIRMATIONS; an
    ORPHANED record of the key is routed again in place; any other record of
    the key is left alone and counted as a duplicate.  No other row of the
    database changes, and the call always succeeds. *)
Theorem record_deposit_routes (bp : BlockParse) (c : TransferCandidate) (pol : RecordPolicy) (now : Z) (s : Store)
    (Hs : schema_ok s) (Hv : deposit_valid (candidate_deposit bp c pol now) = true) :
  let d0 := candidate_deposit bp c pol now in
  let reviews id := route_reviews pol c now id s in
  let opened id := Z.of_nat (List.length (reviews id)) in
  ((forall d, d ∈ st_deposits s -> deposit_key d <> deposit_key d0) ->
     exists d', recordDeposit bp c pol now s =
         (Ok (MkOutcome 0 0 1 0 0 (opened (d_ID d'))), routed (st_deposits s) d' [] (reviews (d_ID d')) s) /\
       same_deposit d' (inserted d0 s) /\ d_Status d' = route pol c) /\
  (forall l1 d l2, st_deposits s = l1 ++ d :: l2 -> deposit_key d = deposit_key d0 ->
     if bool_decide (d_Status d = DepositOrphaned)
     then exists d', recordDeposit bp c pol now s =
         (Ok (MkOutcome 0 0 0 1 0 (opened (d_ID d))), routed l1 d' l2 (reviews (d_ID d)) s) /\
       same_deposit d' d /\ d_Status d' = route pol c
     else recordDeposit bp c pol now s = (Ok (MkOutcome 0 0 0 0 1 0), s)).
Proof.
  cbv zeta. set (d0 := candidate_deposit bp c pol now) in *.
  pose proof (so_deposits _ Hs) as Hd.
  assert (empty (rp_ChainID pol) = false) as He.
  { unfold deposit_valid in Hv. change (d_ChainID d0) with (rp_ChainID pol) in Hv.
    by destruct (empty (rp_ChainID pol)). }
  split; [intros Hnew; by apply recordDeposit_new; [apply Hd|..]|].
  intros l1 d l2 Hl Hk. rewrite Hl in Hd. pose proof (find_deposit d0 _ _ _ Hd Hk) as Hf.
  assert (deposit_has s d0) as Hh.
  { split; [done|]. exists d. split; [|done]. rewrite Hl. apply elem_of_app. right. by left. }
  case_bool_decide as Ho; [by apply recordDeposit_revive; [|apply Hd|..]|].
  apply recordDeposit_again; [done|]. intros d2 Hd2 Hk2. fold d0 in Hk2.
  assert (d2 = d) as ->; [|done]. apply list_elem_of_lookup_1 in Hd2 as [i Hi]. rewrite Hl in Hi.
  destruct Hd as (_ & Hu & _).
  assert ((l1 ++ d :: l2) !! List.length l1 = Some d) as Hm by (by apply list_lookup_middle).
  assert (i = List.length l1) as -> by (eapply Hu; [exact Hi|exact Hm|exact Hk2|exact Hk]). congruence.
Qed.

Definition ex_memo_policy : RecordPolicy := MkPolicy "sovren-1" None.
Definition ex_doubtful : TransferCandidate :=
  MkTransfer "AA" 0 0 0 DirectionIn "sovr1omnibus" ["sovr1payer"] (Some "sovr1payer")
    BaseDenom 25 "" 0 "" ClassExternalDeposit "memo missing".

Lemma record_deposit_routes_witness :
  exists d', recordDeposit ex_parsed ex_doubtful ex_memo_policy 7 (empty_store 5) =
    (Ok (MkOutcome 0 0 1 0 0 1), routed [] d' [] [MkReviewItem 1 "sovren-1" ReviewKindDeposit "1" "memo missing" 7 None ""]
       (empty_store 5)) /\ d_Status d' = DepositReviewRequired.
Proof.
  destruct (record_deposit_routes ex_parsed ex_doubtful ex_memo_policy 7 (empty_store 5)
              (empty_schema_ok 5) ltac:(vm_compute; reflexivity)) as [H _].
  destruct H as (d' & E & Hs & Hst); [intros d Hd; by apply elem_of_nil in Hd|].
  exists d'. split; [|exact Hst].
  assert (d_ID d' = 1) as Hid by (rewrite (same_deposit_id _ _ Hs); vm_compute; reflexivity).
  rewrite E, Hid. vm_compute. reflexivity.
Defined.

(** ** Credit conditions *)

Lemma confirmations_depth latest h n :
  0 <= h -> 0 <= latest < 2 ^ 64 - 1 -> 1 <= n ->
  (ConfirmationCount latest h <? n) = false <-> h + n - 1 <= latest.
Proof.
  intros Hh Hl Hn. unfold ConfirmationCount, asU64. rewrite Z.ltb_ge.
  destruct (Z.ltb_spec latest h); [lia|]. rewrite Z.mod_small by lia. lia.
Qed.

(** What [DecisionCredit] means.  With at least one required
    confirmation, a deposit is credited exactly when its transaction succeeded,
    it is a positive amount of the base denomination, it was never credited,
    it is CREDITABLE, its block and the [n - 1] blocks after it are on the
    chain, and neither pause, scan-without-credit nor an open chain review
    closes the gate. *)
Theorem credit_conditions_exact (d : DepositRecord) (latest n : Z) (g : CreditGate)
    (Hh : 0 <= d_BlockHeight d) (Hl : 0 <= latest < 2 ^ 64 - 1) (Hn : 1 <= n) :
  fst (EvaluateCreditConditions d latest n g) = DecisionCredit <->
  d_TxCode d = 0 /\ d_Denom d = BaseDenom /\ 0 < d_AmountBaseUnits d /\ d_CreditedAt d = None /\
  d_Status d = DepositCreditable /\ d_BlockHeight d + n - 1 <= latest /\ gate_closed g = false.
Proof.
  unfold EvaluateCreditConditions, gate_closed.
  destruct (Z.eqb_spec (d_TxCode d) 0) as [Hc|Hc]; simpl; [|by split; [|intros (? & _)]].
  case_bool_decide as Hd; simpl; [|by split; [|intros (_ & ? & _)]].
  destruct (Z.ltb_spec 0 (d_AmountBaseUnits d)); simpl; [|split; [done|lia]].
  destruct (d_CreditedAt d) as [t|]; [rewrite orb_true_r; by split; [|intros (_ & _ & _ & ? & _)]|]. rewrite orb_false_r.
  destruct (past_credit (d_Status d)) eqn:Hp.
  { split; [done|]. intros (_ & _ & _ & _ & Hst & _). by rewrite Hst in Hp. }
  case_bool_decide as Hst; simpl; [|by split; [|intros (_ & _ & _ & _ & ? & _)]].
  pose proof (confirmations_depth latest (d_BlockHeight d) n Hh Hl Hn) as Hcc.
  destruct (ConfirmationCount latest (d_BlockHeight d) <? n); simpl.
  { split; [done|]. intros (_ & _ & _ & _ & _ & Hdepth & _). apply Hcc in Hdepth. done. }
  destruct (g_ScanWithoutCredit g), (g_CreditPaused g), (g_ChainReviewOpen g); simpl;
    (split; [try done|try (intros (_ & _ & _ & _ & _ & _ & ?); done)]).
  intros _. split_and!; try done. by apply Hcc.
Qed.

Definition ex_creditable : DepositRecord :=
  MkDeposit 1 "sovren-1" "AA" 0 0 10 1000 None "sovr1customer" BaseDenom 25 "" 0 "" DepositCreditable None None
    None 5 5.
Lemma credit_conditions_exact_witness :
  EvaluateCreditConditions ex_creditable 11 2 (MkGate false false false) = (DecisionCredit, "") /\
  10 + 2 - 1 <= 11.
Proof.
  split; [vm_compute; reflexivity|].
  apply (credit_conditions_exact ex_creditable 11 2 (MkGate false false false)); [done|lia|lia|].
  vm_compute. reflexivity.
Defined.

(** ** Crediting *)

Definition review_open (chainID : string) (s : Store) : bool := existsb (open_condition chainID) (st_chainReviews s).
(** The gate as the database has it. *)
Definition gate_at (chainID : string) (s : Store) : CreditGate :=
  MkGate (oc_CreditPaused (controls_at chainID s)) (oc_ScanWithoutCredit (controls_at chainID s))
    (review_open chainID s).

Lemma existsb_filter {A} (p : A -> bool) l : (0 <? List.length (List.filter p l))%nat = existsb p l.
Proof. induction l as [|a l IH]; simpl; [done|]. by destruct (p a). Qed.

Lemma LoadCreditGate_eq chainID s : LoadCreditGate chainID s = (Ok (gate_at chainID s), s).
Proof.
  unfold LoadCreditGate, tx_bind. rewrite Controls_Get_eq. unfold ChainReview_HasOpen, select_where, tx_bind, tx_get.
  unfold tx_ret. rewrite existsb_filter. done.
Qed.

Definition outbox_new (ev : OutboxEvent) (s : Store) : OutboxEvent :=
  MkOutbox (Z.of_nat (S (List.length (st_outbox s)))) (ob_ChainID ev) (ob_Topic ev) (ob_DedupKey ev)
    (ob_Payload ev) (if ob_CreatedAt ev =? 0 then st_now s else ob_CreatedAt ev) (ob_DispatchedAt ev).

Lemma Outbox_Enqueue_eq ev s :
  Outbox_Enqueue ev s =
  if empty (ob_ChainID ev) || empty (ob_Topic ev) then (Err ErrInvalidRecord, s)
  else if existsb (hits outbox_key (outbox_new ev s)) (st_outbox s) then (Err ErrDuplicate, s)
  else (Ok (outbox_new ev s), set_rows (st_outbox s ++ [outbox_new ev s]) s).
Proof.
  unfold Outbox_Enqueue, tx_require. destruct (empty (ob_ChainID ev) || empty (ob_Topic ev)); [done|].
  unfold tx_ret, tx_bind, fmtTime, tx_get, insert_row, violation, unique. cbv beta iota zeta delta [negb].
  cbn [List.find fst snd]. change (rows s) with (st_outbox s).
  change (MkOutbox _ _ _ _ _ _ _) with (outbox_new ev s). by destruct (existsb _ _).
Qed.

(** The deposit once credited, and the database after the credit. *)
Definition credited_row (now : Z) (s : Store) (r : DepositRecord) : DepositRecord :=
  deposit_set DepositCredited None (st_now s) (MkDepositUpdate (Some now) None None) r.
Definition credited (l1 : list DepositRecord) (r : DepositRecord) (l2 : list DepositRecord) (d : DepositRecord)
    (now : Z) (s : Store) : Store :=
  set_rows (l1 ++ credited_row now s r :: l2)
    (set_rows (st_outbox s ++ [outbox_new (credit_event d now) s]) s).

Definition key_free (d : DepositRecord) (s : Store) : Prop :=
  forall ev, ev ∈ st_outbox s -> ob_DedupKey ev <> DepositDedupKey d.

Lemma DepositDedupKey_nonempty d : empty (DepositDedupKey d) = false.
Proof. by apply bool_decide_eq_false. Qed.

Lemma outbox_free_spec d now s :
  existsb (hits outbox_key (outbox_new (credit_event d now) s)) (st_outbox s) = false <-> key_free d s.
Proof.
  rewrite hits_false. unfold key_free, outbox_key, nullIfEmpty. cbn [ob_DedupKey outbox_new credit_event].
  rewrite DepositDedupKey_nonempty. split.
  - intros H ev Hev E. apply (H ev (DepositDedupKey d)); [done| |done].
    by rewrite E, DepositDedupKey_nonempty.
  - intros H ev k Hev Hk E. injection E as <-. apply (H ev Hev).
    destruct (empty (ob_DedupKey ev)); congruence.
Qed.

(** The transaction, when the row is there. *)
Lemma creditTx_at d now s l1 r l2 :
  st_deposits s = l1 ++ r :: l2 -> ids_ok d_ID (l1 ++ r :: l2) -> d_ID r = d_ID d ->
  empty (d_ChainID d) = false -> gate_closed (gate_at (d_ChainID d) s) = false ->
  d_Status r = DepositCreditable -> key_free d s ->
  creditTx d now s = (Ok tt, credited l1 r l2 d now s).
Proof.
  intros Hl Hids Hid He Hg Hst Hfree. unfold creditTx, tx_bind, tx_require. rewrite LoadCreditGate_eq.
  rewrite Hg. cbv beta iota delta [negb tx_ret]. rewrite <-Hid.
  rewrite (UpdateStatus_at s l1 r l2) by (done || by apply deposit_legal; vm_compute).
  set (s1 := set_rows _ s). rewrite Outbox_Enqueue_eq. cbn [ob_ChainID ob_Topic credit_event].
  rewrite He. simpl orb. cbv iota.
  assert (outbox_new (credit_event d now) s1 = outbox_new (credit_event d now) s) as E1
    by (unfold s1; by destruct s).
  assert (st_outbox s1 = st_outbox s) as E2 by (unfold s1; by destruct s).
  rewrite E1, E2, (proj2 (outbox_free_spec d now s) Hfree). f_equal.
  unfold credited, s1. by destruct s.
Qed.

Lemma creditTx_ok d now s u s' :
  ids_ok d_ID (st_deposits s) -> creditTx d now s = (Ok u, s') ->
  gate_closed (gate_at (d_ChainID d) s) = false /\ empty (d_ChainID d) = false /\ key_free d s /\
  exists l1 r l2, st_deposits s = l1 ++ r :: l2 /\ d_ID r = d_ID d /\ d_Status r = DepositCreditable /\
    s' = credited l1 r l2 d now s.
Proof.
  intros Hids H. pose proof H as H0. unfold creditTx in H. inv_tx1 H. rewrite LoadCreditGate_eq in Hm.
  injection Hm as <- <-. apply tx_require_ok in H as [Hg H]. apply negb_true_iff in Hg.
  inv_tx1 H. inv_tx1 H. rewrite Deposits_UpdateStatus_eq in Hm.
  rewrite (proj2 (deposit_legal DepositCreditable DepositCredited)) in Hm by (by left).
  destruct (List.find _ _) as [r|] eqn:Hf; [|done]. apply find_elem in Hf as [Hin Hid]. apply Z.eqb_eq in Hid.
  destruct (bool_decide (d_Status r = DepositCreditable)) eqn:Hst; [|done]. apply bool_decide_eq_true in Hst.
  apply list_elem_of_split in Hin as (l1 & l2 & Hl).
  assert (s0 = set_rows (update_rows (d_at (d_ID d) DepositCreditable)
            (deposit_set DepositCredited None (st_now s) (MkDepositUpdate (Some now) None None))
            (st_deposits s)) s) as -> by exact (eq_sym (f_equal snd Hm)).
  rewrite Outbox_Enqueue_eq in Hm0. cbn [ob_ChainID ob_Topic credit_event] in Hm0.
  destruct (empty (d_ChainID d)) eqn:He; [done|]. simpl orb in Hm0. cbv iota in Hm0.
  set (s2 := set_rows _ s) in Hm0.
  assert (outbox_new (credit_event d now) s2 = outbox_new (credit_event d now) s) as E1
    by (unfold s2; by destruct s).
  assert (st_outbox s2 = st_outbox s) as E2 by (unfold s2; by destruct s).
  rewrite E1, E2 in Hm0. destruct (existsb _ _) eqn:Hx; [done|]. apply outbox_free_spec in Hx.
  split_and!; [done..|]. exists l1, r, l2. split_and!; [done..|].
  rewrite (creditTx_at d now s l1 r l2) in H0; try done; [|by rewrite <-Hl].
  congruence.
Qed.

Lemma creditTx_closed d now s :
  gate_closed (gate_at (d_ChainID d) s) = true -> creditTx d now s = (Err ErrCreditGateClosed, s).
Proof.
  intros Hg. unfold creditTx, tx_bind, tx_require. rewrite LoadCreditGate_eq. by rewrite Hg.
Qed.

Definition creditable_row (d : DepositRecord) (s : Store) : Prop :=
  exists r, r ∈ st_deposits s /\ d_ID r = d_ID d /\ d_Status r = DepositCreditable.

(** C4: the gate and the credit are one step.  Whatever other workers and
    operators do while [CreditDeposit] runs, there is one database state in
    which it decides: it succeeds exactly when in that state no pause,
    scan-without-credit or open chain review closes the gate, the deposit is
    still CREDITABLE and no credited event with its key exists; it then turns
    that one row CREDITED, stamps it and appends the credited event, and
    changes nothing else.  A closed gate is reported as [ErrCreditGateClosed],
    and any failure changes nothing. *)
Theorem credit_gate_atomic (d : DepositRecord) (now : Z) (s s' : Store) (tr : trace) (r : result err unit)
    (Hs : schema_ok s) (Hc : d_ChainID d <> "")
    (Hx : exec interference (CreditDeposit d now) s tr r s') :
  exists s1, interference s s1 /\
    (r = Ok tt <-> gate_closed (gate_at (d_ChainID d) s1) = false /\ creditable_row d s1 /\ key_free d s1) /\
    match r with
    | Ok _ => exists l1 x l2, st_deposits s1 = l1 ++ x :: l2 /\ d_ID x = d_ID d /\ s' = credited l1 x l2 d now s1
    | Err e => s' = s1 /\ (gate_closed (gate_at (d_ChainID d) s1) = true -> e = ErrCreditGateClosed)
    end.
Proof.
  unfold CreditDeposit in Hx. inv_exec Hx. rename s0 into s1. exists s1. split; [done|].
  assert (ids_ok d_ID (st_deposits s1)) as Hids.
  { apply interference_schema in HR; [|done]. apply (so_deposits _ HR). }
  assert (empty (d_ChainID d) = false) as He by (by apply bool_decide_eq_false).
  assert (gate_closed (gate_at (d_ChainID d) s1) = false /\ creditable_row d s1 /\ key_free d s1 -> r = Ok tt) as Hok.
  { intros (Hg & (x & Hin & Hid & Hst) & Hf). apply list_elem_of_split in Hin as (l1 & l2 & Hl).
    rewrite (with_tx_commit _ _ tt (credited l1 x l2 d now s1)) in Hx; [congruence|].
    apply creditTx_at; try done. by rewrite <-Hl. }
  destruct r as [[]|e].
  - apply with_tx_ok in Hx. destruct (creditTx_ok _ _ _ _ _ Hids Hx) as (Hg & _ & Hf & l1 & x & l2 & Hl & Hid & Hst & E).
    split; [split; [intros _|done]|eauto 10]. split_and!; [done| |done].
    exists x. rewrite Hl. split; [apply elem_of_app; right; by left | done].
  - split; [by split|]. split; [by apply with_tx_err in Hx|]. intros Hg.
    unfold with_tx in Hx. rewrite creditTx_closed in Hx by done. congruence.
Qed.

Definition ex_credit_store : Store := set_rows [ex_creditable] (empty_store 9).
Lemma ex_credit_schema : schema_ok ex_credit_store.
Proof.
  split; simpl; try (repeat split; (apply ids_ok_nil || apply uniq_nil)).
  split_and!.
  - intros [|i] r H; [by injection H as <- | by destruct i].
  - intros [|i] [|j] r1 r2 k H1 H2; try done; by (destruct i || destruct j).
  - apply Forall_singleton. split; done.
Qed.

Lemma credit_gate_atomic_witness :
  exists s', exec interference (CreditDeposit ex_creditable 12) ex_credit_store [] (Ok tt) s' /\
    exists s1, interference ex_credit_store s1 /\
      gate_closed (gate_at "sovren-1" s1) = false /\ key_free ex_creditable s1.
Proof.
  pose (s' := snd (with_tx (creditTx ex_creditable 12) ex_credit_store)).
  assert (exec interference (CreditDeposit ex_creditable 12) ex_credit_store [] (Ok tt) s') as Hx.
  { exists ex_credit_store. split; [apply interference_refl|]. split; [reflexivity|]. split; vm_compute; reflexivity. }
  exists s'. split; [exact Hx|].
  destruct (credit_gate_atomic ex_creditable 12 ex_credit_store s' [] (Ok tt) ex_credit_schema
              ltac:(discriminate) Hx) as (s1 & Hi & Hiff & _).
  exists s1. destruct (proj1 Hiff eq_refl) as (Hg & _ & Hf). split; [exact Hi|]. split; [exact Hg|exact Hf].
Defined.

End DepositLaws.
