(* ===== verification/Scanner.v ===== *)
(** * Scanner: the checkpointed block walker

    [go/deposits/scanner.go].  [Cycle] is one scan pass: resolve the cursor,
    walk the new blocks in ascending order, each recorded in one transaction,
    then advance the pending deposits.  The scanner's one piece of in-memory
    state, [forcedBase], is passed in and returned.  Cancelling the context is
    the handler stopping, which the interleaving semantics allows at any
    point; logging and metrics are left out.  The walk is bounded by the number
    of heights between the cursor and the tip. *)

From stdpp Require Import base list strings.
From Stdlib Require Import ZArith Lia String.
From S2P Require Import Prelude Workers Text Storage Database SqlStore Hash Chain Parse Deposits.
Import SqlStore Parse Deposits.

Open Scope string_scope.
Open Scope list_scope.
Open Scope Z_scope.

Module Scanner.

Definition DefaultConfirmations : Z := 2.
Definition DefaultPollInterval : Z := 2 * 10 ^ 9.
Definition defaultPendingBatchLimit : Z := 500.

Record ScannerConfig : Type := MkConfig {
  sc_ChainID : string; sc_Confirmations : Z; sc_PollInterval : Z; sc_StartHeight : Z;
  sc_MinimumDepositUsovr : option Z; sc_DisableHashChainVerification : bool;
  sc_MemoRecognizer : option (string -> bool); sc_PendingBatchLimit : Z }.

(** The configuration with its defaults, and the initial [forcedBase]. *)
Definition NewScanner (cfg : ScannerConfig) : result err (ScannerConfig * Z) :=
  if empty (sc_ChainID cfg) then Err ErrOther
  else
    let confirmations := if sc_Confirmations cfg =? 0 then DefaultConfirmations else sc_Confirmations cfg in
    if 12 <? confirmations then Err ErrOther
    else Ok (MkConfig (sc_ChainID cfg) confirmations
               (if sc_PollInterval cfg <=? 0 then DefaultPollInterval else sc_PollInterval cfg)
               (sc_StartHeight cfg) (sc_MinimumDepositUsovr cfg) (sc_DisableHashChainVerification cfg)
               (sc_MemoRecognizer cfg)
               (if sc_PendingBatchLimit cfg <=? 0 then defaultPendingBatchLimit else sc_PendingBatchLimit cfg),
             sc_StartHeight cfg).

Section scanner.
Context `{X : ScanExt} (cfg : ScannerConfig).

Definition RescanFrom (height : Z) (actor reason : string) : handler (result err unit) :=
  let? _ := stmt (Controls_Apply (sc_ChainID cfg)
    (MkControlsUpdate None None None None None (Some height) false) actor reason) in
  Done (Ok tt).

Definition recordPolicy : RecordPolicy := MkPolicy (sc_ChainID cfg) (sc_MinimumDepositUsovr cfg).

Definition loadWatch : handler (result err WatchSet) :=
  let? addrs := stmt (Watch_ListActive (sc_ChainID cfg)) in
  Done (Ok (WithMemoRecognizer (NewWatchSet addrs) (sc_MemoRecognizer cfg))).

Definition parentHash (base : Z) : handler (result err string) :=
  if base <=? 1 then Done (Ok "")
  else let? parent := ask (CBlockByHeight (u64 (base - 1))) in Done (Ok (Hash.HexUpper (bl_Hash parent))).

(** The new [forcedBase], and the next height with the expected parent hash. *)
Definition resolveCursor (forcedBase latestHeight : Z) : handler (Z * result err (Z * string)) :=
  let* c := stmt (Controls_Get (sc_ChainID cfg)) in
  match c with
  | Err e => Done (forcedBase, Err e)
  | Ok controls =>
      let* b := match oc_ResumeFromHeight controls with
                | None => Done (Ok forcedBase)
                | Some h =>
                    let? _ := stmt (Controls_Apply (sc_ChainID cfg)
                      (MkControlsUpdate None None None None None None true)
                      "scanner" ("rescan base " ++ nat_string h ++ " applied")%string) in
                    Done (Ok h)
                end in
      match b with
      | Err e => Done (forcedBase, Err e)
      | Ok base =>
          if 0 <? base then
            let* hash := parentHash base in
            Done (0, match hash with Ok h => Ok (base, h) | Err e => Err e end)
          else
            let* cp := stmt (Checkpoints_Get (sc_ChainID cfg)) in
            Done (forcedBase,
              match cp with
              | Ok cp => Ok (asU64 (cp_LastFullyProcessedHeight cp + 1), cp_LastObservedBlockHash cp)
              | Err ErrNotFound => Ok (latestHeight, "")
              | Err e => Err e
              end)
      end
  end.

Definition openChainReviewOnce (trigger : ChainReviewTrigger) (a b : NodeObservation) : handler (result err unit) :=
  let? open := stmt (ChainReview_ListOpen (sc_ChainID cfg)) in
  if existsb (fun c => bool_decide (cr_Trigger c = trigger)) open then Done (Ok tt)
  else
    let* id := ask CCorrelationID in
    let* now := ask CNow in
    let? _ := stmt (ChainReview_Open (MkCondition id (sc_ChainID cfg) trigger a b now None "")) in
    Done (Ok tt).

(** The statuses [orphanFlow] sweeps. *)
Definition pending : list DepositStatus :=
  [DepositDiscovered; DepositValidated; DepositAwaitingConfirmations; DepositCreditable; DepositBelowMinimum].

Definition orphanFlow (height : Z) (expected got : string) : handler (result err unit) :=
  let replacedHeight := asU64 (height - 1) in
  let? _ := openChainReviewOnce TriggerBlockHashMismatch
    (MkObservation "scanner-checkpoint" replacedHeight expected) (MkObservation "node" replacedHeight got) in
  let? _ := r_for pending (fun st =>
    let? ds := stmt (Deposits_ListByStatus (sc_ChainID cfg) st 0) in
    r_for ds (fun d =>
      if d_BlockHeight d <? replacedHeight then Done (Ok tt)
      else stmt (Deposits_UpdateStatus (d_ID d) st DepositOrphaned no_deposit_update))) in
  let? '(newHeight, newHash) :=
    if 1 <? replacedHeight then
      let? parent := ask (CBlockByHeight (u64 (replacedHeight - 1))) in
      Done (Ok (replacedHeight - 1, Hash.HexUpper (bl_Hash parent)))
    else Done (Ok (0, "")) in
  let* now := ask CNow in
  stmt (Checkpoints_Set (MkCheckpoint (sc_ChainID cfg) newHeight newHash now)).

Definition wrongChain (latest : Block) : handler (result err unit) :=
  let? _ := openChainReviewOnce TriggerWrongChainID (MkObservation "config" 0 (sc_ChainID cfg))
    (MkObservation "node" (asU64 (bl_Height latest)) (bl_ChainID latest)) in
  Done (Err ErrOther).

(** The block loop: [n] heights from [h] on.  [Ok false] is the return after
    [orphanFlow]. *)
Fixpoint walk (n : nat) (h : Z) (expectedHash : string) : handler (result err bool) :=
  match n with
  | O => Done (Ok true)
  | S n' =>
      let? block := ask (CBlockByHeight (u64 h)) in
      let? results := ask (CBlockResults (u64 h)) in
      let? watch := loadWatch in
      match ParseBlockTransfers watch block results with
      | Err Panic => Done (Err Panicked)
      | Err Invalid => Done (Err ErrOther)
      | Ok bp =>
          if negb (sc_DisableHashChainVerification cfg) && negb (empty expectedHash) &&
             negb (bool_decide (bp_LastBlockHash bp = expectedHash))
          then let? _ := orphanFlow h expectedHash (bp_LastBlockHash bp) in Done (Ok false)
          else
            let* now := ask CNow in
            let? _ := RecordBlock bp recordPolicy now in
            walk n' (h + 1) (bp_BlockHash bp)
      end
  end.

(** ** Pending deposits *)

Definition resumeSuspended : handler (result err unit) :=
  let? suspended := stmt (Deposits_ListByStatus (sc_ChainID cfg) DepositSuspended (sc_PendingBatchLimit cfg)) in
  r_for suspended (fun d =>
    match d_PriorStatus d with
    | None => Done (Ok tt)
    | Some p => stmt (Deposits_UpdateStatus (d_ID d) DepositSuspended p no_deposit_update)
    end).

Definition reviveParked : handler (result err unit) :=
  let? parked := stmt (Deposits_ListByStatus (sc_ChainID cfg) DepositBelowMinimum (sc_PendingBatchLimit cfg)) in
  r_for parked (fun d =>
    if below_minimum recordPolicy (d_AmountBaseUnits d) then Done (Ok tt)
    else stmt (Deposits_UpdateStatus (d_ID d) DepositBelowMinimum DepositAwaitingConfirmations
                 no_deposit_update)).

Definition countConfirmations (latestHeight : Z) : handler (result err unit) :=
  let? awaiting := stmt (Deposits_ListByStatus (sc_ChainID cfg) DepositAwaitingConfirmations
    (sc_PendingBatchLimit cfg)) in
  r_for awaiting (fun d =>
    if ConfirmationCount latestHeight (d_BlockHeight d) <? sc_Confirmations cfg then Done (Ok tt)
    else stmt (Deposits_UpdateStatus (d_ID d) DepositAwaitingConfirmations DepositCreditable no_deposit_update)).

(** The credit pass over one batch. *)
Fixpoint creditAll (latestHeight : Z) (gate : CreditGate) (creditable : list DepositRecord)
    : handler (result err unit) :=
  match creditable with
  | [] => Done (Ok tt)
  | d :: rest =>
      match fst (EvaluateCreditConditions d latestHeight (sc_Confirmations cfg) gate) with
      | DecisionCredit =>
          let* now := ask CNow in
          let* r := CreditDeposit d now in
          match r with
          | Ok _ => creditAll latestHeight gate rest
          | Err ErrCreditGateClosed => Done (Ok tt)
          | Err e => Done (Err e)
          end
      | DecisionSuspend =>
          let? _ := stmt (Deposits_UpdateStatus (d_ID d) DepositCreditable DepositSuspended no_deposit_update) in
          creditAll latestHeight gate rest
      | DecisionHold | DecisionNever => creditAll latestHeight gate rest
      end
  end.

Definition processPending (latestHeight : Z) : handler (result err unit) :=
  (* two reads: the controls, then the open conditions *)
  let? controls := stmt (Controls_Get (sc_ChainID cfg)) in
  let? open := stmt (ChainReview_HasOpen (sc_ChainID cfg)) in
  let gate := MkGate (oc_CreditPaused controls) (oc_ScanWithoutCredit controls) open in
  let? _ := (if negb (g_ScanWithoutCredit gate) && negb (g_CreditPaused gate)
             then resumeSuspended else Done (Ok tt)) in
  let? _ := reviveParked in
  let? _ := countConfirmations latestHeight in
  let? creditable := stmt (Deposits_ListByStatus (sc_ChainID cfg) DepositCreditable (sc_PendingBatchLimit cfg)) in
  creditAll latestHeight gate creditable.

(** ** One cycle *)

Definition Cycle (forcedBase : Z) : handler (Z * result err unit) :=
  let* l := ask CLatestBlock in
  match l with
  | Err e => Done (forcedBase, Err e)
  | Ok latest =>
      if negb (empty (bl_ChainID latest)) && negb (bool_decide (bl_ChainID latest = sc_ChainID cfg)) then
        let* r := wrongChain latest in Done (forcedBase, r)
      else
        let latestHeight := asU64 (bl_Height latest) in
        let* c := resolveCursor forcedBase latestHeight in
        let* r := match snd c with
                  | Err e => Done (Err e)
                  | Ok (next, expectedHash) =>
                      let? finished := walk (Z.to_nat (latestHeight - next + 1)) next expectedHash in
                      if finished : bool then processPending latestHeight else Done (Ok tt)
                  end in
        Done (fst c, r)
  end.
End scanner.

End Scanner.
