(* ===== verification/ScannerLaws.v ===== *)
(** * ScannerLaws: completeness of the walk and the orphan flow

    Theorems about [Scanner]: every height the block loop passes over is
    recorded and linked to its parent, under any interference; and what the
    orphan flow leaves behind. *)

From stdpp Require Import base list strings relations.
From Stdlib Require Import ZArith Lia String.
From S2P Require Import Prelude Workers Text Storage Database SqlStore SqlLaws Hash Chain Parse.
From S2P Require Import Interference Deposits DepositLaws Scanner.
Import SqlStore SqlLaws Parse Interference Deposits DepositLaws Scanner.

Open Scope string_scope.
Open Scope list_scope.
Open Scope Z_scope.

Module ScannerLaws.

(** ** The walk leaves no gap *)

Section walk.
Context `{X : ScanExt} (cfg : ScannerConfig).

(** The watch set as the database has it. *)
Definition watch_at (s : Store) : WatchSet :=
  WithMemoRecognizer
    (NewWatchSet (order_by (fun a b => String.leb (wa_Address a) (wa_Address b))
       (List.filter (fun w => bool_decide (wa_ChainID w = sc_ChainID cfg) && wa_Active w) (st_watched s))))
    (sc_MemoRecognizer cfg).

(** The parent check of the loop. *)
Definition linked (bp : BlockParse) (expected : string) : Prop :=
  sc_DisableHashChainVerification cfg = true \/ expected = "" \/ bp_LastBlockHash bp = expected.

(** What the walk did at height [h]: fetched the block and its results, parsed
    them against the watch set of a database state [s1], and recorded them. *)
Definition height_done (h : Z) (tr : trace) (s1 s' : Store) (bp : BlockParse) : Prop :=
  exists block results now,
    answered (CBlockByHeight (u64 h)) (Ok block) ∈ tr /\
    answered (CBlockResults (u64 h)) (Ok results) ∈ tr /\
    ParseBlockTransfers (watch_at s1) block results = Ok bp /\
    recorded bp (recordPolicy cfg) now s'.

Lemma loadWatch_ok s tr w s' :
  exec interference (loadWatch cfg) s tr (Ok w) s' -> tr = [] /\ interference s s' /\ w = watch_at s'.
Proof.
  intros H. unfold loadWatch in H. inv_exec H. injection H as ->.
  unfold Watch_ListActive, select_where, with_tx, tx_bind, tx_get, tx_ret in Hx.
  injection Hx as <- <-. done.
Qed.

Lemma RecordBlock_done bp pol now s tr out s' :
  exec interference (RecordBlock bp pol now) s tr (Ok out) s' ->
  tr = [] /\ recorded bp pol now s' /\ retains s s'.
Proof.
  unfold RecordBlock. destruct (empty (rp_ChainID pol)); intros H; inv_exec H; [done|].
  apply with_tx_ok, recordBlockTx_recorded in H as (Hr & Hk & _). split_and!; [done..|].
  etransitivity; [by apply interference_retains | done].
Qed.

(** One iteration. *)
Lemma walk_step n h expected s tr s' :
  exec interference (walk cfg (S n) h expected) s tr (Ok true) s' ->
  exists s1 s2 tr1 tr2 bp, interference s s1 /\ tr = tr1 ++ tr2 /\ height_done h tr1 s1 s2 bp /\
    linked bp expected /\ retains s s2 /\
    exec interference (walk cfg n (h + 1) (bp_BlockHash bp)) s2 tr2 (Ok true) s' /\
    (forall m tr3 s3, exec interference (walk cfg m (h + 1) (bp_BlockHash bp)) s2 tr3 (Ok true) s3 ->
       exec interference (walk cfg (S m) h expected) s (tr1 ++ tr3) (Ok true) s3).
Proof.
  cbn [walk]. intros H.
  apply exec_r_bind_ok in H as (block & sa & t1 & t2 & -> & Hb & H). inv_exec Hb.
  apply exec_r_bind_ok in H as (results & sb & t3 & t4 & -> & Hr & H). inv_exec Hr.
  apply exec_r_bind_ok in H as (w & sc & t5 & t6 & -> & Hw & H).
  pose proof Hw as Hw0. apply loadWatch_ok in Hw as (-> & Hi & ->).
  destruct (ParseBlockTransfers (watch_at sc) block results) as [bp|[]] eqn:Hp;
    [|by destruct H as (_ & [=] & _)..].
  destruct (_ && _) eqn:Hl.
  { apply exec_r_bind_ok in H as (u & sd & t7 & t8 & -> & _ & H). by destruct H as (_ & [=] & _). }
  apply exec_bind in H as (now & sd & t7 & t8 & -> & Hn & H). inv_exec Hn.
  apply exec_r_bind_ok in H as (out & se & t9 & t10 & -> & Hrec & H).
  pose proof Hrec as Hrec0. apply RecordBlock_done in Hrec as (-> & Hrec & Hk).
  exists sc, se. eexists (answered (CBlockByHeight (u64 h)) (Ok block) :: answered (CBlockResults (u64 h)) (Ok results)
                    :: answered CNow now :: []), t10, bp.
  split_and!; [done|reflexivity| | |etransitivity; [by apply interference_retains | done]|exact H|].
  - exists block, results, now. split_and!; [by left|right; by left|done..].
  - unfold linked. destruct (sc_DisableHashChainVerification cfg); [by left|right].
    destruct (empty expected) eqn:He; [left; by apply bool_decide_eq_true in He|right].
    apply negb_false_iff in Hl. by apply bool_decide_eq_true in Hl.
  - intros m tr3 s3 H3. clear H. eexists _, _. split; [reflexivity|]. cbn [p_bind]. eexists _, _. split; [reflexivity|].
    cbn [p_bind]. apply (exec_r_bind_ok (E := err) interference (loadWatch cfg)).
    exists (watch_at sc), sc, [], (answered CNow now :: tr3). split_and!; [reflexivity|exact Hw0|].
    rewrite Hp, Hl. eexists _, _. split; [reflexivity|]. cbn [p_bind].
    apply exec_r_bind_ok. exists out, se, [], tr3. split_and!; [reflexivity|exact Hrec0|exact H3].
Qed.

Lemma height_done_mono h tr tr' s1 s2 s' bp :
  (forall e, e ∈ tr -> e ∈ tr') -> retains s2 s' -> height_done h tr s1 s2 bp -> height_done h tr' s1 s' bp.
Proof.
  intros Ht Hr (block & results & now & Hb & Hrs & Hp & Hrec). exists block, results, now.
  split_and!; [by apply Ht..|done|]. by eapply recorded_mono.
Qed.

Lemma walk_retains n h expected s tr s' :
  exec interference (walk cfg n h expected) s tr (Ok true) s' -> retains s s'.
Proof.
  revert h expected s tr. induction n as [|n IH]; intros h expected s tr H.
  - destruct H as (_ & _ & ->). reflexivity.
  - apply walk_step in H as (s1 & s2 & tr1 & tr2 & bp & _ & _ & _ & _ & Hr & H & _).
    etransitivity; [exact Hr | by eapply IH].
Qed.


End walk.

(** *** A chain of three blocks *)

Definition ex_tip : Block := MkBlock "sovren-1" 11 [Byte.xac] 1006 [Byte.xab] [].
Definition ex_parent : Block := MkBlock "sovren-1" 9 [Byte.xaa] 994 [Byte.xa9] [].
Definition ex_block_at (h : Z) : result err Block :=
  if h =? 9 then Ok ex_parent else if h =? 10 then Ok ex_block else if h =? 11 then Ok ex_tip else Err ErrOther.
Definition ex_results_at (h : Z) : result err BlockResults :=
  if h =? 10 then Ok ex_results else if h =? 11 then Ok (MkBlockResults 11 [] []) else Err ErrOther.
Definition ex_node : oracle (C := call) := fun T c =>
  match c in call T return T with
  | CLatestBlock => Ok ex_tip
  | CBlockByHeight h => ex_block_at h
  | CBlockResults h => ex_results_at h
  | CNow => 1010
  | c => answering no_answers _ c
  end.
Definition ex_scanner : ScannerConfig := MkConfig "sovren-1" 2 1 10 None false None 500.

Definition ex_watching : Store := set_rows [ex_customer] (empty_store 5).


(** ** The orphan flow *)

Section orphan.
Context (cfg : ScannerConfig).
Notation chain := (sc_ChainID cfg).

(** A deposit the flow is to orphan. *)
Definition replaced (r : Z) (st : DepositStatus) (d : DepositRecord) : Prop :=
  d_ChainID d = chain /\ d_Status d = st /\ r <= d_BlockHeight d.

(** Rows stay, and change status at most to ORPHANED, from a pending status
    and at a replaced height. *)
Definition orphaning (r : Z) (s s' : Store) : Prop :=
  (forall d, d ∈ st_deposits s -> exists d', d' ∈ st_deposits s' /\ same_deposit d' d /\
     (d' = d \/ (d_Status d' = DepositOrphaned /\ d_Status d ∈ pending /\ r <= d_BlockHeight d))) /\
  (forall d', d' ∈ st_deposits s' -> exists d, d ∈ st_deposits s /\ same_deposit d' d /\
     (d' = d \/ d_Status d' = DepositOrphaned)) /\
  st_chainReviews s' = st_chainReviews s /\ (schema_ok s -> schema_ok s').

Lemma orphaning_refl r s : orphaning r s s.
Proof. split_and!; try done; intros d Hd; exists d; (split_and!; [done|reflexivity|by left]). Qed.
Lemma orphaning_trans r s1 s2 s3 : orphaning r s1 s2 -> orphaning r s2 s3 -> orphaning r s1 s3.
Proof.
  intros (A1 & B1 & C1 & D1) (A2 & B2 & C2 & D2). split_and!; [| |congruence|auto].
  - intros d Hd. destruct (A1 d Hd) as (d1 & H1 & S1 & E1). destruct (A2 d1 H1) as (d2 & H2 & S2 & E2).
    exists d2. split_and!; [done|by etransitivity|]. destruct E1 as [->|(O1 & P1 & R1)]; [done|].
    right. split_and!; try done. destruct E2 as [->|(O2 & _)]; done.
  - intros d Hd. destruct (B2 d Hd) as (d1 & H1 & S1 & E1). destruct (B1 d1 H1) as (d2 & H2 & S2 & E2).
    exists d2. split_and!; [done|by etransitivity|]. destruct E1 as [->|]; [done|by right].
Qed.

(** A successful transition to ORPHANED. *)
Lemma orphan_one r id st s u s' :
  st ∈ pending -> schema_ok s ->
  (forall d, d ∈ st_deposits s -> d_ID d = id -> r <= d_BlockHeight d) ->
  Deposits_UpdateStatus id st DepositOrphaned no_deposit_update s = (Ok u, s') ->
  orphaning r s s' /\ (forall d, d ∈ st_deposits s' -> d_Status d = st -> d_ID d <> id /\ d ∈ st_deposits s).
Proof.
  intros Hp Hs Hr H. pose proof (Deposits_UpdateStatus_keeps id st DepositOrphaned no_deposit_update s) as Hk.
  rewrite H in Hk. cbn [snd] in Hk. rewrite Deposits_UpdateStatus_eq in H.
  destruct (ValidateDepositTransition st DepositOrphaned); [done|].
  destruct (List.find _ _) as [d0|]; [|done]. destruct (negb _); [done|].
  destruct (if bool_decide _ then _ else _); [done|].
  set (f := deposit_set DepositOrphaned (new_prior st DepositOrphaned) (st_now s) no_deposit_update) in H.
  assert (s' = set_rows (update_rows (d_at id st) f (st_deposits s)) s) as E by exact (eq_sym (f_equal snd H)).
  assert (st_deposits s' = update_rows (d_at id st) f (st_deposits s)) as ED by (rewrite E; by destruct s).
  assert (forall d, d_at id st d = true -> d_ID d = id /\ d_Status d = st) as Hat.
  { intros d Hd. unfold d_at in Hd. apply andb_true_iff in Hd as [H1 H2].
    apply Z.eqb_eq in H1. by apply bool_decide_eq_true in H2. }
  assert (st <> DepositOrphaned) as Hne by (intros ->; vm_compute in Hp; by repeat (apply elem_of_cons in Hp as [Hp|Hp]; [done|]); apply elem_of_nil in Hp).
  split; [split_and!|].
  - intros d Hd. exists (if d_at id st d then f d else d). rewrite ED.
    split; [apply list_elem_of_fmap; by exists d|].
    destruct (d_at id st d) eqn:Ha; [|split; [reflexivity|by left]].
    destruct (Hat d Ha) as [Hid Hst]. split; [done|]. right. rewrite Hst. split_and!; [done..|by apply Hr].
  - intros d'. rewrite ED. intros (d & -> & Hd)%list_elem_of_fmap. exists d.
    destruct (d_at id st d); (split_and!; [done|done|by (left + right)]).
  - rewrite E. by destruct s.
  - exact Hk.
  - intros d'. rewrite ED. intros (d & -> & Hd)%list_elem_of_fmap. destruct (d_at id st d) eqn:Ha.
    + intros Hst. by destruct Hne.
    + intros Hst. split; [|done]. intros Hid. unfold d_at in Ha.
      by rewrite (proj2 (Z.eqb_eq _ _) Hid), bool_decide_eq_true_2 in Ha.
Qed.

Lemma exec_stmt_eq {A} (m : db A) s tr r s' :
  exec eq (stmt (C := call) m) s tr r s' -> tr = [] /\ with_tx m s = (r, s').
Proof. intros (-> & s1 & <- & H)%exec_stmt. done. Qed.

(** The rows of one batch. *)
Definition orphan_row (r : Z) (st : DepositStatus) (d : DepositRecord) : handler (result err unit) :=
  if d_BlockHeight d <? r then Done (Ok tt)
  else stmt (Deposits_UpdateStatus (d_ID d) st DepositOrphaned no_deposit_update).

Lemma row_of s d x :
  schema_ok s -> (exists y, y ∈ st_deposits s /\ same_deposit y d) -> x ∈ st_deposits s -> d_ID x = d_ID d ->
  same_deposit x d.
Proof.
  intros Hs (y & Hy & Hsame) Hx Hid. destruct (so_deposits _ Hs) as [Hids _].
  rewrite (ids_ok_inj d_ID _ x y Hids Hx Hy); [done|]. rewrite Hid. symmetry. by apply same_deposit_id.
Qed.
Lemma same_deposit_height a b : same_deposit a b -> d_BlockHeight a = d_BlockHeight b.
Proof. unfold same_deposit, deposit_of. congruence. Qed.

Lemma orphan_batch r st l s tr s' :
  st ∈ pending -> schema_ok s ->
  (forall d, d ∈ l -> exists y, y ∈ st_deposits s /\ same_deposit y d) ->
  (forall d, d ∈ st_deposits s -> replaced r st d -> exists d0, d0 ∈ l /\ d_ID d0 = d_ID d) ->
  exec eq (r_for l (orphan_row r st)) s tr (Ok tt) s' ->
  orphaning r s s' /\ (forall d, d ∈ st_deposits s' -> ~ replaced r st d).
Proof.
  intros Hp. revert s tr. induction l as [|d0 l IH]; intros s tr Hs Hkn Hcov H.
  - destruct H as (_ & _ & ->). split; [apply orphaning_refl|]. intros d Hd Hr.
    destruct (Hcov d Hd Hr) as (x & Hx & _). by apply elem_of_nil in Hx.
  - cbn [r_for] in H. apply exec_r_bind_ok in H as (u & s1 & t1 & t2 & -> & H1 & H). unfold orphan_row in H1 at 1.
    pose proof (Hkn d0 ltac:(by left)) as Hk0. destruct (Z.ltb_spec (d_BlockHeight d0) r) as [Hlt|Hge].
    + destruct H1 as (_ & _ & ->). eapply IH; [done| | |exact H].
      * intros d Hd. apply Hkn. by right.
      * intros d Hd Hr. destruct (Hcov d Hd Hr) as (x & [->|Hx]%elem_of_cons & Hid); [|eauto].
        exfalso. pose proof (row_of s d0 d Hs Hk0 Hd (eq_sym Hid)) as Hsame.
        apply same_deposit_height in Hsame. destruct Hr as (_ & _ & Hr). lia.
    + apply exec_stmt_eq in H1 as [_ H1]. apply with_tx_ok in H1.
      apply (orphan_one r) in H1 as [Ho Hleft]; [|done|done|].
      2:{ intros d Hd Hid. rewrite (same_deposit_height _ _ (row_of s d0 d Hs Hk0 Hd Hid)). done. }
      destruct (IH s1 t2) as [Ho' Hclean]; [by apply Ho| | |exact H|].
      * intros d Hd. destruct (Hkn d ltac:(by right)) as (y & Hy & Hsame).
        destruct (proj1 Ho y Hy) as (y' & Hy' & Hs' & _). exists y'. split; [done | by etransitivity].
      * intros d Hd Hr. destruct (Hleft d Hd (proj1 (proj2 Hr))) as [Hid Hd'].
        destruct (Hcov d Hd' Hr) as (x & [->|Hx]%elem_of_cons & E); [by destruct Hid|eauto].
      * split; [by eapply orphaning_trans | done].
Qed.

(** All the statuses. *)
Lemma orphan_statuses r sts s tr s' :
  (forall st, st ∈ sts -> st ∈ pending) -> schema_ok s ->
  exec eq (r_for sts (fun st => let? ds := stmt (Deposits_ListByStatus chain st 0) in r_for ds (orphan_row r st)))
    s tr (Ok tt) s' ->
  orphaning r s s' /\ (forall st d, st ∈ sts -> d ∈ st_deposits s' -> ~ replaced r st d).
Proof.
  revert s tr. induction sts as [|st sts IH]; intros s tr Hp Hs H.
  - destruct H as (_ & _ & ->). split; [apply orphaning_refl|]. by intros st d Hst%elem_of_nil.
  - cbn [r_for] in H. apply exec_r_bind_ok in H as (u & s1 & t1 & t2 & -> & H1 & H).
    apply exec_r_bind_ok in H1 as (ds & s0 & t3 & t4 & -> & Hl & H1). apply exec_stmt_eq in Hl as [_ Hl].
    apply with_tx_ok in Hl. unfold Deposits_ListByStatus, select_where, tx_bind, tx_get, limit in Hl. simpl in Hl.
    injection Hl as <- <-. destruct u.
    apply orphan_batch in H1 as [Ho Hclean]; [|apply Hp; by left|done| |].
    2:{ intros d Hd. apply list_elem_of_In, List.filter_In in Hd as [Hd _]. exists d.
        split; [by apply list_elem_of_In | reflexivity]. }
    2:{ intros d Hd (Hc & Hst & _). exists d. split; [|done]. apply list_elem_of_In, List.filter_In.
        split; [by apply list_elem_of_In|]. by rewrite !bool_decide_eq_true_2. }
    destruct (IH s1 t2) as [Ho' Hcl']; [intros x Hx; apply Hp; by right|by apply Ho|exact H|].
    split; [by eapply orphaning_trans|]. intros x d [->|Hx]%elem_of_cons Hd Hr; [|by eapply Hcl'].
    destruct (proj1 (proj2 Ho') d Hd) as (d1 & Hd1 & _ & [->|E]); [by eapply Hclean|].
    destruct Hr as (_ & Hst & _). specialize (Hp st ltac:(by left)). rewrite <-Hst, E in Hp.
    vm_compute in Hp. by repeat (apply elem_of_cons in Hp as [Hp|Hp]; [done|]); apply elem_of_nil in Hp.
Qed.

Lemma openChainReviewOnce_opens trigger a b s tr s' :
  schema_ok s -> exec eq (openChainReviewOnce cfg trigger a b) s tr (Ok tt) s' ->
  review_open chain s' = true /\ st_deposits s' = st_deposits s /\ schema_ok s'.
Proof.
  intros Hs H. unfold openChainReviewOnce in H. apply exec_r_bind_ok in H as (l & s0 & t1 & t2 & -> & Hl & H).
  apply exec_stmt_eq in Hl as [_ Hl]. apply with_tx_ok in Hl.
  unfold ChainReview_ListOpen, select_where, tx_bind, tx_get, tx_ret in Hl. injection Hl as <- <-.
  destruct (existsb _ _) eqn:Hx.
  - destruct H as (_ & _ & ->). split_and!; [|done|done]. unfold review_open.
    apply existsb_exists in Hx as (c & Hc & _). apply existsb_exists. exists c.
    apply list_elem_of_In, elem_of_order_by in Hc. apply list_elem_of_In, List.filter_In in Hc as [Hc Ho]. done.
  - apply exec_bind in H as (id & s1 & t3 & t4 & -> & Hid & H). inv_exec Hid.
    apply exec_bind in H as (now & s1 & t5 & t6 & -> & Hn & H). inv_exec Hn.
    apply exec_r_bind_ok in H as (c & s1 & t7 & t8 & -> & Hop & H). destruct H as (_ & _ & ->).
    apply exec_stmt_eq in Hop as [_ Hop]. apply with_tx_ok in Hop.
    pose proof (ChainReview_Open_keeps (MkCondition id chain trigger a b now None "") s Hs) as Hk.
    rewrite Hop in Hk. cbn [snd] in Hk.
    unfold ChainReview_Open, fmtTime in Hop. inv_tx Hop.
    unfold insert_row in Hop. destruct (violation _ _ _); [done|].
    match type of Hop with (Ok ?r, set_rows ?l s) = _ => set (c0 := r) in *;
      assert (s1 = set_rows (rows s ++ [c0]) s) as E by exact (eq_sym (f_equal snd Hop)) end.
    split_and!; [|rewrite E; by destruct s|done]. unfold review_open. rewrite E.
    apply existsb_exists. exists c0. split.
    + destruct s. apply in_or_app. right. by left.
    + unfold open_condition. cbn. by rewrite bool_decide_eq_true_2.
Qed.

End orphan.

(** The orphan flow.  Run without interference on a broken link at
    height [h], a successful orphan flow leaves a chain review open, so that
    the credit gate is closed; no deposit of the chain at the replaced height
    or above is left in DISCOVERED, VALIDATED, AWAITING_CONFIRMATIONS,
    CREDITABLE or BELOW_MINIMUM; a row changed only from one of these statuses
    to ORPHANED, at such a height; and the checkpoint is back below the
    replaced block, so that the next cycle scans it again. *)
Theorem orphan_flow_sweeps (cfg : ScannerConfig) (h : Z) (expected got : string) (s s' : Store) (tr : trace)
    (Hs : schema_ok s) (Hh : 1 <= h < 2 ^ 64) (Hc : sc_ChainID cfg <> "")
    (H : exec eq (orphanFlow cfg h expected got) s tr (Ok tt) s') :
  gate_closed (gate_at (sc_ChainID cfg) s') = true /\
  (forall d, d ∈ st_deposits s' -> d_ChainID d = sc_ChainID cfg -> d_Status d ∈ pending -> d_BlockHeight d < h - 1) /\
  (forall d, d ∈ st_deposits s -> exists d', d' ∈ st_deposits s' /\ same_deposit d' d /\
     (d' = d \/ (d_Status d' = DepositOrphaned /\ d_Status d ∈ pending /\ h - 1 <= d_BlockHeight d))) /\
  exists hash t, fst (Checkpoints_Get (sc_ChainID cfg) s') =
    Ok (MkCheckpoint (sc_ChainID cfg) (if 1 <? h - 1 then h - 2 else 0) hash t).
Proof.
  unfold orphanFlow in H. cbv zeta in H. unfold asU64 in H. rewrite Z.mod_small in H by lia.
  apply exec_r_bind_ok in H as ([] & s1 & t1 & t2 & -> & H1 & H).
  apply openChainReviewOnce_opens in H1 as (Hopen & ED & Hs1); [|done].
  apply exec_r_bind_ok in H as ([] & s2 & t3 & t4 & -> & H2 & H).
  apply (orphan_statuses cfg (h - 1) pending) in H2 as [(A & B & C & D) Hclean]; [|done|done].
  apply exec_r_bind_ok in H as ([nh hash] & s3 & t5 & t6 & -> & H3 & H).
  assert (s3 = s2 /\ nh = if 1 <? h - 1 then h - 2 else 0) as [-> ->].
  { destruct (1 <? h - 1); [|by destruct H3 as (_ & [= -> ->] & ->)].
    apply exec_r_bind_ok in H3 as (parent & s4 & t7 & t8 & -> & H4 & H3). inv_exec H4.
    destruct H3 as (_ & [= -> ->] & ->). split; [done|lia]. }
  apply exec_bind in H as (now & s4 & t7 & t8 & -> & Hn & H). inv_exec Hn.
  apply exec_stmt_eq in H as [_ H]. apply with_tx_ok in H.
  set (cp := MkCheckpoint (sc_ChainID cfg) (if 1 <? h - 1 then h - 2 else 0) hash (if now =? 0 then st_now s2 else now)).
  assert (s' = with_checkpoint cp s2) as ->.
  { rewrite Checkpoints_Set_eq in H by (by apply bool_decide_eq_false). exact (eq_sym (f_equal snd H)). }
  assert (st_deposits (with_checkpoint cp s2) = st_deposits s2) as E1 by (by destruct s2).
  split_and!.
  - unfold gate_closed, gate_at. cbn [g_CreditPaused g_ScanWithoutCredit g_ChainReviewOpen].
    assert (review_open (sc_ChainID cfg) (with_checkpoint cp s2) = review_open (sc_ChainID cfg) s1) as ->.
    { unfold review_open. rewrite <-C. by destruct s2. }
    rewrite Hopen. by rewrite !orb_true_r.
  - rewrite E1. intros d Hd Hcd Hp. destruct (Z.lt_ge_cases (d_BlockHeight d) (h - 1)); [done|].
    exfalso. by apply (Hclean (d_Status d) d Hp Hd).
  - rewrite E1, <-ED. exact A.
  - exists hash, (if now =? 0 then st_now s2 else now).
    change (sc_ChainID cfg) with (cp_ChainID cp) at 1. by rewrite with_checkpoint_get.
Qed.

Lemma orphan_flow_sweeps_witness :
  exists tr,
    exec eq (orphanFlow ex_scanner 11 "AB" "FF") ex_credit_store tr (Ok tt)
      (o_state (run ex_node (orphanFlow ex_scanner 11 "AB" "FF") ex_credit_store)) /\
    gate_closed (gate_at "sovren-1"
      (o_state (run ex_node (orphanFlow ex_scanner 11 "AB" "FF") ex_credit_store))) = true.
Proof.
  pose (p := orphanFlow ex_scanner 11 "AB" "FF").
  assert (o_value (run ex_node p ex_credit_store) = Ok tt) as Hv by (vm_compute; reflexivity).
  destruct (run_exec eq ex_node p ex_credit_store) as (tr & Hx). rewrite Hv in Hx.
  exists tr. split; [exact Hx|].
  exact (proj1 (orphan_flow_sweeps ex_scanner 11 "AB" "FF" ex_credit_store _ tr ex_credit_schema
                  ltac:(lia) ltac:(discriminate) Hx)).
Defined.

(** The flow does not look at SUSPENDED deposits: one that was CREDITABLE when
    it was suspended survives the replacement of its block, resumes to
    CREDITABLE once the review is resolved, and is credited, although its block
    was never seen again. *)
Definition ex_suspended : DepositRecord :=
  deposit_set DepositSuspended (Some DepositCreditable) 5 no_deposit_update ex_creditable.
Definition ex_replaced_store : Store :=
  o_state (run ex_node (orphanFlow ex_scanner 11 "AB" "FF") (set_rows [ex_suspended] (empty_store 9))).
Definition ex_resolved_store : Store := snd (with_tx (ChainReview_Resolve "c0" "ok" 20) ex_replaced_store).

Lemma suspended_survives_orphaning :
  o_value (run ex_node (orphanFlow ex_scanner 11 "AB" "FF") (set_rows [ex_suspended] (empty_store 9))) = Ok tt /\
  map d_Status (st_deposits ex_replaced_store) = [DepositSuspended] /\
  map d_Status (st_deposits (o_state (run ex_node (processPending ex_scanner 12) ex_resolved_store))) =
    [DepositCredited].
Proof. vm_compute. split_and!; reflexivity. Qed.

(** An orphaned deposit that is seen again keeps the height of the replaced
    block: its confirmations are counted from there. *)
Definition ex_orphaned : DepositRecord :=
  deposit_set DepositOrphaned None 5 no_deposit_update
    (MkDeposit 1 "sovren-1" (Hash.TxHash [Byte.x01]) 0 0 3 1000 None "sovr1customer" BaseDenom 25 "" 0 ""
       DepositCreditable None None None 5 5).
Lemma revived_keeps_height :
  map (fun d => (d_Status d, d_BlockHeight d))
    (st_deposits (o_state (run ex_node (RecordBlock ex_parsed ex_policy 30) (set_rows [ex_orphaned] (empty_store 9)))))
  = [(DepositAwaitingConfirmations, 3)] /\ bp_Height ex_parsed = 10.
Proof. vm_compute. split; reflexivity. Qed.

End ScannerLaws.
