(* ===== verification/AdapterConfig.v ===== *)
(** * AdapterConfig: the adapter's configuration ([go/cmd/sovren-adapter/config.go])

    [adapter.yaml] as records, its validation as the list of the paths that
    fail, the strict environment expansion, the admin binding check, and
    [LoadConfig] with the network manifest.  Files, environment and the YAML
    decoder are given ([machine], [ConfigExt]); messages are left out.  The laws
    say what a loaded configuration guarantees. *)

From stdpp Require Import base list strings.
From Stdlib Require Import ZArith Lia Ascii String.
From S2P Require Import Prelude Text GoStrings Durations NetAddr Amounts Storage Manifest Chain Address Scanner.

Open Scope string_scope.
Open Scope list_scope.
Open Scope Z_scope.
Import GoStrings(TrimSpace).
Local Notation empty := GoStrings.empty.

(** ** [path/filepath] on a slash-separated system *)

Module Filepath.

Definition slash (c : ascii) : bool := is_char "/"%char c.

(** The components between slashes; [cur] is the current one, reversed. *)
Fixpoint components (cur t : text) : list text :=
  match t with
  | [] => [rev cur]
  | c :: t' => if slash c then rev cur :: components [] t' else components (c :: cur) t'
  end.

(** One component of [Clean]; [out] is reversed. *)
Definition clean_step (rooted : bool) (out : list text) (c : text) : list text :=
  if bool_decide (c = []) || bool_decide (c = chars ".") then out
  else if bool_decide (c = chars "..") then
    match out with
    | [] => if rooted then [] else [c]
    | last :: out' => if bool_decide (last = chars "..") then c :: out else out'
    end
  else c :: out.

Fixpoint join (l : list text) : text :=
  match l with
  | [] => []
  | [c] => c
  | c :: l' => c ++ ["/"%char] ++ join l'
  end.

Definition is_abs (t : text) : bool := match t with c :: _ => slash c | [] => false end.

Definition clean (t : text) : text :=
  let rooted := is_abs t in
  match (if rooted then ["/"%char] else []) ++ join (rev (fold_left (clean_step rooted) (components [] t) [])) with
  | [] => chars "."
  | p => p
  end.

(** What precedes and includes the last slash. *)
Fixpoint to_last_slash (t : text) : text :=
  match t with
  | [] => []
  | c :: t' => match to_last_slash t' with [] => if slash c then [c] else [] | p => c :: p end
  end.

Definition IsAbs (path : string) : bool := is_abs (chars path).
Definition Dir (path : string) : string := of_chars (clean (to_last_slash (chars path))).
(** [Join] of two elements. *)
Definition Join (a b : string) : string :=
  if empty a then (if empty b then "" else of_chars (clean (chars b)))
  else of_chars (clean (chars a ++ ["/"%char] ++ chars b)).

Example cleans :
  Dir "/etc/sovren/adapter.yaml" = "/etc/sovren" /\ Dir "adapter.yaml" = "." /\ Dir "/a" = "/" /\
  Join "/etc/sovren" "../net/./network.yaml" = "/etc/net/network.yaml" /\ Join "." "../x" = "../x" /\
  Join "/" "../x//y/" = "/x/y".
Proof. repeat split. Qed.

End Filepath.

Module AdapterConfig.

Definition SupportedConfigSchemaVersion : Z := 1.

(** ** Data *)

Record NodeEndpoints : Type := MkEndpoints { ne_GRPC : string; ne_RPC : string; ne_REST : string }.
Record DisagreementConfig : Type := MkDisagreement {
  dg_HeightDivergenceThreshold : Z; dg_CheckInterval : string }.
Record NodesConfig : Type := MkNodes {
  nd_Primary : NodeEndpoints; nd_Secondary : option NodeEndpoints; nd_Disagreement : option DisagreementConfig }.
Record StorageConfig : Type := MkStorage { sto_Backend : string; sto_DSN : string }.
Record WatchEntryConfig : Type := MkWatchEntry {
  we_Address : string; we_Kind : string; we_MemoRequired : bool; we_CustomerRef : string }.
Record ScannerConfig : Type := MkScanner {
  scn_Confirmations : option Z; scn_StartHeight : option Z; scn_WebsocketAccelerator : option bool;
  scn_PollInterval : string; scn_MinimumDepositUsovr : string; scn_Watch : list WatchEntryConfig }.
Record WithdrawalsConfig : Type := MkWithdrawals {
  wdr_MinimumWithdrawalUsovr : string; wdr_MaxFeeUsovr : string; wdr_GasAdjustment : string;
  wdr_BroadcastTimeout : string; wdr_SimulateUnavailable : string; wdr_ProhibitedDestinations : list string }.
Record SweepsConfig : Type := MkSweeps {
  swp_Strategy : string; swp_MinimumSweepAmountUsovr : string; swp_MaximumFeePercentageForSweep : string;
  swp_FeeReserveUsovr : string; swp_HotWallet : string; swp_FeeWalletMaxSpendUsovr : string;
  swp_FeeWalletSpendWindowBlocks : Z }.
Record SignerConfig : Type := MkSigner { sg_Kind : string; sg_Endpoint : string }.
Record ReconcilerConfig : Type := MkReconciler { rec_WalletInterval : string; rec_FullAddressInterval : string }.
Record AdminConfig : Type := MkAdmin { adm_Listen : string; adm_AuthToken : string }.
Record MetricsConfig : Type := MkMetrics { met_Listen : string }.

Record Config : Type := MkConfig {
  cf_SchemaVersion : Z; cf_NetworkManifest : string; cf_Nodes : NodesConfig; cf_Storage : StorageConfig;
  cf_Scanner : ScannerConfig; cf_Withdrawals : WithdrawalsConfig; cf_Sweeps : SweepsConfig;
  cf_Signer : SignerConfig; cf_Reconciler : ReconcilerConfig; cf_Admin : AdminConfig;
  cf_Metrics : MetricsConfig; cf_dir : string }.

Definition set_dir (c : Config) (d : string) : Config :=
  MkConfig (cf_SchemaVersion c) (cf_NetworkManifest c) (cf_Nodes c) (cf_Storage c) (cf_Scanner c)
    (cf_Withdrawals c) (cf_Sweeps c) (cf_Signer c) (cf_Reconciler c) (cf_Admin c) (cf_Metrics c) d.
Definition set_secrets (c : Config) (dsn token : string) : Config :=
  MkConfig (cf_SchemaVersion c) (cf_NetworkManifest c) (cf_Nodes c)
    (MkStorage (sto_Backend (cf_Storage c)) dsn) (cf_Scanner c) (cf_Withdrawals c) (cf_Sweeps c) (cf_Signer c)
    (cf_Reconciler c) (MkAdmin (adm_Listen (cf_Admin c)) token) (cf_Metrics c) (cf_dir c).

(** ** The admin binding *)

Inductive admin_error : Type := BadListen (e : NetAddr.AddrError) | ExposedWithoutToken.

Definition isLoopbackHost (host : string) : bool :=
  let host := TrimSpace host in
  if bool_decide (host = "localhost") then true
  else if bool_decide (host ∈ [""; "0.0.0.0"; "::"]) then false
  else match NetAddr.ParseIP host with
       | None => false
       | Some ip => NetAddr.IsLoopback ip
       end.

Definition validateAdminBinding (a : AdminConfig) : result admin_error unit :=
  let listen := TrimSpace (adm_Listen a) in
  if empty listen || negb (empty (adm_AuthToken a)) then Ok tt
  else match NetAddr.SplitHostPort listen with
       | Err e => Err (BadListen e)
       | Ok (host, _) => if isLoopbackHost host then Ok tt else Err ExposedWithoutToken
       end.

(** ** Environment expansion *)

Definition name_start (c : ascii) : bool :=
  let n := nat_of_ascii c in
  (((65 <=? n) && (n <=? 90)) || ((97 <=? n) && (n <=? 122)) || (n =? 95))%nat.
Definition name_char (c : ascii) : bool := name_start c || is_digit c.

Fixpoint take_name (t : text) : text * text :=
  match t with
  | c :: t' => if name_char c then let '(n, r) := take_name t' in (c :: n, r) else ([], t)
  | [] => ([], [])
  end.

(** [envRefRe] at the start of a text: the variable's name and what follows. *)
Definition env_ref (t : text) : option (text * text) :=
  match t with
  | "$"%char :: "{"%char :: c :: t' =>
      if name_start c then
        match take_name t' with
        | (n, "}"%char :: rest) => Some (c :: n, rest)
        | _ => None
        end
      else None
  | _ => None
  end.

(** What [ReplaceAllStringFunc] walks over: plain bytes and references. *)
Inductive segment : Type := Plain (c : ascii) | Ref (name : text).
Fixpoint segments (steps : nat) (t : text) : list segment :=
  match steps, t with
  | O, _ | _, [] => []
  | S steps', c :: t' =>
      match env_ref t with
      | Some (name, rest) => Ref name :: segments steps' rest
      | None => Plain c :: segments steps' t'
      end
  end.

Section expand.
Context (LookupEnv : string -> option string).

Definition missing (segs : list segment) : list string :=
  flat_map (fun s => match s with
                     | Ref n => match LookupEnv (of_chars n) with None => [of_chars n] | Some _ => [] end
                     | Plain _ => [] end) segs.
Definition expanded (segs : list segment) : text :=
  flat_map (fun s => match s with
                     | Plain c => [c]
                     | Ref n => match LookupEnv (of_chars n) with
                                | Some v => chars v
                                | None => ["$"; "{"]%char ++ n ++ ["}"%char]
                                end
                     end) segs.

(** The error carries the missing names. *)
Definition expandEnvStrict (s : string) : result (list string) string :=
  let segs := segments (List.length (chars s)) (chars s) in
  match missing segs with
  | [] => Ok (of_chars (expanded segs))
  | names => Err names
  end.
End expand.

(** ** Validation *)

Definition integerRe : re := Amounts.baseRe.
Definition decimalRe : re := Amounts.displayRe.

(** A path that fails, as a singleton. *)
Definition fail_if (b : bool) (path : string) : list string := if b then [path] else [].

Definition is_duration (v : string) : bool :=
  match Durations.ParseDuration v with Ok d => 0 <? d | Err _ => false end.
Definition requireDuration (path v : string) : list string := fail_if (negb (empty v) && negb (is_duration v)) path.
Definition requireInteger (path v : string) : list string :=
  fail_if (negb (empty v) && negb (matches integerRe (chars v))) path.
Definition requireDecimal (path v : string) : list string :=
  fail_if (negb (empty v) && negb (matches decimalRe (chars v))) path.

Section config.
Context `{X : Ext}.

Definition valid_address (a : string) : bool := Address.vr_Valid (Address.ValidateAccountAddress a).

Definition check_watch (i : nat) (w : WatchEntryConfig) : list string :=
  let p := Manifest.indexed "scanner.watch" i in
  fail_if (negb (valid_address (we_Address w))) (p +:+ ".address") ++
  fail_if (negb (bool_decide (is_Some (enum_parse (A := WatchedAddressKind) (we_Kind w))))) (p +:+ ".kind").

Definition check_destination (i : nat) (d : string) : list string :=
  fail_if (negb (valid_address d)) (Manifest.indexed "withdrawals.prohibited_destinations" i).

Definition validate (c : Config) : list string :=
  let n := cf_Nodes c in let st := cf_Storage c in let sc := cf_Scanner c in
  let w := cf_Withdrawals c in let sw := cf_Sweeps c in let r := cf_Reconciler c in
  fail_if (negb (cf_SchemaVersion c =? SupportedConfigSchemaVersion)) "schema_version" ++
  fail_if (empty (TrimSpace (cf_NetworkManifest c))) "network_manifest" ++
  fail_if (empty (ne_RPC (nd_Primary n)) && empty (ne_GRPC (nd_Primary n))) "nodes.primary" ++
  match nd_Disagreement n with
  | None => []
  | Some d =>
      fail_if (dg_HeightDivergenceThreshold d <=? 0) "nodes.disagreement.height_divergence_threshold" ++
      requireDuration "nodes.disagreement.check_interval" (dg_CheckInterval d)
  end ++
  fail_if (negb (bool_decide (sto_Backend st ∈ ["sqlite"; "postgres"]))) "storage.backend" ++
  fail_if (empty (TrimSpace (sto_DSN st))) "storage.dsn" ++
  requireDuration "scanner.poll_interval" (scn_PollInterval sc) ++
  requireInteger "scanner.minimum_deposit_usovr" (scn_MinimumDepositUsovr sc) ++
  List.concat (imap check_watch (scn_Watch sc)) ++
  requireInteger "withdrawals.minimum_withdrawal_usovr" (wdr_MinimumWithdrawalUsovr w) ++
  requireInteger "withdrawals.max_fee_usovr" (wdr_MaxFeeUsovr w) ++
  requireDecimal "withdrawals.gas_adjustment" (wdr_GasAdjustment w) ++
  requireDuration "withdrawals.broadcast_timeout" (wdr_BroadcastTimeout w) ++
  fail_if (negb (bool_decide (wdr_SimulateUnavailable w ∈ [""; "queue"; "static"]))) "withdrawals.simulate_unavailable" ++
  List.concat (imap check_destination (wdr_ProhibitedDestinations w)) ++
  fail_if (negb (empty (swp_Strategy sw)) &&
           negb (bool_decide (is_Some (enum_parse (A := SweepStrategy) (swp_Strategy sw))))) "sweeps.strategy" ++
  requireInteger "sweeps.minimum_sweep_amount_usovr" (swp_MinimumSweepAmountUsovr sw) ++
  requireDecimal "sweeps.maximum_fee_percentage_for_sweep" (swp_MaximumFeePercentageForSweep sw) ++
  requireInteger "sweeps.fee_reserve_usovr" (swp_FeeReserveUsovr sw) ++
  fail_if (negb (empty (swp_HotWallet sw)) && negb (valid_address (swp_HotWallet sw))) "sweeps.hot_wallet" ++
  fail_if (negb (bool_decide (sg_Kind (cf_Signer c) ∈ [""; "grpc-remote"; "exec"; "unsafe-local"]))) "signer.kind" ++
  requireDuration "reconciler.wallet_interval" (rec_WalletInterval r) ++
  requireDuration "reconciler.full_address_interval" (rec_FullAddressInterval r).

Definition ManifestPath (c : Config) : string :=
  if Filepath.IsAbs (cf_NetworkManifest c) then cf_NetworkManifest c
  else Filepath.Join (cf_dir c) (cf_NetworkManifest c).

(** ** Loading *)

(** [os.ReadFile], [os.LookupEnv] and the strict YAML decoder. *)
Record machine : Type := MkMachine {
  ReadFile : string -> option bytes;
  LookupEnv : string -> option string;
  yaml_config : bytes -> option Config }.

Inductive error : Type :=
| ReadError
| DecodeError
| InvalidConfig (paths : list string)
| UnsetInDSN (names : list string)
| UnsetInToken (names : list string)
| AdminBinding (e : admin_error)
| ManifestError (e : Manifest.error)
| UnsafeLocalOnMainnet.

Context `{ME : Manifest.ManifestExt}.

Definition LoadConfig (h : machine) (path : string) : result error (Config * Manifest.NetworkManifest) :=
  match ReadFile h path with
  | None => Err ReadError
  | Some data =>
      match yaml_config h data with
      | None => Err DecodeError
      | Some decoded =>
          let cfg := set_dir decoded (Filepath.Dir path) in
          match validate cfg with
          | _ :: _ as paths => Err (InvalidConfig paths)
          | [] =>
              match expandEnvStrict (LookupEnv h) (sto_DSN (cf_Storage cfg)) with
              | Err names => Err (UnsetInDSN names)
              | Ok dsn =>
                  match expandEnvStrict (LookupEnv h) (adm_AuthToken (cf_Admin cfg)) with
                  | Err names => Err (UnsetInToken names)
                  | Ok token =>
                      let cfg := set_secrets cfg dsn token in
                      match validateAdminBinding (cf_Admin cfg) with
                      | Err e => Err (AdminBinding e)
                      | Ok _ =>
                          match Manifest.LoadManifest (ReadFile h) (ManifestPath cfg) with
                          | Err e => Err (ManifestError e)
                          | Ok manifest =>
                              if bool_decide (sg_Kind (cf_Signer cfg) = "unsafe-local") &&
                                 bool_decide (Manifest.nm_NetworkType manifest = "mainnet")
                              then Err UnsafeLocalOnMainnet
                              else Ok (cfg, manifest)
                          end
                      end
                  end
              end
          end
      end
  end.

Inductive runtime_error : Type := BadConfirmations | BadPollInterval (e : Durations.error).

Definition ScannerRuntime (c : Config) : result runtime_error (Z * Z * Z) :=
  let sc := cf_Scanner c in
  let confirmations := match scn_Confirmations sc with Some n => n | None => Scanner.DefaultConfirmations end in
  if match scn_Confirmations sc with Some n => (n <? 1) || (12 <? n) | None => false end then Err BadConfirmations
  else
    let startHeight := match scn_StartHeight sc with Some h => h | None => 0 end in
    if empty (scn_PollInterval sc) then Ok (confirmations, startHeight, 0)
    else match Durations.ParseDuration (scn_PollInterval sc) with
         | Err e => Err (BadPollInterval e)
         | Ok poll => Ok (confirmations, startHeight, poll)
         end.

(** ** Laws *)

Lemma refuse_if_nil b p : fail_if b p = [] <-> b = false.
Proof. by destruct b. Qed.

(** An optional value that must have a form. *)
Lemma optional_nil (ok : string -> bool) v p :
  fail_if (negb (empty v) && negb (ok v)) p = [] <-> v = "" \/ ok v = true.
Proof.
  unfold GoStrings.empty. rewrite refuse_if_nil, andb_false_iff, !negb_false_iff, bool_decide_eq_true. done.
Qed.

Definition positive_duration (v : string) : Prop := exists d, Durations.ParseDuration v = Ok d /\ 0 < d.
Lemma is_duration_iff v : is_duration v = true <-> positive_duration v.
Proof.
  unfold is_duration, positive_duration. destruct (Durations.ParseDuration v) as [d|e]; [|naive_solver].
  rewrite Z.ltb_lt. naive_solver.
Qed.

(** The intervals, amounts and decimals of a configuration. *)
Definition durations (c : Config) : list string :=
  [scn_PollInterval (cf_Scanner c); wdr_BroadcastTimeout (cf_Withdrawals c);
   rec_WalletInterval (cf_Reconciler c); rec_FullAddressInterval (cf_Reconciler c)] ++
  match nd_Disagreement (cf_Nodes c) with Some d => [dg_CheckInterval d] | None => [] end.
Definition integers (c : Config) : list string :=
  [scn_MinimumDepositUsovr (cf_Scanner c); wdr_MinimumWithdrawalUsovr (cf_Withdrawals c);
   wdr_MaxFeeUsovr (cf_Withdrawals c); swp_MinimumSweepAmountUsovr (cf_Sweeps c); swp_FeeReserveUsovr (cf_Sweeps c)].
Definition decimals (c : Config) : list string :=
  [wdr_GasAdjustment (cf_Withdrawals c); swp_MaximumFeePercentageForSweep (cf_Sweeps c)].

Record checked (c : Config) : Prop := {
  ck_durations : Forall (fun v => v = "" \/ positive_duration v) (durations c);
  ck_integers : Forall (fun v => v = "" \/ matches integerRe (chars v) = true) (integers c);
  ck_decimals : Forall (fun v => v = "" \/ matches decimalRe (chars v) = true) (decimals c);
  ck_backend : sto_Backend (cf_Storage c) = "sqlite" \/ sto_Backend (cf_Storage c) = "postgres";
  ck_primary : ne_RPC (nd_Primary (cf_Nodes c)) <> "" \/ ne_GRPC (nd_Primary (cf_Nodes c)) <> "";
  ck_watch : Forall (fun w => valid_address (we_Address w) = true /\
    is_Some (enum_parse (A := WatchedAddressKind) (we_Kind w))) (scn_Watch (cf_Scanner c));
  ck_destinations : Forall (fun d => valid_address d = true) (wdr_ProhibitedDestinations (cf_Withdrawals c));
  ck_strategy : swp_Strategy (cf_Sweeps c) = "" \/
    is_Some (enum_parse (A := SweepStrategy) (swp_Strategy (cf_Sweeps c)));
  ck_signer : sg_Kind (cf_Signer c) ∈ [""; "grpc-remote"; "exec"; "unsafe-local"] }.

Lemma concat_imap_nil {A B} (f : nat -> A -> list B) (l : list A) (P : A -> Prop) :
  (forall i x, f i x = [] -> P x) -> List.concat (imap f l) = [] -> Forall P l.
Proof.
  revert f. induction l as [|x l IH]; intros f Hf; cbn [imap List.concat]; [constructor|].
  intros H. apply app_nil in H as [H1 H2]. constructor; [by eapply Hf|].
  eapply IH; [|exact H2]. intros i y. apply Hf.
Qed.

Lemma check_watch_nil i w : check_watch i w = [] ->
  valid_address (we_Address w) = true /\ is_Some (enum_parse (A := WatchedAddressKind) (we_Kind w)).
Proof.
  unfold check_watch. rewrite app_nil, !refuse_if_nil, !negb_false_iff, bool_decide_eq_true. done.
Qed.
Lemma check_destination_nil i d : check_destination i d = [] -> valid_address d = true.
Proof. unfold check_destination. by rewrite refuse_if_nil, negb_false_iff. Qed.

Lemma requireDuration_nil p v : requireDuration p v = [] -> v = "" \/ positive_duration v.
Proof. intros H. apply optional_nil in H. by rewrite is_duration_iff in H. Qed.

(** Reads each check of an accepted configuration. *)
Ltac read_checks :=
  repeat match goal with
  | H : _ ++ _ = [] |- _ => apply app_nil in H as [? H]
  | H : requireDuration _ _ = [] |- _ => apply requireDuration_nil in H
  | H : requireInteger _ _ = [] |- _ => apply (optional_nil (fun v => matches integerRe (chars v))) in H
  | H : requireDecimal _ _ = [] |- _ => apply (optional_nil (fun v => matches decimalRe (chars v))) in H
  | H : List.concat (imap check_watch _) = [] |- _ => apply (concat_imap_nil _ _ _ check_watch_nil) in H
  | H : List.concat (imap check_destination _) = [] |- _ => apply (concat_imap_nil _ _ _ check_destination_nil) in H
  | H : fail_if _ _ = [] |- _ => apply refuse_if_nil in H
  end.

Lemma validate_checked c : validate c = [] -> checked c.
Proof.
  unfold validate. cbv zeta. intros H. read_checks. unfold GoStrings.empty in *.
  rewrite ?negb_false_iff, ?andb_false_iff, ?negb_false_iff, ?bool_decide_eq_true, ?bool_decide_eq_false in *.
  split; try done; unfold durations, integers, decimals.
  - repeat (apply Forall_cons_2; [assumption|]). destruct (nd_Disagreement (cf_Nodes c)); [|constructor].
    read_checks. by apply Forall_singleton.
  - repeat (apply Forall_cons_2; [assumption|]). constructor.
  - repeat (apply Forall_cons_2; [assumption|]). constructor.
  - match goal with H : _ ∈ ["sqlite"; "postgres"] |- _ => revert H end.
    rewrite elem_of_cons, list_elem_of_singleton. done.
Qed.

(** *** The admin API *)

(** Who may call the admin API of a listener: only this host, or a holder of the
    token. *)
Definition guarded (a : AdminConfig) : Prop :=
  adm_AuthToken a <> "" \/ TrimSpace (adm_Listen a) = "" \/
  exists host port, NetAddr.SplitHostPort (TrimSpace (adm_Listen a)) = Ok (host, port) /\ isLoopbackHost host = true.

Lemma validateAdminBinding_guarded a : validateAdminBinding a = Ok tt <-> guarded a.
Proof.
  unfold validateAdminBinding, guarded, GoStrings.empty. cbv zeta.
  case_bool_decide as E1; cbn [orb]; [naive_solver|]. case_bool_decide as E2; cbn [negb]; [|naive_solver].
  destruct (NetAddr.SplitHostPort _) as [[host port]|e]; [|naive_solver].
  destruct (isLoopbackHost host) eqn:E; (split; [intros H|]).
  - right. right. by exists host, port.
  - done.
  - done.
  - intros [H|[H|(h & p & H & Hl)]]; [done..|]. injection H as <- <-. congruence.
Qed.

Lemma last_index_after c t r : Forall (fun x => x <> c) r ->
  NetAddr.last_index_byte c (t ++ c :: r) = Some (List.length t).
Proof.
  intros Hr. induction t as [|x t IH]; cbn [app NetAddr.last_index_byte].
  - assert (NetAddr.last_index_byte c r = None) as ->.
    { clear -Hr. induction Hr as [|y r Hy _ IH]; [done|]. cbn. rewrite IH. unfold is_char.
      by rewrite bool_decide_eq_false_2. }
    unfold is_char. by rewrite bool_decide_eq_true_2.
  - by rewrite IH.
Qed.

Lemma has_byte_absent c t : Forall (fun x => x <> c) t -> NetAddr.has_byte c t = false.
Proof.
  intros H. apply bool_decide_eq_false_2. assert (NetAddr.index_byte c t = None) as ->; [|by intros []].
  induction H as [|x t Hx _ IH]; [done|]. cbn. unfold is_char. rewrite bool_decide_eq_false_2 by done. by rewrite IH.
Qed.

(** A host without colons or brackets and a port of digits. *)
Lemma SplitHostPort_plain host port :
  Forall (fun x => x <> ":"%char /\ x <> "["%char /\ x <> "]"%char) host -> all_digits port ->
  NetAddr.SplitHostPort (of_chars (host ++ ":"%char :: port)) = Ok (of_chars host, of_chars port).
Proof.
  intros Hh Hp. unfold NetAddr.SplitHostPort, NetAddr.split_text. rewrite chars_of_chars.
  assert (forall c, is_digit c = false -> Forall (fun x => x <> c) port) as Hport.
  { intros c Hc. eapply Forall_impl; [exact Hp|]. intros x Hx ->. congruence. }
  rewrite last_index_after by (by apply Hport).
  rewrite bool_decide_eq_false_2.
  2:{ destruct host as [|x host]; cbn; [done|]. apply Forall_cons in Hh as [(_ & Hx & _) _]. congruence. }
  rewrite take_app_length. rewrite has_byte_absent by (eapply Forall_impl; [exact Hh|]; naive_solver).
  unfold NetAddr.split_at. rewrite !drop_0.
  assert (forall c, c = "["%char \/ c = "]"%char -> NetAddr.has_byte c (host ++ ":"%char :: port) = false) as Hb.
  { intros c Hc. apply has_byte_absent, Forall_app. split.
    - eapply Forall_impl; [exact Hh|]. naive_solver.
    - constructor; [naive_solver|]. apply Hport. by destruct Hc as [-> | ->]. }
  rewrite !Hb by tauto. do 3 f_equal. rewrite (cons_middle _ host), app_assoc.
  rewrite drop_app_length'; [done|]. rewrite length_app. simpl. lia.
Qed.

(** The text ["a.b.c.d:port"]. *)
Definition ipv4_listen (a b c d : Z) (port : text) : string := of_chars (NetAddr.dotted a b c d ++ ":"%char :: port).

Lemma dotted_chars a b c d : NetAddr.octet a -> NetAddr.octet b -> NetAddr.octet c -> NetAddr.octet d ->
  Forall (fun x => is_digit x = true \/ x = "."%char) (NetAddr.dotted a b c d) /\
  exists c0 t, NetAddr.dotted a b c d = c0 :: t /\ is_digit c0 = true.
Proof.
  intros [Ha _] [Hb _] [Hc _] [Hd _]. unfold NetAddr.dotted. split.
  - repeat (apply Forall_app; split); try (by constructor; [right|constructor]);
      (eapply Forall_impl; [by apply numeral_digits|]); intros x Hx; by left.
  - pose proof (numeral_digits a Ha) as Hdig. destruct (numeral a) as [|c0 t] eqn:E.
    + by destruct (NetAddr.numeral_starts a [] Ha); rewrite E.
    + apply Forall_cons in Hdig as [? _]. eexists c0, _. by split.
Qed.

(** An IPv4 listener without a token is on a loopback address. *)
Lemma guarded_ipv4 admin a b c d port :
  NetAddr.octet a -> NetAddr.octet b -> NetAddr.octet c -> NetAddr.octet d -> all_digits port -> port <> [] ->
  adm_Listen admin = ipv4_listen a b c d port -> adm_AuthToken admin = "" -> guarded admin -> a = 127.
Proof.
  intros Ha Hb Hc Hd Hp Hpne El Et. destruct (dotted_chars a b c d Ha Hb Hc Hd) as (Hdot & c0 & t & E & Hc0).
  assert (forall x, is_digit x = true -> Manifest.plain x = true) as Hplain
    by (intros; by apply Manifest.hex_plain, Manifest.digit_hex).
  destruct (exists_last Hpne) as (port' & p0 & Eport). assert (is_digit p0 = true) as Hp0.
  { rewrite Eport in Hp. apply Forall_app in Hp as [_ Hp]. by apply Forall_cons in Hp as [? _]. }
  assert (TrimSpace (adm_Listen admin) = adm_Listen admin) as Etrim.
  { rewrite El. unfold ipv4_listen. rewrite E, Eport.
    replace ((c0 :: t) ++ ":"%char :: port' ++ [p0]) with (c0 :: (t ++ ":"%char :: port') ++ [p0])
      by (cbn [app]; by rewrite <-app_assoc).
    apply Manifest.TrimSpace_plain; auto. }
  assert (TrimSpace (of_chars (NetAddr.dotted a b c d)) = of_chars (NetAddr.dotted a b c d)) as Etrim2.
  { destruct (@exists_last _ (numeral d)) as (d' & d0 & Ed).
    { rewrite <-(app_nil_r (numeral d)). apply NetAddr.numeral_starts, Hd. }
    pose proof (numeral_digits d (proj1 Hd)) as Hdd. rewrite Ed in Hdd. apply Forall_app in Hdd as [_ Hdd].
    apply Forall_cons in Hdd as [Hd0 _]. unfold NetAddr.dotted in *. rewrite Ed, !app_assoc in *.
    destruct (numeral a) as [|a0 ta] eqn:Ea; [by destruct (NetAddr.numeral_starts a [] (proj1 Ha)); rewrite Ea|].
    cbn [app]. apply Manifest.TrimSpace_plain; [|by apply Hplain].
    apply Hplain. cbn [app] in E. by injection E as -> _. }
  unfold guarded. rewrite Etrim. intros [H|[H|(host & p & Hs & Hl)]]; [done| |].
  - exfalso. rewrite El in H. unfold ipv4_listen in H. rewrite E in H. done.
  - rewrite El in Hs. unfold ipv4_listen in Hs. rewrite SplitHostPort_plain in Hs; [|..|done].
    2:{ eapply Forall_impl; [exact Hdot|]. intros x [Hx| ->]; [|done]. split_and!; intros ->; done. }
    injection Hs as <- <-. unfold isLoopbackHost in Hl. rewrite Etrim2 in Hl.
    destruct (NetAddr.ParseIP_dotted a b c d Ha Hb Hc Hd) as [Hip Hlo].
    rewrite Hip, Hlo in Hl. cbv zeta in Hl. case_bool_decide as E1.
    { exfalso. apply (f_equal chars) in E1. rewrite chars_of_chars in E1. rewrite E1 in E. by injection E as <- _. }
    case_bool_decide; [done|]. by apply Z.eqb_eq.
Qed.

(** *** Environment expansion *)

Definition render (seg : segment) : text :=
  match seg with Plain c => [c] | Ref n => ["$"; "{"]%char ++ n ++ ["}"%char] end.

Lemma take_name_app t n r : take_name t = (n, r) -> t = n ++ r.
Proof.
  revert n r. induction t as [|c t IH]; intros n r; cbn [take_name]; [by intros [= <- <-]|].
  destruct (name_char c); [|by intros [= <- <-]].
  destruct (take_name t) as [n' r']. intros [= <- <-]. cbn. f_equal. by apply IH.
Qed.

Lemma env_ref_app t n r : env_ref t = Some (n, r) -> t = render (Ref n) ++ r.
Proof.
  unfold env_ref. destruct t as [|c0 [|c1 [|c t]]]; try (repeat case_match; discriminate).
  destruct (name_start c) eqn:Ec; [|repeat case_match; discriminate].
  destruct (take_name t) as [n' [|c2 r']] eqn:E; [repeat case_match; discriminate|].
  apply take_name_app in E as ->. repeat case_match; intros; simplify_eq. cbn. by rewrite <-app_assoc.
Qed.

(** The segments are the text, none left out. *)
Lemma segments_render k t : (List.length t <= k)%nat -> flat_map render (segments k t) = t.
Proof.
  revert t. induction k as [|k IH]; intros [|c t] Hk; [done|simpl in Hk; lia|done|]. cbn [segments].
  destruct (env_ref (c :: t)) as [[n r]|] eqn:E.
  - apply env_ref_app in E. cbn [flat_map]. rewrite IH; [by rewrite E|].
    apply (f_equal (@List.length _)) in E. rewrite length_app in E. simpl in E, Hk. lia.
  - cbn [flat_map render app]. f_equal. apply IH. simpl in Hk. lia.
Qed.

Definition segments_of (s : string) : list segment := segments (List.length (chars s)) (chars s).

(** Expansion succeeds exactly when every referenced variable is set. *)
Lemma expandEnvStrict_ok env s out : expandEnvStrict env s = Ok out ->
  out = of_chars (expanded env (segments_of s)) /\
  forall n, Ref n ∈ segments_of s -> is_Some (env (of_chars n)).
Proof.
  unfold expandEnvStrict. fold (segments_of s). cbv zeta.
  destruct (missing env (segments_of s)) eqn:E; [|done]. intros [= <-]. split; [done|]. intros n Hn.
  destruct (env (of_chars n)) eqn:En; [by eexists|]. exfalso.
  assert (of_chars n ∈ missing env (segments_of s)) as Hin; [|rewrite E in Hin; by apply not_elem_of_nil in Hin].
  apply list_elem_of_In, in_flat_map. exists (Ref n). rewrite <-list_elem_of_In. split; [done|].
  rewrite En. by left.
Qed.

(** A variable that is set to the empty text makes an empty secret. *)
Lemma set_but_empty env : env "ADMIN_TOKEN" = Some "" -> expandEnvStrict env "${ADMIN_TOKEN}" = Ok "".
Proof.
  intros H. unfold expandEnvStrict.
  change (segments _ _) with [Ref (chars "ADMIN_TOKEN")]. unfold missing, expanded. cbn [flat_map].
  by rewrite of_chars_chars, H.
Qed.

(** *** What a loaded configuration guarantees *)

Lemma checked_secrets c dsn token : checked c -> checked (set_secrets c dsn token).
Proof. intros []. by split. Qed.

Lemma LoadConfig_ok h path cfg m : LoadConfig h path = Ok (cfg, m) ->
  exists data decoded dsn token,
    ReadFile h path = Some data /\ yaml_config h data = Some decoded /\
    cfg = set_secrets (set_dir decoded (Filepath.Dir path)) dsn token /\
    validate (set_dir decoded (Filepath.Dir path)) = [] /\
    expandEnvStrict (LookupEnv h) (sto_DSN (cf_Storage decoded)) = Ok dsn /\
    expandEnvStrict (LookupEnv h) (adm_AuthToken (cf_Admin decoded)) = Ok token /\
    guarded (cf_Admin cfg) /\ Manifest.LoadManifest (ReadFile h) (ManifestPath cfg) = Ok m /\
    ~ (sg_Kind (cf_Signer cfg) = "unsafe-local" /\ Manifest.nm_NetworkType m = "mainnet").
Proof.
  unfold LoadConfig. destruct (ReadFile h path) as [data|]; [|done].
  destruct (yaml_config h data) as [decoded|] eqn:Ey; [|done]. cbv zeta.
  destruct (validate (set_dir decoded _)) eqn:Ev; [|done].
  destruct (expandEnvStrict (LookupEnv h) (sto_DSN _)) as [dsn|] eqn:Ed; [|done].
  destruct (expandEnvStrict (LookupEnv h) (adm_AuthToken _)) as [token|] eqn:Et; [|done].
  destruct (validateAdminBinding _) as [[]|] eqn:Ea; [|done].
  destruct (Manifest.LoadManifest _ _) as [m'|] eqn:Em; [|done].
  destruct (bool_decide _ && bool_decide _) eqn:Eu; [done|]. intros [= <- <-].
  exists data, decoded, dsn, token. split_and!; try done; [by apply validateAdminBinding_guarded|].
  intros [H1 H2]. by rewrite !bool_decide_eq_true_2 in Eu.
Qed.


End config.
End AdapterConfig.
