(* ===== verification/ManifestTool.v ===== *)
(** * ManifestTool: generating and verifying network manifests

    [go/cmd/sovren-manifest]: the checked-in values ([static.go]), the rendering
    of [network.yaml] and its sidecars ([render.go]), the live reads with their
    retries ([live.go]), [generate] ([generate.go]) and the eleven rules of
    [verify] ([verify.go]).

    The state is the file system; the network is the calls: HTTP requests, TCP
    dials, the kit's own client ([Transport]) and the order in which Go iterates
    over a map.  Decoders and printers of JSON, [%q] and [url.Parse] are given
    ([ToolExt]).  A rule is its status, the texts of its details are left out.
    [EqualFold] folds ASCII letters, the only ones a denomination may have, and a
    write that fails leaves the file as it was. *)

From stdpp Require Import base list strings gmap.
From Stdlib Require Import ZArith Lia Ascii String.
From S2P Require Import Prelude Workers Text GoStrings NetAddr Storage Manifest Hash Chain Transport Tx AdapterConfig.
Import Manifest.
Import (notations) Tx.

Open Scope string_scope.
Open Scope list_scope.
Open Scope Z_scope.
Local Notation empty := GoStrings.empty.

Module ManifestTool.

(** ** The checked-in values ([static.go]) *)

Record staticNetwork : Type := MkStatic {
  sn_NetworkName : string; sn_NetworkType : string; sn_ChainID : string; sn_BootstrapRPC : string;
  sn_BootstrapREST : string; sn_CometBFTVersion : string; sn_IBCGoVersion : string; sn_WasmdVersion : string;
  sn_GoVersion : string; sn_SDKVersion : string; sn_RecommendedGasPrice : string;
  sn_RecommendedGasAdjustment : string; sn_GenesisSHA256 : string; sn_Seeds : list string;
  sn_PersistentPeers : list string; sn_Explorer : string; sn_Faucet : string; sn_Divergences : list string;
  sn_Blocked : string }.

Definition daemonName : string := "sovrd".
Definition nodeHome : string := "$HOME/.sovr".
Definition accountPrefix : string := "sovr".
Definition validatorOperatorPrefix : string := "sovrvaloper".
Definition validatorConsensusPrefix : string := "sovrvalcons".
Definition baseDenom : string := "usovr".
Definition displayDenom : string := "SOVR".
Definition displayExponent : Z := 6.
Definition symbol : string := "SOVR".
Definition accountKeyAlgorithm : string := "secp256k1".
Definition consensusKeyAlgorithm : string := "ed25519".
Definition slip44CoinType : Z := 118.

Definition staticMainnet : staticNetwork :=
  MkStatic "Sovren Mainnet" "mainnet" "sovr-1" "https://rpc.sovrchain.net" "https://api.sovrchain.net"
    "v0.38.23" "v10.5.0" "v0.60.7" "1.25.7" "v0.53.8" "0.025usovr" "1.5"
    "04529695e7ccfe32fcf3bc8031c343056d27cbe4aa3b3046027e27065bb9a855"
    ["381af5e4d0d5e24af3bb4d506b06081399622d01@seed1.mainnet.sovrchain.net:32000";
     "68d9058a5dd7062d72d917ae8f2a2e30101b5a74@seed2.mainnet.sovrchain.net:32001"]
    ["24ebffde61a15df70687df28d9d9259dcb4beb64@sentry1a.mainnet.sovrchain.net:32200";
     "6ee852fb24a636109f49a6b7184c8533d60d71ae@sentry1b.mainnet.sovrchain.net:32201";
     "f9f287196905f574334d87370ee28369814a01eb@sentry2a.mainnet.sovrchain.net:32220";
     "d41608b237019c09281c9542bbe90532b03b65ea@sentry2b.mainnet.sovrchain.net:32221";
     "b8c805f050e090edf52fcd5169e239826ffb21a5@sentry3a.mainnet.sovrchain.net:32240";
     "a49544b198f062c893b849a37389a227a51b40d4@sentry3b.mainnet.sovrchain.net:32241";
     "56715ebd90a2fec02dd7752e4b6e0c740de8fe94@archive1.mainnet.sovrchain.net:32101"]
    "https://sovrscan.com" "" [] "".

Definition staticTestnet : staticNetwork :=
  MkStatic "Sovren Testnet" "testnet" "test-sovr-1" "https://rpc.testnet.sovrchain.net"
    "https://api.testnet.sovrchain.net" "v0.38.23" "v10.5.0" "v0.60.7" "1.25.7" "v0.53.8" "0.025usovr" "1.5"
    "5eb3be46b3020ffc9105be09fdaed874cad0f6e9110aaa58053d72711c8aef40"
    ["d5e5770e1198b6ab66dcf7bfadb90610e82bf6cd@seed1.testnet.sovrchain.net:32000";
     "c24ded42a0026b4d912d8576b3d84d3c690b2d02@seed2.testnet.sovrchain.net:32001"]
    ["2dae62e74b0b175e7d905eeaca530464de8d8183@sentry1a.testnet.sovrchain.net:32200";
     "5a5dca65a8fa75d66a65eca470d2c88d3c1c2703@sentry1b.testnet.sovrchain.net:32201";
     "70ac5c238c5f83d6ef7480f64ec5c22d29364797@sentry2a.testnet.sovrchain.net:32220";
     "c5385795047ac6a11d3328362033721ed3213657@sentry2b.testnet.sovrchain.net:32221";
     "8cfacb1a936e3b848923a6fe631690336dc7717e@sentry3a.testnet.sovrchain.net:32240";
     "dbf89f924f158c77222343d322e57eb1042b0a4c@sentry3b.testnet.sovrchain.net:32241";
     "01e7a0fa3c7a8e7d0d96673d7a3127b2b9912228@archive1.testnet.sovrchain.net:32101"]
    "" "https://faucet.testnet.sovrchain.net"
    ["All P2P bootstrap names (seeds and sentries) currently resolve to a single host; mainnet fronts its P2P layer with load-balanced infrastructure. Reduced bootstrap redundancy is expected on testnet."]
    "".

Definition staticFor (network : string) : option staticNetwork :=
  if bool_decide (network = "mainnet") then Some staticMainnet
  else if bool_decide (network = "testnet") then Some staticTestnet
  else None.

(** ** What the tool is given *)

(** [node_info] of the REST interface, a chain-registry asset, and the metadata of
    a denomination (a unit may be nil). *)
Record nodeInfoPayload : Type := MkPayload {
  np_Network : string; np_Version : string; np_SDKVersion : string; np_GoVersion : string;
  np_BuildDeps : list (string * string) }.
Record registryAsset : Type := MkAsset {
  ra_Base : string; ra_Display : string; ra_Symbol : string; ra_DenomUnits : list (string * Z) }.
Record registryChain : Type := MkRegChain {
  rc_ChainID : string; rc_Bech32Prefix : string; rc_Slip44 : Z; rc_DaemonName : string }.
Record Metadata : Type := MkMetadata {
  md_Base : string; md_Display : string; md_Symbol : string; md_DenomUnits : list (option (string * Z)) }.

Class ToolExt : Type := {
  Quote : string -> string;                                   (* %q *)
  url_scheme : string -> option string;                       (* url.Parse *)
  new_request : string -> bool;                               (* http.NewRequestWithContext *)
  json_status : bytes -> option (string * string);            (* node_info.network, node_info.version *)
  json_node_info : bytes -> option nodeInfoPayload;
  json_validators : bytes -> option (list string);
  json_chain : bytes -> option registryChain;
  json_assets : bytes -> option (list registryAsset);
  json_endpoints : string -> list ManifestEndpoint -> string -> option bytes }.  (* json.MarshalIndent *)

(** What a GET comes back with: nothing, or a status and the body unless reading
    it fails. *)
Inductive http : Type := NoAnswer | Answer (status : Z) (body : option bytes).

Inductive call : Type -> Type :=
| Get (url : string) : call http
| Dial (addr : string) : call bool
| KitNodeStatus (rpcURL : string) : call (result err NodeStatus)
| KitGlobalFee (rpcURL : string) : call (result err (list (string * string)))   (* denom, amount *)
| KitDenomMetadata (rpcURL denom : string) : call (result err (option Metadata))
| Iterate (m : gmap string string) : call (list (string * string))              (* range over a map *)
| Writable (path : string) : call bool.

(** A path is a file, something that cannot be read, or a directory. *)
Inductive entry : Type := File (data : bytes) | Unreadable | Directory.
Notation disk := (gmap string entry).
Notation tool := (prog disk call).

Definition fs_read {A} (f : disk -> A) : tool A := Txn (fun s => (f s, s)) Done.

Inductive read_error : Type := NotExist | OtherError.
Definition ReadFile (path : string) : tool (result read_error bytes) :=
  fs_read (fun s => match s !! path with
                    | Some (File data) => Ok data
                    | None => Err NotExist
                    | _ => Err OtherError
                    end).
Definition IsDir (path : string) : tool bool := 
  fs_read (fun s => match s !! path with Some Directory => true | _ => false end).
Definition WriteFile (path : string) (data : bytes) : tool bool :=
  let* ok := ask (Writable path) in
  if ok : bool then Txn (fun s => (true, <[path := File data]> s)) Done else Done false.

Section tool.
Context `{X : Ext, ME : ManifestExt, E : ToolExt}.

(** ** Texts *)

Definition to_bytes (s : string) : bytes := list_byte_of_string s.
Definition newline : string := String "010"%char "".
Fixpoint Join (l : list string) (sep : string) : string :=
  match l with [] => "" | [x] => x | x :: l' => x +:+ sep +:+ Join l' sep end.

(** [strings.TrimRight] of one character. *)
Fixpoint trim_char (c : ascii) (t : text) : text :=
  match t with x :: t' => if is_char c x then trim_char c t' else t | [] => [] end.
Definition TrimRight (s : string) (c : ascii) : string := of_chars (rev (trim_char c (rev (chars s)))).
Definition TrimPrefix (s p : string) : string :=
  if GoStrings.HasPrefix s p then of_chars (drop (List.length (chars p)) (chars s)) else s.

Definition trimDec (s : string) : string :=
  if negb (GoStrings.Contains s ".") then s else GoStrings.TrimSuffix (TrimRight s "0") ".".

Definition versionsEqual (a b : string) : bool := bool_decide (TrimPrefix a "v" = TrimPrefix b "v").

(** [strings.Split] at dots. *)
Fixpoint split_dots (t : text) : list text :=
  match t with
  | [] => [[]]
  | c :: t' => if is_char "."%char c then [] :: split_dots t'
               else match split_dots t' with p :: ps => (c :: p) :: ps | [] => [[c]] end
  end.
Definition minorLine (v : string) : option string :=
  match split_dots (chars (TrimPrefix v "v")) with
  | major :: minor :: _ => Some (of_chars (major ++ ["."%char] ++ minor))
  | _ => None
  end.

(** [\d+\.\d+(?:\.\d+)?] at the beginning of a text. *)
Fixpoint digits (t : text) : text * text :=
  match t with
  | c :: t' => if is_digit c then let '(a, b) := digits t' in (c :: a, b) else ([], t)
  | [] => ([], [])
  end.
Definition dot_digits (t : text) : option (text * text) :=
  match t with
  | "."%char :: t' => match digits t' with ([], _) => None | (d, r) => Some ("."%char :: d, r) end
  | _ => None
  end.
Definition version_at (t : text) : option text :=
  match digits t with
  | ([], _) => None
  | (a, r) =>
      match dot_digits r with
      | None => None
      | Some (b, r') => Some (a ++ b ++ match dot_digits r' with Some (c, _) => c | None => [] end)
      end
  end.
(** The leftmost match: of [goVersionRE]'s group, and of [bareVersionRE]. *)
Fixpoint find_go (t : text) : option text :=
  match (if GoStrings.starts t (chars "go") then version_at (drop 2 t) else None) with
  | Some v => Some v
  | None => match t with _ :: t' => find_go t' | [] => None end
  end.
Fixpoint find_bare (t : text) : option text :=
  match version_at t with
  | Some v => Some v
  | None => match t with _ :: t' => find_bare t' | [] => None end
  end.
Definition extractGoVersion (s : string) : string :=
  match find_go (chars s) with
  | Some v => of_chars v
  | None => match find_bare (chars s) with Some v => of_chars v | None => GoStrings.TrimSpace s end
  end.

(** ** Rendering ([render.go]) *)

Definition sharedGatewayMarker : string := "NOTE(shared-gateway)".
Definition sharedGatewayNote : string :=
  "  # " +:+ sharedGatewayMarker +:+ ": both Sovren bootstrap endpoints are fronted by the" +:+ newline +:+
  "  # same gateway today; exchange-run nodes are the mandated redundancy path for" +:+ newline +:+
  "  # custody-critical operations (FR-006/FR-013). An infrastructure-independent" +:+ newline +:+
  "  # second provider entry is added when plan D12 lands.".

Definition distinctProviders (eps : list ManifestEndpoint) : nat :=
  size (list_to_set (map ep_Provider eps) : gset string).

Definition nullableLink (v : option string) : string := match v with None => "null" | Some u => Quote u end.

Definition int (n : Z) : string := Tx.int_String n.

Definition yaml_lines (m : NetworkManifest) : list string :=
  ["# Sovren network manifest — contracts/network-manifest.md, schema_version " +:+ int (nm_SchemaVersion m) +:+ ".";
   "# Generated by sovren-manifest; regenerate instead of editing by hand.";
   "schema_version: " +:+ int (nm_SchemaVersion m);
   "network_name: " +:+ nm_NetworkName m;
   "network_type: " +:+ nm_NetworkType m;
   "chain_id: " +:+ nm_ChainID m;
   "daemon_name: " +:+ nm_DaemonName m;
   "node_home: " +:+ nm_NodeHome m;
   "account_prefix: " +:+ nm_AccountPrefix m;
   "validator_operator_prefix: " +:+ nm_ValidatorOperatorPrefix m;
   "validator_consensus_prefix: " +:+ nm_ValidatorConsensusPrefix m;
   "base_denom: " +:+ nm_BaseDenom m;
   "display_denom: " +:+ nm_DisplayDenom m;
   "display_exponent: " +:+ int (nm_DisplayExponent m);
   "symbol: " +:+ nm_Symbol m;
   "account_key_algorithm: " +:+ nm_AccountKeyAlgorithm m;
   "consensus_key_algorithm: " +:+ nm_ConsensusKeyAlgorithm m;
   "slip44_coin_type: " +:+ int (nm_Slip44CoinType m);
   "versions:";
   "  # sdk/app verified against live REST node_info; cometbft/ibc_go/cosmwasm/go";
   "  # pinned from the release go.mod (rule 2 — the live CometBFT line version";
   "  # may lag within the same minor line; skew is recorded, never hidden).";
   "  sdk: " +:+ mv_SDK (nm_Versions m);
   "  cometbft: " +:+ mv_CometBFT (nm_Versions m);
   "  ibc_go: " +:+ mv_IBCGo (nm_Versions m);
   "  cosmwasm_wasmd: " +:+ mv_CosmwasmWasmd (nm_Versions m);
   "  go: " +:+ Quote (mv_Go (nm_Versions m));
   "  app: " +:+ mv_App (nm_Versions m);
   "fees:";
   "  # minimum_gas_price mirrors the live x/globalfee floor (rule 3).";
   "  minimum_gas_price: " +:+ Quote (mf_MinimumGasPrice (nm_Fees m));
   "  recommended_gas_price: " +:+ Quote (mf_RecommendedGasPrice (nm_Fees m));
   "  recommended_gas_adjustment: " +:+ Quote (mf_RecommendedGasAdjustment (nm_Fees m));
   "ports: { p2p: " +:+ int (mp_P2P (nm_Ports m)) +:+ ", rpc: " +:+ int (mp_RPC (nm_Ports m)) +:+ ", grpc: " +:+
     int (mp_GRPC (nm_Ports m)) +:+ ", rest: " +:+ int (mp_REST (nm_Ports m)) +:+ ", metrics: " +:+
     int (mp_Metrics (nm_Ports m)) +:+ " }";
   "genesis:";
   "  sha256: " +:+ mg_SHA256 (nm_Genesis m);
   "  # genesis file injected next to this manifest at export.";
   "  file: " +:+ mg_File (nm_Genesis m);
   "endpoints:"] ++
  (if (distinctProviders (nm_Endpoints m) <? 2)%nat then [sharedGatewayNote] else []) ++
  map (fun ep => "  - { kind: " +:+ ep_Kind ep +:+ ", url: " +:+ Quote (ep_URL ep) +:+ ", provider: " +:+ ep_Provider ep +:+ " }")
    (nm_Endpoints m) ++
  ["peers:"; "  # DNS names only — raw IPs forbidden on both networks (rule 6)."; "  seeds:"] ++
  map (fun s => "    - " +:+ Quote s) (pe_Seeds (nm_Peers m)) ++
  ["  persistent_peers:"] ++
  map (fun s => "    - " +:+ Quote s) (pe_PersistentPeers (nm_Peers m)) ++
  ["links:";
   "  explorer: " +:+ Quote (ml_Explorer (nm_Links m));
   "  faucet: " +:+ nullableLink (ml_Faucet (nm_Links m));
   "  status_page: " +:+ nullableLink (ml_StatusPage (nm_Links m));
   "  registry_dir: " +:+ ml_RegistryDir (nm_Links m)] ++
  (if bool_decide (nm_NetworkType m = "testnet")
   then "divergences:" :: map (fun d => "  - " +:+ Quote d) (nm_Divergences m)
   else ["divergences: []"]).
Definition renderManifestYAML (m : NetworkManifest) : bytes :=
  to_bytes (foldr (fun l acc => l +:+ newline +:+ acc) "" (yaml_lines m)).

Definition renderGenesisSHA256 (m : NetworkManifest) : bytes :=
  to_bytes (mg_SHA256 (nm_Genesis m) +:+ "  " +:+ mg_File (nm_Genesis m) +:+ newline).
Definition renderPeersTxt (m : NetworkManifest) : bytes :=
  to_bytes ("# Generated from network.yaml by sovren-manifest; do not edit." +:+ newline +:+
            "SEEDS=" +:+ Join (pe_Seeds (nm_Peers m)) "," +:+ newline +:+
            "PERSISTENT_PEERS=" +:+ Join (pe_PersistentPeers (nm_Peers m)) "," +:+ newline).
Definition renderEndpointsJSON (m : NetworkManifest) : option bytes :=
  match json_endpoints (nm_ChainID m) (nm_Endpoints m) (ml_Explorer (nm_Links m)) with
  | Some out => Some (out ++ to_bytes newline)
  | None => None
  end.

(** ** Live reads ([live.go]) *)

Definition httpAttempts : nat := 3.

Inductive herr : Type := Transient | Permanent.

(** [withRetries]: the context is never done, so every wait is waited. *)
Fixpoint retry {A} (attempts : nat) (fn : tool (result herr A)) : tool (result herr A) :=
  match attempts with
  | O => Done (Err Transient)
  | S n =>
      let* r := fn in
      match r with
      | Ok a => Done (Ok a)
      | Err Permanent => Done (Err Permanent)
      | Err Transient => match n with O => Done (Err Transient) | S _ => retry n fn end
      end
  end.
Definition withRetries {A} (fn : tool (result herr A)) : tool (result herr A) := retry httpAttempts fn.

(** One request, to the status checks. *)
Definition request (url : string) : tool (result herr (option bytes)) :=
  if negb (new_request url) then Done (Err Permanent)
  else
    let* r := ask (Get url) in
    Done (match r with
          | NoAnswer => Err Transient
          | Answer status body =>
              if 500 <=? status then Err Transient else if 400 <=? status then Err Permanent else Ok body
          end).

Definition limit : nat := Z.to_nat (8 * 2 ^ 20).
Definition getJSON {A} (decode : bytes -> option A) (url : string) : tool (result herr A) :=
  withRetries (let? body := request url in
               Done (match body with
                     | None => Err Transient
                     | Some b => match decode (take limit b) with Some a => Ok a | None => Err Permanent end
                     end)).
Definition checkLink (url : string) : tool bool :=
  let* r := withRetries (let? _ := request url in Done (Ok tt)) in
  Done (match r with Ok _ => true | Err _ => false end).

Record rpcStatus : Type := MkRpcStatus { rs_ChainID : string; rs_CometBFTVersion : string }.
Definition fetchRPCStatus (rpcURL : string) : tool (option rpcStatus) :=
  let* r := getJSON json_status (TrimRight rpcURL "/" +:+ "/status") in
  Done (match r with
        | Err _ => None
        | Ok (network, version) => if empty network then None else Some (MkRpcStatus network version)
        end).

Record restNodeInfo : Type := MkNodeInfo {
  ni_ChainID : string; ni_AppVersion : string; ni_SDKVersion : string; ni_GoVersion : string;
  ni_BuildDeps : gmap string string }.
(** A later entry of the same module replaces an earlier one. *)
Definition deps_of (l : list (string * string)) : gmap string string :=
  foldl (fun deps d => if empty (fst d) then deps else <[fst d := snd d]> deps) ∅ l.
Definition fetchRESTNodeInfo (restURL : string) : tool (option restNodeInfo) :=
  let* r := getJSON json_node_info (TrimRight restURL "/" +:+ "/cosmos/base/tendermint/v1beta1/node_info") in
  Done (match r with
        | Err _ => None
        | Ok p => if empty (np_Version p) then None
                  else Some (MkNodeInfo (np_Network p) (np_Version p) (np_SDKVersion p) (np_GoVersion p) (deps_of (np_BuildDeps p)))
        end).

(** [buildDep]: the first match in the order Go iterates in. *)
Definition buildDep (ni : restNodeInfo) (pathPrefix : string) : tool (option string) :=
  let* l := ask (Iterate (ni_BuildDeps ni)) in
  Done (option_map snd (List.find (fun e => GoStrings.HasPrefix (fst e) pathPrefix) l)).

(** One dependency: the problems it adds. *)
Definition checkDep (ni : restNodeInfo) (label pathPrefix want : string) : tool (list string) :=
  if bool_decide (ni_BuildDeps ni = ∅) then Done []
  else
    let* got := buildDep ni pathPrefix in
    Done (match got with
          | None => []
          | Some v => if versionsEqual want v then [] else [label]
          end).
Definition go_problems (goPin live : string) : list string :=
  let lg := extractGoVersion live in
  if empty lg then []
  else match minorLine goPin, minorLine lg with
       | None, _ => ["go"]
       | _, None => ["go"]
       | Some ml, Some ll => if bool_decide (ml = ll) then [] else ["go"]
       end.
Definition checkLiveBuildDeps (ibcGoPin wasmdPin goPin : string) (ni : restNodeInfo) : tool (list string) :=
  let* a := checkDep ni "ibc_go" "github.com/cosmos/ibc-go/" ibcGoPin in
  let* b := checkDep ni "cosmwasm_wasmd" "github.com/CosmWasm/wasmd" wasmdPin in
  Done (a ++ b ++ go_problems goPin (ni_GoVersion ni)).

(** Through the kit's client; [None] when it cannot be built or the call fails. *)
Definition through {A B} (rpcURL : string) (c : string -> call (result err A)) (f : A -> option B) : tool (option B) :=
  match Transport.NewCometRPC url_scheme rpcURL with
  | None => Done None
  | Some base => let* r := ask (c base) in Done (match r with Ok a => f a | Err _ => None end)
  end.
Definition fetchGlobalFeeFloor (rpcURL : string) : tool (option string) :=
  through rpcURL KitGlobalFee
    (fun prices => match prices with [(denom, amount)] => Some (trimDec amount +:+ denom) | _ => None end).
Definition fetchLiveChainID (rpcURL : string) : tool (option string) :=
  through rpcURL KitNodeStatus (fun st => Some (ns_ChainID st)).

Definition fetchLiveOperatorPrefix (restURL : string) : tool (option string) :=
  let* r := getJSON json_validators
    (TrimRight restURL "/" +:+ "/cosmos/staking/v1beta1/validators?status=BOND_STATUS_BONDED&pagination.limit=1") in
  Done (match r with
        | Ok (oper :: _) =>
            if empty oper then None
            else match bech32_DecodeAndConvert oper with Ok (hrp, _) => Some hrp | Err _ => None end
        | _ => None
        end).

(** [peerHostPort]: what follows the first at sign, if its host is a DNS name. *)
Fixpoint after_at (t : text) : option text :=
  match t with [] => None | c :: t' => if is_char "@"%char c then Some t' else after_at t' end.
Definition peerHostPort (peer : string) : option string :=
  match after_at (chars peer) with
  | None => None
  | Some addr =>
      match NetAddr.SplitHostPort (of_chars addr) with
      | Err _ => None
      | Ok (host, _) =>
          if bool_decide (is_Some (NetAddr.ParseIP host)) then None
          else if GoStrings.Contains host "." then Some (of_chars addr) else None
      end
  end.

(** [dialPeers]: whether every address can be dialled; the order is immaterial. *)
Fixpoint dialPeers (addrs : list string) : tool bool :=
  match addrs with
  | [] => Done true
  | a :: addrs' =>
      let* ok := ask (Dial a) in
      let* rest := dialPeers addrs' in
      Done ((ok : bool) && rest)
  end.

(** ** [generate] ([generate.go]) *)

Definition optionalURL (s : string) : option string := if empty s then None else Some s.
Definition manifestFromStatic (st : staticNetwork) (appVersion minGasPrice : string) : NetworkManifest :=
  MkManifest SupportedManifestSchemaMajor (sn_NetworkName st) (sn_NetworkType st) (sn_ChainID st) daemonName nodeHome
    accountPrefix validatorOperatorPrefix validatorConsensusPrefix baseDenom displayDenom displayExponent symbol
    accountKeyAlgorithm consensusKeyAlgorithm slip44CoinType
    (MkVersions (sn_SDKVersion st) (sn_CometBFTVersion st) (sn_IBCGoVersion st) (sn_WasmdVersion st) (sn_GoVersion st) appVersion)
    (MkFees minGasPrice (sn_RecommendedGasPrice st) (sn_RecommendedGasAdjustment st))
    (MkPorts 26656 26657 9090 1317 26660)
    (MkGenesis (sn_GenesisSHA256 st) "genesis.json")
    [MkEndpoint "rpc" (sn_BootstrapRPC st) "sovren"; MkEndpoint "rest" (sn_BootstrapREST st) "sovren"]
    (MkPeers (sn_Seeds st) (sn_PersistentPeers st))
    (MkLinks (sn_Explorer st) (optionalURL (sn_Faucet st)) None "registry/")
    (sn_Divergences st).

Record generateResult : Type := MkGenerated {
  ge_Network : string; ge_ChainID : string; ge_Files : list string; ge_AppVersion : string; ge_MinimumGasPrice : string;
  ge_CometBFTLineSkew : bool }.

Definition override (v default : string) : string := if empty v then default else v.

(** Whether the version of a running node is on the pinned minor line, and
    whether it differs. *)
Definition line_skew (pin live : string) : option bool :=
  if versionsEqual live pin then Some false
  else match minorLine pin, minorLine live with
       | Some a, Some b => if bool_decide (a = b) then Some true else None
       | _, _ => None
       end.

(** The files, in the order they are written; the directory that [MkdirAll] makes
    has no entry of its own. *)
Fixpoint write_all (outDir : string) (files : list (string * bytes)) : tool (option (list string)) :=
  match files with
  | [] => Done (Some [])
  | (name, data) :: files' =>
      let path := Filepath.Join outDir name in
      let* ok := WriteFile path data in
      if ok : bool then
        let* rest := write_all outDir files' in
        Done (option_map (cons path) rest)
      else Done None
  end.

Definition runGenerate (network outDir rpcOverride restOverride : string) : tool (option generateResult) :=
  match staticFor network with
  | None => Done None
  | Some st =>
      if negb (empty (sn_Blocked st)) then Done None
      else
        let rpcURL := override rpcOverride (sn_BootstrapRPC st) in
        let restURL := override restOverride (sn_BootstrapREST st) in
        let* liveID := fetchLiveChainID rpcURL in
        if negb (bool_decide (liveID = Some (sn_ChainID st))) then Done None
        else
          let* ni := fetchRESTNodeInfo restURL in
          match ni with
          | None => Done None
          | Some ni =>
              if negb (versionsEqual (ni_SDKVersion ni) (sn_SDKVersion st)) then Done None
              else
                let* floor := fetchGlobalFeeFloor rpcURL in
                match floor with
                | None => Done None
                | Some floor =>
                    let* status := fetchRPCStatus rpcURL in
                    match status with
                    | None => Done None
                    | Some status =>
                        match line_skew (sn_CometBFTVersion st) (rs_CometBFTVersion status) with
                        | None => Done None
                        | Some skew =>
                            let rendered := renderManifestYAML (manifestFromStatic st (ni_AppVersion ni) floor) in
                            match ParseManifest rendered with
                            | Err _ => Done None
                            | Ok parsed =>
                                let* made := ask (Writable outDir) in
                                if negb made then Done None
                                else
                                  match renderEndpointsJSON parsed with
                                  | None => Done None
                                  | Some endpoints =>
                                      let* files := write_all outDir
                                        [("network.yaml", rendered); ("genesis.sha256", renderGenesisSHA256 parsed);
                                         ("peers.txt", renderPeersTxt parsed); ("endpoints.json", endpoints)] in
                                      Done (option_map (fun files =>
                                        MkGenerated network (sn_ChainID st) files (ni_AppVersion ni) floor skew) files)
                                  end
                            end
                        end
                    end
                end
          end
  end.

(** ** [verify] ([verify.go]) *)

Inductive ruleStatus : Type := rulePass | ruleFail | ruleSkip.
Record ruleResult : Type := MkRule { rr_Rule : Z; rr_Status : ruleStatus }.

Record verifyReport : Type := MkReport {
  vr_Network : string; vr_ChainID : string; vr_Live : bool; vr_Rules : list ruleResult; vr_CometBFTLineSkew : bool;
  vr_Pass : bool }.

Record verifier : Type := MkVerifier {
  v_manifestPath : string; v_genesisPath : string; v_offline : bool; v_m : NetworkManifest; v_raw : bytes;
  v_st : staticNetwork }.

Definition first_of (kind : string) (v : verifier) (fallback : string) : string :=
  match List.find (fun ep => bool_decide (ep_Kind ep = kind)) (nm_Endpoints (v_m v)) with
  | Some ep => ep_URL ep
  | None => fallback
  end.
Definition rpcEndpoint (v : verifier) : string := first_of "rpc" v (sn_BootstrapRPC (v_st v)).
Definition restEndpoint (v : verifier) : string := first_of "rest" v (sn_BootstrapREST (v_st v)).

(** PASS exactly when there are no problems. *)
Definition judged (problems : list string) : ruleStatus := match problems with [] => rulePass | _ => ruleFail end.
Definition passed (b : bool) : ruleStatus := if b then rulePass else ruleFail.

Definition rule1 (v : verifier) : tool ruleStatus :=
  if negb (bool_decide (nm_ChainID (v_m v) = sn_ChainID (v_st v))) then Done ruleFail
  else if v_offline v then Done ruleSkip
  else
    let* liveID := fetchLiveChainID (rpcEndpoint v) in
    Done (passed (bool_decide (liveID = Some (nm_ChainID (v_m v))))).

(** The pins of the version block. *)
Definition pin (label got want : string) : list string := if versionsEqual got want then [] else [label].
Definition pins (v : verifier) : list string :=
  let vs := nm_Versions (v_m v) in let st := v_st v in
  pin "cometbft" (mv_CometBFT vs) (sn_CometBFTVersion st) ++ pin "ibc_go" (mv_IBCGo vs) (sn_IBCGoVersion st) ++
  pin "cosmwasm_wasmd" (mv_CosmwasmWasmd vs) (sn_WasmdVersion st) ++ pin "go" (mv_Go vs) (sn_GoVersion st) ++
  pin "sdk" (mv_SDK vs) (sn_SDKVersion st).
Definition live_versions (v : verifier) : tool (list string) :=
  let vs := nm_Versions (v_m v) in
  let* ni := fetchRESTNodeInfo (restEndpoint v) in
  match ni with
  | None => Done ["node_info"]
  | Some ni =>
      let* p := checkLiveBuildDeps (mv_IBCGo vs) (mv_CosmwasmWasmd vs) (mv_Go vs) ni in
      Done (pin "app" (mv_App vs) (ni_AppVersion ni) ++ pin "sdk" (mv_SDK vs) (ni_SDKVersion ni) ++ p)
  end.
(** The problems of the CometBFT line, and whether its skew is recorded. *)
Definition live_line (v : verifier) : tool (list string * bool) :=
  let pinned := mv_CometBFT (nm_Versions (v_m v)) in
  let* status := fetchRPCStatus (rpcEndpoint v) in
  Done (match status with
        | None => (["status"], false)
        | Some st =>
            match minorLine pinned, minorLine (rs_CometBFTVersion st) with
            | Some a, Some b =>
                if negb (bool_decide (a = b)) then (["cometbft"], false)
                else ([], negb (versionsEqual pinned (rs_CometBFTVersion st)))
            | _, _ => (["cometbft"], false)
            end
        end).
Definition rule2 (v : verifier) : tool (ruleStatus * bool) :=
  if v_offline v then Done (match pins v with [] => ruleSkip | _ => ruleFail end, false)
  else
    let* live := live_versions v in
    let* line := live_line v in
    Done (judged (pins v ++ live ++ fst line), snd line).

Definition rule3 (v : verifier) : tool ruleStatus :=
  if v_offline v then Done ruleSkip
  else
    let* live := fetchGlobalFeeFloor (rpcEndpoint v) in
    Done (passed (bool_decide (live = Some (mf_MinimumGasPrice (nm_Fees (v_m v)))))).

(** [hex.EncodeToString(sha256.Sum256(data))] *)
Definition sha256_hex (data : bytes) : string := of_chars (map GoStrings.lower (chars (Hash.HexUpper (Hash.Sum256 data)))).
Definition genesis_path (v : verifier) : string :=
  if empty (v_genesisPath v) then Filepath.Join (Filepath.Dir (v_manifestPath v)) (mg_File (nm_Genesis (v_m v)))
  else v_genesisPath v.
Definition rule4 (v : verifier) : tool ruleStatus :=
  if negb (bool_decide (mg_SHA256 (nm_Genesis (v_m v)) = sn_GenesisSHA256 (v_st v))) then Done ruleFail
  else
    let* data := ReadFile (genesis_path v) in
    Done (match data with
          | Err NotExist => passed (empty (v_genesisPath v))
          | Err OtherError => ruleFail
          | Ok data => passed (bool_decide (sha256_hex data = mg_SHA256 (nm_Genesis (v_m v))))
          end).

(** One endpoint of rule 5; a gRPC endpoint is not probed. *)
Definition probe (v : verifier) (ep : ManifestEndpoint) : tool (list string) :=
  if bool_decide (ep_Kind ep = "rpc") then
    let* st := fetchRPCStatus (ep_URL ep) in
    Done (match st with
          | Some st => if bool_decide (rs_ChainID st = nm_ChainID (v_m v)) then [] else [ep_URL ep]
          | None => [ep_URL ep]
          end)
  else if bool_decide (ep_Kind ep = "rest") then
    let* ni := fetchRESTNodeInfo (ep_URL ep) in
    Done (match ni with
          | Some ni => if bool_decide (ni_ChainID ni = nm_ChainID (v_m v)) then [] else [ep_URL ep]
          | None => [ep_URL ep]
          end)
  else Done [].
Fixpoint gather {A} (f : A -> tool (list string)) (l : list A) : tool (list string) :=
  match l with
  | [] => Done []
  | a :: l' => let* p := f a in let* ps := gather f l' in Done (p ++ ps)
  end.
Definition noted (v : verifier) : bool := GoStrings.Contains (string_of_list_byte (v_raw v)) sharedGatewayMarker.
Definition rule5 (v : verifier) : tool ruleStatus :=
  let eps := nm_Endpoints (v_m v) in
  if (List.length eps <? 2)%nat then Done ruleFail
  else if (distinctProviders eps <? 2)%nat && negb (noted v) then Done ruleFail
  else if v_offline v then Done ruleSkip
  else let* problems := gather (probe v) eps in Done (judged problems).

Definition peers (v : verifier) : list string := pe_Seeds (nm_Peers (v_m v)) ++ pe_PersistentPeers (nm_Peers (v_m v)).
Definition rule6 (v : verifier) : tool ruleStatus :=
  match mapM peerHostPort (peers v) with
  | None => Done ruleFail
  | Some addrs =>
      if v_offline v then Done ruleSkip
      else let* ok := dialPeers addrs in Done (passed ok)
  end.

(** The links that are set. *)
Definition links (v : verifier) : list string :=
  let l := nm_Links (v_m v) in
  (if empty (ml_Explorer l) then [] else [ml_Explorer l]) ++
  match ml_Faucet l with Some u => [u] | None => [] end ++
  match ml_StatusPage l with Some u => [u] | None => [] end.
Definition link_problem (url : string) : tool (list string) :=
  let* ok := checkLink url in Done (if ok : bool then [] else [url]).
Definition rule7 (v : verifier) : tool ruleStatus :=
  if v_offline v then Done ruleSkip
  else let* problems := gather link_problem (links v) in Done (judged problems).

(** *** Rule 9: the registry and the denomination on chain *)

Definition registryDisplayExponent (units : list (string * Z)) (display : string) : option Z :=
  option_map snd (List.find (fun u => GoStrings.EqualFold (fst u) display) units).
Definition exponent_problem (e : option Z) (m : NetworkManifest) : list string :=
  match e with Some x => if x =? nm_DisplayExponent m then [] else ["exponent"] | None => ["exponent"] end.
Definition differ (b : bool) (label : string) : list string := if b then [] else [label].

Definition asset_problems (m : NetworkManifest) (assets : list registryAsset) : list string :=
  match List.find (fun a => bool_decide (ra_Base a = nm_BaseDenom m)) assets with
  | None => ["base"]
  | Some a =>
      differ (GoStrings.EqualFold (ra_Display a) (nm_DisplayDenom m)) "display" ++
      differ (bool_decide (ra_Symbol a = nm_Symbol m)) "symbol" ++
      exponent_problem (registryDisplayExponent (ra_DenomUnits a) (ra_Display a)) m
  end.
Definition assetlistProblems (v : verifier) (dir : string) : tool (list string) :=
  let* data := ReadFile (Filepath.Join dir "assetlist.json") in
  Done (match data with
        | Err _ => ["assetlist"]
        | Ok data => match json_assets data with None => ["assetlist"] | Some l => asset_problems (v_m v) l end
        end).

Definition onChainDisplayExponent (units : list (option (string * Z))) (display : string) : option Z :=
  match List.find (fun u => match u with Some u => GoStrings.EqualFold (fst u) display | None => false end) units with
  | Some (Some u) => Some (snd u)
  | _ => None
  end.
Definition onChainMetadataMismatches (md : Metadata) (m : NetworkManifest) : list string :=
  differ (bool_decide (md_Base md = nm_BaseDenom m)) "base" ++
  differ (GoStrings.EqualFold (md_Display md) (nm_DisplayDenom m)) "display" ++
  differ (bool_decide (md_Symbol md = nm_Symbol m)) "symbol" ++
  exponent_problem (onChainDisplayExponent (md_DenomUnits md) (md_Display md)) m.
Definition checkOnChainDenomMetadata (v : verifier) : tool bool :=
  match Transport.NewCometRPC url_scheme (rpcEndpoint v) with
  | None => Done false
  | Some base =>
      let* r := ask (KitDenomMetadata base (nm_BaseDenom (v_m v))) in
      Done (match r with
            | Ok (Some md) =>
                if empty (md_Base md) then false
                else bool_decide (onChainMetadataMismatches md (v_m v) = [])
            | _ => false
            end)
  end.

(** [findRegistryDir]: next to the manifest, one or two directories up. *)
Fixpoint first_dir (dirs : list string) : tool (option string) :=
  match dirs with
  | [] => Done None
  | d :: dirs' => let* found := IsDir d in if found : bool then Done (Some d) else first_dir dirs'
  end.
Definition registry_dirs (v : verifier) : list string :=
  let rel := TrimRight (ml_RegistryDir (nm_Links (v_m v))) "/" in
  let base := Filepath.Dir (v_manifestPath v) in
  map (fun root => Filepath.Join root rel) [base; Filepath.Join base ".."; Filepath.Join base "../.."].
Definition findRegistryDir (v : verifier) : tool (option string) := first_dir (registry_dirs v).

Definition chain_problems (m : NetworkManifest) (reg : registryChain) : list string :=
  differ (bool_decide (rc_ChainID reg = nm_ChainID m)) "chain_id" ++
  differ (bool_decide (rc_Bech32Prefix reg = nm_AccountPrefix m)) "bech32_prefix" ++
  differ (rc_Slip44 reg =? nm_Slip44CoinType m) "slip44" ++
  differ (bool_decide (rc_DaemonName reg = nm_DaemonName m)) "daemon_name".
Definition rule9 (v : verifier) : tool ruleStatus :=
  let* found := findRegistryDir v in
  match found with
  | None => Done ruleSkip
  | Some dir =>
      let dir := if bool_decide (nm_NetworkType (v_m v) = "testnet") then Filepath.Join dir "testnets/sovrtestnet" else dir in
      let* data := ReadFile (Filepath.Join dir "chain.json") in
      match data with
      | Err _ => Done ruleSkip
      | Ok data =>
          match json_chain data with
          | None => Done ruleFail
          | Some reg =>
              let* assets := assetlistProblems v dir in
              match chain_problems (v_m v) reg ++ assets with
              | [] => if v_offline v then Done rulePass
                      else let* ok := checkOnChainDenomMetadata v in Done (passed ok)
              | _ => Done ruleFail
              end
          end
      end
  end.

(** Rule 10: each sidecar is what the manifest says. *)
Definition sidecar_problem (v : verifier) (file : string * bytes) : tool (list string) :=
  let* got := ReadFile (Filepath.Join (Filepath.Dir (v_manifestPath v)) (fst file)) in
  Done (match got with
        | Ok data => if bool_decide (data = snd file) then [] else [fst file]
        | Err _ => [fst file]
        end).
Definition sidecars (m : NetworkManifest) (endpoints : bytes) : list (string * bytes) :=
  [("genesis.sha256", renderGenesisSHA256 m); ("peers.txt", renderPeersTxt m); ("endpoints.json", endpoints)].
Definition rule10 (v : verifier) : tool ruleStatus :=
  match renderEndpointsJSON (v_m v) with
  | None => Done ruleFail
  | Some endpoints =>
      let* problems := gather (sidecar_problem v) (sidecars (v_m v) endpoints) in Done (judged problems)
  end.

Definition valoperSuffix : string := "valoper".
Definition rule11 (v : verifier) : tool ruleStatus :=
  if v_offline v then Done ruleSkip
  else
    let* operHRP := fetchLiveOperatorPrefix (restEndpoint v) in
    Done (match operHRP with
          | None => ruleFail
          | Some hrp =>
              if negb (GoStrings.HasSuffix hrp valoperSuffix) then ruleFail
              else passed (bool_decide (GoStrings.TrimSuffix hrp valoperSuffix = nm_AccountPrefix (v_m v)))
          end).

Definition fails (r : ruleResult) : bool := match rr_Status r with ruleFail => true | _ => false end.

(** [runVerify]; [None] is an error that is no report. *)
Definition runVerify (manifestPath genesisPath : string) (offline : bool) : tool (option verifyReport) :=
  let* raw := ReadFile manifestPath in
  match raw with
  | Err _ => Done None
  | Ok raw =>
      match ParseManifest raw with
      | Err _ => Done (Some (MkReport "" "" (negb offline) [MkRule 8 ruleFail] false false))
      | Ok m =>
          match staticFor (nm_NetworkType m) with
          | None => Done None
          | Some st =>
              let v := MkVerifier manifestPath genesisPath offline m raw st in
              let* r1 := rule1 v in
              let* r2 := rule2 v in
              let* r3 := rule3 v in
              let* r4 := rule4 v in
              let* r5 := rule5 v in
              let* r6 := rule6 v in
              let* r7 := rule7 v in
              let* r9 := rule9 v in
              let* r10 := rule10 v in
              let* r11 := rule11 v in
              let rules := [MkRule 8 rulePass; MkRule 1 r1; MkRule 2 (fst r2); MkRule 3 r3; MkRule 4 r4; MkRule 5 r5;
                            MkRule 6 r6; MkRule 7 r7; MkRule 9 r9; MkRule 10 r10; MkRule 11 r11] in
              Done (Some (MkReport (nm_NetworkType m) (nm_ChainID m) (negb offline) rules (snd r2)
                            (negb (existsb fails rules))))
          end
      end
  end.

(** ** The command line ([main.go]), from the parsed flags on *)

Inductive command : Type :=
| CmdGenerate (network out rpc rest : string)
| CmdVerify (manifest : string) (offline : bool) (genesis : string)
| CmdHelp
| CmdBad.
Definition cmdGenerate (network out rpc rest : string) : tool Z :=
  if empty network || empty out then Done 2
  else let* res := runGenerate network out rpc rest in Done (match res with Some _ => 0 | None => 1 end).
Definition cmdVerify (manifest : string) (offline : bool) (genesis : string) : tool Z :=
  if empty manifest then Done 2
  else
    let* report := runVerify manifest genesis offline in
    Done (match report with None => 2 | Some r => if vr_Pass r then 0 else 1 end).
Definition main (c : command) : tool Z :=
  match c with
  | CmdGenerate network out rpc rest => cmdGenerate network out rpc rest
  | CmdVerify manifest offline genesis => cmdVerify manifest offline genesis
  | CmdHelp => Done 0
  | CmdBad => Done 2
  end.
End tool.

End ManifestTool.
