(* ===== verification/ManifestToolSample.v ===== *)
(** * ManifestToolSample: a mainnet manifest, generated and verified

    Decoders that know one answer of each kind, a network that gives it, and the
    theorems of [ManifestToolLaws] applied to a run of the tool on it. *)

From stdpp Require Import base list strings gmap.
From Stdlib Require Import ZArith Lia Ascii String Strings.Byte.
From S2P Require Import Prelude Workers Text GoStrings Storage Chain Fees Manifest Sample Transport AdapterConfig.
From S2P Require Import ManifestTool ManifestToolLaws.
Import Manifest ManifestTool ManifestToolLaws.

Open Scope string_scope.
Open Scope list_scope.
Open Scope Z_scope.

Module ManifestToolSample.

(** One validator's operator address, beside the accounts of [Sample]. *)
Definition operator : string := "sovrvaloper1op".
Instance chain_ext : Ext := {
  bech32_DecodeAndConvert a :=
    if bool_decide (a = operator) then Ok ("sovrvaloper", Sample.src_bytes)
    else @bech32_DecodeAndConvert Sample.sample a;
  bech32_ConvertAndEncode := @bech32_ConvertAndEncode Sample.sample;
  codec_StringToBytes := @codec_StringToBytes Sample.sample;
  codec_BytesToString := @codec_BytesToString Sample.sample;
  address_Module := @address_Module Sample.sample;
  NewIntFromString := @NewIntFromString Sample.sample;
  pubkey_Address := @pubkey_Address Sample.sample;
  pubkey_VerifySignature := @pubkey_VerifySignature Sample.sample;
  encodeTx := @encodeTx Sample.sample;
  getSignBytes := @getSignBytes Sample.sample;
  marshalTxRaw := @marshalTxRaw Sample.sample;
  unmarshalSignDoc := @unmarshalSignDoc Sample.sample;
  strictSignDoc := @strictSignDoc Sample.sample;
  strictTxBody := @strictTxBody Sample.sample;
  strictAuthInfo := @strictAuthInfo Sample.sample;
  unmarshalMsgSend := @unmarshalMsgSend Sample.sample;
  unmarshalPubKey := @unmarshalPubKey Sample.sample }.

Definition quote : ascii := "034"%char.

(** The bodies of [/status], [node_info] and the validators. *)
Definition decode {A} (tag : Byte.byte) (a : A) (b : bytes) : option A := if bool_decide (b = [tag]) then Some a else None.
Instance tool_ext : ToolExt := {
  Quote s := String quote (s +:+ String quote EmptyString);
  url_scheme _ := Some "https";
  new_request _ := true;
  json_status := decode x01 ("sovr-1", "0.38.22");
  json_node_info := decode x02
    (MkPayload "sovr-1" "v0.19.0" "v0.53.8" "go version go1.25.12 linux/amd64"
       [("github.com/cosmos/ibc-go/v10", "v10.5.0"); ("github.com/CosmWasm/wasmd", "v0.60.7")]);
  json_validators := decode x03 [operator];
  json_chain _ := None;
  json_assets _ := None;
  json_endpoints chain _ _ := Some (to_bytes chain) }.

Definition written : NetworkManifest := manifestFromStatic staticMainnet "v0.19.0" "0.001usovr".
Definition read_decimal (s : string) : option Z :=
  match Fees.parseDecimal s with Ok d => Some (Fees.dec_num d * 10 ^ 18 / Fees.dec_den d) | Err _ => None end.
Instance yaml : ManifestExt := {
  yaml_probe _ := Some (Some 1);
  yaml_manifest b := match b with [] => None | _ => Some written end;
  ParseDecCoin s := bool_decide (is_Some (read_decimal (GoStrings.TrimSuffix s "usovr")));
  LegacyNewDecFromStr := read_decimal }.

Definition body_of (url : string) : bytes :=
  if GoStrings.HasSuffix url "/status" then [x01] else if GoStrings.HasSuffix url "/node_info" then [x02] else [x03].
Definition network : oracle := fun T (c : call T) =>
  match c in call T return T with
  | Get url => Answer 200 (Some (body_of url))
  | Dial _ => true
  | KitNodeStatus _ => Ok (MkNodeStatus "sovr-1" 100 false)
  | KitGlobalFee _ => Ok [("usovr", "0.001000000000000000")]
  | KitDenomMetadata _ _ => Err ErrOther
  | Iterate m => map_to_list m
  | Writable _ => true
  end.

Definition generated : generateResult :=
  MkGenerated "mainnet" "sovr-1" ["out/network.yaml"; "out/genesis.sha256"; "out/peers.txt"; "out/endpoints.json"]
    "v0.19.0" "0.001usovr" true.
Lemma generates : o_value (run network (runGenerate "mainnet" "out" "" "") ∅) = Some generated.
Proof. lazy. reflexivity. Qed.


(** The files on disk, and the verifier of the manifest. *)
Definition endpoints : bytes := to_bytes ("sovr-1" +:+ newline).
Definition disk_files : gmap string entry := with_files "out" (files_of written (renderManifestYAML written) endpoints) ∅.
Definition live : verifier := MkVerifier "out/network.yaml" "" false written (renderManifestYAML written) staticMainnet.

Lemma on_disk f : f ∈ files_of written (renderManifestYAML written) endpoints ->
  disk_files !! Filepath.Join "out" (fst f) = Some (File (snd f)).
Proof. destruct (files_names written (renderManifestYAML written) endpoints). by apply with_files_in. Qed.

(** A program that only reads, then another, on the network. *)
Lemma run_then {A B} (p : tool A) (k : A -> tool B) s a : frames eq p -> o_value (run network p s) = a ->
  o_value (run network (p_bind p k) s) = o_value (run network (k a) s).
Proof.
  intros Hf Ha. rewrite run_bind. cbn. destruct (run_exec eq network p s) as [tr H]. apply exec_frames in H; [|apply _|done].
  by rewrite <-H, Ha.
Qed.
Lemma live_sidecars : o_value (run network (rule10 live) disk_files) = rulePass.
Proof.
  assert (renderEndpointsJSON (v_m live) = Some endpoints) as He by (lazy; reflexivity).
  erewrite (offline_rule10 live disk_files endpoints He); [done|]. apply Forall_forall. intros f Hf.
  apply on_disk. unfold files_of. by right.
Qed.
Lemma live_endpoints : o_value (run network (rule5 live) disk_files) = rulePass.
Proof.
  unfold rule5. assert (noted live = true) as -> by (apply rendered_noted; vm_compute; lia). rewrite andb_false_r.
  lazy. reflexivity.
Qed.
Lemma live_genesis : o_value (run network (rule4 live) disk_files) = rulePass.
Proof.
  rewrite (offline_rule4 live disk_files); [done|]. split; [done|].
  change (genesis_path live) with (Filepath.Join "out" "genesis.json"). unfold disk_files.
  rewrite with_files_other; [done|]. intros f Hf Heq. destruct (files_names written (renderManifestYAML written) endpoints) as [_ Hn].
  rewrite Forall_forall in Hn. apply Join_inj in Heq; [|done|by apply file_name_plain, Hn|by apply file_name_plain].
  apply (list_elem_of_fmap_2 fst) in Hf. rewrite Heq in Hf. cbn in Hf. rewrite !elem_of_cons, elem_of_nil in Hf.
  intuition discriminate.
Qed.
Lemma live_registry : o_value (run network (rule9 live) disk_files) = ruleSkip.
Proof.
  rewrite (offline_rule9 live disk_files); [done|]. apply Forall_forall. intros d _. by apply with_files_dirs.
Qed.
Definition report : verifyReport :=
  MkReport "mainnet" "sovr-1" true
    [MkRule 8 rulePass; MkRule 1 rulePass; MkRule 2 rulePass; MkRule 3 rulePass; MkRule 4 rulePass; MkRule 5 rulePass;
     MkRule 6 rulePass; MkRule 7 rulePass; MkRule 9 ruleSkip; MkRule 10 rulePass; MkRule 11 rulePass] true true.
Lemma verifies : o_value (run network (runVerify "out/network.yaml" "" false) disk_files) = Some report.
Proof.
  unfold runVerify. rewrite (run_then _ _ _ (Ok (renderManifestYAML written))).
  2: { split; [done|]. by intros x. }
  2: { cbn. change "out/network.yaml" with (Filepath.Join "out" "network.yaml").
       by rewrite (on_disk ("network.yaml", renderManifestYAML written)) by (by left). }
  cbv beta iota. replace (ParseManifest (renderManifestYAML written)) with (Ok (E := error) written) by (lazy; reflexivity).
  cbv beta iota. change (staticFor (nm_NetworkType written)) with (Some staticMainnet). cbv beta iota zeta. fold live.
  rewrite (run_then _ _ _ rulePass (frames_rule1 live)) by (lazy; reflexivity).
  rewrite (run_then _ _ _ (rulePass, true) (frames_rule2 live)) by (vm_compute; reflexivity).
  rewrite (run_then _ _ _ rulePass (frames_rule3 live)) by (lazy; reflexivity).
  rewrite (run_then _ _ _ rulePass (frames_rule4 live)) by apply live_genesis.
  rewrite (run_then _ _ _ rulePass (frames_rule5 live)) by apply live_endpoints.
  rewrite (run_then _ _ _ rulePass (frames_rule6 live)) by (lazy; reflexivity).
  rewrite (run_then _ _ _ rulePass (frames_rule7 live)) by (lazy; reflexivity).
  rewrite (run_then _ _ _ ruleSkip (frames_rule9 live)) by apply live_registry.
  rewrite (run_then _ _ _ rulePass (frames_rule10 live)) by apply live_sidecars.
  rewrite (run_then _ _ _ rulePass (frames_rule11 live)) by (lazy; reflexivity).
  reflexivity.
Qed.

End ManifestToolSample.
