(* ===== verification/Certification.v ===== *)
(** * Certification: the engine of the certification suite

    [go/cmd/sovren-cert]: loading of scenario definitions, the gates, the
    sequential runner with its recovery from panics ([engine.go]), the report and
    its verdict ([report.go]), the run command ([cmd_run.go]), the funding command
    ([cmd_fund.go]) and the session with a live chain ([livechain.go]).

    The state is the file system and the cached session.  The table of scenario
    implementations is an argument of the engine, as it is in the code, where each
    group registers its own; an implementation is any program over the same state
    and the same calls that returns a result or panics.  Reasons, evidence and
    times, which only the reader of a report sees, are left out, and the rendering
    to Markdown is given. *)

From stdpp Require Import base list strings gmap sorting.
From Stdlib Require Import ZArith Lia Ascii String.
From S2P Require Import Prelude Workers Text GoStrings Storage Chain Address Manifest Signers ExecSigner Transport.
From S2P Require Import AdapterConfig Migrations ManifestTool.
Import Manifest.

Open Scope string_scope.
Open Scope list_scope.
Open Scope Z_scope.
Local Notation empty := GoStrings.empty.
Local Notation entry := ManifestTool.entry.
Local Notation File := ManifestTool.File.
Local Notation Directory := ManifestTool.Directory.
Local Notation string_le := Migrations.string_le.

Module Certification.

#[local] Existing Instance Migrations.string_le_dec.

(** ** Results and definitions *)

(** [Status] is a string type. *)
Definition StatusPass : string := "PASS".
Definition StatusFail : string := "FAIL".
Definition StatusSkipped : string := "SKIPPED".
Definition StatusBlocked : string := "BLOCKED".

Record Result : Type := MkResult { re_Status : string; re_Dependency : string }.
Definition fail : Result := MkResult StatusFail "".
Definition skip : Result := MkResult StatusSkipped "".

Record ScenarioDef : Type := MkDef {
  sd_ID : string; sd_Title : string; sd_Group : string; sd_RequirementRefs : list string; sd_Required : bool;
  sd_Needs : list string; sd_Dependencies : list string; sd_Description : string }.

Record ScenarioResult : Type := MkRow {
  sr_ID : string; sr_Title : string; sr_Group : string; sr_RequirementRefs : list string; sr_Required : bool;
  sr_Result : string; sr_Dependency : string }.

Record Summary : Type := MkSummary {
  su_Total : Z; su_Pass : Z; su_Fail : Z; su_Skipped : Z; su_Blocked : Z; su_RequiredSkipped : Z;
  su_Overall : string; su_GAReady : bool }.

(** ** The verdict ([report.go]) *)

Definition count_row (s : Summary) (sc : ScenarioResult) : Summary :=
  let 'MkSummary total pass fail skipped blocked required overall ga := s in
  let r := sr_Result sc in
  if bool_decide (r = StatusPass) then MkSummary total (pass + 1) fail skipped blocked required overall ga
  else if bool_decide (r = StatusFail) then MkSummary total pass (fail + 1) skipped blocked required overall ga
  else if bool_decide (r = StatusSkipped) then
    MkSummary total pass fail (skipped + 1) blocked (if sr_Required sc then required + 1 else required) overall ga
  else if bool_decide (r = StatusBlocked) then MkSummary total pass fail skipped (blocked + 1) required overall ga
  else s.
Definition summarize (scenarios : list ScenarioResult) (certifying : bool) : Summary :=
  let s := fold_left count_row scenarios (MkSummary (Z.of_nat (List.length scenarios)) 0 0 0 0 0 "" false) in
  let overall := if 0 <? su_Fail s then "FAIL" else if 0 <? su_RequiredSkipped s then "INCOMPLETE" else "PASS" in
  MkSummary (su_Total s) (su_Pass s) (su_Fail s) (su_Skipped s) (su_Blocked s) (su_RequiredSkipped s) overall
    (certifying && bool_decide (overall = "PASS") && (su_Blocked s =? 0)).

Definition exitOK : Z := 0.
Definition exitFail : Z := 1.
Definition exitPreflight : Z := 2.
Definition exitInternal : Z := 3.

Definition exitCodeForSummary (s : Summary) : Z :=
  if 0 <? su_Fail s then exitFail
  else if (0 <? su_RequiredSkipped s) || bool_decide (su_Overall s = "INCOMPLETE") then exitPreflight
  else exitOK.

(** ** State and calls *)

Record liveEnv : Type := MkLive {
  le_chainID : string; le_rpcURL : string; le_funder : Derive.derived; le_mnemonic : string; le_gasPrice : string }.

Inductive session_error : Type :=
| BadTarget | Unreachable | Mainnet | BadMnemonic | NotQueryable | TooPoor (balance : Z).

Record state : Type := MkState { st_disk : gmap string entry; st_live : option (result session_error liveEnv) }.

Inductive call : Type -> Type :=
| LookPath (tool : string) : call bool
| Getwd : call (option string)
| Abs (path : string) : call (option string)
| Getenv (name : string) : call string
| ReadDir (dir : string) : call (option (list string))
| Writable (path : string) : call bool
| NodeStatusOf (rpcURL : string) : call (result err NodeStatus)
| BalanceOf (rpcURL addr denom : string) : call (result err Z)
| Credit (url addr denom : string) : call (option Z)   (* the HTTP status of the faucet *)
| TempStore (prefix : string) : call (option Z).       (* a throwaway store, and the time *)

Notation cert := (prog state call).

(** A registered function returns, or panics. *)
Inductive verdict : Type := Returned (r : Result) | Panicked.

Definition look {A} (f : gmap string entry -> A) : cert A := Txn (fun s => (f (st_disk s), s)) Done.
Definition ReadFile (path : string) : cert (result ManifestTool.read_error bytes) :=
  look (fun d => match d !! path with
                 | Some (File data) => Ok data
                 | None => Err ManifestTool.NotExist
                 | _ => Err ManifestTool.OtherError
                 end).
Definition fileExists (path : string) : cert bool :=
  look (fun d => match d !! path with Some Directory => false | Some _ => true | None => false end).
Definition WriteFile (path : string) (data : bytes) : cert bool :=
  let* ok := ask (Writable path) in
  if ok : bool then Txn (fun s => (true, MkState (<[path := File data]> (st_disk s)) (st_live s))) Done else Done false.

(** ** The kit root ([findKitRoot]) *)

Definition looksLikeKitRoot (dir : string) : cert bool :=
  look (fun d => match d !! Filepath.Join dir "test-vectors", d !! Filepath.Join dir "network" with
                 | Some Directory, Some Directory => true
                 | _, _ => false
                 end).

(** The directories the walk visits; [parent == dir] ends it. *)
Fixpoint ancestors (fuel : nat) (dir : string) : list string :=
  match fuel with
  | O => []
  | S n => dir :: if bool_decide (Filepath.Dir dir = dir) then [] else ancestors n (Filepath.Dir dir)
  end.
Fixpoint first_root (dirs : list string) : cert (option string) :=
  match dirs with
  | [] => Done None
  | d :: dirs' => let* ok := looksLikeKitRoot d in if ok : bool then Done (Some d) else first_root dirs'
  end.
Definition walk_fuel (dir : string) : nat := S (S (List.length (chars dir))).
Definition findKitRoot (explicit : string) : cert (option string) :=
  if negb (empty explicit) then
    let* abs := ask (Abs explicit) in
    match abs with
    | None => Done None
    | Some abs => let* ok := looksLikeKitRoot abs in Done (if ok : bool then Some abs else None)
    end
  else
    let* dir := ask Getwd in
    match dir with
    | None => Done None
    | Some dir => first_root (ancestors (walk_fuel dir) dir)
    end.
(** ** What the suite is given *)

Record Report : Type := MkCertReport {
  rp_KitVersion : string; rp_Network : string; rp_StorageBackend : string; rp_Mode : string; rp_Certifying : bool;
  rp_KitRoot : string; rp_Endpoints : list string; rp_NodeVersions : gmap string string;
  rp_Scenarios : list ScenarioResult; rp_Operator : string; rp_Exchange : string; rp_Summary : Summary }.

(** YAML and JSON decoders and printers, the Markdown of a report, and the
    embedded scenario files. *)
Class CertExt : Type := {
  yaml_scenarios : bytes -> option (list ScenarioDef);
  yaml_backend : bytes -> option string;
  json_report : Report -> option bytes;
  json_read : bytes -> option Report;
  renderMarkdown : Report -> bytes;
  embeddedScenarios : list (string * bytes);
  Version : string }.

Section engine.
Context `{X : Ext, W : Wire, H : HD, ME : ManifestExt, C : CertExt}.

(** The registered implementations ([impls]). *)
Context (impls : gmap string (cert verdict)).

(** ** Scenario definitions ([loadScenarioDefs]) *)

Inductive load_error : Type :=
| NoDirectory | NoFile (f : string) | BadYAML (f : string) | Incomplete (f id : string) | Duplicate (id : string)
| NoScenarios | NoImplementation (id : string).

(** The definitions of one file, after those already loaded. *)
Fixpoint add_defs (f : string) (ds : list ScenarioDef) (seen : gset string) (defs : list ScenarioDef) :
    result load_error (gset string * list ScenarioDef) :=
  match ds with
  | [] => Ok (seen, defs)
  | d :: ds' =>
      if empty (sd_ID d) || empty (sd_Title d) || empty (sd_Group d) then Err (Incomplete f (sd_ID d))
      else if bool_decide (sd_ID d ∈ seen) then Err (Duplicate (sd_ID d))
      else add_defs f ds' ({[sd_ID d]} ∪ seen) (defs ++ [d])
  end.
Fixpoint load_files (read : string -> cert (option bytes)) (files : list string) (seen : gset string)
    (defs : list ScenarioDef) : cert (result load_error (list ScenarioDef)) :=
  match files with
  | [] => Done (Ok defs)
  | f :: files' =>
      let* data := read f in
      match data with
      | None => Done (Err (NoFile f))
      | Some data =>
          match yaml_scenarios data with
          | None => Done (Err (BadYAML f))
          | Some ds =>
              match add_defs f ds seen defs with
              | Err e => Done (Err e)
              | Ok (seen', defs') => load_files read files' seen' defs'
              end
          end
      end
  end.
Definition is_yaml (name : string) : bool := GoStrings.HasSuffix name ".yaml".
Definition read_embedded (f : string) : cert (option bytes) :=
  Done (option_map snd (List.find (fun e => bool_decide ("scenarios/" +:+ fst e = f)) embeddedScenarios)).
Definition read_file (f : string) : cert (option bytes) :=
  let* r := ReadFile f in Done (match r with Ok data => Some data | Err _ => None end).
Definition unimplemented (d : ScenarioDef) : bool := negb (bool_decide (is_Some (impls !! sd_ID d))).
Definition checked (defs : list ScenarioDef) : result load_error (list ScenarioDef) :=
  match defs with
  | [] => Err NoScenarios
  | _ => match List.find unimplemented defs with Some d => Err (NoImplementation (sd_ID d)) | None => Ok defs end
  end.
Definition loadScenarioDefs (overrideDir : string) : cert (result load_error (list ScenarioDef)) :=
  let load read files := let? defs := load_files read (merge_sort string_le files) ∅ [] in Done (checked defs) in
  if empty overrideDir then
    load read_embedded (map (fun n => "scenarios/" +:+ n) (List.filter is_yaml (map fst embeddedScenarios)))
  else
    let* names := ask (ReadDir overrideDir) in
    match names with
    | None => Done (Err NoDirectory)
    | Some names => load read_file (map (Filepath.Join overrideDir) (List.filter is_yaml names))
    end.

(** ** Gates *)

Record RunContext : Type := MkContext {
  rc_Mode : string; rc_KitRoot : string; rc_Manifest : option NetworkManifest; rc_RPCURL : string; rc_RPCFromEnv : bool;
  rc_Mnemonic : string; rc_GasPrice : string; rc_StorageBackend : string; rc_Operator : string; rc_Exchange : string }.

Definition unless (ok : bool) : option Result := if ok then None else Some skip.
Definition check_need (rc : RunContext) (need : string) : cert (option Result) :=
  if bool_decide (need = "manifest") then Done (unless (bool_decide (is_Some (rc_Manifest rc))))
  else if bool_decide (need = "funds") then
    Done (if empty (rc_Mnemonic rc) then Some skip else unless (negb (empty (rc_RPCURL rc))))
  else if bool_decide (need = "rpc") then Done (unless (negb (empty (rc_RPCURL rc))))
  else if bool_decide (need = "gotool") then let* found := ask (LookPath "go") in Done (unless found)
  else if bool_decide (need = "tsx") then
    let* found := fileExists (Filepath.Join (rc_KitRoot rc) "typescript/node_modules/.bin/tsx") in Done (unless found)
  else if bool_decide (need = "promtool") then let* found := ask (LookPath "promtool") in Done (unless found)
  else Done (Some fail).
(** The first unmet need decides. *)
Fixpoint gate (rc : RunContext) (needs : list string) : cert (option Result) :=
  match needs with
  | [] => Done None
  | need :: needs' =>
      let* r := check_need rc need in
      match r with Some r => Done (Some r) | None => gate rc needs' end
  end.

(** ** The runner *)

(** An id without implementation is a nil function, whose call panics. *)
Definition runProtected (def : ScenarioDef) : cert Result :=
  match impls !! sd_ID def with
  | None => Done fail
  | Some fn => let* v := fn in Done (match v with Returned r => r | Panicked => fail end)
  end.
Definition runOne (rc : RunContext) (def : ScenarioDef) : cert ScenarioResult :=
  let* g := gate rc (sd_Needs def) in
  let* r := match g with Some r => Done r | None => runProtected def end in
  Done (MkRow (sd_ID def) (sd_Title def) (sd_Group def) (sd_RequirementRefs def) (sd_Required def)
          (re_Status r) (re_Dependency r)).

(** The definitions wanted, each id once, and the ids left over. *)
Fixpoint select (defs : list ScenarioDef) (want : gset string) : list ScenarioDef * gset string :=
  match defs with
  | [] => ([], want)
  | d :: defs' =>
      if bool_decide (sd_ID d ∈ want) then
        let '(sel, rest) := select defs' (want ∖ {[sd_ID d]}) in (d :: sel, rest)
      else select defs' want
  end.
Definition selected (defs : list ScenarioDef) (only : list string) : option (list ScenarioDef) :=
  match only with
  | [] => Some defs
  | _ => let '(sel, rest) := select defs (list_to_set only) in if bool_decide (rest = ∅) then Some sel else None
  end.
Fixpoint run_all (rc : RunContext) (defs : list ScenarioDef) : cert (list ScenarioResult) :=
  match defs with
  | [] => Done []
  | d :: defs' => let* r := runOne rc d in let* rs := run_all rc defs' in Done (r :: rs)
  end.
Definition runScenarios (rc : RunContext) (defs : list ScenarioDef) (only : list string) : cert (option (list ScenarioResult)) :=
  match selected defs only with
  | None => Done None
  | Some sel => let* rs := run_all rc sel in Done (Some rs)
  end.

(** ** The live session ([livechain.go]) *)

Definition minFunderBalanceUsovr : Z := 10000000.
Definition openLiveEnv (scheme : string -> option string) (rc : RunContext) : cert (result session_error liveEnv) :=
  match Transport.NewCometRPC scheme (rc_RPCURL rc) with
  | None => Done (Err BadTarget)
  | Some base =>
      let* st := ask (NodeStatusOf base) in
      match st with
      | Err _ => Done (Err Unreachable)
      | Ok st =>
          if bool_decide (ns_ChainID st = "sovr-1") then Done (Err Mainnet)
          else
            match Derive.DeriveAddress (rc_Mnemonic rc) Derive.DefaultHDPath with
            | Err _ => Done (Err BadMnemonic)
            | Ok funder =>
                let* bal := ask (BalanceOf base (Derive.d_Bech32 funder) BaseDenom) in
                match bal with
                | Err _ => Done (Err NotQueryable)
                | Ok bal =>
                    if bal <? minFunderBalanceUsovr then Done (Err (TooPoor bal))
                    else Done (Ok (MkLive (ns_ChainID st) (rc_RPCURL rc) funder (rc_Mnemonic rc) (rc_GasPrice rc)))
                end
            end
      end
  end.
(** [liveChain]: the first outcome, session or error, is kept. *)
Definition liveChain (scheme : string -> option string) (rc : RunContext) : cert (result session_error liveEnv) :=
  let* cached := Txn (fun s => (st_live s, s)) Done in
  match cached with
  | Some r => Done r
  | None =>
      let* r := openLiveEnv scheme rc in
      Txn (fun s => (r, MkState (st_disk s) (Some r))) Done
  end.

(** ** The report *)

Definition reportJSONName : string := "certification.json".
Definition reportMarkdownName : string := "certification.md".

Definition live_chain (s : state) : option string :=
  match st_live s with Some (Ok env) => Some (le_chainID env) | _ => None end.
Definition node_versions (rc : RunContext) (live : option string) : gmap string string :=
  let pinned : gmap string string :=
    match rc_Manifest rc with
    | None => ∅
    | Some m => <["app" := mv_App (nm_Versions m)]> (<["cometbft" := mv_CometBFT (nm_Versions m)]>
                  (<["sdk" := mv_SDK (nm_Versions m)]> ∅))
    end in
  match live with None => pinned | Some id => <["observed_chain_id" := id]> pinned end.
Definition report_of (rc : RunContext) (results : list ScenarioResult) (live : option string) : Report :=
  let certifying := bool_decide (rc_Mode rc = "testnet") in
  let network := match live with
                 | Some id => id
                 | None => match rc_Manifest rc with Some m => nm_ChainID m | None => "" end
                 end in
  MkCertReport Version network (rc_StorageBackend rc) (rc_Mode rc) certifying (rc_KitRoot rc)
    (if empty (rc_RPCURL rc) then [] else [rc_RPCURL rc]) (node_versions rc live) results (rc_Operator rc) (rc_Exchange rc)
    (summarize results certifying).
Definition buildReport (rc : RunContext) (results : list ScenarioResult) : cert Report :=
  let* live := Txn (fun s => (live_chain s, s)) Done in
  Done (report_of rc results live).

Definition writeReport (dir : string) (r : Report) : cert bool :=
  let* made := ask (Writable dir) in
  if negb made then Done false
  else match json_report r with
       | None => Done false
       | Some data => WriteFile (Filepath.Join dir reportJSONName) (data ++ ManifestTool.to_bytes ManifestTool.newline)
       end.

Inductive render_error : Type := Missing | Failed.
Definition renderToFile (dir : string) : cert (result render_error unit) :=
  let* data := ReadFile (Filepath.Join dir reportJSONName) in
  match data with
  | Err ManifestTool.NotExist => Done (Err Missing)
  | Err _ => Done (Err Failed)
  | Ok data =>
      match json_read data with
      | None => Done (Err Failed)
      | Some r =>
          let* ok := WriteFile (Filepath.Join dir reportMarkdownName) (renderMarkdown r) in
          Done (if ok : bool then Ok tt else Err Failed)
      end
  end.

(** ** The commands, from the parsed flags on *)

Record flags : Type := MkFlags {
  fl_network : string; fl_manifest : string; fl_adapterConfig : string; fl_reportDir : string; fl_scenarioDir : string;
  fl_kitRoot : string; fl_operator : string; fl_exchange : string; fl_only : list string }.

(** [stringList.Set]: one flag, split at commas. *)
Fixpoint split_commas (t : text) : list text :=
  match t with
  | [] => [[]]
  | c :: t' => if is_char ","%char c then [] :: split_commas t'
               else match split_commas t' with p :: ps => (c :: p) :: ps | [] => [[c]] end
  end.
Definition Set_flag (only : list string) (v : string) : list string :=
  only ++ List.filter (fun p => negb (empty p)) (map (fun p => GoStrings.TrimSpace (of_chars p)) (split_commas (chars v))).

Definition envOr (key default : string) : cert string :=
  let* v := ask (Getenv key) in Done (if empty v then default else v).
Definition orUser (v : string) : cert string :=
  if negb (empty v) then Done v
  else let* u := ask (Getenv "USER") in Done (if empty u then "unknown" else u).
Definition adapterStorageBackend (path : string) : cert string :=
  if empty path then Done "sqlite (suite-managed)"
  else
    let* data := ReadFile path in
    Done (match data with
          | Err _ => "unknown"
          | Ok data => match yaml_backend data with
                       | Some b => if empty b then "unknown" else b
                       | None => "unknown"
                       end
          end).
Definition first_rpc (m : NetworkManifest) : string :=
  match List.find (fun ep => bool_decide (ep_Kind ep = "rpc")) (nm_Endpoints m) with
  | Some ep => ep_URL ep
  | None => ""
  end.
Definition load_manifest (path : string) : cert (option NetworkManifest) :=
  let* data := ReadFile path in
  Done (match data with
        | Err _ => None
        | Ok data => match ParseManifest data with Ok m => Some m | Err _ => None end
        end).
(** The chain target: the environment wins, else the manifest's first endpoint. *)
Definition rpc_target (m : option NetworkManifest) : cert (string * bool) :=
  let* v := ask (Getenv "SOVREN_CERT_CHAIN_RPC") in
  Done (if negb (empty v) then (v, true) else (match m with Some m => first_rpc m | None => "" end, false)).

Definition manifest_path (root : string) (fl : flags) : string :=
  if empty (fl_manifest fl) then Filepath.Join (Filepath.Join (Filepath.Join root "network") (fl_network fl)) "network.yaml"
  else fl_manifest fl.
Definition context (fl : flags) (root : string) : cert RunContext :=
  let* mnemonic := ask (Getenv "SOVREN_CERT_MNEMONIC") in
  let* gasPrice := envOr "SOVREN_CERT_GAS_PRICE" "0.025" in
  let* operator := orUser (fl_operator fl) in
  let* m := load_manifest (manifest_path root fl) in
  let* target := rpc_target m in
  let* backend := adapterStorageBackend (fl_adapterConfig fl) in
  Done (MkContext (fl_network fl) root m (fst target) (snd target) mnemonic gasPrice backend operator (fl_exchange fl)).

Definition cmdRun (fl : flags) : cert Z :=
  if negb (bool_decide (fl_network fl = "testnet") || bool_decide (fl_network fl = "local")) then Done exitPreflight
  else
    let* root := findKitRoot (fl_kitRoot fl) in
    match root with
    | None => Done exitPreflight
    | Some root =>
        let* defs := loadScenarioDefs (fl_scenarioDir fl) in
        match defs with
        | Err _ => Done exitPreflight
        | Ok defs =>
            let* absReport := ask (Abs (fl_reportDir fl)) in
            match absReport with
            | None => Done exitPreflight
            | Some absReport =>
                let* made := ask (Writable (Filepath.Join absReport "evidence")) in
                if negb made then Done exitPreflight
                else
                  let* rc := context fl root in
                  let* results := runScenarios rc defs (fl_only fl) in
                  match results with
                  | None => Done exitPreflight
                  | Some results =>
                      let* report := buildReport rc results in
                      let* written := writeReport absReport report in
                      if negb written then Done exitInternal
                      else
                        let* rendered := renderToFile absReport in
                        match rendered with
                        | Err _ => Done exitInternal
                        | Ok _ => Done (exitCodeForSummary (rp_Summary report))
                        end
                  end
            end
        end
    end.

Definition cmdRender (reportDir : string) : cert Z :=
  let* r := renderToFile reportDir in
  Done (match r with Ok _ => exitOK | Err Missing => exitPreflight | Err Failed => exitInternal end).

(** [cmdFund]: the address to fund, the manifest's faucet, one request. *)
Fixpoint drop_slashes (t : text) : text :=
  match t with c :: t' => if is_char "/"%char c then drop_slashes t' else t | [] => [] end.
Definition faucetCreditURL (baseURL : string) : string := of_chars (rev (drop_slashes (rev (chars baseURL)))) +:+ "/credit".
Definition requestFaucet (baseURL addr denom : string) : cert bool :=
  let* status := ask (Credit (faucetCreditURL baseURL) addr denom) in
  Done (match status with Some c => (200 <=? c) && (c <=? 299) | None => false end).
Definition fund_target (addr : string) : cert (option string) :=
  if negb (empty addr) then Done (Some addr)
  else
    let* mnemonic := ask (Getenv "SOVREN_CERT_MNEMONIC") in
    Done (if empty mnemonic then None
          else match Derive.DeriveAddress mnemonic Derive.DefaultHDPath with
               | Ok a => Some (Derive.d_Bech32 a)
               | Err _ => None
               end).
Definition cmdFund (addr network manifestPath kitRoot : string) : cert Z :=
  let* target := fund_target addr in
  match target with
  | None => Done exitPreflight
  | Some target =>
      if negb (Address.vr_Valid (Address.ValidateAccountAddress target)) then Done exitPreflight
      else
        let* path := if negb (empty manifestPath) then Done (Some manifestPath)
                     else
                       let* root := findKitRoot kitRoot in
                       Done (option_map (fun root =>
                         Filepath.Join (Filepath.Join (Filepath.Join root "network") network) "network.yaml") root) in
        match path with
        | None => Done exitPreflight
        | Some path =>
            let* m := load_manifest path in
            match m with
            | None => Done exitPreflight
            | Some m =>
                match ml_Faucet (nm_Links m) with
                | None => Done exitPreflight
                | Some faucet =>
                    if empty faucet then Done exitPreflight
                    else
                      let* ok := requestFaucet faucet target (nm_BaseDenom m) in
                      Done (if ok : bool then exitOK else exitInternal)
                end
            end
        end
  end.
End engine.

End Certification.
