(* ===== verification/CertificationLaws.v ===== *)
(** * CertificationLaws: what a certification stands for

    The verdict counts exactly the rows, a run that exits 0 has run the selected
    scenarios, and a live session is never with mainnet. *)

From stdpp Require Import base list strings gmap sets.
From Stdlib Require Import ZArith Lia Ascii String Strings.Byte.
From S2P Require Import Prelude Workers Text GoStrings Storage Chain Address Manifest Signers ExecSigner Transport.
From S2P Require Import AdapterConfig Sample SignerSample ManifestTool ManifestToolLaws ManifestToolSample Certification.
Import Certification ManifestToolLaws.

Open Scope string_scope.
Open Scope list_scope.
Open Scope Z_scope.
Local Notation entry := ManifestTool.entry.
Local Notation File := ManifestTool.File.

Module CertificationLaws.

(** ** The walk to the kit root ends *)

Section ancestors.
Import Filepath.

(** The length of a path with these components and a slash after each. *)
Fixpoint weight (l : list text) : nat := match l with [] => 0 | c :: l' => S (List.length c) + weight l' end.

Lemma weight_app a b : weight (a ++ b) = (weight a + weight b)%nat.
Proof. induction a as [|x l IH]; [done|]. cbn. rewrite IH. lia. Qed.
Lemma weight_rev l : weight (rev l) = weight l.
Proof. induction l as [|c l IH]; [done|]. cbn [rev]. rewrite weight_app, IH. cbn. lia. Qed.
Lemma join_weight l : (List.length (join l) <= weight l - 1)%nat.
Proof.
  induction l as [|c l IH]; [done|]. destruct l as [|c' l]; [cbn; lia|].
  change (join (c :: c' :: l)) with (c ++ "/"%char :: join (c' :: l)). rewrite length_app. cbn [List.length].
  change (weight (c :: c' :: l)) with (S (List.length c) + weight (c' :: l))%nat. cbn [weight] in IH |- *. lia.
Qed.
Lemma components_weight cur t : weight (components cur t) = (List.length cur + List.length t + 1)%nat.
Proof.
  revert cur. induction t as [|x t IH]; intros cur; cbn [components].
  - cbn. rewrite length_rev. lia.
  - destruct (slash x); [|rewrite IH; cbn; lia]. cbn [weight]. rewrite length_rev, IH. cbn. lia.
Qed.
Lemma clean_step_weight rooted out c : (weight (clean_step rooted out c) <= weight out + weight [c])%nat.
Proof.
  unfold clean_step. destruct (_ || _); [lia|]. case_bool_decide.
  - destruct out as [|l out]; [destruct rooted; cbn; lia|]. case_bool_decide; cbn; lia.
  - cbn. lia.
Qed.
Lemma fold_weight rooted l out : (weight (fold_left (clean_step rooted) l out) <= weight out + weight l)%nat.
Proof.
  revert out. induction l as [|c l IH]; intros out; [cbn; lia|]. cbn [fold_left]. rewrite IH.
  pose proof (clean_step_weight rooted out c). cbn [weight] in *. lia.
Qed.

(** A path that ends in a slash is longer than its clean form, the root aside. *)
Lemma clean_shorter t : t <> [] -> (List.length (clean (t ++ ["/"%char])) <= List.length t)%nat.
Proof.
  intros Ht. rewrite clean_eq. unfold root. rewrite is_abs_app by done.
  assert (Hw : (weight (parts (t ++ ["/"%char])) <= List.length t + 1 - (if is_abs t then 1 else 0))%nat).
  { unfold parts. change (["/"%char]) with ("/"%char :: []). rewrite components_app, fold_left_app. cbn [components rev fold_left].
    rewrite is_abs_app by done. cbn [clean_step]. unfold clean_step at 1. cbn.
    destruct (is_abs t) eqn:E.
    - destruct t as [|x t]; [done|]. cbn in E. cbn [components]. rewrite E. cbn [rev fold_left].
      change (clean_step true [] []) with ([] : list text). rewrite fold_weight, components_weight. cbn. lia.
    - rewrite fold_weight, components_weight. cbn. lia. }
  pose proof (join_weight (rev (parts (t ++ ["/"%char])))) as Hj. rewrite weight_rev in Hj.
  assert (1 <= List.length t)%nat by (destruct t; cbn; [done|lia]).
  destruct (_ ++ join _) as [|y p] eqn:E; [cbn; lia|]. rewrite <-E, length_app. destruct (is_abs t); cbn; lia.
Qed.

Lemma to_last_slash_cases t : to_last_slash t = [] \/
  exists q, to_last_slash t = q ++ ["/"%char] /\ (List.length q < List.length t)%nat.
Proof.
  induction t as [|x t IH]; [by left|]. cbn. destruct IH as [-> | (q & -> & Hq)].
  - destruct (slash x) eqn:E; [|by left]. right. exists []. unfold slash, is_char in E. apply bool_decide_eq_true in E as ->.
    cbn. split; [done|lia].
  - right. exists (x :: q). destruct q; cbn in *; (split; [done|lia]).
Qed.
Lemma Dir_shorter d : Dir d = "." \/ Dir d = "/" \/ (List.length (chars (Dir d)) < List.length (chars d))%nat.
Proof.
  unfold Dir. destruct (to_last_slash_cases (chars d)) as [-> | (q & -> & Hq)]; [by left|].
  destruct q as [|x q]; [by right; left|]. right. right. rewrite chars_of_chars.
  pose proof (clean_shorter (x :: q)) as H. lapply H; [lia|done].
Qed.

(** The walk from [dir] reaches a directory that is its own parent. *)
Lemma ancestors_end fuel dir : (walk_fuel dir <= fuel)%nat -> exists top, last (ancestors fuel dir) = Some top /\ Dir top = top.
Proof.
  unfold walk_fuel. revert dir. induction fuel as [|n IH]; intros dir Hn; [lia|]. cbn [ancestors].
  destruct (bool_decide_reflect (Dir dir = dir)) as [E|E]; [by exists dir|].
  assert (exists top, last (ancestors n (Dir dir)) = Some top /\ Dir top = top) as (top & Ht & Hd).
  { destruct n as [|n]; [lia|]. destruct (Dir_shorter dir) as [-> | [-> | Hs]]; [by exists "."|by exists "/"|]. apply IH. lia. }
  exists top. split; [|done]. by destruct (ancestors n (Dir dir)).
Qed.
End ancestors.
(** ** The verdict *)

Definition failed_row (r : ScenarioResult) : Prop := sr_Result r = StatusFail.
Definition blocked_row (r : ScenarioResult) : Prop := sr_Result r = StatusBlocked.
(** A required scenario that did not run. *)
Definition required_skip (r : ScenarioResult) : Prop := sr_Result r = StatusSkipped /\ sr_Required r = true.
#[local] Instance failed_row_dec r : Decision (failed_row r) := _.
#[local] Instance blocked_row_dec r : Decision (blocked_row r) := _.
#[local] Instance required_skip_dec r : Decision (required_skip r) := _.

Definition count (P : ScenarioResult -> Prop) `{!forall r, Decision (P r)} (l : list ScenarioResult) : Z :=
  Z.of_nat (List.length (filter P l)).
Lemma count_cons (P : ScenarioResult -> Prop) `{!forall r, Decision (P r)} r l :
  count P (r :: l) = (if decide (P r) then 1 else 0) + count P l.
Proof. unfold count. rewrite filter_cons. destruct (decide (P r)); cbn [List.length]; lia. Qed.
Lemma count_none (P : ScenarioResult -> Prop) `{!forall r, Decision (P r)} l : count P l <= 0 <-> Forall (fun r => ~ P r) l.
Proof.
  induction l as [|r l IH]; [by split; [constructor|unfold count; cbn; lia]|]. rewrite count_cons, Forall_cons, <-IH.
  assert (0 <= count P l) by (unfold count; lia). destruct (decide (P r)); split; intros; try tauto; try lia.
Qed.

Lemma fold_counts l s :
  let s' := fold_left count_row l s in
  su_Fail s' = su_Fail s + count failed_row l /\ su_Blocked s' = su_Blocked s + count blocked_row l /\
  su_RequiredSkipped s' = su_RequiredSkipped s + count required_skip l.
Proof.
  cbv zeta. revert s. induction l as [|r l IH]; intros s; [unfold count; cbn; lia|]. cbn [fold_left].
  destruct (IH (count_row s r)) as (-> & -> & ->). rewrite !count_cons. destruct s as [t p f k b q o g]. unfold count_row.
  destruct (decide (failed_row r)) as [Hf|Hf], (decide (blocked_row r)) as [Hb|Hb], (decide (required_skip r)) as [Hq|Hq];
    unfold failed_row, blocked_row, required_skip, StatusPass, StatusFail, StatusSkipped, StatusBlocked in *;
    repeat case_bool_decide; try (destruct (sr_Required r) eqn:Er);
    try congruence; try (exfalso; intuition congruence); cbn; lia.
Qed.

Lemma summary_counts l c :
  su_Fail (summarize l c) = count failed_row l /\ su_Blocked (summarize l c) = count blocked_row l /\
  su_RequiredSkipped (summarize l c) = count required_skip l.
Proof.
  destruct (fold_counts l (MkSummary (Z.of_nat (List.length l)) 0 0 0 0 0 "" false)) as (Hf & Hb & Hr).
  unfold summarize. cbn. auto.
Qed.

(** The exit code is 0 exactly when no row failed and no required row was
    skipped; the run is GA ready exactly when it is also certifying and no row
    is blocked. *)
Lemma exit_ok l c : exitCodeForSummary (summarize l c) = exitOK <->
  Forall (fun r => ~ failed_row r /\ ~ required_skip r) l.
Proof.
  destruct (summary_counts l c) as (Hf & Hb & Hr).
  assert (su_Overall (summarize l c) = "INCOMPLETE" -> 0 < su_RequiredSkipped (summarize l c)) as Hi.
  { unfold summarize. cbn. destruct (0 <? _); [done|]. destruct (Z.ltb_spec 0 (su_RequiredSkipped (fold_left count_row l
      (MkSummary (Z.of_nat (List.length l)) 0 0 0 0 0 "" false)))); [done|done]. }
  unfold exitCodeForSummary. rewrite Hf, Hr in *. rewrite Forall_and, <-(count_none failed_row), <-(count_none required_skip).
  destruct (Z.ltb_spec 0 (count failed_row l)); [split; [done|lia]|].
  destruct (Z.ltb_spec 0 (count required_skip l)); cbn [orb]; [split; [done|lia]|].
  rewrite bool_decide_false; [|intros E; apply Hi in E; lia]. split; [lia|done].
Qed.
Lemma ga_ready l c : su_GAReady (summarize l c) = true <->
  c = true /\ Forall (fun r => ~ failed_row r /\ ~ required_skip r) l /\ Forall (fun r => ~ blocked_row r) l.
Proof.
  destruct (fold_counts l (MkSummary (Z.of_nat (List.length l)) 0 0 0 0 0 "" false)) as (Hf & Hb & Hr).
  cbn [su_Fail su_Blocked su_RequiredSkipped] in *. unfold summarize. cbn [su_GAReady]. rewrite Hf, Hb, Hr.
  rewrite Forall_and, <-(count_none failed_row), <-(count_none required_skip), <-(count_none blocked_row), !andb_true_iff, bool_decide_eq_true, Z.eqb_eq.
  assert (0 <= count blocked_row l) by (unfold count; lia).
  destruct (Z.ltb_spec 0 (0 + count failed_row l)); [naive_solver lia|].
  destruct (Z.ltb_spec 0 (0 + count required_skip l)); naive_solver lia.
Qed.

(** ** Running the scenarios *)

Section run.
Context `{X : Ext, W : Wire, H : HD, ME : Manifest.ManifestExt, C : CertExt}.
Context (impls : gmap string (prog state call verdict)) (R : state -> state -> Prop).

(** Some execution of the implementation of [def] returned [r]. *)
Definition returned (def : ScenarioDef) (r : Result) : Prop :=
  exists fn s tr s', impls !! sd_ID def = Some fn /\ exec R fn s tr (Returned r) s'.

(** The row of [def]: its columns are those of the definition, and its result is
    one that its implementation returned, or else a skip or a failure. *)
Definition row_of (def : ScenarioDef) (row : ScenarioResult) : Prop :=
  sr_ID row = sd_ID def /\ sr_Title row = sd_Title def /\ sr_Group row = sd_Group def /\
  sr_RequirementRefs row = sd_RequirementRefs def /\ sr_Required row = sd_Required def /\
  exists r, sr_Result row = re_Status r /\ sr_Dependency row = re_Dependency r /\ (r = skip \/ r = fail \/ returned def r).

Lemma exec_need rc need s tr r s' : exec R (check_need rc need) s tr (Some r) s' -> r = skip \/ r = fail.
Proof.
  assert (Hu : forall b, Some r = unless b -> r = skip) by (intros []; cbn; congruence).
  unfold check_need. destruct (bool_decide (need = "manifest")); [intros (_ & E & _); left; by eapply Hu|].
  destruct (bool_decide (need = "funds")).
  { intros (_ & E & _). left. destruct (GoStrings.empty _); [congruence|]. by eapply Hu. }
  destruct (bool_decide (need = "rpc")); [intros (_ & E & _); left; by eapply Hu|].
  destruct (bool_decide (need = "gotool")), (bool_decide (need = "tsx")), (bool_decide (need = "promtool"));
    try (intros (b & s1 & t1 & t2 & _ & _ & (_ & E & _))%exec_bind; left; by eapply Hu).
  intros (_ & E & _). right. congruence.
Qed.
Lemma exec_gate rc needs s tr r s' : exec R (gate rc needs) s tr (Some r) s' -> r = skip \/ r = fail.
Proof.
  revert s tr. induction needs as [|n needs IH]; intros s tr; [by intros (_ & [=] & _)|]. cbn [gate].
  intros (g & s1 & t1 & t2 & _ & H1 & H2)%exec_bind. destruct g as [g|]; [|by eapply IH].
  destruct H2 as (_ & [= ->] & _). by eapply exec_need.
Qed.
Lemma exec_runOne rc def s tr row s' : exec R (runOne impls rc def) s tr row s' -> row_of def row.
Proof.
  unfold runOne. intros (g & s1 & t1 & t2 & _ & Hg & Hr)%exec_bind.
  apply exec_bind in Hr as (r & s2 & t3 & t4 & _ & Hr & (_ & -> & _)). unfold row_of. cbn. split_and!; try done.
  exists r. split_and!; [done..|]. destruct g as [g|].
  - destruct Hr as (_ & -> & _). apply exec_gate in Hg. tauto.
  - unfold runProtected in Hr. destruct (impls !! sd_ID def) as [fn|] eqn:Ei; [|destruct Hr as (_ & -> & _); auto].
    apply exec_bind in Hr as (v & s3 & t5 & t6 & _ & Hv & (_ & -> & _)). destruct v as [r|]; [|auto].
    right. right. by exists fn, s1, t5, s3.
Qed.
Lemma exec_run_all rc defs s tr rows s' : exec R (run_all impls rc defs) s tr rows s' -> Forall2 row_of defs rows.
Proof.
  revert s tr rows. induction defs as [|d defs IH]; intros s tr rows; [intros (_ & -> & _); constructor|]. cbn [run_all].
  intros (row & s1 & t1 & t2 & _ & H1 & H2)%exec_bind.
  apply exec_bind in H2 as (rs & s2 & t3 & t4 & _ & H2 & (_ & -> & ->)). constructor; [by eapply exec_runOne|by eapply IH].
Qed.

(** *** The definitions that are loaded *)

Lemma add_defs_ok f ds seen defs seen' defs' : add_defs f ds seen defs = Ok (seen', defs') ->
  seen = list_to_set (map sd_ID defs) -> NoDup (map sd_ID defs) ->
  seen' = list_to_set (map sd_ID defs') /\ NoDup (map sd_ID defs').
Proof.
  revert seen defs. induction ds as [|d ds IH]; intros seen defs; cbn; [by intros [= <- <-]|].
  destruct (_ || _); [done|]. case_bool_decide as Hd; [done|]. intros Ha Hs Hn. apply IH in Ha; [done| |].
  - subst seen. rewrite map_app, list_to_set_app_L. cbn. set_solver.
  - rewrite map_app. apply NoDup_app. split_and!; [done| |cbn; by apply NoDup_singleton].
    intros x Hx. cbn. subst seen. set_solver.
Qed.
Lemma exec_load_files read files seen defs s tr defs' s' : exec R (load_files read files seen defs) s tr (Ok defs') s' ->
  seen = list_to_set (map sd_ID defs) -> NoDup (map sd_ID defs) -> NoDup (map sd_ID defs').
Proof.
  revert seen defs s tr. induction files as [|f files IH]; intros seen defs s tr; cbn [load_files];
    [by intros (_ & [= ->] & _)|].
  intros (data & s1 & t1 & t2 & _ & _ & Hf)%exec_bind Hs Hn.
  destruct data as [data|]; [|by destruct Hf as (_ & [=] & _)].
  destruct (yaml_scenarios data) as [ds|]; [|by destruct Hf as (_ & [=] & _)].
  destruct (add_defs f ds seen defs) as [[seen2 defs2]|] eqn:Ea; [|by destruct Hf as (_ & [=] & _)].
  destruct (add_defs_ok _ _ _ _ _ _ Ea Hs Hn) as [Hs2 Hn2]. by eapply IH.
Qed.

Definition implemented (d : ScenarioDef) : Prop := is_Some (impls !! sd_ID d).
Lemma checked_ok defs defs' : checked impls defs = Ok defs' -> defs' = defs /\ defs <> [] /\ Forall implemented defs.
Proof.
  unfold checked. destruct defs as [|d0 ds]; [done|]. destruct (List.find _ _) as [d|] eqn:Ef; [done|].
  intros [= <-]. split_and!; [done..|]. apply Forall_forall. intros d Hd. apply list_elem_of_In in Hd.
  pose proof (List.find_none _ _ Ef _ Hd) as Hu. unfold unimplemented in Hu. apply negb_false_iff, bool_decide_eq_true in Hu. done.
Qed.

(** Distinct ids, each with an implementation. *)
Lemma exec_loadScenarioDefs dir s tr defs s' : exec R (loadScenarioDefs impls dir) s tr (Ok defs) s' ->
  NoDup (map sd_ID defs) /\ defs <> [] /\ Forall implemented defs.
Proof.
  assert (Hload : forall read files s tr s', exec R (let? defs := load_files read files ∅ [] in Done (checked impls defs)) s tr (Ok defs) s' ->
    NoDup (map sd_ID defs) /\ defs <> [] /\ Forall implemented defs).
  { intros read files s1 t1 s2 (defs' & s3 & t2 & t3 & _ & Hl & (_ & Hc & _))%exec_r_bind_ok.
    symmetry in Hc. apply checked_ok in Hc as (-> & Hne & Hi). split_and!; [|done..].
    eapply exec_load_files; [exact Hl|done|constructor]. }
  unfold loadScenarioDefs. destruct (GoStrings.empty dir); [apply Hload|].
  intros (names & s1 & t1 & t2 & _ & _ & Hn)%exec_bind. destruct names as [names|]; [|by destruct Hn as (_ & [=] & _)].
  by eapply Hload.
Qed.

(** The selection keeps the order, and leaves out no wanted id. *)
Lemma select_spec defs want sel rest : select defs want = (sel, rest) ->
  sublist sel defs /\ (forall id, id ∈ want -> id ∈ rest \/ exists d, d ∈ sel /\ sd_ID d = id).
Proof.
  revert want sel rest. induction defs as [|d defs IH]; intros want sel rest; cbn; [intros [= <- <-]; split; [constructor|auto]|].
  case_bool_decide as Hd.
  - destruct (select defs _) as [sel1 rest1] eqn:Es. intros [= <- <-]. apply IH in Es as [Hs Hi]. split; [by constructor|].
    intros id Hid. destruct (decide (id = sd_ID d)) as [->|Hne]; [right; exists d; set_solver|].
    destruct (Hi id) as [?|(d' & ? & ?)]; [set_solver|by left|]. right. exists d'. set_solver.
  - intros Es. apply IH in Es as [Hs Hi]. split; [by constructor|done].
Qed.
Lemma selected_spec defs only sel : selected defs only = Some sel ->
  sublist sel defs /\ (only = [] -> sel = defs) /\ (forall id, id ∈ only -> exists d, d ∈ sel /\ sd_ID d = id).
Proof.
  unfold selected. destruct only as [|o only]; [intros [= <-]; split_and!; [done..|set_solver]|].
  destruct (select defs _) as [sel1 rest] eqn:Es. case_bool_decide as Hr; [|done]. intros [= <-]. subst rest.
  apply select_spec in Es as [Hs Hi]. split_and!; [done..|]. intros id Hid. destruct (Hi id) as [?|?]; [set_solver| |done]. set_solver.
Qed.
End run.

(** ** Mainnet is never drilled *)

(** The cached session, if there is one, is with another chain. *)
Definition off_mainnet (s : state) : Prop := match st_live s with Some (Ok env) => le_chainID env <> "sovr-1" | _ => True end.

Lemma live_never_mainnet `{X : Ext, W : Wire, HD0 : HD} scheme rc s tr r s' : off_mainnet s ->
  exec eq (liveChain scheme rc) s tr r s' -> off_mainnet s' /\ forall env, r = Ok env -> le_chainID env <> "sovr-1".
Proof.
  unfold liveChain. intros Ho (c & s1 & t1 & t2 & _ & (s0 & <- & _ & -> & ->) & Hc)%exec_bind. cbn [fst snd] in Hc.
  destruct (st_live s) as [r0|] eqn:El.
  - destruct Hc as (_ & -> & ->). split; [done|]. intros env ->. unfold off_mainnet in Ho. by rewrite El in Ho.
  - apply exec_bind in Hc as (r1 & s1 & t3 & t4 & _ & Hr & (s2 & <- & _ & -> & ->)). cbn [fst snd].
    assert (forall env, r1 = Ok env -> le_chainID env <> "sovr-1") as Hm; [|split; [unfold off_mainnet; cbn; destruct r1; auto|done]].
    intros env ->. unfold openLiveEnv in Hr. destruct (Transport.NewCometRPC _ _) as [base|]; [|by destruct Hr as (_ & [=] & _)].
    apply exec_bind in Hr as (st & s2 & t5 & t6 & _ & _ & Hr). destruct st as [st|]; [|by destruct Hr as (_ & [=] & _)].
    case_bool_decide as Hid; [by destruct Hr as (_ & [=] & _)|].
    destruct (Derive.DeriveAddress _ _) as [f|]; [|by destruct Hr as (_ & [=] & _)].
    apply exec_bind in Hr as (b & s3 & t7 & t8 & _ & _ & Hr). destruct b as [b|]; [|by destruct Hr as (_ & [=] & _)].
    destruct (b <? _); destruct Hr as (_ & [=] & _). by subst env.
Qed.

(** ** The run command *)

Section certify.
Context `{X : Ext, W : Wire, HD0 : HD, ME : Manifest.ManifestExt, C : CertExt}.
Context (impls : gmap string (prog state call verdict)).
Local Notation exec := (exec eq).

Lemma exec_context fl root s tr rc s' : exec (context fl root) s tr rc s' -> rc_Mode rc = fl_network fl.
Proof.
  unfold context. intros Hc. do 6 (apply exec_bind in Hc as (? & ? & ? & ? & _ & _ & Hc)). by destruct Hc as (_ & -> & _).
Qed.
Lemma exec_buildReport rc rows s tr r s' : exec (buildReport rc rows) s tr r s' ->
  rp_Scenarios r = rows /\ rp_Mode r = rc_Mode rc /\ rp_Summary r = summarize rows (bool_decide (rc_Mode rc = "testnet")).
Proof. unfold buildReport. intros (live & s1 & t1 & t2 & _ & _ & (_ & -> & _))%exec_bind. done. Qed.
Lemma exec_WriteFile path data s tr s' : exec (WriteFile path data) s tr true s' -> st_disk s' = <[path := File data]> (st_disk s).
Proof.
  unfold WriteFile. intros (ok & s1 & t1 & t2 & _ & [_ ->]%exec_ask & Hw)%exec_bind.
  destruct ok; [|by destruct Hw as (_ & [=] & _)]. by destruct Hw as (s2 & <- & _ & _ & ->).
Qed.
Lemma exec_writeReport dir r s tr s' : exec (writeReport dir r) s tr true s' -> exists data, json_report r = Some data /\
  st_disk s' = <[Filepath.Join dir reportJSONName := File (data ++ ManifestTool.to_bytes ManifestTool.newline)]> (st_disk s).
Proof.
  unfold writeReport. intros (made & s1 & t1 & t2 & _ & [_ ->]%exec_ask & Hw)%exec_bind.
  destruct made; cbn [negb] in Hw; [|by destruct Hw as (_ & [=] & _)].
  destruct (json_report r) as [data|]; [|by destruct Hw as (_ & [=] & _)]. apply exec_WriteFile in Hw. eauto.
Qed.
Lemma exec_renderToFile dir s tr s' : exec (renderToFile dir) s tr (Ok tt) s' -> exists md,
  st_disk s' = <[Filepath.Join dir reportMarkdownName := File md]> (st_disk s).
Proof.
  unfold renderToFile. intros (d & s1 & t1 & t2 & _ & (s0 & <- & _ & -> & ->) & Hr)%exec_bind. cbn [fst snd] in Hr.
  destruct (st_disk s !! _) as [[data| |]|]; try by destruct Hr as (_ & [=] & _).
  destruct (json_read data) as [r|]; [|by destruct Hr as (_ & [=] & _)].
  apply exec_bind in Hr as (ok & s2 & t3 & t4 & _ & Hw & (_ & Hok & ->)). destruct ok; [|done].
  apply exec_WriteFile in Hw. eauto.
Qed.
Lemma report_names dir : Filepath.Join dir reportMarkdownName <> Filepath.Join dir reportJSONName.
Proof.
  destruct (decide (dir = "")) as [->|Hd]; [by vm_compute|]. intros E. apply Join_inj in E; [done|done|by apply file_name_plain..].
Qed.

(** What a scenario that counts as done has done: its row tells what an execution
    of its implementation returned, unless it was optional and skipped. *)
Definition vouched (def : ScenarioDef) (row : ScenarioResult) : Prop :=
  sr_ID row = sd_ID def /\
  (sr_Result row = StatusSkipped /\ sd_Required def = false \/
   exists r, returned impls eq def r /\ sr_Result row = re_Status r /\ re_Status r <> StatusFail /\
     (sd_Required def = true -> re_Status r <> StatusSkipped)).

Lemma vouched_rows sel rows : Forall2 (row_of impls eq) sel rows ->
  Forall (fun r => ~ failed_row r /\ ~ required_skip r) rows -> Forall2 vouched sel rows.
Proof.
  induction 1 as [|def row sel rows Hr _ IH]; intros Hall; [constructor|]. apply Forall_cons in Hall as [[Hf Hs] Hall].
  constructor; [|by apply IH]. destruct Hr as (Hid & _ & _ & _ & Hreq & r & Hres & _ & Hr). split; [done|].
  unfold failed_row, required_skip in *. rewrite Hres, Hreq in *. destruct Hr as [-> | [-> | Hr]].
  - left. split; [done|]. destruct (sd_Required def); [|done]. by destruct Hs.
  - by destruct Hf.
  - right. exists r. split_and!; try done. intros Hq Hk. by apply Hs.
Qed.
End certify.

Section certification_sound.
Context `{X : Ext, W : Wire, HD0 : HD, ME : Manifest.ManifestExt, C : CertExt}.
Context (impls : gmap string (prog state call verdict)).
Local Notation exec := (exec eq).

End certification_sound.

(** ** A run of one of two required scenarios *)

Module sample.
Existing Instance Sample.sample.
Existing Instance SignerSample.wire.
Existing Instance SignerSample.hd.
Existing Instance ManifestToolSample.ManifestToolSample.yaml.

Definition def (id : string) : ScenarioDef := MkDef id ("scenario " +:+ id) "A" [] true [] [] "".
Definition blank : Report := MkCertReport "" "" "" "" false "" [] ∅ [] "" "" (summarize [] false).
(** A report is written as whether it is GA ready and how many rows it has. *)
Instance files : CertExt := {
  yaml_scenarios b := if bool_decide (b = [x01]) then Some [def "N1"; def "A1"] else None;
  yaml_backend _ := None;
  json_report r := Some [if su_GAReady (rp_Summary r) then x01 else x00;
                         if bool_decide (List.length (rp_Scenarios r) = 1%nat) then x01 else x02];
  json_read _ := Some blank;
  renderMarkdown _ := [];
  embeddedScenarios := [("scenarios.yaml", [x01])];
  Version := "dev" }.
Definition passing : prog state call verdict := Done (Returned (MkResult StatusPass "")).
Definition broken : prog state call verdict := Done Panicked.
Definition table : gmap string (prog state call verdict) := {["A1" := passing; "N1" := broken]}.
Definition answers : oracle := fun T (c : call T) =>
  match c in call T return T with
  | LookPath _ => true
  | Getwd => Some "/kit"
  | Abs p => Some p
  | Getenv _ => ""
  | ReadDir _ => None
  | Writable _ => true
  | NodeStatusOf _ => Err ErrOther
  | BalanceOf _ _ _ => Err ErrOther
  | Credit _ _ _ => None
  | TempStore _ => Some 0
  end.
Definition kit : state :=
  MkState {["/kit/test-vectors" := ManifestTool.Directory; "/kit/network" := ManifestTool.Directory]} None.
Definition run_flags (only : list string) : flags := MkFlags "testnet" "" "" "/report" "" "/kit" "ops" "" only.

Lemma subset_exits : o_value (run answers (cmdRun table (run_flags ["A1"])) kit) = exitOK.
Proof. vm_compute. reflexivity. Qed.


(** A run of one scenario exits 0 and is GA ready although the other required
    scenario, which would fail, was not run. *)
Lemma subset_certifies :
  o_value (run answers (cmdRun table (run_flags ["A1"])) kit) = exitOK /\
  st_disk (o_state (run answers (cmdRun table (run_flags ["A1"])) kit)) !! "/report/certification.json" =
    Some (File [x01; x01; x0a]) /\
  o_value (run answers (cmdRun table (run_flags [])) kit) = exitFail.
Proof. split_and!; vm_compute; reflexivity. Qed.
End sample.

End CertificationLaws.
