(* ===== verification/Drills.v ===== *)
(** * Drills: certification scenarios that run without a chain

    The stub chain of [go/cmd/sovren-cert/stub_client.go] and the offline
    scenarios that put components of the kit together against it: the outage of
    N3 and the foreign chain of N4 ([group_n.go]) and the reconciliation and pause
    drills C1 to C4 ([group_c.go]).  A drill is a handler over a throwaway store; the readings of
    metrics and the evidence are left out.  The drills pass on the modelled kit. *)

From stdpp Require Import base list strings gmap.
From Stdlib Require Import ZArith Lia Ascii String Strings.Byte.
From S2P Require Import Prelude Workers Text GoStrings Storage Database SqlStore Hash Chain Parse Deposits Scanner Failover Reconcile.
From S2P Require Import Signers ExecSigner Sample SignerSample Certification.
Import SqlStore Deposits Reconcile Certification.

Open Scope string_scope.
Open Scope list_scope.
Open Scope Z_scope.

Module Drills.

(** ** The stub chain *)

Record stubChain : Type := MkStub {
  sb_chainID : string; sb_tip : Z; sb_txs : Z -> list bytes; sb_results : Z -> list TxExecResult;
  sb_balances : gmap string Z; sb_failing : bool }.
Definition newStubChain (chainID : string) (tip : Z) : stubChain := MkStub chainID tip (fun _ => []) (fun _ => []) ∅ false.
Definition setFailing (v : bool) (s : stubChain) : stubChain :=
  MkStub (sb_chainID s) (sb_tip s) (sb_txs s) (sb_results s) (sb_balances s) v.
Definition set_balance (addr : string) (v : Z) (s : stubChain) : stubChain :=
  MkStub (sb_chainID s) (sb_tip s) (sb_txs s) (sb_results s) (<[addr := v]> (sb_balances s)) (sb_failing s).
Definition addTx (height : Z) (txBytes : bytes) (res : TxExecResult) (s : stubChain) : stubChain :=
  let at_height {A} (f : Z -> list A) (a : A) h := if h =? height then f h ++ [a] else f h in
  MkStub (sb_chainID s) (sb_tip s) (at_height (sb_txs s) txBytes) (at_height (sb_results s) res) (sb_balances s) (sb_failing s).

Definition hashAt (s : stubChain) (h : Z) : bytes :=
  Hash.Sum256 (list_byte_of_string ("cert-block-" +:+ sb_chainID s +:+ "-" +:+ int_string h)).
Definition blockAt (s : stubChain) (h : Z) : Block :=
  MkBlock (sb_chainID s) h (hashAt s h) ((1700000000 + h * 5) * 10 ^ 9) (if 1 <? h then hashAt s (h - 1) else []) (sb_txs s h).

(** [enter]: a failing stub answers every call with a transport error. *)
Definition enter {A} (s : stubChain) (a : result err A) : result err A := if sb_failing s then Err ErrOther else a.

(** The answers of the stub, at the time [now]; the drills use no signer. *)
Definition stub (s : stubChain) (now : Z) : oracle (C := Chain.call) := fun T c =>
  match c in Chain.call T return T with
  | CAccount _ => enter s (Ok (1, 0))
  | CTx _ => enter s (Err ErrClientNotFound)
  | CBroadcast b _ => enter s (Ok (MkBroadcast (Hash.HexUpper (Hash.Sum256 b)) 0 "" true))
  | CBalance addr _ => enter s (Ok (default 0 (sb_balances s !! addr)))
  | CSimulate _ => enter s (Ok (MkSimulate 80000 80000))
  | CNodeStatus => enter s (Ok (MkNodeStatus (sb_chainID s) (sb_tip s) false))
  | CLatestBlock => enter s (Ok (blockAt s (sb_tip s)))
  | CBlockByHeight h => enter s (if (h <? 1) || (sb_tip s <? h) then Err ErrClientNotFound else Ok (blockAt s h))
  | CBlockResults h => enter s (Ok (MkBlockResults h (sb_results s h) []))
  | CGetPublicKey _ => Err ErrOther
  | CSign _ => Err ErrOther
  | CNow => now
  | CCorrelationID => "c0"
  | CNewID => "id0"
  | CCompare _ => Err ErrOther
  end.

(** ** Helpers *)

Definition certChainID : string := "cert-local-1".
Definition certTestMnemonic : string := "special sign fit simple patrol salute grocery chicken wheat radar tonight ceiling".
Definition certLedgerTxHash : string := "AAAA1111BBBB2222CCCC3333DDDD4444EEEE5555FFFF6666AAAA7777BBBB8888".
Definition certFailedTxHash : string := "1111AAAA2222BBBB3333CCCC4444DDDD5555EEEE6666FFFF7777AAAA8888BBBB".

Definition certKey `{Ext, Wire, HD} (i : Z) : result Derive.derive_error Derive.derived :=
  Derive.DeriveAddress certTestMnemonic ("m/44'/118'/0'/0/" +:+ int_string i).
Definition watchAddr (chainID addr : string) (kind : WatchedAddressKind) : db unit :=
  Watch_Upsert (MkWatched chainID addr kind "" false true).
Definition seedExternalDeposit (addr txHash : string) (height amount now : Z) : db LedgerEntry :=
  Ledger_Append (MkLedgerEntry 0 certChainID LedgerKindTx txHash 0 0 height 0 DirectionIn addr [] amount BaseDenom 0
    ClassExternalDeposit now).

Definition is_ok {A} (r : result err A) : bool := match r with Ok _ => true | Err _ => false end.
(** A step whose error fails the drill. *)
Definition step {A} (p : handler (result err A)) (k : A -> handler Result) : handler Result :=
  let* r := p in match r with Ok a => k a | Err _ => Done fail end.
Definition passes : Result := MkResult StatusPass "".
Definition verify (ok : bool) (p : handler Result) : handler Result := if ok then p else Done fail.

(** A scenario on a throwaway store and a stub chain. *)
Definition in_store (chain : stubChain) (now : Z) (p : handler Result) : Result :=
  o_value (run (stub chain now) p (empty_store now)).
Definition tempStore (prefix : string) (k : Z -> Result) : prog state call verdict :=
  let* st := ask (TempStore prefix) in
  Done (Returned (match st with None => fail | Some now => k now end)).

(** ** N4: a node of another chain *)

Definition n4_config : Scanner.ScannerConfig := Scanner.MkConfig certChainID 1 0 0 None false None 0.
Definition wrong_chain `{ScanExt} (cfg : Scanner.ScannerConfig) (base : Z) : handler Result :=
  let* c := Scanner.Cycle cfg base in
  match snd c with
  | Ok _ => Done fail
  | Err _ =>
      step (stmt (ChainReview_ListOpen certChainID)) (fun open =>
      verify (existsb (fun c => bool_decide (cr_Trigger c = TriggerWrongChainID)) open)
      (step (stmt (LoadCreditGate certChainID)) (fun gate =>
       verify (g_ChainReviewOpen gate) (Done passes))))
  end.
Definition scenarioN4WrongChain `{ScanExt} : prog state call verdict :=
  tempStore "n4" (fun now =>
    match Scanner.NewScanner n4_config with
    | Err _ => fail
    | Ok (cfg, base) => in_store (newStubChain "sovr-fork-1" 5) now (wrong_chain cfg base)
    end).

(** ** N3: the standby takes over *)

Definition pool_of (primary secondary : stubChain) (now : Z) : oracle (C := Failover.wire) := fun T w =>
  match w in Failover.wire T return T with
  | Failover.Send Failover.Primary c => stub primary now _ c
  | Failover.Send Failover.Secondary c => stub secondary now _ c
  | Failover.Local c => stub primary now _ c
  | Failover.CtxErr => false
  end.
(** [callCount("LatestBlock")] of a node. *)
Definition is_latest {T} (c : Chain.call T) : bool := match c with CLatestBlock => true | _ => false end.
Definition served_by (n : Failover.node) (w : { T : Type & Failover.wire T }) : bool :=
  match projT2 w with
  | Failover.Send Failover.Primary c => match n with Failover.Primary => is_latest c | _ => false end
  | Failover.Send Failover.Secondary c => match n with Failover.Secondary => is_latest c | _ => false end
  | _ => false
  end.
Definition callCount (n : Failover.node) (calls : list { T : Type & Failover.wire T }) : nat :=
  List.length (List.filter (served_by n) calls).

Definition scenarioN3Failover (now : Z) : Result :=
  let primary := newStubChain certChainID 10 in
  let secondary := newStubChain certChainID 10 in
  let '(policy, fo) := Failover.NewFailover (Failover.MkPolicy 1 0) in
  let call p y := run (pool_of p secondary now) (Failover.LatestBlock policy) y in
  let r1 := call primary (empty_store now, fo) in
  if is_ok (o_value r1) && negb (callCount Failover.Primary (o_calls r1) =? 0)%nat then
    let failing := setFailing true primary in
    let r2 := call failing (o_state r1) in
    if is_ok (o_value r2) && negb (callCount Failover.Secondary (o_calls r1 ++ o_calls r2) =? 0)%nat then
      let r3 := call failing (o_state r2) in
      if is_ok (o_value r3) then passes else fail
    else fail
  else fail.

(** ** C1 to C3: reconciliation *)

Section reconciliation.
Context `{X : Ext, W : Wire, HD0 : HD}.

(** The pages of the ledger walk: a few rows are one page. *)
Definition pages : nat := 1.

Definition with_key (i : Z) (k : string -> Result) : Result :=
  match certKey i with Err _ => fail | Ok key => k (Derive.d_Bech32 key) end.
Definition with_reconciler (k : Reconciler -> handler Result) : handler Result :=
  match Reconcile.New true certChainID with Err _ => Done fail | Ok rec => k rec end.

Definition clean_run (addr : string) (now : Z) : handler Result :=
  step (stmt (watchAddr certChainID addr WatchCustomerDeposit)) (fun _ =>
  step (stmt (seedExternalDeposit addr certLedgerTxHash 10 5000000 now)) (fun _ =>
  with_reconciler (fun rec =>
  step (ReconcileAddressReport rec pages addr) (fun report =>
  verify (rr_DiscrepancyCount report =? 0)
  (step (stmt (Recon_GetReport (rr_ReportID report))) (fun _ => Done passes)))))).
Definition scenarioC1CleanRun : prog state call verdict :=
  tempStore "c1" (fun now => with_key 101 (fun addr =>
    in_store (set_balance addr 5000000 (newStubChain certChainID 12)) now (clean_run addr now))).

(** The fields that FR-048 asks of a discrepancy; amounts are never nil here. *)
Definition fields_complete (e : ReconciliationEntry) : bool :=
  negb (empty (re_Address e)) && negb (re_Difference e =? 0) && negb (re_EarliestSuspectedHeight e =? 0) &&
  match re_RelatedTxHashes e with [] => false | _ => true end && negb (re_RecommendedRescanHeight e =? 0).
(** The last entry with a difference. *)
Definition discrepancy (entries : list ReconciliationEntry) : option ReconciliationEntry :=
  fold_left (fun found e => if negb (re_Difference e =? 0) then Some e else found) entries None.
Definition discrepancy_fields (addr : string) (now : Z) : handler Result :=
  step (stmt (watchAddr certChainID addr WatchCustomerDeposit)) (fun _ =>
  step (stmt (seedExternalDeposit addr certLedgerTxHash 10 5000000 now)) (fun _ =>
  with_reconciler (fun rec =>
  step (ReconcileAddressReport rec pages addr) (fun report =>
  verify ((rr_DiscrepancyCount report =? 1) && negb (bool_decide (List.length (rr_Entries report) = 0%nat)))
  (match discrepancy (rr_Entries report) with
   | None => Done fail
   | Some e => verify (fields_complete e) (Done passes)
   end))))).
Definition scenarioC2DiscrepancyFields : prog state call verdict :=
  tempStore "c2" (fun now => with_key 102 (fun addr =>
    in_store (set_balance addr 4600000 (newStubChain certChainID 12)) now (discrepancy_fields addr now))).

Definition fee_outflow (hot : string) (now : Z) : handler Result :=
  step (stmt (watchAddr certChainID hot WatchHotWallet)) (fun _ =>
  step (stmt (seedExternalDeposit hot certLedgerTxHash 20 10000000 now)) (fun _ =>
  step (stmt (Ledger_AppendFeeOutflow (MkFeeOutflow 0 certChainID certFailedTxHash hot 5000 11 25 now))) (fun _ =>
  with_reconciler (fun rec =>
  step (HotWallet rec pages hot) (fun hw =>
  verify ((hw_Difference hw =? 0) && hw_Explained hw)
  (step (ReconcileAddressReport rec pages hot) (fun report =>
   verify (rr_DiscrepancyCount report =? 0) (Done passes)))))))).
Definition scenarioC3FeeOutflow : prog state call verdict :=
  tempStore "c3" (fun now => with_key 103 (fun hot =>
    in_store (set_balance hot (10000000 - 5000) (newStubChain certChainID 30)) now (fee_outflow hot now))).
End reconciliation.

(** ** C4: each pause is its own switch *)

Inductive flow : Type := Credit | Signing | Broadcast | Sweep.
#[local] Instance flow_eq_dec : EqDecision flow.
Proof. solve_decision. Defined.
Definition flows : list flow := [Credit; Signing; Broadcast; Sweep].
Definition flow_name (f : flow) : string :=
  match f with Credit => "credit" | Signing => "signing" | Broadcast => "broadcast" | Sweep => "sweep" end.
Definition flow_set (f : flow) (v : bool) : ControlsUpdate :=
  let only g := if bool_decide (f = g) then Some v else None in
  MkControlsUpdate (only Credit) (only Signing) (only Broadcast) (only Sweep) None None false.
Definition flow_state (f : flow) (c : OperationalControls) : bool :=
  match f with
  | Credit => oc_CreditPaused c
  | Signing => oc_SigningPaused c
  | Broadcast => oc_BroadcastPaused c
  | Sweep => oc_SweepPaused c
  end.

Definition c4_deposit : DepositRecord :=
  MkDeposit 0 "" "" 0 0 1 0 None "" BaseDenom 1 "" 0 "" DepositCreditable None None None 0 0.
Definition gate_follows (f : flow) (k : handler Result) : handler Result :=
  if bool_decide (f = Credit) then
    step (stmt (LoadCreditGate certChainID)) (fun gate =>
    verify (g_CreditPaused gate)
    (verify (bool_decide (fst (EvaluateCreditConditions c4_deposit 10 1 gate) = DecisionHold)) k))
  else k.
Fixpoint pause_each (fs : list flow) (k : handler Result) : handler Result :=
  match fs with
  | [] => k
  | f :: fs' =>
      step (stmt (Controls_Apply certChainID (flow_set f true) "sovren-cert" ("C4 pause " +:+ flow_name f))) (fun _ =>
      step (stmt (Controls_Get certChainID)) (fun c =>
      verify (forallb (fun g => Bool.eqb (flow_state g c) (bool_decide (g = f))) flows)
      (gate_follows f
       (step (stmt (Controls_Apply certChainID (flow_set f false) "sovren-cert" ("C4 resume " +:+ flow_name f))) (fun _ =>
        pause_each fs' k)))))
  end.
Definition pause_independence : handler Result :=
  pause_each flows
    (step (stmt (Controls_Get certChainID)) (fun final =>
     verify (negb (existsb (fun f => flow_state f final) flows))
     (step (stmt (Controls_ListAudit certChainID 100)) (fun audit =>
      verify (8 <=? List.length audit)%nat (Done passes))))).
Definition scenarioC4PauseIndependence : prog state call verdict :=
  tempStore "c4" (fun now => in_store (newStubChain certChainID 1) now pause_independence).

(** ** Registration ([register]); a second implementation of an id panics *)

Definition register (id : string) (fn : prog state call verdict) (impls : gmap string (prog state call verdict)) :
    option (gmap string (prog state call verdict)) :=
  match impls !! id with Some _ => None | None => Some (<[id := fn]> impls) end.
(** ** The modelled kit passes the drills *)

Section pass.
Existing Instance Sample.sample.
Existing Instance SignerSample.wire.
Existing Instance SignerSample.hd.
Existing Instance Parse.ex_scan.

(** With a throwaway store at any time [now]. *)
Definition ready (o : oracle (C := call)) : Prop := forall prefix, exists now, o _ (TempStore prefix) = Some now.

Lemma tempStore_runs (o : oracle) prefix k s : ready o -> (forall now, k now = passes) ->
  o_value (run o (tempStore prefix k) s) = Returned passes.
Proof. intros Ho Hk. destruct (Ho prefix) as [now Hn]. cbn. by rewrite Hn, Hk. Qed.

Lemma failover_drill_passes now : scenarioN3Failover now = passes.
Proof. vm_compute. reflexivity. Qed.

Lemma offline_drills_pass (o : oracle) s : ready o ->
  Forall (fun drill => o_value (run o drill s) = Returned passes)
    [scenarioN4WrongChain; scenarioC1CleanRun; scenarioC2DiscrepancyFields; scenarioC3FeeOutflow; scenarioC4PauseIndependence].
Proof.
  intros Ho. repeat constructor; (apply tempStore_runs; [done|]); intros now; vm_compute; reflexivity.
Qed.
End pass.

End Drills.
