(* ===== verification/DepositSystem.v ===== *)
(** * DepositSystem: exactly-once crediting under any interleaving

    Any number of scanners (several processes, restarted at any point), the
    operator's resolutions and controls, and every other worker share the
    database.  [credit_ok] is the invariant that ties credited deposits and
    credited outbox events one to one, [evolves] what never changes again, and
    the theorems lift the per-handler proofs to every reachable state. *)

From stdpp Require Import base list strings relations.
From Stdlib Require Import ZArith Lia String.
From S2P Require Import Prelude Workers Text Storage Database SqlStore SqlLaws Hash Chain Parse.
From S2P Require Import Interference Deposits DepositLaws Scanner ScannerLaws Sequences Withdrawals ReviewResolution.
Import SqlStore SqlLaws Parse Interference Deposits DepositLaws Scanner ScannerLaws ReviewResolution.

Open Scope string_scope.
Open Scope list_scope.
Open Scope Z_scope.

Module DepositSystem.

(** ** Invariant and guarantee *)

Definition is_credit (ev : OutboxEvent) : Prop := ob_Topic ev = OutboxTopicDepositCredited.
Definition was_credited (d : DepositRecord) : Prop := past_credit (d_Status d) = true.

(** [ev] is the credited event of [d], with its content. *)
Definition event_of (d : DepositRecord) (ev : OutboxEvent) : Prop :=
  is_credit ev /\ ob_DedupKey ev = DepositDedupKey d /\
  exists t, d_CreditedAt d = Some t /\ ob_Payload ev = list_byte_of_string (json_event (credited_event d t)).

Record credit_ok (s : Store) : Prop := CreditOk {
  co_schema : schema_ok s;
  co_stamp : forall d, d ∈ st_deposits s -> is_some (d_CreditedAt d) = past_credit (d_Status d);
  co_event : forall d, d ∈ st_deposits s -> was_credited d -> exists ev, ev ∈ st_outbox s /\ event_of d ev;
  co_once : forall d d', d ∈ st_deposits s -> d' ∈ st_deposits s -> was_credited d -> was_credited d' ->
    DepositDedupKey d = DepositDedupKey d' -> d = d';
  co_cause : forall ev, ev ∈ st_outbox s -> is_credit ev ->
    exists d, d ∈ st_deposits s /\ was_credited d /\ event_of d ev }.

(** The columns of an event no method updates. *)
Definition event_content (ev : OutboxEvent) :=
  (ob_ID ev, ob_ChainID ev, ob_Topic ev, ob_DedupKey ev, ob_Payload ev).

Definition deposit_evolves (d d' : DepositRecord) : Prop :=
  same_deposit d' d /\ (was_credited d -> was_credited d' /\ d_CreditedAt d' = d_CreditedAt d).

Record evolves (s s' : Store) : Prop := Evolves {
  ev_deposits : forall d, d ∈ st_deposits s -> exists d', d' ∈ st_deposits s' /\ deposit_evolves d d';
  ev_outbox : forall ev, ev ∈ st_outbox s -> exists ev', ev' ∈ st_outbox s' /\ event_content ev' = event_content ev }.

#[export] Instance deposit_evolves_preorder : PreOrder deposit_evolves.
Proof.
  split.
  - intros d. split; [reflexivity | done].
  - intros a b c [S1 C1] [S2 C2]. split; [by etransitivity|]. intros Ha.
    destruct (C1 Ha) as [Hb E1]. destruct (C2 Hb) as [Hc E2]. split; congruence.
Qed.
#[export] Instance evolves_preorder : PreOrder evolves.
Proof.
  split.
  - intros s. split; eauto. intros d Hd. exists d. split; [done | reflexivity].
  - intros a b c [D1 O1] [D2 O2]. split.
    + intros d Hd. destruct (D1 d Hd) as (d1 & H1 & E1). destruct (D2 d1 H1) as (d2 & H2 & E2).
      exists d2. split; [done | by etransitivity].
    + intros ev Hev. destruct (O1 ev Hev) as (e1 & H1 & E1). destruct (O2 e1 H1) as (e2 & H2 & E2).
      exists e2. split; congruence.
Qed.

Definition any_call (T : Type) (c : call T) (s : Store) : Prop := True.

Local Notation moves := (moves evolves credit_ok).
Local Notation ok := (safe evolves credit_ok any_call).
Local Notation tame := (tame evolves credit_ok any_call).
Local Notation ok_stmt := (ok_stmt evolves credit_ok any_call).
Local Notation tame_bind := (tame_bind evolves credit_ok any_call).
Local Notation tame_r_bind := (tame_r_bind evolves credit_ok any_call).
Local Notation tame_r_for := (tame_r_for evolves credit_ok any_call).
Local Notation tame_stmt := (tame_stmt evolves credit_ok any_call).
Local Notation tame_atomically := (tame_atomically evolves credit_ok any_call).
Local Notation tame_forget := (tame_forget evolves credit_ok any_call).

Lemma empty_credit_ok t : credit_ok (empty_store t).
Proof.
  split; [apply empty_schema_ok|..]; simpl.
  - by intros d Hd%elem_of_nil.
  - by intros d Hd%elem_of_nil.
  - by intros d d' Hd%elem_of_nil.
  - by intros ev Hev%elem_of_nil.
Qed.

(** The event depends on the permanent columns only. *)
Lemma same_deposit_event a b t :
  same_deposit a b -> DepositDedupKey a = DepositDedupKey b /\ credited_event a t = credited_event b t.
Proof.
  unfold same_deposit, deposit_of, DepositDedupKey, credited_event. intros [= E0 E1 E2 E3 E4 E5 E6 E7 E8 E9 E10 E11 E12].
  by rewrite E1, E2, E3, E4, E5, E7, E8, E9, E10, E11.
Qed.
Lemma event_of_same a b ev :
  same_deposit a b -> d_CreditedAt a = d_CreditedAt b -> event_of b ev -> event_of a ev.
Proof.
  intros Hs Hc (Ht & Hk & t & Hat & Hp). destruct (same_deposit_event a b t Hs) as [K E].
  split_and!; [done|congruence|]. exists t. split; congruence.
Qed.

(** ** Transactions off the two tables *)

Definition same_core (s s' : Store) : Prop :=
  st_deposits s' = st_deposits s /\ st_outbox s' = st_outbox s.
#[export] Instance same_core_preorder : PreOrder same_core.
Proof. split; [done|]. intros a b c [W1 R1] [W2 R2]. split; congruence. Qed.

#[export] Instance core_ledger : Free same_core LedgerEntry.  Proof. by intros l []. Qed.
#[export] Instance core_feeOutflow : Free same_core FeeOutflow.  Proof. by intros l []. Qed.
#[export] Instance core_spend : Free same_core FeeFundingSpend.  Proof. by intros l []. Qed.
#[export] Instance core_checkpoints : Free same_core ScannerCheckpoint.  Proof. by intros l []. Qed.
#[export] Instance core_withdrawals : Free same_core WithdrawalRecord.  Proof. by intros l []. Qed.
#[export] Instance core_sequences : Free same_core SequenceReservation.  Proof. by intros l []. Qed.
#[export] Instance core_sweeps : Free same_core SweepJob.  Proof. by intros l []. Qed.
#[export] Instance core_watched : Free same_core WatchedAddress.  Proof. by intros l []. Qed.
#[export] Instance core_controls : Free same_core OperationalControls.  Proof. by intros l []. Qed.
#[export] Instance core_audit : Free same_core ControlsAuditEntry.  Proof. by intros l []. Qed.
#[export] Instance core_chainReviews : Free same_core ChainReviewCondition.  Proof. by intros l []. Qed.
#[export] Instance core_reviews : Free same_core ReviewItem.  Proof. by intros l []. Qed.
#[export] Instance core_reports : Free same_core ReconciliationReport.  Proof. by intros l []. Qed.

Lemma credit_same_core_moves s s' : (schema_ok s -> schema_ok s') -> same_core s s' -> moves s s'.
Proof.
  intros Hs [ED EO] [H1 H2 H3 H4 H5]. split.
  - split; rewrite ?ED, ?EO; eauto. intros d Hd. exists d. split; [done | reflexivity].
  - split; rewrite ?ED, ?EO; auto.
Qed.
Lemma credit_frame_moves {A} (m : db A) : keeps m -> preserves same_core m -> preserves moves m.
Proof. intros Hk Hc s. apply credit_same_core_moves; [apply Hk | apply Hc]. Qed.

(** ** Deposit rows *)

(** Rows replaced without crossing the credit. *)
Lemma update_deposits_moves (f : DepositRecord -> DepositRecord) s :
  (schema_ok s -> schema_ok (set_rows (map f (st_deposits s)) s)) ->
  (forall d, d ∈ st_deposits s -> same_deposit (f d) d /\ past_credit (d_Status (f d)) = past_credit (d_Status d) /\
     d_CreditedAt (f d) = d_CreditedAt d) ->
  moves s (set_rows (map f (st_deposits s)) s).
Proof.
  intros Hk Hf [H1 H2 H3 H4 H5].
  assert (st_deposits (set_rows (map f (st_deposits s)) s) = map f (st_deposits s)) as ED by (by destruct s).
  assert (st_outbox (set_rows (map f (st_deposits s)) s) = st_outbox s) as EO by (by destruct s).
  assert (forall y, y ∈ map f (st_deposits s) -> exists d, d ∈ st_deposits s /\ y = f d) as Hin.
  { intros y (d & -> & Hd)%list_elem_of_fmap. eauto. }
  split; [|split; [by apply Hk|..]]; rewrite ?ED, ?EO.
  - split; rewrite ?ED, ?EO; [|eauto]. intros d Hd. destruct (Hf d Hd) as (Hs & Hp & Hc).
    exists (f d). split; [apply list_elem_of_fmap; eauto|]. split; [done|].
    unfold was_credited. by rewrite Hp, Hc.
  - intros y (d & Hd & ->)%Hin. destruct (Hf d Hd) as (Hs & Hp & Hc). rewrite Hp, Hc. auto.
  - intros y (d & Hd & ->)%Hin Hw. destruct (Hf d Hd) as (Hs & Hp & Hc). unfold was_credited in Hw. rewrite Hp in Hw.
    destruct (H3 d Hd Hw) as (ev & Hev & He). exists ev. split; [done|]. by eapply event_of_same.
  - intros y y' (d & Hd & ->)%Hin (d' & Hd' & ->)%Hin Hw Hw' Hk'. f_equal.
    destruct (Hf d Hd) as (Hs & Hp & Hc), (Hf d' Hd') as (Hs' & Hp' & Hc').
    unfold was_credited in Hw, Hw'. rewrite Hp in Hw. rewrite Hp' in Hw'. apply H4; try done.
    rewrite <-(proj1 (same_deposit_event _ _ 0 Hs)), <-(proj1 (same_deposit_event _ _ 0 Hs')). done.
  - intros ev Hev Hc. destruct (H5 ev Hev Hc) as (d & Hd & Hw & He). destruct (Hf d Hd) as (Hs & Hp & Hct).
    exists (f d). split_and!; [apply list_elem_of_fmap; eauto | unfold was_credited; by rewrite Hp |].
    by eapply event_of_same.
Qed.

(** A transition that is not the credit stays on its side of it. *)
Lemma transition_side from to :
  to ∈ depositTransitions from -> (from = DepositCreditable -> to <> DepositCredited) ->
  past_credit to = past_credit from.
Proof.
  intros H Hne. destruct from; simpl in H;
    repeat (apply elem_of_cons in H as [->|H]; [first [done | by destruct Hne]|]); by apply elem_of_nil in H.
Qed.

Definition plain (from to : DepositStatus) (u : DepositUpdate) : Prop :=
  (from = DepositCreditable -> to <> DepositCredited) /\ du_CreditedAt u = None.

Lemma UpdateStatus_plain_moves id from to u : plain from to u -> preserves moves (Deposits_UpdateStatus id from to u).
Proof.
  intros [Hne Hu] s. pose proof (Deposits_UpdateStatus_keeps id from to u s) as Hk. revert Hk.
  rewrite Deposits_UpdateStatus_eq. destruct (ValidateDepositTransition from to) eqn:Hv; [reflexivity|].
  apply deposit_legal in Hv. destruct (List.find _ _) as [d|]; [|reflexivity].
  destruct (negb _); [reflexivity|]. destruct (if bool_decide _ then _ else _) as [e|]; [reflexivity|].
  cbn [snd]. intros Hk. apply update_deposits_moves; [exact Hk|].
  intros x _. destruct (d_at id from x) eqn:Hd; [|done]. unfold d_at in Hd.
  apply andb_true_iff in Hd as [_ Hst]. apply bool_decide_eq_true in Hst.
  split_and!; [done| |].
  - cbn [d_Status deposit_set]. rewrite Hst. by apply transition_side.
  - cbn [d_CreditedAt deposit_set]. by rewrite Hu.
Qed.

Lemma Insert_moves d : past_credit (d_Status d) = false -> d_CreditedAt d = None -> preserves moves (Deposits_Insert d).
Proof.
  intros Hp Hc s. pose proof (Deposits_Insert_keeps d s) as Hk. revert Hk. rewrite Deposits_Insert_eq.
  destruct (deposit_valid d); [|reflexivity]. destruct (existsb _ _); [reflexivity|]. cbn [snd].
  set (n := inserted d s). intros Hk [H1 H2 H3 H4 H5].
  assert (st_deposits (set_rows (st_deposits s ++ [n]) s) = st_deposits s ++ [n]) as ED by (by destruct s).
  assert (st_outbox (set_rows (st_deposits s ++ [n]) s) = st_outbox s) as EO by (by destruct s).
  assert (forall y, y ∈ st_deposits s ++ [n] -> was_credited y -> y ∈ st_deposits s) as Hin.
  { intros y [Hy|Hy]%elem_of_app Hw; [done|]. apply list_elem_of_singleton in Hy as ->.
    unfold was_credited, n in Hw. cbn in Hw. congruence. }
  split; [|split; [by apply Hk|..]]; rewrite ?ED, ?EO.
  - split; rewrite ?ED, ?EO; [|eauto]. intros x Hx. exists x. split; [apply elem_of_app; by left | reflexivity].
  - intros y [Hy|Hy]%elem_of_app; [auto|]. apply list_elem_of_singleton in Hy as ->.
    unfold n. cbn. by rewrite Hp, Hc.
  - intros y Hy Hw. eauto.
  - intros y y' Hy Hy' Hw Hw'. apply H4; eauto.
  - intros ev Hev Hcr. destruct (H5 ev Hev Hcr) as (x & Hx & Hw & He). exists x.
    split; [apply elem_of_app; by left | done].
Qed.

(** ** Outbox rows *)

Lemma event_of_content d a b : event_content a = event_content b -> event_of d b -> event_of d a.
Proof.
  unfold event_content, event_of, is_credit. intros [= _ _ Et Ek Ep] (Ht & Hk & t & Hc & Hp).
  split_and!; [congruence..|]. exists t. split; congruence.
Qed.

(** Rows replaced or added that leave the credited events alone. *)
Lemma outbox_moves l s :
  (schema_ok s -> schema_ok (set_rows l s)) ->
  (forall ev, ev ∈ st_outbox s -> exists ev', ev' ∈ l /\ event_content ev' = event_content ev) ->
  (forall ev, ev ∈ l -> is_credit ev -> exists ev', ev' ∈ st_outbox s /\ event_content ev' = event_content ev) ->
  moves s (set_rows (R := OutboxEvent) l s).
Proof.
  intros Hk Hold Hnew [H1 H2 H3 H4 H5].
  assert (st_deposits (set_rows (R := OutboxEvent) l s) = st_deposits s) as ED by (by destruct s).
  assert (st_outbox (set_rows (R := OutboxEvent) l s) = l) as EO by (by destruct s).
  split; [|split; [by apply Hk|..]]; rewrite ?ED, ?EO; try done.
  - split; rewrite ?ED, ?EO; [|done]. intros d Hd. exists d. split; [done | reflexivity].
  - intros d Hd Hw. destruct (H3 d Hd Hw) as (ev & Hev & He). destruct (Hold ev Hev) as (ev' & Hev' & E).
    exists ev'. split; [done | by eapply event_of_content].
  - intros ev Hev Hc. destruct (Hnew ev Hev Hc) as (ev' & Hev' & E).
    assert (is_credit ev') as Hc' by (unfold is_credit, event_content in *; congruence).
    destruct (H5 ev' Hev' Hc') as (d & Hd & Hw & He). exists d. split_and!; [done..|].
    by eapply event_of_content.
Qed.

Lemma Enqueue_moves ev : ob_Topic ev <> OutboxTopicDepositCredited -> preserves moves (Outbox_Enqueue ev).
Proof.
  intros Ht s. pose proof (Outbox_Enqueue_keeps ev s) as Hk. revert Hk. rewrite Outbox_Enqueue_eq.
  destruct (_ || _); [reflexivity|]. destruct (existsb _ _); [reflexivity|]. cbn [snd]. intros Hk.
  apply outbox_moves; [exact Hk|..].
  - intros e He. exists e. split; [apply elem_of_app; by left | done].
  - intros e [He|He]%elem_of_app Hc; [eauto|]. apply list_elem_of_singleton in He as ->. by destruct Ht.
Qed.

Lemma MarkDispatched_moves id t : preserves moves (Outbox_MarkDispatched id t).
Proof.
  intros s. pose proof (Outbox_MarkDispatched_keeps id t s) as Hk. revert Hk.
  unfold Outbox_MarkDispatched, fmtTime, tx_bind, tx_get, update_where.
  match goal with |- context [set_rows ?l s] => set (l' := l) end.
  assert (forall e, e ∈ st_outbox s -> exists e', e' ∈ l' /\ event_content e' = event_content e) as H1.
  { intros e He. exists (if (ob_ID e =? id) && negb (is_some (ob_DispatchedAt e)) then
      MkOutbox (ob_ID e) (ob_ChainID e) (ob_Topic e) (ob_DedupKey e) (ob_Payload e) (ob_CreatedAt e)
        (Some (if t =? 0 then st_now s else t)) else e).
    split; [apply list_elem_of_fmap; by exists e | by destruct (_ && _)]. }
  assert (forall e, e ∈ l' -> exists e', e' ∈ st_outbox s /\ event_content e' = event_content e) as H2.
  { intros e (x & -> & Hx)%list_elem_of_fmap. exists x. split; [done | by destruct (_ && _)]. }
  intros Hk. assert (schema_ok s -> schema_ok (set_rows l' s)) as Hk'.
  { intros Hs. specialize (Hk Hs). by destruct (_ =? 1)%nat. }
  destruct (_ =? 1)%nat; cbn [snd tx_ret tx_fail]; apply outbox_moves; auto.
Qed.

(** ** The credit *)

(** [d] was read from the database. *)
Definition known (d : DepositRecord) (s : Store) : Prop := exists r, r ∈ st_deposits s /\ same_deposit r d.

Lemma known_stable d s s' : evolves s s' -> known d s -> known d s'.
Proof.
  intros [Hd _] (r & Hr & Hs). destruct (Hd r Hr) as (r' & Hr' & E & _). exists r'. split; [done|].
  by etransitivity.
Qed.

Lemma credited_moves s l1 r l2 d now :
  schema_ok (credited l1 r l2 d now s) -> st_deposits s = l1 ++ r :: l2 -> same_deposit r d ->
  d_Status r = DepositCreditable -> key_free d s -> moves s (credited l1 r l2 d now s).
Proof.
  intros Hk Hl Hsame Hst Hfree [H1 H2 H3 H4 H5]. set (r' := credited_row now s r).
  set (e := outbox_new (credit_event d now) s).
  assert (st_deposits (credited l1 r l2 d now s) = l1 ++ r' :: l2) as ED by (by destruct s).
  assert (st_outbox (credited l1 r l2 d now s) = st_outbox s ++ [e]) as EO by (by destruct s).
  assert (forall y, y ∈ l1 ++ r' :: l2 -> y = r' \/ y ∈ st_deposits s) as Hin.
  { intros y. rewrite Hl, !elem_of_app, !elem_of_cons. tauto. }
  assert (r' ∈ l1 ++ r' :: l2) as Hr' by (apply elem_of_app; right; by left).
  assert (r ∈ st_deposits s) as Hr by (rewrite Hl; apply elem_of_app; right; by left).
  assert (forall y, y ∈ st_deposits s -> y = r \/ y ∈ l1 ++ r' :: l2) as Hout.
  { intros y. rewrite Hl, !elem_of_app, !elem_of_cons. tauto. }
  assert (same_deposit r' r) as Hsr by done.
  assert (event_of r' e) as He.
  { destruct (same_deposit_event r' d now ltac:(by etransitivity)) as [K E].
    split_and!; [done|by rewrite K|]. exists now. split; [done|]. by rewrite E. }
  assert (forall y, y ∈ st_deposits s -> was_credited y -> DepositDedupKey y <> DepositDedupKey d) as Hkey.
  { intros y Hy Hw E. destruct (H3 y Hy Hw) as (ev & Hev & _ & Hk' & _). apply (Hfree ev Hev). congruence. }
  assert (DepositDedupKey r' = DepositDedupKey d) as Kr
    by (apply (same_deposit_event r' d 0); by etransitivity).
  split; [|split; [done|..]]; rewrite ?ED, ?EO.
  - split; rewrite ?ED, ?EO.
    + intros x Hx. destruct (Hout x Hx) as [->|Hx'].
      * exists r'. split; [done|]. split; [done|]. unfold was_credited. by rewrite Hst.
      * exists x. split; [done | reflexivity].
    + intros ev Hev. exists ev. split; [apply elem_of_app; by left | done].
  - intros y [->|Hy]%Hin; [done|auto].
  - intros y [->|Hy]%Hin Hw.
    + exists e. split; [apply elem_of_app; right; by left | done].
    + destruct (H3 y Hy Hw) as (ev & Hev & Hev'). exists ev. split; [apply elem_of_app; by left | done].
  - intros y y' [->|Hy]%Hin [->|Hy']%Hin Hw Hw' E; [done| | |by apply H4].
    + exfalso. apply (Hkey y' Hy' Hw'). congruence.
    + exfalso. apply (Hkey y Hy Hw). congruence.
  - intros ev [Hev|Hev]%elem_of_app Hc.
    + destruct (H5 ev Hev Hc) as (y & Hy & Hw & Hy'). destruct (Hout y Hy) as [->|Hyin].
      * unfold was_credited in Hw. by rewrite Hst in Hw.
      * exists y. done.
    + apply list_elem_of_singleton in Hev as ->. exists r'. done.
Qed.

Lemma creditTx_keeps d now : keeps (creditTx d now).
Proof.
  unfold creditTx, LoadCreditGate, ChainReview_HasOpen. apply preserves_bind; [apply _| |intros g].
  - apply preserves_bind; [apply _|apply getControls_keeps|intros c].
    apply preserves_bind; [apply _| |intros b; apply preserves_ret, _].
    apply preserves_bind; [apply _|apply select_where_keeps|intros l; apply preserves_ret, _].
  - apply preserves_bind; [apply _|apply preserves_require, _|intros _].
    apply preserves_bind; [apply _|apply Deposits_UpdateStatus_keeps|intros _].
    apply preserves_bind; [apply _|apply Outbox_Enqueue_keeps|intros _; apply preserves_ret, _].
Qed.

Lemma creditTx_moves d now s a s' : known d s -> creditTx d now s = (Ok a, s') -> moves s s'.
Proof.
  intros (x & Hx & Hsame) H Hs. pose proof (so_deposits _ (co_schema _ Hs)) as (Hids & _).
  pose proof (creditTx_keeps d now s (co_schema _ Hs)) as Hk. rewrite H in Hk. cbn [snd] in Hk.
  destruct (creditTx_ok _ _ _ _ _ Hids H) as (_ & _ & Hf & l1 & r & l2 & Hl & Hid & Hst & ->).
  assert (r = x) as ->.
  { apply (ids_ok_inj d_ID (st_deposits s)); try done.
    - rewrite Hl. apply elem_of_app. right. by left.
    - rewrite Hid. symmetry. by apply same_deposit_id. }
  by apply credited_moves.
Qed.

Lemma CreditDeposit_ok d now s : known d s -> ok (CreditDeposit d now) s.
Proof.
  intros Hk s1 Hs1 HI. apply (known_stable _ _ _ Hs1) in Hk. destruct (with_tx (creditTx d now) s1) as [r s2] eqn:E.
  cbn [fst snd].
  destruct (with_tx_moves evolves credit_ok (creditTx d now) s1 r s2 (fun a s' => creditTx_moves d now s1 a s' Hk) E HI).
  done.
Qed.

(** ** The methods and transactions of the workers *)

(** Methods that do not credit: a deposit status other than CREDITED with no
    credit stamp, an insert that is not already credited, events of other
    topics, and everything off the two tables. *)
Definition other_op (o : op) : bool :=
  match o with
  | OpDepositInsert d => negb (past_credit (d_Status d)) && negb (is_some (d_CreditedAt d))
  | OpDepositStatus _ _ to u => negb (bool_decide (to = DepositCredited)) && negb (is_some (du_CreditedAt u))
  | OpEnqueue ev => negb (bool_decide (ob_Topic ev = OutboxTopicDepositCredited))
  | _ => true
  end.

Lemma void_moves {A} (m : db A) : preserves moves m -> preserves moves (void m).
Proof. intros Hm. apply preserves_bind; [apply _|done|intros _; apply preserves_ret, _]. Qed.

Lemma credit_other_op_moves o : other_op o = true -> preserves moves (exec_op o).
Proof.
  intros Ho. destruct o; simpl in Ho;
    try (apply credit_frame_moves; [apply exec_op_keeps|]; simpl;
         unfold void, Ledger_Append, Ledger_AppendFeeOutflow,
           Ledger_AppendFeeFundingSpend, Checkpoints_Set, Withdrawals_Create, Withdrawals_UpdateStatus,
           Withdrawals_Get, Sequences_Reserve, Sequences_UpdateStatus, Sweeps_Create, Sweeps_UpdateStatus,
           Sweeps_Get, Watch_Upsert, Watch_SetActive, Controls_Apply, Controls_Get, getControls, Review_Open,
           Review_Resolve, Review_Get, ChainReview_Open, ChainReview_Resolve, ChainReview_Get,
           Recon_SaveReport, fmtTime, require_rows; by free_steps); simpl.
  - apply andb_true_iff in Ho as [Hp Hc]. apply negb_true_iff in Hp. apply void_moves, Insert_moves; [done|].
    by destruct (d_CreditedAt d).
  - apply andb_true_iff in Ho as [Hp Hc]. apply negb_true_iff, bool_decide_eq_false in Hp.
    apply UpdateStatus_plain_moves. split; [done|]. by destruct (du_CreditedAt u).
  - apply negb_true_iff, bool_decide_eq_false in Ho. by apply void_moves, Enqueue_moves.
  - apply MarkDispatched_moves.
Qed.

Lemma credit_other_txs_moves t : forallb other_op t = true -> preserves moves (tx_for t exec_op).
Proof.
  induction t as [|o t IH]; simpl; [intros _; apply preserves_ret, _|]. intros [Ho Ht]%andb_true_iff.
  apply preserves_bind; [apply _|by apply credit_other_op_moves|]. intros _. by apply IH.
Qed.

Lemma Ledger_Append_moves e : preserves moves (Ledger_Append e).
Proof. apply credit_frame_moves; [apply Ledger_Append_keeps|]. unfold Ledger_Append, fmtTime. free_steps. Qed.
Lemma AppendFeeOutflow_moves f : preserves moves (Ledger_AppendFeeOutflow f).
Proof. apply credit_frame_moves; [apply AppendFeeOutflow_keeps|]. unfold Ledger_AppendFeeOutflow, fmtTime. free_steps. Qed.
Lemma credit_Review_Open_moves i : preserves moves (Review_Open i).
Proof. apply credit_frame_moves; [apply Review_Open_keeps|]. unfold Review_Open, fmtTime. free_steps. Qed.
Lemma credit_Review_Resolve_moves i r t : preserves moves (Review_Resolve i r t).
Proof.
  apply credit_frame_moves; [apply Review_Resolve_keeps|]. unfold Review_Resolve, Review_Get, fmtTime. free_steps.
Qed.
Lemma Checkpoints_Set_moves c : preserves moves (Checkpoints_Set c).
Proof. apply credit_frame_moves; [apply Checkpoints_Set_keeps|]. unfold Checkpoints_Set, fmtTime. free_steps. Qed.
Lemma Controls_Apply_moves c u a r : preserves moves (Controls_Apply c u a r).
Proof.
  apply credit_frame_moves; [apply Controls_Apply_keeps|]. unfold Controls_Apply, Controls_Get, getControls, fmtTime.
  free_steps.
Qed.
Lemma credit_Controls_Get_moves c : preserves moves (Controls_Get c).
Proof.
  apply credit_frame_moves; [apply getControls_keeps|]. unfold Controls_Get, getControls. free_steps.
Qed.
Lemma ChainReview_Open_moves c : preserves moves (ChainReview_Open c).
Proof. apply credit_frame_moves; [apply ChainReview_Open_keeps|]. unfold ChainReview_Open, fmtTime. free_steps. Qed.
Lemma Withdrawals_UpdateStatus_moves id from to u : preserves moves (Withdrawals_UpdateStatus id from to u).
Proof.
  apply credit_frame_moves; [apply Withdrawals_UpdateStatus_keeps|].
  unfold Withdrawals_UpdateStatus, Withdrawals_Get, fmtTime, require_rows. free_steps.
Qed.
Lemma credit_Sequences_UpdateStatus_moves id from to : preserves moves (Sequences_UpdateStatus id from to).
Proof.
  apply credit_frame_moves; [apply Sequences_UpdateStatus_keeps|].
  unfold Sequences_UpdateStatus, fmtTime, require_rows. free_steps.
Qed.
Lemma read_row_moves {R} `{Table R} (p : R -> bool) : preserves moves (select_row p).
Proof. apply select_row_moves, _. Qed.
Lemma read_rows_moves {R} `{Table R} (p : R -> bool) : preserves moves (select_where p).
Proof. apply select_where_moves, _. Qed.

Ltac move_step :=
  lazymatch goal with
  | |- preserves _ (tx_bind _ _) => apply preserves_bind; [typeclasses eauto| |intros ?]
  | |- preserves _ (tx_ret _) => apply preserves_ret; typeclasses eauto
  | |- preserves _ (tx_fail _) => apply preserves_fail; typeclasses eauto
  | |- preserves _ (tx_get _) => apply preserves_get; typeclasses eauto
  | |- preserves _ (tx_require _ _) => apply preserves_require; typeclasses eauto
  | |- preserves _ (tx_of _) => apply preserves_of; typeclasses eauto
  | |- preserves _ (tx_try _) => apply preserves_try
  | |- preserves _ (tx_fold _ _ _) => apply preserves_fold; [typeclasses eauto|intros ? ?]
  | |- preserves _ (select_row _) => apply read_row_moves
  | |- preserves _ (select_where _) => apply read_rows_moves
  | |- preserves _ (Deposits_Get _ _ _ _ _) => apply read_row_moves
  | |- preserves _ (Deposits_GetByID _) => apply read_row_moves
  | |- preserves _ (Withdrawals_Get _) => apply read_row_moves
  | |- preserves _ (Sequences_GetByWorkRef _) => apply read_row_moves
  | |- preserves _ (Review_Get _) => apply read_row_moves
  | |- preserves _ (Checkpoints_Get _) => apply read_row_moves
  | |- preserves _ (Deposits_Insert _) => apply Insert_moves; reflexivity
  | |- preserves _ (Deposits_UpdateStatus _ _ _ _) => apply UpdateStatus_plain_moves; by split
  | |- preserves _ (match ?x with _ => _ end) => destruct x eqn:?
  | |- preserves _ (if ?x then _ else _) => destruct x eqn:?
  | |- preserves _ _ =>
      first [ apply Ledger_Append_moves | apply AppendFeeOutflow_moves | apply credit_Review_Open_moves
            | apply credit_Review_Resolve_moves | apply Checkpoints_Set_moves | apply Controls_Apply_moves
            | apply credit_Controls_Get_moves | apply ChainReview_Open_moves
            | apply Withdrawals_UpdateStatus_moves | apply credit_Sequences_UpdateStatus_moves ]
  end.
Ltac move_steps := repeat move_step.

Lemma recordBlockTx_moves bp pol now : preserves moves (recordBlockTx bp pol now).
Proof.
  unfold recordBlockTx, recordTransfer, recordFee, recordReview, openLedgerReview, recordDeposit, routeDeposit.
  cbv zeta. move_steps.
Qed.

Lemma credit_resolveTx_moves item id o note now : preserves moves (resolveTx item id o note now).
Proof.
  unfold resolveTx, resolveWithdrawalReview, resolveDepositReview, disposeReservation. move_steps.
Qed.

(** ** The handlers *)

Ltac tame_step :=
  lazymatch goal with
  | |- tame (r_bind _ _) => apply tame_r_bind; [|intros ?]
  | |- tame (p_bind _ _) => apply tame_bind; [|intros ?]
  | |- tame (r_for _ _) => apply tame_r_for; intros ?
  | |- tame (Done _) => done
  | |- tame (ask _) => done
  | |- tame (stmt _) => apply tame_stmt; solve [move_steps]
  | |- tame (atomically _) => apply tame_atomically; solve [move_steps]
  | |- tame (match ?x with _ => _ end) => destruct x eqn:?
  | |- tame (if ?x then _ else _) => destruct x eqn:?
  end.
Ltac tame_steps := repeat tame_step.

Lemma credit_resolveReviewItem_tame id o note now : tame (resolveReviewItem id o note now).
Proof. unfold resolveReviewItem. tame_steps. apply tame_atomically, credit_resolveTx_moves. Qed.

Section handlers.
Context `{X : ScanExt} (cfg : ScannerConfig).

Lemma RecordBlock_tame bp pol now : tame (RecordBlock bp pol now).
Proof. unfold RecordBlock. tame_steps. apply tame_atomically, recordBlockTx_moves. Qed.

Lemma RescanFrom_tame h actor reason : tame (RescanFrom cfg h actor reason).
Proof. unfold RescanFrom. tame_steps. Qed.

Lemma listDeposits_moves chainID st lim : preserves moves (Deposits_ListByStatus chainID st lim).
Proof. unfold Deposits_ListByStatus. move_steps. Qed.

Lemma openChainReviewOnce_tame trigger a b : tame (openChainReviewOnce cfg trigger a b).
Proof. unfold openChainReviewOnce, ChainReview_ListOpen. tame_steps. Qed.

Lemma orphanFlow_tame h expected got : tame (orphanFlow cfg h expected got).
Proof.
  unfold orphanFlow, Deposits_ListByStatus. tame_steps. apply openChainReviewOnce_tame.
Qed.

Lemma walk_tame n h expected : tame (walk cfg n h expected).
Proof.
  revert h expected. induction n as [|n IH]; intros h expected; cbn [walk]; [done|].
  unfold loadWatch, Watch_ListActive. tame_steps; first [apply orphanFlow_tame | apply RecordBlock_tame | apply IH].
Qed.

Lemma resolveCursor_tame fb latest : tame (resolveCursor cfg fb latest).
Proof. unfold resolveCursor, parentHash. tame_steps. Qed.

(** The batch was read from the database: crediting is safe. *)
Lemma creditAll_ok latest gate l s : Forall (fun d => known d s) l -> ok (creditAll cfg latest gate l) s.
Proof.
  revert s. induction l as [|d l IH]; intros s Hl; cbn [creditAll]; [done|].
  apply Forall_cons in Hl as [Hd Hl].
  assert (forall s', evolves s s' -> ok (creditAll cfg latest gate l) s') as Hrest.
  { intros s' Hs'. apply IH. eapply Forall_impl; [exact Hl|]. intros x Hx. by eapply known_stable. }
  destruct (fst (EvaluateCreditConditions _ _ _ _)).
  - apply safe_bind; [apply _|done|]. intros now s1 Hs1. apply safe_bind; [apply _| |].
    + apply CreditDeposit_ok. by eapply known_stable.
    + intros [u|[]] s2 Hs2; try done. apply Hrest. by etransitivity.
  - apply Hrest. reflexivity.
  - apply safe_bind; [apply _|apply tame_stmt; move_steps|].
    intros [u|e] s1 Hs1; [by apply Hrest | done].
  - apply Hrest. reflexivity.
Qed.

Lemma elem_of_limit {R} n (l : list R) x : x ∈ limit n l -> x ∈ l.
Proof.
  unfold limit. destruct (0 <? n); [|done]. intros (i & Hi & _)%elem_of_take. by eapply list_elem_of_lookup_2.
Qed.

Lemma listed_known chainID st lim s l s' :
  with_tx (Deposits_ListByStatus chainID st lim) s = (Ok l, s') -> Forall (fun d => known d s') l.
Proof.
  intros H. apply with_tx_ok in H. unfold Deposits_ListByStatus, select_where, tx_bind, tx_get in H.
  injection H as <- <-. apply Forall_forall. intros d Hd. apply elem_of_limit in Hd.
  exists d. split; [|reflexivity]. apply list_elem_of_In, List.filter_In in Hd as [Hd _]. by apply list_elem_of_In.
Qed.

Lemma ok_seq {A B} (p : handler (result err A)) (f : A -> handler (result err B)) s :
  tame p -> (forall a s', ok (f a) s') -> ok (r_bind p f) s.
Proof.
  intros Hp Hf. apply safe_bind; [apply _|apply Hp|]. intros [a|e] s' _; [apply Hf | done].
Qed.

Lemma pending_tame latest :
  tame (resumeSuspended cfg) /\ tame (reviveParked cfg) /\ tame (countConfirmations cfg latest).
Proof.
  unfold resumeSuspended, reviveParked, countConfirmations, Deposits_ListByStatus. split_and!; tame_steps.
Qed.

Lemma processPending_ok latest s : ok (processPending cfg latest) s.
Proof.
  destruct (pending_tame latest) as (T1 & T2 & T3). unfold processPending.
  apply ok_seq; [tame_steps|]. intros controls s1.
  apply ok_seq; [unfold ChainReview_HasOpen; tame_steps|]. intros open s2. cbv zeta.
  apply ok_seq; [by destruct (_ && _)|]. intros _ s3.
  apply ok_seq; [done|]. intros _ s4. apply ok_seq; [done|]. intros _ s5.
  unfold r_bind. apply ok_stmt.
  - intros sa a sb _ _ E.
    pose proof (listDeposits_moves (sc_ChainID cfg) DepositCreditable (sc_PendingBatchLimit cfg) sa) as Hm.
    by rewrite E in Hm.
  - intros sa [l|e] sb _ _ E _ _; [|done]. apply creditAll_ok. by eapply listed_known.
Qed.

Lemma Cycle_ok fb s : ok (Cycle cfg fb) s.
Proof.
  unfold Cycle. apply safe_bind; [apply _|done|]. intros [latest|e] s1 _; [|done].
  destruct (_ && _).
  - apply safe_bind; [apply _| |done]. unfold wrongChain. apply ok_seq; [apply openChainReviewOnce_tame | done].
  - cbv zeta. apply safe_bind; [apply _|apply resolveCursor_tame|]. intros c s2 _.
    apply safe_bind; [apply _| |done]. destruct (snd c) as [[next expected]|e]; [|done].
    apply ok_seq; [apply walk_tame|]. intros [] s3; [apply processPending_ok | done].
Qed.
End handlers.

(** ** The system *)

Definition forget {A} (p : handler A) : handler unit := let* _ := p in Done tt.

(** The programs the workers run: scan cycles under any configuration, rescan
    base and decoder behaviour, rescan requests, the operator's resolutions,
    any transaction of any other worker that does not itself credit, and the
    clock. *)
Inductive kit : handler unit -> Prop :=
| KCycle (X : ScanExt) cfg forcedBase : kit (forget (Cycle cfg forcedBase))
| KRescanFrom cfg h actor reason : kit (forget (RescanFrom cfg h actor reason))
| KResolve id o note now : kit (forget (resolveReviewItem id o note now))
| KOther t : forallb other_op t = true -> kit (forget (atomically (tx_for t exec_op)))
| KTick t : kit (Txn (fun s => (tt, set_now t s)) Done).

Lemma credit_kit_safe p s : kit p -> credit_ok s -> ok p s.
Proof.
  intros Hp _. destruct Hp; try apply tame_forget.
  - apply Cycle_ok.
  - apply RescanFrom_tame.
  - apply credit_resolveReviewItem_tame.
  - by apply tame_atomically, credit_other_txs_moves.
  - intros s1 _ Hs1. destruct (credit_same_core_moves s1 (set_now t s1) (set_now_schema t s1) ltac:(by destruct s1) Hs1).
    done.
Qed.

Notation start t := (System (empty_store t) [] []).

(** C2: a deposit is credited exactly once.  In every state reachable from an
    empty database by any interleaving of any number of scanners and other
    workers, with arbitrary answers of the node and crashes anywhere: the
    deposits in CREDITED, SWEEP_PENDING or SWEPT and the deposit.credited events
    of the outbox correspond one to one; the event of a deposit carries the
    deposit's dedup key and the JSON of its chain, transaction, indexes,
    addresses, amount, memo and height; and a deposit has a credit time exactly
    when it was credited. *)
Theorem credited_exactly_once (t : Z) (y : system)
    (H : rtc (sys_step kit) (start t) y) :
  let db := sys_db y in
  (forall d, d ∈ st_deposits db -> was_credited d ->
     exists ev, ev ∈ st_outbox db /\ event_of d ev /\
       (forall ev', ev' ∈ st_outbox db -> event_of d ev' -> ev' = ev) /\
       (forall d', d' ∈ st_deposits db -> was_credited d' -> event_of d' ev -> d' = d)) /\
  (forall ev, ev ∈ st_outbox db -> is_credit ev ->
     exists d, d ∈ st_deposits db /\ was_credited d /\ event_of d ev) /\
  (forall d, d ∈ st_deposits db -> was_credited d <-> d_CreditedAt d <> None).
Proof.
  cbv zeta.
  destruct (sys_safe evolves credit_ok any_call kit credit_kit_safe _ _ (empty_credit_ok t) H) as ([H1 H2 H3 H4 H5] & _ & _).
  split_and!.
  - intros d Hd Hw. destruct (H3 d Hd Hw) as (ev & Hev & He). exists ev. split_and!; [done..| |].
    + intros ev' Hev' He'. destruct (so_outbox _ H1) as [_ Hu].
      destruct He as (_ & Hk & _), He' as (_ & Hk' & _).
      apply list_elem_of_lookup_1 in Hev as [i Hi], Hev' as [j Hj].
      assert (i = j) as ->; [|congruence].
      eapply (Hu i j ev ev' (DepositDedupKey d)); [done..| |]; unfold outbox_key, nullIfEmpty;
        rewrite ?Hk, ?Hk'; by rewrite DepositDedupKey_nonempty.
    + intros d' Hd' Hw' He'. apply H4; try done. destruct He as (_ & Hk & _), He' as (_ & Hk' & _). congruence.
  - intros ev Hev Hc. destruct (H5 ev Hev Hc) as (d & Hd & Hw & He). eauto.
  - intros d Hd. unfold was_credited. rewrite <-(H2 d Hd). destruct (d_CreditedAt d); simpl; split; congruence.
Qed.

(** A credit is never undone or re-issued.  From any reachable state,
    along any further interleaving, a credited deposit stays credited with the
    same columns and credit time, and every event stays in the outbox with its
    id, topic, dedup key and payload. *)
Theorem credit_is_final (t : Z) (y y' : system)
    (H : rtc (sys_step kit) (start t) y) (H' : rtc (sys_step kit) y y') :
  (forall d, d ∈ st_deposits (sys_db y) -> was_credited d ->
     exists d', d' ∈ st_deposits (sys_db y') /\ same_deposit d' d /\ was_credited d' /\
       d_CreditedAt d' = d_CreditedAt d) /\
  (forall ev, ev ∈ st_outbox (sys_db y) ->
     exists ev', ev' ∈ st_outbox (sys_db y') /\ event_content ev' = event_content ev).
Proof.
  pose proof (sys_safe evolves credit_ok any_call kit credit_kit_safe _ _ (empty_credit_ok t) H) as (Hok & _ & Hpool).
  pose proof (sys_extends evolves credit_ok any_call kit credit_kit_safe y y' Hok Hpool H') as [HD HO].
  split; [|done]. intros d Hd Hw. destruct (HD d Hd) as (d' & Hd' & Hs & Hc). destruct (Hc Hw). eauto.
Qed.

(** ** One deposit from the chain to its credit *)

Definition ex_watched : handler unit := forget (atomically (tx_for [OpWatchUpsert ex_customer] exec_op)).
Definition ex_cycle : handler unit := forget (Cycle (X := ex_scan) ex_scanner 10).
Definition ex_db1 : Store := o_state (run ex_node ex_watched (empty_store 5)).
Definition ex_db2 : Store := o_state (run ex_node ex_cycle ex_db1).
(** A second scanner rescans the same blocks from the start. *)
Definition ex_db3 : Store := o_state (run ex_node ex_cycle ex_db2).

Definition ex_sys1 : system (S := Store) (C := call) :=
  System ex_db1 [Done (o_value (run ex_node ex_watched (empty_store 5)))]
    (o_calls (run ex_node ex_watched (empty_store 5))).
Definition ex_sys2 : system (S := Store) (C := call) :=
  System ex_db2 (Done (o_value (run ex_node ex_cycle ex_db1)) :: sys_pool ex_sys1)
    (sys_calls ex_sys1 ++ o_calls (run ex_node ex_cycle ex_db1)).
Definition ex_sys3 : system (S := Store) (C := call) :=
  System ex_db3 (Done (o_value (run ex_node ex_cycle ex_db2)) :: sys_pool ex_sys2)
    (sys_calls ex_sys2 ++ o_calls (run ex_node ex_cycle ex_db2)).

Lemma ex_sys2_reachable : rtc (sys_step kit) (start 5) ex_sys2.
Proof.
  etransitivity.
  - exact (run_sys kit ex_node ex_watched (empty_store 5) [] [] (KOther [OpWatchUpsert ex_customer] eq_refl)).
  - exact (run_sys kit ex_node ex_cycle ex_db1 (sys_pool ex_sys1) (sys_calls ex_sys1)
             (KCycle ex_scan ex_scanner 10)).
Qed.
Lemma ex_sys3_reachable : rtc (sys_step kit) ex_sys2 ex_sys3.
Proof.
  exact (run_sys kit ex_node ex_cycle ex_db2 (sys_pool ex_sys2) (sys_calls ex_sys2)
           (KCycle ex_scan ex_scanner 10)).
Qed.

Definition ex_credited : DepositRecord :=
  List.hd ex_creditable (st_deposits ex_db2).

Lemma ex_credited_state :
  st_deposits ex_db2 = [ex_credited] /\ d_Status ex_credited = DepositCredited /\
  d_AmountBaseUnits ex_credited = 25 /\ List.length (st_outbox ex_db2) = 1%nat /\
  st_deposits ex_db3 = st_deposits ex_db2 /\ st_outbox ex_db3 = st_outbox ex_db2.
Proof. vm_compute. split_and!; reflexivity. Qed.

Lemma credited_exactly_once_witness :
  d_Status ex_credited = DepositCredited /\
  exists ev, ev ∈ st_outbox ex_db2 /\ event_of ex_credited ev.
Proof.
  destruct ex_credited_state as (E & Hst & _). split; [exact Hst|].
  destruct (credited_exactly_once 5 ex_sys2 ex_sys2_reachable) as (H & _ & _).
  destruct (H ex_credited) as (ev & Hev & He & _).
  - change (sys_db ex_sys2) with ex_db2. rewrite E. by left.
  - unfold was_credited. by rewrite Hst.
  - exists ev. split; [exact Hev | exact He].
Defined.

Lemma credit_is_final_witness :
  was_credited ex_credited /\
  exists d', d' ∈ st_deposits ex_db3 /\ same_deposit d' ex_credited /\ was_credited d'.
Proof.
  destruct ex_credited_state as (E & Hst & _).
  assert (was_credited ex_credited) as Hw by (unfold was_credited; by rewrite Hst). split; [exact Hw|].
  destruct (credit_is_final 5 ex_sys2 ex_sys3 ex_sys2_reachable ex_sys3_reachable) as [H _].
  destruct (H ex_credited) as (d' & Hd & Hs & Hc & _); [|exact Hw|].
  - change (sys_db ex_sys2) with ex_db2. rewrite E. by left.
  - exists d'. split; [exact Hd|]. split; [exact Hs | exact Hc].
Defined.

End DepositSystem.
