(* ===== verification/Startup.v ===== *)
(** * Startup: the adapter process ([go/cmd/sovren-adapter/main.go] and the services' setup)

    The command line, the order of the startup checks with their exit codes, the
    seeding of the watch set, the listeners, and how each service turns the loaded
    configuration into its own ([withdrawals_service.go], [sweeper_service.go],
    [scanner_service.go], [reconciler_service.go], [registry.go]).  What [main]
    asks of the machine is a record ([host]); the database is the handler's
    state and the chain node the handler's calls. *)

From stdpp Require Import base list strings gmap.
From Stdlib Require Import ZArith Lia Ascii String.
From S2P Require Import Prelude Workers Text GoStrings Durations Storage Database SqlStore Chain Address Manifest.
From S2P Require Import Signers RemoteSigner ExecSigner Tx Withdrawals Sweeps Services Scanner Reconcile AdapterConfig.
Import SqlStore AdapterConfig.
Import (notations) Tx.

Open Scope string_scope.
Open Scope list_scope.
Open Scope Z_scope.

Module Startup.

(** ** The command line: [flag] with the one flag [config] *)

Record flags : Type := MkFlags { fl_config : string; fl_args : list string }.

(** A text split at its first equals sign, if it has one after the first byte. *)
Fixpoint split_eq (acc t : text) : text * option text :=
  match t with
  | [] => (rev acc, None)
  | c :: t' => if is_char "="%char c then (rev acc, Some t') else split_eq (c :: acc) t'
  end.

Inductive one : Type := NotAFlag | Terminator | BadFlag | Flag (name : text) (val : option text).
Definition parseOne (s : string) : one :=
  match chars s with
  | "-"%char :: t =>
      match t with
      | [] => NotAFlag
      | "-"%char :: [] => Terminator
      | _ =>
          let name := match t with "-"%char :: t' => t' | _ => t end in
          match name with
          | [] => BadFlag
          | c :: rest =>
              if is_char "-"%char c || is_char "="%char c then BadFlag
              else let '(n, v) := split_eq [c] rest in Flag n v
          end
      end
  | _ => NotAFlag
  end.

(** [FlagSet.Parse]: [None] is any error, help included. *)
Fixpoint Parse (config : string) (args : list string) : option flags :=
  match args with
  | [] => Some (MkFlags config [])
  | s :: args' =>
      match parseOne s with
      | NotAFlag => Some (MkFlags config args)
      | Terminator => Some (MkFlags config args')
      | BadFlag => None
      | Flag name val =>
          if bool_decide (name = chars "config") then
            match val, args' with
            | Some v, _ => Parse (of_chars v) args'
            | None, v :: args'' => Parse v args''
            | None, [] => None
            end
          else None
      end
  end.

(** ** The registry *)

Definition registry : list string := ["reconciler"; "scanner"; "sweeper"; "withdrawals"].

(** The services the command line names; [None] when one is unknown. *)
Fixpoint select_services (runners : gset string) (services : list string) : option (gset string) :=
  match services with
  | [] => Some runners
  | name :: services' =>
      if bool_decide (name = "all") then select_services (list_to_set registry ∪ runners) services'
      else if bool_decide (name ∈ registry) then select_services ({[name]} ∪ runners) services'
      else None
  end.

(** ** What [main] asks of the machine *)

Record host : Type := MkHost {
  h_machine : machine;
  h_Open : string -> string -> bool;            (* sqlite.Open / postgres.Open by backend *)
  h_NewCometRPC : string -> bool;
  h_NewGRPC : string -> bool;
  h_Listen : string -> bool;                    (* net.Listen *)
  h_tls : RemoteSigner.host }.

Definition Getenv (h : host) (name : string) : string := default "" (LookupEnv (h_machine h) name).

(** [nodeClient] *)
Definition nodeClient (h : host) (ep : NodeEndpoints) : bool :=
  if empty (ne_RPC ep) then h_NewGRPC h (ne_GRPC ep) else h_NewCometRPC h (ne_RPC ep).

(** [buildClient]: whether the client is the failover pool. *)
Definition buildClient (h : host) (cfg : Config) : option bool :=
  if negb (nodeClient h (nd_Primary (cf_Nodes cfg))) then None
  else match nd_Secondary (cf_Nodes cfg) with
       | None => Some false
       | Some ep => if nodeClient h ep then Some true else None
       end.

(** [openStore] *)
Definition openStore (h : host) (cfg : Config) : bool :=
  bool_decide (sto_Backend (cf_Storage cfg) ∈ ["sqlite"; "postgres"]) &&
  h_Open h (sto_Backend (cf_Storage cfg)) (sto_DSN (cf_Storage cfg)).

(** [serveHTTP]: the address bound, if it was. *)
Definition serveHTTP (h : host) (listen fallback : string) : option string :=
  let listen := if empty listen then fallback else listen in
  if h_Listen h listen then Some listen else None.

(** ** Seeding the watch set *)

Definition watch_entry (chainID : string) (w : WatchEntryConfig) : db unit :=
  match enum_parse (we_Kind w) with
  | Some kind => Watch_Upsert (MkWatched chainID (we_Address w) kind (we_CustomerRef w) (we_MemoRequired w) true)
  | None => do_ tx_require (negb (empty chainID || empty (we_Address w))) ErrInvalidRecord; tx_fail ErrInvalidRecord
  end.
Definition seedWatchSet (cfg : Config) (chainID : string) : handler (result err unit) :=
  r_for (scn_Watch (cf_Scanner cfg)) (fun w => stmt (watch_entry chainID w)).

(** ** [run], up to starting the services *)

Definition exitOK : Z := 0.
Definition exitConfigError : Z := 1.
Definition exitStorageError : Z := 2.
Definition exitChainError : Z := 3.

(** What the services receive, and which of them to start; the bound addresses. *)
Record Deps : Type := MkDeps { d_Config : Config; d_Manifest : Manifest.NetworkManifest; d_Failover : bool }.
Record started : Type := MkStarted {
  s_deps : Deps; s_runners : gset string; s_metrics : string; s_admin : string }.

Section startup.
Context `{X : Ext, ME : Manifest.ManifestExt}.

Definition startup (h : host) (args : list string) : handler (result Z started) :=
  match Parse "adapter.yaml" args with
  | None => Done (Err exitConfigError)
  | Some fl =>
  match fl_args fl with
  | [] => Done (Err exitConfigError)
  | services =>
  match select_services ∅ services with
  | None => Done (Err exitConfigError)
  | Some runners =>
  match LoadConfig (h_machine h) (fl_config fl) with
  | Err _ => Done (Err exitConfigError)
  | Ok (cfg, manifest) =>
  if negb (openStore h cfg) then Done (Err exitStorageError)
  else
  match buildClient h cfg with
  | None => Done (Err exitChainError)
  | Some failover =>
  Call CNodeStatus (fun status =>
  match status with
  | Err _ => Done (Err exitChainError)
  | Ok status =>
  if negb (bool_decide (ns_ChainID status = Manifest.nm_ChainID manifest)) then Done (Err exitChainError)
  else
  let* seeded := seedWatchSet cfg (Manifest.nm_ChainID manifest) in
  match seeded with
  | Err _ => Done (Err exitStorageError)
  | Ok _ =>
  match serveHTTP h (met_Listen (cf_Metrics cfg)) ":9464" with
  | None => Done (Err exitConfigError)
  | Some metrics =>
  match serveHTTP h (adm_Listen (cf_Admin cfg)) "127.0.0.1:9465" with
  | None => Done (Err exitConfigError)
  | Some admin => Done (Ok (MkStarted (MkDeps cfg manifest failover) runners metrics admin))
  end end end end)
  end end end end end.

(** How a service ended: cleanly, on the cancelled context, or with an error;
    and the exit code once all have. *)
Inductive stopped : Type := Clean | Canceled | Failed (e : err).
Definition exit_code (ended : list stopped) : Z :=
  if existsb (fun r => match r with Failed _ => true | _ => false end) ended then exitStorageError else exitOK.

(** ** The services' configurations *)

(** [strconv.ParseUint(v, 10, 64)] *)
Definition ParseUint64 (v : string) : option Z :=
  let t := chars v in
  if negb (empty v) && forallb is_digit t && (value t <? 2 ^ 64) then Some (value t) else None.

Inductive setup_error : Type :=
| Runtime (e : runtime_error)
| BadDuration (path : string)
| BadStaticGas
| NoGasPrice
| NoGasAdjustment
| BadDestination
| BadMinimumDeposit
| Refused (e : err).

Definition withdrawalsGasPrice (v denom : string) : result setup_error string :=
  let v := GoStrings.TrimSuffix (GoStrings.TrimSpace v) denom in
  if empty v then Err NoGasPrice else Ok v.

Definition resolveGasAdjustment (configured manifestRecommended : string) : result setup_error string :=
  let v := GoStrings.TrimSpace configured in
  if negb (empty v) then Ok v
  else let v := GoStrings.TrimSpace manifestRecommended in
       if negb (empty v) then Ok v else Err NoGasAdjustment.

(** The broadcast timeout: fifteen seconds unless configured. *)
Definition broadcast_timeout (path v : string) : result setup_error Z :=
  if empty v then Ok (15 * 10 ^ 9)
  else match Durations.ParseDuration v with Ok d => Ok d | Err _ => Err (BadDuration path) end.

Definition static_gas (v : string) : result setup_error Z :=
  if empty v then Ok 120000
  else match ParseUint64 v with Some g => Ok g | None => Err BadStaticGas end.

Definition withdrawalsWorkflowConfig (h : host) (deps : Deps) : result setup_error Withdrawals.Config :=
  let c := d_Config deps in let m := d_Manifest deps in
  match ScannerRuntime c with
  | Err e => Err (Runtime e)
  | Ok (confirmations, _, _) =>
      try broadcastTimeout := broadcast_timeout "broadcast_timeout" (wdr_BroadcastTimeout (cf_Withdrawals c)) in
      let policy := if bool_decide (wdr_SimulateUnavailable (cf_Withdrawals c) = "static")
                    then Withdrawals.SimulateStatic else Withdrawals.SimulateQueue in
      try staticGas := static_gas (Getenv h "SOVREN_WITHDRAWALS_STATIC_GAS") in
      try gasPrice := withdrawalsGasPrice (Manifest.mf_RecommendedGasPrice (Manifest.nm_Fees m)) (Manifest.nm_BaseDenom m) in
      try gasAdjustment := resolveGasAdjustment (wdr_GasAdjustment (cf_Withdrawals c))
                             (Manifest.mf_RecommendedGasAdjustment (Manifest.nm_Fees m)) in
      match Services.resolveProhibitedDestinations (wdr_ProhibitedDestinations (cf_Withdrawals c)) with
      | Err _ => Err BadDestination
      | Ok prohibited =>
          Ok (Withdrawals.MkConfig (Manifest.nm_ChainID m) (wdr_MinimumWithdrawalUsovr (cf_Withdrawals c))
                (wdr_MaxFeeUsovr (cf_Withdrawals c)) gasAdjustment gasPrice (Some policy) staticGas
                broadcastTimeout confirmations prohibited None)
      end
  end.

Definition sweeperEngineConfig (h : host) (deps : Deps) (strategy : SweepStrategy) : result setup_error Sweeps.Config :=
  let c := d_Config deps in let m := d_Manifest deps in let sw := cf_Sweeps c in
  match ScannerRuntime c with
  | Err e => Err (Runtime e)
  | Ok (confirmations, _, _) =>
      try broadcastTimeout := broadcast_timeout "withdrawals.broadcast_timeout" (wdr_BroadcastTimeout (cf_Withdrawals c)) in
      let cfg adj price policy gas :=
        Sweeps.MkConfig (Manifest.nm_ChainID m) strategy (swp_HotWallet sw) (swp_MinimumSweepAmountUsovr sw)
          (swp_MaximumFeePercentageForSweep sw) (swp_FeeReserveUsovr sw) (swp_FeeWalletMaxSpendUsovr sw)
          (swp_FeeWalletSpendWindowBlocks sw) adj price policy gas broadcastTimeout confirmations None in
      if bool_decide (strategy = StrategyCustodyAbstract) then Ok (cfg "" "" None 0)
      else
        try gasAdjustment := resolveGasAdjustment (wdr_GasAdjustment (cf_Withdrawals c))
                               (Manifest.mf_RecommendedGasAdjustment (Manifest.nm_Fees m)) in
        try gasPrice := withdrawalsGasPrice (Manifest.mf_RecommendedGasPrice (Manifest.nm_Fees m)) (Manifest.nm_BaseDenom m) in
        let policy := if bool_decide (wdr_SimulateUnavailable (cf_Withdrawals c) = "static")
                      then Sweeps.SimulateStatic else Sweeps.SimulateQueue in
        try staticGas := static_gas (Getenv h "SOVREN_WITHDRAWALS_STATIC_GAS") in
        Ok (cfg gasAdjustment gasPrice (Some policy) staticGas)
  end.

(** [runScanner]'s configuration, up to [NewScanner]. *)
Definition scanner_config (deps : Deps) : result setup_error Scanner.ScannerConfig :=
  match ScannerRuntime (d_Config deps) with
  | Err e => Err (Runtime e)
  | Ok (confirmations, startHeight, poll) =>
      let v := scn_MinimumDepositUsovr (cf_Scanner (d_Config deps)) in
      let ok minDeposit := Ok (Scanner.MkConfig (Manifest.nm_ChainID (d_Manifest deps)) confirmations poll startHeight
                                 minDeposit false None 0) in
      if empty v then ok None
      else match NewIntFromString v with
           | None => Err BadMinimumDeposit
           | Some n => ok (Some n)
           end
  end.

(** A duration of the reconciler, zero when not configured. *)
Definition interval (path v : string) : result setup_error Z :=
  if empty v then Ok 0
  else match Durations.ParseDuration v with Ok d => Ok d | Err _ => Err (BadDuration path) end.

Definition reconcilerRuntime (h : host) (deps : Deps)
    : result setup_error (Reconcile.Schedule * Reconcile.DisagreementConfig) :=
  let r := cf_Reconciler (d_Config deps) in
  try wallet := interval "reconciler.wallet_interval" (rec_WalletInterval r) in
  try full := interval "reconciler.full_address_interval" (rec_FullAddressInterval r) in
  try nrt := interval "SOVREN_RECONCILER_NRT_INTERVAL" (Getenv h "SOVREN_RECONCILER_NRT_INTERVAL") in
  let sched := Reconcile.MkSchedule nrt wallet full in
  match nd_Disagreement (cf_Nodes (d_Config deps)) with
  | None => Ok (sched, Reconcile.MkDisagreement "" 0 0 "" "" true)
  | Some dc =>
      try check := interval "nodes.disagreement.check_interval" (dg_CheckInterval dc) in
      Ok (sched, Reconcile.MkDisagreement "" check (dg_HeightDivergenceThreshold dc) "" "" true)
  end.

(** ** The signer *)

Inductive signer_error : Type :=
| EndpointRequired | InsecureOnMainnet | Dialling (e : RemoteSigner.new_error) | BinaryRequired
| AcknowledgementMissing | MnemonicMissing | LocalRefused (e : Signer.error) | DerivationFailed (e : Derive.derive_error)
| KindRequired | UnknownKind.

(** The signer built: a connection, a command, or keys in memory. *)
Inductive built : Type :=
| BuiltRemote (c : RemoteSigner.Client)
| BuiltExec (c : ExecSigner.Config)
| BuiltLocal (keys : Local.keystore).

Context `{W : Wire, D : HD}.

Definition build_remote (h : host) (endpoint networkType : string) : result signer_error built :=
  if empty endpoint then Err EndpointRequired
  else
    let caFile := Getenv h "SOVREN_SIGNER_TLS_CA_FILE" in
    let certFile := Getenv h "SOVREN_SIGNER_TLS_CERT_FILE" in
    let keyFile := Getenv h "SOVREN_SIGNER_TLS_KEY_FILE" in
    let dial cfg :=
      match RemoteSigner.New (h_tls h) cfg with Ok c => Ok (BuiltRemote c) | Err e => Err (Dialling e) end in
    if negb (empty caFile) || negb (empty certFile) || negb (empty keyFile) then
      dial (RemoteSigner.MkConfig endpoint
              (Some (RemoteSigner.MkTLS caFile certFile keyFile (Getenv h "SOVREN_SIGNER_TLS_SERVER_NAME") false)) false 0)
    else if bool_decide (Getenv h "SOVREN_SIGNER_ALLOW_INSECURE_DEV" = "true") then
      if GoStrings.EqualFold networkType "mainnet" then Err InsecureOnMainnet
      else dial (RemoteSigner.MkConfig endpoint None true 0)
    else dial (RemoteSigner.MkConfig endpoint None false 0).

Definition build_local (h : host) (networkType : string) : result signer_error built :=
  if negb (bool_decide (Getenv h "SOVREN_SIGNER_UNSAFE" = "UNSAFE_TEST_ONLY")) then Err AcknowledgementMissing
  else
    let mnemonic := Getenv h "SOVREN_SIGNER_MNEMONIC" in
    if empty mnemonic then Err MnemonicMissing
    else match Local.New (Local.MkOptions true networkType) with
         | Err e => Err (LocalRefused e)
         | Ok keys =>
             let hdPath := Getenv h "SOVREN_SIGNER_HD_PATH" in
             let hdPath := if empty hdPath then Derive.DefaultHDPath else hdPath in
             match Derive.DeriveAddress mnemonic hdPath with
             | Err e => Err (DerivationFailed e)
             | Ok derived =>
                 match Local.ImportKey keys (Derive.d_Bech32 derived) (Derive.d_PrivateKey derived) with
                 | (Some e, _) => Err (LocalRefused e)
                 | (None, keys) => Ok (BuiltLocal keys)
                 end
             end
         end.

Definition buildWithdrawalsSigner (h : host) (deps : Deps) : result signer_error built :=
  let kind := sg_Kind (cf_Signer (d_Config deps)) in
  let endpoint := sg_Endpoint (cf_Signer (d_Config deps)) in
  let networkType := Manifest.nm_NetworkType (d_Manifest deps) in
  if bool_decide (kind = "grpc-remote") then build_remote h endpoint networkType
  else if bool_decide (kind = "exec") then
    if empty endpoint then Err BinaryRequired
    else match ExecSigner.New (ExecSigner.MkConfig endpoint [] 0) with
         | None => Err BinaryRequired
         | Some c => Ok (BuiltExec c)
         end
  else if bool_decide (kind = "unsafe-local") then build_local h networkType
  else if bool_decide (kind = "") then Err KindRequired
  else Err UnknownKind.

(** ** The services *)

Inductive service_error : Type := SignerFailed (e : signer_error) | ConfigFailed (e : setup_error) | Stopped (e : err).

Definition lift_service (r : result err unit) : result service_error unit :=
  match r with Ok u => Ok u | Err e => Err (Stopped e) end.

(** [runWithdrawalsService] with its setup; the signer that was built is the one
    that answers the workflow's calls. *)
Definition withdrawals_setup (h : host) (deps : Deps) : result service_error (built * Withdrawals.Workflow) :=
  match buildWithdrawalsSigner h deps with
  | Err e => Err (SignerFailed e)
  | Ok sg =>
      match withdrawalsWorkflowConfig h deps with
      | Err e => Err (ConfigFailed e)
      | Ok cfg =>
          match Withdrawals.New cfg with
          | Err e => Err (Stopped e)
          | Ok wf => Ok (sg, wf)
          end
      end
  end.
Definition runWithdrawalsService (n k : nat) (h : host) (deps : Deps) : handler (result service_error unit) :=
  match withdrawals_setup h deps with
  | Err e => Done (Err e)
  | Ok (_, wf) => let* r := Services.runWithdrawalsService wf n k in Done (lift_service r)
  end.

(** [runSweeperService]: idle without a strategy, no signer when custody is
    abstracted. *)
Definition sweeper_setup (h : host) (deps : Deps) : result service_error (option (option built * Sweeps.Engine)) :=
  let v := swp_Strategy (cf_Sweeps (d_Config deps)) in
  if empty v then Ok None
  else match enum_parse v with
       | None =>
           (* no known strategy, so not the one without a signer; refused by [New] *)
           match buildWithdrawalsSigner h deps, sweeperEngineConfig h deps StrategyFeeReserve with
           | Err e, _ => Err (SignerFailed e)
           | _, Err e => Err (ConfigFailed e)
           | Ok _, Ok _ => Err (Stopped ErrOther)
           end
       | Some strategy =>
           match (if bool_decide (strategy = StrategyCustodyAbstract) then Ok None
                  else match buildWithdrawalsSigner h deps with Ok sg => Ok (Some sg) | Err e => Err e end) with
           | Err e => Err (SignerFailed e)
           | Ok sg =>
               match sweeperEngineConfig h deps strategy with
               | Err e => Err (ConfigFailed e)
               | Ok cfg =>
                   match Sweeps.New (bool_decide (is_Some sg)) cfg with
                   | Err e => Err (Stopped e)
                   | Ok e => Ok (Some (sg, e))
                   end
               end
           end
       end.
Definition runSweeperService (n k : nat) (h : host) (deps : Deps) : handler (result service_error unit) :=
  match sweeper_setup h deps with
  | Err e => Done (Err e)
  | Ok None => Done (Ok tt)
  | Ok (Some (_, e)) => let* r := Services.runSweeperService e n k in Done (lift_service r)
  end.

(** [firstHotWallet] *)
Definition firstHotWallet (chainID : string) : handler string :=
  let* watched := stmt (Watch_ListActive chainID) in
  Done (match watched with
        | Err _ => ""
        | Ok l => match List.find (fun w => bool_decide (wa_Kind w = WatchHotWallet)) l with
                  | Some w => wa_Address w
                  | None => ""
                  end
        end).

(** The components [runReconciler] starts. *)
Inductive component : Type :=
| Gauges
| Schedules (r : Reconcile.Reconciler) (s : Reconcile.Schedule)
| Disagreement (c : Reconcile.DisagreementConfig).

Definition reconciler_setup (h : host) (deps : Deps) : handler (result service_error (list component)) :=
  let chainID := Manifest.nm_ChainID (d_Manifest deps) in
  match reconcilerRuntime h deps with
  | Err e => Done (Err (ConfigFailed e))
  | Ok (sched, dis) =>
      match Reconcile.New true chainID with
      | Err e => Done (Err (Stopped e))
      | Ok rec =>
          if negb (d_Failover deps) then Done (Ok [Gauges; Schedules rec sched])
          else
            let* hw := firstHotWallet chainID in
            match Reconcile.NewMonitor
                    (Reconcile.MkDisagreement chainID (Reconcile.dc_Interval dis) (Reconcile.dc_HeightTolerance dis)
                       hw hw (Reconcile.dc_CompareHashAtCheckpoint dis)) with
            | Err e => Done (Err (Stopped e))
            | Ok mon => Done (Ok [Gauges; Schedules rec sched; Disagreement mon])
            end
      end
  end.

(** ** The gauges *)

Definition gaugeListLimit : Z := 10000.

(** One gauge set, before the conversion to a float. *)
Inductive gauge : Type :=
| ControlsPaused (flow : ControlFlow) (paused : bool)
| ReviewQueueDepth (n : Z)
| ChainReviewConditionsOpen (t : ChainReviewTrigger) (n : Z)
| DepositBacklog (n : Z)
| HotWalletBalanceUsovr (addr : string) (n : Z).

Definition count_trigger (open : list ChainReviewCondition) (t : ChainReviewTrigger) : Z :=
  Z.of_nat (List.length (List.filter (fun c => bool_decide (cr_Trigger c = t)) open)).

(** The balances of the hot and fee wallets; a node error skips the wallet. *)
Fixpoint wallet_gauges (watched : list WatchedAddress) : handler (list gauge) :=
  match watched with
  | [] => Done []
  | w :: watched' =>
      if negb (bool_decide (wa_Kind w = WatchHotWallet)) && negb (bool_decide (wa_Kind w = WatchFeeWallet))
      then wallet_gauges watched'
      else
        let* bal := ask (CBalance (wa_Address w) BaseDenom) in
        let* rest := wallet_gauges watched' in
        Done (match bal with Ok n => HotWalletBalanceUsovr (wa_Address w) n :: rest | Err _ => rest end)
  end.

(** The gauges set, and the error that ended the pass early. *)
Definition refreshGauges (chainID : string) : handler (list gauge * option err) :=
  let* controls := stmt (Controls_Get chainID) in
  match controls with
  | Err e => Done ([], Some e)
  | Ok c =>
  let g1 := [ControlsPaused FlowCredit (oc_CreditPaused c); ControlsPaused FlowSigning (oc_SigningPaused c);
             ControlsPaused FlowBroadcast (oc_BroadcastPaused c); ControlsPaused FlowSweep (oc_SweepPaused c)] in
  let* review := stmt (Review_ListOpen chainID gaugeListLimit) in
  match review with
  | Err e => Done (g1, Some e)
  | Ok review =>
  let g2 := g1 ++ [ReviewQueueDepth (Z.of_nat (List.length review))] in
  let* open := stmt (ChainReview_ListOpen chainID) in
  match open with
  | Err e => Done (g2, Some e)
  | Ok open =>
  let g3 := g2 ++ map (fun t => ChainReviewConditionsOpen t (count_trigger open t)) AllChainReviewTriggers in
  let* backlog := stmt (Deposits_ListByStatus chainID DepositCreditable gaugeListLimit) in
  match backlog with
  | Err e => Done (g3, Some e)
  | Ok backlog =>
  let g4 := g3 ++ [DepositBacklog (Z.of_nat (List.length backlog))] in
  let* watched := stmt (Watch_ListActive chainID) in
  match watched with
  | Err e => Done (g4, Some e)
  | Ok watched =>
  let* g5 := wallet_gauges watched in
  Done (g4 ++ g5, None)
  end end end end end.

(** [runGaugeLoop], stopped after [k] ticks. *)
Definition runGaugeLoop (k : nat) (chainID : string) : handler unit :=
  Services.ticks (S k) (Services.attempt (refreshGauges chainID)).

End startup.
End Startup.
