(* ===== verification/StartupLaws.v ===== *)
(** * StartupLaws: what a started adapter has checked

    Nothing is written and nothing started unless the node serves the manifest's
    chain; what holds once the services start; which signers can be built on
    mainnet; that a configuration that loads also sets the services up; and that
    the gauges only read. *)

From stdpp Require Import base list strings gmap.
From Stdlib Require Import ZArith Lia Ascii String.
From S2P Require Import Prelude Workers Text GoStrings Durations NetAddr Amounts Storage Database SqlStore SqlLaws.
From S2P Require Import Chain Address Manifest Tx Fees Signers RemoteSigner ExecSigner RemoteLaws Withdrawals Sweeps.
From S2P Require Import Interference Services Scanner Reconcile AdapterConfig Startup.
Import SqlStore Interference AdapterConfig Startup.

Open Scope string_scope.
Open Scope list_scope.
Open Scope Z_scope.

Module StartupLaws.

Section startup.
Context `{X : Ext, ME : Manifest.ManifestExt}.

(** The configuration the command line leads to. *)
Definition loads (h : host) (args : list string) (cfg : Config) (m : Manifest.NetworkManifest)
    (services : list string) : Prop :=
  exists fl, Parse "adapter.yaml" args = Some fl /\ fl_args fl = services /\
    LoadConfig (h_machine h) (fl_config fl) = Ok (cfg, m).

(** The startup in two halves: what is decided before the node is asked, and
    what happens when it has answered. *)
Definition after_status (h : host) (cfg : Config) (m : Manifest.NetworkManifest) (failover : bool)
    (runners : gset string) (status : result err NodeStatus) : handler (result Z started) :=
  match status with
  | Err _ => Done (Err exitChainError)
  | Ok status =>
  if negb (bool_decide (ns_ChainID status = Manifest.nm_ChainID m)) then Done (Err exitChainError)
  else
  let* seeded := seedWatchSet cfg (Manifest.nm_ChainID m) in
  match seeded with
  | Err _ => Done (Err exitStorageError)
  | Ok _ =>
  match serveHTTP h (met_Listen (cf_Metrics cfg)) ":9464" with
  | None => Done (Err exitConfigError)
  | Some metrics =>
  match serveHTTP h (adm_Listen (cf_Admin cfg)) "127.0.0.1:9465" with
  | None => Done (Err exitConfigError)
  | Some admin => Done (Ok (MkStarted (MkDeps cfg m failover) runners metrics admin))
  end end end end.

Lemma startup_cases h args :
  (exists code, startup h args = Done (Err code) /\ 1 <= code <= 3) \/
  exists cfg m services failover runners,
    loads h args cfg m services /\ services <> [] /\ select_services ∅ services = Some runners /\
    openStore h cfg = true /\ buildClient h cfg = Some failover /\
    startup h args = Call CNodeStatus (after_status h cfg m failover runners).
Proof.
  unfold startup, loads. destruct (Parse _ args) as [fl|] eqn:Ep; [|by left; eexists].
  destruct (fl_args fl) as [|a l] eqn:Ea; [by left; eexists|].
  destruct (select_services ∅ (a :: l)) as [runners|] eqn:Es; [|by left; eexists].
  destruct (LoadConfig _ _) as [[cfg m]|e] eqn:El; [|by left; eexists].
  destruct (openStore h cfg) eqn:Eo; [|by left; eexists].
  destruct (buildClient h cfg) as [failover|] eqn:Eb; [|by left; eexists].
  right. exists cfg, m, (a :: l), failover, runners. split_and!; try done. by exists fl.
Qed.

(** The node said it serves the manifest's chain. *)
Definition right_chain (h : host) (args : list string) (tr : trace) : Prop :=
  exists cfg m services st, loads h args cfg m services /\ ns_ChainID st = Manifest.nm_ChainID m /\
    tr = [answered CNodeStatus (Ok st)].

Lemma seed_asks cfg chainID : asks (fun _ (_ : call _) => False) (seedWatchSet cfg chainID).
Proof.
  unfold seedWatchSet. induction (scn_Watch (cf_Scanner cfg)) as [|w l IH]; cbn [r_for]; [done|].
  unfold r_bind. apply asks_bind; [done|]. by intros [].
Qed.

Lemma asks_nothing {A} R (p : handler A) s tr a s' :
  asks (fun _ (_ : call _) => False) p -> exec R p s tr a s' -> tr = [].
Proof.
  intros Ha H. pose proof (exec_asks _ _ _ _ _ _ _ Ha H) as Hf. destruct tr; [done|]. by apply Forall_cons in Hf as [? _].
Qed.

Lemma after_status_exec R h cfg m failover runners st s tr res s' :
  exec R (after_status h cfg m failover runners st) s tr res s' ->
  (exists code, res = Err code /\ 1 <= code <= 3 /\ s' = s /\ tr = []) \/
  (exists ns, st = Ok ns /\ ns_ChainID ns = Manifest.nm_ChainID m /\ tr = []).
Proof.
  unfold after_status. destruct st as [ns|e]; [|intros (-> & -> & ->); left; by eexists].
  case_bool_decide as Hc; cbn [negb]; [|intros (-> & -> & ->); left; by eexists].
  intros H. right. exists ns. split_and!; try done.
  apply exec_bind in H as (r & s1 & t1 & t2 & -> & H1 & H2).
  rewrite (asks_nothing _ _ _ _ _ _ (seed_asks _ _) H1).
  repeat case_match; by destruct H2 as (-> & _).
Qed.


(** ** What a started adapter has *)

Definition watched_active (chainID addr : string) (s : Store) : Prop :=
  exists w, w ∈ st_watched s /\ watched_at chainID addr w = true /\ wa_Active w = true.

Lemma watched_at_iff chainID addr w :
  watched_at chainID addr w = true <-> wa_ChainID w = chainID /\ wa_Address w = addr.
Proof. unfold watched_at. by rewrite andb_true_iff, !bool_decide_eq_true. Qed.

(** One entry is made active, and no address stops being active. *)
Lemma watch_entry_active chainID w s u s' : watch_entry chainID w s = (Ok u, s') ->
  watched_active chainID (we_Address w) s' /\
  forall c addr, watched_active c addr s -> watched_active c addr s'.
Proof.
  unfold watch_entry. destruct (enum_parse (we_Kind w)) as [kind|] eqn:Ek;
    [|unfold tx_bind, tx_require; destruct (negb _); done].
  unfold Watch_Upsert. set (new := MkWatched _ _ _ _ _ true).
  unfold tx_bind, tx_require. destruct (negb _); [|done]. destruct (Valid _); [|done]. cbn [tx_ret].
  unfold upsert_row. set (p := watched_at _ _). intros H. apply (f_equal snd) in H. cbn [snd] in H. subst s'.
  assert (p new = true) as Hnew by (by apply watched_at_iff).
  assert (forall c addr v, p v = true -> watched_at c addr v = true -> watched_at c addr new = true) as Hsame.
  { intros c addr v Hp Hv. apply watched_at_iff in Hp as [E1 E2]. apply watched_at_iff in Hv as [E3 E4].
    apply watched_at_iff. simpl in *. by rewrite <-E1, <-E2. }
  unfold watched_active. change st_watched with (rows (R := WatchedAddress)).
  destruct (existsb p (rows s)) eqn:Ex; rewrite rows_set.
  - split.
    + apply existsb_exists in Ex as (v & Hv & Hpv). exists new. split; [|done].
      apply list_elem_of_fmap. exists v. rewrite Hpv. split; [done|]. by apply list_elem_of_In.
    + intros c addr (v & Hv & Hat & Ha). destruct (p v) eqn:Hpv.
      * exists new. split; [|split; [by eapply Hsame|done]]. apply list_elem_of_fmap. exists v. by rewrite Hpv.
      * exists v. split; [|done]. apply list_elem_of_fmap. exists v. by rewrite Hpv.
  - split.
    + exists new. split; [|done]. apply elem_of_app. right. by left.
    + intros c addr (v & Hv & Hat & Ha). exists v. split; [|done]. apply elem_of_app. by left.
Qed.

(** After a seeding that succeeds, every configured address is active. *)
Lemma seed_active (o : oracle (C := call)) chainID l : forall s,
  let r := run o (r_for l (fun w => stmt (watch_entry chainID w))) s in
  o_value r = Ok tt -> let s' := o_state r in
  Forall (fun w => watched_active chainID (we_Address w) s') l /\
  forall c addr, watched_active c addr s -> watched_active c addr s'.
Proof.
  induction l as [|w l IH]; intros s; [done|]. cbn [r_for]. unfold r_bind, stmt. cbn [p_bind run].
  destruct (with_tx (watch_entry chainID w) s) as [[[]|e] s1] eqn:E; [|done]. cbn [run].
  intros H. apply with_tx_ok, watch_entry_active in E as [Hw Hkeep]. destruct (IH s1 H) as [Hl Hk]. split; [|by auto].
  constructor; [by apply Hk|done].
Qed.

Lemma select_services_spec services : forall r runners, select_services r services = Some runners ->
  r ⊆ runners /\ (forall n, n ∈ runners -> n ∈ r \/ n ∈ registry) /\
  (forall n, n ∈ services -> n <> "all" -> n ∈ runners) /\ ("all" ∈ services -> list_to_set registry ⊆ runners).
Proof.
  induction services as [|x l IH]; intros r runners; cbn [select_services].
  - intros [= <-]. split_and!; [done|auto|..]; intros; by match goal with H : _ ∈ [] |- _ => apply not_elem_of_nil in H end.
  - case_bool_decide as Hall; [|case_bool_decide as Hreg; [|done]]; intros H; apply IH in H as (H1 & H2 & H3 & H4).
    + subst x. split_and!.
      * set_solver.
      * intros n Hn. apply H2 in Hn as [Hn|Hn]; [|by right]. apply elem_of_union in Hn as [Hn|Hn]; [right|by left].
        by apply elem_of_list_to_set in Hn.
      * intros n Hn Hne. apply elem_of_cons in Hn as [->|Hn]; [done|by auto].
      * intros _. set_solver.
    + split_and!.
      * set_solver.
      * intros n Hn. apply H2 in Hn as [Hn|Hn]; [|by right]. apply elem_of_union in Hn as [Hn|Hn]; [right|by left].
        by apply elem_of_singleton in Hn as ->.
      * intros n Hn Hne. apply elem_of_cons in Hn as [->|Hn]; [|by auto]. apply H1. set_solver.
      * intros Hn. apply elem_of_cons in Hn as [?|Hn]; [by subst|by auto].
Qed.

(** An adapter that starts its services has a loaded configuration and a
    well-formed manifest, an admin listener that is on this host or asks for a
    token, every watch entry of the configuration active in the database, and
    starts the services the command line names, all of them registered. *)
Theorem started_adapter_is_ready (o : oracle (C := call)) (h : host) (args : list string) (s : Store) (st : started)
    (H : o_value (run o (startup h args) s) = Ok st) :
  let cfg := d_Config (s_deps st) in let m := d_Manifest (s_deps st) in
  let s' := o_state (run o (startup h args) s) in
  exists services, loads h args cfg m services /\ Manifest.wellformed m /\
    guarded (cf_Admin cfg) /\ h_Listen h (s_admin st) = true /\
    (s_admin st = adm_Listen (cf_Admin cfg) \/ s_admin st = "127.0.0.1:9465") /\
    Forall (fun w => watched_active (Manifest.nm_ChainID m) (we_Address w) s') (scn_Watch (cf_Scanner cfg)) /\
    (forall n, n ∈ s_runners st -> n ∈ registry) /\
    (forall n, n ∈ services -> n <> "all" -> n ∈ s_runners st) /\
    ("all" ∈ services -> list_to_set registry ⊆ s_runners st).
Proof.
  destruct (startup_cases h args) as [(code & E & _)|(cfg & m & services & fo & runners & Hl & _ & Hs & _ & _ & E)];
    rewrite E in H |- *; [done|]. cbn [run o_value o_state] in *. revert H.
  unfold after_status. destruct (o _ CNodeStatus) as [ns|]; [|done]. case_bool_decide; cbn [negb]; [|done].
  rewrite run_bind. cbv zeta. cbn [o_value o_state].
  pose proof (seed_active o (Manifest.nm_ChainID m) (scn_Watch (cf_Scanner cfg)) s) as Hseed. unfold seedWatchSet.
  destruct (run o (r_for _ _) s) as [v s1 calls] eqn:Er. cbn [o_value o_state] in *.
  destruct v as [[]|]; [|done]. destruct (Hseed eq_refl) as [Hw _].
  destruct (serveHTTP h (met_Listen _) _) as [metrics|]; [|done].
  destruct (serveHTTP h (adm_Listen _) _) as [admin|] eqn:Ea; [|done].
  cbn [run o_value o_state]. intros [= <-]. cbn [s_deps s_runners s_admin d_Config d_Manifest].
  pose proof Hl as (fl & _ & _ & Hload).
  apply LoadConfig_ok in Hload as (data & decoded & dsn & token & _ & _ & _ & _ & _ & _ & Hg & Hm & _).
  apply select_services_spec in Hs as (_ & H2 & H3 & H4).
  exists services. split_and!; try done.
  - unfold Manifest.LoadManifest in Hm. case_match; [|done]. by eapply Manifest.accepted_wellformed.
  - unfold serveHTTP in Ea. destruct (h_Listen h _) eqn:El; [|done]. injection Ea as <-. done.
  - unfold serveHTTP in Ea. destruct (h_Listen h _); [|done]. injection Ea as <-. destruct (empty _); [by right|by left].
  - intros n Hn. apply H2 in Hn as [Hn|Hn]; [by apply not_elem_of_empty in Hn|done].
Qed.

(** An operator's deactivation of a configured address does not survive a restart. *)
Lemma seed_reactivates chainID w s : chainID <> "" -> we_Address w <> "" ->
  is_Some (enum_parse (A := WatchedAddressKind) (we_Kind w)) ->
  exists s', watch_entry chainID w s = (Ok tt, s') /\ watched_active chainID (we_Address w) s'.
Proof.
  intros Hc Ha [kind Hk].
  destruct (watch_entry chainID w s) as [r s'] eqn:E. exists s'. pose proof E as E'.
  unfold watch_entry in E'. rewrite Hk in E'. unfold Watch_Upsert, tx_bind, tx_require, SqlStore.empty in E'.
  rewrite !bool_decide_eq_false_2 in E' by done. cbn [orb negb] in E'. rewrite Valid_true in E'. cbn [tx_ret] in E'.
  unfold upsert_row in E'. assert (r = Ok tt) as -> by congruence.
  split; [done|]. by apply watch_entry_active in E as [? _].
Qed.

(** ** The signer on mainnet *)

Context `{W : Wire, D : HD}.

(** A connection dialled with TLS has the certificates it was given, and without
    TLS or the development switch there is none. *)
Lemma dialled_tls h target t ins c :
  RemoteSigner.New h (RemoteSigner.MkConfig target (Some t) ins 0) = Ok c -> RemoteSigner.AllowServerOnly t = false ->
  RemoteSigner.c_target c = target /\
  exists tc pem, RemoteSigner.c_creds c = RemoteSigner.WithTLS tc /\
    RemoteSigner.tc_Certificate tc = Some (RemoteSigner.CertFile t, RemoteSigner.KeyFile t) /\
    RemoteSigner.tc_RootCAs tc = Some pem /\ RemoteSigner.ReadFile h (RemoteSigner.CAFile t) = Some pem.
Proof.
  intros H Hs. apply RemoteLaws.New_authenticated in H as (Ht & _ & H). split; [done|].
  destruct (RemoteSigner.c_creds c) as [tc|]; [|by destruct H].
  destruct H as (t' & [= <-] & [E|(Hc & pem & Hr & Hf & _)]); [congruence|]. by exists tc, pem.
Qed.
Lemma dialled_nothing h target c : RemoteSigner.New h (RemoteSigner.MkConfig target None false 0) = Ok c -> False.
Proof.
  intros H. apply RemoteLaws.New_authenticated in H as (_ & _ & H).
  destruct (RemoteSigner.c_creds c); [by destruct H as (? & ? & _)|by destruct H].
Qed.

(** C14: on mainnet the adapter never signs with keys held in memory and never
    talks to a remote signer in plaintext: the signer built for a manifest whose
    network type folds to mainnet is a command, or a connection over TLS with the
    configured CA and the adapter's own certificate. *)
Theorem mainnet_signer_authenticated (h : host) (deps : Deps) (b : built)
    (Hmain : GoStrings.EqualFold (Manifest.nm_NetworkType (d_Manifest deps)) "mainnet" = true)
    (Hb : buildWithdrawalsSigner h deps = Ok b) :
  match b with
  | BuiltLocal _ => False
  | BuiltExec c => ExecSigner.Path c = sg_Endpoint (cf_Signer (d_Config deps)) /\ ExecSigner.Path c <> ""
  | BuiltRemote c =>
      RemoteSigner.c_target c = sg_Endpoint (cf_Signer (d_Config deps)) /\
      exists tc pem, RemoteSigner.c_creds c = RemoteSigner.WithTLS tc /\
        RemoteSigner.tc_Certificate tc =
          Some (Getenv h "SOVREN_SIGNER_TLS_CERT_FILE", Getenv h "SOVREN_SIGNER_TLS_KEY_FILE") /\
        RemoteSigner.tc_RootCAs tc = Some pem /\
        RemoteSigner.ReadFile (h_tls h) (Getenv h "SOVREN_SIGNER_TLS_CA_FILE") = Some pem
  end.
Proof.
  revert Hb. unfold buildWithdrawalsSigner. cbv zeta. case_bool_decide as Ek; [|case_bool_decide as Ex; [|case_bool_decide as El]].
  - unfold build_remote. rewrite Hmain. destruct (empty _); [done|]. cbv zeta.
    destruct (_ || _) eqn:Et.
    + destruct (RemoteSigner.New _ _) as [c|] eqn:En; [|done]. intros [= <-].
      apply dialled_tls in En as [-> (tc & pem & H)]; [|done]. split; [done|]. by exists tc, pem.
    + case_bool_decide; [done|]. destruct (RemoteSigner.New _ _) as [c|] eqn:En; [|done].
      by destruct (dialled_nothing _ _ _ En).
  - unfold SqlStore.empty. case_bool_decide as Ee; [done|]. unfold ExecSigner.New, GoStrings.empty. cbn [ExecSigner.Path].
    rewrite bool_decide_eq_false_2 by done. intros [= <-]. done.
  - unfold build_local. destruct (negb _); [done|]. cbv zeta. destruct (empty _); [done|].
    unfold Local.New. cbn [Local.NetworkType]. by rewrite Hmain.
  - case_bool_decide; done.
Qed.

(** ** A loaded configuration sets the services up *)

Context `{NL : !NumericLaws X}.

(** A canonical amount of at most 256 bits. *)
Definition amount (v : string) : Prop := v <> "" /\ value (chars v) < 2 ^ 256.

Lemma canonical_digits v : matches integerRe (chars v) = true -> all_digits (chars v) /\ chars v <> [].
Proof.
  intros H. apply Amounts.baseRe_canonical in H as [Hd H]. split; [done|]. by destruct H as [->|(c & t & -> & _)].
Qed.

Lemma canonical_amount v : matches integerRe (chars v) = true -> value (chars v) < 2 ^ 256 ->
  NewIntFromString v = Some (value (chars v)) /\ Withdrawals.parseBaseUnits v = Ok (value (chars v)).
Proof.
  intros Hm Hv. destruct (canonical_digits v Hm) as [Hd Hne].
  assert (NewIntFromString v = Some (value (chars v))) as E.
  { rewrite <-(of_chars_chars v) at 1. rewrite NewIntFromString_digits by done. by rewrite decide_True. }
  split; [done|]. unfold Withdrawals.parseBaseUnits, Tx.is_digits. rewrite E.
  rewrite (bool_decide_eq_false_2 (v = "")) by (intros ->; done). rewrite bool_decide_eq_false_2 by done.
  cbn [orb negb andb].
  rewrite (proj2 (forallb_forall _ _)); [done|]. intros c Hc. unfold all_digits in Hd. rewrite Forall_forall in Hd. apply Hd.
  by apply list_elem_of_In.
Qed.

Lemma decimal_parses v : matches decimalRe (chars v) = true ->
  GoStrings.TrimSpace v = v /\ exists w f, Fees.decimal_of (chars v) w f.
Proof.
  intros H. apply Amounts.displayRe_writes in H as (w & f & Hw & Hf & E).
  assert (all_digits w /\ w <> []) as [Hd Hne] by (split; [apply Hw|by destruct Hw as [_ [->|(? & ? & -> & _)]]]).
  split; [|by exists w, f].
  assert (forall c, is_digit c = true -> Manifest.plain c = true) as Hp
    by (intros; by apply Manifest.hex_plain, Manifest.digit_hex).
  assert (exists c, head (chars v) = Some c /\ is_digit c = true) as (c & Hh & Hc).
  { rewrite E. destruct w as [|c w]; [done|]. apply Forall_cons in Hd as [? _]. by exists c. }
  assert (exists d, last (chars v) = Some d /\ is_digit d = true) as (d & Hl & Hdd).
  { assert (forall t, all_digits t -> t <> [] -> exists d, last t = Some d /\ is_digit d = true) as Hlast.
    { intros t Ht Htne. destruct (exists_last Htne) as (t' & d & ->). exists d. rewrite last_snoc.
      apply Forall_app in Ht as [_ Ht]. by apply Forall_cons in Ht as [? _]. }
    rewrite E. case_bool_decide as Ef; [rewrite app_nil_r; by apply Hlast|].
    destruct (Hlast f Hf Ef) as (d & Hl & Hdd). exists d. split; [|done].
    rewrite last_app. by rewrite last_cons, Hl. }
  rewrite <-(of_chars_chars v). eapply Manifest.TrimSpace_ends; eauto.
Qed.

Lemma prohibit_ok l : forall set, Forall (fun d => valid_address d = true) l ->
  exists set', Services.prohibit set l = Ok set' /\ set ⊆ set'.
Proof.
  induction l as [|d l IH]; intros set Hl; cbn [Services.prohibit]; [by exists set|].
  apply Forall_cons in Hl as [Hd Hl]. unfold valid_address in Hd. rewrite Hd. cbn [negb].
  destruct (IH ({[Address.vr_NormalizedAddress (Address.ValidateAccountAddress d)]} ∪ set) Hl) as (set' & -> & Hs).
  exists set'. split; [done|]. set_solver.
Qed.

Lemma positive_interval path v : v = "" \/ positive_duration v -> exists d, interval path v = Ok d /\ (v <> "" -> 0 < d).
Proof.
  unfold interval, SqlStore.empty. case_bool_decide as E; [by exists 0|]. intros [|(d & -> & Hd)]; [done|]. by exists d.
Qed.

Lemma positive_timeout path v : v = "" \/ positive_duration v -> exists d, broadcast_timeout path v = Ok d /\ 0 < d.
Proof.
  unfold broadcast_timeout, SqlStore.empty. case_bool_decide as E; [by eexists|].
  intros [|(d & -> & Hd)]; [done|]. by exists d.
Qed.

Lemma runtime_ok cfg : checked cfg ->
  match scn_Confirmations (cf_Scanner cfg) with Some n => 1 <= n <= 12 | None => True end ->
  exists confirmations start poll, ScannerRuntime cfg = Ok (confirmations, start, poll) /\ 1 <= confirmations <= 12.
Proof.
  intros Hck Hc. pose proof (ck_durations cfg Hck) as Hd. unfold durations in Hd.
  apply Forall_cons in Hd as [Hpoll _]. unfold ScannerRuntime, GoStrings.empty. cbv zeta.
  assert (match scn_Confirmations (cf_Scanner cfg) with Some n => (n <? 1) || (12 <? n) | None => false end = false) as ->.
  { destruct (scn_Confirmations _) as [n|]; [|done]. apply orb_false_iff. rewrite !Z.ltb_ge. lia. }
  assert (1 <= match scn_Confirmations (cf_Scanner cfg) with Some n => n | None => Scanner.DefaultConfirmations end <= 12).
  { destruct (scn_Confirmations _); [done|]. unfold Scanner.DefaultConfirmations. lia. }
  case_bool_decide as E; [by eauto 6|]. destruct Hpoll as [|(d & -> & _)]; [done|]. by eauto 6.
Qed.

(** What the withdrawals service needs of the economic values, beyond what the
    configuration's own checks establish. *)
Record economics (cfg : Config) (m : Manifest.NetworkManifest) : Prop := {
  ec_confirmations : match scn_Confirmations (cf_Scanner cfg) with Some n => 1 <= n <= 12 | None => True end;
  ec_minimum : amount (wdr_MinimumWithdrawalUsovr (cf_Withdrawals cfg));
  ec_maxfee : amount (wdr_MaxFeeUsovr (cf_Withdrawals cfg));
  ec_adjustment : exists adj, Fees.parseDecimal (wdr_GasAdjustment (cf_Withdrawals cfg)) = Ok adj /\ Fees.isZero adj = false;
  ec_price : exists p d, GoStrings.TrimSpace (Manifest.mf_RecommendedGasPrice (Manifest.nm_Fees m)) =
    p +:+ Manifest.nm_BaseDenom m /\ p <> "" /\ Fees.parseDecimal p = Ok d }.

Lemma New_ok c mn mx adj price pol : Withdrawals.cfg_ChainID c <> "" ->
  Withdrawals.parseBaseUnits (Withdrawals.cfg_MinimumWithdrawalUsovr c) = Ok mn ->
  Withdrawals.parseBaseUnits (Withdrawals.cfg_MaxFeeUsovr c) = Ok mx ->
  Fees.parseDecimal (Withdrawals.cfg_GasAdjustment c) = Ok adj -> Fees.isZero adj = false ->
  Fees.parseDecimal (Withdrawals.cfg_GasPriceUsovr c) = Ok price ->
  Withdrawals.cfg_SimulateUnavailable c = Some pol -> Withdrawals.cfg_StaticGasLimit c <> 0 ->
  Withdrawals.cfg_Confirmations c <> 0 -> exists wf, Withdrawals.New c = Ok wf.
Proof.
  intros Hc H1 H2 H3 Hnz H4 H5 Hg Hn. unfold Withdrawals.New, Withdrawals.parse, SqlStore.empty.
  rewrite bool_decide_eq_false_2, H1, H2, H3, H4, Hnz, H5 by done.
  rewrite (proj2 (Z.eqb_neq _ _) Hg), (proj2 (Z.eqb_neq _ _) Hn). destruct pol; by eexists.
Qed.

Lemma withdrawals_config_ok h cfg m failover : checked cfg -> Manifest.wellformed m -> economics cfg m ->
  Getenv h "SOVREN_WITHDRAWALS_STATIC_GAS" = "" ->
  exists c wf, withdrawalsWorkflowConfig h (MkDeps cfg m failover) = Ok c /\ Withdrawals.New c = Ok wf /\
    Withdrawals.cfg_ChainID c = Manifest.nm_ChainID m /\ 0 < Withdrawals.cfg_BroadcastTimeout c.
Proof.
  intros Hck Hm [Hconf [Hmin1 Hmin2] [Hmax1 Hmax2] (adj & Hadj & Hnz) (p & d & Hprice & Hp & Hpd)] Henv.
  destruct (runtime_ok cfg Hck Hconf) as (cs & start & poll & Hrt & Hcs).
  pose proof (ck_durations cfg Hck) as Hd. unfold durations in Hd.
  apply Forall_cons in Hd as [_ Hd]. apply Forall_cons in Hd as [Hbt _].
  destruct (positive_timeout "broadcast_timeout" _ Hbt) as (bt & Hbt' & Hbtpos).
  pose proof (ck_integers cfg Hck) as Hi. unfold integers in Hi.
  apply Forall_cons in Hi as [_ Hi]. apply Forall_cons in Hi as [[|Him] Hi]; [done|].
  apply Forall_cons in Hi as [[|Hix] _]; [done|].
  pose proof (ck_decimals cfg Hck) as Hdec. unfold decimals in Hdec. apply Forall_cons in Hdec as [Hga _].
  assert (wdr_GasAdjustment (cf_Withdrawals cfg) <> "") as Hgane by (intros E; by rewrite E in Hadj).
  destruct Hga as [|Hga]; [done|]. destruct (decimal_parses _ Hga) as [Htrim _].
  destruct (prohibit_ok _ Address.DefaultProhibitedModuleAccounts (ck_destinations cfg Hck)) as (set & Hset & _).
  assert (Manifest.nm_ChainID m <> "") as Hchain.
  { pose proof (Manifest.wf_strings m Hm) as Hs. apply Forall_cons in Hs as [_ Hs].
    apply Forall_cons in Hs as [[Hf _] _]. intros E. by rewrite E in Hf. }
  unfold withdrawalsWorkflowConfig. cbn [d_Config d_Manifest]. cbv zeta. rewrite Hrt, Hbt', Henv. cbn [static_gas].
  unfold withdrawalsGasPrice, resolveGasAdjustment. cbv zeta.
  rewrite Hprice, GoStrings.TrimSuffix_app, Htrim. unfold SqlStore.empty.
  rewrite (bool_decide_eq_false_2 (p = "")), (bool_decide_eq_false_2 (wdr_GasAdjustment _ = "")) by done. cbn [negb].
  unfold Services.resolveProhibitedDestinations. rewrite Hset.
  change (static_gas "") with (Ok (E := setup_error) 120000). cbv beta iota. set (c := Withdrawals.MkConfig _ _ _ _ _ _ _ _ _ _ _).
  destruct (New_ok c _ _ adj d (if bool_decide (wdr_SimulateUnavailable (cf_Withdrawals cfg) = "static")
    then Withdrawals.SimulateStatic else Withdrawals.SimulateQueue) Hchain
    (proj2 (canonical_amount _ Him Hmin2)) (proj2 (canonical_amount _ Hix Hmax2)) Hadj Hnz Hpd)
    as [wf Hwf]; [done|done|cbn; lia|]. by exists c, wf.
Qed.

Lemma scanner_config_ok cfg m failover : checked cfg -> Manifest.wellformed m ->
  match scn_Confirmations (cf_Scanner cfg) with Some n => 1 <= n <= 12 | None => True end ->
  value (chars (scn_MinimumDepositUsovr (cf_Scanner cfg))) < 2 ^ 256 ->
  exists sc sc' base, scanner_config (MkDeps cfg m failover) = Ok sc /\ Scanner.NewScanner sc = Ok (sc', base) /\
    1 <= Scanner.sc_Confirmations sc' <= 12 /\ 0 < Scanner.sc_PollInterval sc'.
Proof.
  intros Hck Hm Hconf Hmin. destruct (runtime_ok cfg Hck Hconf) as (cs & start & poll & Hrt & Hcs).
  assert (Manifest.nm_ChainID m <> "") as Hchain.
  { pose proof (Manifest.wf_strings m Hm) as Hs. apply Forall_cons in Hs as [_ Hs].
    apply Forall_cons in Hs as [[Hf _] _]. intros E. by rewrite E in Hf. }
  pose proof (ck_integers cfg Hck) as Hi. unfold integers in Hi. apply Forall_cons in Hi as [Hi _].
  assert (forall mn, exists sc' base, Scanner.NewScanner (Scanner.MkConfig (Manifest.nm_ChainID m) cs poll start mn false None 0) = Ok (sc', base) /\
    1 <= Scanner.sc_Confirmations sc' <= 12 /\ 0 < Scanner.sc_PollInterval sc') as Hnew.
  { intros mn. unfold Scanner.NewScanner, SqlStore.empty. cbn. rewrite bool_decide_eq_false_2 by done.
    rewrite (proj2 (Z.eqb_neq cs 0)) by lia. rewrite (proj2 (Z.ltb_ge 12 cs)) by lia. eexists _, _. split; [done|].
    split; [done|]. cbn. destruct (Z.leb_spec poll 0); [done|lia]. }
  unfold scanner_config. cbn [d_Config d_Manifest]. rewrite Hrt. cbv zeta. unfold SqlStore.empty. case_bool_decide as E.
  - destruct (Hnew None) as (sc' & base & ?). eexists _, sc', base. by split.
  - destruct Hi as [|Hi]; [done|]. rewrite (proj1 (canonical_amount _ Hi Hmin)).
    destruct (Hnew (Some (value (chars (scn_MinimumDepositUsovr (cf_Scanner cfg)))))) as (sc' & base & ?).
    eexists _, sc', base. by split.
Qed.

Lemma reconciler_runtime_ok h cfg m failover : checked cfg -> Getenv h "SOVREN_RECONCILER_NRT_INTERVAL" = "" ->
  exists sched dis, reconcilerRuntime h (MkDeps cfg m failover) = Ok (sched, dis).
Proof.
  intros Hck Henv. pose proof (ck_durations cfg Hck) as Hd. unfold durations in Hd.
  apply Forall_app in Hd as [Hd Hdis].
  apply Forall_cons in Hd as [_ Hd]. apply Forall_cons in Hd as [_ Hd]. apply Forall_cons in Hd as [Hw Hd].
  apply Forall_cons in Hd as [Hf _].
  destruct (positive_interval "reconciler.wallet_interval" _ Hw) as (w & Hw' & _).
  destruct (positive_interval "reconciler.full_address_interval" _ Hf) as (f & Hf' & _).
  unfold reconcilerRuntime. cbn [d_Config]. cbv zeta. rewrite Hw', Hf', Henv. cbn [interval].
  destruct (nd_Disagreement (cf_Nodes cfg)) as [dc|]; [|by eexists _, _].
  apply Forall_cons in Hdis as [Hdc _].
  destruct (positive_interval "nodes.disagreement.check_interval" _ Hdc) as (c & -> & _). by eexists _, _.
Qed.

(** A configuration that loads sets its services up: with a confirmation
    depth of one to twelve, amounts that fit 256 bits, a gas adjustment that is
    not zero and a gas price in the base denomination, the scanner, the
    reconciler and the withdrawal workflow are all configured, for the manifest's
    chain and with positive intervals, instead of failing after the startup. *)
Theorem loaded_config_sets_up_services (h : host) (path : string) (cfg : Config) (m : Manifest.NetworkManifest)
    (failover : bool) (Hload : LoadConfig (h_machine h) path = Ok (cfg, m)) (Hec : economics cfg m)
    (Hmin : value (chars (scn_MinimumDepositUsovr (cf_Scanner cfg))) < 2 ^ 256)
    (Hgas : Getenv h "SOVREN_WITHDRAWALS_STATIC_GAS" = "") (Hnrt : Getenv h "SOVREN_RECONCILER_NRT_INTERVAL" = "") :
  let deps := MkDeps cfg m failover in
  (exists sc sc' base, scanner_config deps = Ok sc /\ Scanner.NewScanner sc = Ok (sc', base) /\
     1 <= Scanner.sc_Confirmations sc' <= 12 /\ 0 < Scanner.sc_PollInterval sc') /\
  (exists sched dis, reconcilerRuntime h deps = Ok (sched, dis)) /\
  (exists c wf, withdrawalsWorkflowConfig h deps = Ok c /\ Withdrawals.New c = Ok wf /\
     Withdrawals.cfg_ChainID c = Manifest.nm_ChainID m /\ 0 < Withdrawals.cfg_BroadcastTimeout c).
Proof.
  destruct (LoadConfig_ok (h_machine h) path cfg m Hload)
    as (data & decoded & dsn & token & _ & _ & Ec & Hv & _ & _ & _ & Hm & _).
  unfold Manifest.LoadManifest in Hm. case_match; [|done]. apply Manifest.accepted_wellformed in Hm.
  assert (checked cfg) as Hck by (rewrite Ec; by apply checked_secrets, validate_checked).
  split_and!; [apply scanner_config_ok|apply reconciler_runtime_ok|apply withdrawals_config_ok]; try done. apply Hec.
Qed.

(** A zero gas adjustment passes the checks and is refused by the workflow. *)
Lemma zero_adjustment_refused h deps c : wdr_GasAdjustment (cf_Withdrawals (d_Config deps)) = "0" ->
  requireDecimal "withdrawals.gas_adjustment" "0" = [] /\
  (withdrawalsWorkflowConfig h deps = Ok c -> forall wf, Withdrawals.New c <> Ok wf).
Proof.
  intros E. split; [reflexivity|]. unfold withdrawalsWorkflowConfig. cbv zeta. rewrite E.
  change (resolveGasAdjustment "0" _) with (Ok (E := setup_error) "0").
  destruct (ScannerRuntime _) as [[[cs ?] ?]|]; [|done]. destruct (broadcast_timeout _ _); [|done].
  destruct (static_gas _); [|done]. destruct (withdrawalsGasPrice _ _); [|done].
  destruct (Services.resolveProhibitedDestinations _); [|done]. intros [= <-] wf.
  unfold Withdrawals.New, Withdrawals.parse. cbn [Withdrawals.cfg_GasAdjustment].
  change (Fees.parseDecimal "0") with (Ok (E := err) (Fees.MkDecimal 0 1)).
  destruct (SqlStore.empty _); [done|].
  destruct (Withdrawals.parseBaseUnits _); [|done]. destruct (Withdrawals.parseBaseUnits _); [|done].
  by destruct (Fees.parseDecimal _).
Qed.

(** ** The gauges *)

Local Ltac reads :=
  unfold Controls_Get, getControls, Review_ListOpen, ChainReview_ListOpen, Deposits_ListByStatus, Watch_ListActive;
  free_steps.

Lemma wallet_gauges_reads l : frames eq (wallet_gauges l).
Proof. induction l as [|w l IH]; cbn [wallet_gauges]; [done|]. frames_walk ltac:(reads); done. Qed.

Lemma refreshGauges_reads chainID : frames eq (refreshGauges chainID).
Proof. unfold refreshGauges. cbv zeta. frames_walk ltac:(reads); apply wallet_gauges_reads. Qed.

(** Only balances are asked for. *)
Definition balance_call (T : Type) (c : call T) : Prop := match c with CBalance _ _ => True | _ => False end.

Lemma wallet_gauges_asks l : asks balance_call (wallet_gauges l).
Proof. induction l as [|w l IH]; cbn [wallet_gauges]; [done|]. asks_walk ltac:(exact Logic.I); done. Qed.
Lemma refreshGauges_asks chainID : asks balance_call (refreshGauges chainID).
Proof. unfold refreshGauges. cbv zeta. asks_walk ltac:(exact Logic.I); apply wallet_gauges_asks || (intros ?; exact Logic.I). Qed.


(** What the gauges mirror. *)
Definition paused_of (c : OperationalControls) (f : ControlFlow) : bool :=
  match f with
  | FlowCredit => oc_CreditPaused c | FlowSigning => oc_SigningPaused c
  | FlowBroadcast => oc_BroadcastPaused c | FlowSweep => oc_SweepPaused c
  end.
Definition open_reviews (chainID : string) (s : Store) : list ReviewItem :=
  List.filter (fun i => bool_decide (ri_ChainID i = chainID) && negb (is_some (ri_ResolvedAt i))) (st_reviews s).
Definition open_conditions (chainID : string) (t : ChainReviewTrigger) (s : Store) : list ChainReviewCondition :=
  List.filter (fun c => bool_decide (cr_Trigger c = t)) (List.filter (open_condition chainID) (st_chainReviews s)).

Lemma run_reads {A} (o : oracle (C := call)) (p : handler A) s : frames eq p -> o_state (run o p s) = s.
Proof.
  intros Hp. destruct (run_exec eq o p s) as [tr H]. symmetry.
  by eapply (inert_reads (fun _ => True) _ Hp eq); [apply _|exact H|].
Qed.

Lemma limit_count {A} n (l : list A) : 0 < n ->
  Z.of_nat (List.length (limit n l)) = Z.min n (Z.of_nat (List.length l)).
Proof. intros Hn. unfold limit. rewrite (proj2 (Z.ltb_lt _ _) Hn), length_take. lia. Qed.

Lemma count_perm {A} (p : A -> bool) l l' : l ≡ₚ l' -> List.length (List.filter p l) = List.length (List.filter p l').
Proof.
  induction 1 as [|x l l' _ IH|x y l|l1 l2 l3 _ IH1 _ IH2]; cbn [List.filter]; [done|..|congruence].
  - destruct (p x); cbn [List.length]; by rewrite IH.
  - by destruct (p x), (p y).
Qed.

Lemma run_stmt {A B} (o : oracle (C := call)) (m : db A) (f : result err A -> handler B) s r :
  m s = (Ok r, s) -> run o (p_bind (stmt m) f) s = run o (f (Ok r)) s.
Proof. intros E. cbn [stmt p_bind run]. unfold with_tx. by rewrite E. Qed.

Lemma Controls_Get_of chainID s : Controls_Get chainID s = (Ok (SqlLaws.controls_at chainID s), s).
Proof.
  unfold Controls_Get, getControls, SqlLaws.controls_at, tx_bind, tx_try, select_row.
  change (rows s) with (st_controls s). by destruct (List.find _ (st_controls s)).
Qed.

(** Refreshing the gauges only reads: in every execution, with the other
    workers changing the database as they may, it writes nothing and asks the
    node for balances only; and it completes, showing the four pause flags, the
    open review items and the creditable deposits up to the list limit, and the
    open chain-review conditions of every trigger. *)
Theorem gauges_only_read (chainID : string) :
  (forall (R : Store -> Store -> Prop), PreOrder R -> forall s tr res s',
     exec R (refreshGauges chainID) s tr res s' -> R s s' /\ Forall (fun e => balance_call _ (fst (projT2 e))) tr) /\
  (forall (o : oracle (C := call)) s, let r := run o (refreshGauges chainID) s in
     exists g, o_value r = (g, None) /\ o_state r = s /\
       (forall f, ControlsPaused f (paused_of (SqlLaws.controls_at chainID s) f) ∈ g) /\
       ReviewQueueDepth (Z.min gaugeListLimit (Z.of_nat (List.length (open_reviews chainID s)))) ∈ g /\
       (forall t, ChainReviewConditionsOpen t (Z.of_nat (List.length (open_conditions chainID t s))) ∈ g) /\
       DepositBacklog (Z.min gaugeListLimit (Z.of_nat (List.length
         (List.filter (fun d => bool_decide (d_ChainID d = chainID) && bool_decide (d_Status d = DepositCreditable))
            (st_deposits s))))) ∈ g).
Proof.
  split.
  - intros R HR s tr res s' H. split.
    + by eapply (inert_reads (fun _ => True)); [apply refreshGauges_reads| |exact H|].
    + by eapply exec_asks; [apply refreshGauges_asks|].
  - intros o s. cbv zeta. unfold refreshGauges.
    rewrite (run_stmt _ _ _ _ _ (Controls_Get_of chainID s)). cbv zeta.
    erewrite run_stmt by reflexivity. erewrite run_stmt by reflexivity. erewrite run_stmt by reflexivity.
    erewrite run_stmt by reflexivity. rewrite run_bind. cbv zeta. cbn [o_value o_state run].
    eexists. split; [reflexivity|]. split; [apply run_reads, wallet_gauges_reads|]. rewrite !elem_of_app.
    split_and!.
    + intros f. rewrite !elem_of_app. do 4 left. destruct f; cbn [paused_of]; repeat first [by left|right].
    + do 3 left. right. apply list_elem_of_singleton. by rewrite limit_count.
    + intros t. rewrite !elem_of_app. do 2 left. right. apply list_elem_of_fmap. exists t.
      split; [|destruct t; repeat first [by left|right]]. unfold count_trigger, open_conditions. do 2 f_equal.
      apply count_perm. symmetry. apply order_by_perm.
    + left. right. apply list_elem_of_singleton. by rewrite limit_count.
Qed.

End startup.
End StartupLaws.
