(* ===== verification/StartupSample.v ===== *)
(** * StartupSample: a concrete adapter

    A manifest, a configuration and a machine on which the adapter starts, and
    the theorems of [AdapterConfig] and [StartupLaws] applied to them. *)

From stdpp Require Import base list strings gmap.
From Stdlib Require Import ZArith Lia Ascii String Strings.Byte.
From S2P Require Import Prelude Workers Text GoStrings Durations NetAddr Storage Database SqlStore Chain Address Manifest.
From S2P Require Import Fees Signers RemoteSigner ExecSigner Sample SignerSample Withdrawals Scanner.
From S2P Require Import AdapterConfig Startup StartupLaws.
Import SqlStore AdapterConfig Startup StartupLaws.

Open Scope string_scope.
Open Scope list_scope.
Open Scope Z_scope.

Module StartupSample.

Existing Instance Sample.sample.
Existing Instance Sample.sample_numeric.
Existing Instance SignerSample.wire.
Existing Instance SignerSample.hd.

Definition manifest (network : string) : Manifest.NetworkManifest :=
  Manifest.MkManifest 1 "Sovren" network "sovr-1" "sovrd" "$HOME/.sovr" "sovr" "sovrvaloper" "sovrvalcons" "usovr" "SOVR" 6
    "SOVR" "secp256k1" "ed25519" 118
    (Manifest.MkVersions "v0.53.6" "v0.38.21" "v10.4.0" "v0.60.1" "1.25.7" "v0.19.0")
    (Manifest.MkFees "0.001usovr" "0.025usovr" "1.3") (Manifest.MkPorts 26656 26657 9090 1317 26660)
    (Manifest.MkGenesis "04529695e7ccfe32fcf3bc8031c343056d27cbe4aa3b3046027e27065bb9a855" "genesis.json")
    [Manifest.MkEndpoint "rpc" "https://rpc.sovrchain.net" "sovren"]
    (Manifest.MkPeers ["381af5e4d0d5e24af3bb4d506b06081399622d01@seed1.mainnet.sovrchain.net:32000"] [])
    (Manifest.MkLinks "https://sovrscan.com" None None "registry/") [].

Definition config (signer : SignerConfig) (listen token : string) : Config :=
  MkConfig 1 "../network/network.yaml" (MkNodes (MkEndpoints "" "http://node:26657" "") None (Some (MkDisagreement 5 "30s")))
    (MkStorage "sqlite" "file:${DB}") (MkScanner (Some 2) None None "2s" "1000" [MkWatchEntry "sovr1src" "HOT_WALLET" false ""])
    (MkWithdrawals "1000" "5000" "1.3" "15s" "queue" ["sovr1dst"])
    (MkSweeps "" "" "" "" "" "" 0) signer (MkReconciler "1h" "24h") (MkAdmin listen token) (MkMetrics "") "".

(** Gas prices and decimals are read by the kit's own decimal parser. *)
Definition read_decimal (s : string) : option Z :=
  match Fees.parseDecimal s with Ok d => Some (Fees.dec_num d * 10 ^ 18 / Fees.dec_den d) | Err _ => None end.
Instance manifest_ext : Manifest.ManifestExt := {
  Manifest.yaml_probe b := if bool_decide (b = [x02]) || bool_decide (b = [x03]) then Some (Some 1) else None;
  Manifest.yaml_manifest b :=
    if bool_decide (b = [x02]) then Some (manifest "testnet")
    else if bool_decide (b = [x03]) then Some (manifest "mainnet") else None;
  Manifest.ParseDecCoin s := bool_decide (is_Some (read_decimal (GoStrings.TrimSuffix s "usovr")));
  Manifest.LegacyNewDecFromStr := read_decimal }.

Definition environment (name : string) : option string :=
  if bool_decide (name = "DB") then Some "/var/lib/adapter.db"
  else if bool_decide (name = "SOVREN_SIGNER_TLS_CA_FILE") then Some "ca.pem"
  else if bool_decide (name = "SOVREN_SIGNER_TLS_CERT_FILE") then Some "cert.pem"
  else if bool_decide (name = "SOVREN_SIGNER_TLS_KEY_FILE") then Some "key.pem"
  else None.

Definition files (net : Byte.byte) (path : string) : option bytes :=
  if bool_decide (path = "/etc/sovren/adapter.yaml") then Some [x01]
  else if bool_decide (path = "/etc/network/network.yaml") then Some [net] else None.
Definition remote : SignerConfig := MkSigner "grpc-remote" "signer:9000".
Definition sample_host (net : Byte.byte) : Startup.host :=
  MkHost (MkMachine (files net) environment
            (fun b => if bool_decide (b = [x01]) then Some (config remote "127.0.0.1:9465" "") else None))
    (fun _ _ => true) (fun _ => true) (fun _ => true) (fun _ => true)
    (RemoteSigner.MkHost (fun _ => Some [x30]) (fun _ => true) (fun _ _ => true) (fun _ => true)).

Definition loaded : Config :=
  set_secrets (set_dir (config remote "127.0.0.1:9465" "") "/etc/sovren") "file:/var/lib/adapter.db" "".

Definition args : list string := ["--config=/etc/sovren/adapter.yaml"; "scanner"; "withdrawals"].

Lemma loads_sample net : net = x02 \/ net = x03 ->
  LoadConfig (h_machine (sample_host net)) "/etc/sovren/adapter.yaml" =
  Ok (loaded, manifest (if bool_decide (net = x02) then "testnet" else "mainnet")).
Proof. intros [-> | ->]; vm_compute; reflexivity. Qed.

Definition node (chain : string) : oracle (C := call) := answering
  (MkAnswers (Err ErrOther) (Err ErrClientNotFound) (Err ErrOther) (Err ErrOther) (Err ErrOther)
     (Ok (MkNodeStatus chain 100 false)) (Err ErrOther) (Err ErrOther) 0).

(** ** Witnesses *)



(** On the manifest's chain the two services named start, with the hot wallet
    watched. *)
Lemma started_adapter_is_ready_witness :
  exists st, o_value (run (node "sovr-1") (startup (sample_host x02) args) (empty_store 0)) = Ok st /\
    s_admin st = "127.0.0.1:9465" /\ guarded (cf_Admin (d_Config (s_deps st))) /\ "withdrawals" ∈ s_runners st /\
    watched_active "sovr-1" "sovr1src" (o_state (run (node "sovr-1") (startup (sample_host x02) args) (empty_store 0))).
Proof.
  destruct (o_value (run (node "sovr-1") (startup (sample_host x02) args) (empty_store 0))) as [st|code] eqn:E;
    [|exfalso; vm_compute in E; discriminate E].
  exists st. split; [reflexivity|].
  destruct (started_adapter_is_ready (node "sovr-1") (sample_host x02) args (empty_store 0) st E)
    as (services & Hl & _ & Hg & _ & Ha & Hw & _ & Hn & _).
  destruct Hl as (fl & Hp & <- & Hl).
  assert (fl = MkFlags "/etc/sovren/adapter.yaml" ["scanner"; "withdrawals"]) as -> by (vm_compute in Hp; congruence).
  cbn [fl_config fl_args] in *. rewrite (loads_sample x02 (or_introl eq_refl)) in Hl.
  injection Hl as Ec Em. rewrite <-Ec in *. rewrite <-Em in Hw.
  split; [by destruct Ha as [-> | ->]|]. split; [exact Hg|]. split; [apply Hn; [right; by left|discriminate]|].
  by apply Forall_cons in Hw as [Hw _].
Defined.

(** The mainnet signer of the sample is dialled with its certificate. *)
Lemma mainnet_signer_authenticated_witness :
  exists b, buildWithdrawalsSigner (sample_host x03) (MkDeps loaded (manifest "mainnet") false) = Ok (BuiltRemote b) /\
    RemoteSigner.c_target b = "signer:9000".
Proof.
  destruct (buildWithdrawalsSigner (sample_host x03) (MkDeps loaded (manifest "mainnet") false)) as [b|e] eqn:E;
    [|exfalso; vm_compute in E; discriminate E].
  pose proof (mainnet_signer_authenticated (sample_host x03) (MkDeps loaded (manifest "mainnet") false) b eq_refl E) as H.
  destruct b as [c|c|k]; [|exfalso; vm_compute in E; discriminate E..]. exists c. split; [reflexivity|]. apply H.
Defined.

Lemma loaded_config_sets_up_services_witness :
  exists c wf, withdrawalsWorkflowConfig (sample_host x02) (MkDeps loaded (manifest "testnet") false) = Ok c /\
    Withdrawals.New c = Ok wf /\ 0 < Withdrawals.cfg_BroadcastTimeout c.
Proof.
  destruct (loaded_config_sets_up_services (sample_host x02) "/etc/sovren/adapter.yaml" loaded (manifest "testnet") false)
    as (_ & _ & c & wf & Hc & Hwf & _ & Ht); [apply (loads_sample x02); by left| |vm_compute; reflexivity..|].
  - split; [done|by split|by split|eexists; split; [vm_compute; reflexivity|reflexivity]|].
    exists "0.025". eexists. split; [vm_compute; reflexivity|]. split; [done|vm_compute; reflexivity].
  - exists c, wf. split; [exact Hc|]. split; [exact Hwf|exact Ht].
Defined.

End StartupSample.
